(* ===== verification/_CoqProject ===== *)
-Q . S2P
Prelude.v
Errno.v
DList.v
Buddy.v
BuddySpec.v
PmmInit.v
PmmInitSpec.v
BuddyTrace.v
BuddyTheorems.v
PmmRef.v
Pcp.v
PcpSpec.v
Slab.v
SlabSpec.v
SlabLists.v
SlabCalls.v
SlabShrink.v
Pmm.v
PmmSpec.v
PmmTrace.v
PmmBoot.v
PmmTheorems.v
Kheap.v
KheapCalls.v
KheapTrace.v
KheapTheorems.v
Cred.v
Pledge.v
Unveil.v
Ksec.v
SecCtx.v
SecurityTheorems.v
Fd.v
FdSpec.v
FdOps.v
FdSocks.v
FdProc.v
FdTheorems.v
UnixNs.v
UnixNsSpec.v
Ring.v
Pipe.v
PipeTheorems.v
UnixSock.v
UnixTheorems.v
EventFd.v
EventFdTheorems.v
Sha256.v
Sha256Theorems.v
ChaCha20.v
Random.v
CryptoTheorems.v
Vma.v
VmaSpec.v
VmaTheorems.v
Frames.v
PmmFrames.v
PageTable.v
PageTableSpec.v
PageTableOps.v
PageClone.v
PageFree.v
Shmem.v
Pcache.v
PcacheSpec.v
PcacheOps.v
PageFault.v
FilePage.v
ShmemSpec.v
PageFaultSpec.v
FaultHandler.v
AddressSpace.v
SpaceSpec.v
VmTrace.v
FrameModel.v
MemoryTheorems.v
CacheTheorems.v
