(* ===== verification/Prelude.v ===== *)
(** * The MakaOS kernel: a verification development

    MakaOS is a monolithic x86-64 kernel in C with its own user land.  This
    library models the parts of the kernel that decide who owns which memory,
    who may do what, and how bytes travel between processes, as executable
    definitions, and proves what those parts promise.

    ** How the model relates to the code

    A C integer of width w is a [Z], and arithmetic that can leave the width is
    wrapped where the source computes it ([u8], [u16], [u32], [u64], [s32],
    [s64] below).  Numeric constants keep their C names; the small ones are
    abbreviations that are gone after parsing.  Memory that code reaches through
    pointers is an explicit store in the state of the component; following a
    pointer to something that is not there, or indexing outside an array, is a
    fault, the value [None] of the option monad, so a theorem that a call
    returns [Some] says that it is memory-safe.  A function that the source
    runs under a lock, or with interrupts off on its own CPU, is one step.
    Calls that sleep are cut at the sleep; their interleavings are the runs of
    a step relation.  Whether a memory allocation succeeds is an argument
    ([mem]), and theorems hold for every choice of it unless they say otherwise.
    Recursion that is not structural has fuel; every theorem that a call returns
    proves that the fuel its definition passes is enough: the number of frames
    or list entries a loop can visit, one more than the number of areas for the
    search for address space, the number of slots for a probe of a hash table.

    ** The components

    Physical memory, kernel/mm/pmm.c and kernel/mm/pcp.c.  [DList] has doubly
    linked lists threaded through memory.  [Buddy] is the page allocator with
    its free lists and coalesce bitmaps, [PmmInit] its construction from the
    firmware memory map, [PmmRef] the reference and pin counts of frames, [Pcp]
    the per-CPU stashes, [Slab] the object allocator, [Pmm] the public calls.
    Their invariants and lemmas are in [BuddySpec],
    [PmmInitSpec], [PcpSpec], [SlabSpec], [SlabLists], [SlabCalls],
    [SlabShrink], [PmmSpec], traces of calls in [BuddyTrace] and
    [PmmTrace], a booted system in [PmmBoot].  [BuddyTheorems] and
    [PmmTheorems] show that allocation and release are right on every branch
    and complete, that over every sequence of calls live blocks and objects
    never overlap and nothing is lost, that a drained allocator is back where
    it started, and that booting hands out exactly the free memory.

    The kernel heap, kernel/mm/kheap.c, kernel/mm/slab_pcpu.c, the calls of
    kernel/mm/pmm.c that lend slab pages to a CPU, and a round of
    kernel/mm/slab_shrinker.c.  [Kheap] has the slots of the CPUs, refilling
    them, [kmalloc] and [kfree]; [KheapCalls] what pages on loan do to the slab
    invariant, the invariant of the heap and its calls, [KheapTrace] the runs of
    all users of memory together and the heap after [kheap_init].  A refill runs once per call of [kmalloc]: the slot has
    an object after one that succeeds.  [KheapTheorems] shows that objects never
    overlap anything that is held and have room for their size over every
    sequence of calls on all CPUs, what [kmalloc] returns, and four ways in which
    memory is lost or too small.

    Security, kernel/security and the calls of kernel/syscall/syscall.c,
    kernel/proc/process.c and kernel/proc/elf.c that change a security context.
    [Cred] has credentials, access lists and the permission check, [Pledge] the
    system-call groups and the gate of the dispatcher, [Unveil] the table of
    visible paths, [Ksec] the channel to the policy agent, [SecCtx] the calls.
    [SecurityTheorems] shows that the permission check is the POSIX rule, that
    an unprivileged process never gains anything through these calls, that
    unveil is a map with prefix lookup, that serialised requests get their own
    answers, and where confinement leaks.

    Open files, kernel/fs/vfs.h, kernel/security/rights.h, the descriptor calls
    of kernel/syscall/syscall.c and descriptor passing of
    kernel/net/unix_sock.c.  [Fd] has the store of open files, the descriptor
    tables, and the calls; [FdSpec], [FdOps], [FdSocks] and [FdProc] the
    invariant and its preservation; [FdTheorems] shows that the reference count
    of every file is the number of references to it over every sequence of
    calls, forks, execs and exits, what restricting a descriptor does, and the
    error paths that break the count.

    Local communication, kernel/net/unix_sock.c, kernel/fs/pipe.c and
    kernel/io/eventfd.c.  [UnixNs] is the hash table of bound paths
    ([UnixNsSpec] its probing invariant), [Ring] the byte ring both transports
    use, [UnixSock] the sockets, [Pipe] and [EventFd] the others.
    [UnixTheorems], [PipeTheorems] and [EventFdTheorems] show that the table is
    a map, that transfers deliver every byte in order and end, that the event
    counter is conserved under every interleaving, and which calls stall or use
    freed sockets.

    Cryptography, kernel/crypto.  [Sha256], [ChaCha20] and [Random] model the
    hash, the cipher and the generator; [Sha256Theorems] and
    [CryptoTheorems] show that hashing in pieces is hashing the whole as FIPS
    180-4 defines it, that the cipher is its own inverse and seekable, what a
    random read returns, and the overrun of the interrupt sink.  The published
    test vectors are evaluated in the witnesses.

    Address spaces, kernel/mm/mm.c and brk, mmap and munmap of
    kernel/syscall/syscall.c.  [Vma] has the areas and the calls, [VmaSpec] the
    map they stand for; [VmaTheorems] shows that the list implements the map,
    that the search for room ends and is complete, that a clone is exact, that
    mapping calls keep the list and the references right, and what the calls
    accept or break.

    Page tables and their users, kernel/mm/vmm.c, kernel/mm/shmem.c,
    kernel/mm/pcache.c, and the parts of kernel/proc/process.c and
    kernel/syscall/syscall.c that make, share and release address spaces.
    [Frames] is the interface the physical allocator has for them, a class of
    operations and a class of laws; [PmmFrames] proves that the allocator of
    [Pmm] keeps the laws, on each CPU and beside other clients.  [PageTable] has
    the tables as words in physical memory with the walk, mapping, unmapping,
    the new root, the copy-on-write clone and the release; [PageTableSpec] the
    tree they form, [PageTableOps] the map they stand for, [PageClone] and
    [PageFree] the recursions.  [Shmem] has shared memory objects, their names
    and calls, [Pcache] the cache of file pages; [ShmemSpec], [PcacheSpec] and
    [PcacheOps] their invariants.  [PageFault] has the fault handler, pinning
    and prefaulting; [FilePage], [PageFaultSpec] and [FaultHandler] what each
    stage of a fault does.  [AddressSpace] has fork, threads and exit,
    [SpaceSpec] their effect on the tables, and [VmTrace] runs of tasks that
    share pages, against one private memory per task.  [FrameModel] is a small
    instance of the interface on which the witnesses run.  [MemoryTheorems] and
    [CacheTheorems] show that the tables implement a map, that a fork copies a
    space and that undoing it restores every count, that the fault handler
    resolves exactly what the areas allow with the right contents, that every
    space is a memory of its own under every sequence of operations, that the
    cache and the objects are what they should be, and seven things that go
    wrong.  File contents are an argument of the handler, as is the answer of
    the allocator of kernel objects.

    This file has the machine words, the tactics, the hint database and the
    lemmas the components share; [Errno] the error codes.

    ** Kinds of theorems

    Each property is one theorem with a comment that states it in words.  Some
    state what the code gets wrong, on a run that shows it; these are listed as
    findings with the project.  A theorem with hypotheses is followed by a
    witness that applies it to a concrete input.

    ** Not modelled

    The device drivers, interrupt and boot code, and the context switch are
    dominated by hardware access and assembly; so are the translation caches
    and their shootdown (kernel/mm/tlb.c): a change of a table takes effect at
    once, and the arms of the code that lose a race on a table entry are not
    taken.  The network stack, the file systems and their caches, terminals, the
    scheduler and RCU, signals, futexes and the remaining event descriptors, and
    the loader are not modelled.  The user land is a C library and applications over
    the system calls.  Weak memory is not modelled: steps are sequentially
    consistent. *)

From stdpp Require Export base gmap list option numbers relations.
From Stdlib Require Export ZArith Lia.

Global Open Scope Z_scope.

(** ** Machine words

    A [w]-bit C integer is a [Z]; arithmetic that can leave the width is
    wrapped explicitly where the source computes it. *)

Declare Scope word_scope.
Delimit Scope word_scope with word.

Definition u8 (x : Z) : Z := x mod 2 ^ 8.
Definition u16 (x : Z) : Z := x mod 2 ^ 16.
Definition u32 (x : Z) : Z := x mod 2 ^ 32.
Definition u64 (x : Z) : Z := x mod 2 ^ 64.

(** Two's-complement reinterpretation, [(int64_t)x]. *)
Definition s64 (x : Z) : Z :=
  let y := u64 x in if y <? 2 ^ 63 then y else y - 2 ^ 64.

Definition s32 (x : Z) : Z :=
  let y := u32 x in if y <? 2 ^ 31 then y else y - 2 ^ 32.

Notation "x +64 y" := (u64 (x + y)) (at level 50, left associativity) : word_scope.
Notation "x -64 y" := (u64 (x - y)) (at level 50, left associativity) : word_scope.
Notation "x +32 y" := (u32 (x + y)) (at level 50, left associativity) : word_scope.
Notation "x -32 y" := (u32 (x - y)) (at level 50, left associativity) : word_scope.

(** ** Tactics *)

(** [lia] with division and remainder turned into equations first. *)
Ltac mlia := Z.div_mod_to_equations; lia.

(** Split every [if] on a [Z] or [bool] comparison and reflect it. *)
Ltac zbool :=
  repeat match goal with
  | H : context [?a <? ?b] |- _ => destruct (Z.ltb_spec a b)
  | H : context [?a <=? ?b] |- _ => destruct (Z.leb_spec a b)
  | H : context [?a =? ?b] |- _ => destruct (Z.eqb_spec a b)
  | |- context [?a <? ?b] => destruct (Z.ltb_spec a b)
  | |- context [?a <=? ?b] => destruct (Z.leb_spec a b)
  | |- context [?a =? ?b] => destruct (Z.eqb_spec a b)
  end.

(** Follow a successful run through the binds, pairs and tests of [H]. *)
Ltac bind_inv H :=
  repeat match type of H with
  | mbind _ ?m = Some _ =>
      let E := fresh "E" in destruct m eqn:E; cbn [mbind option_bind] in H; [|discriminate H]
  | (let '(_, _) := ?p in _) = Some _ =>
      tryif is_var p then destruct p else (let E := fresh "E" in destruct p eqn:E)
  | (if ?b then _ else _) = Some _ => let E := fresh "E" in destruct b eqn:E
  | None = Some _ => discriminate H
  end.

Create HintDb word discriminated.
#[export] Hint Constants Opaque : word.

Lemma u8_range x : 0 <= u8 x < 2 ^ 8.
Proof. apply Z.mod_pos_bound. lia. Qed.
Lemma u16_range x : 0 <= u16 x < 2 ^ 16.
Proof. apply Z.mod_pos_bound. lia. Qed.
Lemma u32_range x : 0 <= u32 x < 2 ^ 32.
Proof. apply Z.mod_pos_bound. lia. Qed.
Lemma u64_range x : 0 <= u64 x < 2 ^ 64.
Proof. apply Z.mod_pos_bound. lia. Qed.
Lemma u8_id x : 0 <= x < 2 ^ 8 -> u8 x = x.
Proof. apply Z.mod_small. Qed.
Lemma u16_id x : 0 <= x < 2 ^ 16 -> u16 x = x.
Proof. apply Z.mod_small. Qed.
Lemma u32_id x : 0 <= x < 2 ^ 32 -> u32 x = x.
Proof. apply Z.mod_small. Qed.
Lemma u64_id x : 0 <= x < 2 ^ 64 -> u64 x = x.
Proof. apply Z.mod_small. Qed.
#[export] Hint Resolve u8_range u16_range u32_range u64_range : word.

(** ** Pages, kernel/include/common.h *)

Definition PAGE_SHIFT : Z := 12.
Definition PAGE_SIZE : Z := Z.shiftl 1 PAGE_SHIFT.
Definition PAGE_MASK : Z := PAGE_SIZE - 1.
Definition HHDM_OFFSET : Z := 0xFFFF800000000000.
Definition NULL : Z := 0.

(** ** Bit masks

    [x & m] with [m] a mask of set bits: the bitwise facts the permission
    components share. *)

Lemma land_subset_trans x m n :
  Z.land x m = x -> Z.land m n = m -> Z.land x n = x.
Proof. intros Hx Hm. by rewrite <- Hx, <- Z.land_assoc, Hm. Qed.

Lemma land_land_subset x m : Z.land (Z.land x m) x = Z.land x m.
Proof. rewrite Z.land_comm, Z.land_assoc, Z.land_diag. done. Qed.

Lemma land_idem_mask x m : Z.land (Z.land x m) m = Z.land x m.
Proof. by rewrite <- Z.land_assoc, Z.land_diag. Qed.

(** The bits of [need] all set in [have]. *)
Lemma land_eq_need_iff have need :
  Z.land have need = need <->
  forall i, Z.testbit need i = true -> Z.testbit have i = true.
Proof.
  split.
  - intros H i Hi. rewrite <- H, Z.land_spec in Hi. by apply andb_prop in Hi as [].
  - intros H. apply Z.bits_inj'. intros i _. rewrite Z.land_spec.
    destruct (Z.testbit need i) eqn:E; [by rewrite H|by rewrite andb_false_r].
Qed.

(** ** Tables built from a function *)

Lemma list_to_map_fun `{Countable K} {A} (g : K -> A) (l : list K) k :
  k ∈ l -> (list_to_map ((fun x => (x, g x)) <$> l) : gmap K A) !! k = Some (g k).
Proof.
  intros Hk. apply elem_of_list_to_map_1'.
  - intros y (x & [= <- ->] & _)%list_elem_of_fmap. done.
  - apply list_elem_of_fmap. by exists k.
Qed.

(** Clearing the offset bits of an address. *)
Lemma land_page_mask x : 0 <= x < 2 ^ 64 -> Z.land x (2 ^ 64 - 4096) = x / 4096 * 4096.
Proof.
  intros Hx. replace (2 ^ 64 - 4096) with (Z.ldiff (Z.ones 64) (Z.ones 12)) by reflexivity.
  assert (H1 : Z.land x (Z.ldiff (Z.ones 64) (Z.ones 12)) = Z.ldiff x (Z.ones 12)).
  { rewrite Z.ldiff_land, Z.land_assoc, Z.land_ones, Z.mod_small by lia. by rewrite Z.ldiff_land. }
  rewrite H1, Z.ldiff_ones_r by lia. rewrite Z.shiftl_mul_pow2, Z.shiftr_div_pow2 by lia. done.
Qed.
