(* ===== verification/Errno.v ===== *)
(** * Error numbers

    The codes of kernel/include/errno.h; a failing call returns the negated
    code. *)

From Stdlib Require Import ZArith.

Abbreviation EPERM := 1%Z (only parsing).
Abbreviation ENOENT := 2%Z (only parsing).
Abbreviation ESRCH := 3%Z (only parsing).
Abbreviation EINTR := 4%Z (only parsing).
Abbreviation EIO := 5%Z (only parsing).
Abbreviation ENOEXEC := 8%Z (only parsing).
Abbreviation ENODEV := 19%Z (only parsing).
Abbreviation EBADF := 9%Z (only parsing).
Abbreviation ECHILD := 10%Z (only parsing).
Abbreviation EAGAIN := 11%Z (only parsing).
Abbreviation ENOMEM := 12%Z (only parsing).
Abbreviation EACCES := 13%Z (only parsing).
Abbreviation EFAULT := 14%Z (only parsing).
Abbreviation EBUSY := 16%Z (only parsing).
Abbreviation EEXIST := 17%Z (only parsing).
Abbreviation ENOTDIR := 20%Z (only parsing).
Abbreviation EISDIR := 21%Z (only parsing).
Abbreviation EINVAL := 22%Z (only parsing).
Abbreviation ENFILE := 23%Z (only parsing).
Abbreviation EMFILE := 24%Z (only parsing).
Abbreviation ENOTTY := 25%Z (only parsing).
Abbreviation EFBIG := 27%Z (only parsing).
Abbreviation ENOSPC := 28%Z (only parsing).
Abbreviation ESPIPE := 29%Z (only parsing).
Abbreviation EPIPE := 32%Z (only parsing).
Abbreviation ERANGE := 34%Z (only parsing).
Abbreviation EDEADLK := 35%Z (only parsing).
Abbreviation ENAMETOOLONG := 36%Z (only parsing).
Abbreviation ENOSYS := 38%Z (only parsing).
Abbreviation ENOTEMPTY := 39%Z (only parsing).
Abbreviation ELOOP := 40%Z (only parsing).
Abbreviation EWOULDBLOCK := 11%Z (only parsing).
Abbreviation ENOMSG := 42%Z (only parsing).
Abbreviation ENOTSOCK := 88%Z (only parsing).
Abbreviation EDESTADDRREQ := 89%Z (only parsing).
Abbreviation ENOPROTOOPT := 92%Z (only parsing).
Abbreviation EOPNOTSUPP := 95%Z (only parsing).
Abbreviation EAFNOSUPPORT := 97%Z (only parsing).
Abbreviation EADDRINUSE := 98%Z (only parsing).
Abbreviation ECONNABORTED := 103%Z (only parsing).
Abbreviation ECONNRESET := 104%Z (only parsing).
Abbreviation ENOBUFS := 105%Z (only parsing).
Abbreviation EISCONN := 106%Z (only parsing).
Abbreviation ENOTCONN := 107%Z (only parsing).
Abbreviation ETIMEDOUT := 110%Z (only parsing).
Abbreviation ECONNREFUSED := 111%Z (only parsing).
Abbreviation ENETDOWN := 100%Z (only parsing).
Abbreviation ENETUNREACH := 101%Z (only parsing).
Abbreviation EHOSTUNREACH := 113%Z (only parsing).
Abbreviation EINPROGRESS := 115%Z (only parsing).
Abbreviation EALREADY := 114%Z (only parsing).
Abbreviation ECANCELED := 125%Z (only parsing).
