(* ===== verification/DList.v ===== *)
(** * Intrusive doubly linked lists

    The kernel keeps its free frames (kernel/mm/pmm.c, [free_block_t]) and its
    slab pages (kernel/mm/pmm.c, [slab_header_t]) on doubly linked lists whose
    [next]/[prev] pointers live inside the linked objects.  Both use the same
    push, unlink and pop sequences.  This file models the sequences once, over
    a memory [gmap Z A] that holds the linked objects by address, for any type
    [A] that carries the two pointers (class [Linked]); a load or store at an
    address the memory does not have is a fault ([None]).  The representation
    predicate [dll] ties the pointer structure to a list of addresses, and the
    [_spec] lemmas show that the sequences implement cons, removal and tail. *)

From S2P Require Import Prelude.

(** What a linkable object promises: two pointer fields, independent of each
    other, and a payload ([unlinked], the object with both pointers cleared)
    that pointer updates do not change. *)
Class Linked (A : Type) := {
  lnext : A -> Z;
  lprev : A -> Z;
  set_next : Z -> A -> A;
  set_prev : Z -> A -> A;
  lnext_set_next x a : lnext (set_next x a) = x;
  lnext_set_prev x a : lnext (set_prev x a) = lnext a;
  lprev_set_prev x a : lprev (set_prev x a) = x;
  lprev_set_next x a : lprev (set_next x a) = lprev a;
  set_next_set_next x y a : set_next x (set_next y a) = set_next x a;
  set_prev_set_prev x y a : set_prev x (set_prev y a) = set_prev x a;
  set_next_set_prev x y a : set_next x (set_prev y a) = set_prev y (set_next x a);
}.

Create Rewrite HintDb linked.
#[export] Hint Rewrite @lnext_set_next @lnext_set_prev @lprev_set_prev
  @lprev_set_next : linked.

Section dlist.
Context {A : Type} `{Linked A}.
Implicit Types (h : gmap Z A) (l : list Z) (p q hd nx node : Z).

(** ** The operations *)

(** [node->prev = NULL; node->next = *head; if ( *head) ( *head)->prev = node;
    *head = node]. *)
Definition dll_push h (head node : Z) : option (gmap Z A * Z) :=
  n ← h !! node;
  let h1 := <[node := set_next head (set_prev NULL n)]> h in
  if head =? NULL then Some (h1, node)
  else o ← h1 !! head; Some (<[head := set_prev node o]> h1, node).

(** [if (node->prev) node->prev->next = node->next; else *head = node->next;
    if (node->next) node->next->prev = node->prev;
    node->prev = NULL; node->next = NULL]. *)
Definition dll_remove h (head node : Z) : option (gmap Z A * Z) :=
  n ← h !! node;
  '(h1, head1) ←
    (if lprev n =? NULL then Some (h, lnext n)
     else p ← h !! lprev n; Some (<[lprev n := set_next (lnext n) p]> h, head));
  n1 ← h1 !! node;
  h2 ← (if lnext n1 =? NULL then Some h1
        else q ← h1 !! lnext n1; Some (<[lnext n1 := set_prev (lprev n1) q]> h1));
  n2 ← h2 !! node;
  Some (<[node := set_next NULL (set_prev NULL n2)]> h2, head1).

(** Unlink the first node: [*head = node->next; if ( *head) ( *head)->prev =
    NULL; node->next = NULL; node->prev = NULL]. *)
Definition dll_pop h (node : Z) : option (gmap Z A * Z) :=
  n ← h !! node;
  let head1 := lnext n in
  h1 ← (if head1 =? NULL then Some h
        else o ← h !! head1; Some (<[head1 := set_prev NULL o]> h));
  n1 ← h1 !! node;
  Some (<[node := set_prev NULL (set_next NULL n1)]> h1, head1).

(** ** Representation *)

(** [seg h p l hd nx]: following [next] from [hd] visits exactly [l] and then
    reaches [nx]; [prev] pointers lead back, the first one to [p]. *)
Fixpoint seg h p l hd nx : Prop :=
  match l with
  | [] => hd = nx
  | a :: l' => hd = a /\ a <> NULL /\
      exists n, h !! a = Some n /\ lprev n = p /\ seg h a l' (lnext n) nx
  end.

Definition dll h l hd : Prop := seg h NULL l hd NULL /\ NoDup l.

(** The payload of an object, [unlinked], and of a memory. *)
Definition unlinked (a : A) : A := set_next NULL (set_prev NULL a).

(** [h'] has the objects of [h], changed at most in their pointers. *)
Definition same_payload h h' : Prop := unlinked <$> h' = unlinked <$> h.

Lemma unlinked_set_next x a : unlinked (set_next x a) = unlinked a.
Proof. unfold unlinked. by rewrite !set_next_set_prev, set_next_set_next. Qed.

Lemma unlinked_set_prev x a : unlinked (set_prev x a) = unlinked a.
Proof. unfold unlinked. by rewrite set_prev_set_prev. Qed.

Lemma same_payload_insert h h' a n n' :
  same_payload h h' -> h' !! a = Some n -> unlinked n' = unlinked n ->
  same_payload h (<[a := n']> h').
Proof.
  unfold same_payload. intros <- Hn Heq. rewrite fmap_insert, Heq.
  apply insert_id. by rewrite lookup_fmap, Hn.
Qed.

Lemma same_payload_lookup h h' a n' :
  same_payload h h' -> h' !! a = Some n' ->
  exists n, h !! a = Some n /\ unlinked n = unlinked n'.
Proof.
  unfold same_payload. intros Hp Hn.
  assert (Hf : (unlinked <$> h) !! a = Some (unlinked n')) by (by rewrite <- Hp, lookup_fmap, Hn).
  rewrite lookup_fmap, fmap_Some in Hf. destruct Hf as (n & ? & ?). eauto.
Qed.

Lemma same_payload_is_Some h h' a :
  same_payload h h' -> is_Some (h' !! a) <-> is_Some (h !! a).
Proof.
  intros Hp. rewrite <- (fmap_is_Some unlinked (h' !! a)), <- (fmap_is_Some unlinked (h !! a)).
  rewrite <- !lookup_fmap. by rewrite Hp.
Qed.

#[global] Instance same_payload_refl : Reflexive same_payload.
Proof. by intros h. Qed.
#[global] Instance same_payload_trans : Transitive same_payload.
Proof. intros h1 h2 h3. unfold same_payload. congruence. Qed.

(** ** Segments *)

Lemma seg_frame h h' p l hd nx :
  (forall a, a ∈ l -> h' !! a = h !! a) -> seg h p l hd nx -> seg h' p l hd nx.
Proof.
  revert p hd. induction l as [|a l IH]; intros p hd Hag; simpl; [done|].
  intros (-> & ? & n & Hn & ? & Hseg). split_and!; [done..|].
  exists n. split_and!; [rewrite Hag; [done|set_solver]|done|].
  apply IH; [set_solver|done].
Qed.

Lemma default_last_cons a l p : default p (last (a :: l)) = default a (last l).
Proof. rewrite last_cons. by destruct (last l). Qed.

Lemma seg_app h p l1 l2 hd nx :
  seg h p (l1 ++ l2) hd nx <->
  exists mid, seg h p l1 hd mid /\ seg h (default p (last l1)) l2 mid nx.
Proof.
  revert p hd. induction l1 as [|a l1 IH]; intros p hd.
  - simpl. split; [eauto|by intros (? & -> & ?)].
  - rewrite default_last_cons. cbn [seg app]. split.
    + intros (-> & ? & n & Hn & ? & (mid & ? & Hs)%IH). exists mid. split; [|done].
      split_and!; eauto.
    + intros (mid & (-> & ? & n & Hn & ? & Hs1) & Hs2). split_and!; [done..|].
      exists n. split_and!; [done..|]. apply IH. eauto.
Qed.

Lemma seg_lookup h p l hd nx a :
  seg h p l hd nx -> a ∈ l -> a <> NULL /\ is_Some (h !! a).
Proof.
  revert p hd. induction l as [|b l IH]; intros p hd; [set_solver|].
  intros (-> & ? & n & Hn & ? & Hs) [->|Ha]%elem_of_cons; eauto.
Qed.

(** The list a pointer structure represents is unique. *)
Lemma seg_functional h p l l' hd :
  seg h p l hd NULL -> seg h p l' hd NULL -> l = l'.
Proof.
  revert p hd l'. induction l as [|a l IH]; intros p hd [|a' l']; simpl.
  - done.
  - intros -> (<- & ? & _). done.
  - intros (-> & ? & _) ?. done.
  - intros (-> & ? & n & Hn & ? & Hs) (<- & ? & n' & Hn' & ? & Hs').
    rewrite Hn in Hn'. simplify_eq. f_equal. eauto.
Qed.

Lemma seg_hd_nil h p hd l : seg h p l hd NULL -> hd = NULL -> l = [].
Proof. destruct l; [done|]. intros (-> & ? & _) ?. done. Qed.

Lemma seg_hd h p l hd : seg h p l hd NULL -> hd = default NULL (head l).
Proof. destruct l; simpl; [done|]. by intros [-> _]. Qed.

(** Redirecting the [prev] of the first node and the [next] of the last. *)
Lemma seg_set_prev h p q a n l hd nx :
  seg h p (a :: l) hd nx -> a ∉ l -> h !! a = Some n ->
  seg (<[a := set_prev q n]> h) q (a :: l) hd nx.
Proof.
  intros (-> & ? & n' & Hn' & ? & Hs) Hnin Hn.
  assert (n' = n) as -> by congruence. split_and!; [done..|]. exists (set_prev q n). rewrite lookup_insert_eq.
  autorewrite with linked. split_and!; [done..|].
  eapply seg_frame; [|done]. intros b Hb. apply lookup_insert_ne. set_solver.
Qed.

Lemma seg_set_next h p l a n hd nx y :
  seg h p (l ++ [a]) hd nx -> a ∉ l -> h !! a = Some n ->
  seg (<[a := set_next y n]> h) p (l ++ [a]) hd y.
Proof.
  rewrite !seg_app. intros (mid & Hl & (-> & ? & n' & Hn' & ? & Hs)) Hnin Hn.
  assert (n' = n) as -> by congruence. exists a. split.
  - eapply seg_frame; [|done]. intros b Hb. apply lookup_insert_ne. set_solver.
  - split_and!; [done..|]. exists (set_next y n). rewrite lookup_insert_eq.
    by autorewrite with linked.
Qed.

Lemma dll_frame h h' l hd :
  (forall a, a ∈ l -> h' !! a = h !! a) -> dll h l hd -> dll h' l hd.
Proof. intros ? [? ?]. split; [by eapply seg_frame|done]. Qed.

(** ** Specifications *)

Lemma dll_push_spec h l head node :
  dll h l head -> node <> NULL -> node ∉ l -> is_Some (h !! node) ->
  exists h', dll_push h head node = Some (h', node) /\ dll h' (node :: l) node /\
    (forall a, a ∉ node :: l -> h' !! a = h !! a) /\ same_payload h h'.
Proof.
  intros [Hseg Hnd] Hnz Hnin [n Hn]. unfold dll_push. rewrite Hn. simpl.
  set (h1 := <[node := _]> h).
  assert (Hh1 : same_payload h h1).
  { eapply same_payload_insert; [done|exact Hn|]. by rewrite unlinked_set_next, unlinked_set_prev. }
  assert (Hn1 : h1 !! node = Some (set_next head (set_prev NULL n))) by apply lookup_insert_eq.
  assert (Hseg1 : seg h1 NULL l head NULL).
  { eapply seg_frame; [|done]. intros b Hb. apply lookup_insert_ne. set_solver. }
  destruct l as [|b l].
  - simpl in Hseg. subst head. simpl. eexists. split_and!; [done| |..|done].
    + split; [|by repeat constructor; set_solver]. simpl. split_and!; [done..|].
      eexists. split_and!; [done|by autorewrite with linked..].
    + intros a Ha. apply lookup_insert_ne. set_solver.
  - destruct Hseg1 as (-> & Hb & o & Ho & Hop & Hs). rewrite (proj2 (Z.eqb_neq _ _) Hb), Ho. simpl.
    assert (node <> b) by set_solver.
    eexists. split_and!; [done| |..].
    + split; [|by constructor]. split; [done|]. split; [done|].
      eexists. rewrite lookup_insert_ne by done. split; [done|]. autorewrite with linked.
      split; [done|]. apply (seg_set_prev h1 NULL); [|by inversion Hnd|done].
      split_and!; eauto.
    + intros a Ha. unfold h1. rewrite !lookup_insert_ne by set_solver. done.
    + eapply same_payload_insert; [done|done|]. apply unlinked_set_prev.
Qed.

Lemma NoDup_middle l1 a l2 :
  NoDup (l1 ++ a :: l2) -> a ∉ l1 /\ a ∉ l2 /\ NoDup (l1 ++ l2).
Proof.
  intros Hnd. assert (Hp : l1 ++ a :: l2 ≡ₚ a :: l1 ++ l2) by (by rewrite Permutation_middle).
  rewrite Hp, NoDup_cons, elem_of_app in Hnd. naive_solver.
Qed.

(** The middle of a list: the neighbours of [node] in memory are its
    neighbours in the list. *)
Lemma seg_middle h p l1 node l2 hd :
  seg h p (l1 ++ node :: l2) hd NULL ->
  exists n, h !! node = Some n /\ node <> NULL /\
    seg h p l1 hd node /\ lprev n = default p (last l1) /\
    seg h node l2 (lnext n) NULL.
Proof. rewrite seg_app. intros (mid & ? & -> & ? & n & ? & ? & ?). eauto 10. Qed.

Lemma dll_remove_spec h l1 node l2 head :
  dll h (l1 ++ node :: l2) head ->
  exists h' head', dll_remove h head node = Some (h', head') /\ dll h' (l1 ++ l2) head' /\
    (forall a, a ∉ l1 ++ node :: l2 -> h' !! a = h !! a) /\ same_payload h h'.
Proof.
  intros [Hseg Hnd].
  destruct (NoDup_middle _ _ _ Hnd) as (Hn1 & Hn2 & Hnd').
  destruct (seg_middle _ _ _ _ _ _ Hseg) as (n & Hn & Hnz & Hl1 & Hpn & Hl2).
  unfold dll_remove. rewrite Hn. cbn [mbind option_bind].
  (* first the predecessor (or the head) is redirected to the successor *)
  assert (exists h1 head1,
    (if lprev n =? NULL then Some (h, lnext n)
     else p ← h !! lprev n; Some (<[lprev n := set_next (lnext n) p]> h, head)) = Some (h1, head1) /\
    seg h1 NULL l1 head1 (lnext n) /\ seg h1 node l2 (lnext n) NULL /\ h1 !! node = Some n /\
    (forall a, a ∉ l1 -> h1 !! a = h !! a) /\ same_payload h h1) as (h1 & head1 & -> & Hs1 & Hs2 & Hn' & Hf1 & Hp1).
  { rewrite Hpn. destruct l1 as [|x l1 _] using rev_ind; simpl.
    - simpl in Hpn. exists h, (lnext n). split_and!; done.
    - rewrite last_snoc. simpl.
      destruct (seg_lookup _ _ _ _ _ x Hl1) as [Hx [o Ho]]; [set_solver|].
      rewrite (proj2 (Z.eqb_neq _ _) Hx), Ho. simpl. exists (<[x := set_next (lnext n) o]> h), head.
      assert (Hxl : x ∉ l1 /\ x ∉ l2).
      { rewrite <- app_assoc in Hnd'. apply NoDup_middle in Hnd' as (? & ? & _). done. }
      split_and!; [done| | | | |].
      + eapply seg_set_next; [done|tauto|done].
      + eapply seg_frame; [|done]. intros b Hb. apply lookup_insert_ne. set_solver.
      + rewrite lookup_insert_ne; [done|set_solver].
      + intros a Ha. apply lookup_insert_ne. set_solver.
      + eapply same_payload_insert; [done|done|]. apply unlinked_set_next. }
  cbn [mbind option_bind]. rewrite Hn'. cbn [mbind option_bind].
  (* then the successor is redirected to the predecessor *)
  assert (exists h2,
    (if lnext n =? NULL then Some h1
     else q ← h1 !! lnext n; Some (<[lnext n := set_prev (lprev n) q]> h1)) = Some h2 /\
    seg h2 NULL (l1 ++ l2) head1 NULL /\ h2 !! node = Some n /\
    (forall a, a ∉ l1 ++ l2 -> h2 !! a = h !! a) /\ same_payload h h2) as (h2 & -> & Hs & Hn'' & Hf2 & Hp2).
  { destruct l2 as [|y l2].
    - simpl in Hs2. rewrite Hs2. simpl. exists h1. rewrite app_nil_r. split_and!; [done| |done..].
      by rewrite Hs2 in Hs1.
    - destruct Hs2 as (Hy & Hyz & q & Hq & Hqp & Hs2). rewrite Hy, (proj2 (Z.eqb_neq _ _) Hyz), Hq. simpl.
      apply NoDup_middle in Hnd' as (Hy1 & Hy2 & _).
      exists (<[y := set_prev (lprev n) q]> h1). split_and!; [done| | | |].
      + rewrite seg_app. exists y. split.
        * rewrite <- Hy. eapply seg_frame; [|done]. intros b Hb. apply lookup_insert_ne. set_solver.
        * rewrite <- Hpn. eapply (seg_set_prev h1 node); [|done|done]. split_and!; eauto.
      + rewrite lookup_insert_ne; [done|set_solver].
      + intros a Ha. rewrite lookup_insert_ne by set_solver. apply Hf1. set_solver.
      + eapply same_payload_insert; [done|done|]. apply unlinked_set_prev. }
  cbn [mbind option_bind]. rewrite Hn''. simpl. eexists _, _. split_and!; [done| |..].
  - split; [|done]. eapply seg_frame; [|done]. intros b Hb. apply lookup_insert_ne. set_solver.
  - intros a Ha. rewrite lookup_insert_ne by set_solver. apply Hf2. set_solver.
  - eapply same_payload_insert; [done|done|]. by rewrite unlinked_set_next, unlinked_set_prev.
Qed.

Lemma dll_pop_spec h l node head :
  dll h (node :: l) head ->
  head = node /\
  exists h' head', dll_pop h head = Some (h', head') /\ dll h' l head' /\
    (forall a, a ∉ node :: l -> h' !! a = h !! a) /\ same_payload h h'.
Proof.
  intros [(-> & Hnz & n & Hn & Hp & Hs) [Hnin Hnd]%NoDup_cons]. split; [done|].
  unfold dll_pop. rewrite Hn. cbn [mbind option_bind].
  assert (exists h1,
    (if lnext n =? NULL then Some h else o ← h !! lnext n; Some (<[lnext n := set_prev NULL o]> h)) = Some h1 /\
    seg h1 NULL l (lnext n) NULL /\ h1 !! node = Some n /\
    (forall a, a ∉ l -> h1 !! a = h !! a) /\ same_payload h h1) as (h1 & -> & Hs1 & Hn1 & Hf1 & Hp1).
  { destruct l as [|y l].
    - simpl in Hs. rewrite Hs. simpl. exists h. by split_and!.
    - destruct Hs as (Hy & Hyz & q & Hq & Hqp & Hs). rewrite Hy, (proj2 (Z.eqb_neq _ _) Hyz), Hq. simpl.
      apply NoDup_cons in Hnd as [? ?].
      exists (<[y := set_prev NULL q]> h). split; [done|]. split; [|split_and!].
      + eapply (seg_set_prev h node); [|done|done]. split_and!; eauto.
      + rewrite lookup_insert_ne; [done|set_solver].
      + intros a Ha. apply lookup_insert_ne. set_solver.
      + eapply same_payload_insert; [done|done|]. apply unlinked_set_prev. }
  cbn [mbind option_bind]. rewrite Hn1. simpl. eexists _, _. split_and!; [done| |..].
  - split; [|done]. eapply seg_frame; [|done]. intros b Hb. apply lookup_insert_ne. set_solver.
  - intros a Ha. rewrite lookup_insert_ne by set_solver. apply Hf1. set_solver.
  - eapply same_payload_insert; [done|done|]. by rewrite unlinked_set_prev, unlinked_set_next.
Qed.
End dlist.
