(* ===== verification/Buddy.v ===== *)
(** * The physical page allocator: buddy system

    Models the buddy half of kernel/mm/pmm.c.  Physical memory is divided in
    4 KiB frames; a free block of order [o] is a run of [2^o] frames whose
    first frame number is a multiple of [2^o].  [g_free_lists[o]] heads a
    doubly linked list of the free blocks of order [o], threaded through the
    first 16 bytes of each free block (the overlay), and [g_buddy_coalesce[o]]
    has one bit per pair of buddies, the exclusive or of their being free.

    A C array indexed out of range, a pointer that is not mapped and a panic
    are the [None] of the option monad; the theorems show none happens. *)

From S2P Require Import Prelude DList.

(** ** Data *)

Record free_block := FreeBlock { fb_next : Z; fb_prev : Z }.

#[export] Instance free_block_linked : Linked free_block.
Proof.
  refine {| lnext := fb_next; lprev := fb_prev;
            set_next x b := FreeBlock x (fb_prev b);
            set_prev x b := FreeBlock (fb_next b) x |}; done.
Defined.

Definition MAX_RAM_BYTES : Z := 64 * 1024 * 1024 * 1024.
Definition MAX_FRAMES : Z := MAX_RAM_BYTES / PAGE_SIZE.
Definition PMM_INVALID_ADDR : Z := 2 ^ 64 - 1.
Definition PMM_INVALID_FRAME : Z := 2 ^ 64 - 1.
Definition PMM_RESERVED_FRAMES : Z := Z.shiftr (4 * 1024 * 1024) PAGE_SHIFT.
Definition MAX_ORDER : Z := 32.

(** The allocator's globals.  Arrays are finite maps from the index; the
    coalesce bitmaps are 64-bit words by order and word index; [overlay] is the
    first 16 bytes of every frame, by HHDM address. *)
Record buddy := mkBuddy {
  phys_ceiling : Z;
  total_frames : Z;
  free_pages : Z;
  free_lists : gmap Z Z;
  coalesce : gmap (Z * Z) Z;
  buddy_blocks : gmap Z Z;
  refcount : gmap Z Z;
  pincount : gmap Z Z;
  overlay : gmap Z free_block;
}.

Definition with_list (s : buddy) (o hd : Z) (ov : gmap Z free_block) : buddy :=
  mkBuddy (phys_ceiling s) (total_frames s) (free_pages s) (<[o := hd]> (free_lists s))
    (coalesce s) (buddy_blocks s) (refcount s) (pincount s) ov.
Definition with_coalesce (s : buddy) (m : gmap (Z * Z) Z) : buddy :=
  mkBuddy (phys_ceiling s) (total_frames s) (free_pages s) (free_lists s)
    m (buddy_blocks s) (refcount s) (pincount s) (overlay s).
Definition with_refcount (s : buddy) (m : gmap Z Z) : buddy :=
  mkBuddy (phys_ceiling s) (total_frames s) (free_pages s) (free_lists s)
    (coalesce s) (buddy_blocks s) m (pincount s) (overlay s).
Definition with_pincount (s : buddy) (m : gmap Z Z) : buddy :=
  mkBuddy (phys_ceiling s) (total_frames s) (free_pages s) (free_lists s)
    (coalesce s) (buddy_blocks s) (refcount s) m (overlay s).
Definition with_free_pages (s : buddy) (n : Z) : buddy :=
  mkBuddy (phys_ceiling s) (total_frames s) n (free_lists s)
    (coalesce s) (buddy_blocks s) (refcount s) (pincount s) (overlay s).

(** ** Address and bitmap helpers *)

Definition align_down (addr : Z) : Z := Z.land addr (u64 (Z.lnot (PAGE_SIZE - 1))).
Definition align_up (addr : Z) : Z :=
  Z.land (u64 (addr + PAGE_SIZE - 1)) (u64 (Z.lnot (PAGE_SIZE - 1))).
Definition phys_to_virt (phys : Z) : Z := u64 (phys + HHDM_OFFSET).
Definition virt_to_phys (virt : Z) : Z := u64 (virt - HHDM_OFFSET).
Definition bytes_for_bits (bit_count : Z) : Z := u64 (Z.shiftr (u64 (bit_count + 63)) 6 * 8).
Definition word_index (bit_index : Z) : Z := Z.shiftr bit_index 6.
Definition bit_mask (bit_index : Z) : Z := Z.shiftl 1 (Z.land bit_index 63).

Definition bit_test (s : buddy) (o bit_index : Z) : option bool :=
  w ← coalesce s !! (o, word_index bit_index);
  Some (negb (Z.land w (bit_mask bit_index) =? 0)).

Definition bit_toggle (s : buddy) (o bit_index : Z) : option buddy :=
  w ← coalesce s !! (o, word_index bit_index);
  Some (with_coalesce s
    (<[(o, word_index bit_index) := Z.lxor w (bit_mask bit_index)]> (coalesce s))).

Definition order_to_pages (order : Z) : Z := u64 (Z.shiftl 1 order).
Definition order_to_bytes (order : Z) : Z := u64 (Z.shiftl PAGE_SIZE order).

(** ** Free lists *)

(** A legitimate overlay pointer is NULL or inside the HHDM window. *)
Definition overlay_ptr_ok (s : buddy) (p : Z) : bool :=
  if p =? NULL then true
  else (HHDM_OFFSET <=? p) && (p <? u64 (HHDM_OFFSET + phys_ceiling s)).

Definition free_list_push (s : buddy) (order phys : Z) : option buddy :=
  head ← free_lists s !! order;
  '(ov, hd) ← dll_push (overlay s) head (phys_to_virt phys);
  Some (with_list s order hd ov).

(** The tripwire [free_frame_scribbled] panics: [None]. *)
Definition free_list_remove (s : buddy) (order phys : Z) : option buddy :=
  let node := phys_to_virt phys in
  n ← overlay s !! node;
  if negb (overlay_ptr_ok s (fb_next n)) || negb (overlay_ptr_ok s (fb_prev n)) then None
  else
    head ← free_lists s !! order;
    '(ov, hd) ← dll_remove (overlay s) head node;
    Some (with_list s order hd ov).

Definition free_list_pop (s : buddy) (order : Z) : option (buddy * Z) :=
  node ← free_lists s !! order;
  if node =? NULL then Some (s, PMM_INVALID_ADDR)
  else
    n ← overlay s !! node;
    if negb (overlay_ptr_ok s (fb_next n)) || negb (overlay_ptr_ok s (fb_prev n)) then None
    else
      '(ov, hd) ← dll_pop (overlay s) node;
      Some (with_list s order hd ov, virt_to_phys node).

(** ** Allocation *)

(** [while (current_order <= MAX_ORDER) { if (g_free_lists[current_order])
    break; current_order++; }], at most [n] more orders to look at. *)
Fixpoint find_order (s : buddy) (n : nat) (current_order : Z) : option Z :=
  match n with
  | O => Some current_order
  | S n =>
      head ← free_lists s !! current_order;
      if negb (head =? NULL) then Some current_order
      else find_order s n (current_order + 1)
  end.

(** [while (current_order > order)]: [n = current_order - order] splits. *)
Fixpoint split_down (s : buddy) (n : nat) (current_order block_index : Z) : option buddy :=
  match n with
  | O => Some s
  | S n =>
      let current_order := current_order - 1 in
      let buddy_block_index := u64 (u64 (Z.shiftl block_index 1) + 1) in
      let buddy_phys := u64 (Z.shiftl (u64 (Z.shiftl buddy_block_index current_order)) PAGE_SHIFT) in
      s ← free_list_push s current_order buddy_phys;
      s ← bit_toggle s current_order (Z.shiftr buddy_block_index 1);
      split_down s n current_order (u64 (Z.shiftl block_index 1))
  end.

Definition pmm_buddy_alloc_locked (s : buddy) (order : Z) : option (buddy * Z) :=
  if MAX_ORDER <? order then Some (s, PMM_INVALID_ADDR)
  else
    current_order ← find_order s (Z.to_nat (MAX_ORDER + 1 - order)) order;
    if MAX_ORDER <? current_order then Some (s, PMM_INVALID_ADDR)
    else
      '(s, allocated_phys) ← free_list_pop s current_order;
      let frame_index := Z.shiftr allocated_phys PAGE_SHIFT in
      let block_index := Z.shiftr frame_index current_order in
      s ← bit_toggle s current_order (Z.shiftr block_index 1);
      s ← split_down s (Z.to_nat (current_order - order)) current_order block_index;
      Some (with_free_pages s (u64 (free_pages s - order_to_pages order)), allocated_phys).

(** Stamp every frame of the block with reference count 1.  The second
    component lists the frames for which the kernel prints DOUBLE-ALLOC. *)
Fixpoint mark_frames (s : buddy) (n : nat) (f : Z) : option (buddy * list Z) :=
  match n with
  | O => Some (s, [])
  | S n =>
      if total_frames s <=? f then mark_frames s n (f + 1)
      else
        prev ← refcount s !! f;
        '(s, reports) ← mark_frames (with_refcount s (<[f := 1]> (refcount s))) n (f + 1);
        Some (s, if negb (prev =? 0) then f :: reports else reports)
  end.
Definition pmm_mark_allocated (s : buddy) (phys order : Z) : option (buddy * list Z) :=
  mark_frames s (Z.to_nat (order_to_pages order)) (Z.shiftr phys PAGE_SHIFT).

(** ** Release *)

(** Clear the reference count of [n] frames from [f] on. *)
Fixpoint clear_refs (s : buddy) (n : nat) (f : Z) : option buddy :=
  match n with
  | O => Some s
  | S n =>
      if f <? total_frames s then
        _ ← refcount s !! f;
        clear_refs (with_refcount s (<[f := 0]> (refcount s))) n (f + 1)
      else clear_refs s n (f + 1)
  end.

(** [while (order < MAX_ORDER)]: [n = MAX_ORDER - order] merges at most. *)
Fixpoint merge_up (s : buddy) (n : nat) (order block_index addr : Z) : option (buddy * Z * Z) :=
  match n with
  | O => Some (s, order, addr)
  | S n =>
      let pair_index := Z.shiftr block_index 1 in
      blocks ← buddy_blocks s !! order;
      if Z.shiftr (u64 (blocks + 1)) 1 <=? pair_index then Some (s, order, addr)
      else
        s ← bit_toggle s order pair_index;
        b ← bit_test s order pair_index;
        if b : bool then Some (s, order, addr)
        else
          let buddy_block_index := Z.lxor block_index 1 in
          let buddy_phys := u64 (Z.shiftl (u64 (Z.shiftl buddy_block_index order)) PAGE_SHIFT) in
          s ← free_list_remove s order buddy_phys;
          let order := order + 1 in
          merge_up s n order (Z.shiftr block_index 1)
            (Z.land addr (u64 (Z.lnot (Z.shiftl 1 (PAGE_SHIFT + order - 1)))))
  end.

Definition pmm_buddy_free_locked (s : buddy) (addr order : Z) : option buddy :=
  if MAX_ORDER <? order then Some s
  else
    let frame_index := Z.shiftr addr PAGE_SHIFT in
    if total_frames s <=? frame_index then Some s
    else
      s ← clear_refs s (Z.to_nat (order_to_pages order)) frame_index;
      let block_index := Z.shiftr frame_index order in
      blocks ← buddy_blocks s !! order;
      if blocks <=? block_index then Some s
      else
        '(s, order, addr) ← merge_up s (Z.to_nat (MAX_ORDER - order)) order block_index addr;
        free_list_push s order addr.

Definition pmm_buddy_free_locked_for_pcp (s : buddy) (addr order : Z) : option buddy :=
  s ← pmm_buddy_free_locked s addr order;
  Some (with_free_pages s (u64 (free_pages s + order_to_pages order))).
