(* ===== verification/BuddySpec.v ===== *)
(** * The buddy allocator: invariant and correctness

    The abstract view of the allocator of [Buddy.v] is a function [F] from
    orders to the list of first frames of the free blocks of that order.  The
    invariant [buddy_inv] says that the linked lists in memory represent [F],
    that the blocks are aligned, in range and pairwise disjoint, that free
    frames have reference count 0, that each coalesce bit is the exclusive or
    of the two buddies being free, and that no two buddies are both free.
    The theorems show that [pmm_buddy_alloc_locked] and
    [pmm_buddy_free_locked] never fault, preserve the invariant, and add or
    remove exactly the frames of the block.  At the end the accounting: the
    free frames as a list, whose length is [g_free_pages]. *)

From S2P Require Import Prelude DList Buddy.

(** ** Abstract state *)

Definition vaddr (f : Z) : Z := HHDM_OFFSET + f * PAGE_SIZE.

(** A block of order [o] at frame [f] of a memory of [total] frames. *)
Definition block_ok (total o f : Z) : Prop :=
  0 <= o <= MAX_ORDER /\ 0 <= f /\ f mod 2 ^ o = 0 /\ f + 2 ^ o <= total.

Definition disjoint_blocks (o f o' f' : Z) : Prop := f + 2 ^ o <= f' \/ f' + 2 ^ o' <= f.

(** Frame [x] belongs to a free block of [F]. *)
Definition free_frame (F : Z -> list Z) (x : Z) : Prop :=
  exists o f, 0 <= o <= MAX_ORDER /\ f ∈ F o /\ f <= x < f + 2 ^ o.

Definition upd (F : Z -> list Z) (o : Z) (l : list Z) : Z -> list Z :=
  fun o' => if o' =? o then l else F o'.

(** Membership as a boolean, and membership with one block flipped. *)
Definition mem (F : Z -> list Z) (o f : Z) : bool := bool_decide (f ∈ F o).
Definition flip (G : Z -> Z -> bool) (o f : Z) : Z -> Z -> bool :=
  fun o' f' => xorb (G o' f') ((o' =? o) && (f' =? f)).

Definition n_blocks (total o : Z) : Z := (total + 2 ^ o - 1) / 2 ^ o.
Definition n_words (total o : Z) : Z := ((n_blocks total o + 1) / 2 + 63) / 64.

Definition bit_at (m : gmap (Z * Z) Z) (o i : Z) : bool :=
  match m !! (o, i / 64) with Some w => Z.testbit w (i mod 64) | None => false end.

(** The parts of the invariant that do not involve the bitmaps. *)
Record core (s : buddy) (F : Z -> list Z) : Prop := {
  c_total : 0 <= total_frames s <= MAX_FRAMES;
  c_ceil : total_frames s * PAGE_SIZE <= phys_ceiling s < 2 ^ 47;
  c_overlay f : 0 <= f < total_frames s -> is_Some (overlay s !! vaddr f);
  c_refs f : 0 <= f < total_frames s -> is_Some (refcount s !! f);
  c_blocks o : 0 <= o <= MAX_ORDER -> buddy_blocks s !! o = Some (n_blocks (total_frames s) o);
  c_words o w : 0 <= o <= MAX_ORDER -> 0 <= w < n_words (total_frames s) o ->
    is_Some (coalesce s !! (o, w));
  c_lists o : 0 <= o <= MAX_ORDER ->
    exists hd, free_lists s !! o = Some hd /\ dll (overlay s) (vaddr <$> F o) hd;
  c_blk o f : 0 <= o <= MAX_ORDER -> f ∈ F o -> block_ok (total_frames s) o f;
  c_disj o f o' f' : 0 <= o <= MAX_ORDER -> 0 <= o' <= MAX_ORDER ->
    f ∈ F o -> f' ∈ F o' -> (o, f) <> (o', f') -> disjoint_blocks o f o' f';
  c_rc o f x : 0 <= o <= MAX_ORDER -> f ∈ F o -> f <= x < f + 2 ^ o -> refcount s !! x = Some 0;
}.

Definition xor_ok (s : buddy) (G : Z -> Z -> bool) : Prop :=
  forall o p, 0 <= o < MAX_ORDER -> 0 <= p < (n_blocks (total_frames s) o + 1) / 2 ->
    bit_at (coalesce s) o p = xorb (G o (2 * p * 2 ^ o)) (G o ((2 * p + 1) * 2 ^ o)).

Definition coalesced (F : Z -> list Z) : Prop :=
  forall o b, 0 <= o < MAX_ORDER -> 2 * b * 2 ^ o ∈ F o -> (2 * b + 1) * 2 ^ o ∈ F o -> False.

Definition buddy_inv (s : buddy) (F : Z -> list Z) : Prop :=
  core s F /\ xor_ok s (mem F) /\ coalesced F.

(** ** Arithmetic of blocks *)

Lemma pow2_pos o : 0 <= o -> 0 < 2 ^ o.
Proof. intros. apply Z.pow_pos_nonneg; lia. Qed.

Lemma shiftl_mul x k : 0 <= k -> Z.shiftl x k = x * 2 ^ k.
Proof. apply Z.shiftl_mul_pow2. Qed.
Lemma shiftr_div x k : 0 <= k -> Z.shiftr x k = x / 2 ^ k.
Proof. apply Z.shiftr_div_pow2. Qed.

Lemma MAX_FRAMES_val : MAX_FRAMES = 2 ^ 24.
Proof. reflexivity. Qed.
Lemma PAGE_SIZE_val : PAGE_SIZE = 4096.
Proof. reflexivity. Qed.
Lemma HHDM_val : HHDM_OFFSET = 2 ^ 64 - 2 ^ 47.
Proof. reflexivity. Qed.

Lemma vaddr_inj f f' : vaddr f = vaddr f' -> f = f'.
Proof. unfold vaddr. rewrite PAGE_SIZE_val. lia. Qed.
#[export] Instance vaddr_Inj : Inj (=) (=) vaddr.
Proof. intros ??. apply vaddr_inj. Qed.

Lemma vaddr_range f : 0 <= f < MAX_FRAMES -> HHDM_OFFSET <= vaddr f < 2 ^ 64.
Proof. unfold vaddr. rewrite MAX_FRAMES_val, PAGE_SIZE_val, HHDM_val. lia. Qed.

Lemma vaddr_nonnull f : 0 <= f < MAX_FRAMES -> vaddr f <> NULL.
Proof. intros Hf%vaddr_range. rewrite HHDM_val in Hf. unfold NULL. lia. Qed.

Lemma phys_to_virt_frame f : 0 <= f < MAX_FRAMES -> phys_to_virt (f * PAGE_SIZE) = vaddr f.
Proof.
  intros Hf. unfold phys_to_virt. pose proof (vaddr_range f Hf) as Hr. unfold vaddr in *.
  rewrite u64_id; [lia|]. rewrite HHDM_val in *. lia.
Qed.

Lemma virt_to_phys_frame f : 0 <= f < MAX_FRAMES -> virt_to_phys (vaddr f) = f * PAGE_SIZE.
Proof.
  unfold virt_to_phys, vaddr. rewrite MAX_FRAMES_val, PAGE_SIZE_val. intros.
  rewrite u64_id; lia.
Qed.

Lemma frame_of_phys f : Z.shiftr (f * PAGE_SIZE) PAGE_SHIFT = f.
Proof.
  rewrite shiftr_div by done. change (2 ^ PAGE_SHIFT) with 4096. rewrite PAGE_SIZE_val.
  apply Z.div_mul. lia.
Qed.

(** A block's frame number is its index times its size. *)
Lemma block_frame total o f : block_ok total o f -> f = f / 2 ^ o * 2 ^ o.
Proof.
  intros (Ho & Hf & Hm & Ht). pose proof (pow2_pos o ltac:(lia)).
  rewrite (Z.div_mod f (2 ^ o)) at 1; [|lia]. rewrite Hm. lia.
Qed.

Lemma block_index_bound total o f :
  block_ok total o f -> 0 <= f / 2 ^ o < n_blocks total o.
Proof.
  intros Hb. pose proof (block_frame _ _ _ Hb) as Hf. destruct Hb as (Ho & H0 & Hm & Ht).
  pose proof (pow2_pos o ltac:(lia)). split; [by apply Z.div_pos|].
  unfold n_blocks. replace (total + 2 ^ o - 1) with (total - 1 + 1 * 2 ^ o) by lia.
  rewrite Z.div_add by lia. assert (f / 2 ^ o <= (total - 1) / 2 ^ o); [|lia].
  apply Z.div_le_mono; lia.
Qed.

Lemma pair_bound total o f :
  block_ok total o f -> 0 <= f / 2 ^ o / 2 < (n_blocks total o + 1) / 2.
Proof. intros [??]%block_index_bound. mlia. Qed.

Lemma pair_word_bound total o p :
  0 <= p < (n_blocks total o + 1) / 2 -> 0 <= p / 64 < n_words total o.
Proof. unfold n_words. intros. set (k := (n_blocks total o + 1) / 2) in *. mlia. Qed.

Lemma block_small total o f :
  total <= MAX_FRAMES -> block_ok total o f -> f + 2 ^ o <= 2 ^ 24 /\ 0 <= f < MAX_FRAMES /\ o <= 24.
Proof.
  rewrite MAX_FRAMES_val. intros Ht (Ho & H0 & _ & Hb). pose proof (pow2_pos o ltac:(lia)).
  split_and!; [lia..|]. destruct (Z.le_gt_cases o 24); [done|].
  assert (2 ^ 25 <= 2 ^ o) by (apply Z.pow_le_mono_r; lia). lia.
Qed.

(** The parent of a block and its two halves. *)
Lemma block_split total c f :
  0 < c -> block_ok total c f ->
  block_ok total (c - 1) f /\ block_ok total (c - 1) (f + 2 ^ (c - 1)).
Proof.
  intros Hc (Ho & H0 & Hm & Ht). pose proof (pow2_pos (c - 1) ltac:(lia)).
  assert (Hp : 2 ^ c = 2 * 2 ^ (c - 1)).
  { replace c with (Z.succ (c - 1)) at 1 by lia. rewrite Z.pow_succ_r; lia. }
  assert (Hf : f mod 2 ^ (c - 1) = 0).
  { apply Z.mod_divide; [lia|]. apply Z.mod_divide in Hm; [|lia]. destruct Hm as [k ->].
    exists (k * 2). lia. }
  split; (split; [lia|]); (split; [lia|]); split; try lia.
  rewrite <- (Z.mul_1_l (2 ^ (c - 1))) at 1. rewrite Z.mod_add; lia.
Qed.

(** The buddy of block index [b]. *)
Lemma lxor_even_1 k : Z.lxor (2 * k) 1 = 2 * k + 1.
Proof.
  symmetry. apply Z.add_nocarry_lxor. rewrite Z.land_comm.
  change 1 with (Z.ones 1). rewrite Z.land_comm, Z.land_ones by lia.
  change (2 ^ 1) with 2. mlia.
Qed.

Lemma lxor_odd_1 k : Z.lxor (2 * k + 1) 1 = 2 * k.
Proof. by rewrite <- lxor_even_1, Z.lxor_assoc, Z.lxor_nilpotent, Z.lxor_0_r. Qed.

Lemma lxor_1_pair b : exists k, k = b / 2 /\
  (b = 2 * k /\ Z.lxor b 1 = 2 * k + 1 \/ b = 2 * k + 1 /\ Z.lxor b 1 = 2 * k).
Proof.
  exists (b / 2). split; [done|].
  destruct (Z.eq_dec (b mod 2) 0).
  - left. assert (Hb : b = 2 * (b / 2)) by mlia. split; [done|]. rewrite Hb at 1. apply lxor_even_1.
  - right. assert (Hb : b = 2 * (b / 2) + 1) by mlia. split; [done|]. rewrite Hb at 1. apply lxor_odd_1.
Qed.

(** Clearing bit [n] of a multiple of [2^n] rounds it down to the parent. *)
Lemma clear_bit_parent a n :
  0 <= n < 64 -> 0 <= a < 2 ^ 64 ->
  Z.land (a) (u64 (Z.lnot (Z.shiftl 1 n))) = Z.clearbit a n.
Proof.
  intros Hn Ha. unfold u64. rewrite <- Z.land_ones by lia. rewrite Z.land_comm.
  apply Z.bits_inj'. intros i Hi. rewrite !Z.land_spec, Z.lnot_spec, Z.clearbit_eqb by lia.
  rewrite Z.shiftl_1_l, Z.pow2_bits_eqb by lia. rewrite Z.testbit_ones_nonneg by lia.
  destruct (Z.ltb_spec i 64); [by rewrite andb_true_r, andb_comm|].
  rewrite (Z.bits_above_log2 a i); [by rewrite andb_false_r| lia|].
  destruct (Z.eq_dec a 0) as [->|]; [simpl; lia|]. apply Z.log2_lt_pow2; [lia|].
  apply Z.lt_le_trans with (2 ^ 64); [lia|]. apply Z.pow_le_mono_r; lia.
Qed.

Lemma clearbit_mul b n : 0 <= n -> Z.clearbit (b * 2 ^ n) n = b / 2 * 2 ^ (n + 1).
Proof.
  intros Hn. apply Z.bits_inj'. intros i Hi. rewrite Z.clearbit_eqb by lia.
  rewrite !Z.mul_pow2_bits by lia. change (b / 2) with (b / 2 ^ 1). rewrite <- Z.shiftr_div_pow2 by lia.
  destruct (Z.eqb_spec n i) as [->|Hne]; simpl.
  - rewrite andb_false_r. symmetry. apply Z.testbit_neg_r. lia.
  - rewrite andb_true_r. destruct (Z.lt_ge_cases i n).
    + rewrite !Z.testbit_neg_r by lia. done.
    + rewrite Z.shiftr_spec by lia. f_equal. lia.
Qed.

(** ** Bitmaps *)

Lemma bit_mask_pow i : 0 <= i -> bit_mask i = 2 ^ (i mod 64).
Proof.
  intros. unfold bit_mask. change 63 with (Z.ones 6). rewrite Z.land_ones by lia.
  rewrite Z.shiftl_1_l. done.
Qed.

Lemma word_index_div i : word_index i = i / 64.
Proof. unfold word_index. by rewrite shiftr_div. Qed.

Lemma bit_test_spec s o i :
  0 <= i -> is_Some (coalesce s !! (o, i / 64)) ->
  bit_test s o i = Some (bit_at (coalesce s) o i).
Proof.
  intros Hi [w Hw]. unfold bit_test, bit_at. rewrite word_index_div, Hw, bit_mask_pow by done. simpl.
  f_equal. pose proof (Z.mod_pos_bound i 64 ltac:(lia)).
  destruct (Z.testbit w (i mod 64)) eqn:E.
  - apply negb_true_iff, Z.eqb_neq. intros Hz.
    assert (Z.testbit (Z.land w (2 ^ (i mod 64))) (i mod 64) = true).
    { by rewrite Z.land_spec, E, Z.pow2_bits_true by lia. }
    rewrite Hz, Z.bits_0 in *. done.
  - apply negb_false_iff, Z.eqb_eq. apply Z.bits_inj'. intros j Hj.
    rewrite Z.land_spec, Z.bits_0, Z.pow2_bits_eqb by lia.
    destruct (Z.eqb_spec (i mod 64) j) as [<-|]; [by rewrite E|apply andb_false_r].
Qed.

Lemma bit_toggle_spec s o i :
  0 <= i -> is_Some (coalesce s !! (o, i / 64)) ->
  exists m, bit_toggle s o i = Some (with_coalesce s m) /\
    (forall o' i', 0 <= i' -> bit_at m o' i' = xorb (bit_at (coalesce s) o' i') ((o' =? o) && (i' =? i))) /\
    (forall k, is_Some (coalesce s !! k) -> is_Some (m !! k)).
Proof.
  intros Hi [w Hw]. unfold bit_toggle. rewrite word_index_div, Hw, bit_mask_pow by done. simpl.
  eexists. split; [done|]. split.
  - intros o' i' Hi'. unfold bit_at.
    destruct (decide ((o, i / 64) = (o', i' / 64))) as [[= <- Hd]|Hne].
    + rewrite <- Hd, lookup_insert_eq, Hw, Z.lxor_spec, Z.eqb_refl. f_equal. simpl.
      pose proof (Z.mod_pos_bound i 64 ltac:(lia)). pose proof (Z.mod_pos_bound i' 64 ltac:(lia)).
      rewrite Z.pow2_bits_eqb by lia.
      destruct (Z.eqb_spec i' i) as [->|]; [apply Z.eqb_refl|]. apply Z.eqb_neq. mlia.
    + rewrite lookup_insert_ne by done. destruct (Z.eqb_spec o' o) as [->|]; simpl.
      * destruct (Z.eqb_spec i' i) as [->|]; [done|]. by rewrite xorb_false_r.
      * by rewrite xorb_false_r.
  - intros k Hk. destruct (decide ((o, i / 64) = k)) as [<-|]; [by rewrite lookup_insert_eq|].
    by rewrite lookup_insert_ne.
Qed.

(** ** Lists of free blocks *)

Lemma upd_eq F o l : upd F o l o = l.
Proof. unfold upd. by rewrite Z.eqb_refl. Qed.
Lemma upd_ne F o o' l : o' <> o -> upd F o l o' = F o'.
Proof. unfold upd. intros. by rewrite (proj2 (Z.eqb_neq _ _)). Qed.

(** Block [(o, f)] is fresh for [F]: it overlaps no free block. *)
Definition fresh (F : Z -> list Z) (o f : Z) : Prop :=
  forall o' f', 0 <= o' <= MAX_ORDER -> f' ∈ F o' -> disjoint_blocks o f o' f'.

Lemma disjoint_blocks_sym o f o' f' : disjoint_blocks o f o' f' -> disjoint_blocks o' f' o f.
Proof. unfold disjoint_blocks. lia. Qed.

Lemma disjoint_blocks_ne o f o' f' :
  0 <= o -> 0 <= o' -> disjoint_blocks o f o' f' -> f <> f'.
Proof. intros Ho Ho' [?|?]; pose proof (pow2_pos o Ho); pose proof (pow2_pos o' Ho'); lia. Qed.

(** Replacing the list of one order: every clause of [core] for the new list,
    given that its new elements are fresh blocks and that only nodes of the
    same order (or fresh ones) were written. *)
Lemma core_with_list s F o l hd ov (dirty : list Z) :
  core s F -> 0 <= o <= MAX_ORDER ->
  dll ov (vaddr <$> l) hd ->
  (forall a, a ∉ dirty -> ov !! a = overlay s !! a) ->
  same_payload (overlay s) ov ->
  (forall o' f', 0 <= o' <= MAX_ORDER -> o' <> o -> f' ∈ F o' -> vaddr f' ∉ dirty) ->
  (forall f, f ∈ l -> f ∈ F o \/
     (forall f', f' ∈ l -> f' ∈ F o \/ f' = f) /\ block_ok (total_frames s) o f /\ fresh F o f /\
       (forall x, f <= x < f + 2 ^ o -> refcount s !! x = Some 0)) ->
  core (with_list s o hd ov) (upd F o l).
Proof.
  intros C Ho Hdll Hfr Hpay Hdirty Hnew. constructor; simpl; try apply C.
  - intros f Hf. apply (same_payload_is_Some _ _ _ Hpay). by apply C.
  - intros o' Ho'. destruct (decide (o' = o)) as [->|Hne].
    + exists hd. by rewrite lookup_insert_eq, upd_eq.
    + rewrite upd_ne, lookup_insert_ne by done. destruct (c_lists _ _ C o' Ho') as (hd' & ? & Hd).
      exists hd'. split; [done|]. eapply dll_frame; [|done]. intros a (f' & -> & Hf')%list_elem_of_fmap.
      apply Hfr. eauto.
  - intros o' f' Ho'. destruct (decide (o' = o)) as [->|Hne].
    + rewrite upd_eq. intros [?|(_ & ? & _)]%Hnew; [by apply C|done].
    + rewrite upd_ne by done. by apply C.
  - intros o1 f1 o2 f2 H1 H2.
    destruct (decide (o1 = o)) as [->|Hne1]; destruct (decide (o2 = o)) as [->|Hne2];
      rewrite ?upd_eq, ?upd_ne by done; intros Hf1 Hf2 Hne.
    + destruct (Hnew _ Hf1) as [?|(Honly & _ & Hfresh & _)].
      * destruct (Hnew _ Hf2) as [?|(Honly & _ & Hfresh & _)]; [by apply C|].
        by apply disjoint_blocks_sym, Hfresh.
      * destruct (Honly _ Hf2) as [?| ->]; [by apply Hfresh|done].
    + destruct (Hnew _ Hf1) as [?|(_ & _ & Hfresh & _)]; [by apply C|by apply Hfresh].
    + destruct (Hnew _ Hf2) as [?|(_ & _ & Hfresh & _)]; [by apply C|].
      by apply disjoint_blocks_sym, Hfresh.
    + by apply C.
  - intros o' f' x Ho'. destruct (decide (o' = o)) as [->|Hne].
    + rewrite upd_eq. intros [?|(_ & _ & _ & Hrc)]%Hnew Hx; [by eapply C|by apply Hrc].
    + rewrite upd_ne by done. by apply C.
Qed.

(** Nodes of different orders are different frames. *)
Lemma core_node_other s F o o' f' :
  core s F -> 0 <= o <= MAX_ORDER -> 0 <= o' <= MAX_ORDER -> o' <> o -> f' ∈ F o' ->
  vaddr f' ∉ vaddr <$> F o.
Proof.
  intros C Ho Ho' Hne Hf' (f & Heq%vaddr_inj & Hf)%list_elem_of_fmap. subst f'.
  assert (Hd : disjoint_blocks o f o' f) by (apply (c_disj _ _ C); [done..|congruence]).
  by eapply disjoint_blocks_ne in Hd; [|lia..].
Qed.

Lemma core_push s F o f :
  core s F -> block_ok (total_frames s) o f -> fresh F o f ->
  (forall x, f <= x < f + 2 ^ o -> refcount s !! x = Some 0) ->
  exists hd ov, free_list_push s o (f * PAGE_SIZE) = Some (with_list s o hd ov) /\
    core (with_list s o hd ov) (upd F o (f :: F o)).
Proof.
  intros C Hb Hfresh Hrc. pose proof Hb as (Ho & H0 & _ & Ht). pose proof (pow2_pos o ltac:(lia)).
  destruct (block_small (total_frames s) o f) as (_ & Hf & _); [apply C|done|].
  destruct (c_lists _ _ C o Ho) as (hd & Hhd & Hdll).
  assert (Hnin : vaddr f ∉ vaddr <$> F o).
  { intros (f' & Heq%vaddr_inj & Hf')%list_elem_of_fmap. subst f'.
    specialize (Hfresh o f Ho Hf'). by eapply disjoint_blocks_ne in Hfresh; [|lia..]. }
  destruct (dll_push_spec _ _ _ (vaddr f) Hdll) as (ov & Hpush & Hdll' & Hfr & Hpay);
    [by apply vaddr_nonnull|done|apply C; lia|].
  unfold free_list_push. rewrite Hhd, phys_to_virt_frame by done. simpl. rewrite Hpush. simpl.
  eexists _, _. split; [done|].
  eapply core_with_list; [done|done|done|exact Hfr|done| |].
  - intros o' f' Ho' Hne Hf'. rewrite not_elem_of_cons. split; [|by eapply core_node_other].
    intros Heq%vaddr_inj. subst f'. specialize (Hfresh o' f Ho' Hf').
    by eapply disjoint_blocks_ne in Hfresh; [|lia..].
  - intros f' [->|?]%elem_of_cons; [|by left]. right. split_and!; [|done..]. set_solver.
Qed.

(** Link pointers of free blocks pass the tripwire. *)
Lemma overlay_ptr_ok_null s : overlay_ptr_ok s NULL = true.
Proof. done. Qed.

Lemma overlay_ptr_ok_node s F o f :
  core s F -> 0 <= o <= MAX_ORDER -> f ∈ F o -> overlay_ptr_ok s (vaddr f) = true.
Proof.
  intros C Ho Hf. unfold overlay_ptr_ok. case_match; [done|].
  pose proof (c_blk _ _ C o f Ho Hf) as Hb. pose proof Hb as (_ & H0 & _ & Ht).
  pose proof (pow2_pos o ltac:(lia)). destruct (block_small (total_frames s) o f) as (_ & Hf' & _);
    [apply C|done|]. pose proof (vaddr_range f Hf'). pose proof (c_ceil _ _ C) as Hc.
  rewrite u64_id by (rewrite HHDM_val, PAGE_SIZE_val in *; lia).
  apply andb_true_intro. split; [apply Z.leb_le; lia|apply Z.ltb_lt].
  unfold vaddr. rewrite PAGE_SIZE_val in *. lia.
Qed.

Lemma seg_next_in {A} `{Linked A} (h : gmap Z A) p l hd :
  seg h p l hd NULL -> hd = NULL \/ hd ∈ l.
Proof. destruct l as [|a l]; [by left|]. intros (-> & _). right. set_solver. Qed.

Lemma overlay_links_ok s F o l1 f l2 n hd :
  core s F -> 0 <= o <= MAX_ORDER -> F o = l1 ++ f :: l2 ->
  dll (overlay s) (vaddr <$> F o) hd -> overlay s !! vaddr f = Some n ->
  overlay_ptr_ok s (fb_next n) = true /\ overlay_ptr_ok s (fb_prev n) = true.
Proof.
  intros C Ho HF [Hseg _] Hn. rewrite HF, fmap_app, fmap_cons in Hseg.
  apply seg_middle in Hseg as (n' & Hn' & _ & _ & Hp & Hs).
  assert (n' = n) as -> by congruence. change (fb_next n) with (lnext n).
  assert (Hok : forall a, a ∈ vaddr <$> F o -> overlay_ptr_ok s a = true).
  { intros a (g & -> & Hg)%list_elem_of_fmap. by eapply overlay_ptr_ok_node. }
  split.
  - destruct (seg_next_in _ _ _ _ Hs) as [-> |Hin]; [done|]. apply Hok.
    rewrite HF, fmap_app, fmap_cons. set_solver.
  - change (fb_prev n) with (lprev n). rewrite Hp. destruct (last _) eqn:El; [|done]. simpl.
    apply Hok. rewrite HF, fmap_app. apply last_Some_elem_of in El. set_solver.
Qed.

Lemma core_remove s F o l1 f l2 :
  core s F -> 0 <= o <= MAX_ORDER -> F o = l1 ++ f :: l2 ->
  exists hd ov, free_list_remove s o (f * PAGE_SIZE) = Some (with_list s o hd ov) /\
    core (with_list s o hd ov) (upd F o (l1 ++ l2)).
Proof.
  intros C Ho HF. assert (Hf : f ∈ F o) by (rewrite HF; set_solver).
  destruct (block_small (total_frames s) o f) as (_ & Hfr & _); [apply C|by apply C|].
  destruct (c_lists _ _ C o Ho) as (hd & Hhd & Hdll).
  unfold free_list_remove. rewrite phys_to_virt_frame by done.
  destruct (overlay s !! vaddr f) as [n|] eqn:Hn; simpl; last first.
  { destruct (seg_lookup _ _ _ _ _ (vaddr f) (proj1 Hdll)) as [_ [? ?]]; [set_solver|congruence]. }
  destruct (overlay_links_ok _ _ _ _ _ _ _ _ C Ho HF Hdll Hn) as [-> ->]. simpl.
  rewrite Hhd. simpl. pose proof Hdll as Hdll0. rewrite HF, fmap_app, fmap_cons in Hdll.
  destruct (dll_remove_spec _ _ _ _ _ Hdll) as (ov & hd' & -> & Hdll' & Hfr' & Hpay). simpl.
  eexists _, _. split; [done|].
  eapply core_with_list; [done|done|by rewrite fmap_app|exact Hfr'|done| |].
  - intros o' f' Ho' Hne Hf'. rewrite <- fmap_cons, <- fmap_app, <- HF. by eapply core_node_other.
  - intros g Hg. left. rewrite HF. set_solver.
Qed.

Lemma core_pop s F o f l :
  core s F -> 0 <= o <= MAX_ORDER -> F o = f :: l ->
  exists hd ov, free_list_pop s o = Some (with_list s o hd ov, f * PAGE_SIZE) /\
    core (with_list s o hd ov) (upd F o l).
Proof.
  intros C Ho HF. assert (Hf : f ∈ F o) by (rewrite HF; set_solver).
  destruct (block_small (total_frames s) o f) as (_ & Hfr & _); [apply C|by apply C|].
  destruct (c_lists _ _ C o Ho) as (hd & Hhd & Hdll).
  unfold free_list_pop. rewrite Hhd. simpl. pose proof Hdll as Hdll0. rewrite HF, fmap_cons in Hdll.
  destruct (dll_pop_spec _ _ _ _ Hdll) as (-> & ov & hd' & Hpop & Hdll' & Hfr' & Hpay).
  rewrite (proj2 (Z.eqb_neq _ _) (vaddr_nonnull f Hfr)).
  destruct (overlay s !! vaddr f) as [n|] eqn:Hn; simpl; last first.
  { destruct (seg_lookup _ _ _ _ _ (vaddr f) (proj1 Hdll)) as [_ [? ?]]; [set_solver|congruence]. }
  destruct (overlay_links_ok _ _ _ [] _ _ _ _ C Ho HF Hdll0 Hn) as [-> ->]. simpl.
  rewrite Hpop. simpl. rewrite virt_to_phys_frame by done. eexists _, _. split; [done|].
  eapply core_with_list; [done|done|done|exact Hfr'|done| |].
  - intros o' f' Ho' Hne Hf'. rewrite <- fmap_cons, <- HF. by eapply core_node_other.
  - intros g Hg. left. rewrite HF. set_solver.
Qed.

(** ** Exclusive-or bookkeeping *)

Lemma core_coalesce s F m :
  core s F -> (forall k, is_Some (coalesce s !! k) -> is_Some (m !! k)) ->
  core (with_coalesce s m) F.
Proof. intros C Hm. constructor; simpl; try apply C. intros. apply Hm. by apply C. Qed.

Lemma core_NoDup s F o : core s F -> 0 <= o <= MAX_ORDER -> NoDup (F o).
Proof. intros C Ho. destruct (c_lists _ _ C o Ho) as (hd & _ & [_ Hnd]). by eapply NoDup_fmap_1. Qed.

Lemma xor_ok_ext s s' G G' :
  total_frames s' = total_frames s -> coalesce s' = coalesce s ->
  (forall o f, 0 <= o < MAX_ORDER -> G' o f = G o f) -> xor_ok s G -> xor_ok s' G'.
Proof. intros Ht Hc Hext H o p Ho Hp. rewrite Ht in Hp. rewrite Hc, !Hext by done. by apply H. Qed.

Lemma xor_toggle s G m o f :
  block_ok (total_frames s) o f ->
  (forall o' i', 0 <= i' ->
    bit_at m o' i' = xorb (bit_at (coalesce s) o' i') ((o' =? o) && (i' =? f / 2 ^ o / 2))) ->
  xor_ok s G -> xor_ok (with_coalesce s m) (flip G o f).
Proof.
  intros Hb Hm Hx o' p Ho' Hp. simpl in *. rewrite Hm by lia. rewrite (Hx o' p) by done.
  unfold flip. destruct (Z.eqb_spec o' o) as [->|]; simpl; [|by rewrite !xorb_false_r].
  pose proof (block_frame _ _ _ Hb) as Hf. set (b := f / 2 ^ o) in *.
  pose proof (pow2_pos o ltac:(lia)) as Hpos.
  assert (H1 : (2 * p * 2 ^ o =? f) = (2 * p =? b)).
  { apply eq_true_iff_eq. rewrite !Z.eqb_eq. nia. }
  assert (H2 : ((2 * p + 1) * 2 ^ o =? f) = (2 * p + 1 =? b)).
  { apply eq_true_iff_eq. rewrite !Z.eqb_eq. nia. }
  rewrite H1, H2.
  assert (Hpb : xorb (2 * p =? b) (2 * p + 1 =? b) = (p =? b / 2)).
  { zbool; try done; exfalso; mlia. }
  rewrite <- Hpb. destruct (G o _), (G o _), (2 * p =? b), (2 * p + 1 =? b); done.
Qed.

(** Flipping either buddy has the same effect on the pair's bit. *)
Lemma xor_flip_buddy s G o f :
  0 <= o < MAX_ORDER -> block_ok (total_frames s) o f ->
  xor_ok s (flip G o f) -> xor_ok s (flip G o (Z.lxor (f / 2 ^ o) 1 * 2 ^ o)).
Proof.
  intros Ho Hb Hx o' p Ho' Hp. rewrite (Hx o' p) by done. unfold flip.
  destruct (Z.eqb_spec o' o) as [->|]; simpl; [|by rewrite !xorb_false_r].
  pose proof (pow2_pos o ltac:(lia)) as Hpos. rewrite (block_frame _ _ _ Hb) at 1 2.
  set (b := f / 2 ^ o) in *. destruct (lxor_1_pair b) as (k & Hk & Hcase).
  assert (Heq : forall x y, (x * 2 ^ o =? y * 2 ^ o) = (x =? y)).
  { intros x y. apply eq_true_iff_eq. rewrite !Z.eqb_eq. nia. }
  rewrite !Heq.
  assert (Hp' : xorb (2 * p =? b) (2 * p + 1 =? b) = xorb (2 * p =? Z.lxor b 1) (2 * p + 1 =? Z.lxor b 1)).
  { destruct Hcase as [[-> ->]|[-> ->]]; zbool; try done; exfalso; lia. }
  destruct (G o _), (G o _), (2 * p =? b), (2 * p + 1 =? b),
    (2 * p =? Z.lxor b 1), (2 * p + 1 =? Z.lxor b 1); done.
Qed.

Lemma mem_push F o f o' f' :
  f ∉ F o -> mem (upd F o (f :: F o)) o' f' = flip (mem F) o f o' f'.
Proof.
  intros Hf. unfold mem, flip. destruct (Z.eqb_spec o' o) as [->|Hne]; simpl.
  - rewrite upd_eq. destruct (Z.eqb_spec f' f) as [->|].
    + rewrite bool_decide_true by set_solver. by rewrite bool_decide_false.
    + rewrite xorb_false_r. apply bool_decide_ext. set_solver.
  - by rewrite upd_ne, xorb_false_r.
Qed.

Lemma mem_remove F o l1 f l2 o' f' :
  NoDup (F o) -> F o = l1 ++ f :: l2 -> mem (upd F o (l1 ++ l2)) o' f' = flip (mem F) o f o' f'.
Proof.
  intros Hnd HF. rewrite HF in Hnd. apply NoDup_middle in Hnd as (? & ? & _).
  unfold mem, flip. destruct (Z.eqb_spec o' o) as [->|Hne]; simpl.
  - rewrite upd_eq, HF. destruct (Z.eqb_spec f' f) as [->|].
    + rewrite bool_decide_false by set_solver. by rewrite bool_decide_true by set_solver.
    + rewrite xorb_false_r. apply bool_decide_ext. set_solver.
  - by rewrite upd_ne, xorb_false_r.
Qed.

Lemma fresh_not_in F o f : 0 <= o <= MAX_ORDER -> fresh F o f -> f ∉ F o.
Proof. intros Ho Hf Hin. specialize (Hf o f Ho Hin). by eapply disjoint_blocks_ne in Hf; [|lia..]. Qed.

(** A sub-block of a fresh block is fresh. *)
Lemma fresh_sub F o f o' f' :
  f <= f' -> f' + 2 ^ o' <= f + 2 ^ o -> fresh F o f -> fresh F o' f'.
Proof. intros ? ? Hf o2 f2 Ho2 Hf2. destruct (Hf o2 f2 Ho2 Hf2); [left|right]; lia. Qed.

(** A free frame of the list with one more, or one less, block. *)
Lemma free_frame_push F o f x :
  0 <= o <= MAX_ORDER ->
  free_frame (upd F o (f :: F o)) x <-> free_frame F x \/ f <= x < f + 2 ^ o.
Proof.
  intros Ho. split.
  - intros (o' & f' & Ho' & Hf' & Hx). destruct (decide (o' = o)) as [->|Hne].
    + rewrite upd_eq in Hf'. apply elem_of_cons in Hf' as [->|?]; [by right|left; by exists o, f'].
    + rewrite upd_ne in Hf' by done. left. by exists o', f'.
  - intros [(o' & f' & Ho' & Hf' & Hx)|Hx].
    + exists o', f'. split_and!; [lia..| |lia|lia]. destruct (decide (o' = o)) as [->|Hne].
      * rewrite upd_eq. set_solver.
      * by rewrite upd_ne.
    + exists o, f. rewrite upd_eq. split_and!; [lia..|set_solver|lia|lia].
Qed.

Lemma free_frame_remove s F o l1 f l2 x :
  core s F -> 0 <= o <= MAX_ORDER -> F o = l1 ++ f :: l2 ->
  free_frame (upd F o (l1 ++ l2)) x <-> free_frame F x /\ ~ (f <= x < f + 2 ^ o).
Proof.
  intros C Ho HF. pose proof (core_NoDup _ _ _ C Ho) as Hnd.
  assert (Hf : f ∈ F o) by (rewrite HF; set_solver).
  rewrite HF in Hnd. apply NoDup_middle in Hnd as (Hn1 & Hn2 & _). split.
  - intros (o' & f' & Ho' & Hf' & Hx). destruct (decide (o' = o)) as [->|Hne].
    + rewrite upd_eq in Hf'. assert (f' ∈ F o) by (rewrite HF; set_solver).
      split; [by exists o, f'|]. intros Hx'.
      destruct (c_disj _ _ C o f o f'); [done..| |lia|lia]. intros [= ->]. set_solver.
    + rewrite upd_ne in Hf' by done. split; [by exists o', f'|]. intros Hx'.
      destruct (c_disj _ _ C o f o' f'); [done..|congruence|lia|lia].
  - intros [(o' & f' & Ho' & Hf' & Hx) Hnx]. exists o', f'. split_and!; [lia..| |lia|lia].
    destruct (decide (o' = o)) as [->|Hne]; [|by rewrite upd_ne].
    rewrite upd_eq. rewrite HF in Hf'. assert (f' <> f) by (intros ->; done). set_solver.
Qed.

(** ** Allocation *)

(** The globals that list and bitmap operations leave alone. *)
Record same_meta (s s' : buddy) : Prop := {
  sm_total : total_frames s' = total_frames s;
  sm_ceil : phys_ceiling s' = phys_ceiling s;
  sm_refs : refcount s' = refcount s;
  sm_pins : pincount s' = pincount s;
  sm_pages : free_pages s' = free_pages s;
}.
#[export] Instance same_meta_refl : Reflexive same_meta.
Proof. by intros s. Qed.
#[export] Instance same_meta_trans : Transitive same_meta.
Proof. intros s1 s2 s3 [] []. constructor; congruence. Qed.

Lemma pow2_half c : 0 < c -> 2 ^ c = 2 * 2 ^ (c - 1).
Proof. intros. replace c with (Z.succ (c - 1)) at 1 by lia. rewrite Z.pow_succ_r; lia. Qed.

(** The physical address of block [b] of order [o], as the code computes it. *)
Lemma block_phys o b :
  0 <= o -> 0 <= b -> b * 2 ^ o < MAX_FRAMES ->
  u64 (Z.shiftl (u64 (Z.shiftl b o)) PAGE_SHIFT) = b * 2 ^ o * PAGE_SIZE.
Proof.
  intros Ho Hb Hlt. rewrite MAX_FRAMES_val in Hlt. rewrite !shiftl_mul by (done || lia).
  pose proof (pow2_pos o Ho). change (2 ^ PAGE_SHIFT) with 4096. rewrite PAGE_SIZE_val.
  rewrite (u64_id (b * 2 ^ o)) by nia. apply u64_id. nia.
Qed.

Lemma coalesced_push total F o f :
  block_ok total o f -> coalesced F -> Z.lxor (f / 2 ^ o) 1 * 2 ^ o ∉ F o ->
  coalesced (upd F o (f :: F o)).
Proof.
  intros Hb Hco Hbud o' b Ho'. pose proof Hb as (Ho & _).
  destruct (decide (o' = o)) as [->|Hne]; [|rewrite upd_ne by done; by apply Hco].
  rewrite upd_eq. pose proof (block_frame _ _ _ Hb) as Hf. pose proof (pow2_pos o ltac:(lia)).
  destruct (lxor_1_pair (f / 2 ^ o)) as (k & _ & Hk). set (i := f / 2 ^ o) in *.
  intros [H1|H1]%elem_of_cons [H2|H2]%elem_of_cons; [nia| | |by eapply Hco].
  - assert (i = 2 * b) by nia. destruct Hk as [[? Hl]|[? Hl]]; [|lia].
    apply Hbud. rewrite Hl. by replace (2 * k + 1) with (2 * b + 1) by lia.
  - assert (i = 2 * b + 1) by nia. destruct Hk as [[? Hl]|[? Hl]]; [lia|].
    apply Hbud. rewrite Hl. by replace (2 * k) with (2 * b) by lia.
Qed.

Lemma coalesced_sub F F' : (forall o f, f ∈ F' o -> f ∈ F o) -> coalesced F -> coalesced F'.
Proof. intros Hsub Hco o b Ho H1 H2. eapply Hco; eauto. Qed.

(** Pushing the fresh right half of a split block and toggling its pair. *)
Lemma push_toggle_inv s F o f :
  buddy_inv s F -> o < MAX_ORDER -> block_ok (total_frames s) o f -> fresh F o f ->
  Z.lxor (f / 2 ^ o) 1 * 2 ^ o ∉ F o ->
  (forall x, f <= x < f + 2 ^ o -> refcount s !! x = Some 0) ->
  exists s1 s2, free_list_push s o (f * PAGE_SIZE) = Some s1 /\
    bit_toggle s1 o (f / 2 ^ o / 2) = Some s2 /\
    buddy_inv s2 (upd F o (f :: F o)) /\ same_meta s s2.
Proof.
  intros (C & Hx & Hco) Hlt Hb Hfresh Hbud Hrc. pose proof Hb as (Ho & _).
  destruct (core_push _ _ _ _ C Hb Hfresh Hrc) as (hd & ov & Hpush & C1).
  destruct (pair_bound _ _ _ Hb) as [Hp0 Hp1].
  destruct (bit_toggle_spec (with_list s o hd ov) o (f / 2 ^ o / 2)) as (m & Htog & Hm & Hdom);
    [done|by apply C, pair_word_bound|].
  eexists _, _. split; [exact Hpush|]. split; [exact Htog|]. split; [split_and!|done].
  - by apply core_coalesce.
  - eapply xor_ok_ext; [..|eapply (xor_toggle (with_list s o hd ov) (mem F)); [exact Hb|exact Hm|]];
      [done|done| |by eapply xor_ok_ext].
    intros. apply mem_push, fresh_not_in; [lia|done].
  - by eapply coalesced_push.
Qed.

Lemma split_down_spec n : forall s F c f order,
  n = Z.to_nat (c - order) -> 0 <= order <= c ->
  buddy_inv s F -> block_ok (total_frames s) c f -> fresh F c f ->
  (forall x, f <= x < f + 2 ^ c -> refcount s !! x = Some 0) ->
  exists s' F', split_down s n c (f / 2 ^ c) = Some s' /\ buddy_inv s' F' /\ same_meta s s' /\
    (forall x, free_frame F' x <-> free_frame F x \/ f + 2 ^ order <= x < f + 2 ^ c).
Proof.
  induction n as [|n IH]; intros s F c f order Hn Hord Hinv Hb Hfresh Hrc.
  - assert (c = order) as -> by lia. exists s, F. simpl. split_and!; [done..|].
    intros x. split; [by left|intros [?|?]; [done|lia]].
  - assert (Hc : order < c) by lia. pose proof Hb as (HcM & _). cbn [split_down].
    destruct (block_split _ c f ltac:(lia) Hb) as [Hbl Hbr].
    pose proof (pow2_half c ltac:(lia)) as Hhalf. pose proof (pow2_pos (c - 1) ltac:(lia)) as Hpos.
    pose proof (block_frame _ _ _ Hb) as Hf. set (i := f / 2 ^ c) in *.
    destruct (block_small (total_frames s) c f) as (Hsm & Hsm' & Hc24); [apply Hinv|done|].
    assert (Hi : 0 <= i) by (apply Z.div_pos; lia).
    assert (Hil : f / 2 ^ (c - 1) = 2 * i).
    { rewrite Hf, Hhalf. replace (i * (2 * 2 ^ (c - 1))) with (2 * i * 2 ^ (c - 1)) by ring.
      apply Z.div_mul. lia. }
    assert (Hir : (f + 2 ^ (c - 1)) / 2 ^ (c - 1) = 2 * i + 1).
    { rewrite <- (Z.mul_1_l (2 ^ (c - 1))) at 1. rewrite Z.div_add by lia. lia. }
    assert (Hi64 : 2 * i + 1 < 2 ^ 64) by nia.
    rewrite (shiftl_mul i 1) by lia. change (2 ^ 1) with 2.
    rewrite (u64_id (i * 2)) by lia. rewrite (u64_id (i * 2 + 1)) by lia.
    replace (i * 2 + 1) with ((f + 2 ^ (c - 1)) / 2 ^ (c - 1)) by lia.
    rewrite block_phys; [|lia|rewrite Hir; lia|rewrite Hir, MAX_FRAMES_val; nia].
    rewrite <- (block_frame _ _ _ Hbr). rewrite shiftr_div by lia. change (2 ^ 1) with 2.
    assert (Hfr : fresh F (c - 1) (f + 2 ^ (c - 1))).
    { eapply fresh_sub; [| |exact Hfresh]; lia. }
    destruct (push_toggle_inv s F (c - 1) (f + 2 ^ (c - 1))) as (s1 & s2 & -> & Htog & Hinv2 & Hm2);
      [done|unfold MAX_ORDER; lia|done|done| |intros; apply Hrc; lia|].
    { rewrite Hir, lxor_odd_1. replace (2 * i * 2 ^ (c - 1)) with f by lia.
      intros Hin. specialize (Hfresh (c - 1) f ltac:(lia) Hin).
      by eapply disjoint_blocks_ne in Hfresh; [|lia..]. }
    cbn [mbind option_bind]. rewrite Htog. cbn [mbind option_bind].
    replace (i * 2) with (f / 2 ^ (c - 1)) by lia.
    destruct (IH s2 (upd F (c - 1) (f + 2 ^ (c - 1) :: F (c - 1))) (c - 1) f order)
      as (s' & F' & -> & Hinv' & Hm' & Hff); [lia|lia|done| | | |].
    + by rewrite (sm_total _ _ Hm2).
    + intros o' f' Ho'. destruct (decide (o' = c - 1)) as [->|Hne].
      * rewrite upd_eq. intros [->|Hin]%elem_of_cons; [left; lia|].
        eapply fresh_sub; [| |exact Hfresh| |exact Hin]; lia.
      * rewrite upd_ne by done. intros Hin. eapply fresh_sub; [| |exact Hfresh| |exact Hin]; lia.
    + intros x Hx. rewrite (sm_refs _ _ Hm2). apply Hrc. lia.
    + exists s', F'. split_and!; [done|done|by etrans|]. intros x. rewrite Hff, free_frame_push by lia.
      pose proof (Z.pow_le_mono_r 2 order (c - 1)). split.
      * intros [[?|?]|?]; [by left|right; lia|right; lia].
      * intros [?|?]; [by left; left|]. destruct (Z.lt_ge_cases x (f + 2 ^ (c - 1))); [right; lia|left; right; lia].
Qed.

Lemma find_order_spec n : forall s F cur,
  core s F -> 0 <= cur -> n = Z.to_nat (MAX_ORDER + 1 - cur) ->
  exists r, find_order s n cur = Some r /\ cur <= r /\
    (forall o, cur <= o < r -> o <= MAX_ORDER -> F o = []) /\ (r <= MAX_ORDER -> F r <> []).
Proof.
  induction n as [|n IH]; intros s F cur C H0 Hn.
  - exists cur. simpl. split_and!; [done|lia|lia|lia].
  - assert (Hc : 0 <= cur <= MAX_ORDER) by lia. cbn [find_order].
    destruct (c_lists _ _ C cur Hc) as (hd & Hhd & [Hseg _]). rewrite Hhd. simpl.
    destruct (Z.eqb_spec hd NULL) as [->|Hne]; simpl.
    + apply seg_hd_nil in Hseg; [|done]. apply fmap_nil_inv in Hseg.
      destruct (IH s F (cur + 1) C) as (r & Hr & ? & Hemp & Hne); [lia|lia|].
      exists r. split_and!; [done|lia| |done]. intros o Ho HM.
      destruct (decide (o = cur)) as [->|]; [done|]. apply Hemp; lia.
    + exists cur. split_and!; [done|lia|intros; lia|]. intros _ HF. rewrite HF in Hseg. done.
Qed.

(** Two aligned blocks, the second at most as large: if they meet, the first
    contains the second. *)
Lemma aligned_contains o f k g :
  0 <= k <= o -> f mod 2 ^ o = 0 -> g mod 2 ^ k = 0 ->
  (exists x, f <= x < f + 2 ^ o /\ g <= x < g + 2 ^ k) -> f <= g /\ g + 2 ^ k <= f + 2 ^ o.
Proof.
  intros Hk Hf Hg (x & Hx & Hx'). pose proof (pow2_pos k ltac:(lia)) as Hpk.
  assert (Hpo : 2 ^ o = 2 ^ k * 2 ^ (o - k)) by (rewrite <- Z.pow_add_r by lia; f_equal; lia).
  pose proof (pow2_pos (o - k) ltac:(lia)).
  apply Z.mod_divide in Hf as [a ->]; [|lia]. apply Z.mod_divide in Hg as [b ->]; [|lia].
  rewrite Hpo in *. set (M := 2 ^ (o - k)) in *. set (K := 2 ^ k) in *.
  assert (a * M < b + 1) by (apply (Z.mul_lt_mono_pos_r K); lia).
  assert (b < a * M + M) by (apply (Z.mul_lt_mono_pos_r K); lia).
  assert ((b + 1) * K <= (a * M + M) * K) by (apply Z.mul_le_mono_nonneg_r; lia).
  assert (a * M * K <= b * K) by (apply Z.mul_le_mono_nonneg_r; lia). lia.
Qed.

Lemma aligned_disjoint o f k g :
  0 <= k <= o -> f mod 2 ^ o = 0 -> g mod 2 ^ k = 0 -> f < g + 2 ^ k -> g < f + 2 ^ o ->
  f <= g /\ g + 2 ^ k <= f + 2 ^ o.
Proof.
  intros Hk Hf Hg H1 H2. apply aligned_contains; [done..|]. exists (Z.max f g).
  pose proof (pow2_pos k ltac:(lia)). pose proof (pow2_pos o ltac:(lia)). lia.
Qed.

(** The lists are the maximal free blocks: every aligned run of free frames
    lies inside one block of the lists. *)
Lemma free_run_covered s F o f :
  buddy_inv s F -> block_ok (total_frames s) o f ->
  (forall x, f <= x < f + 2 ^ o -> free_frame F x) ->
  exists o' f', o <= o' <= MAX_ORDER /\ f' ∈ F o' /\ f' <= f /\ f + 2 ^ o <= f' + 2 ^ o'.
Proof.
  intros (C & _ & Hco) Hb. pose proof Hb as (Ho & _). revert f Hb.
  pattern o. apply natlike_ind; [| |lia]; clear o Ho.
  - intros f Hb Hfree. destruct (Hfree f) as (o' & f' & ? & ? & ?); [simpl; lia|].
    exists o', f'. simpl. split_and!; (done || lia).
  - intros o Ho IH f Hb Hfree. pose proof (pow2_half (Z.succ o) ltac:(lia)) as Hh.
    destruct (block_split _ (Z.succ o) f ltac:(lia) Hb) as [Hl Hr].
    replace (Z.succ o - 1) with o in * by lia. pose proof (pow2_pos o Ho) as Hpos.
    pose proof Hb as (HM & H0 & Hal & Ht). pose proof Hl as (_ & _ & Hal' & _).
    pose proof Hr as (_ & _ & Hal'' & _).
    destruct (IH f Hl) as (o1 & f1 & Ho1 & Hf1 & Hle1 & Hge1); [intros; apply Hfree; lia|].
    destruct (IH _ Hr) as (o2 & f2 & Ho2 & Hf2 & Hle2 & Hge2); [intros; apply Hfree; lia|].
    pose proof (c_blk _ _ C o1 f1 ltac:(lia) Hf1) as (_ & _ & Hm1 & _).
    pose proof (c_blk _ _ C o2 f2 ltac:(lia) Hf2) as (_ & _ & Hm2 & _).
    destruct (Z.eq_dec o1 o) as [->|].
    2:{ exists o1, f1. destruct (aligned_disjoint o1 f1 (Z.succ o) f); [lia|done..|lia|lia|].
        split_and!; [lia|lia|done|lia|lia]. }
    destruct (Z.eq_dec o2 o) as [->|].
    2:{ exists o2, f2. destruct (aligned_disjoint o2 f2 (Z.succ o) f); [lia|done..|lia|lia|].
        split_and!; [lia|lia|done|lia|lia]. }
    exfalso. pose proof (block_frame _ _ _ Hb) as Hf. rewrite Hh in Hf at 2.
    apply (Hco o (f / 2 ^ Z.succ o)); [lia| |].
    + replace (2 * _ * 2 ^ o) with f by lia. by replace f with f1 by lia.
    + replace ((2 * _ + 1) * 2 ^ o) with (f + 2 ^ o) by lia. by replace (f + 2 ^ o) with f2 by lia.
Qed.

Lemma core_free_pages s F n : core s F -> core (with_free_pages s n) F.
Proof. intros C. constructor; apply C. Qed.
Lemma inv_free_pages s F n : buddy_inv s F -> buddy_inv (with_free_pages s n) F.
Proof. intros (C & Hx & Hco). split_and!; [by apply core_free_pages|exact Hx|done]. Qed.

(** Popping the first block of order [c] and toggling its pair. *)
Lemma pop_toggle_inv s F c f l :
  buddy_inv s F -> 0 <= c <= MAX_ORDER -> F c = f :: l ->
  exists s1 s2, free_list_pop s c = Some (s1, f * PAGE_SIZE) /\
    bit_toggle s1 c (f / 2 ^ c / 2) = Some s2 /\
    buddy_inv s2 (upd F c l) /\ same_meta s s2 /\ fresh (upd F c l) c f.
Proof.
  intros (C & Hx & Hco) Hc HF. assert (Hin : f ∈ F c) by (rewrite HF; set_solver).
  pose proof (c_blk _ _ C c f Hc Hin) as Hb.
  destruct (core_pop _ _ _ _ _ C Hc HF) as (hd & ov & Hpop & C1).
  destruct (pair_bound _ _ _ Hb) as [Hp0 Hp1].
  destruct (bit_toggle_spec (with_list s c hd ov) c (f / 2 ^ c / 2)) as (m & Htog & Hm & Hdom);
    [done|by apply C, pair_word_bound|].
  assert (Hnin : f ∉ l).
  { pose proof (core_NoDup _ _ _ C Hc) as Hnd. rewrite HF in Hnd. by apply NoDup_cons in Hnd as []. }
  eexists _, _. split; [exact Hpop|]. split; [exact Htog|]. split_and!; [split_and!|done|].
  - by apply core_coalesce.
  - eapply xor_ok_ext; [..|eapply (xor_toggle (with_list s c hd ov) (mem F)); [exact Hb|exact Hm|]];
      [done|done| |by eapply xor_ok_ext].
    intros. apply (mem_remove F c [] f l); [by eapply core_NoDup|done].
  - eapply coalesced_sub; [|done]. intros o b.
    destruct (decide (o = c)) as [->|]; [rewrite upd_eq, HF; set_solver|by rewrite upd_ne].
  - intros o' f' Ho' Hf'. destruct (decide (o' = c)) as [->|Hne].
    + rewrite upd_eq in Hf'. apply (c_disj _ _ C); [done..|rewrite HF; set_solver|congruence].
    + rewrite upd_ne in Hf' by done. apply (c_disj _ _ C); [done..|congruence].
Qed.

(** The outcome of an allocation: failure exactly when no aligned run of
    [2^order] free frames is left, otherwise an aligned block all of whose
    frames were free. *)
Definition alloc_result (s : buddy) (F : Z -> list Z) (order : Z) (s' : buddy) (r : Z) : Prop :=
  (r = PMM_INVALID_ADDR /\ s' = s /\
   forall f, block_ok (total_frames s) order f ->
     ~ (forall x, f <= x < f + 2 ^ order -> free_frame F x)) \/
  exists f F', r = f * PAGE_SIZE /\ r <> PMM_INVALID_ADDR /\
    block_ok (total_frames s) order f /\
    (forall x, f <= x < f + 2 ^ order -> free_frame F x /\ refcount s !! x = Some 0) /\
    buddy_inv s' F' /\
    (forall x, free_frame F' x <-> free_frame F x /\ ~ (f <= x < f + 2 ^ order)) /\
    refcount s' = refcount s /\ total_frames s' = total_frames s /\
    free_pages s' = u64 (free_pages s - 2 ^ order).

Lemma alloc_locked_spec s F order :
  buddy_inv s F -> 0 <= order ->
  exists s' r, pmm_buddy_alloc_locked s order = Some (s', r) /\ alloc_result s F order s' r.
Proof.
  intros Hinv H0. pose proof Hinv as (C & _ & _). unfold pmm_buddy_alloc_locked, alloc_result.
  destruct (Z.ltb_spec MAX_ORDER order) as [Hlt|Hge].
  { exists s, PMM_INVALID_ADDR. split; [done|]. left. split_and!; [done..|]. intros f (? & _). lia. }
  destruct (find_order_spec _ s F order C H0 eq_refl) as (c & -> & Hoc & Hemp & Hne).
  cbn [mbind option_bind]. destruct (Z.ltb_spec MAX_ORDER c) as [Hlt|Hc].
  { exists s, PMM_INVALID_ADDR. split; [done|]. left. split_and!; [done..|]. intros f Hb Hfree.
    destruct (free_run_covered _ _ _ _ Hinv Hb Hfree) as (o' & f' & Ho' & Hin & _).
    rewrite Hemp in Hin by lia. set_solver. }
  destruct (F c) as [|f l] eqn:HF; [by destruct Hne|].
  assert (Hin : f ∈ F c) by (rewrite HF; set_solver).
  pose proof (c_blk _ _ C c f ltac:(lia) Hin) as Hb.
  destruct (block_small (total_frames s) c f) as (Hsm & Hf & _); [apply C|done|].
  destruct (pop_toggle_inv s F c f l) as (s1 & s2 & -> & Htog & Hinv2 & Hm2 & Hfresh); [done|lia|done|].
  cbn [mbind option_bind]. rewrite frame_of_phys, !shiftr_div by lia. change (2 ^ 1) with 2.
  rewrite Htog. cbn [mbind option_bind].
  destruct (split_down_spec (Z.to_nat (c - order)) s2 (upd F c l) c f order) as (s3 & F' & -> & Hinv3 & Hm3 & Hff);
    [done|lia|done|by rewrite (sm_total _ _ Hm2)|done| |].
  { intros x Hx. rewrite (sm_refs _ _ Hm2). by apply (c_rc _ _ C c f); [lia|..]. }
  pose proof (pow2_pos order H0). pose proof (Z.pow_le_mono_r 2 order c ltac:(lia) Hoc).
  assert (Hm : same_meta s s3) by (by etrans).
  cbn [mbind option_bind]. eexists _, _. split; [done|]. right. exists f, F'.
  split_and!; [done| | | |by apply inv_free_pages| | | |].
  - rewrite MAX_FRAMES_val, PAGE_SIZE_val in *. unfold PMM_INVALID_ADDR. lia.
  - pose proof Hb as (? & ? & Hal & ?). split_and!; [lia|lia|lia| |lia].
    apply Z.mod_divide in Hal as [k ->]; [|lia]. apply Z.mod_divide; [lia|].
    exists (k * 2 ^ (c - order)). rewrite <- Z.mul_assoc, <- Z.pow_add_r by lia. do 2 f_equal. lia.
  - intros x Hx. split; [exists c, f; split_and!; (done || lia)|].
    apply (c_rc _ _ C c f); [lia|done|lia].
  - intros x. rewrite Hff, (free_frame_remove s F c [] f l) by (done || lia). split.
    + intros [[? ?]|?]; [split; [done|lia]|]. split; [exists c, f; split_and!; (done || lia)|lia].
    + intros [? ?]. destruct (Z.lt_ge_cases x f); [left; split; [done|lia]|].
      destruct (Z.lt_ge_cases x (f + 2 ^ c)); [right; lia|left; split; [done|lia]].
  - apply Hm.
  - apply Hm.
  - simpl. rewrite (sm_pages _ _ Hm). unfold order_to_pages. rewrite Z.shiftl_1_l.
    rewrite (u64_id (2 ^ order)); [done|]. lia.
Qed.

(** ** Release *)

Lemma with_refcount_id s : with_refcount s (refcount s) = s.
Proof. by destruct s. Qed.

Lemma clear_refs_spec n : forall s f,
  0 <= f -> (forall x, 0 <= x < total_frames s -> is_Some (refcount s !! x)) ->
  exists m, clear_refs s n f = Some (with_refcount s m) /\
    forall x, m !! x = if (f <=? x) && (x <? f + Z.of_nat n) && (x <? total_frames s)
                       then Some 0 else refcount s !! x.
Proof.
  induction n as [|n IH]; intros s f Hf Hrc; cbn [clear_refs].
  - exists (refcount s). rewrite with_refcount_id. split; [done|]. intros x. zbool; (done || lia).
  - destruct (Z.ltb_spec f (total_frames s)) as [Hlt|Hge].
    + destruct (Hrc f) as [r Hr]; [lia|]. rewrite Hr. cbn [mbind option_bind].
      destruct (IH (with_refcount s (<[f := 0]> (refcount s))) (f + 1)) as (m & -> & Hm); [lia| |].
      { simpl. intros x Hx. destruct (decide (f = x)) as [->|]; [by rewrite lookup_insert_eq|].
        rewrite lookup_insert_ne by done. by apply Hrc. }
      exists m. split; [done|]. intros x. rewrite Hm. simpl.
      destruct (decide (f = x)) as [<-|]; [rewrite lookup_insert_eq|rewrite lookup_insert_ne by done];
        zbool; simpl; (done || lia).
    + destruct (IH s (f + 1)) as (m & -> & Hm); [lia|done|]. exists m. split; [done|].
      intros x. rewrite Hm. zbool; simpl; (done || lia).
Qed.

Lemma inv_refcount s F m :
  buddy_inv s F ->
  (forall x, is_Some (refcount s !! x) -> is_Some (m !! x)) ->
  (forall x, free_frame F x -> m !! x = Some 0) ->
  buddy_inv (with_refcount s m) F.
Proof.
  intros (C & Hx & Hco) Hsome Hz. split_and!; [|exact Hx|done].
  constructor; simpl; try apply C.
  - intros f Hf. apply Hsome. by apply C.
  - intros o f x Ho Hin Hr. apply Hz. by exists o, f.
Qed.

(** The parent of two buddies. *)
Lemma buddy_parent total o f :
  o < MAX_ORDER -> block_ok total o f -> block_ok total o (Z.lxor (f / 2 ^ o) 1 * 2 ^ o) ->
  let g := Z.lxor (f / 2 ^ o) 1 * 2 ^ o in
  let q := f / 2 ^ o / 2 * 2 ^ (o + 1) in
  block_ok total (o + 1) q /\ q / 2 ^ (o + 1) = f / 2 ^ o / 2 /\
  (f = q /\ g = q + 2 ^ o \/ g = q /\ f = q + 2 ^ o) /\ 2 ^ (o + 1) = 2 * 2 ^ o.
Proof.
  intros Ho Hb Hg. simpl. pose proof Hb as (HM & H0 & Hal & Ht). destruct Hg as (_ & Hg0 & _ & Hgt).
  pose proof (pow2_pos o ltac:(lia)) as Hpos.
  assert (Hp : 2 ^ (o + 1) = 2 * 2 ^ o) by (rewrite Z.pow_add_r by lia; change (2 ^ 1) with 2; lia).
  pose proof (block_frame _ _ _ Hb) as Hf. set (i := f / 2 ^ o) in *.
  destruct (lxor_1_pair i) as (k & Hk & Hc). rewrite <- Hk. rewrite Hp in *.
  assert (Hd : k * (2 * 2 ^ o) / (2 * 2 ^ o) = k) by (apply Z.div_mul; lia).
  split_and!; [|done| |done].
  - split; [lia|]. split; [|split].
    + destruct Hc as [[? Hl]|[? Hl]]; rewrite Hl in *; nia.
    + rewrite Hp. apply Z.mod_divide; [lia|by exists k].
    + rewrite Hp. destruct Hc as [[? Hl]|[? Hl]]; rewrite Hl in *; nia.
  - destruct Hc as [[? Hl]|[? Hl]]; rewrite Hl in *; [left|right]; nia.
Qed.

(** After the toggle the pair's bit tells whether the buddy is allocated. *)
Lemma toggled_bit s F o f :
  o < MAX_ORDER -> block_ok (total_frames s) o f -> fresh F o f -> xor_ok s (flip (mem F) o f) ->
  bit_at (coalesce s) o (f / 2 ^ o / 2) = negb (mem F o (Z.lxor (f / 2 ^ o) 1 * 2 ^ o)).
Proof.
  intros Ho Hb Hfresh Hx. pose proof Hb as (HM & _). destruct (pair_bound _ _ _ Hb) as [Hp0 Hp1].
  rewrite (Hx o (f / 2 ^ o / 2)) by lia. unfold flip. rewrite Z.eqb_refl. simpl.
  pose proof (block_frame _ _ _ Hb) as Hf. pose proof (pow2_pos o ltac:(lia)).
  assert (Hmem : mem F o f = false) by (apply bool_decide_false; by apply fresh_not_in).
  set (i := f / 2 ^ o) in *. destruct (lxor_1_pair i) as (k & -> & [[Hi ->]|[Hi ->]]).
  - replace (2 * (i / 2) * 2 ^ o) with f by lia. rewrite Hmem, Z.eqb_refl.
    rewrite (proj2 (Z.eqb_neq _ _)) by nia. by rewrite xorb_false_r.
  - replace ((2 * (i / 2) + 1) * 2 ^ o) with f by lia. rewrite Hmem, Z.eqb_refl.
    rewrite (proj2 (Z.eqb_neq _ _)) by nia. by rewrite xorb_false_r, xorb_true_r.
Qed.

(** One turn of the merge loop: the free buddy leaves its list and the block
    in hand becomes the parent. *)
Lemma merge_step s F o f :
  let g := Z.lxor (f / 2 ^ o) 1 * 2 ^ o in
  let q := f / 2 ^ o / 2 * 2 ^ (o + 1) in
  core s F -> xor_ok s (flip (mem F) o f) -> coalesced F -> o < MAX_ORDER ->
  block_ok (total_frames s) o f -> fresh F o f ->
  (forall x, f <= x < f + 2 ^ o -> refcount s !! x = Some 0) -> g ∈ F o ->
  exists s2 F2, free_list_remove s o (g * PAGE_SIZE) = Some s2 /\ buddy_inv s2 F2 /\
    same_meta s s2 /\ fresh F2 (o + 1) q /\
    (forall x, q <= x < q + 2 ^ (o + 1) -> refcount s2 !! x = Some 0) /\
    (forall x, free_frame F2 x <-> free_frame F x /\ ~ (g <= x < g + 2 ^ o)).
Proof.
  intros g q C Hx Hco Ho Hb Hfresh Hrc Hg. pose proof Hb as (HM & _).
  destruct (buddy_parent _ _ _ Ho Hb (c_blk _ _ C o g HM Hg)) as (Hq & Hqi & Hcase & Hp).
  fold g q in Hq, Hcase. pose proof Hg as (l1 & l2 & HF)%list_elem_of_split.
  destruct (core_remove _ _ _ _ _ _ C HM HF) as (hd & ov & Hrm & C2).
  eexists _, _. split; [exact Hrm|]. split_and!; [split_and!; [done|..]|done| | |].
  - eapply xor_ok_ext; [done|done| |apply (xor_flip_buddy s (mem F) o f); [lia|exact Hb|exact Hx]]. intros.
    apply mem_remove; [by eapply core_NoDup|done].
  - eapply coalesced_sub; [|exact Hco]. intros o' f'. destruct (decide (o' = o)) as [->|].
    + rewrite upd_eq, HF. set_solver.
    + by rewrite upd_ne.
  - assert (Hgn : NoDup (F o)) by (by eapply core_NoDup). rewrite HF in Hgn.
    apply NoDup_middle in Hgn as (Hg1 & Hg2 & _). intros o' f' Ho' Hf'.
    assert (Hin : f' ∈ F o' /\ (o', f') <> (o, g)).
    { destruct (decide (o' = o)) as [->|Hne]; [|rewrite upd_ne in Hf' by done; split; [done|congruence]].
      rewrite upd_eq in Hf'. rewrite HF. split; [set_solver|]. intros [= ->]. set_solver. }
    destruct Hin as [Hin Hne]. pose proof (Hfresh o' f' Ho' Hin) as Hd1.
    assert (Hd2 : disjoint_blocks o' f' o g) by (by apply (c_disj _ _ C)).
    unfold disjoint_blocks in *. pose proof (pow2_pos o' ltac:(lia)).
    pose proof (pow2_pos o ltac:(lia)). destruct (c_blk _ _ C o' f' Ho' Hin) as (_ & _ & Hal' & _).
    (* no free block other than the buddy meets the parent *)
    destruct Hcase as [[? ?]|[? ?]]; destruct Hd1, Hd2; lia.
  - intros x Hxr. simpl. pose proof (c_rc _ _ C o g) as Hrcg.
    destruct Hcase as [[? ?]|[? ?]]; destruct (Z.lt_ge_cases x (q + 2 ^ o));
      first [apply Hrc; lia|apply Hrcg; [done|done|lia]].
  - intros x. by eapply free_frame_remove.
Qed.

Lemma merge_up_spec n : forall s F o f,
  n = Z.to_nat (MAX_ORDER - o) -> buddy_inv s F -> block_ok (total_frames s) o f ->
  fresh F o f -> (forall x, f <= x < f + 2 ^ o -> refcount s !! x = Some 0) ->
  exists s1 o1 f1 s2 F2, merge_up s n o (f / 2 ^ o) (f * PAGE_SIZE) = Some (s1, o1, f1 * PAGE_SIZE) /\
    free_list_push s1 o1 (f1 * PAGE_SIZE) = Some s2 /\ buddy_inv s2 F2 /\ same_meta s s2 /\
    (forall x, free_frame F2 x <-> free_frame F x \/ f <= x < f + 2 ^ o).
Proof.
  induction n as [|n IH]; intros s F o f Hn Hinv Hb Hfresh Hrc; pose proof Hinv as (C & Hx & Hco);
    pose proof Hb as (HM & H0 & Hal & Ht); pose proof (pow2_pos o ltac:(lia)) as Hpos.
  { assert (o = MAX_ORDER) as -> by lia.
    destruct (core_push _ _ _ _ C Hb Hfresh Hrc) as (hd & ov & Hpush & C1).
    eexists _, _, _, _, _. split; [done|]. split; [exact Hpush|]. split_and!; [split_and!; [done|..]|done|].
    - eapply xor_ok_ext; [done|done| |exact Hx]. intros o' f' Ho'. unfold mem. by rewrite upd_ne by lia.
    - intros o' b Ho'. rewrite upd_ne by lia. by apply Hco.
    - intros x. by apply free_frame_push. }
  assert (Ho : o < MAX_ORDER) by lia. cbn [merge_up].
  rewrite (c_blocks _ _ C o HM). cbn [mbind option_bind].
  destruct (pair_bound _ _ _ Hb) as [Hp0 Hp1].
  pose proof (c_total _ _ C) as Htot. rewrite MAX_FRAMES_val in Htot.
  assert (Hnb : 0 <= n_blocks (total_frames s) o <= 2 ^ 33).
  { unfold n_blocks. split; [apply Z.div_pos; lia|]. apply Z.div_le_upper_bound; [lia|].
    assert (2 ^ o <= 2 ^ 32) by (apply Z.pow_le_mono_r; unfold MAX_ORDER in *; lia). nia. }
  rewrite u64_id by lia. rewrite !shiftr_div by lia. change (2 ^ 1) with 2.
  destruct (Z.leb_spec ((n_blocks (total_frames s) o + 1) / 2) (f / 2 ^ o / 2)); [lia|].
  destruct (bit_toggle_spec s o (f / 2 ^ o / 2)) as (m & -> & Hm & Hdom); [done|by apply C, pair_word_bound|].
  cbn [mbind option_bind].
  rewrite bit_test_spec; [|done|simpl; by apply Hdom, C, pair_word_bound]. cbn [mbind option_bind].
  pose proof (core_coalesce _ _ _ C Hdom) as C1.
  pose proof (xor_toggle _ _ _ _ _ Hb Hm Hx) as Hx1.
  set (s1 := with_coalesce s m) in *.
  rewrite (toggled_bit s1 F) by done. unfold mem.
  case_bool_decide as Hg; simpl; last first.
  { destruct (core_push s1 F o f C1) as (hd & ov & Hpush & C2); [done..|].
    eexists _, _, _, _, _. split; [done|]. split; [exact Hpush|]. split_and!; [split_and!; [done|..]|done|].
    - eapply xor_ok_ext; [done|done| |exact Hx1]. intros. by apply mem_push, fresh_not_in.
    - by eapply coalesced_push.
    - intros x. by apply free_frame_push. }
  destruct (merge_step s1 F o f C1 Hx1 Hco Ho Hb Hfresh Hrc Hg) as (s2 & F2 & Hrm & Hinv2 & Hm2 & Hfr2 & Hrc2 & Hff2).
  pose proof (c_blk _ _ C o _ HM Hg) as Hgb.
  destruct (buddy_parent _ _ _ Ho Hb Hgb) as (Hq & Hqi & Hcase & Hp).
  destruct (block_small _ _ _ (proj2 (c_total _ _ C)) Hgb) as (_ & Hgs & _).
  destruct (block_small _ _ _ (proj2 (c_total _ _ C)) Hb) as (_ & Hfs & Ho24).
  pose proof (block_frame _ _ _ Hb) as Hf.
  rewrite block_phys; [|lia|apply Z.mul_nonneg_cancel_r with (2 ^ o); lia|lia]. rewrite Hrm. cbn [mbind option_bind].
  rewrite MAX_FRAMES_val in Hfs.
  rewrite clear_bit_parent; [|unfold PAGE_SHIFT; lia|rewrite PAGE_SIZE_val; lia].
  replace (f * PAGE_SIZE) with (f / 2 ^ o * 2 ^ (PAGE_SHIFT + (o + 1) - 1)); last first.
  { replace (PAGE_SHIFT + (o + 1) - 1) with (o + 12) by (unfold PAGE_SHIFT; lia).
    rewrite Z.pow_add_r by lia. rewrite PAGE_SIZE_val. change (2 ^ 12) with 4096. lia. }
  rewrite clearbit_mul by (unfold PAGE_SHIFT; lia).
  replace (f / 2 ^ o / 2 * 2 ^ (PAGE_SHIFT + (o + 1) - 1 + 1)) with (f / 2 ^ o / 2 * 2 ^ (o + 1) * PAGE_SIZE); last first.
  { replace (PAGE_SHIFT + (o + 1) - 1 + 1) with (o + 1 + 12) by (unfold PAGE_SHIFT; lia).
    rewrite (Z.pow_add_r 2 (o + 1) 12) by lia. rewrite PAGE_SIZE_val. change (2 ^ 12) with 4096. lia. }
  destruct (IH s2 F2 (o + 1) (f / 2 ^ o / 2 * 2 ^ (o + 1))) as (s3 & o3 & f3 & s4 & F4 & Hmg & Hps & Hinv4 & Hm4 & Hff4);
    [lia|done|by rewrite (sm_total _ _ Hm2)|done|done|].
  rewrite Hqi in Hmg. exists s3, o3, f3, s4, F4. split_and!; [done|done|done| |].
  { etrans; [|exact Hm4]. etrans; [|exact Hm2]. done. }
  intros x. rewrite Hff4, Hff2. rewrite Hp. set (g := Z.lxor (f / 2 ^ o) 1 * 2 ^ o) in *. split.
  - intros [[? ?]|?]; [by left|]. destruct Hcase as [[? ?]|[? ?]];
      (destruct (decide (f <= x < f + 2 ^ o)); [by right|left; exists o, g; split_and!; (done || lia)]).
  - intros [?|?].
    + destruct (decide (g <= x < g + 2 ^ o)); [|by left]. right. destruct Hcase; lia.
    + right. destruct Hcase; lia.
Qed.

Lemma free_locked_spec s F order f :
  buddy_inv s F -> block_ok (total_frames s) order f ->
  (forall x, f <= x < f + 2 ^ order -> ~ free_frame F x) ->
  exists s' F', pmm_buddy_free_locked s (f * PAGE_SIZE) order = Some s' /\ buddy_inv s' F' /\
    (forall x, free_frame F' x <-> free_frame F x \/ f <= x < f + 2 ^ order) /\
    (forall x, refcount s' !! x = if decide (f <= x < f + 2 ^ order) then Some 0 else refcount s !! x) /\
    total_frames s' = total_frames s /\ free_pages s' = free_pages s.
Proof.
  intros Hinv Hb Halloc. pose proof Hinv as (C & _ & _). pose proof Hb as (HM & H0 & _ & Ht).
  pose proof (pow2_pos order ltac:(lia)) as Hpos.
  destruct (block_small _ _ _ (proj2 (c_total _ _ C)) Hb) as (_ & _ & Ho24).
  unfold pmm_buddy_free_locked. destruct (Z.ltb_spec MAX_ORDER order); [lia|].
  rewrite frame_of_phys. destruct (Z.leb_spec (total_frames s) f); [lia|].
  assert (Hpg : order_to_pages order = 2 ^ order).
  { unfold order_to_pages. rewrite Z.shiftl_1_l. apply u64_id.
    assert (2 ^ order <= 2 ^ 24) by (apply Z.pow_le_mono_r; lia). lia. }
  rewrite Hpg. destruct (clear_refs_spec (Z.to_nat (2 ^ order)) s f) as (m & -> & Hm); [done|apply C|].
  rewrite Z2Nat.id in Hm by lia. cbn [mbind option_bind].
  assert (Hinv1 : buddy_inv (with_refcount s m) F).
  { apply inv_refcount; [done|..].
    - intros x Hx. rewrite Hm. case_match; [by eexists|done].
    - intros x (o' & f' & Ho' & Hin & Hr). rewrite Hm. case_match; [done|]. by apply (c_rc _ _ C o' f'). }
  rewrite shiftr_div by lia. rewrite (c_blocks _ _ (proj1 Hinv1) order HM). cbn [mbind option_bind].
  change (total_frames (with_refcount s m)) with (total_frames s).
  destruct (block_index_bound _ _ _ Hb) as [Hi0 Hi1].
  destruct (Z.leb_spec (n_blocks (total_frames s) order) (f / 2 ^ order)); [lia|].
  destruct (merge_up_spec _ (with_refcount s m) F order f eq_refl Hinv1 Hb)
    as (s1 & o1 & f1 & s2 & F2 & -> & Hpush & Hinv2 & Hm2 & Hff).
  { intros o' f' Ho' Hin. unfold disjoint_blocks. pose proof (pow2_pos o' ltac:(lia)).
    destruct (Z.le_gt_cases (f + 2 ^ order) f'); [by left|]. right.
    destruct (Z.le_gt_cases (f' + 2 ^ o') f); [done|]. exfalso.
    apply (Halloc (Z.max f f')); [lia|]. exists o', f'. split_and!; (done || lia). }
  { intros x Hx. simpl. rewrite Hm. zbool; simpl; (done || lia). }
  exists s2, F2. split; [exact Hpush|]. do 2 (split; [done|]). split; [|split; apply Hm2].
  intros x. rewrite (sm_refs _ _ Hm2). simpl. rewrite Hm. case_decide; zbool; simpl; (done || lia).
Qed.

(** The free frames determine the free blocks: the block structure is
    canonical. *)
Lemma free_blocks_canonical s F s' F' :
  buddy_inv s F -> buddy_inv s' F' -> total_frames s' = total_frames s ->
  (forall x, free_frame F x -> free_frame F' x) -> (forall x, free_frame F' x -> free_frame F x) ->
  forall o f, 0 <= o <= MAX_ORDER -> f ∈ F o -> f ∈ F' o.
Proof.
  intros Hinv Hinv' Ht H1 H2 o f Ho Hf. pose proof Hinv as (C & _). pose proof Hinv' as (C' & _).
  pose proof (c_blk _ _ C o f Ho Hf) as Hb. pose proof (pow2_pos o ltac:(lia)).
  destruct (free_run_covered s' F' o f) as (o' & f' & Ho' & Hf' & Hle & Hge);
    [done|by rewrite Ht|intros x Hx; apply H1; by exists o, f|].
  pose proof (c_blk _ _ C' o' f' ltac:(lia) Hf') as Hb'.
  destruct (free_run_covered s F o' f') as (o2 & f2 & Ho2 & Hf2 & Hle2 & Hge2);
    [done|by rewrite <- Ht|intros x Hx; apply H2; exists o', f'; split_and!; (done || lia)|].
  destruct (decide ((o, f) = (o2, f2))) as [[= <- <-]|Hne].
  - assert (o' = o) as -> by lia. by replace f with f' by lia.
  - destruct (c_disj _ _ C o f o2 f2); (done || lia).
Qed.

(** ** Accounting: the free frames as a list, and [g_free_pages] *)

Definition all_orders : list Z := seqZ 0 (MAX_ORDER + 1).

(** The frames of the free blocks of [F]. *)
Definition block_frames (F : Z -> list Z) (o : Z) : list Z := f ← F o; seqZ f (2 ^ o).
Definition free_frames (F : Z -> list Z) : list Z := o ← all_orders; block_frames F o.

Lemma elem_of_all_orders o : o ∈ all_orders <-> 0 <= o <= MAX_ORDER.
Proof. unfold all_orders. rewrite elem_of_seqZ. unfold MAX_ORDER. lia. Qed.

Lemma elem_of_block_frames F o x :
  x ∈ block_frames F o <-> exists f, f ∈ F o /\ f <= x < f + 2 ^ o.
Proof.
  unfold block_frames. rewrite list_elem_of_bind.
  split; intros (f & H1 & H2); exists f; [apply elem_of_seqZ in H1|rewrite elem_of_seqZ]; done.
Qed.

Lemma elem_of_free_frames F x : x ∈ free_frames F <-> free_frame F x.
Proof.
  unfold free_frames. rewrite list_elem_of_bind. split.
  - intros (o & (f & Hf & Hr)%elem_of_block_frames & Ho%elem_of_all_orders). by exists o, f.
  - intros (o & f & Ho & Hf & Hr). exists o. rewrite elem_of_all_orders, elem_of_block_frames. eauto.
Qed.

Lemma NoDup_free_frames s F : core s F -> NoDup (free_frames F).
Proof.
  intros C. apply NoDup_bind; [| |apply NoDup_seqZ].
  - intros o1 o2 x Ho1%elem_of_all_orders Ho2%elem_of_all_orders.
    rewrite !elem_of_block_frames. intros (f1 & Hf1 & Hx1) (f2 & Hf2 & Hx2).
    destruct (decide (o1 = o2)) as [|Hne]; [done|].
    destruct (c_disj _ _ C o1 f1 o2 f2); (done || congruence || lia).
  - intros o Ho%elem_of_all_orders. apply NoDup_bind; [|intros; apply NoDup_seqZ|by eapply core_NoDup].
    intros f1 f2 x Hf1 Hf2 Hx1%elem_of_seqZ Hx2%elem_of_seqZ.
    destruct (decide (f1 = f2)) as [|Hne]; [done|].
    destruct (c_disj _ _ C o f1 o f2); (done || congruence || lia).
Qed.

Lemma NoDup_range_length (l : list Z) n :
  0 <= n -> NoDup l -> (forall x, x ∈ l -> 0 <= x < n) -> Z.of_nat (length l) <= n.
Proof.
  intros Hn Hnd Hr. assert (Hs : l ⊆+ seqZ 0 n).
  { apply NoDup_submseteq; [done|]. intros x Hx. apply elem_of_seqZ. apply Hr in Hx. lia. }
  apply submseteq_length in Hs. rewrite length_seqZ in Hs. lia.
Qed.

Lemma free_frame_range s F x : core s F -> free_frame F x -> 0 <= x < total_frames s.
Proof.
  intros C (o & f & Ho & Hf & Hr). destruct (c_blk _ _ C o f Ho Hf) as (_ & ? & _ & ?). lia.
Qed.

Lemma free_frames_bound s F :
  core s F -> Z.of_nat (length (free_frames F)) <= total_frames s.
Proof.
  intros C. apply NoDup_range_length; [apply C|by eapply NoDup_free_frames|].
  intros x Hx%elem_of_free_frames. by eapply free_frame_range.
Qed.

Lemma free_list_length s F o :
  core s F -> 0 <= o <= MAX_ORDER -> Z.of_nat (length (F o)) <= total_frames s.
Proof.
  intros C Ho. apply NoDup_range_length; [apply C|by eapply core_NoDup|].
  intros f Hf. destruct (c_blk _ _ C o f Ho Hf) as (_ & ? & _ & ?).
  pose proof (pow2_pos o ltac:(lia)). lia.
Qed.

(** Two duplicate-free lists that differ by the block [f, f + n). *)
Lemma block_length (l l' : list Z) f n :
  0 <= n -> NoDup l -> NoDup l' ->
  (forall x, x ∈ l' <-> x ∈ l /\ ~ (f <= x < f + n)) -> (forall x, f <= x < f + n -> x ∈ l) ->
  Z.of_nat (length l) = Z.of_nat (length l') + n.
Proof.
  intros Hn Hl Hl' Hsub Hin. assert (Hp : l ≡ₚ l' ++ seqZ f n).
  { apply NoDup_Permutation; [done| |].
    - apply NoDup_app. split; [done|]. split; [|apply NoDup_seqZ].
      intros x Hx. rewrite elem_of_seqZ. rewrite Hsub in Hx. tauto.
    - intros x. rewrite elem_of_app, elem_of_seqZ, Hsub. specialize (Hin x).
      destruct (decide (f <= x < f + n)); tauto. }
  rewrite Hp, length_app, length_seqZ. lia.
Qed.

(** [g_free_pages] counts the free frames. *)
Definition counted (s : buddy) (F : Z -> list Z) : Prop :=
  free_pages s = Z.of_nat (length (free_frames F)).

Lemma free_frames_diff s F s' F' f n :
  buddy_inv s F -> buddy_inv s' F' -> 0 <= n ->
  (forall x, free_frame F' x <-> free_frame F x /\ ~ (f <= x < f + n)) ->
  (forall x, f <= x < f + n -> free_frame F x) ->
  Z.of_nat (length (free_frames F)) = Z.of_nat (length (free_frames F')) + n.
Proof.
  intros (C & _) (C' & _) Hn H1 H2. eapply block_length; [done|by eapply NoDup_free_frames..| |].
  - intros x. by rewrite !elem_of_free_frames.
  - intros x Hx. apply elem_of_free_frames. by apply H2.
Qed.

(** Allocation keeps the accounting. *)
Lemma alloc_counted s F order s' r :
  buddy_inv s F -> counted s F -> 0 <= order -> alloc_result s F order s' r ->
  exists F', buddy_inv s' F' /\ counted s' F'.
Proof.
  intros Hi Hc Ho [(-> & -> & _)|(f & F' & _ & _ & Hb & Hfr & Hi' & Hff & _ & Ht & Hp)]; [by exists F|].
  exists F'. split; [done|]. pose proof (pow2_pos order Ho).
  pose proof (free_frames_diff s F s' F' f (2 ^ order) Hi Hi' ltac:(lia) Hff) as Hd.
  specialize (Hd (fun x Hx => proj1 (Hfr x Hx))).
  pose proof (free_frames_bound s F (proj1 Hi)). destruct (c_total _ _ (proj1 Hi)) as [_ HM].
  rewrite MAX_FRAMES_val in HM. unfold counted in *. rewrite Hp, u64_id; lia.
Qed.
