(* ===== verification/PmmInit.v ===== *)
(** * Boot-time construction of the page allocator

    Models [pmm_mem_survey], [calculate_max_order],
    [block_overlaps_forbidden] and [pmm_buddy_init_from_map] of
    kernel/mm/pmm.c: from the firmware memory map (E820 entries) the kernel
    picks the largest usable hole for its metadata, sizes and zeroes the
    metadata arrays, and then releases every usable frame that is not
    reserved, not the kernel image and not metadata into the buddy system. *)

From S2P Require Import Prelude DList Buddy BuddySpec.

Record e820_entry := E820 { e_base : Z; e_length : Z; e_type : Z }.

Record mem_survey := MemSurvey { sv_hole : Z; sv_ceiling : Z }.

(** [__builtin_ctzll] of a positive number. *)
Fixpoint ctz_pos (p : positive) : Z :=
  match p with xO p => 1 + ctz_pos p | _ => 0 end.
Definition ctzll (x : Z) : Z := match x with Zpos p => ctz_pos p | _ => 64 end.

Section init.
(** Physical placement of the kernel image, set by the boot loader. *)
Context (KERNEL_BASE_PHYS LOADER_RESERVED_SIZE : Z).

Definition kernel_start_idx : Z := Z.shiftr (align_down KERNEL_BASE_PHYS) PAGE_SHIFT.
Definition kernel_end_idx : Z :=
  Z.shiftr (align_up (u64 (KERNEL_BASE_PHYS + LOADER_RESERVED_SIZE))) PAGE_SHIFT.

(** ** The survey *)

(** The running maximum: ceiling, size and base of the largest hole. *)
Record survey_acc := SurveyAcc { a_ceiling : Z; a_size : Z; a_base : Z }.

Definition better_hole (acc : survey_acc) (base size : Z) : survey_acc :=
  if a_size acc <? size then SurveyAcc (a_ceiling acc) size base else acc.

(** One iteration of the loop over the memory map. *)
Definition survey_entry (acc : survey_acc) (e : e820_entry) : survey_acc :=
  if negb (e_type e =? 1) then acc else
  let end0 := u64 (e_base e + e_length e) in
  let acc := if a_ceiling acc <? end0 then SurveyAcc end0 (a_size acc) (a_base acc) else acc in
  let start := align_up (e_base e) in
  let end1 := align_down (u64 (e_base e + e_length e)) in
  let start_idx := Z.shiftr start PAGE_SHIFT in
  let end_idx := Z.shiftr end1 PAGE_SHIFT in
  if end_idx <=? PMM_RESERVED_FRAMES then acc else
  let start_idx := if start_idx <? PMM_RESERVED_FRAMES then PMM_RESERVED_FRAMES else start_idx in
  if (kernel_start_idx <=? start_idx) && (end_idx <=? kernel_end_idx) then acc else
  if MAX_FRAMES <=? start_idx then acc else
  let end_idx := if MAX_FRAMES <? end_idx then MAX_FRAMES else end_idx in
  if end_idx <=? start_idx then acc else
  if (start_idx <? kernel_end_idx) && (kernel_start_idx <? end_idx) then
    let acc := if kernel_start_idx <=? start_idx then acc
               else better_hole acc start_idx (kernel_start_idx - start_idx) in
    if end_idx <=? kernel_end_idx then acc
    else better_hole acc kernel_end_idx (end_idx - kernel_end_idx)
  else better_hole acc start_idx (end_idx - start_idx).

(** The loop, from ceiling [ceiling] ([g_phys_ceiling], 0 at boot); the result
    and the new [g_phys_ceiling]. *)
Definition pmm_mem_survey (ceiling : Z) (map : list e820_entry) : mem_survey * Z :=
  let acc := fold_left survey_entry map (SurveyAcc ceiling 0 PMM_INVALID_FRAME) in
  if a_base acc =? PMM_INVALID_FRAME then (MemSurvey PMM_INVALID_ADDR PMM_INVALID_ADDR, a_ceiling acc)
  else (MemSurvey (u64 (Z.shiftl (a_base acc) PAGE_SHIFT)) (a_ceiling acc), a_ceiling acc).

(** ** Carving a range into blocks *)

Definition calculate_max_order (addr end_ : Z) : Z :=
  let frame_index := Z.shiftr addr PAGE_SHIFT in
  let align_order := if frame_index =? 0 then MAX_ORDER else u8 (ctzll frame_index) in
  let pages := Z.shiftr (u64 (end_ - addr)) PAGE_SHIFT in
  let range_order := if pages =? 0 then 0 else u8 (Z.log2 pages) in
  let current_order := align_order in
  let current_order := if range_order <? current_order then range_order else current_order in
  if MAX_ORDER <? current_order then MAX_ORDER else current_order.

Section populate.
(** The metadata's frames and the number of frames. *)
Context (total meta_start meta_end : Z).

Definition block_overlaps_forbidden (frame_index current_order : Z) : bool :=
  let block_end := u64 (frame_index + order_to_pages current_order) in
  if frame_index <? PMM_RESERVED_FRAMES then true
  else if (frame_index <? PMM_RESERVED_FRAMES) && (PMM_RESERVED_FRAMES <? block_end) then true
  else if (frame_index <? meta_end) && (meta_start <? block_end) then true
  else if (frame_index <? kernel_end_idx) && (kernel_start_idx <? block_end) then true
  else total <? block_end.

(** [while (1) { if (!forbidden) break; if (current_order == 0) break;
    current_order--; }]. *)
Fixpoint reduce_order (n : nat) (frame_index current_order : Z) : Z :=
  match n with
  | O => current_order
  | S n =>
      if negb (block_overlaps_forbidden frame_index current_order) then current_order
      else if current_order =? 0 then current_order
      else reduce_order n frame_index (current_order - 1)
  end.

(** The loop over one range; [n] bounds the number of frames left. *)
Fixpoint populate_range (s : buddy) (n : nat) (current end_ : Z) : option buddy :=
  match n with
  | O => Some s
  | S n =>
      if negb (current <? end_) then Some s else
      let frame_index := Z.shiftr current PAGE_SHIFT in
      if frame_index <? PMM_RESERVED_FRAMES then populate_range s n (u64 (current + PAGE_SIZE)) end_
      else if (meta_start <=? frame_index) && (frame_index <? meta_end) then
        populate_range s n (u64 (current + PAGE_SIZE)) end_
      else if (kernel_start_idx <=? frame_index) && (frame_index <? kernel_end_idx) then
        populate_range s n (u64 (current + PAGE_SIZE)) end_
      else
        let max_order := calculate_max_order current end_ in
        let current_order := reduce_order (S (Z.to_nat max_order)) frame_index max_order in
        if block_overlaps_forbidden frame_index current_order then
          populate_range s n (u64 (current + PAGE_SIZE)) end_
        else
          s ← pmm_buddy_free_locked s current current_order;
          populate_range s n (u64 (current + order_to_bytes current_order)) end_
  end.

(** One iteration of the loop over the memory map. *)
Definition populate_entry (s : buddy) (e : e820_entry) : option buddy :=
  if negb (e_type e =? 1) then Some s else
  let start := align_up (e_base e) in
  let end_ := align_down (u64 (e_base e + e_length e)) in
  let limit := u64 (Z.shiftl total PAGE_SHIFT) in
  if limit <=? start then Some s else
  let end_ := if limit <? end_ then limit else end_ in
  if end_ <=? start then Some s else
  populate_range s (Z.to_nat (Z.shiftr (end_ - start) PAGE_SHIFT)) start end_.

Fixpoint populate (s : buddy) (map : list e820_entry) : option buddy :=
  match map with
  | [] => Some s
  | e :: map => s ← populate_entry s e; populate s map
  end.
End populate.

(** ** Metadata *)

Definition orders : list Z := seqZ 0 (MAX_ORDER + 1).

Definition blocks_of (total o : Z) : Z := Z.shiftr (u64 (u64 (total + order_to_pages o) - 1)) o.
Definition coalesce_bits (total o : Z) : Z := Z.shiftr (u64 (blocks_of total o + 1)) 1.
Definition words_coalesce (total o : Z) : Z := Z.shiftr (u64 (coalesce_bits total o + 63)) 6.

(** Bytes of metadata: bitmaps, then refcounts, pin counts, slab trackers and
    slab heads, one entry per frame each. *)
Definition meta_size_bytes (total : Z) : Z :=
  let bitmaps := fold_left (fun acc o => u64 (acc + bytes_for_bits (coalesce_bits total o))) orders 0 in
  u64 (u64 (u64 (u64 (bitmaps + total * 4) + total * 2) + total * 8) + total * 8).

(** Free frames from the chosen hole to the end of its map entry. *)
Fixpoint hole_size_frames (map : list e820_entry) (hole_start : Z) : Z :=
  match map with
  | [] => 0
  | e :: map =>
      if negb (e_type e =? 1) then hole_size_frames map hole_start else
      let start := align_up (e_base e) in
      let end_ := align_down (u64 (e_base e + e_length e)) in
      if (hole_start <? start) || (end_ <=? hole_start) then hole_size_frames map hole_start
      else Z.shiftr (end_ - hole_start) PAGE_SHIFT
  end.

(** The zeroed metadata and empty lists, over the RAM contents [ram]. *)
Definition boot_state (ceiling total : Z) (ram : gmap Z free_block) : buddy :=
  mkBuddy ceiling total 0
    (list_to_map ((fun o => (o, NULL)) <$> orders))
    (list_to_map (o ← orders; w ← seqZ 0 (words_coalesce total o); [((o, w), 0)]))
    (list_to_map ((fun o => (o, blocks_of total o)) <$> orders))
    (list_to_map ((fun f => (f, 0)) <$> seqZ 0 total))
    (list_to_map ((fun f => (f, 0)) <$> seqZ 0 total))
    ram.

(** [pmm_count_free_pages]: walk every free list; [n] bounds its length. *)
Fixpoint count_list (ov : gmap Z free_block) (n : nat) (b pages count : Z) : option Z :=
  if b =? NULL then Some count else
  match n with
  | O => None
  | S n => blk ← ov !! b; count_list ov n (fb_next blk) pages (u64 (count + pages))
  end.
Fixpoint count_orders (s : buddy) (os : list Z) (count : Z) : option Z :=
  match os with
  | [] => Some count
  | o :: os =>
      b ← free_lists s !! o;
      count ← count_list (overlay s) (Z.to_nat (total_frames s)) b (order_to_pages o) count;
      count_orders s os count
  end.
Definition pmm_count_free_pages (s : buddy) : option buddy :=
  count ← count_orders s orders 0; Some (with_free_pages s count).

(** First half of [pmm_buddy_init_from_map]: the ceiling, the number of frames
    and the metadata's frames [start, end); [None] is an early return, when
    there is no usable hole or the hole is too small for the metadata. *)
Record layout := Layout { l_ceiling : Z; l_total : Z; l_meta_start : Z; l_meta_end : Z }.

Definition place_metadata (map : list e820_entry) : option layout :=
  let '(survey, ceiling) := pmm_mem_survey 0 map in
  if (sv_hole survey =? PMM_INVALID_ADDR) || (sv_ceiling survey =? PMM_INVALID_ADDR) then None else
  let total0 := Z.shiftr (sv_ceiling survey) PAGE_SHIFT in
  let total := if MAX_FRAMES <? total0 then MAX_FRAMES else total0 in
  let meta_frames := Z.shiftr (align_up (meta_size_bytes total)) PAGE_SHIFT in
  if hole_size_frames map (align_up (sv_hole survey)) <? meta_frames then None else
  let meta_start := Z.shiftr (sv_hole survey) PAGE_SHIFT in
  Some (Layout ceiling total meta_start (u64 (meta_start + meta_frames))).

(** [pmm_buddy_init_from_map].  The outer option is a fault, the inner one the
    early return. *)
Definition pmm_buddy_init_from_map (ram : gmap Z free_block) (map : list e820_entry)
    : option (option buddy) :=
  match place_metadata map with
  | None => Some None
  | Some l =>
      s ← populate (l_total l) (l_meta_start l) (l_meta_end l)
            (boot_state (l_ceiling l) (l_total l) ram) map;
      s ← pmm_count_free_pages s;
      Some (Some s)
  end.
End init.
