(* ===== verification/PmmInitSpec.v ===== *)
(** * Boot-time construction: correctness

    For a firmware map whose usable entries do not overlap,
    [pmm_buddy_init_from_map] never faults and hands to the buddy system
    exactly the usable frames outside the reserved area, the metadata and the
    kernel image; the result satisfies the allocator invariant. *)

From S2P Require Import Prelude DList Buddy BuddySpec PmmInit.

(** ** Alignment *)

Lemma not_page_mask : u64 (Z.lnot (PAGE_SIZE - 1)) = 2 ^ 64 - 4096.
Proof. reflexivity. Qed.

Lemma align_down_val a : 0 <= a < 2 ^ 64 -> align_down a = a / 4096 * 4096.
Proof. intros. unfold align_down. rewrite not_page_mask. by apply land_page_mask. Qed.

Lemma align_up_val a : 0 <= a < 2 ^ 63 -> align_up a = (a + 4095) / 4096 * 4096.
Proof.
  intros. unfold align_up. rewrite not_page_mask, PAGE_SIZE_val.
  replace (a + 4096 - 1) with (a + 4095) by lia. rewrite u64_id by lia. apply land_page_mask. lia.
Qed.

Lemma shiftr_page x : Z.shiftr x PAGE_SHIFT = x / 4096.
Proof. rewrite shiftr_div by done. done. Qed.

(** ** Orders *)

Lemma ctz_pos_spec p : 0 <= ctz_pos p /\ Z.pos p mod 2 ^ ctz_pos p = 0.
Proof.
  induction p as [p IH|p [IH1 IH2]|]; cbn [ctz_pos];
    [by rewrite Z.pow_0_r, Z.mod_1_r| |done].
  split; [lia|]. rewrite Z.pow_add_r by lia. change (2 ^ 1) with 2.
  rewrite Pos2Z.inj_xO, Z.mul_mod_distr_l; [lia| |lia]. apply Z.pow_nonzero; lia.
Qed.

Lemma mod_pow2_le f k o : 0 <= o <= k -> f mod 2 ^ k = 0 -> f mod 2 ^ o = 0.
Proof.
  intros Ho Hk. pose proof (pow2_pos o ltac:(lia)). pose proof (pow2_pos k ltac:(lia)).
  apply Z.mod_divide in Hk as [a ->]; [|lia]. apply Z.mod_divide; [lia|].
  exists (a * 2 ^ (k - o)). rewrite <- Z.mul_assoc, <- Z.pow_add_r by lia. do 2 f_equal. lia.
Qed.

Lemma u8_ctz f : 0 < f < MAX_FRAMES -> u8 (ctzll f) = ctzll f /\ 0 <= ctzll f /\ f mod 2 ^ ctzll f = 0.
Proof.
  rewrite MAX_FRAMES_val. intros Hf. destruct f as [|p|p]; [lia| |lia].
  destruct (ctz_pos_spec p) as [H0 Hm]. unfold ctzll. split_and!; [|done..]. apply u8_id.
  split; [done|]. apply Z.mod_divide in Hm as [k Hk]; [|apply Z.pow_nonzero; lia].
  pose proof (pow2_pos (ctz_pos p) H0) as Hpos.
  assert (Hk1 : 1 * 2 ^ ctz_pos p <= k * 2 ^ ctz_pos p) by (apply Z.mul_le_mono_nonneg_r; nia).
  assert (Hlt : 2 ^ ctz_pos p < 2 ^ 24) by lia. apply Z.pow_lt_mono_r_iff in Hlt; lia.
Qed.

Lemma calculate_max_order_spec f e :
  0 < f < e -> e <= MAX_FRAMES ->
  let o := calculate_max_order (f * PAGE_SIZE) (e * PAGE_SIZE) in
  0 <= o <= MAX_ORDER /\ f mod 2 ^ o = 0 /\ f + 2 ^ o <= e.
Proof.
  intros Hf He. unfold calculate_max_order. rewrite frame_of_phys.
  destruct (Z.eqb_spec f 0); [lia|]. destruct (u8_ctz f) as (-> & Hc0 & Hcm); [lia|].
  rewrite MAX_FRAMES_val in *. rewrite PAGE_SIZE_val.
  rewrite (u64_id (e * 4096 - f * 4096)) by lia. rewrite shiftr_page.
  replace (e * 4096 - f * 4096) with ((e - f) * 4096) by lia. rewrite Z.div_mul by lia.
  destruct (Z.eqb_spec (e - f) 0); [lia|].
  pose proof (Z.log2_nonneg (e - f)). pose proof (Z.log2_spec (e - f) ltac:(lia)) as [Hl _].
  assert (Z.log2 (e - f) < 24) by (apply Z.log2_lt_pow2; lia).
  rewrite (u8_id (Z.log2 (e - f))) by lia.
  assert (Hmin : exists o, 0 <= o <= ctzll f /\ o <= Z.log2 (e - f) /\
    (if Z.log2 (e - f) <? ctzll f then Z.log2 (e - f) else ctzll f) = o).
  { eexists. split_and!; [..|reflexivity]; zbool; lia. }
  destruct Hmin as (o & Ho & Hol & ->). unfold MAX_ORDER. destruct (Z.ltb_spec 32 o); [lia|].
  split; [lia|]. split; [by eapply mod_pow2_le|].
  pose proof (Z.pow_le_mono_r 2 o (Z.log2 (e - f)) ltac:(lia) Hol). lia.
Qed.

Section spec.
Context (KERNEL_BASE_PHYS LOADER_RESERVED_SIZE total meta_start meta_end : Z).
Hypothesis Htotal : 0 <= total <= MAX_FRAMES.
Abbreviation kstart := (kernel_start_idx KERNEL_BASE_PHYS).
Abbreviation kend := (kernel_end_idx KERNEL_BASE_PHYS LOADER_RESERVED_SIZE).
Abbreviation overlaps := (block_overlaps_forbidden KERNEL_BASE_PHYS LOADER_RESERVED_SIZE total meta_start meta_end).

(** A frame the allocator must not hand out. *)
Definition forbidden (x : Z) : Prop :=
  x < PMM_RESERVED_FRAMES \/ meta_start <= x < meta_end \/ kstart <= x < kend \/ total <= x.

Lemma order_to_pages_val o : 0 <= o <= MAX_ORDER -> order_to_pages o = 2 ^ o.
Proof.
  unfold MAX_ORDER. intros. unfold order_to_pages. rewrite Z.shiftl_1_l. apply u64_id.
  pose proof (pow2_pos o ltac:(lia)). pose proof (Z.pow_le_mono_r 2 o 32 ltac:(lia)). lia.
Qed.

Lemma overlaps_false f o :
  0 <= f < MAX_FRAMES -> 0 <= o <= MAX_ORDER -> overlaps f o = false ->
  f + 2 ^ o <= total /\ forall x, f <= x < f + 2 ^ o -> ~ forbidden x.
Proof.
  intros Hf Ho. unfold block_overlaps_forbidden. rewrite order_to_pages_val by done.
  rewrite MAX_FRAMES_val in *. unfold MAX_ORDER in *. pose proof (pow2_pos o ltac:(lia)).
  pose proof (Z.pow_le_mono_r 2 o 32 ltac:(lia)). rewrite u64_id by lia.
  zbool; simpl; try done; intros _; (split; [done|]); intros x Hx Hfb; unfold forbidden in Hfb; lia.
Qed.

(** A single frame that is forbidden is reported, and conversely. *)
Lemma overlaps_single f :
  0 <= f < MAX_FRAMES -> overlaps f 0 = true -> forbidden f.
Proof.
  intros Hf. unfold block_overlaps_forbidden. rewrite order_to_pages_val by done.
  change (2 ^ 0) with 1. rewrite MAX_FRAMES_val in *. rewrite u64_id by lia. unfold forbidden.
  zbool; simpl; try done; intros _; lia.
Qed.

Lemma reduce_order_spec n : forall f o,
  0 <= o -> n = S (Z.to_nat o) ->
  let r := reduce_order KERNEL_BASE_PHYS LOADER_RESERVED_SIZE total meta_start meta_end n f o in
  0 <= r <= o /\ (overlaps f r = true -> r = 0).
Proof.
  induction n as [|n IH]; intros f o Ho Hn; [lia|]. cbn [reduce_order].
  destruct (overlaps f o) eqn:E; simpl; [|split; [lia|congruence]].
  destruct (Z.eqb_spec o 0) as [->|]; [split; [lia|done]|].
  destruct (IH f (o - 1)) as [? ?]; [lia|lia|]. split; [lia|done].
Qed.

(** ** Populating the free lists *)

Abbreviation range := (populate_range KERNEL_BASE_PHYS LOADER_RESERVED_SIZE total meta_start meta_end).

(** [s'] is [s] with the frames of [P] added to the free ones. *)
Definition populated (s : buddy) (F : Z -> list Z) (P : Z -> Prop) (s' : buddy) (F' : Z -> list Z) : Prop :=
  buddy_inv s' F' /\ total_frames s' = total_frames s /\
  forall x, free_frame F' x <-> free_frame F x \/ P x.

Lemma populated_nothing s F (P : Z -> Prop) :
  buddy_inv s F -> (forall x, ~ P x) -> populated s F P s F.
Proof. intros Hi HP. split; [done|]. split; [done|]. intros x. specialize (HP x). tauto. Qed.

Lemma populated_trans s0 F0 P1 s1 F1 P2 s2 F2 P :
  populated s0 F0 P1 s1 F1 -> populated s1 F1 P2 s2 F2 ->
  (forall x, P x <-> P1 x \/ P2 x) -> populated s0 F0 P s2 F2.
Proof.
  intros (_ & Ht1 & H1) (Hi & Ht2 & H2) HP. split; [done|]. split; [congruence|].
  intros x. rewrite H2, H1, HP. tauto.
Qed.

Lemma populate_step_free s F f o :
  buddy_inv s F -> total_frames s = total -> 0 <= f < MAX_FRAMES -> 0 <= o <= MAX_ORDER ->
  f mod 2 ^ o = 0 -> overlaps f o = false -> (forall x, f <= x < f + 2 ^ o -> ~ free_frame F x) ->
  exists s' F', pmm_buddy_free_locked s (f * PAGE_SIZE) o = Some s' /\
    populated s F (fun x => f <= x < f + 2 ^ o) s' F'.
Proof.
  intros Hi Ht Hf Ho Hm Hov Hfree. destruct (overlaps_false f o Hf Ho Hov) as [Hend _].
  destruct (free_locked_spec s F o f) as (s' & F' & Hrun & Hi' & Hff & _ & Ht' & _); [done| |done|].
  { repeat split; lia || done. }
  exists s', F'. split; [done|]. by split.
Qed.

(** The frames [c, e) that are not forbidden become free, whatever the way
    they are carved into blocks; [n] iterations are enough. *)
Lemma populate_range_spec n : forall s F c e,
  buddy_inv s F -> total_frames s = total -> 0 <= c -> e <= total -> e - c <= Z.of_nat n ->
  (forall x, c <= x < e -> ~ free_frame F x) ->
  exists s' F', range s n (c * PAGE_SIZE) (e * PAGE_SIZE) = Some s' /\
    populated s F (fun x => c <= x < e /\ ~ forbidden x) s' F'.
Proof.
  induction n as [|n IH]; intros s F c e Hi Ht Hc He Hn Hfree.
  { exists s, F. split; [done|]. apply populated_nothing; [done|]. lia. }
  cbn [populate_range]. rewrite PAGE_SIZE_val.
  destruct (Z.ltb_spec (c * 4096) (e * 4096)) as [Hlt|]; cbn [negb].
  2: { exists s, F. split; [done|]. apply populated_nothing; [done|]. lia. }
  rewrite <- PAGE_SIZE_val, frame_of_phys. pose proof MAX_FRAMES_val.
  (* skipping one forbidden frame *)
  assert (Hskip : forbidden c -> exists s' F',
    range s n (u64 (c * PAGE_SIZE + PAGE_SIZE)) (e * PAGE_SIZE) = Some s' /\
    populated s F (fun x => c <= x < e /\ ~ forbidden x) s' F').
  { intros Hforb. rewrite u64_id by (rewrite PAGE_SIZE_val; lia).
    replace (c * PAGE_SIZE + PAGE_SIZE) with ((c + 1) * PAGE_SIZE) by lia.
    destruct (IH s F (c + 1) e) as (s' & F' & Hrun & Hp); [done|done|lia|lia|lia| |].
    { intros x Hx. apply Hfree. lia. }
    exists s', F'. split; [done|]. destruct Hp as (Hi' & Ht' & Hp). split; [done|]. split; [done|].
    intros x. rewrite Hp. destruct (Z.eq_dec x c) as [->|]; [|intuition lia].
    split; [intros [?|[? ?]]; [by left|lia]|intros [?|[_ ?]]; [by left|done]]. }
  destruct (Z.ltb_spec c PMM_RESERVED_FRAMES); [apply Hskip; by left|].
  destruct ((meta_start <=? c) && (c <? meta_end)) eqn:E1.
  { apply Hskip. right. left. lia. }
  destruct ((kstart <=? c) && (c <? kend)) eqn:E2.
  { apply Hskip. right. right. left. lia. }
  assert (0 < PMM_RESERVED_FRAMES) by done.
  destruct (calculate_max_order_spec c e) as (Hmo & Hal & Hfit); [lia|lia|].
  destruct (reduce_order_spec (S (Z.to_nat (calculate_max_order (c * PAGE_SIZE) (e * PAGE_SIZE))))
    c (calculate_max_order (c * PAGE_SIZE) (e * PAGE_SIZE))) as [Hr Hr0]; [lia|done|].
  set (mo := calculate_max_order _ _) in *. set (o := reduce_order _ _ _ _ _ _ _ _) in *.
  destruct (overlaps c o) eqn:Eo.
  { rewrite Hr0 in Eo by done. apply Hskip, overlaps_single; [lia|done]. }
  pose proof (mod_pow2_le c mo o ltac:(lia) Hal) as Hal'.
  pose proof (Z.pow_le_mono_r 2 o mo ltac:(lia) ltac:(lia)). pose proof (pow2_pos o ltac:(lia)).
  destruct (populate_step_free s F c o) as (s1 & F1 & -> & Hp1); [done|done|lia|lia|done|done| |].
  { intros x Hx. apply Hfree. lia. }
  simpl. replace (u64 (c * PAGE_SIZE + order_to_bytes o)) with ((c + 2 ^ o) * PAGE_SIZE).
  2: { unfold order_to_bytes. rewrite Z.shiftl_mul_pow2 by lia. rewrite PAGE_SIZE_val.
       rewrite (u64_id (4096 * 2 ^ o)) by lia. rewrite u64_id; lia. }
  destruct (overlaps_false c o) as [_ Hnf]; [lia|lia|done|].
  destruct (IH s1 F1 (c + 2 ^ o) e) as (s2 & F2 & Hrun & Hp2); [apply Hp1| |lia|lia|lia| |].
  { destruct Hp1 as (_ & -> & _). done. }
  { intros x Hx. destruct Hp1 as (_ & _ & ->). intros [Hff|?]; [|lia]. apply (Hfree x); [lia|done]. }
  exists s2, F2. split; [done|]. eapply populated_trans; [done..|]. intros x; simpl.
  specialize (Hnf x). destruct (decide (c <= x < c + 2 ^ o)); intuition lia.
Qed.

(** ** The firmware map *)

Definition e820_ok (e : e820_entry) : Prop :=
  0 <= e_base e /\ 0 <= e_length e /\ e_base e + e_length e < 2 ^ 47.

(** Frame [x] lies entirely in the usable entry [e]. *)
Definition in_entry (e : e820_entry) (x : Z) : Prop :=
  e_type e = 1 /\ e_base e <= x * PAGE_SIZE /\ (x + 1) * PAGE_SIZE <= e_base e + e_length e.

Lemma entry_frames e : e820_ok e -> e_type e = 1 ->
  exists c d, align_up (e_base e) = c * PAGE_SIZE /\
    align_down (u64 (e_base e + e_length e)) = d * PAGE_SIZE /\ 0 <= c /\ 0 <= d < 2 ^ 35 /\
    forall x, in_entry e x <-> c <= x < d.
Proof.
  intros (Hb & Hl & Hs) Ht. unfold in_entry. rewrite PAGE_SIZE_val.
  rewrite align_up_val, u64_id, align_down_val by lia. eexists _, _. do 2 (split; [reflexivity|]).
  split; [mlia|]. split; [mlia|]. intros x. split; [intros (_ & ? & ?); mlia|intros; split; [done|mlia]].
Qed.

Lemma populate_entry_spec s F e :
  buddy_inv s F -> total_frames s = total -> e820_ok e ->
  (forall x, in_entry e x -> ~ free_frame F x) ->
  exists s' F',
    populate_entry KERNEL_BASE_PHYS LOADER_RESERVED_SIZE total meta_start meta_end s e = Some s' /\
    populated s F (fun x => in_entry e x /\ ~ forbidden x) s' F'.
Proof.
  intros Hi Ht He Hfree. unfold populate_entry.
  destruct (Z.eqb_spec (e_type e) 1) as [Hty|Hty]; cbn [negb].
  2: { exists s, F. split; [done|]. apply populated_nothing; [done|]. intros x [[? _] _]. done. }
  destruct (entry_frames e He Hty) as (c & d & -> & -> & Hc & Hd & Hin).
  pose proof MAX_FRAMES_val. rewrite shiftl_mul by done. change (2 ^ PAGE_SHIFT) with PAGE_SIZE.
  rewrite (u64_id (total * PAGE_SIZE)) by (rewrite PAGE_SIZE_val; lia). rewrite PAGE_SIZE_val.
  set (e' := Z.min d total).
  assert (Hwin : forall x, in_entry e x /\ ~ forbidden x <-> c <= x < e' /\ ~ forbidden x).
  { intros x. rewrite Hin. unfold forbidden, e'. intuition lia. }
  assert (Hnone : e' <= c -> exists s' F', Some s = Some s' /\
    populated s F (fun x => in_entry e x /\ ~ forbidden x) s' F').
  { intros Hle. exists s, F. split; [done|]. apply populated_nothing; [done|].
    intros x Hx%Hwin. lia. }
  destruct (Z.leb_spec (total * 4096) (c * 4096)); [apply Hnone; lia|].
  replace (if total * 4096 <? d * 4096 then total * 4096 else d * 4096) with (e' * 4096) by (zbool; lia).
  destruct (Z.leb_spec (e' * 4096) (c * 4096)); [apply Hnone; lia|].
  rewrite shiftr_page. replace (e' * 4096 - c * 4096) with ((e' - c) * 4096) by lia.
  rewrite Z.div_mul by lia.
  destruct (populate_range_spec (Z.to_nat (e' - c)) s F c e') as (s' & F' & Hrun & Hp);
    [done|done|done|lia|lia| |].
  { intros x Hx. apply Hfree, Hin. lia. }
  exists s', F'. split; [done|]. destruct Hp as (? & ? & Hp). split; [done|]. split; [done|].
  intros x. by rewrite Hp, Hwin.
Qed.

(** The map's usable entries share no frame. *)
Definition disjoint_entries (e e' : e820_entry) : Prop := forall x, in_entry e x -> ~ in_entry e' x.
Definition usable (map : list e820_entry) (x : Z) : Prop := exists e, e ∈ map /\ in_entry e x.

Lemma populate_spec map : forall s F,
  buddy_inv s F -> total_frames s = total -> Forall e820_ok map ->
  ForallOrdPairs disjoint_entries map -> (forall x, usable map x -> ~ free_frame F x) ->
  exists s' F',
    populate KERNEL_BASE_PHYS LOADER_RESERVED_SIZE total meta_start meta_end s map = Some s' /\
    populated s F (fun x => usable map x /\ ~ forbidden x) s' F'.
Proof.
  induction map as [|e map IH]; intros s F Hi Ht Hok Hdj Hfree; cbn [populate].
  { exists s, F. split; [done|]. apply populated_nothing; [done|]. intros x [(e & He & _) _]. by apply not_elem_of_nil in He. }
  inversion Hok as [|? ? He Hok']; inversion Hdj as [|? ? Hd Hdj']; subst.
  destruct (populate_entry_spec s F e) as (s1 & F1 & -> & Hp1); [done|done|done| |].
  { intros x Hx. apply Hfree. exists e. split; [set_solver|done]. }
  cbn [mbind option_bind]. destruct (IH s1 F1) as (s2 & F2 & -> & Hp2); [apply Hp1| |done|done| |].
  { destruct Hp1 as (_ & -> & _). done. }
  { intros x (e' & He' & Hx). destruct Hp1 as (_ & _ & ->). intros [Hff|[Hx' _]].
    - apply (Hfree x); [|done]. exists e'. split; [set_solver|done].
    - rewrite List.Forall_forall in Hd. apply (Hd e') in Hx'; [done|by apply list_elem_of_In]. }
  exists s2, F2. split; [done|]. eapply populated_trans; [done..|]. intros x; simpl.
  unfold usable. split.
  - intros [(e' & [->|He']%elem_of_cons & Hx) Hn]; [by left|right; eauto].
  - intros [[Hx Hn]|[(e' & He' & Hx) Hn]]; (split; [|done]); [exists e|exists e']; set_solver.
Qed.
End spec.

(** ** The boot state *)

Lemma blocks_of_val total o : 0 <= total <= MAX_FRAMES -> 0 <= o <= MAX_ORDER ->
  blocks_of total o = n_blocks total o.
Proof.
  intros Ht Ho. unfold blocks_of, n_blocks. rewrite order_to_pages_val by done.
  rewrite MAX_FRAMES_val in Ht. unfold MAX_ORDER in Ho. pose proof (pow2_pos o ltac:(lia)).
  pose proof (Z.pow_le_mono_r 2 o 32 ltac:(lia) ltac:(lia)).
  rewrite (u64_id (total + 2 ^ o)) by lia. rewrite u64_id by lia. by rewrite shiftr_div by lia.
Qed.

Lemma n_blocks_bound total o : 0 <= total -> 0 <= o -> 0 <= n_blocks total o <= total.
Proof.
  intros Ht Ho. pose proof (pow2_pos o Ho). unfold n_blocks. split; [apply Z.div_pos; lia|].
  destruct (Z.eq_dec total 0) as [->|]; [rewrite Z.div_small; lia|].
  apply Z.lt_succ_r, Z.div_lt_upper_bound; [done|]. nia.
Qed.

Lemma words_coalesce_val total o : 0 <= total <= MAX_FRAMES -> 0 <= o <= MAX_ORDER ->
  words_coalesce total o = n_words total o.
Proof.
  intros Ht Ho. unfold words_coalesce, coalesce_bits, n_words. rewrite blocks_of_val by done.
  pose proof (n_blocks_bound total o ltac:(lia) ltac:(lia)). rewrite MAX_FRAMES_val in Ht.
  rewrite (u64_id (n_blocks total o + 1)) by lia. rewrite !shiftr_div by lia.
  change (2 ^ 1) with 2. change (2 ^ 6) with 64. rewrite u64_id; [done|mlia].
Qed.

Lemma orders_eq : orders = all_orders.
Proof. reflexivity. Qed.

Lemma boot_coalesce total o w :
  0 <= o <= MAX_ORDER -> 0 <= w < words_coalesce total o ->
  (list_to_map (o ← orders; w ← seqZ 0 (words_coalesce total o); [((o, w), 0)]) : gmap (Z * Z) Z)
    !! (o, w) = Some 0.
Proof.
  intros Ho Hw. apply elem_of_list_to_map_1'.
  - intros y (o' & (w' & Hy & _)%list_elem_of_bind & _)%list_elem_of_bind.
    apply list_elem_of_singleton in Hy. congruence.
  - apply list_elem_of_bind. exists o. rewrite orders_eq, elem_of_all_orders. split; [|done].
    apply list_elem_of_bind. exists w. rewrite elem_of_seqZ. split; [set_solver|lia].
Qed.

Lemma boot_core ceiling total ram :
  0 <= total <= MAX_FRAMES -> total * PAGE_SIZE <= ceiling < 2 ^ 47 ->
  (forall f, 0 <= f < total -> is_Some (ram !! vaddr f)) ->
  core (boot_state ceiling total ram) (fun _ => []).
Proof.
  intros Ht Hc Hram. constructor; cbn [boot_state total_frames phys_ceiling overlay refcount
    buddy_blocks coalesce free_lists]; try done.
  - intros f Hf. rewrite (list_to_map_fun (fun _ => 0)); [by eexists|]. apply elem_of_seqZ. lia.
  - intros o Ho. rewrite (list_to_map_fun (blocks_of total)) by by rewrite orders_eq, elem_of_all_orders.
    by rewrite blocks_of_val.
  - intros o w Ho Hw. rewrite boot_coalesce; [by eexists|done|]. by rewrite words_coalesce_val.
  - intros o Ho. exists NULL.
    rewrite (list_to_map_fun (fun _ => NULL)) by by rewrite orders_eq, elem_of_all_orders.
    split; [done|]. split; [done|constructor].
  - intros o f Ho Hf. by apply not_elem_of_nil in Hf.
  - intros o f o' f' _ _ Hf. by apply not_elem_of_nil in Hf.
  - intros o f x _ Hf. by apply not_elem_of_nil in Hf.
Qed.

Lemma boot_inv ceiling total ram :
  0 <= total <= MAX_FRAMES -> total * PAGE_SIZE <= ceiling < 2 ^ 47 ->
  (forall f, 0 <= f < total -> is_Some (ram !! vaddr f)) ->
  buddy_inv (boot_state ceiling total ram) (fun _ => []).
Proof.
  intros Ht Hc Hram. split; [by apply boot_core|]. split.
  - intros o p Ho Hp. cbn [boot_state total_frames coalesce] in *. unfold bit_at, mem.
    apply pair_word_bound in Hp. rewrite boot_coalesce; [|lia|].
    + rewrite Z.bits_0. done.
    + rewrite words_coalesce_val; [done|done|lia].
  - intros o b _ Hb. by apply not_elem_of_nil in Hb.
Qed.

Lemma boot_no_free x : ~ free_frame (fun _ => []) x.
Proof. intros (o & f & _ & Hf & _). by apply not_elem_of_nil in Hf. Qed.

(** ** Counting *)

Lemma count_list_spec (ov : gmap Z free_block) pages l : forall n p b count,
  0 <= count < 2 ^ 64 -> seg ov p l b NULL -> (length l <= n)%nat ->
  count_list ov n b pages count = Some (u64 (count + Z.of_nat (length l) * pages)).
Proof.
  induction l as [|a l IH]; intros n p b count Hc Hseg Hn.
  { simpl in Hseg. subst b. change (Z.of_nat (length [])) with 0.
    rewrite Z.mul_0_l, Z.add_0_r, u64_id by lia. by destruct n. }
  destruct Hseg as (-> & Hnn & blk & Hblk & _ & Hseg). destruct n as [|n]; simpl in Hn; [lia|].
  cbn [count_list]. destruct (Z.eqb_spec a NULL); [done|]. rewrite Hblk. cbn [mbind option_bind].
  rewrite (IH n a); [|apply Z.mod_pos_bound; lia|done|lia]. f_equal.
  unfold u64. rewrite Zplus_mod_idemp_l. f_equal. cbn [length]. lia.
Qed.

Lemma length_block_frames F o :
  0 <= o -> Z.of_nat (length (block_frames F o)) = Z.of_nat (length (F o)) * 2 ^ o.
Proof.
  intros Ho. pose proof (pow2_pos o Ho). unfold block_frames.
  induction (F o) as [|f l IH]; [done|]. change ((f :: l) ≫= ?g) with (g f ++ (l ≫= g)).
  rewrite length_app, length_seqZ, Nat2Z.inj_add, IH. cbn [length]. lia.
Qed.

Lemma count_orders_spec s F os : forall count,
  core s F -> (forall o, o ∈ os -> 0 <= o <= MAX_ORDER) -> 0 <= count < 2 ^ 64 ->
  count_orders s os count
  = Some (u64 (count + Z.of_nat (length (o ← os; block_frames F o)))).
Proof.
  induction os as [|o os IH]; intros count C Hos Hc; cbn [count_orders].
  { simpl. rewrite Z.add_0_r, u64_id; [done|lia]. }
  assert (Ho : 0 <= o <= MAX_ORDER) by (apply Hos; set_solver).
  destruct (c_lists _ _ C o Ho) as (hd & -> & Hseg & _). cbn [mbind option_bind].
  rewrite (count_list_spec _ _ (vaddr <$> F o) _ NULL); [|done|done|].
  2: { rewrite length_fmap. pose proof (free_list_length s F o C Ho). lia. }
  cbn [mbind option_bind]. rewrite IH; [|done|set_solver|apply Z.mod_pos_bound; lia]. f_equal.
  unfold u64. rewrite Zplus_mod_idemp_l. f_equal.
  rewrite bind_cons, length_fmap, order_to_pages_val, length_app, Nat2Z.inj_add, length_block_frames by lia. lia.
Qed.

Lemma count_free_pages_spec s F : buddy_inv s F ->
  exists s', pmm_count_free_pages s = Some s' /\ buddy_inv s' F /\ counted s' F /\
    total_frames s' = total_frames s.
Proof.
  intros Hi. pose proof Hi as (C & _). unfold pmm_count_free_pages.
  rewrite (count_orders_spec s F); [|done| |lia].
  2: { intros o. by rewrite orders_eq, elem_of_all_orders. }
  cbn [mbind option_bind]. eexists. split; [done|]. split; [by apply inv_free_pages|].
  split; [|done]. unfold counted. cbn [free_pages with_free_pages]. rewrite Z.add_0_l.
  pose proof (free_frames_bound s F C). destruct (c_total _ _ C) as [_ HM]. rewrite MAX_FRAMES_val in HM.
  apply u64_id. fold (free_frames F). lia.
Qed.

(** ** Initialisation *)

(** The end of the highest usable entry. *)
Definition top (map : list e820_entry) : Z :=
  foldr (fun e acc => if e_type e =? 1 then Z.max (e_base e + e_length e) acc else acc) 0 map.

Section init_spec.
Context (KERNEL_BASE_PHYS LOADER_RESERVED_SIZE : Z).
Abbreviation survey_step := (survey_entry KERNEL_BASE_PHYS LOADER_RESERVED_SIZE).
Abbreviation kend := (kernel_end_idx KERNEL_BASE_PHYS LOADER_RESERVED_SIZE).

Lemma top_nonneg map : 0 <= top map.
Proof. induction map as [|e map IH]; simpl; [done|]. case_match; lia. Qed.

Lemma top_bound map : Forall e820_ok map -> top map < 2 ^ 47.
Proof.
  induction 1 as [|e map (H1 & H2 & H3) _ IH]; cbn [top foldr]; [lia|]. fold (top map).
  case_match; lia.
Qed.

Lemma usable_below_top map x : usable map x -> (x + 1) * PAGE_SIZE <= top map.
Proof.
  intros (e & He & Hty & _ & Hx). induction map as [|e' map IH]; [by apply not_elem_of_nil in He|].
  cbn [top foldr]. fold (top map). apply elem_of_cons in He as [<-|He].
  - rewrite Hty. simpl. lia.
  - apply IH in He. case_match; lia.
Qed.

(** The running maximum of the survey. *)
Definition base_ok (acc : survey_acc) : Prop :=
  a_base acc = PMM_INVALID_FRAME \/ 0 <= a_base acc < MAX_FRAMES.

Lemma survey_entry_spec acc e :
  e820_ok e -> base_ok acc ->
  a_ceiling (survey_step acc e)
    = (if e_type e =? 1 then Z.max (e_base e + e_length e) (a_ceiling acc) else a_ceiling acc) /\
  base_ok (survey_step acc e).
Proof.
  intros (Hb & Hl & Hs) Hok. unfold survey_entry. destruct (e_type e =? 1) eqn:Hty; [|done].
  cbn [negb]. rewrite (u64_id (e_base e + e_length e)) by lia.
  set (acc1 := if a_ceiling acc <? _ then _ else acc).
  assert (H1 : a_ceiling acc1 = Z.max (e_base e + e_length e) (a_ceiling acc) /\ base_ok acc1)
    by (unfold acc1; zbool; simpl; split; (done || lia)).
  assert (Hbh : forall acc' b n, a_ceiling acc' = Z.max (e_base e + e_length e) (a_ceiling acc) /\ base_ok acc' ->
    0 <= b < MAX_FRAMES ->
    a_ceiling (better_hole acc' b n) = Z.max (e_base e + e_length e) (a_ceiling acc) /\
    base_ok (better_hole acc' b n)).
  { intros acc' b n [? ?] Hbn. unfold better_hole. case_match; (split; [done|]); [by right|done]. }
  assert (0 <= kend) by (apply Z.shiftr_nonneg, Z.land_nonneg; left; apply Z.mod_pos_bound; lia).
  set (si := if Z.shiftr (align_up (e_base e)) PAGE_SHIFT <? PMM_RESERVED_FRAMES then _ else _).
  assert (0 <= si).
  { unfold si. assert (0 < PMM_RESERVED_FRAMES) by done. zbool; lia. }
  clearbody acc1 si.
  repeat (case_match; try done); repeat apply Hbh; (done || (zbool; try lia)).
Qed.

Lemma survey_spec map : forall acc,
  Forall e820_ok map -> base_ok acc -> 0 <= a_ceiling acc ->
  a_ceiling (fold_left survey_step map acc) = Z.max (a_ceiling acc) (top map) /\
  base_ok (fold_left survey_step map acc).
Proof.
  induction map as [|e map IH]; intros acc Hok Hb Hc; cbn [fold_left top foldr]; [split; [lia|done]|].
  inversion Hok as [|? ? He Hok']; subst. destruct (survey_entry_spec acc e He Hb) as [H1 H2].
  fold (top map). destruct (IH (survey_step acc e)) as [-> ?]; [done|done| |].
  - rewrite H1. case_match; lia.
  - split; [|done]. rewrite H1. case_match; lia.
Qed.

(** The metadata lies in usable memory. *)
Lemma hole_size_usable map hs n :
  Forall e820_ok map -> 0 < n -> n <= hole_size_frames map (hs * PAGE_SIZE) ->
  hs + n < 2 ^ 35 /\ forall x, hs <= x < hs + n -> usable map x.
Proof.
  intros Hok Hn. induction Hok as [|e map He Hok IH]; cbn [hole_size_frames]; [lia|].
  assert (Hrec : n <= hole_size_frames map (hs * PAGE_SIZE) ->
    hs + n < 2 ^ 35 /\ forall x, hs <= x < hs + n -> usable (e :: map) x).
  { intros [? Hu]%IH. split; [done|]. intros x (e' & ? & ?)%Hu. exists e'. set_solver. }
  destruct (Z.eqb_spec (e_type e) 1) as [Hty|]; cbn [negb]; [|done].
  destruct (entry_frames e He Hty) as (c & d & -> & -> & Hc & Hd & Hin). rewrite PAGE_SIZE_val in *.
  destruct ((hs * 4096 <? c * 4096) || (d * 4096 <=? hs * 4096)) eqn:E; [done|].
  rewrite shiftr_page. replace (d * 4096 - hs * 4096) with ((d - hs) * 4096) by lia.
  rewrite Z.div_mul by lia. intros Hle. split; [lia|]. intros x Hx.
  exists e. split; [set_solver|]. apply Hin. lia.
Qed.

Lemma align_up_page c : 0 <= c < 2 ^ 35 -> align_up (c * PAGE_SIZE) = c * PAGE_SIZE.
Proof. intros. rewrite PAGE_SIZE_val, align_up_val by lia. f_equal. mlia. Qed.

Lemma place_metadata_spec map l :
  Forall e820_ok map -> place_metadata KERNEL_BASE_PHYS LOADER_RESERVED_SIZE map = Some l ->
  l_ceiling l = top map /\ l_total l = Z.min (top map / PAGE_SIZE) MAX_FRAMES /\
  forall x, l_meta_start l <= x < l_meta_end l -> usable map x.
Proof.
  intros Hok. unfold place_metadata, pmm_mem_survey.
  destruct (survey_spec map (SurveyAcc 0 0 PMM_INVALID_FRAME) Hok) as [Hc Hb]; [by left|done|].
  set (acc := fold_left _ _ _) in *. cbn [a_ceiling] in Hc.
  pose proof (top_nonneg map). rewrite Z.max_r in Hc by lia. rewrite Hc.
  destruct (Z.eqb_spec (a_base acc) PMM_INVALID_FRAME) as [|Hne]; [done|].
  destruct Hb as [|Hb]; [done|]. cbn [sv_hole sv_ceiling]. case_match; [done|].
  rewrite MAX_FRAMES_val in Hb. rewrite shiftl_mul by done. change (2 ^ PAGE_SHIFT) with PAGE_SIZE.
  rewrite u64_id by (rewrite PAGE_SIZE_val; lia). rewrite align_up_page, frame_of_phys by lia.
  rewrite (shiftr_page (top map)). set (total := if MAX_FRAMES <? _ then _ else _).
  assert (Ht : total = Z.min (top map / 4096) MAX_FRAMES) by (unfold total; zbool; lia).
  set (mf := Z.shiftr _ _). destruct (Z.ltb_spec (hole_size_frames map (a_base acc * PAGE_SIZE)) mf) as [|Hfit];
    [done|]. intros [= <-]. cbn [l_ceiling l_total l_meta_start l_meta_end]. split; [done|]. split; [done|].
  assert (Hmf : 0 <= mf).
  { apply Z.shiftr_nonneg, Z.land_nonneg. left. apply Z.mod_pos_bound. lia. }
  destruct (Z.eq_dec mf 0) as [->|]; [rewrite u64_id; lia|].
  destruct (hole_size_usable map (a_base acc) mf) as [Hlt Hu]; [done|lia|done|].
  rewrite u64_id by lia. done.
Qed.

(** What the boot code establishes: the invariant, the accounting, and the
    exact set of free frames. *)
Definition boot_ok (map : list e820_entry) (s : buddy) : Prop :=
  exists meta_start meta_end F, buddy_inv s F /\ counted s F /\
    (forall x, meta_start <= x < meta_end -> usable map x) /\
    forall x, free_frame F x <-> usable map x /\
      ~ forbidden KERNEL_BASE_PHYS LOADER_RESERVED_SIZE (total_frames s) meta_start meta_end x.

Lemma init_spec ram map :
  Forall e820_ok map -> ForallOrdPairs disjoint_entries map ->
  (forall f, 0 <= f < MAX_FRAMES -> (f + 1) * PAGE_SIZE <= top map -> is_Some (ram !! vaddr f)) ->
  exists r, pmm_buddy_init_from_map KERNEL_BASE_PHYS LOADER_RESERVED_SIZE ram map = Some r /\
    (r = None <-> place_metadata KERNEL_BASE_PHYS LOADER_RESERVED_SIZE map = None) /\
    forall s, r = Some s -> boot_ok map s.
Proof.
  intros Hok Hdj Hram. unfold pmm_buddy_init_from_map.
  destruct (place_metadata _ _ _) as [l|] eqn:El; [|by exists None].
  destruct (place_metadata_spec map l Hok El) as (-> & Ht & Hmeta).
  pose proof (top_nonneg map). pose proof (top_bound map Hok). pose proof MAX_FRAMES_val.
  rewrite PAGE_SIZE_val in *. assert (Htot : 0 <= l_total l <= MAX_FRAMES /\ l_total l * 4096 <= top map)
    by (rewrite Ht; mlia).
  destruct (populate_spec KERNEL_BASE_PHYS LOADER_RESERVED_SIZE (l_total l) (l_meta_start l) (l_meta_end l)
    ltac:(lia) map (boot_state (top map) (l_total l) ram) (fun _ => [])) as (s1 & F1 & -> & Hp);
    [|done|done|done|intros; apply boot_no_free|].
  { apply boot_inv; [lia|rewrite PAGE_SIZE_val; lia|]. intros f Hf. apply Hram; lia. }
  cbn [mbind option_bind]. destruct Hp as (Hi & Htf & Hff).
  destruct (count_free_pages_spec s1 F1 Hi) as (s2 & -> & Hi2 & Hct & Ht2). cbn [mbind option_bind].
  eexists. split; [done|]. split; [done|]. intros s [= <-].
  exists (l_meta_start l), (l_meta_end l), F1. do 3 (split; [done|]). intros x.
  rewrite Hff, Ht2, Htf. pose proof (boot_no_free x). cbn [boot_state total_frames]. tauto.
Qed.
End init_spec.
