(* ===== verification/BuddyTrace.v ===== *)
(** * The buddy allocator: sequences of calls

    The step relation of clients that take blocks and return the blocks they
    hold, and its invariant [divided]: the frames of a set [U] are divided
    exactly between the free blocks and the blocks handed out. *)

From S2P Require Import Prelude DList Buddy BuddySpec PmmInit PmmInitSpec.

(** ** Sequences of calls *)

Lemma free_for_pcp_spec s F order f :
  buddy_inv s F -> counted s F -> block_ok (total_frames s) order f ->
  (forall x, f <= x < f + 2 ^ order -> ~ free_frame F x) ->
  exists s' F', pmm_buddy_free_locked_for_pcp s (f * PAGE_SIZE) order = Some s' /\
    buddy_inv s' F' /\ counted s' F' /\
    (forall x, free_frame F' x <-> free_frame F x \/ f <= x < f + 2 ^ order) /\
    (forall x, refcount s' !! x = if decide (f <= x < f + 2 ^ order) then Some 0 else refcount s !! x) /\
    total_frames s' = total_frames s.
Proof.
  intros Hi Hc Hb Hn. pose proof Hb as (Ho & _ & _ & _).
  destruct (free_locked_spec s F order f Hi Hb Hn) as (s' & F' & Hrun & Hi' & Hff & Hrc & Ht & Hp).
  unfold pmm_buddy_free_locked_for_pcp. rewrite Hrun. cbn [mbind option_bind].
  eexists _, F'. split; [done|]. split; [by apply inv_free_pages|]. split; [|done].
  rewrite order_to_pages_val by done. pose proof (pow2_pos order ltac:(lia)).
  assert (Hd : Z.of_nat (length (free_frames F')) = Z.of_nat (length (free_frames F)) + 2 ^ order).
  { apply (free_frames_diff s' F' s F f); [done..|lia| |].
    - intros x. rewrite Hff. specialize (Hn x). tauto.
    - intros x Hx. rewrite Hff. by right. }
  pose proof (free_frames_bound s' F' (proj1 Hi')). destruct (c_total _ _ (proj1 Hi')) as [_ HM].
  rewrite MAX_FRAMES_val in HM. unfold counted in *. cbn [free_pages with_free_pages].
  rewrite Hp, Hc, Hd. apply u64_id. lia.
Qed.

(** Blocks handed out and not yet returned, as (first frame, order), and
    their frames. *)
Definition owned_frames (live : list (Z * Z)) : list Z := b ← live; seqZ b.1 (2 ^ b.2).

(** One call of a client that returns only blocks it holds. *)
Inductive bstep : buddy * list (Z * Z) -> buddy * list (Z * Z) -> Prop :=
| bstep_alloc s live order s' r :
    0 <= order < 256 -> pmm_buddy_alloc_locked s order = Some (s', r) -> r <> PMM_INVALID_ADDR ->
    bstep (s, live) (s', (Z.shiftr r PAGE_SHIFT, order) :: live)
| bstep_fail s live order s' :
    0 <= order < 256 -> pmm_buddy_alloc_locked s order = Some (s', PMM_INVALID_ADDR) ->
    bstep (s, live) (s', live)
| bstep_free s l1 f order l2 s' :
    pmm_buddy_free_locked_for_pcp s (f * PAGE_SIZE) order = Some s' ->
    bstep (s, l1 ++ (f, order) :: l2) (s', l1 ++ l2).

(** The frames of [U], in a memory of [total] frames, are divided between the
    allocator and its clients. *)
Definition divided (total : Z) (U : Z -> Prop) (st : buddy * list (Z * Z)) : Prop :=
  let '(s, live) := st in
  exists F, buddy_inv s F /\ counted s F /\ total_frames s = total /\
    Forall (fun b => block_ok total b.2 b.1) live /\ NoDup (owned_frames live) /\
    (forall x, U x <-> free_frame F x \/ x ∈ owned_frames live) /\
    (forall x, x ∈ owned_frames live -> ~ free_frame F x).

Lemma owned_cons f o live x :
  x ∈ owned_frames ((f, o) :: live) <-> f <= x < f + 2 ^ o \/ x ∈ owned_frames live.
Proof. unfold owned_frames. rewrite bind_cons, elem_of_app, elem_of_seqZ. done. Qed.

Lemma owned_middle l1 b l2 : owned_frames (l1 ++ b :: l2) ≡ₚ owned_frames (b :: l1 ++ l2).
Proof.
  unfold owned_frames. rewrite bind_cons, !bind_app, bind_cons. apply Permutation_app_swap_app.
Qed.

Lemma divided_alloc T U s live order s' r :
  divided T U (s, live) -> 0 <= order < 256 -> pmm_buddy_alloc_locked s order = Some (s', r) ->
  r <> PMM_INVALID_ADDR -> divided T U (s', (Z.shiftr r PAGE_SHIFT, order) :: live).
Proof.
  intros (F & Hi & Hc & HT & Hl & Hnd & HU & Hno) Ho Hrun Hr.
  destruct (alloc_locked_spec s F order Hi (proj1 Ho)) as (s1 & r1 & Hrun1 & Hres).
  assert (s1 = s' /\ r1 = r) as [-> ->] by (split; congruence).
  destruct (alloc_counted s F order s' r Hi Hc (proj1 Ho) Hres) as (F2 & Hi2 & Hc2).
  destruct Hres as [(-> & _)|(f & F' & -> & _ & Hb & Hfr & Hi' & Hff & _ & Ht & Hp)]; [done|].
  rewrite frame_of_phys. exists F'. split; [done|].
  pose proof (pow2_pos order (proj1 Ho)).
  pose proof (free_frames_diff s F s' F' f (2 ^ order) Hi Hi' ltac:(lia) Hff
    (fun x Hx => proj1 (Hfr x Hx))) as Hd.
  pose proof (free_frames_bound s F (proj1 Hi)). destruct (c_total _ _ (proj1 Hi)) as [_ HM].
  rewrite MAX_FRAMES_val in HM.
  split; [unfold counted in *; rewrite Hp, u64_id; lia|]. rewrite Ht. split; [done|].
  rewrite HT in Hb.
  split; [by constructor|]. split; [|split].
  - unfold owned_frames. rewrite bind_cons. apply NoDup_app. split; [apply NoDup_seqZ|].
    split; [|done]. intros x Hx%elem_of_seqZ Hin. apply (Hno x Hin). by apply Hfr.
  - intros x. rewrite HU, Hff, owned_cons. specialize (Hfr x).
    destruct (decide (f <= x < f + 2 ^ order)); tauto.
  - intros x. rewrite owned_cons, Hff. specialize (Hno x). tauto.
Qed.

Lemma divided_free T U s l1 f order l2 :
  divided T U (s, l1 ++ (f, order) :: l2) ->
  exists s', pmm_buddy_free_locked_for_pcp s (f * PAGE_SIZE) order = Some s' /\ divided T U (s', l1 ++ l2) /\
    forall x, refcount s' !! x = if decide (f <= x < f + 2 ^ order) then Some 0 else refcount s !! x.
Proof.
  intros (F & Hi & Hc & HT & Hl & Hnd & HU & Hno).
  apply Forall_app in Hl as [Hl1 Hl2]. inversion Hl2 as [|? ? Hb Hl2']; subst.
  rewrite owned_middle in Hnd. unfold owned_frames in Hnd. rewrite bind_cons, NoDup_app in Hnd.
  destruct Hnd as (_ & Hdj & Hnd).
  assert (Hmid : forall x, x ∈ owned_frames (l1 ++ (f, order) :: l2) <->
    f <= x < f + 2 ^ order \/ x ∈ owned_frames (l1 ++ l2)).
  { intros x. by rewrite owned_middle, owned_cons. }
  destruct (free_for_pcp_spec s F order f Hi Hc Hb) as (s' & F' & Hrun & Hi' & Hc' & Hff & Hrc & Ht).
  { intros x Hx. apply Hno, Hmid. by left. }
  exists s'. split; [done|]. split; [|done]. exists F'. split; [done|]. split; [done|]. rewrite Ht. split; [done|].
  split; [by apply Forall_app|]. split; [done|]. split.
  - intros x. rewrite HU, Hff, Hmid. tauto.
  - intros x Hx. rewrite Hff. intros [Hfr|Hr]; [by apply (Hno x); [apply Hmid; right|]|].
    apply (Hdj x); [by apply elem_of_seqZ|done].
Qed.

Lemma divided_step T U st st' : divided T U st -> bstep st st' -> divided T U st'.
Proof.
  intros HD Hs. destruct Hs as [s live order s' r Ho Hrun Hr|s live order s' Ho Hrun|s l1 f order l2 s' Hrun].
  - by eapply divided_alloc.
  - destruct HD as (F & Hi & Hrest).
    destruct (alloc_locked_spec s F order Hi (proj1 Ho)) as (s1 & r1 & Hrun1 & Hres).
    assert (s1 = s' /\ r1 = PMM_INVALID_ADDR) as [-> ->] by (split; congruence).
    destruct Hres as [(_ & -> & _)|(f & F' & Heq & Hne & _)]; [by exists F|done].
  - destruct (divided_free T U s l1 f order l2 HD) as (s2 & Hrun2 & HD' & _). by simplify_eq.
Qed.

Lemma divided_init s F :
  buddy_inv s F -> counted s F -> divided (total_frames s) (free_frame F) (s, []).
Proof.
  intros Hi Hc. exists F. do 3 (split; [done|]). split; [constructor|]. split; [constructor|].
  assert (Hnil : forall x, x ∉ owned_frames []) by (intros x; apply not_elem_of_nil).
  split; [|intros x Hx; by apply Hnil in Hx]. intros x. specialize (Hnil x). tauto.
Qed.

Lemma divided_reachable T U st st' : divided T U st -> rtc bstep st st' -> divided T U st'.
Proof. intros HD Hr. revert HD. induction Hr; [done|]. eauto using divided_step. Qed.

(** The order of the live blocks is irrelevant. *)
#[export] Instance owned_frames_perm : Proper ((≡ₚ) ==> (≡ₚ)) owned_frames.
Proof. intros l l' Hl. unfold owned_frames. by rewrite Hl. Qed.

Lemma divided_perm T U s live live' : live ≡ₚ live' -> divided T U (s, live) -> divided T U (s, live').
Proof.
  intros Hp (F & Hi & Hc & HT & Hl & Hnd & HU & Hno). exists F. do 3 (split; [done|]).
  rewrite <- Hp. split; [done|]. split; [done|]. split.
  - intros x. by rewrite HU, Hp.
  - intros x. rewrite <- Hp. apply Hno.
Qed.

(** Counters of frames that are handed out are the clients' business. *)
Lemma divided_refcount T U s live m :
  divided T U (s, live) -> (forall x, is_Some (refcount s !! x) -> is_Some (m !! x)) ->
  (forall x, m !! x = refcount s !! x \/ x ∈ owned_frames live \/ m !! x = Some 0) ->
  divided T U (with_refcount s m, live).
Proof.
  intros (F & Hi & Hc & HT & Hrest & Hnd & HU & Hno) Hs Hm. exists F. split; [|by split_and!].
  apply inv_refcount; [done|done|]. intros x Hx. pose proof Hi as (C & _).
  destruct Hx as (o & f & Ho & Hf & Hr). destruct (Hm x) as [->|[Hin|?]]; [by eapply (c_rc _ _ C)| |done].
  exfalso. apply (Hno x Hin). by exists o, f.
Qed.

(** Taking and returning single frames. *)
Lemma block_ok_0 total f : block_ok total 0 f <-> 0 <= f < total.
Proof. unfold block_ok. change (2 ^ 0) with 1. rewrite Z.mod_1_r. unfold MAX_ORDER. lia. Qed.

Lemma divided_alloc_page T U s live :
  divided T U (s, live) ->
  exists s' r, pmm_buddy_alloc_locked s 0 = Some (s', r) /\
    ((r = PMM_INVALID_ADDR /\ s' = s /\ forall x, U x -> x ∈ owned_frames live) \/
     exists f, r = f * PAGE_SIZE /\ r <> PMM_INVALID_ADDR /\ refcount s' = refcount s /\
       refcount s !! f = Some 0 /\ 0 <= f < T /\ divided T U (s', (f, 0) :: live)).
Proof.
  intros HD. pose proof HD as (F & Hi & Hc & HT & Hl & Hnd & HU & Hno).
  destruct (alloc_locked_spec s F 0 Hi ltac:(lia)) as (s' & r & Hrun & Hres).
  exists s', r. split; [done|].
  destruct Hres as [(-> & -> & Hf)|(f & F' & Hr & Hne & Hb & Hfr & _ & _ & Hrc & _)].
  - left. split; [done|]. split; [done|]. intros x [Hx|]%HU; [|done]. exfalso.
    apply (Hf x); [apply block_ok_0; by eapply free_frame_range; [apply Hi|]|].
    intros y Hy. change (2 ^ 0) with 1 in Hy. by replace y with x by lia.
  - right. exists f. do 3 (split; [done|]). apply block_ok_0 in Hb. rewrite HT in Hb.
    split; [apply Hfr; change (2 ^ 0) with 1; lia|]. split; [done|].
    rewrite <- (frame_of_phys f), <- Hr. by eapply divided_alloc.
Qed.

Lemma divided_free_page T U s f rest :
  divided T U (s, (f, 0) :: rest) ->
  exists s', pmm_buddy_free_locked_for_pcp s (f * PAGE_SIZE) 0 = Some s' /\ divided T U (s', rest) /\
    forall x, refcount s' !! x = if decide (x = f) then Some 0 else refcount s !! x.
Proof.
  intros HD. destruct (divided_free T U s [] f 0 rest HD) as (s' & Hrun & HD' & Hrc).
  exists s'. do 2 (split; [done|]). intros x. rewrite Hrc. change (2 ^ 0) with 1.
  repeat case_decide; (done || lia).
Qed.

(** ** Blocks and their stamps *)

Lemma divided_alloc_block T U s live order :
  divided T U (s, live) -> 0 <= order ->
  exists s' r, pmm_buddy_alloc_locked s order = Some (s', r) /\
    ((r = PMM_INVALID_ADDR /\ s' = s /\
      forall f, block_ok T order f -> ~ (forall x, f <= x < f + 2 ^ order -> U x /\ x ∉ owned_frames live)) \/
     exists f, r = f * PAGE_SIZE /\ r <> PMM_INVALID_ADDR /\ refcount s' = refcount s /\
       (forall x, f <= x < f + 2 ^ order -> refcount s' !! x = Some 0) /\ block_ok T order f /\
       divided T U (s', (f, order) :: live)).
Proof.
  intros HD Ho. pose proof HD as (F & Hi & Hc & HT & Hl & Hnd & HU & Hno).
  destruct (alloc_locked_spec s F order Hi Ho) as (s' & r & Hrun & Hres).
  exists s', r. split; [done|].
  destruct Hres as [(-> & -> & Hf)|(f & F' & Hr & Hne & Hb & Hfr & _ & _ & Hrc & _)].
  - left. split; [done|]. split; [done|]. intros f Hb Hall. rewrite <- HT in Hb.
    apply (Hf f Hb). intros x Hx. destruct (Hall x Hx) as [[|]%HU ?]; done.
  - right. exists f. do 3 (split; [done|]). rewrite HT in Hb.
    split; [intros x Hx; rewrite Hrc; by apply Hfr|]. split; [done|].
    rewrite <- (frame_of_phys f), <- Hr. destruct Hb as ((_ & ?) & _). unfold MAX_ORDER in *.
    eapply divided_alloc; [done|lia|done|done].
Qed.

Lemma mark_frames_spec n : forall s f,
  0 <= f -> f + Z.of_nat n <= total_frames s ->
  (forall x, f <= x < f + Z.of_nat n -> refcount s !! x = Some 0) ->
  exists m, mark_frames s n f = Some (with_refcount s m, []) /\
    forall x, m !! x = if decide (f <= x < f + Z.of_nat n) then Some 1 else refcount s !! x.
Proof.
  induction n as [|n IH]; intros s f Hf Hn Hz; cbn [mark_frames].
  { exists (refcount s). split; [by destruct s|]. intros x. case_decide; (done || lia). }
  destruct (Z.leb_spec (total_frames s) f); [lia|]. rewrite (Hz f) by lia. cbn [mbind option_bind].
  destruct (IH (with_refcount s (<[f := 1]> (refcount s))) (f + 1)) as (m & -> & Hm); [lia|cbn; lia| |].
  { intros x Hx. cbn. rewrite lookup_insert_ne by lia. apply Hz. lia. }
  exists m. split; [done|]. intros x. rewrite Hm. cbn [refcount with_refcount].
  destruct (decide (x = f)) as [->|Hne]; rewrite ?lookup_insert_eq, ?lookup_insert_ne by done;
    repeat case_decide; (done || lia).
Qed.

(** Stamping the frames of a live block reports nothing. *)
Lemma divided_mark T U s f order live :
  divided T U (s, (f, order) :: live) ->
  (forall x, f <= x < f + 2 ^ order -> refcount s !! x = Some 0) ->
  exists s', pmm_mark_allocated s (f * PAGE_SIZE) order = Some (s', []) /\
    divided T U (s', (f, order) :: live) /\
    forall x, refcount s' !! x = if decide (f <= x < f + 2 ^ order) then Some 1 else refcount s !! x.
Proof.
  intros HD Hz. pose proof HD as (F & Hi & _ & HT & Hl & _). inversion Hl as [|? ? Hb _]; subst.
  cbn [fst snd] in Hb. pose proof Hb as (Ho & Hf & _ & Hend). pose proof (pow2_pos order ltac:(lia)).
  unfold pmm_mark_allocated. rewrite order_to_pages_val, frame_of_phys by done.
  destruct (mark_frames_spec (Z.to_nat (2 ^ order)) s f) as (m & -> & Hm); rewrite ?Z2Nat.id in * by lia;
    [done|lia|done|].
  eexists. split; [done|]. split; [|done]. apply divided_refcount; [done| |].
  - intros x Hx. rewrite Hm. case_decide; [by eexists|done].
  - intros x. rewrite Hm. case_decide; [right; left; rewrite owned_cons; by left|by left].
Qed.

(** Unreferenced frames stay unreferenced. *)
Definition refs_le (s s' : buddy) : Prop :=
  forall x, refcount s !! x = Some 0 -> refcount s' !! x = Some 0.
#[export] Instance refs_le_refl : Reflexive refs_le.
Proof. by intros s x. Qed.
#[export] Instance refs_le_trans : Transitive refs_le.
Proof. intros s1 s2 s3 H1 H2 x Hx. auto. Qed.

(** Frames of live blocks keep their reference counts. *)
Definition refs_same (live : list (Z * Z)) (s s' : buddy) : Prop :=
  forall x, x ∈ owned_frames live -> refcount s' !! x = refcount s !! x.
Definition refs_kept (live : list (Z * Z)) (s s' : buddy) : Prop := refs_le s s' /\ refs_same live s s'.
#[export] Instance refs_kept_refl live : Reflexive (refs_kept live).
Proof. by split. Qed.
#[export] Instance refs_kept_trans live : Transitive (refs_kept live).
Proof.
  intros s1 s2 s3 [H1 K1] [H2 K2]. split; [by etrans|]. intros x Hx. by rewrite (K2 x Hx), (K1 x Hx).
Qed.

Lemma refs_kept_sub live live' s s' : owned_frames live' ⊆ owned_frames live -> refs_kept live s s' -> refs_kept live' s s'.
Proof. intros Hs [H K]. split; [done|]. intros x Hx. by apply K, Hs. Qed.

Lemma refs_kept_le live s s' : refs_kept live s s' -> refs_le s s'.
Proof. by intros [? _]. Qed.

Lemma refs_kept_app l1 l2 s s' : refs_kept (l1 ++ l2) s s' -> refs_kept l2 s s'.
Proof.
  apply refs_kept_sub. intros x Hx. unfold owned_frames. rewrite bind_app, elem_of_app. by right.
Qed.

(** A frame of another live block is not in this one. *)
Lemma divided_apart T U s l1 f order l2 x :
  divided T U (s, l1 ++ (f, order) :: l2) -> x ∈ owned_frames (l1 ++ l2) -> ~ (f <= x < f + 2 ^ order).
Proof.
  intros (F & _ & _ & _ & _ & Hnd & _) Hx Hin. unfold owned_frames in *. rewrite bind_app, bind_cons in Hnd.
  rewrite bind_app, elem_of_app in Hx. apply NoDup_app in Hnd as (_ & H1 & H2). apply NoDup_app in H2 as (_ & H2 & _).
  cbn [fst snd] in *. apply elem_of_seqZ in Hin.
  destruct Hx as [Hx|Hx]; [apply (H1 x Hx), elem_of_app; by left|by apply (H2 x)].
Qed.

(** Clearing the counts of one live block keeps the others'. *)
Lemma refs_kept_block T U s s' l1 f order l2 :
  divided T U (s, l1 ++ (f, order) :: l2) ->
  (forall x, refcount s' !! x = if decide (f <= x < f + 2 ^ order) then Some 0 else refcount s !! x) ->
  refs_kept (l1 ++ l2) s s'.
Proof.
  intros Hd Hrc. split; [intros x Hx; rewrite Hrc; by case_decide|]. intros x Hx. rewrite Hrc.
  case_decide as Hin; [|done]. by eapply divided_apart in Hin.
Qed.

Lemma refs_kept_frame T U s s' f live :
  divided T U (s, (f, 0) :: live) ->
  (forall x, refcount s' !! x = if decide (x = f) then Some 0 else refcount s !! x) -> refs_kept live s s'.
Proof.
  intros Hd Hrc. apply (refs_kept_block T U s s' [] f 0 live Hd). intros x. rewrite Hrc. change (2 ^ 0) with 1.
  repeat case_decide; (done || lia).
Qed.
