(* ===== verification/BuddyTheorems.v ===== *)
(** * The buddy allocator: theorems

    The properties of the page allocator that its clients rely on, stated for
    single calls and for every sequence of calls, and of its construction at
    boot. *)

From S2P Require Import Prelude DList Buddy BuddySpec PmmInit PmmInitSpec BuddyTrace.

(** ** A small machine *)

(** Eight frames of memory, all released to the allocator as one block. *)
Definition demo_ram (n : Z) : gmap Z free_block :=
  list_to_map ((fun a => (a, FreeBlock NULL NULL)) <$> (vaddr <$> seqZ 0 n)).
Definition demo_boot : buddy := boot_state (8 * PAGE_SIZE) 8 (demo_ram 8).
Definition demo : buddy := default demo_boot (pmm_buddy_free_locked_for_pcp demo_boot 0 3).

Lemma demo_ram_mapped n f : 0 <= f < n -> is_Some (demo_ram n !! vaddr f).
Proof.
  intros Hf. unfold demo_ram. rewrite (list_to_map_fun (fun _ => FreeBlock NULL NULL)); [by eexists|].
  apply list_elem_of_fmap. exists f. by rewrite elem_of_seqZ.
Qed.

Lemma demo_ok : exists F, buddy_inv demo F /\ counted demo F /\ total_frames demo = 8 /\
  forall x, free_frame F x <-> 0 <= x < 8.
Proof.
  assert (Hi : buddy_inv demo_boot (fun _ => [])).
  { apply boot_inv; [by rewrite MAX_FRAMES_val|by rewrite PAGE_SIZE_val|].
    intros f Hf. by apply demo_ram_mapped. }
  destruct (free_for_pcp_spec demo_boot (fun _ => []) 3 0) as (s' & F' & Hrun & Hi' & Hc' & Hff & _ & Ht);
    [done|done|done|intros; apply boot_no_free|].
  exists F'. unfold demo. change (0 * PAGE_SIZE) with 0 in Hrun. rewrite Hrun. cbn [default from_option].
  do 3 (split; [done|]). intros x. rewrite Hff. pose proof (boot_no_free x). simpl. tauto.
Qed.

(** ** The properties *)

(** The first half of [buddy_calls_correct]. *)
Lemma buddy_alloc_correct s F order :
  buddy_inv s F -> 0 <= order ->
  exists s' r, pmm_buddy_alloc_locked s order = Some (s', r) /\ alloc_result s F order s' r.
Proof. apply alloc_locked_spec. Qed.

(** The second half of [buddy_calls_correct]. *)
Lemma buddy_free_correct s F order f :
  buddy_inv s F -> counted s F -> block_ok (total_frames s) order f ->
  (forall x, f <= x < f + 2 ^ order -> ~ free_frame F x) ->
  exists s' F', pmm_buddy_free_locked_for_pcp s (f * PAGE_SIZE) order = Some s' /\
    buddy_inv s' F' /\ counted s' F' /\
    (forall x, free_frame F' x <-> free_frame F x \/ f <= x < f + 2 ^ order) /\
    (forall x, refcount s' !! x = if decide (f <= x < f + 2 ^ order) then Some 0 else refcount s !! x) /\
    total_frames s' = total_frames s.
Proof. apply free_for_pcp_spec. Qed.

Lemma buddy_free_correct_witness : exists s' F',
  pmm_buddy_free_locked_for_pcp demo_boot (4 * PAGE_SIZE) 2 = Some s' /\ buddy_inv s' F' /\
  forall x, free_frame F' x <-> 4 <= x < 8.
Proof.
  destruct (buddy_free_correct demo_boot (fun _ => []) 2 4) as (s' & F' & Hrun & Hi & _ & Hff & _).
  - apply boot_inv; [by rewrite MAX_FRAMES_val|by rewrite PAGE_SIZE_val|].
    intros f Hf. by apply demo_ram_mapped.
  - reflexivity.
  - repeat split; reflexivity || discriminate.
  - intros x _. apply boot_no_free.
  - exists s', F'. split; [done|]. split; [done|]. intros x. rewrite Hff. simpl.
    pose proof (boot_no_free x). tauto.
Defined.

(** C14: [pmm_buddy_alloc_locked] on a well-formed allocator never faults. It
    returns [PMM_INVALID_ADDR] and changes nothing exactly when no aligned
    run of [2^order] frames is free; otherwise it returns an aligned block
    whose frames were all free and unreferenced, removes exactly these
    frames from the free set, subtracts them from the free-page count and
    keeps the allocator well-formed. [pmm_buddy_free_locked_for_pcp] given
    an allocated block never faults (in particular the corrupted-overlay
    panic cannot fire), adds exactly the block's frames to the free set with
    reference count 0, touches no other reference count, and keeps the
    allocator well-formed, fully coalesced and exactly accounted. *)
Theorem buddy_calls_correct :
  (forall s F order,
  buddy_inv s F -> 0 <= order ->
    exists s' r, pmm_buddy_alloc_locked s order = Some (s', r) /\ alloc_result s F order s' r) /\
  (forall s F order f,
  buddy_inv s F -> counted s F -> block_ok (total_frames s) order f ->
    (forall x, f <= x < f + 2 ^ order -> ~ free_frame F x) ->
    exists s' F', pmm_buddy_free_locked_for_pcp s (f * PAGE_SIZE) order = Some s' /\
      buddy_inv s' F' /\ counted s' F' /\
      (forall x, free_frame F' x <-> free_frame F x \/ f <= x < f + 2 ^ order) /\
      (forall x, refcount s' !! x = if decide (f <= x < f + 2 ^ order) then Some 0 else refcount s !! x) /\
      total_frames s' = total_frames s).
Proof. exact (conj buddy_alloc_correct buddy_free_correct). Qed.

Lemma buddy_calls_correct_witness : exists F s' r,
  pmm_buddy_alloc_locked demo 1 = Some (s', r) /\ alloc_result demo F 1 s' r.
Proof.
  destruct demo_ok as (F & Hi & _). exists F. apply (proj1 buddy_calls_correct demo F 1); [done|lia].
Defined.

(** The first half of [buddy_sequences_safe]. *)
Lemma buddy_calls_safe s0 F0 s live :
  buddy_inv s0 F0 -> counted s0 F0 -> rtc bstep (s0, []) (s, live) ->
  divided (total_frames s0) (free_frame F0) (s, live) /\
  (forall order, 0 <= order -> is_Some (pmm_buddy_alloc_locked s order)) /\
  (forall f order, (f, order) ∈ live ->
     is_Some (pmm_buddy_free_locked_for_pcp s (f * PAGE_SIZE) order)).
Proof.
  intros Hi Hc Hr. assert (HD : divided (total_frames s0) (free_frame F0) (s, live)).
  { eapply divided_reachable; [by apply divided_init|done]. }
  split; [done|]. split.
  - intros order Ho. destruct HD as (F & HiF & _).
    destruct (alloc_locked_spec s F order HiF Ho) as (? & ? & -> & _). by eexists.
  - intros f order (l1 & l2 & ->)%list_elem_of_split.
    destruct (divided_free _ _ _ _ _ _ _ HD) as (? & -> & _). by eexists.
Qed.

(** The second half of [buddy_sequences_safe]. *)
Lemma buddy_quiescent_restored s0 F0 s :
  buddy_inv s0 F0 -> counted s0 F0 -> rtc bstep (s0, []) (s, []) ->
  exists F, buddy_inv s F /\ free_pages s = free_pages s0 /\
    forall o f, 0 <= o <= MAX_ORDER -> f ∈ F o <-> f ∈ F0 o.
Proof.
  intros Hi Hc Hr. assert (HD : divided (total_frames s0) (free_frame F0) (s, [])).
  { eapply divided_reachable; [by apply divided_init|done]. }
  destruct HD as (F & HiF & HcF & HT & _ & _ & HU & _). exists F. split; [done|].
  assert (H1 : forall x, free_frame F0 x -> free_frame F x).
  { intros x [|Hx]%HU; [done|by apply not_elem_of_nil in Hx]. }
  assert (H2 : forall x, free_frame F x -> free_frame F0 x) by (intros x Hx; apply HU; by left).
  split.
  - rewrite HcF, Hc. f_equal. apply Permutation_length, NoDup_Permutation;
      [by eapply NoDup_free_frames, HiF|by eapply NoDup_free_frames, Hi|].
    intros x. rewrite !elem_of_free_frames. split; auto.
  - intros o f Ho. split; intros Hf.
    + by eapply (free_blocks_canonical s F s0 F0).
    + by eapply (free_blocks_canonical s0 F0 s F).
Qed.

Lemma buddy_quiescent_restored_witness : exists (F0 : Z -> list Z) s F, buddy_inv s F /\ free_pages s = 8 /\
  forall o f, 0 <= o <= MAX_ORDER -> f ∈ F o <-> f ∈ F0 o.
Proof.
  destruct demo_ok as (F & Hi & Hc & Ht & Hff). exists F.
  destruct (alloc_locked_spec demo F 1 Hi ltac:(lia)) as (s1 & r & Hrun & Hres).
  assert (Hr : r <> PMM_INVALID_ADDR).
  { destruct Hres as [(_ & _ & Hno)|(f & F' & _ & Hne & _)]; [|done]. exfalso.
    apply (Hno 0); [rewrite Ht; repeat split; reflexivity || discriminate|].
    intros x Hx. apply Hff. change (2 ^ 1) with 2 in Hx. lia. }
  assert (HD : divided 8 (free_frame F) (s1, [] ++ [(Z.shiftr r PAGE_SHIFT, 1)])).
  { apply (divided_alloc 8 _ demo [] 1); [|lia|done|done]. rewrite <- Ht. by apply divided_init. }
  destruct (divided_free _ _ _ _ _ _ _ HD) as (s2 & Hrun2 & _). exists s2.
  assert (H8 : free_pages demo = 8) by (vm_compute; reflexivity). rewrite <- H8.
  apply (buddy_quiescent_restored demo F s2 Hi Hc).
  eapply rtc_l; [eapply bstep_alloc; [|exact Hrun|exact Hr]; lia|].
  apply rtc_once. exact (bstep_free _ [] _ _ [] _ Hrun2).
Defined.

(** C4: For every sequence of allocations and releases by clients that return
    only blocks they hold, starting from a well-formed allocator: the frames
    are always divided exactly between the free set and the blocks handed
    out, no frame is in two live blocks, the free-page count is the number
    of free frames, no further allocation faults and no release of a live
    block faults. Once every block handed out has been returned, the
    allocator has exactly the free blocks it started with, at every order,
    and the same free-page count: no sequence of splits and merges loses
    memory or leaves it fragmented. *)
Theorem buddy_sequences_safe :
  (forall s0 F0 s live,
    buddy_inv s0 F0 -> counted s0 F0 -> rtc bstep (s0, []) (s, live) ->
    divided (total_frames s0) (free_frame F0) (s, live) /\
    (forall order, 0 <= order -> is_Some (pmm_buddy_alloc_locked s order)) /\
    (forall f order, (f, order) ∈ live ->
       is_Some (pmm_buddy_free_locked_for_pcp s (f * PAGE_SIZE) order))) /\
  (forall s0 F0 s,
    buddy_inv s0 F0 -> counted s0 F0 -> rtc bstep (s0, []) (s, []) ->
    exists F, buddy_inv s F /\ free_pages s = free_pages s0 /\
      forall o f, 0 <= o <= MAX_ORDER -> f ∈ F o <-> f ∈ F0 o).
Proof. exact (conj buddy_calls_safe buddy_quiescent_restored). Qed.

Lemma buddy_sequences_safe_witness : exists F s1 r,
  r <> PMM_INVALID_ADDR /\ divided 8 (free_frame F) (s1, [(Z.shiftr r PAGE_SHIFT, 1)]).
Proof.
  destruct demo_ok as (F & Hi & Hc & Ht & Hff). exists F.
  destruct (alloc_locked_spec demo F 1 Hi ltac:(lia)) as (s1 & r & Hrun & Hres).
  exists s1, r. assert (Hr : r <> PMM_INVALID_ADDR).
  { destruct Hres as [(_ & _ & Hno)|(f & F' & _ & Hne & _)]; [|done]. exfalso.
    apply (Hno 0); [rewrite Ht; repeat split; reflexivity || discriminate|].
    intros x Hx. apply Hff. change (2 ^ 1) with 2 in Hx. lia. }
  split; [done|]. rewrite <- Ht. apply (proj1 buddy_sequences_safe demo F s1); [done|done|].
  apply rtc_once. constructor; [lia|done|done].
Defined.





