(* ===== verification/PmmRef.v ===== *)
(** * Frame reference and pin counts

    Models the per-frame counters of kernel/mm/pmm.c: [g_frame_refcount]
    (copy-on-write sharing; the frame is released when it drops to zero) and
    [g_frame_pincount] (DMA in flight; a pinned frame is never released), and
    [pmm_free_ratio_bp], the free-memory ratio that drives the shrinker. *)

From S2P Require Import Prelude DList Buddy.

(** The boolean is whether the kernel reports REF-INC-ON-FREE. *)
Definition pmm_ref_inc (s : buddy) (addr : Z) : option (buddy * bool) :=
  let fi := Z.shiftr addr PAGE_SHIFT in
  if total_frames s <=? fi then Some (s, false)
  else
    rc ← refcount s !! fi;
    Some (with_refcount s (<[fi := u32 (rc + 1)]> (refcount s)), rc =? 0).

(** The boolean is whether the kernel reports the last reference to a pinned
    frame dropped, in which case the frame is leaked. *)
Definition pmm_ref_dec (s : buddy) (addr : Z) : option (buddy * bool) :=
  let fi := Z.shiftr addr PAGE_SHIFT in
  if total_frames s <=? fi then Some (s, false)
  else
    rc ← refcount s !! fi;
    if rc =? 0 then Some (s, false)
    else
      let s := with_refcount s (<[fi := rc - 1]> (refcount s)) in
      if rc - 1 =? 0 then
        pins ← pincount s !! fi;
        if 0 <? pins then Some (s, true)
        else
          s ← pmm_buddy_free_locked s addr 0;
          Some (with_free_pages s (u64 (free_pages s + 1)), false)
      else Some (s, false).

Definition pmm_ref_zero (s : buddy) (addr : Z) : option buddy :=
  let fi := Z.shiftr addr PAGE_SHIFT in
  if total_frames s <=? fi then Some s
  else _ ← refcount s !! fi; Some (with_refcount s (<[fi := 0]> (refcount s))).

Definition pmm_ref_get (s : buddy) (addr : Z) : option Z :=
  let fi := Z.shiftr addr PAGE_SHIFT in
  if total_frames s <=? fi then Some 0 else refcount s !! fi.

Definition pmm_pin (s : buddy) (addr : Z) : option buddy :=
  let fi := Z.shiftr addr PAGE_SHIFT in
  if total_frames s <=? fi then Some s
  else pins ← pincount s !! fi; Some (with_pincount s (<[fi := u16 (pins + 1)]> (pincount s))).

Definition pmm_unpin (s : buddy) (addr : Z) : option buddy :=
  let fi := Z.shiftr addr PAGE_SHIFT in
  if total_frames s <=? fi then Some s
  else
    pins ← pincount s !! fi;
    if 0 <? pins then Some (with_pincount s (<[fi := pins - 1]> (pincount s))) else Some s.

Definition pmm_pin_get (s : buddy) (addr : Z) : option Z :=
  let fi := Z.shiftr addr PAGE_SHIFT in
  if total_frames s <=? fi then Some 0 else pincount s !! fi.

Definition pmm_free_ratio_bp (s : buddy) : Z :=
  if total_frames s =? 0 then 10000
  else
    let free := free_pages s in
    if total_frames s <=? free then 10000
    else u32 (u64 (free * 10000) / total_frames s).
