(* ===== verification/Pcp.v ===== *)
(** * Per-CPU page stashes

    Models kernel/mm/pcp.c.  Every CPU keeps up to 64 single frames
    ([pcp_pages], of which the first [pcp_hdr.count] are valid) in front of the
    buddy allocator.  [pcp_alloc] and [pcp_free] run with interrupts off on
    their own CPU, so each is one step on that CPU's stash; the buddy calls
    inside them run under [g_pmm_lock].  The compare-and-swap on the header
    then always succeeds and bumps the transaction id. *)

From S2P Require Import Prelude DList Buddy PmmRef.

Definition SLAB_PCPU_PCP_DEPTH : Z := 64.
Definition SLAB_PCPU_PCP_REFILL : Z := 32.

(** The part of [cpu_t] the stash uses; [pcp_self] is whether the CPU's slot
    has been initialised. *)
Record pcp := mkPcp {
  pcp_self : bool;
  pcp_count : Z;
  pcp_tid : Z;
  pcp_pages : list Z;
  pcp_hits : Z;
  pcp_misses : Z;
  pcp_drains : Z;
}.

(** Publish a new count: [{count, tid + 1}]. *)
Definition pcp_publish (c : pcp) (count : Z) (pages : list Z) : pcp :=
  mkPcp (pcp_self c) (u32 count) (u64 (pcp_tid c + 1)) pages (pcp_hits c) (pcp_misses c) (pcp_drains c).
Definition pcp_hit (c : pcp) : pcp :=
  mkPcp (pcp_self c) (pcp_count c) (pcp_tid c) (pcp_pages c) (u64 (pcp_hits c + 1)) (pcp_misses c)
    (pcp_drains c).
Definition pcp_miss (c : pcp) : pcp :=
  mkPcp (pcp_self c) (pcp_count c) (pcp_tid c) (pcp_pages c) (pcp_hits c) (u64 (pcp_misses c + 1))
    (pcp_drains c).
Definition pcp_drained (c : pcp) : pcp :=
  mkPcp (pcp_self c) (pcp_count c) (pcp_tid c) (pcp_pages c) (pcp_hits c) (pcp_misses c)
    (u64 (pcp_drains c + 1)).

(** ** Refill *)

(** [for (i = 0; i < SLAB_PCPU_PCP_REFILL; i++)]: take single frames until the
    buddy allocator has none; the last one taken is the head of the result. *)
Fixpoint refill_batch (s : buddy) (n : nat) (batch : list Z) : option (buddy * list Z) :=
  match n with
  | O => Some (s, batch)
  | S n =>
      '(s, p) ← pmm_buddy_alloc_locked s 0;
      if p =? PMM_INVALID_ADDR then Some (s, batch) else refill_batch s n (p :: batch)
  end.

(** [pcp_pages[cnt++] = x] for each [x]; outside the array is a fault. *)
Fixpoint push_pages (pages : list Z) (cnt : Z) (xs : list Z) : option (list Z * Z) :=
  match xs with
  | [] => Some (pages, cnt)
  | x :: xs =>
      if (0 <=? cnt) && (cnt <? Z.of_nat (length pages))
      then push_pages (<[Z.to_nat cnt := x]> pages) (cnt + 1) xs else None
  end.

Fixpoint free_batch (s : buddy) (xs : list Z) : option buddy :=
  match xs with
  | [] => Some s
  | x :: xs => s ← pmm_buddy_free_locked_for_pcp s x 0; free_batch s xs
  end.

Definition pcp_refill_one (s : buddy) (c : pcp) : option (buddy * pcp * Z) :=
  '(s, batch) ← refill_batch s (Z.to_nat SLAB_PCPU_PCP_REFILL) [];
  match batch with
  | [] => Some (s, c, PMM_INVALID_ADDR)
  | result :: rest =>
      let cnt := pcp_count c in
      let space := SLAB_PCPU_PCP_DEPTH - cnt in
      let n := Z.of_nat (length rest) in
      let pushed := Z.to_nat (if n <? space then n else space) in
      '(pages, cnt) ← push_pages (pcp_pages c) cnt (take pushed rest);
      let c := pcp_publish c cnt pages in
      s ← free_batch s (drop pushed rest);
      Some (s, c, result)
  end.

(** ** Drain *)

(** [cnt--; batch[i] = pcp_pages[cnt]], [n] times. *)
Fixpoint pop_pages (pages : list Z) (n : nat) (cnt : Z) : option (list Z * Z) :=
  match n with
  | O => Some ([], cnt)
  | S n =>
      let cnt := cnt - 1 in
      if cnt <? 0 then None
      else
        p ← pages !! Z.to_nat cnt;
        '(batch, cnt) ← pop_pages pages n cnt;
        Some (p :: batch, cnt)
  end.

Definition pcp_drain_one (s : buddy) (c : pcp) (how_many : Z) : option (buddy * pcp) :=
  if how_many =? 0 then Some (s, c) else
  let cnt := pcp_count c in
  if cnt =? 0 then Some (s, c) else
  let how_many := if cnt <? how_many then cnt else how_many in
  '(batch, cnt) ← pop_pages (pcp_pages c) (Z.to_nat how_many) cnt;
  let c := pcp_publish c cnt (pcp_pages c) in
  s ← free_batch s batch;
  Some (s, pcp_drained c).

(** ** The stash in front of the allocator *)

Definition pcp_alloc (s : buddy) (c : pcp) : option (buddy * pcp * Z) :=
  let count := pcp_count c in
  if count =? 0 then
    '(s, c, r) ← pcp_refill_one s c;
    Some (s, pcp_miss c, r)
  else
    p ← pcp_pages c !! Z.to_nat (count - 1);
    Some (s, pcp_hit (pcp_publish c (count - 1) (pcp_pages c)), p).

(** The retry loop of [pcp_free]: a full stash is drained and the push tried
    again; [n] bounds the number of rounds. *)
Fixpoint pcp_free_loop (s : buddy) (c : pcp) (n : nat) (phys : Z) : option (buddy * pcp) :=
  match n with
  | O => None
  | S n =>
      let count := pcp_count c in
      if SLAB_PCPU_PCP_DEPTH <=? count then
        '(s, c) ← pcp_drain_one s c SLAB_PCPU_PCP_REFILL;
        pcp_free_loop s c n phys
      else
        '(pages, cnt) ← push_pages (pcp_pages c) count [phys];
        Some (s, pcp_hit (pcp_publish c cnt pages))
  end.

Definition pcp_free (s : buddy) (c : pcp) (phys : Z) : option (buddy * pcp) :=
  if phys =? PMM_INVALID_ADDR then Some (s, c)
  else s ← pmm_ref_zero s phys; pcp_free_loop s c 2 phys.

(** Every CPU's stash goes back to the buddy allocator. *)
Fixpoint pcp_drain_all (s : buddy) (cpus : list pcp) : option (buddy * list pcp) :=
  match cpus with
  | [] => Some (s, [])
  | c :: cpus =>
      if negb (pcp_self c) || (pcp_count c =? 0) then
        '(s, cpus) ← pcp_drain_all s cpus; Some (s, c :: cpus)
      else
        let batch := take (Z.to_nat (pcp_count c)) (pcp_pages c) in
        s ← (if Z.of_nat (length (pcp_pages c)) <? pcp_count c then None else free_batch s batch);
        let c := pcp_drained (pcp_publish c 0 (pcp_pages c)) in
        '(s, cpus) ← pcp_drain_all s cpus;
        Some (s, c :: cpus)
  end.
