(* ===== verification/PcpSpec.v ===== *)
(** * Per-CPU page stashes: correctness

    From the buddy allocator's point of view the frames of a stash are handed
    out.  The stash operations keep the division of the frames between the
    free set, the stashes and the clients ([divided] with the stashes' frames
    among the live blocks), and a stashed frame is unreferenced. *)

From S2P Require Import Prelude DList Buddy BuddySpec PmmInit PmmInitSpec BuddyTrace.
From S2P Require Import PmmRef Pcp.

(** ** Stashes as lists of frames *)

Definition stash (c : pcp) : list Z := take (Z.to_nat (pcp_count c)) (pcp_pages c).
Definition page_block (p : Z) : Z * Z := (Z.shiftr p PAGE_SHIFT, 0).
Definition blocks (ps : list Z) : list (Z * Z) := page_block <$> ps.

(** A page-aligned address of an unreferenced frame. *)
Definition good_page (s : buddy) (p : Z) : Prop :=
  p = Z.shiftr p PAGE_SHIFT * PAGE_SIZE /\ refcount s !! Z.shiftr p PAGE_SHIFT = Some 0.

Record pcp_ok (s : buddy) (c : pcp) : Prop := {
  pk_self : pcp_self c = true;
  pk_len : length (pcp_pages c) = 64%nat;
  pk_count : 0 <= pcp_count c <= 64;
  pk_good : Forall (good_page s) (stash c);
}.

Lemma good_page_le s s' p : refs_le s s' -> good_page s p -> good_page s' p.
Proof. intros Hle [? ?]. split; [done|]. by apply Hle. Qed.

Lemma good_pages_le s s' ps : refs_le s s' -> Forall (good_page s) ps -> Forall (good_page s') ps.
Proof. intros Hle Hg. eapply Forall_impl; [done|]. intros p. by apply good_page_le. Qed.

Lemma pcp_ok_le s s' c : refs_le s s' -> pcp_ok s c -> pcp_ok s' c.
Proof. intros Hle []. constructor; try done. by eapply good_pages_le. Qed.

Lemma page_block_frame f : page_block (f * PAGE_SIZE) = (f, 0).
Proof. unfold page_block. by rewrite frame_of_phys. Qed.

(** ** Array traffic *)

Lemma push_pages_spec xs : forall pages cnt,
  0 <= cnt -> cnt + Z.of_nat (length xs) <= Z.of_nat (length pages) ->
  exists pages', push_pages pages cnt xs = Some (pages', cnt + Z.of_nat (length xs)) /\
    length pages' = length pages /\
    take (Z.to_nat (cnt + Z.of_nat (length xs))) pages' = take (Z.to_nat cnt) pages ++ xs.
Proof.
  induction xs as [|x xs IH]; intros pages cnt Hc Hl; cbn [push_pages].
  { exists pages. cbn [length]. rewrite Z.add_0_r, app_nil_r. done. }
  cbn [length] in Hl. destruct (Z.leb_spec 0 cnt); [|lia].
  destruct (Z.ltb_spec cnt (Z.of_nat (length pages))); [|lia]. cbn [andb].
  destruct (IH (<[Z.to_nat cnt := x]> pages) (cnt + 1)) as (pages' & -> & Hlen & Htake);
    [lia|rewrite length_insert; lia|].
  exists pages'. rewrite length_insert in Hlen.
  replace (cnt + Z.of_nat (length (x :: xs))) with (cnt + 1 + Z.of_nat (length xs)) by (cbn [length]; lia).
  split; [done|]. split; [done|]. rewrite Htake.
  replace (Z.to_nat (cnt + 1)) with (S (Z.to_nat cnt)) by lia.
  rewrite (take_S_r _ _ x); [|apply list_lookup_insert_eq; lia].
  rewrite take_insert_ge by lia. by rewrite <- app_assoc.
Qed.

Lemma pop_pages_spec pages n : forall cnt,
  Z.of_nat n <= cnt <= Z.of_nat (length pages) ->
  exists batch, pop_pages pages n cnt = Some (batch, cnt - Z.of_nat n) /\
    take (Z.to_nat cnt) pages ≡ₚ batch ++ take (Z.to_nat (cnt - Z.of_nat n)) pages.
Proof.
  induction n as [|n IH]; intros cnt Hn; cbn [pop_pages].
  { exists []. by rewrite Z.sub_0_r. }
  destruct (Z.ltb_spec (cnt - 1) 0); [lia|].
  destruct (lookup_lt_is_Some_2 pages (Z.to_nat (cnt - 1))) as [p Hp]; [lia|].
  rewrite Hp. cbn [mbind option_bind].
  destruct (IH (cnt - 1)) as (batch & -> & Hperm); [lia|]. cbn [mbind option_bind].
  exists (p :: batch). replace (cnt - 1 - Z.of_nat n) with (cnt - Z.of_nat (S n)) in * by lia.
  split; [done|]. replace (Z.to_nat cnt) with (S (Z.to_nat (cnt - 1))) by lia.
  rewrite (take_S_r _ _ p) by done. rewrite Hperm. simpl. by rewrite Permutation_app_comm.
Qed.

(** ** Batches *)

Section batches.
Context (T : Z) (U : Z -> Prop).

Lemma refill_batch_spec n : forall s batch live,
  divided T U (s, blocks batch ++ live) -> Forall (good_page s) batch ->
  exists s' new, refill_batch s n batch = Some (s', new ++ batch) /\
    divided T U (s', blocks (new ++ batch) ++ live) /\ refcount s' = refcount s /\
    Forall (good_page s') (new ++ batch) /\ Forall (fun p => p <> PMM_INVALID_ADDR) new /\
    (length new <= n)%nat /\
    (new = [] -> n <> O -> forall x, U x -> x ∈ owned_frames (blocks batch ++ live)).
Proof.
  induction n as [|n IH]; intros s batch live HD Hg; cbn [refill_batch].
  { exists s, []. simpl. split_and!; try done. }
  destruct (divided_alloc_page T U s _ HD) as (s1 & r & -> & Hres). cbn [mbind option_bind].
  destruct Hres as [(-> & -> & Hno)|(f & -> & Hne & Hrc & Hz & Hf & HD1)].
  { rewrite Z.eqb_refl. exists s, []. split_and!; try done. simpl. lia. }
  destruct (Z.eqb_spec (f * PAGE_SIZE) PMM_INVALID_ADDR); [done|].
  destruct (IH s1 (f * PAGE_SIZE :: batch) live) as (s2 & new & Hrun & HD2 & Hrc2 & Hg2 & Hnv & Hlen & _).
  - unfold blocks. rewrite fmap_cons, page_block_frame. done.
  - constructor; [split; rewrite frame_of_phys; [done|by rewrite Hrc]|].
    eapply good_pages_le; [|done]. intros x. by rewrite Hrc.
  - exists s2, (new ++ [f * PAGE_SIZE]). rewrite <- app_assoc. split; [done|]. split; [done|].
    split; [congruence|]. split; [done|]. split; [apply Forall_app; by repeat constructor|].
    rewrite length_app. simpl. split; [lia|]. intros Hnil. by destruct new.
Qed.

Lemma free_batch_spec xs : forall s rest,
  divided T U (s, blocks xs ++ rest) -> Forall (good_page s) xs ->
  exists s', free_batch s xs = Some s' /\ divided T U (s', rest) /\ refs_kept rest s s'.
Proof.
  induction xs as [|p xs IH]; intros s rest HD Hg; cbn [free_batch].
  { exists s. done. }
  inversion Hg as [|? ? [Hp Hz] Hg']; subst. unfold blocks in HD. rewrite fmap_cons in HD.
  unfold page_block at 1 in HD. destruct (divided_free_page T U s _ _ HD) as (s1 & Hrun & HD1 & Hrc).
  rewrite <- Hp in Hrun. rewrite Hrun. cbn [mbind option_bind].
  pose proof (refs_kept_frame _ _ _ _ _ _ HD Hrc) as Hle.
  destruct (IH s1 rest) as (s2 & -> & HD2 & Hle2); [done|eapply good_pages_le; [by eapply refs_kept_le|done]|].
  exists s2. split; [done|]. split; [done|]. etrans; [|done]. by eapply refs_kept_app.
Qed.

(** ** The operations *)

Lemma pcp_refill_spec s c rest :
  pcp_ok s c -> pcp_count c = 0 -> divided T U (s, rest) ->
  exists s' c' r, pcp_refill_one s c = Some (s', c', r) /\ pcp_ok s' c' /\ refs_kept rest s s' /\
    ((r = PMM_INVALID_ADDR /\ c' = c /\ divided T U (s', rest) /\ forall x, U x -> x ∈ owned_frames rest) \/
     (r <> PMM_INVALID_ADDR /\ good_page s' r /\ divided T U (s', page_block r :: blocks (stash c') ++ rest))).
Proof.
  intros Hok Hc HD. unfold pcp_refill_one.
  destruct (refill_batch_spec (Z.to_nat SLAB_PCPU_PCP_REFILL) s [] rest) as
    (s1 & new & -> & HD1 & Hrc1 & Hg1 & Hnv & Hlen & Hnone); [done|done|]. cbn [mbind option_bind].
  rewrite app_nil_r in *. change (Z.to_nat SLAB_PCPU_PCP_REFILL) with 32%nat in *.
  assert (Hle : refs_kept rest s s1) by (split; [intros x; by rewrite Hrc1|intros x _; by rewrite Hrc1]).
  destruct new as [|r rest1].
  { exists s1, c, PMM_INVALID_ADDR. split; [done|]. split; [eapply pcp_ok_le; [by eapply refs_kept_le|done]|]. split; [done|]. left.
    do 3 (split; [done|]). by apply Hnone. }
  rewrite Hc. simpl in Hlen. unfold SLAB_PCPU_PCP_DEPTH.
  destruct (Z.ltb_spec (Z.of_nat (length rest1)) (64 - 0)); [|lia]. rewrite Nat2Z.id.
  rewrite take_ge, drop_ge by lia. inversion Hg1 as [|? ? Hgr Hgrest]; subst. inversion Hnv; subst.
  destruct (push_pages_spec rest1 (pcp_pages c) 0) as (pages' & -> & Hpl & Htake);
    [lia|rewrite (pk_len _ _ Hok); lia|]. cbn [mbind option_bind free_batch].
  assert (Hst : stash (pcp_publish c (0 + Z.of_nat (length rest1)) pages') = rest1).
  { unfold stash, pcp_publish. cbn [pcp_count pcp_pages]. rewrite u32_id by lia. by rewrite Htake. }
  eexists _, _, _. split; [done|]. split; [|split; [done|]].
  - constructor; cbn [pcp_publish pcp_pages pcp_count]; [apply Hok|by rewrite Hpl, (pk_len _ _ Hok)| |by rewrite Hst].
    rewrite u32_id by lia. lia.
  - right. split; [done|]. split; [done|]. by rewrite Hst.
Qed.

Lemma pcp_alloc_spec s c rest :
  pcp_ok s c -> divided T U (s, blocks (stash c) ++ rest) ->
  exists s' c' r, pcp_alloc s c = Some (s', c', r) /\ pcp_ok s' c' /\ refs_kept rest s s' /\
    ((r = PMM_INVALID_ADDR /\ divided T U (s', blocks (stash c') ++ rest) /\
      forall x, U x -> x ∈ owned_frames rest) \/
     (good_page s' r /\ divided T U (s', page_block r :: blocks (stash c') ++ rest))).
Proof.
  intros Hok HD. unfold pcp_alloc. destruct (Z.eqb_spec (pcp_count c) 0) as [Hc|Hc].
  { assert (Hnil : stash c = []) by (unfold stash; by rewrite Hc).
    rewrite Hnil in HD. destruct (pcp_refill_spec s c rest Hok Hc HD) as
      (s' & c' & r & -> & Hok' & Hle & Hres). cbn [mbind option_bind].
    exists s', (pcp_miss c'), r. split; [done|]. split; [by destruct Hok'|]. split; [done|].
    change (stash (pcp_miss c')) with (stash c').
    destruct Hres as [(-> & -> & HD' & Hno)|(_ & Hg & HD')]; [left; by rewrite Hnil|by right]. }
  destruct Hok as [Hself Hlen Hcnt Hg].
  destruct (lookup_lt_is_Some_2 (pcp_pages c) (Z.to_nat (pcp_count c - 1))) as [p Hp]; [lia|].
  rewrite Hp. cbn [mbind option_bind].
  assert (Hst : stash c = stash (pcp_publish c (pcp_count c - 1) (pcp_pages c)) ++ [p]).
  { unfold stash, pcp_publish. cbn [pcp_count pcp_pages]. rewrite u32_id by lia.
    replace (Z.to_nat (pcp_count c)) with (S (Z.to_nat (pcp_count c - 1))) by lia. by apply take_S_r. }
  rewrite Hst in Hg, HD. apply Forall_app in Hg as [Hg Hgp].
  eexists _, _, _. split; [done|]. split; [|split; [done|right]].
  - constructor; cbn [pcp_hit pcp_publish pcp_pages pcp_count]; [done|done| |done]. rewrite u32_id; lia.
  - split; [by inversion Hgp|]. eapply divided_perm; [|exact HD].
    unfold blocks. rewrite fmap_app, <- app_assoc. simpl. by rewrite <- Permutation_middle.
Qed.

Lemma pcp_drain_spec s c rest n :
  pcp_ok s c -> 0 < n -> 0 < pcp_count c -> divided T U (s, blocks (stash c) ++ rest) ->
  exists s' c', pcp_drain_one s c n = Some (s', c') /\ pcp_ok s' c' /\ refs_kept rest s s' /\
    pcp_count c' = pcp_count c - Z.min n (pcp_count c) /\ divided T U (s', blocks (stash c') ++ rest).
Proof.
  intros [Hself Hlen Hcnt Hg] Hn Hc HD. unfold pcp_drain_one.
  destruct (Z.eqb_spec n 0); [lia|]. destruct (Z.eqb_spec (pcp_count c) 0); [lia|].
  replace (if pcp_count c <? n then pcp_count c else n) with (Z.min n (pcp_count c)) by (zbool; lia).
  set (k := Z.min n (pcp_count c)).
  destruct (pop_pages_spec (pcp_pages c) (Z.to_nat k) (pcp_count c)) as (batch & -> & Hperm); [lia|].
  rewrite Z2Nat.id in * by lia. cbn [mbind option_bind]. fold (stash c) in Hperm.
  assert (Hst : take (Z.to_nat (pcp_count c - k)) (pcp_pages c)
    = stash (pcp_publish c (pcp_count c - k) (pcp_pages c))).
  { unfold stash, pcp_publish. cbn [pcp_count pcp_pages]. by rewrite u32_id by lia. }
  rewrite Hst in Hperm. rewrite Hperm in Hg. apply Forall_app in Hg as [Hgb Hgs].
  destruct (free_batch_spec batch s (blocks (stash (pcp_publish c (pcp_count c - k) (pcp_pages c))) ++ rest))
    as (s' & -> & HD' & Hle); [|done|].
  { eapply divided_perm; [|exact HD]. unfold blocks. by rewrite Hperm, fmap_app, <- app_assoc. }
  cbn [mbind option_bind]. eexists _, _. split; [done|]. split; [|split; [by eapply refs_kept_app|split; [|done]]].
  - constructor; cbn [pcp_drained pcp_publish pcp_pages pcp_count];
      [done|done|rewrite u32_id by lia; lia|eapply good_pages_le; [by eapply refs_kept_le|done]].
  - cbn [pcp_drained pcp_publish pcp_count]. rewrite u32_id; lia.
Qed.

Lemma pcp_push_spec s c f rest :
  pcp_ok s c -> pcp_count c < 64 -> refcount s !! f = Some 0 ->
  divided T U (s, (f, 0) :: blocks (stash c) ++ rest) ->
  exists pages cnt, push_pages (pcp_pages c) (pcp_count c) [f * PAGE_SIZE] = Some (pages, cnt) /\
    let c' := pcp_hit (pcp_publish c cnt pages) in
    pcp_ok s c' /\ divided T U (s, blocks (stash c') ++ rest).
Proof.
  intros [Hself Hlen Hcnt Hg] Hlt Hz HD.
  destruct (push_pages_spec [f * PAGE_SIZE] (pcp_pages c) (pcp_count c)) as (pages & -> & Hpl & Htake);
    [lia|rewrite Hlen; simpl; lia|].
  eexists _, _. split; [done|]. cbn [length] in *. change (Z.of_nat 1) with 1 in *.
  assert (Hst : stash (pcp_hit (pcp_publish c (pcp_count c + 1) pages)) = stash c ++ [f * PAGE_SIZE]).
  { unfold stash at 1, pcp_hit, pcp_publish. cbn [pcp_count pcp_pages]. rewrite u32_id by lia. done. }
  split.
  - constructor; cbn [pcp_hit pcp_publish pcp_pages pcp_count]; [done|congruence|rewrite u32_id; lia|].
    rewrite Hst. apply Forall_app. split; [done|]. constructor; [|done]. by split; rewrite frame_of_phys.
  - rewrite Hst. eapply divided_perm; [|exact HD]. unfold blocks. rewrite fmap_app, <- app_assoc. simpl.
    rewrite page_block_frame. by rewrite <- Permutation_middle.
Qed.

Lemma ref_zero_spec s f rest :
  divided T U (s, (f, 0) :: rest) ->
  exists s', pmm_ref_zero s (f * PAGE_SIZE) = Some s' /\ divided T U (s', (f, 0) :: rest) /\
    refs_kept rest s s' /\ refcount s' !! f = Some 0.
Proof.
  intros HD. pose proof HD as (F & Hi & _ & HT & Hl & _). unfold pmm_ref_zero.
  inversion Hl as [|? ? Hb _]; subst. apply block_ok_0 in Hb. cbn in Hb. rewrite frame_of_phys.
  destruct (Z.leb_spec (total_frames s) f); [lia|].
  destruct (c_refs _ _ (proj1 Hi) f Hb) as [rc Hrc]. rewrite Hrc. cbn [mbind option_bind].
  eexists. split; [done|]. split; [|split; [eapply refs_kept_frame; [exact HD|]|]].
  - apply divided_refcount; [done| |].
    + intros x [y Hy]. destruct (decide (x = f)) as [->|]; [rewrite lookup_insert_eq; by eexists|].
      rewrite lookup_insert_ne by done. by eexists.
    + intros x. destruct (decide (x = f)) as [->|]; [right; right; by rewrite lookup_insert_eq|].
      left. by rewrite lookup_insert_ne by done.
  - intros x. cbn [refcount with_refcount]. destruct (decide (x = f)) as [->|];
      [by rewrite lookup_insert_eq|by rewrite lookup_insert_ne by done].
  - cbn [refcount with_refcount]. by rewrite lookup_insert_eq.
Qed.

Lemma pcp_free_spec s c f rest :
  pcp_ok s c -> divided T U (s, (f, 0) :: blocks (stash c) ++ rest) ->
  exists s' c', pcp_free s c (f * PAGE_SIZE) = Some (s', c') /\ pcp_ok s' c' /\ refs_kept rest s s' /\
    divided T U (s', blocks (stash c') ++ rest).
Proof.
  intros Hok HD. unfold pcp_free.
  destruct (Z.eqb_spec (f * PAGE_SIZE) PMM_INVALID_ADDR) as [He|_].
  { exfalso. unfold PMM_INVALID_ADDR in He. rewrite PAGE_SIZE_val in He. lia. }
  destruct (ref_zero_spec s f _ HD) as (s1 & -> & HD1 & Hle1 & Hz). cbn [mbind option_bind pcp_free_loop].
  apply (pcp_ok_le s s1) in Hok; [|by eapply refs_kept_le]. apply refs_kept_app in Hle1. pose proof (pk_count _ _ Hok). unfold SLAB_PCPU_PCP_DEPTH.
  destruct (Z.leb_spec 64 (pcp_count c)) as [Hfull|Hroom].
  2: { destruct (pcp_push_spec s1 c f rest) as (pages & cnt & -> & Hok' & HD'); [done..|].
       eexists _, _. split; [done|]. by split_and!. }
  destruct (pcp_drain_spec s1 c ((f, 0) :: rest) SLAB_PCPU_PCP_REFILL) as
    (s2 & c2 & -> & Hok2 & Hle2 & Hcnt2 & HD2); [done|done|lia| |].
  { eapply divided_perm; [|exact HD1]. by rewrite Permutation_middle. }
  cbn [mbind option_bind]. unfold SLAB_PCPU_PCP_REFILL in Hcnt2.
  destruct (Z.leb_spec 64 (pcp_count c2)); [lia|].
  destruct (pcp_push_spec s2 c2 f rest) as (pages & cnt & -> & Hok' & HD'); [done|done|by apply (refs_kept_le _ _ _ Hle2)| |].
  { eapply divided_perm; [|exact HD2]. by rewrite Permutation_middle. }
  eexists _, _. split; [done|]. split; [done|]. split; [|done].
  etrans; [done|]. by apply (refs_kept_app [(f, 0)]).
Qed.

Definition all_stashes (cpus : list pcp) : list Z := cpus ≫= stash.

Lemma pcp_drain_all_spec cpus : forall s rest,
  Forall (pcp_ok s) cpus ->
  divided T U (s, blocks (all_stashes cpus) ++ rest) ->
  exists s' cpus', pcp_drain_all s cpus = Some (s', cpus') /\ Forall (pcp_ok s') cpus' /\
    all_stashes cpus' = [] /\ refs_kept rest s s' /\ divided T U (s', rest).
Proof.
  induction cpus as [|c cpus IH]; intros s rest Hok HD; cbn [pcp_drain_all].
  { exists s, []. done. }
  inversion Hok as [|? ? Hc Hok']; subst. rewrite (pk_self _ _ Hc). cbn [negb orb].
  unfold all_stashes in HD. rewrite bind_cons in HD. unfold blocks in HD. rewrite fmap_app in HD.
  rewrite <- app_assoc in HD.
  destruct (Z.eqb_spec (pcp_count c) 0) as [H0|H0].
  { assert (Hnil : stash c = []).
    { unfold stash. by rewrite H0. }
    rewrite Hnil in HD. destruct (IH s rest) as (s' & cpus' & -> & Hok'' & Hst & Hle & HD'); [done..|].
    cbn [mbind option_bind]. eexists _, _. split; [done|]. split; [|split; [|done]].
    - constructor; [eapply pcp_ok_le; [by eapply refs_kept_le|done]|done].
    - unfold all_stashes in *. by rewrite bind_cons, Hnil, Hst. }
  pose proof Hc as [Hself Hlen Hcnt Hg]. rewrite Hlen.
  destruct (Z.ltb_spec (Z.of_nat 64) (pcp_count c)); [lia|]. fold (stash c).
  destruct (free_batch_spec (stash c) s _ HD Hg) as (s1 & -> & HD1 & Hle1). cbn [mbind option_bind].
  destruct (IH s1 rest) as (s' & cpus' & -> & Hok'' & Hst & Hle & HD'); [|done|].
  { eapply Forall_impl; [exact Hok'|]. intros c'. eapply pcp_ok_le. by eapply refs_kept_le. }
  apply refs_kept_app in Hle1.
  cbn [mbind option_bind]. eexists _, _. split; [done|]. split; [|split; [|split; [by etrans|done]]].
  - constructor; [|done]. by constructor.
  - unfold all_stashes in *. by rewrite bind_cons, Hst.
Qed.
End batches.
