(* ===== verification/Slab.v ===== *)
(** * The slab allocator

    Models the slab half of kernel/mm/pmm.c.  A cache hands out objects of one
    size, carved from slab pages (blocks of the buddy allocator) that start
    with a [slab_header_t].  Free objects of a page form a singly linked list
    through their first word; objects freed by other CPUs are pushed on a
    second list of the page, [remote_free], and merged by
    [drain_remote_into_freelist_locked].  Pages are kept on the cache's
    partial, full and empty lists (the doubly linked lists of [DList]).

    Every function here runs with [g_pmm_lock] held.  A load or store outside
    the modelled memory and a dangling header are faults ([None]). *)

From S2P Require Import Prelude DList Buddy.

(** ** Data *)

Definition SLAB_MAX_ORDER : Z := 3.
Definition SLAB_WASTE_FRACTION : Z := 16.
Definition SLAB_MIN_OBJECTS : Z := 8.
Definition INVALID_ORDER : Z := 255.
Definition SLAB_PCPU_PARTIAL_DEPTH : Z := 16.
Abbreviation SLAB_PCPU_CLASSES := 10%Z (only parsing).
Definition SLAB_TYPESAFE_BY_RCU : Z := 1.

(** [sizeof(slab_header_t)]: seven 8-byte words up to [on_list], the remote
    list and the three-word RCU head. *)
Definition SLAB_HEADER_SIZE : Z := 88.

(** [enum slab_list_kind]. *)
Definition SLAB_LIST_NONE : Z := 0.
Definition SLAB_LIST_PARTIAL : Z := 1.
Definition SLAB_LIST_FULL : Z := 2.
Definition SLAB_LIST_EMPTY : Z := 3.
Definition SLAB_LIST_CPU_PART : Z := 4.
Definition SLAB_LIST_CPU_ACTIVE : Z := 5.
Definition SLAB_LIST_RCU_DEFER : Z := 6.

Record slab_header := SlabHeader {
  h_cache : Z;
  h_slab_phys : Z;
  h_freelist : Z;
  h_inuse : Z;
  h_prev : Z;
  h_next : Z;
  h_on_list : Z;
  h_remote_free : Z;
}.

Definition h_links (p n : Z) (h : slab_header) : slab_header :=
  SlabHeader (h_cache h) (h_slab_phys h) (h_freelist h) (h_inuse h) p n (h_on_list h) (h_remote_free h).
Definition with_freelist (x : Z) (h : slab_header) : slab_header :=
  SlabHeader (h_cache h) (h_slab_phys h) x (h_inuse h) (h_prev h) (h_next h) (h_on_list h) (h_remote_free h).
Definition with_inuse (x : Z) (h : slab_header) : slab_header :=
  SlabHeader (h_cache h) (h_slab_phys h) (h_freelist h) x (h_prev h) (h_next h) (h_on_list h) (h_remote_free h).
Definition with_on_list (x : Z) (h : slab_header) : slab_header :=
  SlabHeader (h_cache h) (h_slab_phys h) (h_freelist h) (h_inuse h) (h_prev h) (h_next h) x (h_remote_free h).
Definition with_remote (x : Z) (h : slab_header) : slab_header :=
  SlabHeader (h_cache h) (h_slab_phys h) (h_freelist h) (h_inuse h) (h_prev h) (h_next h) (h_on_list h) x.

#[export] Instance slab_header_linked : Linked slab_header.
Proof.
  refine {| lnext := h_next; lprev := h_prev;
            set_next x h := h_links (h_prev h) x h;
            set_prev x h := h_links x (h_next h) h |}; done.
Defined.

(** The three lists of a cache. *)
Inductive slab_list := Partial | Full | Empty.

Record slab_cache := SlabCache {
  slot_size : Z;
  c_partial : Z;
  c_full : Z;
  c_empty : Z;
  slab_order : Z;
  class_idx : Z;
  c_flags : Z;
  obj_per_slab : Z;
  cpu_partial_cap : Z;
  cache_next : Z;
}.

Definition list_head (w : slab_list) (c : slab_cache) : Z :=
  match w with Partial => c_partial c | Full => c_full c | Empty => c_empty c end.
Definition with_head (w : slab_list) (x : Z) (c : slab_cache) : slab_cache :=
  match w with
  | Partial => SlabCache (slot_size c) x (c_full c) (c_empty c) (slab_order c) (class_idx c) (c_flags c)
                 (obj_per_slab c) (cpu_partial_cap c) (cache_next c)
  | Full => SlabCache (slot_size c) (c_partial c) x (c_empty c) (slab_order c) (class_idx c) (c_flags c)
              (obj_per_slab c) (cpu_partial_cap c) (cache_next c)
  | Empty => SlabCache (slot_size c) (c_partial c) (c_full c) x (slab_order c) (class_idx c) (c_flags c)
               (obj_per_slab c) (cpu_partial_cap c) (cache_next c)
  end.
Definition list_kind (w : slab_list) : Z :=
  match w with Partial => SLAB_LIST_PARTIAL | Full => SLAB_LIST_FULL | Empty => SLAB_LIST_EMPTY end.

(** The allocator's memory: the buddy allocator, the slab headers by address,
    the link words of free objects by address, the per-frame trackers, the
    caches by address and the head of their list, the pages handed to
    [call_rcu_head], and the frames reported by DOUBLE-ALLOC. *)
Record slabs := mkSlabs {
  sl_buddy : buddy;
  headers : gmap Z slab_header;
  words : gmap Z Z;
  trackers : gmap Z Z;
  heads : gmap Z Z;
  caches : gmap Z slab_cache;
  cache_head : Z;
  rcu_callbacks : list Z;
  double_allocs : list Z;
}.

Definition with_buddy (s : slabs) (b : buddy) : slabs :=
  mkSlabs b (headers s) (words s) (trackers s) (heads s) (caches s) (cache_head s) (rcu_callbacks s)
    (double_allocs s).
Definition with_headers (s : slabs) (hs : gmap Z slab_header) : slabs :=
  mkSlabs (sl_buddy s) hs (words s) (trackers s) (heads s) (caches s) (cache_head s) (rcu_callbacks s)
    (double_allocs s).
Definition with_words (s : slabs) (w : gmap Z Z) : slabs :=
  mkSlabs (sl_buddy s) (headers s) w (trackers s) (heads s) (caches s) (cache_head s) (rcu_callbacks s)
    (double_allocs s).
Definition with_frames (s : slabs) (t hd : gmap Z Z) : slabs :=
  mkSlabs (sl_buddy s) (headers s) (words s) t hd (caches s) (cache_head s) (rcu_callbacks s)
    (double_allocs s).
Definition with_caches (s : slabs) (c : gmap Z slab_cache) : slabs :=
  mkSlabs (sl_buddy s) (headers s) (words s) (trackers s) (heads s) c (cache_head s) (rcu_callbacks s)
    (double_allocs s).
Definition with_rcu (s : slabs) (l : list Z) : slabs :=
  mkSlabs (sl_buddy s) (headers s) (words s) (trackers s) (heads s) (caches s) (cache_head s) l
    (double_allocs s).
Definition with_reports (s : slabs) (l : list Z) : slabs :=
  mkSlabs (sl_buddy s) (headers s) (words s) (trackers s) (heads s) (caches s) (cache_head s)
    (rcu_callbacks s) l.

(** [h->field = ...] for a header at address [a]. *)
Definition upd_header (s : slabs) (a : Z) (g : slab_header -> slab_header) : option slabs :=
  h ← headers s !! a; Some (with_headers s (<[a := g h]> (headers s))).

(** [*(void** )p = v]. *)
Definition store_word (s : slabs) (p v : Z) : slabs := with_words s (<[p := v]> (words s)).

(** ** Geometry *)

Definition align_up_to (value align : Z) : Z := Z.land (u64 (value + align - 1)) (u64 (Z.lnot (align - 1))).

(** First order in [order, SLAB_MAX_ORDER] that satisfies [ok]. *)
Fixpoint first_order (ok : Z -> bool) (n : nat) (order : Z) : option Z :=
  match n with
  | O => None
  | S n => if ok order then Some order else first_order ok n (order + 1)
  end.

Definition calculate_slab_order (slot_size : Z) : Z :=
  let good order :=
    let slab_size := Z.shiftl PAGE_SIZE order in
    (slot_size <=? slab_size)
    && (SLAB_MIN_OBJECTS <=? slab_size / slot_size)
    && (slab_size mod slot_size <=? slab_size / SLAB_WASTE_FRACTION) in
  let fits order := slot_size <=? Z.shiftl PAGE_SIZE order in
  match first_order good (Z.to_nat (SLAB_MAX_ORDER + 1)) 0 with
  | Some order => order
  | None =>
      match first_order fits (Z.to_nat (SLAB_MAX_ORDER + 1)) 0 with
      | Some order => order
      | None => INVALID_ORDER
      end
  end.

Definition first_slot_off (c_slot_size : Z) : Z := align_up_to SLAB_HEADER_SIZE c_slot_size.
Definition slab_bytes (order : Z) : Z := u64 (Z.shiftl PAGE_SIZE order).

(** [pmm_slab_cache_init]: the cache at address [a]. *)
Definition pmm_slab_cache_init (s : slabs) (a size flags : Z) : slabs :=
  let order := calculate_slab_order size in
  let obj :=
    if slab_bytes order <=? first_slot_off size then 0
    else
      let num_slots := (slab_bytes order - first_slot_off size) / size in
      if 65535 <? num_slots then 65535 else num_slots in
  let cap := if 256 <=? obj then 13 else if 32 <=? obj then 6 else 2 in
  let cap := if SLAB_PCPU_PARTIAL_DEPTH <? cap then SLAB_PCPU_PARTIAL_DEPTH else cap in
  let c := SlabCache size NULL NULL NULL order 255 flags obj cap (cache_head s) in
  mkSlabs (sl_buddy s) (headers s) (words s) (trackers s) (heads s) (<[a := c]> (caches s)) a
    (rcu_callbacks s) (double_allocs s).

(** ** Lists of pages *)

Definition slab_list_push (s : slabs) (cache : Z) (w : slab_list) (h : Z) : option slabs :=
  c ← caches s !! cache;
  '(hs, hd) ← dll_push (headers s) (list_head w c) h;
  Some (with_caches (with_headers s hs) (<[cache := with_head w hd c]> (caches s))).

Definition slab_list_remove (s : slabs) (cache : Z) (w : slab_list) (h : Z) : option slabs :=
  c ← caches s !! cache;
  '(hs, hd) ← dll_remove (headers s) (list_head w c) h;
  Some (with_caches (with_headers s hs) (<[cache := with_head w hd c]> (caches s))).

(** Push and record the list in the header, as every caller does. *)
Definition park (s : slabs) (cache : Z) (w : slab_list) (h : Z) : option slabs :=
  s ← slab_list_push s cache w h; upd_header s h (with_on_list (list_kind w)).

(** ** Growing a cache *)

(** [g_slab_trackers[f] = t; g_slab_heads[f] = hd] for [n] frames from [f],
    stopping at the end of memory. *)
Fixpoint set_frames (s : slabs) (n : nat) (f t hd : Z) : option slabs :=
  match n with
  | O => Some s
  | S n =>
      if total_frames (sl_buddy s) <=? f then Some s
      else
        _ ← trackers s !! f;
        _ ← heads s !! f;
        set_frames (with_frames s (<[f := t]> (trackers s)) (<[f := hd]> (heads s))) n (f + 1) t hd
  end.

(** [for (i = num_slots; i-- > 0; )]: thread the slots onto a free list. *)
Fixpoint carve (s : slabs) (base size : Z) (n : nat) (freelist : Z) : slabs * Z :=
  match n with
  | O => (s, freelist)
  | S i =>
      let slot := base + Z.of_nat i * size in
      carve (store_word s slot freelist) base size i slot
  end.

Definition pmm_slab_grow_locked (s : slabs) (cache : Z) : option (slabs * Z) :=
  c ← caches s !! cache;
  '(b, slab_phys) ← pmm_buddy_alloc_locked (sl_buddy s) (slab_order c);
  let s := with_buddy s b in
  if slab_phys =? PMM_INVALID_ADDR then Some (s, NULL)
  else
    '(b, reports) ← pmm_mark_allocated (sl_buddy s) slab_phys (slab_order c);
    let s := with_reports (with_buddy s b) (double_allocs s ++ reports) in
    let head_frame_index := Z.shiftr slab_phys PAGE_SHIFT in
    let pages_in_slab := u64 (Z.shiftl 1 (slab_order c)) in
    let h := phys_to_virt slab_phys in
    let s := with_headers s
      (<[h := SlabHeader cache slab_phys NULL 0 NULL NULL SLAB_LIST_NONE NULL]> (headers s)) in
    s ← set_frames s (Z.to_nat pages_in_slab) head_frame_index cache head_frame_index;
    if slab_bytes (slab_order c) <=? first_slot_off (slot_size c) then
      s ← set_frames s (Z.to_nat pages_in_slab) head_frame_index NULL NULL;
      b ← pmm_buddy_free_locked (sl_buddy s) slab_phys (slab_order c);
      Some (with_headers (with_buddy s b) (delete h (headers s)), NULL)
    else
      let usable_bytes := slab_bytes (slab_order c) - first_slot_off (slot_size c) in
      let num_slots := usable_bytes / slot_size c in
      let '(s, freelist) :=
        carve s (h + first_slot_off (slot_size c)) (slot_size c) (Z.to_nat num_slots) NULL in
      s ← upd_header s h (with_freelist freelist);
      s ← park s cache Partial h;
      Some (s, h).

Definition pmm_slab_recycle_empty_locked (s : slabs) (cache : Z) : option (slabs * Z) :=
  c ← caches s !! cache;
  let h := c_empty c in
  if h =? NULL then Some (s, NULL)
  else
    s ← slab_list_remove s cache Empty h;
    s ← park s cache Partial h;
    Some (s, h).

(** ** Remote frees *)

(** A slab holds at most [PAGE_SIZE << SLAB_MAX_ORDER] bytes, eight per slot at
    least. *)
Definition MAX_SLOTS : nat := 4096.

(** [while ( *(void** )tail) { tail = *(void** )tail; n++; }]; [fuel] bounds the
    length of the chain. *)
Fixpoint walk_tail (ws : gmap Z Z) (fuel : nat) (tail n : Z) : option (Z * Z) :=
  match fuel with
  | O => None
  | S fuel =>
      next ← ws !! tail;
      if next =? NULL then Some (tail, n) else walk_tail ws fuel next (n + 1)
  end.

Definition drain_remote_into_freelist_locked (s : slabs) (a : Z) : option slabs :=
  h ← headers s !! a;
  let chain := h_remote_free h in
  s ← upd_header s a (with_remote NULL);
  if chain =? NULL then Some s
  else
    '(tail, n) ← walk_tail (words s) MAX_SLOTS chain 1;
    let s := store_word s tail (h_freelist h) in
    let inuse := if n <=? h_inuse h then h_inuse h - n else 0 in
    upd_header s a (fun h => with_inuse inuse (with_freelist chain h)).

(** ** Allocation *)

(** Second half of [pmm_slab_alloc_locked]: one object of the page [h], which
    is on the partial list. *)
Definition take_object (s : slabs) (cache h : Z) : option (slabs * Z) :=
  s ← drain_remote_into_freelist_locked s h;
  hd ← headers s !! h;
  let slot := h_freelist hd in
  if slot =? NULL then Some (s, NULL)
  else
    next ← words s !! slot;
    s ← upd_header s h (fun x => with_inuse (u32 (h_inuse x + 1)) (with_freelist next x));
    if next =? NULL then
      s ← slab_list_remove s cache Partial h;
      s ← park s cache Full h;
      Some (s, slot)
    else Some (s, slot).

Definition pmm_slab_alloc_locked (s : slabs) (cache : Z) : option (slabs * Z) :=
  c ← caches s !! cache;
  '(s, h) ←
    (if negb (c_partial c =? NULL) then Some (s, c_partial c)
     else
       '(s, h) ← pmm_slab_recycle_empty_locked s cache;
       if negb (h =? NULL) then Some (s, h) else pmm_slab_grow_locked s cache);
  if h =? NULL then Some (s, NULL) else take_object s cache h.

(** ** Returning pages to the buddy allocator *)

Definition pmm_slab_release_to_buddy_locked (s : slabs) (cache a : Z) : option slabs :=
  c ← caches s !! cache;
  h ← headers s !! a;
  let head_frame_index := Z.shiftr (h_slab_phys h) PAGE_SHIFT in
  let pages_in_slab := u64 (Z.shiftl 1 (slab_order c)) in
  s ← set_frames s (Z.to_nat pages_in_slab) head_frame_index NULL NULL;
  b ← pmm_buddy_free_locked (sl_buddy s) (h_slab_phys h) (slab_order c);
  let b := with_free_pages b (u64 (free_pages b + order_to_pages (slab_order c))) in
  Some (with_headers (with_buddy s b) (delete a (headers s))).

(** The callback [call_rcu_head] was given, run after a grace period. *)
Definition pmm_slab_rcu_free_cb (s : slabs) (a : Z) : option slabs :=
  h ← headers s !! a; pmm_slab_release_to_buddy_locked s (h_cache h) a.

Definition pmm_slab_destroy_locked (s : slabs) (cache a : Z) : option slabs :=
  s ← drain_remote_into_freelist_locked s a;
  h ← headers s !! a;
  s ← (if h_on_list h =? SLAB_LIST_PARTIAL then slab_list_remove s cache Partial a
       else if h_on_list h =? SLAB_LIST_FULL then slab_list_remove s cache Full a
       else if h_on_list h =? SLAB_LIST_EMPTY then slab_list_remove s cache Empty a
       else Some s);
  c ← caches s !! cache;
  if negb (Z.land (c_flags c) SLAB_TYPESAFE_BY_RCU =? 0) then
    s ← upd_header s a (with_on_list SLAB_LIST_RCU_DEFER);
    Some (with_rcu s (a :: rcu_callbacks s))
  else
    s ← upd_header s a (with_on_list SLAB_LIST_NONE);
    pmm_slab_release_to_buddy_locked s cache a.

(** ** Release *)

Definition pmm_slab_free_locked (s : slabs) (ptr : Z) : option slabs :=
  if ptr =? NULL then Some s else
  let frame_index := Z.shiftr (virt_to_phys ptr) PAGE_SHIFT in
  if total_frames (sl_buddy s) <=? frame_index then Some s else
  cache ← trackers s !! frame_index;
  if cache =? NULL then Some s else
  head_idx ← heads s !! frame_index;
  let h := phys_to_virt (u64 (Z.shiftl head_idx PAGE_SHIFT)) in
  s ← drain_remote_into_freelist_locked s h;
  hd ← headers s !! h;
  let was_on := h_on_list hd in
  let s := store_word s ptr (h_freelist hd) in
  let inuse := if negb (h_inuse hd =? 0) then h_inuse hd - 1 else h_inuse hd in
  s ← upd_header s h (fun x => with_inuse inuse (with_freelist ptr x));
  s ← (if was_on =? SLAB_LIST_FULL then
         s ← slab_list_remove s cache Full h; park s cache Partial h
       else Some s);
  hd ← headers s !! h;
  if (h_inuse hd =? 0) && (h_on_list hd =? SLAB_LIST_PARTIAL) then
    s ← slab_list_remove s cache Partial h; park s cache Empty h
  else Some s.

Definition pmm_is_slab_ptr (s : slabs) (ptr : Z) : option bool :=
  if ptr =? NULL then Some false else
  let frame_index := Z.shiftr (virt_to_phys ptr) PAGE_SHIFT in
  if total_frames (sl_buddy s) <=? frame_index then Some false
  else t ← trackers s !! frame_index; Some (negb (t =? NULL)).

(** ** Shrinking *)

(** [while (c->empty) destroy]: at most [n] pages. *)
Fixpoint shrink_cache (s : slabs) (n : nat) (cache : Z) : option slabs :=
  c ← caches s !! cache;
  if c_empty c =? NULL then Some s
  else
    match n with
    | O => None
    | S n => s ← pmm_slab_destroy_locked s cache (c_empty c); shrink_cache s n cache
    end.

(** Along the list of caches; [m] bounds the number of caches. *)
Fixpoint shrink_caches (s : slabs) (m : nat) (cache : Z) : option slabs :=
  if cache =? NULL then Some s
  else
    match m with
    | O => None
    | S m =>
        s ← shrink_cache s (size (headers s)) cache;
        c ← caches s !! cache;
        shrink_caches s m (cache_next c)
    end.

Definition pmm_slab_shrink_all_locked (s : slabs) : option slabs :=
  shrink_caches s (size (caches s)) (cache_head s).

(** [while (tail->next) tail = tail->next]. *)
Fixpoint list_tail (hs : gmap Z slab_header) (fuel : nat) (a : Z) : option Z :=
  match fuel with
  | O => None
  | S fuel => h ← hs !! a; if h_next h =? NULL then Some a else list_tail hs fuel (h_next h)
  end.

(** [while (remaining && c->empty)]: oldest pages first. *)
Fixpoint shrink_cache_bounded (s : slabs) (remaining : nat) (cache : Z) : option slabs :=
  match remaining with
  | O => Some s
  | S remaining =>
      c ← caches s !! cache;
      if c_empty c =? NULL then Some s
      else
        tail ← list_tail (headers s) (size (headers s)) (c_empty c);
        s ← pmm_slab_destroy_locked s cache tail;
        shrink_cache_bounded s remaining cache
  end.

Fixpoint shrink_caches_bounded (s : slabs) (m : nat) (max_per_cache cache : Z) : option slabs :=
  if cache =? NULL then Some s
  else
    match m with
    | O => None
    | S m =>
        s ← shrink_cache_bounded s (Z.to_nat max_per_cache) cache;
        c ← caches s !! cache;
        shrink_caches_bounded s m max_per_cache (cache_next c)
    end.

Definition pmm_slab_shrink_bounded_locked (s : slabs) (max_per_cache : Z) : option slabs :=
  if max_per_cache =? 0 then Some s
  else shrink_caches_bounded s (size (caches s)) max_per_cache (cache_head s).
