(* ===== verification/SlabSpec.v ===== *)
(** * The slab allocator: invariant

    The abstract view of the slab memory is a map [A] from header addresses to
    pages.  A page records its cache, its block, and the division of its slots
    into free ones, ones freed by other CPUs, live objects and objects in the
    slot of the CPU that holds the page; [pg_lost] is how far its count of used
    objects lags behind.  [L] gives the page lists of every cache.  [slab_inv] ties headers, link words, lists,
    trackers and the buddy allocator to that view. *)

From S2P Require Import Prelude DList Buddy BuddySpec PmmInit PmmInitSpec BuddyTrace.
From S2P Require Import Slab.

(** ** Abstract pages *)

(** [OnCpu k]: off the lists, with a CPU, in the state [k] of its header. *)
Inductive place := OnList (w : slab_list) | Deferred | OnCpu (k : Z).

Record page := Page {
  pg_cache : Z;
  pg_order : Z;
  pg_frame : Z;
  pg_free : list Z;
  pg_remote : list Z;
  pg_live : list Z;
  pg_on : place;
  pg_slot : list Z;
  pg_lost : Z;
}.

Definition place_kind (p : place) : Z :=
  match p with OnList w => list_kind w | Deferred => SLAB_LIST_RCU_DEFER | OnCpu k => k end.

Definition first (l : list Z) : Z := default NULL (head l).

(** The header of a page, pointers aside. *)
Definition hdr (pg : page) : slab_header :=
  SlabHeader (pg_cache pg) (pg_frame pg * PAGE_SIZE) (first (pg_free pg))
    (Z.max 0 (Z.of_nat (length (pg_live pg) + length (pg_remote pg) + length (pg_slot pg)) - pg_lost pg)) NULL NULL
    (place_kind (pg_on pg)) (first (pg_remote pg)).

(** A chain of free objects through their link words. *)
Fixpoint chain (ws : gmap Z Z) (l : list Z) : Prop :=
  match l with
  | [] => True
  | x :: l' => x <> NULL /\ ws !! x = Some (first l') /\ chain ws l'
  end.

(** The slots of a page at [a]. *)
Definition num_slots (c : slab_cache) : Z :=
  (slab_bytes (slab_order c) - first_slot_off (slot_size c)) / slot_size c.
Definition slot_at (c : slab_cache) (a i : Z) : Z := a + first_slot_off (slot_size c) + i * slot_size c.
Definition slots (c : slab_cache) (a : Z) : list Z := slot_at c a <$> seqZ 0 (num_slots c).

(** A cache whose slabs hold at least one object. *)
Definition geom_ok (c : slab_cache) : Prop :=
  0 <= slab_order c <= SLAB_MAX_ORDER /\ 8 <= slot_size c < 2 ^ 63 /\
  first_slot_off (slot_size c) + slot_size c <= slab_bytes (slab_order c).

(** A cache without its list heads. *)
Definition geom (c : slab_cache) : slab_cache :=
  with_head Partial NULL (with_head Full NULL (with_head Empty NULL c)).

Lemma geom_with_head w x c : geom (with_head w x c) = geom c.
Proof. by destruct w. Qed.

Definition page_ok (G : gmap Z slab_cache) (ws : gmap Z Z) (a : Z) (pg : page) : Prop :=
  a = vaddr (pg_frame pg) /\ chain ws (pg_free pg) /\ chain ws (pg_remote pg) /\
  exists c, G !! pg_cache pg = Some c /\ pg_order pg = slab_order c /\ geom_ok c /\
    pg_free pg ++ pg_remote pg ++ pg_live pg ++ pg_slot pg ≡ₚ slots c a /\
    chain ws (pg_slot pg) /\ 0 <= pg_lost pg /\ (SLAB_PCPU_CLASSES <= class_idx c -> pg_lost pg = 0).

Definition page_blocks (A : gmap Z page) : list (Z * Z) :=
  (fun p => (pg_frame p.2, pg_order p.2)) <$> map_to_list A.

Definition in_page (pg : page) (f : Z) : Prop := pg_frame pg <= f < pg_frame pg + 2 ^ pg_order pg.

Definition lists_ok (hs : gmap Z slab_header) (cs : gmap Z slab_cache) (L : Z -> slab_list -> list Z) : Prop :=
  forall k c w, cs !! k = Some c -> dll hs (L k w) (list_head w c).

Section inv.
(** The frames the allocator divides, the blocks of its other clients, and the
    caches. *)
Context (T : Z) (U : Z -> Prop) (rest : list (Z * Z)) (G : gmap Z slab_cache).

Record slab_inv (s : slabs) (A : gmap Z page) (L : Z -> slab_list -> list Z) : Prop := {
  si_div : divided T U (sl_buddy s, page_blocks A ++ rest);
  si_geom : geom <$> caches s = G;
  si_null : G !! NULL = None;
  si_hdr : unlinked <$> headers s = hdr <$> A;
  si_page a pg : A !! a = Some pg -> page_ok G (words s) a pg;
  si_lists : lists_ok (headers s) (caches s) L;
  si_mem k w a : a ∈ L k w <-> exists pg, A !! a = Some pg /\ pg_cache pg = k /\ pg_on pg = OnList w;
  si_track f : 0 <= f < T -> is_Some (trackers s !! f) /\ is_Some (heads s !! f);
  si_owned f a pg : A !! a = Some pg -> in_page pg f ->
    trackers s !! f = Some (pg_cache pg) /\ heads s !! f = Some (pg_frame pg);
  si_free f : 0 <= f < T -> (forall a pg, A !! a = Some pg -> ~ in_page pg f) -> trackers s !! f = Some NULL;
  si_reports : double_allocs s = [];
}.

(** The invariant with the page [pg] at [a] taken off every list: its header
    is still in memory and its block is still owned. *)
Record loose (s : slabs) (A : gmap Z page) (L : Z -> slab_list -> list Z) (a : Z) (pg : page) : Prop := {
  lo_fresh : A !! a = None;
  lo_div : divided T U (sl_buddy s, (pg_frame pg, pg_order pg) :: page_blocks A ++ rest);
  lo_geom : geom <$> caches s = G;
  lo_null : G !! NULL = None;
  lo_hdr : unlinked <$> delete a (headers s) = hdr <$> A;
  lo_page b pgb : A !! b = Some pgb -> page_ok G (words s) b pgb;
  lo_this : page_ok G (words s) a pg;
  lo_lists : lists_ok (headers s) (caches s) L;
  lo_mem k w b : b ∈ L k w <-> exists pgb, A !! b = Some pgb /\ pg_cache pgb = k /\ pg_on pgb = OnList w;
  lo_track f : 0 <= f < T -> is_Some (trackers s !! f) /\ is_Some (heads s !! f);
  lo_owned f b pgb : A !! b = Some pgb -> in_page pgb f ->
    trackers s !! f = Some (pg_cache pgb) /\ heads s !! f = Some (pg_frame pgb);
  lo_own f : in_page pg f -> trackers s !! f = Some (pg_cache pg) /\ heads s !! f = Some (pg_frame pg);
  lo_free f : 0 <= f < T -> (forall b pgb, A !! b = Some pgb -> ~ in_page pgb f) -> ~ in_page pg f ->
    trackers s !! f = Some NULL;
  lo_reports : double_allocs s = [];
}.
End inv.

(** What distinguishes the three lists. *)
Definition placed (pg : page) : Prop :=
  match pg_on pg with
  | OnList Partial => pg_free pg <> [] /\ pg_slot pg = [] /\ pg_lost pg = 0
  | OnList Full => pg_free pg = [] /\ pg_slot pg = []
  | OnList Empty | Deferred => pg_remote pg = [] /\ pg_live pg = [] /\ pg_slot pg = [] /\ pg_lost pg = 0
  | OnCpu k => k = SLAB_LIST_NONE \/ k = SLAB_LIST_CPU_PART \/ k = SLAB_LIST_CPU_ACTIVE
  end.

(** A cache that is not one of the per-CPU classes. *)
Definition plain (G : gmap Z slab_cache) (k : Z) : Prop := exists c, G !! k = Some c /\ SLAB_PCPU_CLASSES <= class_idx c.

(** A class of the kernel heap. *)
Definition pooled (G : gmap Z slab_cache) (k : Z) : Prop := exists c, G !! k = Some c /\ class_idx c < SLAB_PCPU_CLASSES.

(** ** Geometry *)

Lemma ldiff_sub x m : Z.ldiff x m = x - Z.land x m.
Proof.
  rewrite Z.sub_nocarry_ldiff.
  - apply Z.bits_inj'. intros n Hn. rewrite !Z.ldiff_spec, Z.land_spec.
    by destruct (Z.testbit x n), (Z.testbit m n).
  - apply Z.bits_inj'. intros n Hn. rewrite Z.ldiff_spec, Z.land_spec, Z.bits_0.
    by destruct (Z.testbit x n), (Z.testbit m n).
Qed.

Lemma land_le_r x m : 0 <= x -> 0 <= m -> 0 <= Z.land x m <= m.
Proof.
  intros Hx Hm. split; [apply Z.land_nonneg; by left|].
  pose proof (ldiff_sub m x) as Hd. rewrite Z.land_comm in Hd.
  assert (0 <= Z.ldiff m x) by (apply Z.ldiff_nonneg; by left). lia.
Qed.

Lemma align_up_to_bounds value align :
  0 < align -> 0 <= value -> value + align <= 2 ^ 64 ->
  value <= align_up_to value align <= value + align - 1.
Proof.
  intros Ha Hv Hs. unfold align_up_to. rewrite u64_id by lia.
  set (x := value + align - 1). set (m := align - 1).
  assert (Hl : Z.land x (u64 (Z.lnot m)) = x - Z.land x m).
  { rewrite <- ldiff_sub, Z.ldiff_land. unfold u64. rewrite <- Z.land_ones by lia.
    rewrite (Z.land_comm (Z.lnot m)), Z.land_assoc, Z.land_ones, Z.mod_small; unfold x; lia. }
  rewrite Hl. pose proof (land_le_r x m ltac:(unfold x; lia) ltac:(unfold m; lia)).
  unfold x, m in *. lia.
Qed.

Lemma slab_bytes_val o : 0 <= o <= SLAB_MAX_ORDER -> slab_bytes o = PAGE_SIZE * 2 ^ o.
Proof.
  unfold SLAB_MAX_ORDER. intros Ho. unfold slab_bytes. rewrite Z.shiftl_mul_pow2 by lia. apply u64_id.
  pose proof (pow2_pos o ltac:(lia)). pose proof (Z.pow_le_mono_r 2 o 3 ltac:(lia) ltac:(lia)).
  rewrite PAGE_SIZE_val. lia.
Qed.

(** A slot lies in its page, after the header. *)
Lemma slots_range c a x : geom_ok c -> x ∈ slots c a ->
  a + SLAB_HEADER_SIZE <= x /\ x + slot_size c <= a + PAGE_SIZE * 2 ^ slab_order c.
Proof.
  intros (Ho & Hs & Hfit) (i & -> & Hi%elem_of_seqZ)%list_elem_of_fmap.
  pose proof (align_up_to_bounds SLAB_HEADER_SIZE (slot_size c) ltac:(lia) ltac:(done)
    ltac:(unfold SLAB_HEADER_SIZE; lia)) as Hoff. fold (first_slot_off (slot_size c)) in Hoff.
  unfold slot_at, num_slots in *. rewrite <- slab_bytes_val by done.
  set (off := first_slot_off _) in *. set (b := slab_bytes _) in *. set (z := slot_size c) in *.
  assert ((i + 1) * z <= b - off).
  { apply Z.le_trans with ((b - off) / z * z); [apply Z.mul_le_mono_nonneg_r; lia|].
    rewrite Z.mul_comm. apply Z.mul_div_le. lia. }
  split; nia.
Qed.

Lemma slot_at_inj c a i j : geom_ok c -> slot_at c a i = slot_at c a j -> i = j.
Proof. intros (_ & Hs & _). unfold slot_at. nia. Qed.

Lemma NoDup_slots c a : geom_ok c -> NoDup (slots c a).
Proof.
  intros Hg. apply NoDup_fmap_2_strong; [|apply NoDup_seqZ]. intros i j _ _. by apply slot_at_inj.
Qed.

(** Two slots of a page do not overlap. *)
Lemma slots_disjoint c a x y :
  geom_ok c -> x ∈ slots c a -> y ∈ slots c a -> x <> y -> x + slot_size c <= y \/ y + slot_size c <= x.
Proof.
  intros (_ & Hs & _) (i & -> & _)%list_elem_of_fmap (j & -> & _)%list_elem_of_fmap. unfold slot_at. intros Hne.
  set (z := slot_size c) in *. destruct (Z.lt_trichotomy i j) as [Hij|[->|Hij]]; [left|done|right].
  - assert ((i + 1) * z <= j * z) by (apply Z.mul_le_mono_nonneg_r; lia). lia.
  - assert ((j + 1) * z <= i * z) by (apply Z.mul_le_mono_nonneg_r; lia). lia.
Qed.

Lemma num_slots_bounds c : geom_ok c -> 1 <= num_slots c <= 4096.
Proof.
  intros (Ho & Hs & Hfit). unfold num_slots. split.
  - apply Z.div_le_lower_bound; lia.
  - pose proof (align_up_to_bounds SLAB_HEADER_SIZE (slot_size c) ltac:(lia) ltac:(done)
      ltac:(unfold SLAB_HEADER_SIZE; lia)) as Hoff. fold (first_slot_off (slot_size c)) in Hoff.
    unfold SLAB_HEADER_SIZE in Hoff. rewrite slab_bytes_val in * by done. unfold SLAB_MAX_ORDER in Ho.
    pose proof (Z.pow_le_mono_r 2 (slab_order c) 3 ltac:(lia) ltac:(lia)). rewrite PAGE_SIZE_val in *.
    apply Z.lt_succ_r, Z.div_lt_upper_bound; lia.
Qed.

Lemma length_slots c a : geom_ok c -> Z.of_nat (length (slots c a)) = num_slots c.
Proof.
  intros Hg. pose proof (num_slots_bounds c Hg). unfold slots. rewrite length_fmap, length_seqZ. lia.
Qed.

(** ** Chains *)

Lemma chain_frame ws ws' l : (forall x, x ∈ l -> ws' !! x = ws !! x) -> chain ws l -> chain ws' l.
Proof.
  induction l as [|x l IH]; intros Hag; simpl; [done|]. intros (? & Hx & Hc). split; [done|].
  rewrite Hag by set_solver. split; [done|]. apply IH; [set_solver|done].
Qed.

Lemma first_cons x l : first (x :: l) = x.
Proof. done. Qed.

Lemma chain_first ws l : chain ws l -> first l = NULL -> l = [].
Proof. destruct l as [|x l]; [done|]. intros (Hx & _). by rewrite first_cons. Qed.

(** Walking to the tail of a chain visits it all. *)
Lemma walk_tail_spec ws l : forall x fuel n,
  chain ws (x :: l) -> (length l < fuel)%nat ->
  exists y, last (x :: l) = Some y /\ walk_tail ws fuel x n = Some (y, n + Z.of_nat (length l)).
Proof.
  induction l as [|z l IH]; intros x fuel n (Hx & Hw & Hc) Hf; destruct fuel as [|fuel]; simpl in Hf; try lia;
    cbn [walk_tail]; rewrite Hw; cbn [mbind option_bind].
  - exists x. split; [done|]. change (first []) with NULL. rewrite Z.eqb_refl. f_equal. f_equal. simpl. lia.
  - rewrite first_cons. pose proof Hc as (Hz & _). destruct (Z.eqb_spec z NULL); [done|].
    destruct (IH z fuel (n + 1)) as (y & Hlast & Hwalk); [done|lia|]. exists y. split; [done|].
    rewrite Hwalk. f_equal. f_equal. simpl. lia.
Qed.

(** Appending to a chain by writing its last link. *)
Lemma chain_append ws l1 y l2 :
  chain ws (l1 ++ [y]) -> chain ws l2 -> NoDup (l1 ++ [y]) -> (forall x, x ∈ l1 ++ [y] -> x ∉ l2) ->
  chain (<[y := first l2]> ws) ((l1 ++ [y]) ++ l2).
Proof.
  intros Hc1 Hc2 Hnd Hdj.
  assert (Hc2' : chain (<[y := first l2]> ws) l2).
  { eapply chain_frame; [|done]. intros x Hx. apply lookup_insert_ne. intros <-.
    apply (Hdj y); [set_solver|done]. }
  clear Hdj. induction l1 as [|x l1 IH]; simpl in *.
  - destruct Hc1 as (Hy & _). split; [done|]. by rewrite lookup_insert_eq.
  - destruct Hc1 as (Hx & Hw & Hc). apply NoDup_cons in Hnd as [Hxn Hnd]. split; [done|]. split; [|by apply IH].
    rewrite lookup_insert_ne by set_solver. rewrite Hw. f_equal. by destruct l1.
Qed.
