(* ===== verification/SlabLists.v ===== *)
(** * The slab allocator: page lists and single pages

    How the list operations and updates of one page act on the invariant
    [slab_inv], and the operations on the objects of one page. *)

From S2P Require Import Prelude DList Buddy BuddySpec PmmInit PmmInitSpec BuddyTrace Slab SlabSpec.

#[export] Instance slab_list_eq_dec : EqDecision slab_list.
Proof. solve_decision. Defined.

Definition upd_list (L : Z -> slab_list -> list Z) (k : Z) (w : slab_list) (l : list Z) : Z -> slab_list -> list Z :=
  fun k' w' => if decide (k' = k /\ w' = w) then l else L k' w'.

Lemma upd_list_eq L k w l : upd_list L k w l k w = l.
Proof. unfold upd_list. by case_decide; [|naive_solver]. Qed.
Lemma upd_list_ne L k w l k' w' : ~ (k' = k /\ w' = w) -> upd_list L k w l k' w' = L k' w'.
Proof. unfold upd_list. by case_decide. Qed.

Definition remove_addr (a : Z) (l : list Z) : list Z := filter (fun b => b <> a) l.

Lemma remove_addr_middle l1 a l2 : NoDup (l1 ++ a :: l2) -> remove_addr a (l1 ++ a :: l2) = l1 ++ l2.
Proof.
  intros (H1 & H2 & _)%NoDup_middle. unfold remove_addr. rewrite filter_app, filter_cons.
  destruct (decide (a <> a)); [done|].
  assert (Hid : forall l : list Z, a ∉ l -> filter (fun b => b <> a) l = l).
  { induction l as [|b l IH]; [done|]. intros Hn. rewrite filter_cons.
    destruct (decide (b <> a)); [rewrite IH; set_solver|set_solver]. }
  by rewrite !Hid.
Qed.

Lemma elem_of_remove_addr a b l : b ∈ remove_addr a l <-> b ∈ l /\ b <> a.
Proof. unfold remove_addr. rewrite list_elem_of_filter. tauto. Qed.

Definition lists_disj (L : Z -> slab_list -> list Z) : Prop :=
  forall k w k' w' a, a ∈ L k w -> a ∈ L k' w' -> k = k' /\ w = w'.

Lemma list_head_with_head w w' x c :
  list_head w' (with_head w x c) = if decide (w' = w) then x else list_head w' c.
Proof. by destruct w, w'. Qed.

Lemma geom_caches (cs : gmap Z slab_cache) k c w x : cs !! k = Some c -> geom <$> <[k := with_head w x c]> cs = geom <$> cs.
Proof.
  intros Hc. rewrite fmap_insert, geom_with_head. apply insert_id. by rewrite lookup_fmap, Hc.
Qed.

(** Replacing one list of one cache. *)
Lemma lists_ok_upd hs hs' cs L k c w l hd :
  lists_ok hs cs L -> cs !! k = Some c -> dll hs' l hd ->
  (forall k' w' b, ~ (k' = k /\ w' = w) -> b ∈ L k' w' -> hs' !! b = hs !! b) ->
  lists_ok hs' (<[k := with_head w hd c]> cs) (upd_list L k w l).
Proof.
  intros Hok Hc Hd Hfr k' c' w' Hc'.
  assert (Hold : forall c0, cs !! k' = Some c0 -> ~ (k' = k /\ w' = w) -> dll hs' (L k' w') (list_head w' c0)).
  { intros c0 H0 Hne. eapply dll_frame; [|by apply Hok]. intros b Hb. by eapply Hfr. }
  destruct (decide (k' = k)) as [->|Hk].
  - rewrite lookup_insert_eq in Hc'. injection Hc' as <-. rewrite list_head_with_head.
    destruct (decide (w' = w)) as [->|Hw]; [by rewrite upd_list_eq|].
    rewrite upd_list_ne by naive_solver. apply Hold; [done|naive_solver].
  - rewrite lookup_insert_ne in Hc' by done. rewrite upd_list_ne by naive_solver.
    apply Hold; [done|naive_solver].
Qed.

Lemma list_remove_spec s L k c w a :
  lists_ok (headers s) (caches s) L -> lists_disj L -> caches s !! k = Some c -> a ∈ L k w ->
  exists hs hd, slab_list_remove s k w a
      = Some (with_caches (with_headers s hs) (<[k := with_head w hd c]> (caches s))) /\
    lists_ok hs (<[k := with_head w hd c]> (caches s)) (upd_list L k w (remove_addr a (L k w))) /\
    unlinked <$> hs = unlinked <$> headers s.
Proof.
  intros Hok Hdj Hc Ha. pose proof (Hok k c w Hc) as Hd. pose proof Hd as [_ Hnd].
  apply list_elem_of_split in Ha as (l1 & l2 & Hl). rewrite Hl in Hd, Hnd.
  destruct (dll_remove_spec _ _ _ _ _ Hd) as (hs & hd & Hrun & Hd' & Hfr & Hsp).
  exists hs, hd. unfold slab_list_remove. rewrite Hc. cbn [mbind option_bind]. rewrite Hrun.
  split; [done|]. split; [|done]. rewrite Hl, remove_addr_middle by done.
  eapply lists_ok_upd; [done|done|done|]. intros k' w' b Hne Hb. apply Hfr. rewrite <- Hl.
  intros Hb'. apply Hne. eapply Hdj; done.
Qed.

Lemma list_push_spec s L k c w a :
  lists_ok (headers s) (caches s) L -> caches s !! k = Some c -> a <> NULL ->
  (forall k' w', a ∉ L k' w') -> lists_disj L -> is_Some (headers s !! a) ->
  exists hs, slab_list_push s k w a
      = Some (with_caches (with_headers s hs) (<[k := with_head w a c]> (caches s))) /\
    lists_ok hs (<[k := with_head w a c]> (caches s)) (upd_list L k w (a :: L k w)) /\
    unlinked <$> hs = unlinked <$> headers s.
Proof.
  intros Hok Hc Hnz Hna Hdj Hs. pose proof (Hok k c w Hc) as Hd.
  destruct (dll_push_spec _ _ _ a Hd) as (hs & Hrun & Hd' & Hfr & Hsp); [done|done|done|].
  exists hs. unfold slab_list_push. rewrite Hc. cbn [mbind option_bind]. rewrite Hrun.
  split; [done|]. split; [|done]. eapply lists_ok_upd; [done|done|done|].
  intros k' w' b Hne Hb. apply Hfr. intros [->|Hb']%elem_of_cons; [by eapply Hna|].
  apply Hne. eapply Hdj; done.
Qed.

(** Changing payloads but no pointer keeps the lists. *)
Lemma lists_ok_links hs hs' cs L :
  (forall a n, hs !! a = Some n ->
     exists n', hs' !! a = Some n' /\ h_next n' = h_next n /\ h_prev n' = h_prev n) ->
  lists_ok hs cs L -> lists_ok hs' cs L.
Proof.
  intros Hl Hok k c w Hc. destruct (Hok k c w Hc) as [Hseg Hnd]. split; [|done]. clear Hnd.
  revert Hseg. generalize NULL at 1 3 as p. generalize (list_head w c) as hd.
  induction (L k w) as [|a l IH]; intros hd p; simpl; [done|].
  intros (-> & Hnz & n & Hn & Hp & Hseg). split; [done|]. split; [done|].
  destruct (Hl a n Hn) as (n' & Hn' & Hnx & Hpv). exists n'. split; [done|].
  rewrite Hnx, Hpv. split; [done|]. by apply IH.
Qed.

Lemma lists_ok_links_on hs hs' cs L :
  (forall k w a, a ∈ L k w -> hs' !! a = hs !! a) -> lists_ok hs cs L -> lists_ok hs' cs L.
Proof. intros Hag Hok k c w Hc. eapply dll_frame; [|by apply Hok]. intros a Ha. by eapply Hag. Qed.

(** ** Pages and blocks *)

Lemma page_blocks_insert A a pg :
  A !! a = None -> page_blocks (<[a := pg]> A) ≡ₚ (pg_frame pg, pg_order pg) :: page_blocks A.
Proof. intros Ha. unfold page_blocks. by rewrite map_to_list_insert by done. Qed.

Lemma page_blocks_delete A a pg :
  A !! a = Some pg -> page_blocks A ≡ₚ (pg_frame pg, pg_order pg) :: page_blocks (delete a A).
Proof.
  intros Ha. rewrite <- page_blocks_insert by apply lookup_delete_eq.
  by rewrite insert_delete_id by done.
Qed.

Lemma page_blocks_update A a pg pg' :
  A !! a = Some pg -> pg_frame pg' = pg_frame pg -> pg_order pg' = pg_order pg ->
  page_blocks (<[a := pg']> A) ≡ₚ page_blocks A.
Proof.
  intros Ha Hf Ho. rewrite (page_blocks_delete A a pg) by done.
  rewrite <- insert_delete_eq, page_blocks_insert by apply lookup_delete_eq. by rewrite Hf, Ho.
Qed.

Definition all_slots (pg : page) : list Z := pg_free pg ++ pg_remote pg ++ pg_live pg ++ pg_slot pg.

Lemma page_ok_frame G ws ws' b pg :
  (forall x, x ∈ pg_free pg ++ pg_remote pg ++ pg_slot pg -> ws' !! x = ws !! x) -> page_ok G ws b pg -> page_ok G ws' b pg.
Proof.
  intros Hag (Hb & H1 & H2 & c & HG & Ho & Hg & Hp & H3 & Hl).
  assert (Hch : forall l, chain ws l -> (forall x, x ∈ l -> x ∈ pg_free pg ++ pg_remote pg ++ pg_slot pg) -> chain ws' l).
  { intros l Hc Hin. eapply chain_frame; [|exact Hc]. auto. }
  split; [done|]. split; [apply Hch; [done|set_solver]|]. split; [apply Hch; [done|set_solver]|].
  exists c. do 4 (split; [done|]). split; [apply Hch; [done|set_solver]|done].
Qed.

Section pages.
Context (T : Z) (U : Z -> Prop) (rest : list (Z * Z)) (G : gmap Z slab_cache).
Abbreviation inv := (slab_inv T U rest G).

Lemma header_at s A L a pg :
  inv s A L -> A !! a = Some pg -> exists h, headers s !! a = Some h /\ unlinked h = hdr pg.
Proof.
  intros Hi Ha. assert (Hl : (unlinked <$> headers s) !! a = Some (hdr pg)).
  { by rewrite (si_hdr _ _ _ _ _ _ _ Hi), lookup_fmap, Ha. }
  rewrite lookup_fmap, fmap_Some in Hl. destruct Hl as (h & ? & ?). by exists h.
Qed.

Lemma cache_at s A L a pg :
  inv s A L -> A !! a = Some pg ->
  exists c, caches s !! pg_cache pg = Some c /\ G !! pg_cache pg = Some (geom c) /\
    geom_ok c /\ pg_order pg = slab_order c /\ pg_cache pg <> NULL.
Proof.
  intros Hi Ha. destruct (si_page _ _ _ _ _ _ _ Hi a pg Ha) as (_ & _ & _ & c & Hc & Ho & Hg & _).
  pose proof Hc as Hc'. rewrite <- (si_geom _ _ _ _ _ _ _ Hi), lookup_fmap, fmap_Some in Hc'.
  destruct Hc' as (c0 & Hc0 & ->). exists c0. split; [done|]. split; [done|]. split; [done|].
  split; [done|]. intros Hn. rewrite Hn, (si_null _ _ _ _ _ _ _ Hi) in Hc. done.
Qed.

Lemma page_block_ok s A L a pg :
  inv s A L -> A !! a = Some pg ->
  block_ok T (pg_order pg) (pg_frame pg) /\ T <= MAX_FRAMES.
Proof.
  intros Hi Ha. destruct (si_div _ _ _ _ _ _ _ Hi) as (F & HiF & _ & HT & Hl & _).
  rewrite (page_blocks_delete A a pg) in Hl by done. inversion Hl; subst. split; [done|]. apply HiF.
Qed.

Lemma page_addr s A L a pg : inv s A L -> A !! a = Some pg -> a <> NULL /\ HHDM_OFFSET <= a.
Proof.
  intros Hi Ha. destruct (si_page _ _ _ _ _ _ _ Hi a pg Ha) as (-> & _).
  destruct (page_block_ok s A L (vaddr (pg_frame pg)) pg Hi Ha) as [Hb HT].
  destruct (block_small _ _ _ HT Hb) as (_ & Hf & _).
  split; [by apply vaddr_nonnull|]. by apply vaddr_range.
Qed.

Lemma pages_disjoint s A L a pg b pg' :
  inv s A L -> A !! a = Some pg -> A !! b = Some pg' -> a <> b ->
  disjoint_blocks (pg_order pg) (pg_frame pg) (pg_order pg') (pg_frame pg').
Proof.
  intros Hi Ha Hb Hne. destruct (page_block_ok _ _ _ _ _ Hi Ha) as [Hba _].
  destruct (page_block_ok _ _ _ _ _ Hi Hb) as [Hbb _].
  destruct (si_div _ _ _ _ _ _ _ Hi) as (F & _ & _ & _ & _ & Hnd & _).
  rewrite (page_blocks_delete A a pg) in Hnd by done.
  rewrite (page_blocks_delete (delete a A) b pg') in Hnd by by rewrite lookup_delete_ne.
  unfold owned_frames in Hnd. cbn [app] in Hnd. rewrite !bind_cons in Hnd.
  apply NoDup_app in Hnd as (_ & Hdj & _). cbn [fst snd] in *.
  destruct Hba as ((? & _) & ? & _), Hbb as ((? & _) & ? & _).
  pose proof (pow2_pos (pg_order pg) ltac:(done)). pose proof (pow2_pos (pg_order pg') ltac:(done)).
  unfold disjoint_blocks. set (x := Z.max (pg_frame pg) (pg_frame pg')).
  destruct (decide (pg_frame pg <= x < pg_frame pg + 2 ^ pg_order pg)) as [Hx|]; [|lia].
  specialize (Hdj x). rewrite elem_of_app, !elem_of_seqZ in Hdj. lia.
Qed.

(** Slots of different pages are different addresses, and no slot is NULL. *)
Lemma slots_apart s A L a pg b pg' x :
  inv s A L -> A !! a = Some pg -> A !! b = Some pg' -> a <> b ->
  x ∈ pg_free pg ++ pg_remote pg ++ pg_live pg ++ pg_slot pg -> x ∉ pg_free pg' ++ pg_remote pg' ++ pg_live pg' ++ pg_slot pg'.
Proof.
  intros Hi Ha Hb Hne. pose proof (pages_disjoint _ _ _ _ _ _ _ Hi Ha Hb Hne) as Hdj.
  destruct (si_page _ _ _ _ _ _ _ Hi a pg Ha) as (-> & _ & _ & c & _ & Ho & Hg & -> & _).
  destruct (si_page _ _ _ _ _ _ _ Hi b pg' Hb) as (-> & _ & _ & c' & _ & Ho' & Hg' & -> & _).
  intros Hx Hx'. apply (slots_range _ _ _ Hg) in Hx. apply (slots_range _ _ _ Hg') in Hx'.
  destruct Hg as (_ & ? & _), Hg' as (_ & ? & _). rewrite Ho, Ho' in *. unfold SLAB_HEADER_SIZE in *.
  unfold disjoint_blocks, vaddr in *. rewrite PAGE_SIZE_val in *. lia.
Qed.

Lemma inv_disj s A L : inv s A L -> lists_disj L.
Proof.
  intros Hi k w k' w' a. rewrite !(si_mem _ _ _ _ _ _ _ Hi).
  intros (pg & Hpg & <- & Hw) (pg' & Hpg' & <- & Hw'). split; congruence.
Qed.

(** ** One page changes *)

Lemma set_page s A L a pg pg' h h' ws' :
  inv s A L -> A !! a = Some pg -> headers s !! a = Some h ->
  h_next h' = h_next h -> h_prev h' = h_prev h -> unlinked h' = hdr pg' ->
  pg_cache pg' = pg_cache pg -> pg_order pg' = pg_order pg -> pg_frame pg' = pg_frame pg ->
  (forall w, pg_on pg' = OnList w <-> pg_on pg = OnList w) ->
  (forall x, x ∉ all_slots pg -> ws' !! x = words s !! x) -> page_ok G ws' a pg' ->
  inv (with_words (with_headers s (<[a := h']> (headers s))) ws') (<[a := pg']> A) L.
Proof.
  intros Hi Ha Hh Hn Hp Hu Hc Ho Hf Hon Hws Hok. destruct Hi as [Hd Hg Hnl Hhd Hpg Hls Hmem Htr Hown Hfree Hrep].
  assert (Hi : inv s A L) by by constructor.
  constructor; cbn [sl_buddy caches headers words trackers heads double_allocs with_words with_headers]; try done.
  - eapply divided_perm; [|exact Hd]. by rewrite (page_blocks_update A a pg).
  - by rewrite fmap_insert, Hu, Hhd, fmap_insert.
  - intros b pgb. destruct (decide (b = a)) as [->|Hne].
    + rewrite lookup_insert_eq. by intros [= <-].
    + rewrite lookup_insert_ne by done. intros Hb. eapply page_ok_frame; [|by apply Hpg].
      intros x Hx. apply Hws. intros Hx'. eapply (slots_apart s A L a pg b pgb x); [done..|set_solver].
  - eapply lists_ok_links; [|exact Hls]. intros b n Hb. destruct (decide (b = a)) as [->|Hne].
    + rewrite lookup_insert_eq. exists h'. assert (n = h) as -> by congruence. done.
    + rewrite lookup_insert_ne by done. by exists n.
  - intros k w b. rewrite Hmem. destruct (decide (b = a)) as [->|Hne].
    + rewrite lookup_insert_eq, Ha. split; intros (pg0 & [= <-] & H1 & H2); eexists; (split; [done|]); (split; [congruence|by apply Hon]).
    + by rewrite lookup_insert_ne by done.
  - intros f b pgb. destruct (decide (b = a)) as [->|Hne].
    + rewrite lookup_insert_eq. intros [= <-]. unfold in_page. rewrite Hf, Ho, Hc. by apply (Hown f a).
    + rewrite lookup_insert_ne by done. apply Hown.
  - intros f Hft Hno. apply Hfree; [done|]. intros b pgb Hb. destruct (decide (b = a)) as [->|Hne].
    + assert (pgb = pg) as -> by congruence. specialize (Hno a pg'). rewrite lookup_insert_eq in Hno.
      unfold in_page in *. rewrite Hf, Ho in Hno. by apply Hno.
    + apply (Hno b). by rewrite lookup_insert_ne.
Qed.

Definition with_place (p : place) (pg : page) : page :=
  Page (pg_cache pg) (pg_order pg) (pg_frame pg) (pg_free pg) (pg_remote pg) (pg_live pg) p (pg_slot pg) (pg_lost pg).

Abbreviation lse := (loose T U rest G).

Lemma loose_place s A L a pg p : lse s A L a pg -> lse s A L a (with_place p pg).
Proof. intros []. by constructor. Qed.

Lemma loose_disj s A L a pg : lse s A L a pg -> lists_disj L.
Proof.
  intros Hi k w k' w' b. rewrite !(lo_mem _ _ _ _ _ _ _ _ _ Hi).
  intros (pgb & Hb & <- & Hw) (pgb' & Hb' & <- & Hw'). split; congruence.
Qed.

(** A page that is on no list. *)
Lemma loose_intro s A L a pg :
  inv s A L -> A !! a = Some pg -> (forall w, pg_on pg <> OnList w) -> lse s (delete a A) L a pg.
Proof.
  intros [Hd Hg Hnl Hhd Hpg Hls Hmem Htr Hown Hfree Hrep] Ha Hon.
  constructor; try done.
  - apply lookup_delete_eq.
  - eapply divided_perm; [|exact Hd]. by rewrite (page_blocks_delete A a pg).
  - by rewrite fmap_delete, Hhd, fmap_delete.
  - intros b pgb (? & Hb)%lookup_delete_Some. by apply Hpg.
  - by apply Hpg.
  - intros k w b. rewrite Hmem. split; intros (pgb & Hb & Hk & Hw).
    + exists pgb. rewrite lookup_delete_ne; [done|]. intros <-. apply (Hon w). congruence.
    + apply lookup_delete_Some in Hb as [_ Hb]. by exists pgb.
  - intros f b pgb (? & Hb)%lookup_delete_Some. by apply (Hown f b).
  - intros f. by apply (Hown f a).
  - intros f Hf Hno Hnf. apply Hfree; [done|]. intros b pgb Hb. destruct (decide (b = a)) as [->|Hne]; [congruence|].
    apply (Hno b). by rewrite lookup_delete_ne.
Qed.

(** Taking a page off its list. *)
Lemma unlink_page s A L a pg w :
  inv s A L -> A !! a = Some pg -> pg_on pg = OnList w ->
  exists s' L' h, slab_list_remove s (pg_cache pg) w a = Some s' /\ lse s' (delete a A) L' a pg /\
    headers s' !! a = Some h /\ unlinked h = hdr pg /\ words s' = words s /\ rcu_callbacks s' = rcu_callbacks s /\
    sl_buddy s' = sl_buddy s.
Proof.
  intros Hi Ha Hon. pose proof (inv_disj _ _ _ Hi) as Hdj.
  destruct (cache_at _ _ _ _ _ Hi Ha) as (c & Hc & _). destruct (header_at _ _ _ _ _ Hi Ha) as (h0 & Hh0 & Hu0).
  destruct Hi as [Hd Hg Hnl Hhd Hpg Hls Hmem Htr Hown Hfree Hrep].
  assert (Hin : a ∈ L (pg_cache pg) w) by (apply Hmem; by exists pg).
  destruct (list_remove_spec s L (pg_cache pg) c w a Hls Hdj Hc Hin) as (hs1 & hd1 & Hrun & Hls1 & Hu1).
  set (L1 := upd_list L (pg_cache pg) w (remove_addr a (L (pg_cache pg) w))) in *.
  assert (HL1 : forall k' w' b, b ∈ L1 k' w' <-> b ∈ L k' w' /\ b <> a).
  { intros k' w0 b. unfold L1. destruct (decide (k' = pg_cache pg /\ w0 = w)) as [[-> ->]|Hne].
    - by rewrite upd_list_eq, elem_of_remove_addr.
    - rewrite upd_list_ne by done. split; [|tauto]. intros Hb. split; [done|]. intros ->.
      apply Hne. by eapply Hdj. }
  assert (Hl : (unlinked <$> hs1) !! a = Some (hdr pg)).
  { rewrite Hu1, lookup_fmap, Hh0. simpl. by f_equal. }
  rewrite lookup_fmap, fmap_Some in Hl. destruct Hl as (h1 & Hh1 & Hu).
  eexists _, L1, h1. split; [exact Hrun|]. split; [|by split_and!].
  constructor; cbn [sl_buddy caches headers words trackers heads double_allocs with_headers with_caches]; try done.
  - apply lookup_delete_eq.
  - eapply divided_perm; [|exact Hd]. by rewrite (page_blocks_delete A a pg).
  - by rewrite geom_caches.
  - by rewrite fmap_delete, Hu1, Hhd, fmap_delete.
  - intros b pgb (? & Hb)%lookup_delete_Some. by apply Hpg.
  - by apply Hpg.
  - intros k' w0 b. rewrite HL1, Hmem. split.
    + intros [(pgb & Hb & ?) Hne]. exists pgb. by rewrite lookup_delete_ne.
    + intros (pgb & [? Hb]%lookup_delete_Some & ?). split; [by exists pgb|done].
  - intros f b pgb (? & Hb)%lookup_delete_Some. by apply (Hown f b).
  - intros f. by apply (Hown f a).
  - intros f Hf Hno Hnf. apply Hfree; [done|]. intros b pgb Hb. destruct (decide (b = a)) as [->|Hne]; [congruence|].
    apply (Hno b). by rewrite lookup_delete_ne.
Qed.

(** The lookup of the table with the page put back. *)
Lemma restored_lookup (P : Z -> page -> Prop) (A : gmap Z page) a pg :
  P a pg -> (forall b pgb, A !! b = Some pgb -> P b pgb) ->
  forall b pgb, <[a := pg]> A !! b = Some pgb -> P b pgb.
Proof.
  intros Ha HA b pgb. destruct (decide (b = a)) as [->|Hne].
  - rewrite lookup_insert_eq. by intros [= <-].
  - rewrite lookup_insert_ne by done. apply HA.
Qed.

(** Putting a page on a list. *)
Lemma link_page s A L a pg w h :
  lse s A L a pg -> a <> NULL -> headers s !! a = Some h ->
  with_on_list (list_kind w) (unlinked h) = hdr pg -> pg_on pg = OnList w ->
  exists s' L', park s (pg_cache pg) w a = Some s' /\ inv s' (<[a := pg]> A) L' /\ words s' = words s /\
    sl_buddy s' = sl_buddy s.
Proof.
  intros Hlo Hnz Hh Hu Hon. pose proof (loose_disj _ _ _ _ _ Hlo) as Hdj.
  destruct Hlo as [Ha Hd Hg Hnl Hhd Hpg Hthis Hls Hmem Htr Hown Hown' Hfree Hrep].
  assert (exists c, caches s !! pg_cache pg = Some c) as [c Hc].
  { destruct Hthis as (_ & _ & _ & c & HG & _). rewrite <- Hg, lookup_fmap, fmap_Some in HG.
    destruct HG as (c0 & ? & _). by exists c0. }
  assert (Hna : forall k' w', a ∉ L k' w') by (intros k' w'; rewrite Hmem; intros (? & ? & _); congruence).
  destruct (list_push_spec s L (pg_cache pg) c w a) as (hs & Hrun & Hls' & Hus); [done..|by eexists|].
  unfold park. rewrite Hrun. cbn [mbind option_bind]. unfold upd_header. cbn [headers with_caches with_headers].
  assert (Hl : (unlinked <$> hs) !! a = Some (unlinked h)) by by rewrite Hus, lookup_fmap, Hh.
  rewrite lookup_fmap, fmap_Some in Hl. destruct Hl as (h' & Hh' & Hu'). rewrite Hh'. cbn [mbind option_bind].
  eexists _, (upd_list L (pg_cache pg) w (a :: L (pg_cache pg) w)). split; [done|]. split; [|done].
  constructor; cbn [sl_buddy caches headers words trackers heads double_allocs with_headers with_caches]; try done.
  - eapply divided_perm; [|exact Hd]. by rewrite page_blocks_insert.
  - by rewrite geom_caches.
  - rewrite fmap_insert, Hus. rewrite fmap_delete in Hhd.
    rewrite fmap_insert, <- Hhd, insert_delete_eq. f_equal. rewrite <- Hu, Hu'. by destruct h'.
  - apply restored_lookup; done.
  - eapply lists_ok_links; [|exact Hls']. intros b n Hb. destruct (decide (b = a)) as [->|Hne].
    + rewrite lookup_insert_eq. assert (n = h') as -> by congruence. by eexists.
    + rewrite lookup_insert_ne by done. by exists n.
  - intros k' w0 b. unfold upd_list at 1. destruct (decide (b = a)) as [->|Hne].
    + rewrite lookup_insert_eq. case_decide as Hkw.
      * destruct Hkw as [-> ->]. split; [|set_solver]. intros _. by exists pg.
      * split; [intros Hx; by apply Hna in Hx|]. intros (pg0 & [= <-] & H1 & H2).
        exfalso. apply Hkw. split; congruence.
    + rewrite lookup_insert_ne by done. rewrite <- Hmem. case_decide as Hkw; [|done].
      destruct Hkw as [-> ->]. rewrite elem_of_cons. tauto.
  - intros f. apply (restored_lookup (fun b pgb => in_page pgb f -> _)); [by apply Hown'|]. intros b pgb Hb. by apply (Hown f b).
  - intros f Hf Hno. apply Hfree; [done| |].
    + intros b pgb Hb. apply (Hno b). rewrite lookup_insert_ne; congruence.
    + apply (Hno a). apply lookup_insert_eq.
Qed.

(** From one list to another. *)
Lemma move_page s A L a pg w w' :
  inv s A L -> A !! a = Some pg -> pg_on pg = OnList w ->
  exists s' L', (s ← slab_list_remove s (pg_cache pg) w a; park s (pg_cache pg) w' a) = Some s' /\
    inv s' (<[a := with_place (OnList w') pg]> A) L' /\ words s' = words s /\ sl_buddy s' = sl_buddy s.
Proof.
  intros Hi Ha Hon. destruct (page_addr _ _ _ _ _ Hi Ha) as [Hnz _].
  destruct (unlink_page _ _ _ _ _ _ Hi Ha Hon) as (s1 & L1 & h & -> & Hlo & Hh & Hu & Hw & _ & Hb). cbn [mbind option_bind].
  apply (loose_place _ _ _ _ _ (OnList w')) in Hlo.
  destruct (link_page _ _ _ _ _ w' h Hlo) as (s2 & L2 & Hrun & Hi2 & Hw2 & Hb2); [done|done|by rewrite Hu|done|].
  exists s2, L2. split; [done|]. rewrite insert_delete_eq in Hi2. split; [done|]. split; congruence.
Qed.
End pages.

(** ** Objects of a page *)

Definition with_slots (fr re li : list Z) (pg : page) : page :=
  Page (pg_cache pg) (pg_order pg) (pg_frame pg) fr re li (pg_on pg) (pg_slot pg) (pg_lost pg).

(** The page with the objects freed remotely merged into its free list. *)
Definition drained (pg : page) : page := with_slots (pg_remote pg ++ pg_free pg) [] (pg_live pg) pg.

Lemma set_frames_spec n : forall s f t hd,
  0 <= f -> f + Z.of_nat n <= total_frames (sl_buddy s) ->
  (forall x, f <= x < f + Z.of_nat n -> is_Some (trackers s !! x) /\ is_Some (heads s !! x)) ->
  exists t' h', set_frames s n f t hd = Some (with_frames s t' h') /\
    (forall x, t' !! x = if decide (f <= x < f + Z.of_nat n) then Some t else trackers s !! x) /\
    (forall x, h' !! x = if decide (f <= x < f + Z.of_nat n) then Some hd else heads s !! x).
Proof.
  induction n as [|n IH]; intros s f t hd Hf Hn Hdom; cbn [set_frames].
  { exists (trackers s), (heads s). split; [by destruct s|].
    split; intros x; case_decide; (done || lia). }
  destruct (Z.leb_spec (total_frames (sl_buddy s)) f); [lia|].
  destruct (Hdom f) as [[t0 Ht0] [h0 Hh0]]; [lia|]. rewrite Ht0. cbn [mbind option_bind]. rewrite Hh0.
  cbn [mbind option_bind].
  destruct (IH (with_frames s (<[f := t]> (trackers s)) (<[f := hd]> (heads s))) (f + 1) t hd)
    as (t' & h' & Hrun & Ht & Hh); [lia|cbn; lia| |].
  { intros x Hx. cbn. rewrite !lookup_insert_ne by lia. apply Hdom. lia. }
  rewrite Hrun. exists t', h'. split; [done|]. cbn in Ht, Hh.
  split; intros x; rewrite ?Ht, ?Hh; destruct (decide (x = f)) as [->|Hne];
    rewrite ?lookup_insert_eq, ?lookup_insert_ne by done; repeat case_decide; (done || lia).
Qed.

(** Equality of the pointer-free parts of two headers. *)
Ltac solve_hdr h :=
  unfold unlinked, hdr, with_slots, h_links, with_inuse, with_freelist, with_remote, with_on_list in *;
  cbn [set_next set_prev slab_header_linked] in *; unfold h_links in *;
  destruct h; cbn in *; subst; f_equal; try lia.

(** Carving threads the slots in address order. *)
Lemma carve_spec n : forall s base size l0,
  8 <= size -> 0 < base -> chain (words s) l0 ->
  (forall i, 0 <= i < Z.of_nat n -> base + i * size ∉ l0) ->
  exists ws', carve s base size n (first l0)
      = (with_words s ws', first (((fun i => base + i * size) <$> seqZ 0 (Z.of_nat n)) ++ l0)) /\
    chain ws' (((fun i => base + i * size) <$> seqZ 0 (Z.of_nat n)) ++ l0) /\
    (forall x, x ∉ (fun i => base + i * size) <$> seqZ 0 (Z.of_nat n) -> ws' !! x = words s !! x).
Proof.
  induction n as [|n IH]; intros s base size l0 Hs Hb Hc Hn; cbn [carve].
  { exists (words s). by destruct s. }
  set (slot := base + Z.of_nat n * size).
  assert (Hseq : seqZ 0 (Z.of_nat (S n)) = seqZ 0 (Z.of_nat n) ++ [Z.of_nat n]).
  { replace (Z.of_nat (S n)) with (Z.of_nat n + 1) by lia. rewrite seqZ_app by lia. done. }
  assert (Hlist : ((fun i => base + i * size) <$> seqZ 0 (Z.of_nat (S n))) ++ l0
    = ((fun i => base + i * size) <$> seqZ 0 (Z.of_nat n)) ++ slot :: l0).
  { by rewrite Hseq, fmap_app, <- app_assoc. }
  destruct (IH (store_word s slot (first l0)) base size (slot :: l0)) as (ws' & Hrun & Hc' & Hfr); [done|done| | |].
  - cbn [chain store_word words with_words]. split; [unfold slot, NULL; nia|].
    split; [apply lookup_insert_eq|]. eapply chain_frame; [|done]. intros x Hx. apply lookup_insert_ne.
    intros <-. apply (Hn (Z.of_nat n)); [lia|done].
  - intros i Hi. rewrite elem_of_cons. intros [He|Hin]; [unfold slot in He; nia|].
    apply (Hn i); [lia|done].
  - rewrite first_cons in Hrun. exists ws'. rewrite Hlist. split; [done|]. split; [done|].
    intros x Hx. rewrite Hseq, fmap_app in Hx. rewrite Hfr by set_solver. cbn [store_word words with_words].
    apply lookup_insert_ne. intros <-. apply Hx. apply elem_of_app. right. cbn. set_solver.
Qed.
Section ops.
Context (T : Z) (U : Z -> Prop) (rest : list (Z * Z)) (G : gmap Z slab_cache).
Abbreviation inv := (slab_inv T U rest G).

Lemma slots_length s A L a pg :
  inv s A L -> A !! a = Some pg -> (length (all_slots pg) <= 4096)%nat /\ NoDup (all_slots pg).
Proof.
  intros Hi Ha. destruct (si_page _ _ _ _ _ _ _ Hi a pg Ha) as (_ & _ & _ & c & _ & _ & Hg & Hp & _).
  pose proof (num_slots_bounds c Hg). pose proof (length_slots c a Hg). fold (all_slots pg) in Hp.
  rewrite Hp. split; [lia|]. by apply NoDup_slots.
Qed.

(** The fields of the header of a page. *)
Lemma hdr_fields h pg : unlinked h = hdr pg ->
  h_cache h = pg_cache pg /\ h_slab_phys h = pg_frame pg * PAGE_SIZE /\ h_freelist h = first (pg_free pg) /\
  h_inuse h = Z.max 0 (Z.of_nat (length (pg_live pg) + length (pg_remote pg) + length (pg_slot pg)) - pg_lost pg) /\
  h_on_list h = place_kind (pg_on pg) /\ h_remote_free h = first (pg_remote pg).
Proof. unfold unlinked, hdr. destruct h. cbn. by intros [= -> -> -> -> -> ->]. Qed.

Lemma drain_spec s A L a pg :
  inv s A L -> A !! a = Some pg ->
  exists s', drain_remote_into_freelist_locked s a = Some s' /\ inv s' (<[a := drained pg]> A) L /\
    caches s' = caches s /\ trackers s' = trackers s /\ heads s' = heads s /\ sl_buddy s' = sl_buddy s.
Proof.
  intros Hi Ha. destruct (header_at _ _ _ _ _ _ _ _ _ Hi Ha) as (h & Hh & Hu).
  destruct (hdr_fields h pg Hu) as (Hf1 & Hf2 & Hf3 & Hf4 & Hf5 & Hf6).
  destruct (si_page _ _ _ _ _ _ _ Hi a pg Ha) as (Haddr & Hc1 & Hc2 & c & HG & Ho & Hg & Hp & Hc3 & Hlost).
  destruct (slots_length _ _ _ _ _ Hi Ha) as [Hlen Hnd].
  unfold drain_remote_into_freelist_locked. rewrite Hh. cbn [mbind option_bind]. unfold upd_header.
  rewrite Hh. cbn [mbind option_bind]. rewrite Hf6.
  destruct (pg_remote pg) as [|x rl] eqn:Er.
  { change (first []) with NULL. rewrite Z.eqb_refl. eexists. split; [done|]. split; [|done].
    change (with_headers s ?m) with (with_words (with_headers s m) (words s)).
    eapply set_page; try done.
    - unfold drained. rewrite Er. solve_hdr h.
    - split; [done|]. unfold drained, with_slots. cbn [pg_free pg_remote pg_live pg_cache pg_order]. rewrite Er.
      split; [done|]. split; [done|]. exists c. exact (conj HG (conj Ho (conj Hg (conj Hp (conj Hc3 Hlost))))). }
  rewrite first_cons. pose proof Hc2 as (Hxn & _). destruct (Z.eqb_spec x NULL); [done|].
  cbn [words with_headers]. unfold all_slots in Hlen, Hnd. rewrite Er, !length_app in Hlen. cbn [length] in Hlen.
  destruct (walk_tail_spec (words s) rl x MAX_SLOTS 1 Hc2) as (y & Hlast & ->).
  { unfold MAX_SLOTS. lia. }
  cbn [mbind option_bind]. apply last_Some in Hlast as (l1 & Hl1).
  rewrite Hf4. cbn [length]. set (inuse := if _ <=? _ then _ else _).
  assert (Hin : inuse = Z.max 0 (Z.of_nat (length (pg_live pg) + 0 + length (pg_slot pg)) - pg_lost pg)).
  { unfold inuse. destruct Hlost. zbool; simpl; lia. }
  clearbody inuse. subst inuse. cbn [headers store_word with_words with_headers]. rewrite lookup_insert_eq.
  cbn [mbind option_bind]. eexists. split; [done|]. split; [|done]. rewrite insert_insert_eq.
  rewrite Hf3. unfold store_word. cbn [words with_headers].
  change (with_headers (with_words (with_headers s ?m1) ?w) ?m2) with (with_words (with_headers s m2) w).
  eapply set_page; try done.
  - unfold drained. rewrite Er. solve_hdr h.
  - intros z Hz. apply lookup_insert_ne. intros <-. apply Hz. unfold all_slots. rewrite Er, Hl1, !elem_of_app, list_elem_of_singleton. tauto.
  - split; [done|]. unfold drained, with_slots. cbn [pg_free pg_remote pg_live pg_cache pg_order]. rewrite Er.
    split; [|split; [done|]].
    + rewrite Er in Hnd. rewrite Hl1 in *. apply NoDup_app in Hnd as (_ & Hdj & Hnd2). apply NoDup_app in Hnd2 as (Hnd2 & _).
      apply chain_append; [done|done|done|]. intros z Hz Hz'. apply (Hdj z Hz'), elem_of_app. by left.
    + exists c. do 3 (split; [done|]). split; [rewrite <- Hp|split; [|done]].
      * rewrite <- app_assoc. apply Permutation_app_swap_app.
      * rewrite Er, Hl1, !app_assoc in Hnd. rewrite <- (app_assoc _ (pg_live pg)) in Hnd. apply NoDup_app in Hnd as (_ & Hdj & _).
        eapply chain_frame; [|exact Hc3]. intros z Hz. apply lookup_insert_ne. intros <-. apply (Hdj y); set_solver.
Qed.

(** ** Allocation from a page *)

Lemma pop_spec s A L a pg x fl :
  inv s A L -> A !! a = Some pg -> pg_free pg = x :: fl -> pg_lost pg = 0 ->
  words s !! x = Some (first fl) /\
  exists s', upd_header s a (fun h => with_inuse (u32 (h_inuse h + 1)) (with_freelist (first fl) h)) = Some s' /\
    inv s' (<[a := with_slots fl (pg_remote pg) (x :: pg_live pg) pg]> A) L /\ caches s' = caches s /\
    words s' = words s /\ sl_buddy s' = sl_buddy s.
Proof.
  intros Hi Ha Hfr Hl0. destruct (header_at _ _ _ _ _ _ _ _ _ Hi Ha) as (h & Hh & Hu).
  destruct (hdr_fields h pg Hu) as (Hf1 & Hf2 & Hf3 & Hf4 & Hf5 & Hf6).
  destruct (si_page _ _ _ _ _ _ _ Hi a pg Ha) as (Haddr & Hc1 & Hc2 & c & HG & Ho & Hg & Hp & Hc3 & Hlost).
  destruct (slots_length _ _ _ _ _ Hi Ha) as [Hlen _]. unfold all_slots in Hlen.
  rewrite Hfr in Hc1, Hp, Hlen. pose proof Hc1 as (_ & Hw & Hc1'). split; [done|].
  rewrite !length_app in Hlen. cbn [length] in Hlen. unfold upd_header. rewrite Hh. cbn [mbind option_bind].
  rewrite Hf4, u32_id by lia. eexists. split; [done|]. split; [|done].
  change (with_headers s ?m) with (with_words (with_headers s m) (words s)). eapply set_page; try done.
  - solve_hdr h.
  - split; [done|]. cbn [with_slots pg_free pg_remote pg_live pg_slot pg_cache pg_order].
    do 2 (split; [done|]). exists c. do 3 (split; [done|]). split; [|done]. rewrite <- Hp.
    cbn [app]. rewrite !app_assoc, <- (app_assoc _ _ (pg_slot pg)). cbn [app]. by rewrite <- Permutation_middle, <- app_assoc.
Qed.

(** ** Release to a page *)

Lemma push_spec s A L a pg x l1 l2 :
  inv s A L -> A !! a = Some pg -> pg_live pg = l1 ++ x :: l2 -> pg_remote pg = [] ->
  forall h, headers s !! a = Some h ->
  let inuse := if negb (h_inuse h =? 0) then h_inuse h - 1 else h_inuse h in
  exists s', upd_header (store_word s x (h_freelist h)) a (fun h => with_inuse inuse (with_freelist x h)) = Some s' /\
    inv s' (<[a := with_slots (x :: pg_free pg) [] (l1 ++ l2) pg]> A) L /\ caches s' = caches s /\
    headers s' !! a = Some (with_inuse inuse (with_freelist x h)) /\ sl_buddy s' = sl_buddy s.
Proof.
  intros Hi Ha Hlv Hre h Hh inuse. destruct (header_at _ _ _ _ _ _ _ _ _ Hi Ha) as (h0 & Hh0 & Hu).
  assert (h0 = h) as -> by congruence.
  destruct (hdr_fields h pg Hu) as (Hf1 & Hf2 & Hf3 & Hf4 & Hf5 & Hf6).
  destruct (si_page _ _ _ _ _ _ _ Hi a pg Ha) as (Haddr & Hc1 & Hc2 & c & HG & Ho & Hg & Hp & Hc3 & Hlost).
  destruct (slots_length _ _ _ _ _ Hi Ha) as [_ Hnd]. unfold all_slots in Hnd.
  rewrite Hlv, Hre in Hp, Hnd. cbn [app] in Hp, Hnd.
  assert (Hin : inuse = Z.max 0 (Z.of_nat (length (l1 ++ l2) + 0 + length (pg_slot pg)) - pg_lost pg)).
  { unfold inuse. rewrite Hf4, Hlv, Hre, !length_app. cbn [length]. destruct Hlost. zbool; simpl; lia. }
  destruct (page_addr _ _ _ _ _ _ _ _ _ Hi Ha) as [_ Haddr'].
  assert (Hxs : x ∈ slots c a) by (rewrite <- Hp; set_solver).
  assert (Hxf : x ∉ pg_free pg).
  { apply NoDup_app in Hnd as (_ & Hdj & _). intros Hx. apply (Hdj x Hx). set_solver. }
  unfold upd_header. cbn [headers store_word with_words]. rewrite Hh. cbn [mbind option_bind].
  eexists. split; [done|]. split; [|split; [done|split; [apply lookup_insert_eq|done]]].
  rewrite Hf3. unfold store_word.
  change (with_headers (with_words s ?w) ?m) with (with_words (with_headers s m) w). eapply set_page; try done.
  - rewrite Hin. solve_hdr h. rewrite Hre. done.
  - intros z Hz. apply lookup_insert_ne. intros <-. apply Hz. unfold all_slots. rewrite Hlv. set_solver.
  - split; [done|]. cbn [with_slots pg_free pg_remote pg_live pg_cache pg_order chain].
    split; [|split; [done|]].
    + split; [|split; [apply lookup_insert_eq|]].
      * destruct Hg as (? & ? & ?). apply slots_range in Hxs as [Hlo _]; [|done].
        rewrite HHDM_val in Haddr'. unfold NULL, SLAB_HEADER_SIZE in *. lia.
      * eapply chain_frame; [|done]. intros y Hy. apply lookup_insert_ne. by intros ->.
    + exists c. do 3 (split; [done|]). split; [|split; [|done]].
      * rewrite <- Hp. cbn [app]. rewrite <- (app_assoc l1), <- (app_assoc l1). cbn [app].
        rewrite <- (Permutation_middle l1). by rewrite <- Permutation_middle.
      * eapply chain_frame; [|exact Hc3]. intros y Hy. apply lookup_insert_ne. intros ->.
        apply NoDup_app in Hnd as (_ & _ & Hnd). rewrite <- app_assoc in Hnd. apply NoDup_app in Hnd as (_ & _ & Hnd).
        cbn [app] in Hnd. apply NoDup_cons in Hnd as [Hnd _]. apply Hnd. set_solver.
Qed.

End ops.
