(* ===== verification/SlabCalls.v ===== *)
(** * The slab allocator: calls

    [pmm_slab_grow_locked], [pmm_slab_alloc_locked], [pmm_slab_free_locked] and
    the shrinker against the invariant: what each call does to the pages and
    to the live objects. *)

From S2P Require Import Prelude DList Buddy BuddySpec PmmInit PmmInitSpec BuddyTrace.
From S2P Require Import Slab SlabSpec SlabLists.

(** The live objects of all pages of cache [k]. *)
Definition live_in (A : gmap Z page) (k x : Z) : Prop :=
  exists a pg, A !! a = Some pg /\ pg_cache pg = k /\ x ∈ pg_live pg.

Definition all_placed (A : gmap Z page) : Prop := forall a pg, A !! a = Some pg -> placed pg.

(** The pages of other caches are the same. *)
Definition others_kept (k : Z) (A A' : gmap Z page) : Prop :=
  forall b pgb, pg_cache pgb <> k -> (A !! b = Some pgb <-> A' !! b = Some pgb).

Lemma others_insert k (A : gmap Z page) a pg' :
  pg_cache pg' = k -> (forall pg, A !! a = Some pg -> pg_cache pg = k) -> others_kept k A (<[a := pg']> A).
Proof. intros Hk Ha b pgb Hb. destruct (decide (b = a)) as [->|Hne]; [rewrite lookup_insert_eq; naive_solver|by rewrite lookup_insert_ne]. Qed.

Lemma others_trans k (A B C : gmap Z page) : others_kept k A B -> others_kept k B C -> others_kept k A C.
Proof. intros H1 H2 b pgb Hb. by rewrite (H1 b pgb Hb), (H2 b pgb Hb). Qed.

(** Frames that lose reference count 0 belong to pages. *)
Definition refs_pages (s s' : slabs) (A' : gmap Z page) : Prop :=
  forall x, refcount (sl_buddy s) !! x = Some 0 ->
    refcount (sl_buddy s') !! x = Some 0 \/ exists a pg, A' !! a = Some pg /\ in_page pg x.

Section calls.
Context (T : Z) (U : Z -> Prop) (rest : list (Z * Z)) (G : gmap Z slab_cache).
Abbreviation inv := (slab_inv T U rest G).

(** A block outside every page gives a fresh header address. *)
Lemma fresh_page s A L f o :
  inv s A L -> 0 <= o -> NoDup (owned_frames ((f, o) :: page_blocks A ++ rest)) ->
  forall a pg, A !! a = Some pg -> a <> vaddr f /\ disjoint_blocks o f (pg_order pg) (pg_frame pg).
Proof.
  intros Hi Ho Hnd a pg Ha. destruct (page_block_ok _ _ _ _ _ _ _ _ _ Hi Ha) as [((Hpo & _) & _) _].
  destruct (si_page _ _ _ _ _ _ _ Hi a pg Ha) as (-> & _).
  rewrite (page_blocks_delete A _ pg) in Hnd by done. unfold owned_frames in Hnd. cbn [app] in Hnd.
  rewrite !bind_cons in Hnd. apply NoDup_app in Hnd as (_ & Hdj & _). cbn [fst snd] in Hdj.
  pose proof (pow2_pos o Ho). pose proof (pow2_pos (pg_order pg) Hpo). split.
  - intros Heq%vaddr_inj. specialize (Hdj f). rewrite elem_of_app, !elem_of_seqZ in Hdj. lia.
  - unfold disjoint_blocks. set (x := Z.max f (pg_frame pg)). specialize (Hdj x).
    rewrite elem_of_app, !elem_of_seqZ in Hdj. lia.
Qed.

Lemma slots_eq c a :
  slots c a = (fun i => (a + first_slot_off (slot_size c)) + i * slot_size c) <$> seqZ 0 (num_slots c).
Proof. done. Qed.

(** The slots of a page at a block that is disjoint from another page. *)
Lemma new_slots_apart ws b pg c f x :
  geom_ok c -> page_ok G ws b pg -> disjoint_blocks (slab_order c) f (pg_order pg) (pg_frame pg) ->
  x ∈ all_slots pg -> x ∉ slots c (vaddr f).
Proof.
  intros Hg (-> & _ & _ & c' & _ & Ho & Hg' & Hp & _) Hdj. unfold all_slots. rewrite Hp.
  intros Hx%(slots_range _ _ _ Hg') Hx'%(slots_range _ _ _ Hg).
  destruct Hg as (_ & ? & _), Hg' as (_ & ? & _). rewrite Ho in *. unfold SLAB_HEADER_SIZE in *.
  unfold disjoint_blocks, vaddr in *. rewrite PAGE_SIZE_val in *. lia.
Qed.

Definition new_page (k o f : Z) (sl : list Z) : page := Page k o f sl [] [] (OnList Partial) [] 0.

Lemma with_buddy_id s : with_buddy s (sl_buddy s) = s.
Proof. by destruct s. Qed.

Lemma grow_spec s A L k c :
  inv s A L -> caches s !! k = Some c -> geom_ok c ->
  exists s' r, pmm_slab_grow_locked s k = Some (s', r) /\
    ((r = NULL /\ s' = s /\
      forall f, block_ok T (slab_order c) f ->
        ~ (forall x, f <= x < f + 2 ^ slab_order c -> U x /\ x ∉ owned_frames (page_blocks A ++ rest))) \/
     (exists f L', r = vaddr f /\ r <> NULL /\ A !! r = None /\
        inv s' (<[r := new_page k (slab_order c) f (slots c r)]> A) L' /\
        forall x, refcount (sl_buddy s') !! x
          = if decide (f <= x < f + 2 ^ slab_order c) then Some 1 else refcount (sl_buddy s) !! x)).
Proof.
  intros Hi Hc Hgo. pose proof Hgo as (Ho & Hsz & Hfit). unfold SLAB_MAX_ORDER in Ho.
  unfold pmm_slab_grow_locked. rewrite Hc. cbn [mbind option_bind].
  destruct (divided_alloc_block T U _ _ (slab_order c) (si_div _ _ _ _ _ _ _ Hi) ltac:(lia))
    as (b1 & r & -> & Hres). cbn [mbind option_bind].
  destruct Hres as [(-> & -> & Hno)|(f & -> & Hne & Hrc & Hz & Hb & HD1)].
  { rewrite Z.eqb_refl, with_buddy_id. eexists _, _. split; [done|]. left. done. }
  destruct (Z.eqb_spec (f * PAGE_SIZE) PMM_INVALID_ADDR); [done|]. cbn [sl_buddy with_buddy].
  destruct (divided_mark _ _ _ _ _ _ HD1 Hz) as (b2 & -> & HD2 & Hrc2). cbn [mbind option_bind].
  rewrite frame_of_phys.
  assert (HMT : T <= MAX_FRAMES) by (destruct HD1 as (? & ? & _ & <- & _); apply H).
  destruct (block_small _ _ _ HMT Hb) as (_ & Hf & _). rewrite phys_to_virt_frame by done.
  set (a := vaddr f). set (h0 := SlabHeader k _ _ _ _ _ _ _).
  assert (Hpg : order_to_pages (slab_order c) = 2 ^ slab_order c)
    by (apply order_to_pages_val; unfold MAX_ORDER; lia).
  unfold order_to_pages in Hpg. rewrite Hpg. pose proof (pow2_pos (slab_order c) ltac:(lia)) as Hpos.
  pose proof Hb as (_ & Hf0 & _ & Hend).
  set (s2 := with_headers _ _).
  assert (HT2 : total_frames (sl_buddy s2) = T) by (destruct HD2 as (? & _ & _ & ? & _); done).
  destruct (set_frames_spec (Z.to_nat (2 ^ slab_order c)) s2 f k f) as (t' & hh' & -> & Ht' & Hh');
    [done|rewrite HT2; lia| |]; rewrite ?Z2Nat.id in * by lia.
  { intros x Hx. apply (si_track _ _ _ _ _ _ _ Hi). lia. }
  cbn [mbind option_bind].
  destruct (Z.leb_spec (slab_bytes (slab_order c)) (first_slot_off (slot_size c))); [lia|].
  fold (num_slots c). pose proof (num_slots_bounds c Hgo) as Hns.
  pose proof (vaddr_range f Hf) as Hvr. rewrite HHDM_val in Hvr. fold a in Hvr.
  pose proof (align_up_to_bounds SLAB_HEADER_SIZE (slot_size c) ltac:(lia) ltac:(done)
    ltac:(unfold SLAB_HEADER_SIZE; lia)) as Hoff. fold (first_slot_off (slot_size c)) in Hoff.
  unfold SLAB_HEADER_SIZE in Hoff.
  destruct (carve_spec (Z.to_nat (num_slots c)) (with_frames s2 t' hh') (a + first_slot_off (slot_size c))
    (slot_size c) []) as (ws' & Hcarve & Hch & Hws); [lia|lia|done|intros i _; apply not_elem_of_nil|].
  change (first []) with NULL in Hcarve. rewrite Hcarve. clear Hcarve.
  rewrite app_nil_r, Z2Nat.id in Hch by lia. rewrite Z2Nat.id in Hws by lia.
  rewrite app_nil_r, Z2Nat.id in * by lia. rewrite <- (slots_eq c a) in *.
  unfold upd_header at 1. cbn [headers with_words with_frames with_headers s2]. rewrite lookup_insert_eq.
  cbn [mbind option_bind]. rewrite insert_insert_eq.
  set (pg := new_page k (slab_order c) f (slots c a)).
  assert (Hnd : NoDup (owned_frames ((f, slab_order c) :: page_blocks A ++ rest)))
    by (destruct HD2 as (? & _ & _ & _ & _ & ? & _); done).
  pose proof (fresh_page s A L f (slab_order c) Hi ltac:(lia) Hnd) as Hfresh.
  assert (Ha : A !! a = None).
  { destruct (A !! a) as [pg0|] eqn:E; [|done]. destruct (Hfresh a pg0 E). done. }
  assert (Hnz : a <> NULL) by by apply vaddr_nonnull.
  assert (Hha : headers s !! a = None).
  { destruct (headers s !! a) as [h|] eqn:E; [|done].
    assert (Hl : (unlinked <$> headers s) !! a = Some (unlinked h)) by by rewrite lookup_fmap, E.
    by rewrite (si_hdr _ _ _ _ _ _ _ Hi), lookup_fmap, Ha in Hl. }
  set (s5 := with_headers _ _).
  assert (Hlo : loose T U rest G s5 A L a pg).
  { constructor; cbn [s5 s2 sl_buddy caches headers words trackers heads double_allocs with_headers with_words
      with_frames with_reports with_buddy].
    - done.
    - exact HD2.
    - apply (si_geom _ _ _ _ _ _ _ Hi).
    - apply (si_null _ _ _ _ _ _ _ Hi).
    - rewrite delete_insert_eq, delete_id; [apply (si_hdr _ _ _ _ _ _ _ Hi)|done].
    - intros b pgb Hb'. destruct (Hfresh b pgb Hb') as [_ Hdj].
      pose proof (si_page _ _ _ _ _ _ _ Hi b pgb Hb') as Hok. eapply page_ok_frame; [|done].
      intros x Hx. apply Hws. eapply new_slots_apart; [done..|unfold all_slots; set_solver].
    - split; [done|]. split; [done|]. split; [done|].
      exists (geom c). cbn [pg pg_cache new_page]. rewrite <- (si_geom _ _ _ _ _ _ _ Hi), lookup_fmap, Hc.
      do 3 (split; [done|]). cbn. by rewrite !app_nil_r.
    - eapply lists_ok_links; [|apply (si_lists _ _ _ _ _ _ _ Hi)].
      intros b n0 Hb'. exists n0. rewrite lookup_insert_ne by congruence. done.
    - apply (si_mem _ _ _ _ _ _ _ Hi).
    - intros x Hx. rewrite Ht', Hh'. pose proof (si_track _ _ _ _ _ _ _ Hi x Hx).
      case_decide; [split; by eexists|done].
    - intros x b pgb Hb' Hx. destruct (Hfresh b pgb Hb') as [_ Hdj]. rewrite Ht', Hh'.
      unfold in_page, disjoint_blocks in *. case_decide; [lia|]. by apply (si_owned _ _ _ _ _ _ _ Hi x b).
    - intros x Hx. unfold in_page in Hx. cbn in Hx. rewrite Ht', Hh'. by case_decide; [|lia].
    - intros x Hx Hno Hnx. rewrite Ht'. case_decide; [done|].
      by apply (si_free _ _ _ _ _ _ _ Hi x Hx).
    - rewrite (si_reports _ _ _ _ _ _ _ Hi). done. }
  destruct (link_page T U rest G s5 A L a pg Partial (with_freelist (first (slots c a)) h0) Hlo)
    as (s' & L' & Hpark & Hi' & _ & Hbud); [done|apply lookup_insert_eq|done|done|].
  change (pg_cache pg) with k in Hpark. rewrite Hpark. cbn [mbind option_bind].
  exists s', a. split; [done|]. right. exists f, L'. split; [done|]. split; [done|].
  split; [done|]. split; [done|]. intros x. rewrite Hbud. cbn. rewrite Hrc2. case_decide; [done|]. by rewrite Hrc.
Qed.

(** ** Live objects under page updates *)

Lemma live_same A a pg pg' k x :
  A !! a = Some pg -> pg_cache pg' = pg_cache pg -> pg_live pg' = pg_live pg ->
  live_in (<[a := pg']> A) k x <-> live_in A k x.
Proof.
  intros Ha Hc Hl. split; intros (b & pgb & Hb & Hk & Hx); destruct (decide (b = a)) as [->|Hne].
  - rewrite lookup_insert_eq in Hb. injection Hb as <-. exists a, pg. rewrite <- Hl. by rewrite <- Hc.
  - rewrite lookup_insert_ne in Hb by done. by exists b, pgb.
  - assert (pgb = pg) as -> by congruence. exists a, pg'. rewrite lookup_insert_eq, Hl. by rewrite Hc.
  - exists b, pgb. by rewrite lookup_insert_ne.
Qed.

Lemma live_add A a pg pg' r k x :
  A !! a = Some pg -> pg_cache pg' = pg_cache pg -> pg_live pg' = r :: pg_live pg ->
  live_in (<[a := pg']> A) k x <-> live_in A k x \/ (k = pg_cache pg /\ x = r).
Proof.
  intros Ha Hc Hl. split.
  - intros (b & pgb & Hb & Hk & Hx). destruct (decide (b = a)) as [->|Hne].
    + rewrite lookup_insert_eq in Hb. injection Hb as <-. rewrite Hl in Hx.
      apply elem_of_cons in Hx as [->|Hx]; [right; split; congruence|left]. exists a, pg. by rewrite <- Hc.
    + rewrite lookup_insert_ne in Hb by done. left. by exists b, pgb.
  - intros [(b & pgb & Hb & Hk & Hx)|[-> ->]].
    + destruct (decide (b = a)) as [->|Hne].
      * assert (pgb = pg) as -> by congruence. exists a, pg'. rewrite lookup_insert_eq, Hl, Hc. set_solver.
      * exists b, pgb. by rewrite lookup_insert_ne.
    + exists a, pg'. rewrite lookup_insert_eq, Hl. set_solver.
Qed.

Lemma live_in_slot s A L k x : inv s A L -> live_in A k x ->
  exists a pg, A !! a = Some pg /\ pg_cache pg = k /\ x ∈ all_slots pg.
Proof. intros Hi (a & pg & Ha & Hk & Hx). exists a, pg. unfold all_slots. set_solver. Qed.

(** A slot of a page that is not live in the page is not live at all. *)
Lemma not_live s A L a pg x k :
  inv s A L -> A !! a = Some pg -> x ∈ pg_free pg ++ pg_remote pg -> ~ live_in A k x.
Proof.
  intros Hi Ha Hx (b & pgb & Hb & _ & Hl). destruct (decide (b = a)) as [->|Hne].
  - assert (pgb = pg) as -> by congruence.
    destruct (slots_length T U rest G _ _ _ _ _ Hi Ha) as [_ Hnd]. unfold all_slots in Hnd.
    rewrite app_assoc in Hnd. apply NoDup_app in Hnd as (_ & Hdj & _). apply (Hdj x Hx), elem_of_app. by left.
  - eapply (slots_apart T U rest G s A L a pg b pgb x); [done..|set_solver|set_solver].
Qed.

(** ** Choosing a page *)

Lemma head_page s A L k c w :
  inv s A L -> caches s !! k = Some c -> list_head w c <> NULL ->
  exists pg, A !! list_head w c = Some pg /\ pg_cache pg = k /\ pg_on pg = OnList w.
Proof.
  intros Hi Hc Hn. destruct (si_lists _ _ _ _ _ _ _ Hi k c w Hc) as [Hseg _].
  destruct (L k w) as [|a l] eqn:E; simpl in Hseg; [done|]. destruct Hseg as [-> _].
  apply (si_mem _ _ _ _ _ _ _ Hi). rewrite E. set_solver.
Qed.

Lemma empty_list s A L k c w :
  inv s A L -> caches s !! k = Some c -> list_head w c = NULL ->
  forall a pg, A !! a = Some pg -> pg_cache pg = k -> pg_on pg <> OnList w.
Proof.
  intros Hi Hc Hn a pg Ha Hk Hon. destruct (si_lists _ _ _ _ _ _ _ Hi k c w Hc) as [Hseg _].
  assert (Hin : a ∈ L k w) by (apply (si_mem _ _ _ _ _ _ _ Hi); by exists pg).
  destruct (L k w) as [|b l]; [by apply not_elem_of_nil in Hin|]. simpl in Hseg. destruct Hseg as (? & ? & _). congruence.
Qed.

Definition ready (s : slabs) (A : gmap Z page) (k h : Z) : Prop :=
  exists L pg, inv s A L /\ all_placed A /\ A !! h = Some pg /\ pg_cache pg = k /\ pg_on pg = OnList Partial.

Lemma all_placed_insert A a pg : all_placed A -> placed pg -> all_placed (<[a := pg]> A).
Proof.
  intros HA Hp b pgb. destruct (decide (b = a)) as [->|Hne].
  - rewrite lookup_insert_eq. by intros [= <-].
  - rewrite lookup_insert_ne by done. apply HA.
Qed.

Lemma some_slot s A L a pg : inv s A L -> A !! a = Some pg -> all_slots pg <> [].
Proof.
  intros Hi Ha Hn. destruct (si_page _ _ _ _ _ _ _ Hi a pg Ha) as (_ & _ & _ & c & _ & _ & Hg & Hp & _).
  fold (all_slots pg) in Hp. rewrite Hn in Hp. apply Permutation_nil in Hp.
  pose proof (length_slots c a Hg) as Hl. rewrite Hp in Hl. pose proof (num_slots_bounds c Hg). simpl in Hl. lia.
Qed.

Lemma recycle_spec s A L k c :
  inv s A L -> all_placed A -> caches s !! k = Some c ->
  exists s' r, pmm_slab_recycle_empty_locked s k = Some (s', r) /\
    ((r = NULL /\ s' = s /\ c_empty c = NULL) \/
     (r <> NULL /\ sl_buddy s' = sl_buddy s /\
      exists A', ready s' A' k r /\ others_kept k A A' /\ forall k' x, live_in A' k' x <-> live_in A k' x)).
Proof.
  intros Hi HA Hc. unfold pmm_slab_recycle_empty_locked. rewrite Hc. cbn [mbind option_bind].
  destruct (Z.eqb_spec (c_empty c) NULL) as [He|He]; [eexists _, _; split; [done|by left]|].
  destruct (head_page s A L k c Empty Hi Hc He) as (pg & Ha & <- & Hon). cbn [list_head] in Ha.
  destruct (move_page T U rest G s A L _ pg Empty Partial Hi Ha Hon) as (s' & L' & Hrun & Hi' & _ & Hbud).
  destruct (slab_list_remove s (pg_cache pg) Empty (c_empty c)) as [s1|]; [|done].
  cbn [mbind option_bind] in Hrun |- *. rewrite Hrun. cbn [mbind option_bind].
  eexists _, _. split; [done|]. right. split; [done|]. split; [done|]. exists (<[c_empty c := with_place (OnList Partial) pg]> A). split; [|split; [apply others_insert; [done|congruence]|]].
  - exists L', (with_place (OnList Partial) pg). split; [done|]. split; [|by rewrite lookup_insert_eq].
    apply all_placed_insert; [done|]. unfold placed. cbn.
    pose proof (HA _ _ Ha) as Hp. unfold placed in Hp. rewrite Hon in Hp. destruct Hp as (Hr & Hl & Hsl & Hl0).
    pose proof (some_slot _ _ _ _ _ Hi Ha) as Hs. unfold all_slots in Hs. by rewrite Hr, Hl, Hsl, !app_nil_r in Hs.
  - intros k' x. by eapply live_same.
Qed.

Lemma same_frames (A : gmap Z page) h pg pg2 :
  A !! h = Some pg -> pg_frame pg2 = pg_frame pg -> pg_order pg2 = pg_order pg ->
  forall a pg, A !! a = Some pg ->
    exists pg', <[h := pg2]> A !! a = Some pg' /\ pg_frame pg' = pg_frame pg /\ pg_order pg' = pg_order pg.
Proof.
  intros Hh Hf Ho a pg0 Ha. destruct (decide (a = h)) as [->|Hne].
  - rewrite lookup_insert_eq. exists pg2. split; [done|]. split; congruence.
  - rewrite lookup_insert_ne by done. by exists pg0.
Qed.

(** Taking an object from a page on the partial list. *)
Lemma take_spec s A k h :
  ready s A k h ->
  exists s' r A' L',
    take_object s k h = Some (s', r) /\
    r <> NULL /\ inv s' A' L' /\ all_placed A' /\ (forall k', ~ live_in A k' r) /\ sl_buddy s' = sl_buddy s /\
    (forall a pg, A !! a = Some pg -> exists pg', A' !! a = Some pg' /\ pg_frame pg' = pg_frame pg /\ pg_order pg' = pg_order pg) /\
    others_kept k A A' /\ forall k' x, live_in A' k' x <-> live_in A k' x \/ (k' = k /\ x = r).
Proof.
  intros (L & pg & Hi & HA & Ha & <- & Hon).
  pose proof (HA _ _ Ha) as Hpl. unfold placed in Hpl. rewrite Hon in Hpl. destruct Hpl as (Hpl & Hsl & Hl0).
  destruct (drain_spec T U rest G s A L h pg Hi Ha) as (s1 & Hdr & Hi1 & _ & _ & _ & Hb1). unfold take_object. rewrite Hdr.
  cbn [mbind option_bind]. assert (Ha1 : <[h := drained pg]> A !! h = Some (drained pg)) by apply lookup_insert_eq.
  destruct (header_at _ _ _ _ _ _ _ _ _ Hi1 Ha1) as (h1 & -> & Hu1). cbn [mbind option_bind].
  destruct (hdr_fields _ _ Hu1) as (_ & _ & Hfl & _). rewrite Hfl.
  destruct (pg_free (drained pg)) as [|x fl] eqn:Efl.
  { unfold drained, with_slots in Efl. cbn in Efl. apply app_eq_nil in Efl as [_ ?]. done. }
  rewrite first_cons. destruct (si_page _ _ _ _ _ _ _ Hi1 h _ Ha1) as (_ & Hch & _).
  rewrite Efl in Hch. pose proof Hch as (Hx & _ & Hchfl). destruct (Z.eqb_spec x NULL); [done|].
  destruct (pop_spec T U rest G s1 _ L h (drained pg) x fl Hi1 Ha1 Efl Hl0) as (-> & s2 & Hupd & Hi2 & Hc2 & Hw2 & Hb2).
  cbn [mbind option_bind]. rewrite Hupd. cbn [mbind option_bind]. rewrite insert_insert_eq in Hi2.
  set (pg2 := with_slots fl _ _ _) in Hi2.
  assert (Ha2 : <[h := pg2]> A !! h = Some pg2) by apply lookup_insert_eq.
  assert (Hxf : x ∈ pg_free pg ++ pg_remote pg).
  { change (pg_free (drained pg)) with (pg_remote pg ++ pg_free pg) in Efl.
    assert (Hin : x ∈ pg_remote pg ++ pg_free pg) by (rewrite Efl; set_solver). set_solver. }
  assert (Hnl : forall k', ~ live_in A k' x) by (intros k'; by eapply not_live).
  destruct (Z.eqb_spec (first fl) NULL) as [Hnil|Hnn].
  - apply (chain_first (words s1)) in Hnil as ->; [|done].
    destruct (move_page T U rest G s2 _ L h pg2 Partial Full Hi2 Ha2 Hon) as (s3 & L3 & Hrun & Hi3 & _ & Hb3).
    change (pg_cache pg2) with (pg_cache pg) in Hrun.
    destruct (slab_list_remove s2 (pg_cache pg) Partial h) as [s2'|]; [|done].
    cbn [mbind option_bind] in Hrun |- *. rewrite Hrun. cbn [mbind option_bind].
    rewrite insert_insert_eq in Hi3. eexists _, _, _, L3. split; [done|]. split; [done|]. split; [done|].
    split; [by apply all_placed_insert|]. split; [done|]. split; [congruence|]. split; [by eapply same_frames|].
    split; [apply others_insert; [done|congruence]|]. intros k' y. by eapply live_add.
  - eexists _, _, _, L. split; [done|]. split; [done|]. split; [done|]. split; [|split; [done|]].
    + apply all_placed_insert; [done|]. unfold placed. cbn. rewrite Hon. split; [by intros ->|done].
    + split; [congruence|]. split; [by eapply same_frames|].
      split; [apply others_insert; [done|congruence]|]. intros k' y. by eapply live_add.
Qed.

Lemma slab_alloc_spec s A L k c :
  inv s A L -> all_placed A -> caches s !! k = Some c -> geom_ok c ->
  exists s' r, pmm_slab_alloc_locked s k = Some (s', r) /\
    ((r = NULL /\ s' = s /\ (forall a pg, A !! a = Some pg -> pg_cache pg = k -> pg_on pg <> OnList Partial /\ pg_on pg <> OnList Empty) /\
      forall f, block_ok T (slab_order c) f ->
        ~ (forall x, f <= x < f + 2 ^ slab_order c -> U x /\ x ∉ owned_frames (page_blocks A ++ rest))) \/
     (r <> NULL /\ exists A' L', inv s' A' L' /\ all_placed A' /\ (forall k', ~ live_in A k' r) /\
        refs_pages s s' A' /\ others_kept k A A' /\ forall k' x, live_in A' k' x <-> live_in A k' x \/ (k' = k /\ x = r))).
Proof.
  intros Hi HA Hc Hg. unfold pmm_slab_alloc_locked. rewrite Hc. cbn [mbind option_bind].
  assert (Hgo : forall s1 A1 h, ready s1 A1 k h -> h <> NULL -> (forall k' x, live_in A1 k' x <-> live_in A k' x) ->
    refs_pages s s1 A1 -> others_kept k A A1 ->
    exists s' r, (if h =? NULL then Some (s1, NULL) else take_object s1 k h) = Some (s', r) /\
      r <> NULL /\ exists A' L', inv s' A' L' /\ all_placed A' /\ (forall k', ~ live_in A k' r) /\
        refs_pages s s' A' /\ others_kept k A A' /\ forall k' x, live_in A' k' x <-> live_in A k' x \/ (k' = k /\ x = r)).
  { intros s1 A1 h Hr Hh Hlive Hrefs Hoth. destruct (Z.eqb_spec h NULL); [done|].
    destruct (take_spec s1 A1 k h Hr) as (s' & r & A' & L' & -> & Hn & Hi' & HA' & Hnl & Hbud & Hfr & Hoth' & Hl').
    exists s', r. split; [done|]. split; [done|]. exists A', L'. split; [done|]. split; [done|]. split; [|split; [|split; [by eapply others_trans|]]].
    - intros k' H. apply (Hnl k'). by apply Hlive.
    - intros x Hx. rewrite Hbud. destruct (Hrefs x Hx) as [?|(a & pg & Ha & Hin)]; [by left|right].
      destruct (Hfr a pg Ha) as (pg' & Ha' & Hf' & Ho'). exists a, pg'. split; [done|].
      unfold in_page in *. by rewrite Hf', Ho'.
    - intros k' x. by rewrite Hl', Hlive. }
  destruct (Z.eqb_spec (c_partial c) NULL) as [Hp|Hp]; cbn [negb].
  2: { cbn [mbind option_bind]. destruct (head_page s A L k c Partial Hi Hc Hp) as (pg & Ha & Hk & Hon).
       destruct (Hgo s A (c_partial c)) as (s' & r & -> & Hres); [by exists L, pg|done|done|by left|done|].
       eexists _, _. split; [done|]. by right. }
  destruct (recycle_spec s A L k c Hi HA Hc) as (s1 & r1 & -> & [(-> & -> & He)|(Hr1 & Hb1 & A1 & Hrd & Hoth & Hlv)]);
    cbn [mbind option_bind].
  2: { destruct (Z.eqb_spec r1 NULL); [done|]. cbn [negb mbind option_bind].
       destruct (Hgo s1 A1 r1) as (s' & r & -> & Hres); [done|done|done|intros x Hx; rewrite Hb1; by left|done|]. eexists _, _. split; [done|]. by right. }
  rewrite Z.eqb_refl. cbn [negb].
  destruct (grow_spec s A L k c Hi Hc Hg) as (s2 & r2 & -> & [(-> & -> & Hno)|(f & L2 & Hr2 & Hr2n & Hnone & Hi2 & Hrc2)]);
    cbn [mbind option_bind].
  { rewrite Z.eqb_refl. eexists _, _. split; [done|]. left. split; [done|]. split; [done|]. split; [|done].
    intros a pg Ha Hk. split; eapply (empty_list s A L k c); eauto. }
  destruct (Hgo s2 (<[r2 := new_page k (slab_order c) f (slots c r2)]> A) r2) as (s' & r & -> & Hres); [|done| | |apply others_insert; [done|congruence]|].
  - exists L2, (new_page k (slab_order c) f (slots c r2)). split; [done|]. split; [|by rewrite lookup_insert_eq].
    apply all_placed_insert; [done|]. unfold placed. cbn. split; [|done]. intros Hn.
    pose proof (length_slots c r2 Hg) as Hl. rewrite Hn in Hl. pose proof (num_slots_bounds c Hg). simpl in Hl. lia.
  - intros k' x. split; intros (b & pgb & Hb & Hk & Hx); exists b, pgb.
    + destruct (decide (b = r2)) as [->|]; [|by rewrite lookup_insert_ne in Hb by done].
      rewrite lookup_insert_eq in Hb. injection Hb as <-. cbn in Hx. by apply not_elem_of_nil in Hx.
    + rewrite lookup_insert_ne by congruence. done.
  - intros x Hx. rewrite Hrc2. case_decide as Hd; [right|by left].
    exists r2, (new_page k (slab_order c) f (slots c r2)). by rewrite lookup_insert_eq.
  - eexists _, _. split; [done|]. by right.
Qed.

(** ** Releasing an object *)

(** The page of an object is found through the per-frame tables. *)
Lemma object_page s A L a pg x :
  inv s A L -> A !! a = Some pg -> x ∈ all_slots pg ->
  let f := Z.shiftr (virt_to_phys x) PAGE_SHIFT in
  x <> NULL /\ f < total_frames (sl_buddy s) /\ trackers s !! f = Some (pg_cache pg) /\
  heads s !! f = Some (pg_frame pg) /\ pg_cache pg <> NULL /\
  phys_to_virt (u64 (Z.shiftl (pg_frame pg) PAGE_SHIFT)) = a.
Proof.
  intros Hi Ha Hx f. destruct (page_block_ok _ _ _ _ _ _ _ _ _ Hi Ha) as [Hb HT].
  destruct (block_small _ _ _ HT Hb) as (Hend24 & Hf & _). pose proof Hb as (_ & _ & _ & Hend).
  destruct (cache_at _ _ _ _ _ _ _ _ _ Hi Ha) as (c0 & _ & _ & _ & _ & Hkn).
  destruct (si_page _ _ _ _ _ _ _ Hi a pg Ha) as (Haddr & _ & _ & c & _ & Ho & Hg & Hp & _).
  fold (all_slots pg) in Hp. rewrite Hp in Hx. apply slots_range in Hx; [|done].
  destruct Hg as (_ & Hsz & _). rewrite <- Ho in Hx. unfold vaddr in Haddr. unfold SLAB_HEADER_SIZE in Hx.
  rewrite PAGE_SIZE_val, MAX_FRAMES_val, HHDM_val in *.
  assert (Hfr : in_page pg f).
  { unfold in_page, f, virt_to_phys. rewrite HHDM_val, u64_id, shiftr_page by lia. mlia. }
  destruct (si_owned _ _ _ _ _ _ _ Hi f a pg Ha Hfr) as [-> ->].
  assert (HT2 : total_frames (sl_buddy s) = T) by (destruct (si_div _ _ _ _ _ _ _ Hi) as (? & _ & _ & ? & _); done).
  rewrite HT2. unfold in_page in Hfr. split; [unfold NULL; lia|]. do 4 (split; [done || lia|]).
  rewrite shiftl_mul by done. change (2 ^ PAGE_SHIFT) with 4096. rewrite u64_id by lia.
  rewrite <- PAGE_SIZE_val, phys_to_virt_frame by by rewrite MAX_FRAMES_val.
  unfold vaddr. rewrite Haddr, PAGE_SIZE_val, HHDM_val. lia.
Qed.

Lemma live_remove s A L a pg pg' x l1 l2 k y :
  inv s A L -> A !! a = Some pg -> pg_cache pg' = pg_cache pg -> pg_live pg = l1 ++ x :: l2 ->
  pg_live pg' = l1 ++ l2 -> live_in (<[a := pg']> A) k y <-> live_in A k y /\ y <> x.
Proof.
  intros Hi Ha Hc Hl Hl'. destruct (slots_length T U rest G _ _ _ _ _ Hi Ha) as [_ Hnd].
  unfold all_slots in Hnd. rewrite app_assoc in Hnd. apply NoDup_app in Hnd as (_ & _ & Hnd).
  apply NoDup_app in Hnd as (Hnd & _). rewrite Hl in Hnd. apply NoDup_middle in Hnd as (Hx1 & Hx2 & _). split.
  - intros (b & pgb & Hb & Hk & Hy). destruct (decide (b = a)) as [->|Hne].
    + rewrite lookup_insert_eq in Hb. injection Hb as <-. rewrite Hl' in Hy. split.
      * exists a, pg. rewrite <- Hc, Hl. set_solver.
      * intros ->. set_solver.
    + rewrite lookup_insert_ne in Hb by done. split; [by exists b, pgb|]. intros ->.
      eapply (slots_apart T U rest G s A L a pg b pgb x); [done..|by apply not_eq_sym| |];
        [rewrite Hl; set_solver|set_solver].
  - intros [(b & pgb & Hb & Hk & Hy) Hne]. destruct (decide (b = a)) as [->|Hba].
    + assert (pgb = pg) as -> by congruence. exists a, pg'. rewrite lookup_insert_eq, Hl', Hc.
      rewrite Hl in Hy. set_solver.
    + exists b, pgb. by rewrite lookup_insert_ne.
Qed.

(** The last step of a release: an unused page of the partial list becomes
    empty. *)
Lemma settle_spec s A L h pg :
  inv s A L -> all_placed A -> A !! h = Some pg -> pg_remote pg = [] -> pg_on pg = OnList Partial ->
  exists s' A' L',
    (hd ← headers s !! h;
     if (h_inuse hd =? 0) && (h_on_list hd =? SLAB_LIST_PARTIAL) then
       s ← slab_list_remove s (pg_cache pg) Partial h; park s (pg_cache pg) Empty h
     else Some s) = Some s' /\
    inv s' A' L' /\ all_placed A' /\ sl_buddy s' = sl_buddy s /\ others_kept (pg_cache pg) A A' /\
    forall k y, live_in A' k y <-> live_in A k y.
Proof.
  intros Hi HA Ha Hr Hon. destruct (header_at _ _ _ _ _ _ _ _ _ Hi Ha) as (h1 & -> & Hu1).
  destruct (hdr_fields _ _ Hu1) as (_ & _ & _ & Hin & Hol & _). cbn [mbind option_bind].
  rewrite Hin, Hol, Hon, Hr. cbn [place_kind list_kind]. rewrite Z.eqb_refl, andb_true_r.
  pose proof (HA _ _ Ha) as Hpl. unfold placed in Hpl. rewrite Hon in Hpl. destruct Hpl as (_ & Hsl & Hl0). rewrite Hsl, Hl0.
  destruct (Z.eqb_spec (0 `max` (Z.of_nat (length (pg_live pg) + length (@nil Z) + length (@nil Z)) - 0)) 0) as [Hz|Hz].
  - destruct (move_page T U rest G s A L h pg Partial Empty Hi Ha Hon) as (s' & L' & Hrun & Hi' & _ & Hbud).
    eexists _, _, L'. split; [exact Hrun|]. split; [done|]. split; [|split; [done|split; [apply others_insert; [done|congruence]|]]].
    + apply all_placed_insert; [done|]. unfold placed. cbn. split; [done|]. split; [|done]. destruct (pg_live pg); [done|]. simpl in Hz. lia.
    + intros k y. by eapply live_same.
  - eexists _, A, L. by split_and!.
Qed.

Lemma slab_free_spec s A L k x :
  inv s A L -> all_placed A -> plain G k -> live_in A k x ->
  exists s' A' L', pmm_slab_free_locked s x = Some s' /\ inv s' A' L' /\ all_placed A' /\
    sl_buddy s' = sl_buddy s /\ others_kept k A A' /\ forall k' y, live_in A' k' y <-> live_in A k' y /\ y <> x.
Proof.
  intros Hi HA Hk (a & pg & Ha & <- & Hx). assert (Hxs : x ∈ all_slots pg) by (unfold all_slots; set_solver).
  destruct (object_page _ _ _ _ _ _ Hi Ha Hxs) as (Hxn & Hft & Htr & Hhd & Hkn & Hpv).
  unfold pmm_slab_free_locked. destruct (Z.eqb_spec x NULL); [done|].
  destruct (Z.leb_spec (total_frames (sl_buddy s)) (Z.shiftr (virt_to_phys x) PAGE_SHIFT)); [lia|].
  rewrite Htr. cbn [mbind option_bind]. destruct (Z.eqb_spec (pg_cache pg) NULL); [done|].
  rewrite Hhd. cbn [mbind option_bind]. rewrite Hpv.
  destruct (drain_spec T U rest G s A L a pg Hi Ha) as (s1 & -> & Hi1 & Hc1 & _ & _ & Hb1). cbn [mbind option_bind].
  assert (Ha1 : <[a := drained pg]> A !! a = Some (drained pg)) by apply lookup_insert_eq.
  destruct (header_at _ _ _ _ _ _ _ _ _ Hi1 Ha1) as (h1 & Hh1 & Hu1). rewrite Hh1. cbn [mbind option_bind].
  destruct (hdr_fields _ _ Hu1) as (_ & _ & _ & _ & Hon1 & _).
  apply list_elem_of_split in Hx as (l1 & l2 & Hl).
  destruct (push_spec T U rest G s1 _ L a (drained pg) x l1 l2 Hi1 Ha1 Hl eq_refl h1 Hh1)
    as (s2 & -> & Hi2 & _ & Hh2 & Hb2). cbn [mbind option_bind]. rewrite insert_insert_eq in Hi2.
  set (pg2 := with_slots (x :: _) [] _ _) in Hi2.
  assert (Ha2 : <[a := pg2]> A !! a = Some pg2) by apply lookup_insert_eq.
  assert (Hlv : forall k' y, live_in (<[a := pg2]> A) k' y <-> live_in A k' y /\ y <> x)
    by (intros k' y; by eapply (live_remove s A L)).
  assert (Hoth : others_kept (pg_cache pg) A (<[a := pg2]> A)) by (apply others_insert; [done|congruence]).
  pose proof (HA _ _ Ha) as Hpl. unfold placed in Hpl. rewrite Hon1. change (pg_on (drained pg)) with (pg_on pg).
  assert (Hl0 : pg_lost pg = 0).
  { destruct (si_page _ _ _ _ _ _ _ Hi a pg Ha) as (_ & _ & _ & c & Hc & _ & _ & _ & _ & _ & Hl0). destruct Hk as (c' & Hc' & Hk). apply Hl0. congruence. }
  destruct (pg_on pg) as [[]| |k0] eqn:Hon; cbn [place_kind list_kind].
  - (* on the partial list *)
    change (SLAB_LIST_PARTIAL =? SLAB_LIST_FULL) with false. cbn [mbind option_bind].
    destruct (settle_spec s2 _ L a pg2 Hi2) as (s3 & A3 & L3 & Hrun & Hi3 & HA3 & Hb3 & Ho3 & Hl3);
      [by apply all_placed_insert; [|unfold placed; cbn; rewrite Hon; destruct Hpl as (_ & ? & _)]|done|done|done|].
    eexists _, A3, L3. split; [exact Hrun|]. split; [done|]. split; [done|]. split; [congruence|].
    split; [by eapply others_trans|]. intros k' y. by rewrite Hl3.
  - (* on the full list *)
    rewrite Z.eqb_refl.
    destruct (move_page T U rest G s2 _ L a pg2 Full Partial Hi2 Ha2 Hon) as (s3 & L3 & Hmv & Hi3 & _ & Hb3).
    change (pg_cache pg2) with (pg_cache pg) in Hmv. rewrite Hmv. cbn [mbind option_bind].
    rewrite insert_insert_eq in Hi3.
    destruct (settle_spec s3 _ L3 a (with_place (OnList Partial) pg2) Hi3) as (s4 & A4 & L4 & Hrun & Hi4 & HA4 & Hb4 & Ho4 & Hl4);
      [by apply all_placed_insert; [|destruct Hpl as [_ ?]]|apply lookup_insert_eq|done|done|].
    eexists _, A4, L4. split; [exact Hrun|]. split; [done|]. split; [done|]. split; [congruence|].
    split; [eapply others_trans; [|exact Ho4]; apply others_insert; [done|congruence]|]. intros k' y. rewrite Hl4, <- Hlv.
    rewrite <- (insert_insert_eq A a (with_place (OnList Partial) pg2) pg2). by eapply live_same.
  - destruct Hpl as (_ & Hpl & _). rewrite Hpl in Hl. by destruct l1.
  - destruct Hpl as (_ & Hpl & _). rewrite Hpl in Hl. by destruct l1.
  - (* with a CPU *)
    assert (Hk0 : k0 =? SLAB_LIST_FULL = false /\ k0 =? SLAB_LIST_PARTIAL = false) by by destruct Hpl as [->|[->| ->]].
    destruct Hk0 as [-> Hk0]. cbn [mbind option_bind]. rewrite Hh2. cbn [mbind option_bind].
    assert (h_on_list h1 = k0) as Hol by (rewrite Hon1; change (pg_on (drained pg)) with (pg_on pg); by rewrite Hon).
    cbn [h_on_list with_inuse with_freelist]. rewrite Hol, Hk0, andb_false_r.
    eexists _, _, L. split; [done|]. split; [done|]. split; [|split; [congruence|done]].
    apply all_placed_insert; [done|]. unfold placed. cbn. by rewrite Hon.
Qed.
End calls.

(** ** Bytes held by users *)

(** The bytes [x, x + n) and [y, y + m) do not overlap. *)
Definition apart (x n y m : Z) : Prop := x + n <= y \/ y + m <= x.

Section held.
Context (T : Z) (U : Z -> Prop) (G : gmap Z slab_cache).

(** A slot lies inside the block of its page. *)
Lemma slot_in_page rest s (A : gmap Z page) L a pg x :
  slab_inv T U rest G s A L -> A !! a = Some pg -> x ∈ all_slots pg ->
  exists c, caches s !! pg_cache pg = Some c /\ geom_ok c /\ x ∈ slots c a /\
    vaddr (pg_frame pg) <= x /\ x + slot_size c <= vaddr (pg_frame pg) + PAGE_SIZE * 2 ^ pg_order pg.
Proof.
  intros Hi Ha Hx. destruct (cache_at _ _ _ _ _ _ _ _ _ Hi Ha) as (c & Hc & HG & Hg & Ho & _).
  destruct (si_page _ _ _ _ _ _ _ Hi a pg Ha) as (Haddr & _ & _ & c' & HG' & _ & _ & Hp & _).
  assert (c' = geom c) as -> by congruence. change (slots (geom c) a) with (slots c a) in Hp.
  assert (Hxs : x ∈ slots c a) by (by rewrite <- Hp). exists c. split; [done|]. split; [done|]. split; [done|].
  pose proof (slots_range _ _ _ Hg Hxs) as Hr. rewrite Haddr, <- Ho in Hr. unfold SLAB_HEADER_SIZE in Hr. lia.
Qed.

Lemma slots_bytes_apart rest s (A : gmap Z page) L a pg x c b pgb y c' :
  slab_inv T U rest G s A L -> A !! a = Some pg -> x ∈ all_slots pg -> A !! b = Some pgb -> y ∈ all_slots pgb -> x <> y ->
  caches s !! pg_cache pg = Some c -> caches s !! pg_cache pgb = Some c' -> apart x (slot_size c) y (slot_size c').
Proof.
  intros Hi Ha Hx Hb Hy Hne Hc Hc'. destruct (slot_in_page _ _ _ _ _ _ _ Hi Ha Hx) as (c1 & Hc1 & Hg & Hxs & Hr1).
  destruct (slot_in_page _ _ _ _ _ _ _ Hi Hb Hy) as (c2 & Hc2 & Hg' & Hys & Hr2). unfold apart.
  destruct (decide (a = b)) as [<-|Hab]; [simplify_eq; by eapply slots_disjoint|].
  destruct (pages_disjoint _ _ _ _ _ _ _ _ _ _ _ Hi Ha Hb Hab) as [Hd|Hd]; simplify_eq;
    unfold vaddr in *; rewrite PAGE_SIZE_val in *; lia.
Qed.

(** No slot shares a byte with a block of another user. *)
Lemma slot_block_apart rest s (A : gmap Z page) L a pg x c f o :
  slab_inv T U rest G s A L -> A !! a = Some pg -> x ∈ all_slots pg -> caches s !! pg_cache pg = Some c -> (f, o) ∈ rest ->
  apart x (slot_size c) (vaddr f) (PAGE_SIZE * 2 ^ o).
Proof.
  intros Hi Ha Hx Hc Hin. destruct (slot_in_page _ _ _ _ _ _ _ Hi Ha Hx) as (c1 & Hc1 & _ & _ & Hr).
  assert (c1 = c) as -> by congruence.
  destruct (si_div _ _ _ _ _ _ _ Hi) as (F & _ & _ & _ & Hl & Hnd & _). unfold owned_frames in Hnd.
  rewrite bind_app in Hnd. apply NoDup_app in Hnd as (_ & Hdj & _).
  apply Forall_app in Hl as [_ Hl]. rewrite Forall_forall in Hl. specialize (Hl _ Hin) as ((Ho & _) & _).
  destruct (page_block_ok _ _ _ _ _ _ _ _ _ Hi Ha) as [((Hpo & _) & _) _]. cbn [fst snd] in *.
  pose proof (pow2_pos o ltac:(lia)). pose proof (pow2_pos (pg_order pg) ltac:(lia)).
  assert (Hd : disjoint_blocks (pg_order pg) (pg_frame pg) o f).
  { unfold disjoint_blocks. specialize (Hdj (Z.max (pg_frame pg) f)).
    destruct (decide (pg_frame pg <= Z.max (pg_frame pg) f < pg_frame pg + 2 ^ pg_order pg)) as [Hm|]; [|lia].
    assert (~ (f <= Z.max (pg_frame pg) f < f + 2 ^ o)); [|lia]. intros Hm'. apply Hdj.
    - apply list_elem_of_bind. exists (pg_frame pg, pg_order pg). split; [by apply elem_of_seqZ|].
      apply list_elem_of_fmap. exists (a, pg). split; [done|]. by apply elem_of_map_to_list.
    - apply list_elem_of_bind. exists (f, o). split; [by apply elem_of_seqZ|done]. }
  unfold apart, vaddr in *. rewrite PAGE_SIZE_val in *. destruct Hd; lia.
Qed.

Lemma objects_apart rest s (A : gmap Z page) L k x c k' y c' :
  slab_inv T U rest G s A L -> live_in A k x -> live_in A k' y -> x <> y ->
  caches s !! k = Some c -> caches s !! k' = Some c' -> apart x (slot_size c) y (slot_size c').
Proof.
  intros Hi (a & pg & Ha & <- & Hx) (b & pgb & Hb & <- & Hy).
  eapply (slots_bytes_apart rest s A L a pg x c b pgb y c'); [done|done| |done|]; unfold all_slots; set_solver.
Qed.

Lemma object_block_apart rest s (A : gmap Z page) L k x c f o :
  slab_inv T U rest G s A L -> live_in A k x -> caches s !! k = Some c -> (f, o) ∈ rest ->
  apart x (slot_size c) (vaddr f) (PAGE_SIZE * 2 ^ o).
Proof.
  intros Hi (a & pg & Ha & <- & Hx). eapply (slot_block_apart rest s A L a pg x c f o); [done|done|]. unfold all_slots. set_solver.
Qed.
End held.
