(* ===== verification/SlabShrink.v ===== *)
(** * The slab allocator: returning pages

    [pmm_slab_destroy_locked], the RCU callback and the shrinkers against the
    invariant. *)

From S2P Require Import Prelude DList Buddy BuddySpec PmmInit PmmInitSpec BuddyTrace.
From S2P Require Import Slab SlabSpec SlabLists SlabCalls.

#[export] Instance place_eq_dec : EqDecision place.
Proof. solve_decision. Defined.

(** Operations that leave the callback queue and the list of caches alone. *)
Definition kept (s s' : slabs) : Prop :=
  rcu_callbacks s' = rcu_callbacks s /\ cache_head s' = cache_head s.
#[export] Instance kept_refl : Reflexive kept.
Proof. by split. Qed.
#[export] Instance kept_trans : Transitive kept.
Proof. intros s1 s2 s3 [] []. split; congruence. Qed.

Create HintDb kept.

Lemma upd_header_keeps s a g s' : upd_header s a g = Some s' -> kept s s'.
Proof. unfold upd_header. intros H. bind_inv H. by injection H as <-. Qed.
Lemma list_remove_kept s k w a s' : slab_list_remove s k w a = Some s' -> kept s s'.
Proof. unfold slab_list_remove. intros H. bind_inv H. by injection H as <-. Qed.
Lemma list_push_kept s k w a s' : slab_list_push s k w a = Some s' -> kept s s'.
Proof. unfold slab_list_push. intros H. bind_inv H. by injection H as <-. Qed.
#[export] Hint Resolve upd_header_keeps list_remove_kept list_push_kept : kept.

(** Chain what the steps of a run keep. *)
Ltac chain_kept := unfold kept in *; destruct_and?; cbn in *; split; congruence.

Lemma park_kept s k w a s' : park s k w a = Some s' -> kept s s'.
Proof. unfold park. intros H. bind_inv H. etrans; eauto with kept. Qed.
Lemma set_frames_kept n : forall s f t hd s', set_frames s n f t hd = Some s' -> kept s s'.
Proof.
  induction n as [|n IH]; intros s f t hd s' H; cbn [set_frames] in H; bind_inv H; [by injection H as <-..|].
  apply IH in H. by destruct H.
Qed.
Lemma carve_kept n : forall s base size fl s' fl', carve s base size n fl = (s', fl') -> kept s s'.
Proof.
  induction n as [|n IH]; intros s base size fl s' fl' H; cbn [carve] in H; [by injection H as <- _|].
  apply IH in H. by destruct H.
Qed.
#[export] Hint Resolve park_kept set_frames_kept carve_kept : kept.

Lemma drain_kept s a s' : drain_remote_into_freelist_locked s a = Some s' -> kept s s'.
Proof.
  unfold drain_remote_into_freelist_locked. intros H. bind_inv H; [injection H as <-; by eauto with kept|].
  apply upd_header_keeps in E0, H. destruct E0, H. by split; etrans.
Qed.
#[export] Hint Resolve drain_kept : kept.

Lemma recycle_kept s k s' r : pmm_slab_recycle_empty_locked s k = Some (s', r) -> kept s s'.
Proof.
  unfold pmm_slab_recycle_empty_locked. intros H. bind_inv H; injection H as <- _; [done|].
  apply list_remove_kept in E1. apply park_kept in E2. by etrans.
Qed.

Lemma grow_kept s k s' r : pmm_slab_grow_locked s k = Some (s', r) -> kept s s'.
Proof.
  unfold pmm_slab_grow_locked. intros H. bind_inv H; try (injection H as <- _).
  - done.
  - apply set_frames_kept in E3, E5. chain_kept.
  - apply set_frames_kept in E3. apply carve_kept in E5. apply upd_header_keeps in E6. apply park_kept in E7.
    chain_kept.
Qed.

Lemma take_kept s k a s' r : take_object s k a = Some (s', r) -> kept s s'.
Proof.
  unfold take_object. intros H. bind_inv H; injection H as <- _; apply drain_kept in E; [done|..];
    apply upd_header_keeps in E3; [|by etrans].
  apply list_remove_kept in E5. apply park_kept in E6. chain_kept.
Qed.

Lemma slab_alloc_kept s k s' r : pmm_slab_alloc_locked s k = Some (s', r) -> kept s s'.
Proof.
  unfold pmm_slab_alloc_locked. intros H. bind_inv H.
  - injection H as <- _. bind_inv E0; simplify_eq; [done|by eapply recycle_kept|].
    apply recycle_kept in E3. apply grow_kept in E0. by etrans.
  - apply take_kept in H. bind_inv E0; simplify_eq; [done|..]; apply recycle_kept in E3; [by etrans|].
    apply grow_kept in E0. chain_kept.
Qed.

(** What each step of a run keeps. *)
Ltac kept_steps :=
  repeat match goal with
  | H : (if ?b then _ else _) = Some _ |- _ => destruct b; bind_inv H
  | H : Some _ = Some _ |- _ => injection H as H; subst
  | H : drain_remote_into_freelist_locked _ _ = Some _ |- _ => apply drain_kept in H
  | H : upd_header _ _ _ = Some _ |- _ => apply upd_header_keeps in H
  | H : slab_list_remove _ _ _ _ = Some _ |- _ => apply list_remove_kept in H
  | H : park _ _ _ _ = Some _ |- _ => apply park_kept in H
  | H : pmm_slab_grow_locked _ _ = Some _ |- _ => apply grow_kept in H
  end; chain_kept.

Lemma slab_free_kept s x s' : pmm_slab_free_locked s x = Some s' -> kept s s'.
Proof. unfold pmm_slab_free_locked. intros H. bind_inv H; simplify_eq; try done; kept_steps. Qed.

Lemma list_remove_keeps s k w a s' :
  slab_list_remove s k w a = Some s' ->
  rcu_callbacks s' = rcu_callbacks s /\ cache_head s' = cache_head s /\ sl_buddy s' = sl_buddy s.
Proof. unfold slab_list_remove. intros H. bind_inv H. by injection H as <-. Qed.

Section shrink.
Context (T : Z) (U : Z -> Prop) (rest : list (Z * Z)) (G : gmap Z slab_cache).
Abbreviation inv := (slab_inv T U rest G).
Abbreviation lse := (loose T U rest G).

(** A cache whose pages go through a grace period. *)
Definition typesafe (k : Z) : bool :=
  match G !! k with Some c => negb (Z.land (c_flags c) SLAB_TYPESAFE_BY_RCU =? 0) | None => false end.

(** What destroying an unused page leaves. *)
Definition gone (pg : page) : option page :=
  if typesafe (pg_cache pg) then Some (with_place Deferred pg) else None.

Lemma release_spec s A L a pg h :
  lse s A L a pg -> headers s !! a = Some h -> h_slab_phys h = pg_frame pg * PAGE_SIZE ->
  exists s', pmm_slab_release_to_buddy_locked s (pg_cache pg) a = Some s' /\ inv s' A L /\
    rcu_callbacks s' = rcu_callbacks s /\ caches s' = caches s /\ cache_head s' = cache_head s /\
    refs_kept rest (sl_buddy s) (sl_buddy s').
Proof.
  intros [Ha Hd Hg Hnl Hhd Hpg Hthis Hls Hmem Htr Hown Hown' Hfree Hrep] Hh Hph.
  destruct Hthis as (Haddr & _ & _ & c & HG & Ho & Hgo & _). pose proof HG as HG'.
  rewrite <- Hg, lookup_fmap, fmap_Some in HG'. destruct HG' as (c0 & Hc0 & ->). change (slab_order (geom c0)) with (slab_order c0) in Ho.
  pose proof Hgo as (Hor & _). unfold SLAB_MAX_ORDER in Hor. cbn in Hor.
  unfold pmm_slab_release_to_buddy_locked. rewrite Hc0. cbn [mbind option_bind]. rewrite Hh. cbn [mbind option_bind].
  rewrite Hph, frame_of_phys, <- Ho. fold (order_to_pages (pg_order pg)).
  rewrite order_to_pages_val by (unfold MAX_ORDER; lia). pose proof (pow2_pos (pg_order pg) ltac:(lia)).
  assert (Hb : block_ok T (pg_order pg) (pg_frame pg) /\ total_frames (sl_buddy s) = T).
  { destruct Hd as (F & _ & _ & HT & Hl & _). inversion Hl. done. }
  destruct Hb as [(_ & Hf0 & _ & Hend) HT].
  destruct (set_frames_spec (Z.to_nat (2 ^ pg_order pg)) s (pg_frame pg) NULL NULL) as (t' & h' & -> & Ht' & Hh');
    [done|lia|intros x Hx; apply Htr; lia|]. rewrite Z2Nat.id in * by lia. cbn [mbind option_bind].
  destruct (divided_free _ _ _ [] _ _ _ Hd) as (b' & Hfree' & Hd' & Hrc).
  unfold pmm_buddy_free_locked_for_pcp in Hfree'. cbn [sl_buddy with_frames].
  destruct (pmm_buddy_free_locked (sl_buddy s) (pg_frame pg * PAGE_SIZE) (pg_order pg)) as [b1|]; [|done].
  cbn [mbind option_bind] in Hfree' |- *. injection Hfree' as <-.
  rewrite order_to_pages_val in * by (unfold MAX_ORDER; lia).
  eexists. split; [done|]. split.
  2: { do 3 (split; [done|]). apply (refs_kept_app (page_blocks A)). by eapply (refs_kept_block T U _ _ []). }
  assert (Hsep : forall x b pgb, A !! b = Some pgb -> in_page pgb x -> ~ (pg_frame pg <= x < pg_frame pg + 2 ^ pg_order pg)).
  { intros x b pgb Hb Hx Hx'. destruct Hd as (F & _ & _ & _ & _ & Hnd & _).
    rewrite (page_blocks_delete A b pgb) in Hnd by done. unfold owned_frames in Hnd. cbn [app] in Hnd.
    rewrite !bind_cons in Hnd. apply NoDup_app in Hnd as (_ & Hdj & _). cbn [fst snd] in Hdj.
    apply (Hdj x); [by apply elem_of_seqZ|]. apply elem_of_app. left. by apply elem_of_seqZ. }
  constructor; cbn [sl_buddy caches headers words trackers heads double_allocs with_headers with_frames with_buddy]; try done.
  - eapply lists_ok_links_on; [|exact Hls]. intros k w b Hb. rewrite lookup_delete_ne; [done|]. intros <-.
    apply Hmem in Hb as (? & ? & _). congruence.
  - intros x Hx. rewrite Ht', Hh'. specialize (Htr x Hx). case_decide; [split; by eexists|done].
  - intros x b pgb Hb Hx. rewrite Ht', Hh'. specialize (Hsep x b pgb Hb Hx). case_decide; [done|]. by apply (Hown x b).
  - intros x Hx Hno. rewrite Ht'. case_decide as Hin; [done|]. by apply Hfree.
Qed.

(** A page that is off the lists and stays there. *)
Lemma off_spec s A L a pg h l p :
  lse s A L a pg -> headers s !! a = Some h -> unlinked h = hdr pg -> (forall w, p <> OnList w) ->
  exists s', upd_header s a (with_on_list (place_kind p)) = Some s' /\
    inv (with_rcu s' l) (<[a := with_place p pg]> A) L /\ caches s' = caches s /\
    cache_head s' = cache_head s /\ rcu_callbacks s' = rcu_callbacks s /\ sl_buddy s' = sl_buddy s.
Proof.
  intros [Ha Hd Hg Hnl Hhd Hpg Hthis Hls Hmem Htr Hown Hown' Hfree Hrep] Hh Hu Hp.
  unfold upd_header. rewrite Hh. cbn [mbind option_bind]. eexists. split; [done|]. split; [|done].
  constructor; cbn [sl_buddy caches headers words trackers heads double_allocs with_headers with_rcu]; try done.
  - eapply divided_perm; [|exact Hd]. by rewrite page_blocks_insert.
  - rewrite fmap_insert, fmap_insert. rewrite fmap_delete in Hhd. rewrite <- Hhd, insert_delete_eq. f_equal.
    unfold with_place. solve_hdr h. all: by injection Hu.
  - by apply restored_lookup.
  - eapply lists_ok_links_on; [|exact Hls]. intros k w b Hb. rewrite lookup_insert_ne; [done|]. intros <-.
    apply Hmem in Hb as (? & ? & _). congruence.
  - intros k w b. rewrite Hmem. destruct (decide (b = a)) as [->|Hne].
    + rewrite lookup_insert_eq, Ha. split; intros (? & [=] & H1 & H2); subst. by destruct (Hp w).
    + by rewrite lookup_insert_ne.
  - intros f. apply (restored_lookup (fun b pgb => in_page pgb f -> _)); [apply Hown'|].
    intros b pgb Hb. by apply (Hown f b).
  - intros f Hf Hno. apply Hfree; [done| |].
    + intros b pgb Hb. apply (Hno b). rewrite lookup_insert_ne; congruence.
    + apply (Hno a (with_place p pg)). apply lookup_insert_eq.
Qed.

Lemma drained_id pg : pg_remote pg = [] -> drained pg = pg.
Proof. destruct pg. unfold drained, with_slots. cbn. by intros ->. Qed.

Lemma flags_typesafe s A L k c : inv s A L -> caches s !! k = Some c ->
  negb (Z.land (c_flags c) SLAB_TYPESAFE_BY_RCU =? 0) = typesafe k.
Proof.
  intros Hi Hc. unfold typesafe. rewrite <- (si_geom _ _ _ _ _ _ _ Hi), lookup_fmap, Hc. done.
Qed.

(** Destroying an unused page: its block goes back to the buddy allocator, or
    waits for a grace period. *)
Lemma destroy_spec s A L a pg :
  inv s A L -> A !! a = Some pg -> pg_on pg = OnList Empty -> pg_remote pg = [] ->
  exists s' L', pmm_slab_destroy_locked s (pg_cache pg) a = Some s' /\
    inv s' (partial_alter (fun _ => gone pg) a A) L' /\
    rcu_callbacks s' = (if typesafe (pg_cache pg) then a :: rcu_callbacks s else rcu_callbacks s) /\
    cache_head s' = cache_head s /\ refs_kept rest (sl_buddy s) (sl_buddy s').
Proof.
  intros Hi Ha Hon Hr. unfold pmm_slab_destroy_locked.
  destruct (drain_spec T U rest G s A L a pg Hi Ha) as (s1 & Hdr & Hi1 & Hc1 & _ & _ & Hb1).
  assert (Hrcu1 : rcu_callbacks s1 = rcu_callbacks s /\ cache_head s1 = cache_head s) by by eapply drain_kept.
  rewrite Hdr. cbn [mbind option_bind]. rewrite drained_id, insert_id in Hi1 by done.
  destruct (header_at _ _ _ _ _ _ _ _ _ Hi1 Ha) as (h1 & -> & Hu1). cbn [mbind option_bind].
  destruct (hdr_fields _ _ Hu1) as (_ & _ & _ & _ & Hol & _). rewrite Hol, Hon. cbn [place_kind list_kind].
  change (SLAB_LIST_EMPTY =? SLAB_LIST_PARTIAL) with false. change (SLAB_LIST_EMPTY =? SLAB_LIST_FULL) with false.
  rewrite Z.eqb_refl.
  destruct (unlink_page T U rest G s1 A L a pg Empty Hi1 Ha Hon)
    as (s2 & L2 & h2 & Hrm & Hlo & Hh2 & Hu2 & _ & Hrcu2 & _).
  assert (Hch2 : cache_head s2 = cache_head s1 /\ sl_buddy s2 = sl_buddy s1) by by eapply list_remove_keeps.
  destruct Hch2 as [Hch2 Hb2].
  rewrite Hrm. cbn [mbind option_bind].
  destruct (cache_at _ _ _ _ _ _ _ _ _ Hi Ha) as (c & Hc & HG & _).
  assert (exists c2, caches s2 !! pg_cache pg = Some c2 /\ geom c2 = geom c) as (c2 & Hc2 & Hg2).
  { rewrite <- (lo_geom _ _ _ _ _ _ _ _ _ Hlo), lookup_fmap, fmap_Some in HG. destruct HG as (c2 & ? & ?). by exists c2. }
  rewrite Hc2. cbn [mbind option_bind].
  assert (Hfl : negb (Z.land (c_flags c2) SLAB_TYPESAFE_BY_RCU =? 0) = typesafe (pg_cache pg)).
  { rewrite <- (flags_typesafe s A L (pg_cache pg) c Hi Hc). f_equal.
    change (c_flags c2) with (c_flags (geom c2)). by rewrite Hg2. }
  rewrite Hfl. unfold gone. destruct (typesafe (pg_cache pg)).
  - destruct (off_spec s2 _ L2 a pg h2 (a :: rcu_callbacks s2) Deferred Hlo Hh2 Hu2 ltac:(done)) as (s3 & Hup & Hi3 & _ & Hch3 & Hrcu3 & Hb3).
    cbn [place_kind] in Hup. rewrite Hup. cbn [mbind option_bind]. eexists _, L2. split; [done|]. rewrite Hrcu3. split; [|split; [|split]].
    + by rewrite insert_delete_eq in Hi3.
    + cbn. by destruct Hrcu1 as [<- _]; rewrite Hrcu2.
    + cbn. destruct Hrcu1 as [_ <-]. congruence.
    + cbn. by rewrite Hb3, Hb2, Hb1.
  - unfold upd_header. rewrite Hh2. cbn [mbind option_bind].
    destruct (release_spec (with_headers s2 (<[a := with_on_list SLAB_LIST_NONE h2]> (headers s2)))
      (delete a A) L2 a pg (with_on_list SLAB_LIST_NONE h2)) as (s3 & -> & Hi3 & Hrcu3 & _ & Hch3 & Hle3).
    + destruct Hlo. constructor; cbn [sl_buddy caches headers words trackers heads double_allocs with_headers]; try done.
      * by rewrite delete_insert_eq.
      * eapply lists_ok_links; [|exact lo_lists]. intros b n Hb. destruct (decide (b = a)) as [->|Hne].
        -- rewrite lookup_insert_eq. assert (n = h2) as -> by congruence. by eexists.
        -- rewrite lookup_insert_ne by done. by exists n.
    + apply lookup_insert_eq.
    + destruct (hdr_fields _ _ Hu2) as (_ & ? & _). done.
    + eexists _, L2. split; [done|]. split; [exact Hi3|]. rewrite Hrcu3, Hch3. cbn.
      cbn in Hle3. rewrite Hb2, Hb1 in Hle3. destruct Hrcu1 as [<- <-]. by rewrite Hrcu2.
Qed.

(** After the grace period the callback returns the block. *)
Lemma rcu_free_spec s A L a pg :
  inv s A L -> A !! a = Some pg -> pg_on pg = Deferred ->
  exists s', pmm_slab_rcu_free_cb s a = Some s' /\ inv s' (delete a A) L /\
    cache_head s' = cache_head s /\ refs_kept rest (sl_buddy s) (sl_buddy s').
Proof.
  intros Hi Ha Hon. unfold pmm_slab_rcu_free_cb. destruct (header_at _ _ _ _ _ _ _ _ _ Hi Ha) as (h & Hh & Hu).
  rewrite Hh. cbn [mbind option_bind]. destruct (hdr_fields _ _ Hu) as (-> & Hph & _).
  destruct (release_spec s (delete a A) L a pg h) as (s' & -> & Hi' & _ & _ & Hch & Hle); [|done|done|by exists s'].
  apply loose_intro; [done|done|congruence].
Qed.

(** ** The shrinkers *)

Definition reclaim (ks : list Z) (pg : page) : option page :=
  if decide (pg_cache pg ∈ ks /\ pg_on pg = OnList Empty) then gone pg else Some pg.

Lemma reclaim_gone ks pg pg' : gone pg = Some pg' -> reclaim ks pg' = Some pg'.
Proof.
  unfold gone, reclaim. destruct (typesafe _); [|done]. intros [= <-]. case_decide as H; [|done].
  destruct H as [_ [=]].
Qed.

Lemma reclaim_destroyed ks (A : gmap Z page) a pg :
  A !! a = Some pg -> pg_cache pg ∈ ks -> pg_on pg = OnList Empty ->
  omap (reclaim ks) (partial_alter (fun _ => gone pg) a A) = omap (reclaim ks) A.
Proof.
  intros Ha Hk Hon. apply map_eq. intros b. rewrite !lookup_omap. destruct (decide (b = a)) as [->|Hne].
  - rewrite lookup_partial_alter_eq, Ha. destruct (gone pg) as [pg'|] eqn:E; cbn.
    + rewrite (reclaim_gone ks pg pg') by done. unfold reclaim. case_decide; [done|naive_solver].
    + unfold reclaim. case_decide; [done|naive_solver].
  - by rewrite lookup_partial_alter_ne.
Qed.

Lemma reclaim_nothing ks (A : gmap Z page) :
  (forall a pg, A !! a = Some pg -> pg_cache pg ∈ ks -> pg_on pg <> OnList Empty) -> omap (reclaim ks) A = A.
Proof.
  intros Hno. apply map_eq. intros b. rewrite lookup_omap. destruct (A !! b) as [pg|] eqn:E; [|done]. cbn.
  unfold reclaim. case_decide as H; [|done]. destruct H as [Hk Hon]. by apply (Hno b pg) in Hon.
Qed.

Lemma all_placed_gone A a pg :
  all_placed A -> A !! a = Some pg -> pg_on pg = OnList Empty ->
  all_placed (partial_alter (fun _ => gone pg) a A).
Proof.
  intros HA Ha Hon b pgb. destruct (decide (b = a)) as [->|Hne].
  - rewrite lookup_partial_alter_eq. unfold gone. destruct (typesafe _); [|done]. intros [= <-].
    pose proof (HA a pg Ha) as Hp. unfold placed in *. by rewrite Hon in Hp.
  - rewrite lookup_partial_alter_ne by done. apply HA.
Qed.

Lemma NoDup_remove_length (l l' : list Z) a :
  NoDup l -> NoDup l' -> a ∈ l -> (forall b, b ∈ l' <-> b ∈ l /\ b <> a) -> length l = S (length l').
Proof.
  intros Hl Hl' Ha Hm. assert (Hp : l ≡ₚ a :: l').
  { apply NoDup_Permutation; [done| |].
    - constructor; [rewrite Hm; naive_solver|done].
    - intros b. rewrite elem_of_cons, Hm. destruct (decide (b = a)) as [->|]; tauto. }
  by rewrite Hp.
Qed.

Lemma list_length_bound s A L k c w :
  inv s A L -> caches s !! k = Some c -> (length (L k w) <= size (headers s))%nat.
Proof.
  intros Hi Hc. destruct (si_lists _ _ _ _ _ _ _ Hi k c w Hc) as [_ Hnd].
  rewrite <- (length_map_to_list (headers s)), <- (length_fmap fst). apply submseteq_length.
  apply NoDup_submseteq; [done|]. intros a Ha. apply (si_mem _ _ _ _ _ _ _ Hi) in Ha as (pg & Hpg & _).
  destruct (header_at _ _ _ _ _ _ _ _ _ Hi Hpg) as (h & Hh & _). apply list_elem_of_fmap.
  exists (a, h). split; [done|]. by apply elem_of_map_to_list.
Qed.

Lemma cache_kept s A L s' A' L' k : inv s A L -> inv s' A' L' -> is_Some (caches s !! k) -> is_Some (caches s' !! k).
Proof.
  intros Hi Hi' Hs. rewrite <- (fmap_is_Some geom), <- lookup_fmap, (si_geom _ _ _ _ _ _ _ Hi') by done.
  by rewrite <- (si_geom _ _ _ _ _ _ _ Hi), lookup_fmap, fmap_is_Some.
Qed.

(** One page of a cache's empty list is destroyed. *)
Lemma destroy_step s A L k c a :
  inv s A L -> all_placed A -> caches s !! k = Some c -> a ∈ L k Empty ->
  exists s' A' L', pmm_slab_destroy_locked s k a = Some s' /\ inv s' A' L' /\ all_placed A' /\
    omap (reclaim [k]) A' = omap (reclaim [k]) A /\ length (L k Empty) = S (length (L' k Empty)) /\
    cache_head s' = cache_head s /\ is_Some (caches s' !! k) /\ refs_kept rest (sl_buddy s) (sl_buddy s') /\
    forall k' x, live_in A' k' x <-> live_in A k' x.
Proof.
  intros Hi HA Hc Hin. pose proof Hin as (pg & Ha & <- & Hon)%(si_mem _ _ _ _ _ _ _ Hi).
  pose proof (HA a pg Ha) as Hp. unfold placed in Hp. rewrite Hon in Hp. destruct Hp as (Hr & Hl & _).
  destruct (destroy_spec s A L a pg Hi Ha Hon Hr) as (s' & L' & Hrun & Hi' & _ & Hch & Hle).
  assert (Hc' : is_Some (caches s' !! pg_cache pg)) by (eapply cache_kept; [exact Hi|done|by eexists]).
  exists s', (partial_alter (fun _ => gone pg) a A), L'. split; [done|]. split; [done|].
  split; [by apply all_placed_gone|]. split; [apply reclaim_destroyed; [done|set_solver|done]|].
  split; [|split; [done|split; [done|split; [done|]]]].
  - destruct (si_lists _ _ _ _ _ _ _ Hi _ _ Empty Hc) as [_ Hnd].
    destruct Hc' as [c' Hc']. destruct (si_lists _ _ _ _ _ _ _ Hi' _ _ Empty Hc') as [_ Hnd'].
    apply (NoDup_remove_length _ _ a); [done|done|done|].
    intros b. rewrite (si_mem _ _ _ _ _ _ _ Hi'), (si_mem _ _ _ _ _ _ _ Hi).
    destruct (decide (b = a)) as [->|Hne]; [|rewrite lookup_partial_alter_ne by done; naive_solver].
    rewrite lookup_partial_alter_eq. split; [|naive_solver]. unfold gone. destruct (typesafe _); [|naive_solver].
    intros (pg' & [= <-] & _ & [=]).
  - intros k' x. split; intros (b & pgb & Hb & Hk & Hx).
    + destruct (decide (b = a)) as [->|Hne]; [|rewrite lookup_partial_alter_ne in Hb by done; by exists b, pgb].
      rewrite lookup_partial_alter_eq in Hb. unfold gone in Hb. destruct (typesafe _); [|done].
      injection Hb as <-. by exists a, pg.
    + destruct (decide (b = a)) as [->|Hne]; [|exists b, pgb; by rewrite lookup_partial_alter_ne].
      assert (pgb = pg) as -> by congruence. rewrite Hl in Hx. by apply not_elem_of_nil in Hx.
Qed.

Lemma shrink_cache_spec n : forall s A L k,
  inv s A L -> all_placed A -> is_Some (caches s !! k) -> (length (L k Empty) <= n)%nat ->
  exists s' L', shrink_cache s n k = Some s' /\ inv s' (omap (reclaim [k]) A) L' /\
    all_placed (omap (reclaim [k]) A) /\ cache_head s' = cache_head s /\ refs_kept rest (sl_buddy s) (sl_buddy s') /\
    forall k' x, live_in (omap (reclaim [k]) A) k' x <-> live_in A k' x.
Proof.
  assert (Hdone : forall s A L k c, inv s A L -> caches s !! k = Some c -> c_empty c = NULL ->
    omap (reclaim [k]) A = A).
  { intros s A L k c Hi Hc He. apply reclaim_nothing. intros a pg Ha Hk.
    eapply (empty_list _ _ _ _ s A L k c Empty); [done|done|done|done|set_solver]. }
  induction n as [|n IH]; intros s A L k Hi HA [c Hc] Hn; cbn [shrink_cache]; rewrite Hc; cbn [mbind option_bind].
  - destruct (Z.eqb_spec (c_empty c) NULL) as [He|He].
    + rewrite (Hdone s A L k c) by done. by exists s, L.
    + destruct (head_page _ _ _ _ s A L k c Empty Hi Hc He) as (pg & Ha & Hk & Hon).
      assert (Hin : list_head Empty c ∈ L k Empty) by (apply (si_mem _ _ _ _ _ _ _ Hi); by exists pg).
      destruct (L k Empty); [by apply not_elem_of_nil in Hin|simpl in Hn; lia].
  - destruct (Z.eqb_spec (c_empty c) NULL) as [He|He].
    + rewrite (Hdone s A L k c) by done. by exists s, L.
    + destruct (head_page _ _ _ _ s A L k c Empty Hi Hc He) as (pg & Ha & Hk & Hon).
      assert (Hin : c_empty c ∈ L k Empty) by (apply (si_mem _ _ _ _ _ _ _ Hi); by exists pg).
      destruct (destroy_step s A L k c _ Hi HA Hc Hin) as (s1 & A1 & L1 & -> & Hi1 & HA1 & Hre & Hlen & Hch & Hc1 & Hle & Hlv).
      cbn [mbind option_bind]. destruct (IH s1 A1 L1 k Hi1 HA1 Hc1) as (s' & L' & -> & Hi' & HA' & Hch' & Hle' & Hlv'); [lia|].
      rewrite Hre in *. exists s', L'. split; [done|]. split; [done|]. split; [done|]. split; [congruence|].
      split; [by etrans|].
      intros k' x. by rewrite Hlv', Hlv.
Qed.

(** The list of caches. *)
Fixpoint cache_chain (l : list Z) (hd : Z) : Prop :=
  match l with
  | [] => hd = NULL
  | k :: l' => hd = k /\ k <> NULL /\ exists c, G !! k = Some c /\ cache_chain l' (cache_next c)
  end.

Lemma reclaim_compose k l (A : gmap Z page) : omap (reclaim l) (omap (reclaim [k]) A) = omap (reclaim (k :: l)) A.
Proof.
  apply map_eq. intros b. rewrite !lookup_omap. destruct (A !! b) as [pg|]; [|done]. cbn.
  unfold reclaim at 2 3. destruct (decide (pg_cache pg ∈ [k] /\ pg_on pg = OnList Empty)) as [[Hk Hon]|Hn].
  - destruct (decide (pg_cache pg ∈ k :: l /\ pg_on pg = OnList Empty)); [|set_solver].
    destruct (gone pg) as [pg'|] eqn:E; [|done]. cbn. by eapply reclaim_gone.
  - cbn. unfold reclaim. repeat case_decide; (done || set_solver).
Qed.

Lemma cache_step s A L k c : inv s A L -> G !! k = Some c ->
  exists c', caches s !! k = Some c' /\ cache_next c' = cache_next c.
Proof.
  intros Hi HG. rewrite <- (si_geom _ _ _ _ _ _ _ Hi), lookup_fmap, fmap_Some in HG.
  destruct HG as (c' & Hc & ->). by exists c'.
Qed.

Lemma shrink_caches_spec l : forall s A L m hd,
  inv s A L -> all_placed A -> cache_chain l hd -> (length l <= m)%nat ->
  exists s' L', shrink_caches s m hd = Some s' /\ inv s' (omap (reclaim l) A) L' /\
    all_placed (omap (reclaim l) A) /\ cache_head s' = cache_head s /\ refs_kept rest (sl_buddy s) (sl_buddy s') /\
    forall k' x, live_in (omap (reclaim l) A) k' x <-> live_in A k' x.
Proof.
  induction l as [|k l IH]; intros s A L m hd Hi HA Hch Hm.
  { simpl in Hch. subst hd. exists s, L. rewrite reclaim_nothing by (intros ? ? ? Hk; by apply not_elem_of_nil in Hk).
    split; [by destruct m|done]. }
  destruct Hch as (-> & Hkn & c & HG & Hch). destruct m as [|m]; simpl in Hm; [lia|].
  cbn [shrink_caches]. destruct (Z.eqb_spec k NULL); [done|].
  destruct (cache_step s A L k c Hi HG) as (c1 & Hc1 & _).
  destruct (shrink_cache_spec (size (headers s)) s A L k Hi HA ltac:(by eexists)) as (s1 & L1 & -> & Hi1 & HA1 & Hh1 & Hle1 & Hl1);
    [by eapply list_length_bound|]. cbn [mbind option_bind].
  destruct (cache_step s1 _ L1 k c Hi1 HG) as (c2 & -> & Hnext). cbn [mbind option_bind]. rewrite Hnext.
  destruct (IH s1 _ L1 m (cache_next c) Hi1 HA1 Hch) as (s' & L' & -> & Hi' & HA' & Hh' & Hle' & Hl'); [lia|].
  rewrite reclaim_compose in *. exists s', L'. split; [done|]. split; [done|]. split; [done|]. split; [congruence|].
  split; [by etrans|].
  intros k' x. by rewrite Hl', Hl1.
Qed.

(** Every registered cache, from the head of the list. *)
Definition registered (s : slabs) (l : list Z) : Prop :=
  cache_chain l (cache_head s) /\ NoDup l /\ forall k, is_Some (G !! k) -> k ∈ l.

Lemma registered_length s A L l : inv s A L -> registered s l -> (length l <= size (caches s))%nat.
Proof.
  intros Hi (Hch & Hnd & _). rewrite <- (length_map_to_list (caches s)), <- (length_fmap fst).
  apply submseteq_length, NoDup_submseteq; [done|]. intros k Hk.
  assert (HG : is_Some (G !! k)).
  { clear Hnd. revert Hch. generalize (cache_head s). induction l as [|k' l IH]; intros hd Hch; [by apply not_elem_of_nil in Hk|].
    destruct Hch as (-> & _ & c & HG & Hch). apply elem_of_cons in Hk as [->|Hk]; [by eexists|by eapply IH]. }
  destruct HG as [c HG]. destruct (cache_step s A L k c Hi HG) as (c' & Hc' & _).
  apply list_elem_of_fmap. exists (k, c'). split; [done|]. by apply elem_of_map_to_list.
Qed.

Lemma shrink_all_spec s A L l :
  inv s A L -> all_placed A -> registered s l ->
  exists s' L', pmm_slab_shrink_all_locked s = Some s' /\ inv s' (omap (reclaim l) A) L' /\
    all_placed (omap (reclaim l) A) /\ registered s' l /\ refs_kept rest (sl_buddy s) (sl_buddy s') /\
    forall k' x, live_in (omap (reclaim l) A) k' x <-> live_in A k' x.
Proof.
  intros Hi HA Hreg. pose proof Hreg as (Hch & Hnd & Hall).
  destruct (shrink_caches_spec l s A L (size (caches s)) (cache_head s) Hi HA Hch) as (s' & L' & Hrun & Hi' & HA' & Hh & Hle & Hl);
    [by eapply registered_length|].
  exists s', L'. split; [done|]. split; [done|]. split; [done|]. split; [|done]. unfold registered. by rewrite Hh.
Qed.

(** ** Bounded shrinking *)

Lemma list_tail_spec (hs : gmap Z slab_header) l : forall p a fuel,
  seg hs p (a :: l) a NULL -> (length l < fuel)%nat ->
  exists b, list_tail hs fuel a = Some b /\ b ∈ a :: l.
Proof.
  induction l as [|x l IH]; intros p a fuel (_ & Hn & h & Hh & _ & Hseg) Hf; destruct fuel as [|fuel]; simpl in Hf; try lia;
    cbn [list_tail]; rewrite Hh; cbn [mbind option_bind].
  - change (lnext h) with (h_next h) in Hseg. simpl in Hseg. rewrite Hseg, Z.eqb_refl. exists a. split; [done|set_solver].
  - change (lnext h) with (h_next h) in Hseg. pose proof Hseg as (Hx & Hxn & _). rewrite Hx.
    destruct (Z.eqb_spec x NULL); [done|]. rewrite Hx in Hseg.
    destruct (IH a x fuel Hseg) as (b & -> & Hb); [lia|]. exists b. split; [done|set_solver].
Qed.

Lemma shrink_bounded_spec n : forall s A L k,
  inv s A L -> all_placed A -> is_Some (caches s !! k) ->
  exists s' A' L', shrink_cache_bounded s n k = Some s' /\ inv s' A' L' /\ all_placed A' /\
    length (L' k Empty) = (length (L k Empty) - n)%nat /\ cache_head s' = cache_head s /\
    refs_kept rest (sl_buddy s) (sl_buddy s') /\
    forall k' x, live_in A' k' x <-> live_in A k' x.
Proof.
  induction n as [|n IH]; intros s A L k Hi HA [c Hc]; cbn [shrink_cache_bounded].
  { exists s, A, L. rewrite Nat.sub_0_r. done. }
  rewrite Hc. cbn [mbind option_bind]. destruct (si_lists _ _ _ _ _ _ _ Hi k c Empty Hc) as [Hseg _]. cbn [list_head] in Hseg.
  destruct (L k Empty) as [|a l] eqn:El.
  { simpl in Hseg. rewrite Hseg, Z.eqb_refl. exists s, A, L. rewrite El. done. }
  pose proof Hseg as (He & Hn & _). rewrite He in *. destruct (Z.eqb_spec a NULL); [done|].
  pose proof (list_length_bound s A L k c Empty Hi Hc) as Hlb. rewrite El in Hlb.
  destruct (list_tail_spec (headers s) l NULL a (size (headers s)) Hseg) as (b & -> & Hb); [simpl in Hlb; lia|].
  cbn [mbind option_bind]. rewrite <- El in Hb.
  destruct (destroy_step s A L k c b Hi HA Hc Hb) as (s1 & A1 & L1 & -> & Hi1 & HA1 & _ & Hlen & Hch & Hc1 & Hle & Hlv).
  cbn [mbind option_bind]. destruct (IH s1 A1 L1 k Hi1 HA1 Hc1) as (s' & A' & L' & -> & Hi' & HA' & Hlen' & Hch' & Hle' & Hlv').
  exists s', A', L'. split; [done|]. split; [done|]. split; [done|]. rewrite El in Hlen.
  split; [simpl in *; lia|]. split; [congruence|]. split; [by etrans|]. intros k' x. by rewrite Hlv', Hlv.
Qed.
End shrink.
