(* ===== verification/Pmm.v ===== *)
(** * The public page allocator

    Models [pmm_buddy_alloc] and [pmm_buddy_free] of kernel/mm/pmm.c: single
    frames go through the calling CPU's stash (kernel/mm/pcp.c), larger blocks
    and a dry stash through the buddy allocator, and an allocation that finds
    nothing first returns every unused slab page and tries once more. *)

From S2P Require Import Prelude DList Buddy PmmRef Pcp Slab.

Record pmm := mkPmm { pm_slabs : slabs; pm_cpus : list pcp }.

Definition pm_buddy (p : pmm) : buddy := sl_buddy (pm_slabs p).
Definition with_pm_buddy (p : pmm) (b : buddy) : pmm := mkPmm (with_buddy (pm_slabs p) b) (pm_cpus p).
Definition with_pm_cpu (p : pmm) (cpu : nat) (c : pcp) : pmm := mkPmm (pm_slabs p) (<[cpu := c]> (pm_cpus p)).

(** The stamp on the way out: reference count 1, DOUBLE-ALLOC reports. *)
Definition stamp (p : pmm) (phys order : Z) : option pmm :=
  '(b, reports) ← pmm_mark_allocated (pm_buddy p) phys order;
  let p := with_pm_buddy p b in
  Some (mkPmm (with_reports (pm_slabs p) (double_allocs (pm_slabs p) ++ reports)) (pm_cpus p)).

(** Under [g_pmm_lock]: try, shrink every cache, try again. *)
Definition pmm_buddy_alloc_slow (p : pmm) (order : Z) : option (pmm * Z) :=
  '(b, r) ← pmm_buddy_alloc_locked (pm_buddy p) order;
  let p := with_pm_buddy p b in
  '(p, r) ←
    (if r =? PMM_INVALID_ADDR then
       s ← pmm_slab_shrink_all_locked (pm_slabs p);
       let p := mkPmm s (pm_cpus p) in
       '(b, r) ← pmm_buddy_alloc_locked (pm_buddy p) order;
       Some (with_pm_buddy p b, r)
     else Some (p, r));
  if negb (r =? PMM_INVALID_ADDR) then p ← stamp p r order; Some (p, r)
  else Some (p, r).

Definition pmm_buddy_alloc (p : pmm) (cpu : nat) (order : Z) : option (pmm * Z) :=
  if order =? 0 then
    c ← pm_cpus p !! cpu;
    '(b, c, r) ← pcp_alloc (pm_buddy p) c;
    let p := with_pm_cpu (with_pm_buddy p b) cpu c in
    if negb (r =? PMM_INVALID_ADDR) then p ← stamp p r 0; Some (p, r)
    else pmm_buddy_alloc_slow p order
  else pmm_buddy_alloc_slow p order.

Definition pmm_buddy_free (p : pmm) (cpu : nat) (addr order : Z) : option pmm :=
  if order =? 0 then
    c ← pm_cpus p !! cpu;
    '(b, c) ← pcp_free (pm_buddy p) c addr;
    Some (with_pm_cpu (with_pm_buddy p b) cpu c)
  else
    b ← pmm_buddy_free_locked (pm_buddy p) addr order;
    Some (with_pm_buddy p (with_free_pages b (u64 (free_pages b + order_to_pages order)))).
