(* ===== verification/PmmSpec.v ===== *)
(** * The public page allocator: correctness

    The invariant of the whole physical allocator (buddy system, per-CPU
    stashes, slab caches) and the effect of every public call on it,
    and the reference counts of the frames that users hold. *)

From S2P Require Import Prelude DList Buddy BuddySpec PmmInit PmmInitSpec BuddyTrace PmmRef Pcp PcpSpec Slab SlabSpec.
From S2P Require Import SlabLists SlabCalls SlabShrink Pmm.

Section pmm.
Context (T : Z) (U : Z -> Prop) (G : gmap Z slab_cache) (regs : list Z).

(** [client]: the blocks handed to callers of [pmm_buddy_alloc]. *)
Record pmm_inv (p : pmm) (client : list (Z * Z)) (A : gmap Z page) (L : Z -> slab_list -> list Z) : Prop := {
  pi_slab : slab_inv T U (blocks (all_stashes (pm_cpus p)) ++ client) G (pm_slabs p) A L;
  pi_placed : all_placed A;
  pi_cpus : Forall (pcp_ok (pm_buddy p)) (pm_cpus p);
  pi_regs : registered G (pm_slabs p) regs;
  pi_geom k c : G !! k = Some c -> geom_ok c;
}.

(** Another state of the buddy allocator under the same slab memory. *)
Lemma slab_inv_buddy rest rest' s A L b :
  slab_inv T U rest G s A L -> divided T U (b, page_blocks A ++ rest') ->
  slab_inv T U rest' G (with_buddy s b) A L.
Proof. intros [] Hd. by constructor. Qed.

Lemma slab_inv_reports rest s A L l :
  slab_inv T U rest G s A L -> l = [] -> slab_inv T U rest G (with_reports s l) A L.
Proof. intros [] ->. by constructor. Qed.

Lemma slab_inv_rest rest rest' s A L :
  rest ≡ₚ rest' -> slab_inv T U rest G s A L -> slab_inv T U rest' G s A L.
Proof.
  intros Hp [Hd]. constructor; try done. eapply divided_perm; [|exact Hd]. by rewrite Hp.
Qed.

Lemma pmm_inv_perm p l l' A L : l ≡ₚ l' -> pmm_inv p l A L -> pmm_inv p l' A L.
Proof. intros Hp [Hs]. constructor; try done. eapply slab_inv_rest; [|exact Hs]. by rewrite Hp. Qed.

(** The stash of one CPU among the others. *)
Definition others (cpus : list pcp) (cpu : nat) : list Z := all_stashes (delete cpu cpus).

Lemma stashes_split cpus cpu c :
  cpus !! cpu = Some c -> all_stashes cpus ≡ₚ stash c ++ others cpus cpu.
Proof.
  intros Hc. unfold others, all_stashes. rewrite (delete_Permutation cpus cpu c) at 1 by done.
  by rewrite bind_cons.
Qed.

Lemma delete_insert_list {B} (l : list B) i x : delete i (<[i := x]> l) = delete i l.
Proof. revert i. induction l as [|y l IH]; intros [|i]; simpl; [done..|]. f_equal. apply IH. Qed.

Lemma stashes_update cpus cpu c c' :
  cpus !! cpu = Some c -> all_stashes (<[cpu := c']> cpus) ≡ₚ stash c' ++ others cpus cpu.
Proof.
  intros Hc. rewrite (stashes_split _ cpu c').
  - unfold others. by rewrite delete_insert_list.
  - apply list_lookup_insert_eq. by eapply lookup_lt_Some.
Qed.

Lemma cpus_ok_le b b' cpus : refs_le b b' -> Forall (pcp_ok b) cpus -> Forall (pcp_ok b') cpus.
Proof. intros Hle H. eapply Forall_impl; [exact H|]. intros c. by apply pcp_ok_le. Qed.

(** No frame is both in a stash and in a client's block. *)
Lemma stash_apart p f o client A L x :
  pmm_inv p ((f, o) :: client) A L -> f <= Z.shiftr x PAGE_SHIFT < f + 2 ^ o ->
  forall c, c ∈ pm_cpus p -> x ∉ stash c.
Proof.
  intros Hi Hx c Hc Hin. destruct (si_div _ _ _ _ _ _ _ (pi_slab _ _ _ _ Hi)) as (F & _ & _ & _ & _ & Hnd & _).
  unfold owned_frames in Hnd. rewrite !bind_app, bind_cons in Hnd.
  apply NoDup_app in Hnd as (_ & _ & Hnd). apply NoDup_app in Hnd as (_ & Hdj & _).
  apply (Hdj (Z.shiftr x PAGE_SHIFT)).
  - apply list_elem_of_bind. exists (page_block x). split; [cbn; apply elem_of_seqZ; lia|].
    apply list_elem_of_fmap. exists x. split; [done|]. apply list_elem_of_bind. by exists c.
  - apply elem_of_app. left. by apply elem_of_seqZ.
Qed.

(** The other blocks of the clients do not meet this one. *)
Lemma client_apart p f o client A L x :
  pmm_inv p ((f, o) :: client) A L -> x ∈ owned_frames client -> ~ (f <= x < f + 2 ^ o).
Proof.
  intros Hi Hx. pose proof (si_div _ _ _ _ _ _ _ (pi_slab _ _ _ _ Hi)) as Hd. rewrite app_assoc in Hd.
  eapply divided_apart; [exact Hd|]. unfold owned_frames. rewrite bind_app, elem_of_app. by right.
Qed.

Lemma stamp_spec p f o client A L :
  pmm_inv p ((f, o) :: client) A L ->
  (forall x, f <= x < f + 2 ^ o -> refcount (pm_buddy p) !! x = Some 0) ->
  exists p', stamp p (f * PAGE_SIZE) o = Some p' /\ pmm_inv p' ((f, o) :: client) A L /\
    forall x, refcount (pm_buddy p') !! x = if decide (f <= x < f + 2 ^ o) then Some 1 else refcount (pm_buddy p) !! x.
Proof.
  intros Hi Hz. pose proof Hi as [Hs Hpl Hcpu Hreg Hgo]. unfold stamp.
  destruct (divided_mark T U (pm_buddy p) f o (page_blocks A ++ blocks (all_stashes (pm_cpus p)) ++ client))
    as (b' & Hrun & HD & Hrc); [|done|].
  { eapply divided_perm; [|apply (si_div _ _ _ _ _ _ _ Hs)]. rewrite !app_assoc. by rewrite <- Permutation_middle. }
  rewrite Hrun. cbn [mbind option_bind]. eexists. split; [done|]. split; [|done].
  constructor; try done; cbn [pm_slabs pm_cpus with_pm_buddy].
  - apply slab_inv_reports; [|rewrite app_nil_r; apply (si_reports _ _ _ _ _ _ _ Hs)].
    eapply slab_inv_buddy; [exact Hs|]. eapply divided_perm; [|exact HD].
    rewrite !app_assoc. by rewrite <- Permutation_middle.
  - unfold pm_buddy in *. cbn [pm_slabs sl_buddy with_reports with_buddy]. apply Forall_forall. intros c Hc.
    assert (Hok : pcp_ok (sl_buddy (pm_slabs p)) c) by by eapply Forall_forall. destruct Hok as [H0 H1 H2 H3].
    constructor; [done|done|done|]. apply Forall_forall. intros x Hx.
    rewrite Forall_forall in H3. destruct (H3 x Hx) as [Hp0 Hrc0]. split; [done|].
    rewrite Hrc. case_decide as Hd; [|done]. exfalso. by eapply (stash_apart p f o client A L x).
Qed.

(** The result of a public allocation. *)
Definition alloc_outcome (client : list (Z * Z)) (A : gmap Z page) (order : Z) (p' : pmm) (r : Z) : Prop :=
  exists A' L', (forall k x, live_in A' k x <-> live_in A k x) /\ (A' = A \/ A' = omap (reclaim G regs) A) /\
    ((r = PMM_INVALID_ADDR /\ pmm_inv p' client A' L' /\
      (forall a pg, A' !! a = Some pg -> pg_on pg <> OnList Empty) /\
      forall f, block_ok T order f ->
        ~ (forall x, f <= x < f + 2 ^ order ->
             U x /\ x ∉ owned_frames (page_blocks A' ++ blocks (all_stashes (pm_cpus p')) ++ client))) \/
     (exists f, r = f * PAGE_SIZE /\ r <> PMM_INVALID_ADDR /\ block_ok T order f /\
        pmm_inv p' ((f, order) :: client) A' L' /\
        forall x, f <= x < f + 2 ^ order -> refcount (pm_buddy p') !! x = Some 1)).

Lemma with_pm_buddy_id p : with_pm_buddy p (pm_buddy p) = p.
Proof. by destruct p as [[] ?]. Qed.

(** One attempt under the lock. *)
Lemma attempt_spec p client A L order :
  pmm_inv p client A L -> 0 <= order ->
  exists b r, pmm_buddy_alloc_locked (pm_buddy p) order = Some (b, r) /\
    ((r = PMM_INVALID_ADDR /\ b = pm_buddy p /\
      forall f, block_ok T order f ->
        ~ (forall x, f <= x < f + 2 ^ order ->
             U x /\ x ∉ owned_frames (page_blocks A ++ blocks (all_stashes (pm_cpus p)) ++ client))) \/
     (exists f p', r = f * PAGE_SIZE /\ r <> PMM_INVALID_ADDR /\ block_ok T order f /\
        stamp (with_pm_buddy p b) r order = Some p' /\ pmm_inv p' ((f, order) :: client) A L /\
        refs_same client (pm_buddy p) (pm_buddy p') /\
        forall x, f <= x < f + 2 ^ order -> refcount (pm_buddy p') !! x = Some 1)).
Proof.
  intros Hi Ho. pose proof Hi as [Hs Hpl Hcpu Hreg Hgo].
  destruct (divided_alloc_block T U _ _ order (si_div _ _ _ _ _ _ _ Hs) Ho) as (b & r & Hrun & Hres).
  exists b, r. split; [done|]. destruct Hres as [(-> & -> & Hno)|(f & -> & Hne & Hrc & Hz & Hb & HD)]; [by left|].
  right. assert (Hi1 : pmm_inv (with_pm_buddy p b) ((f, order) :: client) A L).
  { constructor; try done; cbn [pm_slabs pm_cpus with_pm_buddy].
    - eapply slab_inv_buddy; [exact Hs|]. eapply divided_perm; [|exact HD].
      rewrite !app_assoc. by rewrite <- Permutation_middle.
    - eapply cpus_ok_le; [|exact Hcpu]. unfold pm_buddy. cbn. intros x. by rewrite Hrc. }
  destruct (stamp_spec (with_pm_buddy p b) f order client A L Hi1 Hz) as (p' & Hst & Hi' & Hrc').
  exists f, p'. split; [done|]. split; [done|]. split; [done|]. split; [done|]. split; [done|].
  split; intros x Hx; rewrite Hrc'; [|by case_decide].
  case_decide as Hin; [by eapply client_apart in Hin|]. unfold pm_buddy in *. cbn. by rewrite Hrc.
Qed.

Lemma no_empty_left (A : gmap Z page) :
  (forall a pg, A !! a = Some pg -> pg_cache pg ∈ regs) ->
  forall a pg, omap (reclaim G regs) A !! a = Some pg -> pg_on pg <> OnList Empty.
Proof.
  intros Hreg a pg. rewrite lookup_omap. destruct (A !! a) as [pg0|] eqn:E; [|done]. cbn.
  unfold reclaim. case_decide as H.
  - unfold gone. destruct (typesafe _ _); [|done]. by intros [= <-].
  - intros [= <-] Hon. apply H. split; [by eapply Hreg|done].
Qed.

Lemma alloc_slow_spec p client A L order :
  pmm_inv p client A L -> 0 <= order ->
  exists p' r, pmm_buddy_alloc_slow p order = Some (p', r) /\ alloc_outcome client A order p' r /\
    refs_same client (pm_buddy p) (pm_buddy p').
Proof.
  intros Hi Ho. unfold pmm_buddy_alloc_slow.
  destruct (attempt_spec p client A L order Hi Ho) as (b & r & -> & Hres). cbn [mbind option_bind].
  destruct Hres as [(-> & -> & Hno)|(f & p' & -> & Hne & Hb & Hst & Hi' & Hsm & Hrc)].
  2: { destruct (Z.eqb_spec (f * PAGE_SIZE) PMM_INVALID_ADDR) as [|_]; [done|]. cbn [mbind option_bind].
       destruct (Z.eqb_spec (f * PAGE_SIZE) PMM_INVALID_ADDR) as [|_]; [done|]. cbn [negb]. rewrite Hst.
       cbn [mbind option_bind]. eexists _, _. split; [done|]. split; [|done]. exists A, L. split; [done|]. split; [by left|]. right. by exists f. }
  rewrite Z.eqb_refl, with_pm_buddy_id. pose proof Hi as [Hs Hpl Hcpu Hreg Hgo].
  destruct (shrink_all_spec T U _ G _ A L regs Hs Hpl Hreg) as (s1 & L1 & Hsh & Hs1 & Hpl1 & Hreg1 & Hle & Hlv).
  rewrite Hsh. cbn [mbind option_bind].
  assert (Hsm1 : refs_same client (pm_buddy p) (sl_buddy s1)) by by apply (refs_kept_app (blocks (all_stashes (pm_cpus p)))).
  assert (Hi1 : pmm_inv (mkPmm s1 (pm_cpus p)) client (omap (reclaim G regs) A) L1).
  { constructor; try done. cbn [pm_cpus]. eapply cpus_ok_le; [by eapply refs_kept_le|exact Hcpu]. }
  destruct (attempt_spec _ client _ L1 order Hi1 Ho) as (b & r & -> & Hres). cbn [mbind option_bind].
  destruct Hres as [(-> & -> & Hno1)|(f & p' & -> & Hne & Hb & Hst & Hi' & Hsm & Hrc)].
  - rewrite Z.eqb_refl, with_pm_buddy_id. cbn [negb]. eexists _, _. split; [done|]. split; [|done].
    exists (omap (reclaim G regs) A), L1. split; [done|]. split; [by right|]. left. split; [done|]. split; [done|]. split; [|done].
    apply no_empty_left. intros a pg Ha. destruct Hreg as (_ & _ & Hall). apply Hall.
    destruct (si_page _ _ _ _ _ _ _ Hs a pg Ha) as (_ & _ & _ & c & HG & _). by eexists.
  - destruct (Z.eqb_spec (f * PAGE_SIZE) PMM_INVALID_ADDR) as [|_]; [done|]. cbn [negb]. rewrite Hst.
    cbn [mbind option_bind]. eexists _, _. split; [done|]. split; [eexists _, _; split; [done|]; split; [by right|]; right; by exists f|].
    intros x Hx. rewrite (Hsm x Hx). by apply Hsm1.
Qed.

(** ** Single frames through a stash *)

(** The blocks as seen from one CPU. *)
Lemma cpu_view cpus cpu c A client :
  cpus !! cpu = Some c ->
  page_blocks A ++ blocks (all_stashes cpus) ++ client
  ≡ₚ blocks (stash c) ++ page_blocks A ++ blocks (others cpus cpu) ++ client.
Proof.
  intros Hc. unfold blocks. rewrite (stashes_split cpus cpu c Hc), fmap_app, <- !app_assoc.
  apply Permutation_app_swap_app.
Qed.

Lemma cpu_view' cpus cpu c c' A client :
  cpus !! cpu = Some c ->
  page_blocks A ++ blocks (all_stashes (<[cpu := c']> cpus)) ++ client
  ≡ₚ blocks (stash c') ++ page_blocks A ++ blocks (others cpus cpu) ++ client.
Proof.
  intros Hc. unfold blocks. rewrite (stashes_update cpus cpu c c' Hc), fmap_app, <- !app_assoc.
  apply Permutation_app_swap_app.
Qed.

(** A step of one CPU's stash. *)
Lemma stash_step p client client' A L cpu c b' c' :
  pmm_inv p client A L -> pm_cpus p !! cpu = Some c -> pcp_ok b' c' -> refs_le (pm_buddy p) b' ->
  divided T U (b', blocks (stash c') ++ page_blocks A ++ blocks (others (pm_cpus p) cpu) ++ client') ->
  pmm_inv (with_pm_cpu (with_pm_buddy p b') cpu c') client' A L.
Proof.
  intros [Hs Hpl Hcpu Hreg Hgo] Hc Hok Hle HD. constructor; try done; cbn [pm_slabs pm_cpus with_pm_buddy with_pm_cpu].
  - eapply slab_inv_buddy; [exact Hs|]. eapply divided_perm; [|exact HD]. by rewrite (cpu_view' _ _ c).
  - apply Forall_insert; [|done]. by eapply cpus_ok_le.
Qed.

Lemma page_not_invalid f : f * PAGE_SIZE <> PMM_INVALID_ADDR.
Proof. unfold PMM_INVALID_ADDR. rewrite PAGE_SIZE_val. lia. Qed.

Lemma pmm_alloc_spec p client A L cpu order :
  pmm_inv p client A L -> is_Some (pm_cpus p !! cpu) -> 0 <= order ->
  exists p' r, pmm_buddy_alloc p cpu order = Some (p', r) /\ alloc_outcome client A order p' r /\
    refs_same client (pm_buddy p) (pm_buddy p').
Proof.
  intros Hi [c Hc] Ho. unfold pmm_buddy_alloc. destruct (Z.eqb_spec order 0) as [->|_]; [|by eapply alloc_slow_spec].
  rewrite Hc. cbn [mbind option_bind]. pose proof Hi as [Hs Hpl Hcpu Hreg Hgo].
  destruct (pcp_alloc_spec T U (pm_buddy p) c (page_blocks A ++ blocks (others (pm_cpus p) cpu) ++ client))
    as (b' & c' & r & -> & Hok' & Hle & Hres).
  { by eapply Forall_lookup_1 in Hcpu. }
  { eapply divided_perm; [|apply (si_div _ _ _ _ _ _ _ Hs)]. by apply cpu_view. }
  assert (Hsm : refs_same client (pm_buddy p) b').
  { rewrite app_assoc in Hle. by apply (refs_kept_app (page_blocks A ++ blocks (others (pm_cpus p) cpu))). }
  apply refs_kept_le in Hle. cbn [mbind option_bind]. destruct Hres as [(-> & HD & _)|([Hr Hz] & HD)].
  - rewrite Z.eqb_refl. cbn [negb].
    destruct (alloc_slow_spec (with_pm_cpu (with_pm_buddy p b') cpu c') client A L 0) as (p' & r & Hrun & Hout & Hsm');
      [by eapply stash_step|lia|].
    exists p', r. split; [done|]. split; [done|]. intros x Hx. rewrite (Hsm' x Hx). by apply Hsm.
  - set (f := Z.shiftr r PAGE_SHIFT) in *. rewrite Hr in *.
    destruct (Z.eqb_spec (f * PAGE_SIZE) PMM_INVALID_ADDR) as [He|_]; [by apply page_not_invalid in He|]. cbn [negb].
    assert (Hi1 : pmm_inv (with_pm_cpu (with_pm_buddy p b') cpu c') ((f, 0) :: client) A L).
    { eapply stash_step; [done|done|done|done|]. eapply divided_perm; [|exact HD].
      rewrite page_block_frame, !app_assoc. by rewrite <- Permutation_middle. }
    destruct (stamp_spec _ f 0 client A L Hi1) as (p' & -> & Hi' & Hrc).
    { intros x Hx. change (2 ^ 0) with 1 in Hx. by replace x with f by lia. }
    cbn [mbind option_bind]. eexists _, _. split; [done|]. split.
    2: { intros x Hx. rewrite Hrc. case_decide as Hin; [by eapply client_apart in Hin|]. by apply Hsm. }
    exists A, L. split; [done|]. split; [by left|]. right. exists f.
    split; [done|]. split; [apply page_not_invalid|]. split; [|split; [done|]].
    + destruct (si_div _ _ _ _ _ _ _ (pi_slab _ _ _ _ Hi1)) as (F & _ & _ & _ & Hl & _).
      rewrite !Forall_app, Forall_cons in Hl. apply Hl.
    + intros x Hx. rewrite Hrc. by case_decide.
Qed.

Lemma pmm_free_spec p l1 f order l2 A L cpu :
  pmm_inv p (l1 ++ (f, order) :: l2) A L -> is_Some (pm_cpus p !! cpu) ->
  exists p', pmm_buddy_free p cpu (f * PAGE_SIZE) order = Some p' /\ pmm_inv p' (l1 ++ l2) A L /\
    refs_kept (l1 ++ l2) (pm_buddy p) (pm_buddy p').
Proof.
  intros Hi [c Hc]. pose proof Hi as [Hs Hpl Hcpu Hreg Hgo]. unfold pmm_buddy_free.
  destruct (Z.eqb_spec order 0) as [->|_].
  - rewrite Hc. cbn [mbind option_bind].
    destruct (pcp_free_spec T U (pm_buddy p) c f (page_blocks A ++ blocks (others (pm_cpus p) cpu) ++ l1 ++ l2))
      as (b' & c' & -> & Hok' & Hle & HD).
    { by eapply Forall_lookup_1 in Hcpu. }
    { eapply divided_perm; [|apply (si_div _ _ _ _ _ _ _ Hs)]. rewrite (cpu_view _ _ c) by done.
      rewrite !app_assoc. by rewrite <- Permutation_middle. }
    cbn [mbind option_bind]. eexists. split; [done|]. split.
    + eapply stash_step; [done..| |done]. by eapply refs_kept_le.
    + rewrite app_assoc in Hle. by apply refs_kept_app in Hle.
  - pose proof (si_div _ _ _ _ _ _ _ Hs) as Hd. rewrite !app_assoc in Hd.
    destruct (divided_free _ _ _ _ _ _ _ Hd) as (b' & Hfree & HD & Hrc).
    unfold pmm_buddy_free_locked_for_pcp in Hfree. fold (pm_buddy p) in Hfree.
    destruct (pmm_buddy_free_locked (pm_buddy p) (f * PAGE_SIZE) order) as [b1|]; [|done].
    cbn [mbind option_bind] in Hfree |- *. injection Hfree as <-. eexists. split; [done|].
    apply (refs_kept_block _ _ _ _ _ _ _ _ Hd) in Hrc. rewrite <- !app_assoc in Hrc.
    do 2 apply refs_kept_app in Hrc.
    split; [|done]. constructor; try done; cbn [pm_slabs pm_cpus with_pm_buddy].
    + eapply slab_inv_buddy; [exact Hs|]. by rewrite <- !app_assoc in HD.
    + eapply cpus_ok_le; [by eapply refs_kept_le|done].
Qed.
End pmm.

(** ** Reference counts *)

Section refs.
Context (T : Z) (U : Z -> Prop).

(** A held frame is a frame, and has a reference count. *)
Lemma held_frame s l1 f l2 :
  divided T U (s, l1 ++ (f, 0) :: l2) -> 0 <= f < total_frames s /\ is_Some (refcount s !! f).
Proof.
  intros (F & Hi & _ & HT & Hl & _). apply Forall_app in Hl as [_ Hl]. inversion Hl as [|? ? Hb _]; subst.
  apply block_ok_0 in Hb. cbn in Hb. split; [done|]. by apply (c_refs _ _ (proj1 Hi)).
Qed.

(** Any change of the count of a held frame. *)
Lemma divided_set_ref s l1 f l2 v :
  divided T U (s, l1 ++ (f, 0) :: l2) ->
  divided T U (with_refcount s (<[f := v]> (refcount s)), l1 ++ (f, 0) :: l2).
Proof.
  intros HD. apply divided_refcount; [done| |].
  - intros x [y Hy]. destruct (decide (x = f)) as [->|]; [rewrite lookup_insert_eq; by eexists|].
    rewrite lookup_insert_ne by done. by eexists.
  - intros x. destruct (decide (x = f)) as [->|]; [|left; by rewrite lookup_insert_ne by done].
    right; left. unfold owned_frames. rewrite bind_app, bind_cons, !elem_of_app. right; left.
    apply elem_of_seqZ. cbn. lia.
Qed.

Lemma ref_inc_spec s l1 f l2 rc :
  divided T U (s, l1 ++ (f, 0) :: l2) -> refcount s !! f = Some rc ->
  exists s', pmm_ref_inc s (f * PAGE_SIZE) = Some (s', rc =? 0) /\
    divided T U (s', l1 ++ (f, 0) :: l2) /\
    forall x, refcount s' !! x = if decide (x = f) then Some (u32 (rc + 1)) else refcount s !! x.
Proof.
  intros HD Hrc. destruct (held_frame _ _ _ _ HD) as [Hf _]. unfold pmm_ref_inc. rewrite frame_of_phys.
  destruct (Z.leb_spec (total_frames s) f); [lia|]. rewrite Hrc. cbn [mbind option_bind].
  eexists. split; [done|]. split; [by apply divided_set_ref|]. intros x. cbn [refcount with_refcount].
  case_decide; subst; [by rewrite lookup_insert_eq|by rewrite lookup_insert_ne by done].
Qed.

(** The last reference to an unpinned frame. *)
Definition last_ref (rc pins : Z) : bool := (rc =? 1) && negb (0 <? pins).

Lemma ref_dec_spec s l1 f l2 rc pins :
  divided T U (s, l1 ++ (f, 0) :: l2) -> refcount s !! f = Some rc -> pincount s !! f = Some pins ->
  exists s', pmm_ref_dec s (f * PAGE_SIZE) = Some (s', (rc =? 1) && (0 <? pins)) /\
    divided T U (s', if last_ref rc pins then l1 ++ l2 else l1 ++ (f, 0) :: l2) /\
    forall x, refcount s' !! x = if decide (x = f) then Some (if rc =? 0 then 0 else rc - 1) else refcount s !! x.
Proof.
  intros HD Hrc Hp. destruct (held_frame _ _ _ _ HD) as [Hf _]. unfold pmm_ref_dec, last_ref. rewrite frame_of_phys.
  destruct (Z.leb_spec (total_frames s) f); [lia|]. rewrite Hrc. cbn [mbind option_bind].
  destruct (Z.eqb_spec rc 0) as [->|Hn0].
  { exists s. split; [done|]. split; [done|]. intros x. by case_decide; subst. }
  pose proof (divided_set_ref s l1 f l2 (rc - 1) HD) as HD1. set (s1 := with_refcount s _) in *.
  assert (Hrc1 : forall x, refcount s1 !! x = if decide (x = f) then Some (rc - 1) else refcount s !! x).
  { intros x. cbn [refcount with_refcount s1].
    case_decide; subst; [by rewrite lookup_insert_eq|by rewrite lookup_insert_ne by done]. }
  destruct (Z.eqb_spec (rc - 1) 0), (Z.eqb_spec rc 1); try lia; [|by exists s1].
  change (pincount s1) with (pincount s). rewrite Hp. cbn [mbind option_bind].
  destruct (Z.ltb_spec 0 pins); [by exists s1|]. cbn [negb andb].
  destruct (divided_free T U s1 l1 f 0 l2 HD1) as (s2 & Hrun & HD2 & Hrc2).
  unfold pmm_buddy_free_locked_for_pcp in Hrun.
  destruct (pmm_buddy_free_locked s1 (f * PAGE_SIZE) 0) as [b|]; [|done]. cbn [mbind option_bind] in *.
  injection Hrun as <-. eexists. split; [done|]. split; [done|].
  intros x. etrans; [apply Hrc2|]. rewrite Hrc1. change (2 ^ 0) with 1.
  repeat case_decide; subst; (done || lia || (f_equal; lia)).
Qed.
End refs.
