(* ===== verification/PmmTrace.v ===== *)
(** * The physical allocator as a whole: sequences of calls

    The step relation of all users of physical memory: pages taken and
    returned on any CPU, objects of slab caches, stashes drained, caches
    shrunk.  Its invariant says that the allocator is well formed and that the
    blocks and objects the users hold are the ones it considers live. *)

From S2P Require Import Prelude DList Buddy BuddySpec PmmInit PmmInitSpec BuddyTrace.
From S2P Require Import PmmRef PmmSpec Pcp PcpSpec Slab SlabSpec SlabLists SlabCalls.
From S2P Require Import SlabShrink Pmm.

(** The allocator, the blocks held (first frame, order) and the objects held
    (cache, address). *)
Record pstate := PState { ps_pmm : pmm; ps_blocks : list (Z * Z); ps_objs : list (Z * Z) }.

Inductive pstep : pstate -> pstate -> Prop :=
| pstep_alloc p bs os cpu order p' r :
    is_Some (pm_cpus p !! cpu) -> 0 <= order < 256 -> pmm_buddy_alloc p cpu order = Some (p', r) ->
    pstep (PState p bs os)
      (PState p' (if r =? PMM_INVALID_ADDR then bs else (Z.shiftr r PAGE_SHIFT, order) :: bs) os)
| pstep_free p l1 f order l2 os cpu p' :
    is_Some (pm_cpus p !! cpu) -> pmm_buddy_free p cpu (f * PAGE_SIZE) order = Some p' ->
    pstep (PState p (l1 ++ (f, order) :: l2) os) (PState p' (l1 ++ l2) os)
| pstep_drain p bs os b' cpus' :
    pcp_drain_all (pm_buddy p) (pm_cpus p) = Some (b', cpus') ->
    pstep (PState p bs os) (PState (mkPmm (with_buddy (pm_slabs p) b') cpus') bs os)
| pstep_slab_alloc p bs os k c s' x :
    caches (pm_slabs p) !! k = Some c -> SLAB_PCPU_CLASSES <= class_idx c -> pmm_slab_alloc_locked (pm_slabs p) k = Some (s', x) ->
    pstep (PState p bs os) (PState (mkPmm s' (pm_cpus p)) bs (if x =? NULL then os else (k, x) :: os))
| pstep_slab_free p bs l1 k x l2 s' :
    pmm_slab_free_locked (pm_slabs p) x = Some s' ->
    pstep (PState p bs (l1 ++ (k, x) :: l2)) (PState (mkPmm s' (pm_cpus p)) bs (l1 ++ l2))
| pstep_shrink p bs os s' :
    pmm_slab_shrink_all_locked (pm_slabs p) = Some s' ->
    pstep (PState p bs os) (PState (mkPmm s' (pm_cpus p)) bs os)
| pstep_rcu p bs os a h s' :
    headers (pm_slabs p) !! a = Some h -> h_on_list h = SLAB_LIST_RCU_DEFER ->
    pmm_slab_rcu_free_cb (pm_slabs p) a = Some s' ->
    pstep (PState p bs os) (PState (mkPmm s' (pm_cpus p)) bs os)
| pstep_ref_inc p l1 f l2 os b' rep :
    pmm_ref_inc (pm_buddy p) (f * PAGE_SIZE) = Some (b', rep) ->
    pstep (PState p (l1 ++ (f, 0) :: l2) os) (PState (with_pm_buddy p b') (l1 ++ (f, 0) :: l2) os)
| pstep_ref_dec p l1 f l2 os rc pins b' rep :
    refcount (pm_buddy p) !! f = Some rc -> pincount (pm_buddy p) !! f = Some pins ->
    pmm_ref_dec (pm_buddy p) (f * PAGE_SIZE) = Some (b', rep) ->
    pstep (PState p (l1 ++ (f, 0) :: l2) os)
      (PState (with_pm_buddy p b') (if last_ref rc pins then l1 ++ l2 else l1 ++ (f, 0) :: l2) os).

(** ** The CPUs stay the same *)

Lemma pcp_drain_all_length cpus : forall s s' cpus',
  pcp_drain_all s cpus = Some (s', cpus') -> length cpus' = length cpus.
Proof.
  induction cpus as [|c cpus IH]; intros s s' cpus' H; cbn [pcp_drain_all] in H; [by injection H as <- <-|].
  bind_inv H; injection H as <- <-; cbn; f_equal; by eapply IH.
Qed.

Lemma stamp_cpus p a o p' : stamp p a o = Some p' -> pm_cpus p' = pm_cpus p.
Proof. unfold stamp. intros H. bind_inv H. by injection H as <-. Qed.

Lemma alloc_slow_cpus p o p' r : pmm_buddy_alloc_slow p o = Some (p', r) -> pm_cpus p' = pm_cpus p.
Proof.
  unfold pmm_buddy_alloc_slow. intros H. destruct (pmm_buddy_alloc_locked _ _) as [[b r0]|]; [|done]. cbn [mbind option_bind] in H.
  destruct (if r0 =? PMM_INVALID_ADDR then _ else _) as [[p1 r1]|] eqn:E; [|done]. cbn [mbind option_bind] in H.
  assert (Hp1 : pm_cpus p1 = pm_cpus p) by (destruct (r0 =? _); bind_inv E; by simplify_eq).
  destruct (negb _); [|by simplify_eq]. destruct (stamp p1 r1 o) as [p2|] eqn:Es; [|done]. apply stamp_cpus in Es. cbn [mbind option_bind] in H. injection H as <- _. congruence.
Qed.

Lemma alloc_cpus p cpu o p' r : pmm_buddy_alloc p cpu o = Some (p', r) -> length (pm_cpus p') = length (pm_cpus p).
Proof.
  unfold pmm_buddy_alloc. destruct (o =? 0); [|by intros ->%alloc_slow_cpus].
  destruct (pm_cpus p !! cpu) as [c|]; [|done]. cbn [mbind option_bind]. destruct (pcp_alloc _ _) as [[[b c'] r0]|]; [|done].
  cbn [mbind option_bind]. destruct (negb _).
  - destruct (stamp _ _ _) as [p1|] eqn:Es; [|done]. cbn [mbind option_bind]. intros [= <- <-]. apply stamp_cpus in Es as ->. by cbn; rewrite length_insert.
  - intros ->%alloc_slow_cpus. by cbn; rewrite length_insert.
Qed.

Lemma free_cpus p cpu a o p' : pmm_buddy_free p cpu a o = Some p' -> length (pm_cpus p') = length (pm_cpus p).
Proof.
  unfold pmm_buddy_free. intros H. destruct (o =? 0); bind_inv H; injection H as <-; [|done]. by cbn; rewrite length_insert.
Qed.

Lemma pstep_cpus st st' : pstep st st' -> length (pm_cpus (ps_pmm st')) = length (pm_cpus (ps_pmm st)).
Proof. destruct 1; cbn [ps_pmm pm_cpus with_pm_buddy]; eauto using alloc_cpus, free_cpus, pcp_drain_all_length. Qed.

Section trace.
(** [fr]: the blocks of users outside the sequence. *)
Context (T : Z) (U : Z -> Prop) (G : gmap Z slab_cache) (regs : list Z) (fr : list (Z * Z)).

Definition pmm_at (st : pstate) (A : gmap Z page) (L : Z -> slab_list -> list Z) : Prop :=
  pmm_inv T U G regs (ps_pmm st) (fr ++ ps_blocks st) A L /\ NoDup (ps_objs st) /\
  forall k x, (k, x) ∈ ps_objs st <-> live_in A k x /\ plain G k.

Definition pmm_safe (st : pstate) : Prop := exists A L, pmm_at st A L.

(** The pages of the heap are the same, when none of them is unused. *)
Definition undisturbed (A A' : gmap Z page) : Prop :=
  (forall a pg, A !! a = Some pg -> pooled G (pg_cache pg) -> pg_on pg <> OnList Empty /\ pg_on pg <> Deferred) ->
  forall a pg, pooled G (pg_cache pg) -> (A !! a = Some pg <-> A' !! a = Some pg).

Lemma undisturbed_others k A A' : plain G k -> others_kept k A A' -> undisturbed A A'.
Proof.
  intros (c & Hc & Hcl) Hoth _ a pg (c' & Hc' & Hcl'). apply Hoth. intros Hk. subst k. assert (c' = c) as -> by congruence. lia.
Qed.

Lemma undisturbed_reclaim A : undisturbed A (omap (reclaim G regs) A).
Proof.
  intros Hno a pg Hp. rewrite lookup_omap. destruct (A !! a) as [pg0|] eqn:Ha; [|done]. cbn. unfold reclaim.
  case_decide as Hd; [|done]. destruct Hd as [_ Hon]. split; [intros [= ->]; by destruct (Hno _ _ Ha Hp)|].
  unfold gone. destruct (typesafe _ _); [|done]. intros [= <-]. by destruct (Hno _ _ Ha Hp).
Qed.

Lemma live_unique rest s A L k k' x :
  slab_inv T U rest G s A L -> live_in A k x -> live_in A k' x -> k = k'.
Proof.
  intros Hi (a & pg & Ha & <- & Hx) (b & pgb & Hb & <- & Hx').
  destruct (decide (b = a)) as [->|Hne]; [congruence|]. exfalso.
  eapply (slots_apart T U rest G s A L a pg b pgb x); [done..| |]; unfold all_slots; set_solver.
Qed.

(** An operation of the slab layer under the same stashes. *)
Lemma slab_step p bs A L s' A' L' :
  pmm_inv T U G regs p bs A L ->
  slab_inv T U (blocks (all_stashes (pm_cpus p)) ++ bs) G s' A' L' -> all_placed A' ->
  registered G s' regs -> refs_pages (pm_slabs p) s' A' ->
  pmm_inv T U G regs (mkPmm s' (pm_cpus p)) bs A' L'.
Proof.
  intros [Hs Hpl Hcpu Hreg Hgo] Hs' Hpl' Hreg' Hrefs. constructor; try done.
  cbn [pm_cpus]. apply Forall_forall. intros c Hc.
  assert (Hok : pcp_ok (pm_buddy p) c) by by eapply Forall_forall. destruct Hok as [H0 H1 H2 H3].
  constructor; [done|done|done|]. apply Forall_forall. intros x Hx.
  rewrite Forall_forall in H3. destruct (H3 x Hx) as [Hp Hz]. split; [done|].
  destruct (Hrefs _ Hz) as [|(a & pg & Ha & Hin)]; [done|]. exfalso.
  destruct (si_div _ _ _ _ _ _ _ Hs') as (F & _ & _ & _ & _ & Hnd & _).
  unfold owned_frames in Hnd. rewrite !bind_app in Hnd. apply NoDup_app in Hnd as (_ & Hdj & _).
  apply (Hdj (Z.shiftr x PAGE_SHIFT)).
  - apply list_elem_of_bind. exists (pg_frame pg, pg_order pg). split; [by apply elem_of_seqZ|].
    apply list_elem_of_fmap. exists (a, pg). split; [done|]. by apply elem_of_map_to_list.
  - apply elem_of_app. left. apply list_elem_of_bind. exists (page_block x).
    split; [cbn; apply elem_of_seqZ; lia|]. apply list_elem_of_fmap. exists x. split; [done|].
    apply list_elem_of_bind. by exists c.
Qed.

Lemma safe_alloc p bs os A L cpu order :
  pmm_at (PState p bs os) A L -> is_Some (pm_cpus p !! cpu) -> 0 <= order ->
  exists p' r A' L', pmm_buddy_alloc p cpu order = Some (p', r) /\ undisturbed A A' /\
    pmm_at (PState p' (if r =? PMM_INVALID_ADDR then bs else (Z.shiftr r PAGE_SHIFT, order) :: bs) os) A' L'.
Proof.
  intros (Hi & Hnd & Hobj) Hc Ho.
  destruct (pmm_alloc_spec T U G regs p (fr ++ bs) A L cpu order Hi Hc Ho) as (p' & r & Hrun & (A' & L' & Hlv & HA & Hres) & _).
  exists p', r, A', L'. split; [done|]. split; [destruct HA as [->| ->]; [done|apply undisturbed_reclaim]|].
  cbn [ps_pmm ps_blocks ps_objs] in *.
  assert (Hobj' : forall k x, (k, x) ∈ os <-> live_in A' k x /\ plain G k) by (intros; by rewrite Hlv, <- Hobj).
  destruct Hres as [(-> & Hi' & _)|(f & -> & Hne & _ & Hi' & _)].
  - by rewrite Z.eqb_refl.
  - destruct (Z.eqb_spec (f * PAGE_SIZE) PMM_INVALID_ADDR) as [|_]; [done|]. rewrite frame_of_phys. split; [|done].
    eapply pmm_inv_perm; [|exact Hi']. cbn [ps_blocks]. by rewrite <- Permutation_middle.
Qed.

Lemma safe_free p l1 f order l2 os A L cpu :
  pmm_at (PState p (l1 ++ (f, order) :: l2) os) A L -> is_Some (pm_cpus p !! cpu) ->
  exists p', pmm_buddy_free p cpu (f * PAGE_SIZE) order = Some p' /\ pmm_at (PState p' (l1 ++ l2) os) A L.
Proof.
  intros (Hi & Hnd & Hobj) Hc. cbn [ps_pmm ps_blocks ps_objs] in *. rewrite app_assoc in Hi.
  destruct (pmm_free_spec T U G regs p (fr ++ l1) f order l2 A L cpu Hi Hc) as (p' & Hrun & Hi' & _).
  exists p'. split; [done|]. split; [|done]. cbn. by rewrite app_assoc.
Qed.

Lemma safe_drain p bs os A L :
  pmm_at (PState p bs os) A L ->
  exists b' cpus', pcp_drain_all (pm_buddy p) (pm_cpus p) = Some (b', cpus') /\ all_stashes cpus' = [] /\
    pmm_at (PState (mkPmm (with_buddy (pm_slabs p) b') cpus') bs os) A L.
Proof.
  intros (Hi & Hnd & Hobj). cbn [ps_pmm ps_blocks ps_objs] in *. pose proof Hi as [Hs Hpl Hcpu Hreg Hgo].
  destruct (pcp_drain_all_spec T U (pm_cpus p) (pm_buddy p) (page_blocks A ++ fr ++ bs) Hcpu)
    as (b' & cpus' & Hrun & Hok' & Hst & Hle & HD).
  { eapply divided_perm; [|apply (si_div _ _ _ _ _ _ _ Hs)]. apply Permutation_app_swap_app. }
  exists b', cpus'. split; [done|]. split; [done|]. split; [|done].
  constructor; try done. cbn [pm_slabs pm_cpus ps_pmm ps_blocks]. eapply slab_inv_buddy; [exact Hs|]. by rewrite Hst.
Qed.

Lemma safe_slab_alloc p bs os A L k c :
  pmm_at (PState p bs os) A L -> caches (pm_slabs p) !! k = Some c -> SLAB_PCPU_CLASSES <= class_idx c ->
  exists s' x A' L', pmm_slab_alloc_locked (pm_slabs p) k = Some (s', x) /\ undisturbed A A' /\
    pmm_at (PState (mkPmm s' (pm_cpus p)) bs (if x =? NULL then os else (k, x) :: os)) A' L'.
Proof.
  intros (Hi & Hnd & Hobj) Hc Hcls. cbn [ps_pmm ps_blocks ps_objs] in *. pose proof Hi as [Hs Hpl Hcpu Hreg Hgo].
  assert (Hpk : plain G k) by (exists (geom c); by rewrite <- (si_geom _ _ _ _ _ _ _ Hs), lookup_fmap, Hc).
  assert (Hg : geom_ok c).
  { change (geom_ok (geom c)). apply (Hgo k). by rewrite <- (si_geom _ _ _ _ _ _ _ Hs), lookup_fmap, Hc. }
  destruct (slab_alloc_spec T U _ G _ A L k c Hs Hpl Hc Hg) as (s' & x & Hrun & Hres).
  exists s', x. destruct Hres as [(-> & -> & _)|(Hx & A' & L' & Hs' & Hpl' & Hnl & Hrefs & Hoth & Hlv)].
  - exists A, L. split; [done|]. split; [done|]. rewrite Z.eqb_refl. by destruct p.
  - destruct (Z.eqb_spec x NULL); [done|]. exists A', L'. split; [done|]. split; [by eapply undisturbed_others|].
    split; [|split]; cbn [ps_pmm ps_blocks ps_objs].
    + eapply slab_step; [exact Hi|done|done| |done]. apply slab_alloc_kept in Hrun as [_ Hch].
      unfold registered. by rewrite Hch.
    + constructor; [|done]. intros [Hl _]%Hobj. by apply (Hnl k).
    + intros k' y. rewrite elem_of_cons, Hlv, Hobj. naive_solver.
Qed.

(** An object taken off a list of objects. *)
Lemma objs_remove (P : Z -> Z -> Prop) (l1 l2 : list (Z * Z)) k x :
  NoDup (l1 ++ (k, x) :: l2) -> (forall k' y, (k', y) ∈ l1 ++ (k, x) :: l2 <-> P k' y) -> (forall k', P k' x -> k' = k) ->
  NoDup (l1 ++ l2) /\ forall k' y, (k', y) ∈ l1 ++ l2 <-> P k' y /\ y <> x.
Proof.
  intros Hnd HP Hu. assert (Hn : (k, x) ∉ l1 ++ l2 /\ NoDup (l1 ++ l2)) by (apply NoDup_cons; by rewrite Permutation_middle).
  destruct Hn as [Hn Hnd']. split; [done|]. intros k' y. rewrite <- HP, <- Permutation_middle, elem_of_cons. split.
  - intros Hy. split; [by right|]. intros ->. assert (k' = k) as ->; [|done].
    apply Hu, HP. rewrite <- Permutation_middle. by right.
  - intros [[[= -> ->]|Hy] Hne]; done.
Qed.

Lemma safe_slab_free p bs l1 k x l2 A L :
  pmm_at (PState p bs (l1 ++ (k, x) :: l2)) A L ->
  exists s' A' L', pmm_slab_free_locked (pm_slabs p) x = Some s' /\ undisturbed A A' /\
    pmm_at (PState (mkPmm s' (pm_cpus p)) bs (l1 ++ l2)) A' L'.
Proof.
  intros (Hi & Hnd & Hobj). cbn [ps_pmm ps_blocks ps_objs] in *. pose proof Hi as [Hs Hpl Hcpu Hreg Hgo].
  assert (Hx : live_in A k x /\ plain G k) by (apply Hobj; rewrite elem_of_app, elem_of_cons; auto). destruct Hx as [Hx Hk].
  destruct (slab_free_spec T U _ G _ A L k x Hs Hpl Hk Hx) as (s' & A' & L' & Hrun & Hs' & Hpl' & Hb & Hoth & Hlv).
  exists s', A', L'. split; [done|]. split; [by eapply undisturbed_others|]. split; cbn [ps_pmm ps_blocks ps_objs].
  - eapply slab_step; [exact Hi|done|done| |].
    + apply slab_free_kept in Hrun as [_ Hch]. unfold registered. by rewrite Hch.
    + intros y. rewrite Hb. auto.
  - destruct (objs_remove _ l1 l2 k x Hnd Hobj) as [Hnd' Hobj'].
    { intros k' [Hk' _]. eapply live_unique; [exact Hs|done|done]. }
    split; [done|]. intros k' y. rewrite Hobj', Hlv. tauto.
Qed.

(** A page returned to the buddy allocator. *)
Lemma refs_le_pages rest s s' (A : gmap Z page) : refs_kept rest (sl_buddy s) (sl_buddy s') -> refs_pages s s' A.
Proof. intros H x Hx. left. by apply (refs_kept_le _ _ _ H). Qed.

Lemma safe_shrink p bs os A L :
  pmm_at (PState p bs os) A L ->
  exists s' A' L', pmm_slab_shrink_all_locked (pm_slabs p) = Some s' /\ undisturbed A A' /\
    pmm_at (PState (mkPmm s' (pm_cpus p)) bs os) A' L'.
Proof.
  intros (Hi & Hnd & Hobj). cbn [ps_pmm ps_blocks ps_objs] in *. pose proof Hi as [Hs Hpl Hcpu Hreg Hgo].
  destruct (shrink_all_spec T U _ G _ A L regs Hs Hpl Hreg) as (s' & L' & Hrun & Hs' & Hpl' & Hreg' & Hle & Hlv).
  eexists s', _, L'. split; [done|]. split; [apply undisturbed_reclaim|].
  split; [eapply slab_step; [exact Hi|done|done|done|by eapply refs_le_pages]|].
  split; [done|]. intros k x. by rewrite Hlv.
Qed.

Lemma safe_rcu p bs os A L a h :
  pmm_at (PState p bs os) A L -> headers (pm_slabs p) !! a = Some h -> h_on_list h = SLAB_LIST_RCU_DEFER ->
  exists s' A' L', pmm_slab_rcu_free_cb (pm_slabs p) a = Some s' /\ undisturbed A A' /\
    pmm_at (PState (mkPmm s' (pm_cpus p)) bs os) A' L'.
Proof.
  intros (Hi & Hnd & Hobj) Hh Hon. cbn [ps_pmm ps_blocks ps_objs] in *. pose proof Hi as [Hs Hpl Hcpu Hreg Hgo].
  assert (exists pg, A !! a = Some pg) as [pg Ha].
  { pose proof (f_equal (.!! a) (si_hdr _ _ _ _ _ _ _ Hs)) as He. cbn in He.
    rewrite !lookup_fmap, Hh in He. destruct (A !! a); [by eexists|done]. }
  assert (Hd : pg_on pg = Deferred).
  { destruct (header_at _ _ _ _ _ _ _ _ _ Hs Ha) as (h' & Hh' & Hu). simplify_eq.
    destruct (hdr_fields _ _ Hu) as (_ & _ & _ & _ & Hol & _). rewrite Hon in Hol.
    pose proof (Hpl _ _ Ha) as Hp. unfold placed in Hp. destruct (pg_on pg) as [[]| |k0]; [done..|]. cbn in Hol. by destruct Hp as [->|[->| ->]]. }
  destruct (rcu_free_spec T U _ G _ A L a pg Hs Ha Hd) as (s' & Hrun & Hs' & Hch & Hle).
  exists s', (delete a A), L. split; [done|]. split.
  { intros Hno b pgb Hp. destruct (decide (b = a)) as [->|Hne]; [|by rewrite lookup_delete_ne].
    rewrite lookup_delete_eq, Ha. split; [|done]. intros [= ->]. by destruct (Hno _ _ Ha Hp). }
  split; [|split; [done|]]; cbn [ps_pmm ps_blocks ps_objs].
  - eapply slab_step; [exact Hi|done| | |by eapply refs_le_pages].
    + intros b pgb Hb. apply lookup_delete_Some in Hb as [_ Hb]. by eapply Hpl.
    + unfold registered. by rewrite Hch.
  - intros k x. rewrite Hobj. pose proof (Hpl _ _ Ha) as Hp. unfold placed in Hp. rewrite Hd in Hp.
    apply and_iff_compat_r. split; intros (b & pgb & Hb & Hk & Hx).
    + exists b, pgb. rewrite lookup_delete_ne; [done|]. intros <-. assert (pgb = pg) as -> by congruence.
      destruct Hp as (_ & Hp & _). rewrite Hp in Hx. by apply not_elem_of_nil in Hx.
    + apply lookup_delete_Some in Hb as [_ Hb]. by exists b, pgb.
Qed.

(** A change of one held frame's reference count, which may also release it. *)
Lemma ref_step p l1 f l2 bs A L b' :
  pmm_inv T U G regs p (l1 ++ (f, 0) :: l2) A L ->
  (forall x, x <> f -> refcount b' !! x = refcount (pm_buddy p) !! x) ->
  divided T U (b', page_blocks A ++ blocks (all_stashes (pm_cpus p)) ++ bs) ->
  pmm_inv T U G regs (with_pm_buddy p b') bs A L.
Proof.
  intros Hi Hrc HD. pose proof Hi as [Hs Hpl Hcpu Hreg Hgo]. constructor; try done; cbn [pm_slabs pm_cpus with_pm_buddy].
  - by eapply slab_inv_buddy.
  - apply Forall_forall. intros c Hc. assert (Hok : pcp_ok (pm_buddy p) c) by by eapply Forall_forall.
    destruct Hok as [H0 H1 H2 H3]. constructor; [done|done|done|]. apply Forall_forall. intros x Hx.
    rewrite Forall_forall in H3. destruct (H3 x Hx) as [Hp Hz]. split; [done|].
    unfold pm_buddy. cbn [sl_buddy with_buddy with_pm_buddy pm_slabs]. rewrite Hrc; [done|]. intros Hf.
    apply (stash_apart T U G regs p f 0 (l1 ++ l2) A L x) with c; [| |done|done].
    + constructor; try done. eapply slab_inv_rest; [|exact Hs]. by rewrite <- Permutation_middle.
    + cbn. lia.
Qed.

Lemma held_view p l1 f l2 A L :
  pmm_inv T U G regs p (l1 ++ (f, 0) :: l2) A L ->
  divided T U (pm_buddy p, (page_blocks A ++ blocks (all_stashes (pm_cpus p)) ++ l1) ++ (f, 0) :: l2).
Proof. intros [Hs]. pose proof (si_div _ _ _ _ _ _ _ Hs) as Hd. by rewrite <- !app_assoc. Qed.

Lemma safe_ref_inc p l1 f l2 os A L :
  pmm_at (PState p (l1 ++ (f, 0) :: l2) os) A L ->
  exists b' rep, pmm_ref_inc (pm_buddy p) (f * PAGE_SIZE) = Some (b', rep) /\
    pmm_at (PState (with_pm_buddy p b') (l1 ++ (f, 0) :: l2) os) A L.
Proof.
  intros (Hi & Hnd & Hobj). cbn [ps_pmm ps_blocks ps_objs] in *. rewrite app_assoc in Hi. pose proof (held_view _ _ _ _ _ _ Hi) as HD.
  destruct (held_frame _ _ _ _ _ _ HD) as (_ & rc & Hrc).
  destruct (ref_inc_spec T U _ _ _ _ _ HD Hrc) as (b' & Hrun & HD' & Hr).
  exists b', (rc =? 0). split; [done|]. split; [|done]. cbn [ps_pmm ps_blocks]. rewrite app_assoc.
  eapply ref_step; [exact Hi| |by rewrite <- !app_assoc in *]. intros x Hx. rewrite Hr. by case_decide.
Qed.

Lemma safe_ref_dec p l1 f l2 os A L rc pins :
  pmm_at (PState p (l1 ++ (f, 0) :: l2) os) A L ->
  refcount (pm_buddy p) !! f = Some rc -> pincount (pm_buddy p) !! f = Some pins ->
  exists b' rep, pmm_ref_dec (pm_buddy p) (f * PAGE_SIZE) = Some (b', rep) /\
    pmm_at (PState (with_pm_buddy p b') (if last_ref rc pins then l1 ++ l2 else l1 ++ (f, 0) :: l2) os) A L.
Proof.
  intros (Hi & Hnd & Hobj) Hrc Hp. cbn [ps_pmm ps_blocks ps_objs] in *. rewrite app_assoc in Hi.
  destruct (ref_dec_spec T U _ _ _ _ _ _ (held_view _ _ _ _ _ _ Hi) Hrc Hp) as (b' & Hrun & HD' & Hr).
  eexists b', _. split; [exact Hrun|]. split; [|done]. cbn [ps_pmm ps_blocks].
  eapply ref_step; [exact Hi| |]; [intros x Hx; rewrite Hr; by case_decide|].
  destruct (last_ref rc pins); by rewrite <- !app_assoc in HD'.
Qed.

(** One call of another user: the pages of the heap stay. *)
Lemma safe_step_at st st' A L : pmm_at st A L -> pstep st st' -> exists A' L', pmm_at st' A' L' /\ undisturbed A A'.
Proof.
  intros Hs Hst. destruct Hst.
  - edestruct (safe_alloc p bs os A L cpu order) as (? & ? & ? & ? & ? & ? & ?); [done..|lia|]. simplify_eq. by eexists _, _.
  - edestruct (safe_free p l1 f order l2 os A L cpu) as (? & ? & ?); [done..|]. simplify_eq. by exists A, L.
  - edestruct (safe_drain p bs os A L) as (? & ? & ? & ? & ?); [done|]. simplify_eq. by exists A, L.
  - edestruct (safe_slab_alloc p bs os A L k c) as (? & ? & ? & ? & ? & ? & ?); [done..|]. simplify_eq. by eexists _, _.
  - edestruct (safe_slab_free p bs l1 k x l2 A L) as (? & ? & ? & ? & ? & ?); [done|]. simplify_eq. by eexists _, _.
  - edestruct (safe_shrink p bs os A L) as (? & ? & ? & ? & ? & ?); [done|]. simplify_eq. by eexists _, _.
  - edestruct (safe_rcu p bs os A L a h) as (? & ? & ? & ? & ? & ?); [done..|]. simplify_eq. by eexists _, _.
  - edestruct (safe_ref_inc p l1 f l2 os A L) as (? & ? & ? & ?); [done|]. simplify_eq. by exists A, L.
  - edestruct (safe_ref_dec p l1 f l2 os A L rc pins) as (? & ? & ? & ?); [done..|]. simplify_eq. by exists A, L.
Qed.

Lemma safe_reachable st st' : pmm_safe st -> rtc pstep st st' -> pmm_safe st'.
Proof.
  intros Hs. induction 1 as [|st st1 st2 H1 _ IH]; [done|]. destruct Hs as (A & L & Hs).
  destruct (safe_step_at _ _ _ _ Hs H1) as (A' & L' & Hs' & _). apply IH. by exists A', L'.
Qed.
End trace.
