(* ===== verification/PmmBoot.v ===== *)
(** * Bringing up the slab layer

    The state of the slab layer before any cache exists, and
    [pmm_slab_cache_init]: a new cache has room for at least one object per
    slab, for every size the kernel uses, and joins the list of caches without
    disturbing the others. *)

From S2P Require Import Prelude DList Buddy BuddySpec PmmInit PmmInitSpec BuddyTrace.
From S2P Require Import PmmRef PmmSpec Pcp PcpSpec Slab SlabSpec SlabLists SlabCalls.
From S2P Require Import SlabShrink Pmm PmmTrace.

(** ** Geometry of a new cache *)

Definition new_cache (s : slabs) (a size flags : Z) : option slab_cache :=
  caches (pmm_slab_cache_init s a size flags) !! a.

Definition geometry_fits (size : Z) : bool :=
  let order := calculate_slab_order size in
  (0 <=? order) && (order <=? SLAB_MAX_ORDER) &&
  (first_slot_off size + size <=? slab_bytes order) &&
  ((slab_bytes order - first_slot_off size) / size <=? 65535).

(** The largest size at which every smaller size fits as well. *)
Definition MAX_OBJECT : Z := 8104.

Lemma geometry_fits_all : forallb geometry_fits (seqZ 8 (MAX_OBJECT - 7)) = true.
Proof. vm_compute. reflexivity. Qed.

Lemma geometry_ok size : 8 <= size <= MAX_OBJECT -> geometry_fits size = true.
Proof.
  intros Hs. pose proof geometry_fits_all as H. rewrite forallb_forall in H.
  apply H. apply list_elem_of_In, elem_of_seqZ. unfold MAX_OBJECT in *. lia.
Qed.

Lemma new_cache_fields s a size flags :
  8 <= size <= MAX_OBJECT ->
  exists c, new_cache s a size flags = Some c /\ geom c = c /\ geom_ok c /\ slot_size c = size /\
    obj_per_slab c = num_slots c /\ 2 <= cpu_partial_cap c <= SLAB_PCPU_PARTIAL_DEPTH /\
    c_flags c = flags /\ cache_next c = cache_head s /\ class_idx c = 255.
Proof.
  intros Hs. unfold new_cache, pmm_slab_cache_init. cbn [caches]. rewrite lookup_insert_eq.
  eexists. split; [done|]. split; [done|].
  pose proof (geometry_ok size Hs) as Hg. unfold geometry_fits in Hg. rewrite !andb_true_iff in Hg.
  destruct Hg as [[[H1 H2] H3] H4]. apply Z.leb_le in H1, H2, H3, H4. unfold MAX_OBJECT in Hs.
  split; [split; [done|]; split; [cbn; lia|done]|]. split; [done|].
  unfold num_slots. cbn [slab_order slot_size obj_per_slab cpu_partial_cap c_flags cache_next].
  destruct (Z.leb_spec (slab_bytes (calculate_slab_order size)) (first_slot_off size)); [lia|].
  destruct (Z.ltb_spec 65535 ((slab_bytes (calculate_slab_order size) - first_slot_off size) / size)); [lia|].
  split; [done|]. split; [|done].
  unfold SLAB_PCPU_PARTIAL_DEPTH. repeat case_match; lia.
Qed.

(** ** Adding a cache *)

Section add.
Context (T : Z) (U : Z -> Prop) (G : gmap Z slab_cache) (regs : list Z).

Lemma page_ok_weaken (G' : gmap Z slab_cache) ws a pg : G ⊆ G' -> page_ok G ws a pg -> page_ok G' ws a pg.
Proof.
  intros HG (Ha & H1 & H2 & c & Hc & Hr). split; [done|]. split; [done|]. split; [done|].
  exists c. split; [|done]. by eapply lookup_weaken.
Qed.

Lemma chain_weaken (G' : gmap Z slab_cache) l : forall hd,
  G ⊆ G' -> cache_chain G l hd -> cache_chain G' l hd.
Proof.
  induction l as [|k l IH]; intros hd HG Hch; [done|]. destruct Hch as (-> & Hn & c & Hc & Hch).
  split; [done|]. split; [done|]. exists c. split; [by eapply lookup_weaken|]. by apply IH.
Qed.

Lemma no_pages_of rest s (A : gmap Z page) L a w :
  slab_inv T U rest G s A L -> G !! a = None -> L a w = [].
Proof.
  intros Hi Ha. destruct (L a w) as [|b l] eqn:E; [done|]. exfalso.
  assert (Hb : b ∈ L a w) by (rewrite E; left). apply (si_mem _ _ _ _ _ _ _ Hi) in Hb as (pg & Hpg & Hk & _).
  destruct (si_page _ _ _ _ _ _ _ Hi _ _ Hpg) as (_ & _ & _ & c & Hc & _). congruence.
Qed.

Lemma add_cache_slab rest s (A : gmap Z page) L a size flags c :
  slab_inv T U rest G s A L -> a <> NULL -> G !! a = None ->
  new_cache s a size flags = Some c -> geom c = c ->
  slab_inv T U rest (<[a := c]> G) (pmm_slab_cache_init s a size flags) A L.
Proof.
  intros Hi Ha HG Hc Hgc. pose proof Hi as [Hd Hg Hn Hh Hp Hl Hm Ht Ho Hf Hr].
  unfold new_cache, pmm_slab_cache_init in *. cbn [caches] in Hc. rewrite lookup_insert_eq in Hc. injection Hc as Hc.
  rewrite Hc. constructor; try done; cbn [caches words headers].
  - by rewrite fmap_insert, Hg, Hgc.
  - by rewrite lookup_insert_ne.
  - intros b pg Hb. apply page_ok_weaken; [by apply insert_subseteq|by apply Hp].
  - intros k c' w Hk. destruct (decide (k = a)) as [->|Hne].
    + rewrite lookup_insert_eq in Hk. injection Hk as <-. rewrite (no_pages_of rest s A L a w) by done.
      subst c. split; [by destruct w|constructor].
    + rewrite lookup_insert_ne in Hk by done. by apply Hl.
Qed.

Lemma add_cache p client A L a size flags :
  pmm_inv T U G regs p client A L -> a <> NULL -> G !! a = None -> 8 <= size <= MAX_OBJECT ->
  exists c, new_cache (pm_slabs p) a size flags = Some c /\
    pmm_inv T U (<[a := c]> G) (a :: regs) (mkPmm (pmm_slab_cache_init (pm_slabs p) a size flags) (pm_cpus p)) client A L.
Proof.
  intros [Hs Hpl Hcpu (Hch & Hnd & Hall) Hgo] Ha HG Hsz.
  destruct (new_cache_fields (pm_slabs p) a size flags Hsz) as (c & Hc & Hgc & Hok & _ & _ & _ & _ & Hnx & _).
  exists c. split; [done|]. constructor; [by eapply add_cache_slab|done|done| |].
  - split; [|split].
    + split; [done|]. split; [done|]. exists c. rewrite lookup_insert_eq, Hnx. split; [done|].
      apply chain_weaken; [by apply insert_subseteq|done].
    + constructor; [|done]. intros Hin. clear Hnd Hall. revert Hch. generalize (cache_head (pm_slabs p)).
      induction regs as [|k l IH]; intros hd Hch; [by apply not_elem_of_nil in Hin|].
      destruct Hch as (-> & _ & c' & Hc' & Hch). apply elem_of_cons in Hin as [->|Hin]; [congruence|].
      by eapply IH.
    + intros k [c' Hk]. destruct (decide (k = a)) as [->|]; [left|]. right. apply Hall.
      rewrite lookup_insert_ne in Hk by done. by eexists.
  - intros k c' Hk. destruct (decide (k = a)) as [->|].
    + rewrite lookup_insert_eq in Hk. by injection Hk as <-.
    + rewrite lookup_insert_ne in Hk by done. by eapply Hgo.
Qed.
End add.

(** ** The empty state *)

Definition zeroed (T : Z) : gmap Z Z := list_to_map ((fun f => (f, 0)) <$> seqZ 0 T).
Definition empty_pcp : pcp := mkPcp true 0 0 (replicate 64 0) 0 0 0.
Definition fresh_pmm (b : buddy) (ncpus : nat) : pmm :=
  mkPmm (mkSlabs b ∅ ∅ (zeroed (total_frames b)) (zeroed (total_frames b)) ∅ NULL [] []) (replicate ncpus empty_pcp).

Lemma zeroed_at T f : 0 <= f < T -> zeroed T !! f = Some 0.
Proof. intros Hf. unfold zeroed. rewrite (list_to_map_fun (fun _ => 0)); [done|]. by apply elem_of_seqZ. Qed.

Lemma fresh_inv b F n :
  buddy_inv b F -> counted b F ->
  pmm_inv (total_frames b) (free_frame F) ∅ [] (fresh_pmm b n) [] ∅ (fun _ _ => []).
Proof.
  intros Hb Hc. assert (Hst : all_stashes (pm_cpus (fresh_pmm b n)) = []).
  { unfold all_stashes, fresh_pmm. cbn [pm_cpus]. clear. by induction n as [|n IH]. }
  constructor.
  - rewrite Hst. constructor; try done; cbn.
    + by apply (divided_init b F).
    + intros k w a. split; [intros H; by apply not_elem_of_nil in H|]. intros (pg & H & _). by rewrite lookup_empty in H.
    + intros f Hf. rewrite zeroed_at by done. by split; eexists.
    + intros f Hf _. by apply zeroed_at.
  - intros a pg H. by rewrite lookup_empty in H.
  - apply Forall_forall. intros c Hcp. apply elem_of_replicate in Hcp as [-> _]. by repeat constructor.
  - split; [done|]. split; [constructor|]. intros k [c Hk]. by rewrite lookup_empty in Hk.
  - intros k c Hk. by rewrite lookup_empty in Hk.
Qed.
