(* ===== verification/PmmTheorems.v ===== *)
(** * The physical allocator: theorems

    The properties users of physical memory rely on: of the public page calls,
    of the slab calls, of reclaim, of reference counting, and of every sequence
    of them. *)

From S2P Require Import Prelude DList Buddy BuddySpec PmmInit PmmInitSpec BuddyTrace.
From S2P Require Import BuddyTheorems PmmRef PmmSpec Pcp PcpSpec Slab SlabSpec SlabLists.
From S2P Require Import SlabCalls SlabShrink Pmm PmmTrace PmmBoot.

(** ** A small machine *)

(** Eight frames, two CPUs, and a cache of 64-byte objects. *)
Definition demo_cache : Z := 4096.
Definition demo_pmm : pmm :=
  mkPmm (pmm_slab_cache_init (pm_slabs (fresh_pmm demo 2)) demo_cache 64 0) (pm_cpus (fresh_pmm demo 2)).
Definition demo_caches : gmap Z slab_cache := caches (pm_slabs demo_pmm).

Lemma demo_pmm_ok : exists F, (forall x, free_frame F x <-> 0 <= x < 8) /\
  pmm_inv 8 (free_frame F) demo_caches [demo_cache] demo_pmm [] ∅ (fun _ _ => []).
Proof.
  destruct demo_ok as (F & Hi & Hc & Ht & Hff). exists F. split; [done|].
  pose proof (fresh_inv demo F 2 Hi Hc) as Hf.
  destruct (add_cache _ _ _ _ _ _ _ _ demo_cache 64 0 Hf) as (c & Hnew & Hok);
    [discriminate|apply lookup_empty|unfold MAX_OBJECT; lia|].
  rewrite Ht in Hok. replace (<[demo_cache := c]> ∅) with demo_caches in Hok; [done|].
  unfold new_cache, pmm_slab_cache_init in Hnew. cbn [caches] in Hnew. rewrite lookup_insert_eq in Hnew.
  by injection Hnew as <-.
Qed.


Lemma demo_cache_at : exists c, caches (pm_slabs demo_pmm) !! demo_cache = Some c /\ geom_ok c.
Proof.
  destruct (new_cache_fields (pm_slabs (fresh_pmm demo 2)) demo_cache 64 0) as (c & Hc & _ & Hg & _);
    [unfold MAX_OBJECT; lia|by exists c].
Qed.

Lemma demo_plain : plain demo_caches demo_cache.
Proof. eexists. split; [vm_compute; reflexivity|discriminate]. Qed.

#[local] Opaque demo_pmm demo_caches.

(** ** The properties *)




(** The first half of [pmm_pages_correct]. *)
Lemma pmm_alloc_correct T U G regs p client A L cpu order :
  pmm_inv T U G regs p client A L -> is_Some (pm_cpus p !! cpu) -> 0 <= order ->
  exists p' r, pmm_buddy_alloc p cpu order = Some (p', r) /\ alloc_outcome T U G regs client A order p' r /\
    refs_same client (pm_buddy p) (pm_buddy p').
Proof. apply pmm_alloc_spec. Qed.


Lemma demo_first_object s r :
  pmm_slab_alloc_locked (pm_slabs demo_pmm) demo_cache = Some (s, r) -> r <> NULL.
Proof.
  intros Hrun Hr. assert (He : snd <$> pmm_slab_alloc_locked (pm_slabs demo_pmm) demo_cache = Some (vaddr 0 + 128))
    by (vm_compute; reflexivity). rewrite Hrun, Hr in He. discriminate He.
Qed.

(** The second half of [slab_objects_correct]. *)
Lemma slab_free_correct T U rest G s A L k x :
  slab_inv T U rest G s A L -> all_placed A -> plain G k -> live_in A k x ->
  exists s' A' L', pmm_slab_free_locked s x = Some s' /\ slab_inv T U rest G s' A' L' /\ all_placed A' /\
    sl_buddy s' = sl_buddy s /\ forall k' y, live_in A' k' y <-> live_in A k' y /\ y <> x.
Proof.
  intros Hi HA Hk Hx. destruct (slab_free_spec T U rest G s A L k x Hi HA Hk Hx) as (s' & A' & L' & Hrun & Hi' & HA' & Hb & _ & Hlv).
  by exists s', A', L'.
Qed.

Lemma slab_free_correct_witness : exists s r s',
  pmm_slab_alloc_locked (pm_slabs demo_pmm) demo_cache = Some (s, r) /\ pmm_slab_free_locked s r = Some s'.
Proof.
  destruct demo_pmm_ok as (F & _ & [Hi Hpl _ _ _]), demo_cache_at as (c & Hc & Hg).
  destruct (slab_alloc_spec 8 (free_frame F) _ demo_caches (pm_slabs demo_pmm) ∅ (fun _ _ => []) demo_cache c Hi Hpl Hc Hg)
    as (s & r & Hrun & Hres). exists s, r.
  pose proof (demo_first_object _ _ Hrun) as Hr.
  destruct Hres as [[? _]|(_ & A' & L' & Hi' & HA' & _ & _ & _ & Hlv)]; [contradiction|].
  destruct (slab_free_correct 8 (free_frame F) _ demo_caches s A' L' demo_cache r Hi' HA' demo_plain) as (s' & _ & _ & Hfree & _).
  - apply Hlv. right. split; reflexivity.
  - exists s'. split; [exact Hrun|exact Hfree].
Defined.



(** The second half of [pmm_pages_correct]. *)
Lemma slab_shrink_correct T U rest G regs s A L :
  slab_inv T U rest G s A L -> all_placed A -> registered G s regs ->
  exists s' L', pmm_slab_shrink_all_locked s = Some s' /\
    slab_inv T U rest G s' (omap (reclaim G regs) A) L' /\
    (forall a pg, omap (reclaim G regs) A !! a = Some pg -> pg_on pg <> OnList Empty) /\
    (forall a pg, A !! a = Some pg -> pg_on pg <> OnList Empty -> omap (reclaim G regs) A !! a = Some pg) /\
    forall k x, live_in (omap (reclaim G regs) A) k x <-> live_in A k x.
Proof.
  intros Hi HA Hreg. destruct (shrink_all_spec T U rest G s A L regs Hi HA Hreg)
    as (s' & L' & Hrun & Hi' & _ & _ & _ & Hlv). exists s', L'. split; [done|]. split; [done|]. split; [|split; [|done]].
  - intros a pg Hpg. eapply (no_empty_left G regs A); [|exact Hpg]. intros b pgb Hb.
    apply (proj2 (proj2 Hreg)). destruct (si_page _ _ _ _ _ _ _ Hi b pgb Hb) as (_ & _ & _ & c & Hc & _). by exists c.
  - intros a pg Hpg Hon. rewrite lookup_omap, Hpg. cbn. unfold reclaim. by case_decide as Hd; [destruct Hd|].
Qed.

(** The object just allocated, released again: its page is unused. *)
Lemma slab_shrink_correct_witness : exists s r s1 s2,
  pmm_slab_alloc_locked (pm_slabs demo_pmm) demo_cache = Some (s, r) /\
  pmm_slab_free_locked s r = Some s1 /\ pmm_slab_shrink_all_locked s1 = Some s2.
Proof.
  destruct demo_pmm_ok as (F & _ & [Hi Hpl _ Hreg _]), demo_cache_at as (c & Hc & Hg).
  destruct (slab_alloc_spec 8 (free_frame F) _ demo_caches (pm_slabs demo_pmm) ∅ (fun _ _ => []) demo_cache c Hi Hpl Hc Hg)
    as (s & r & Hrun & Hres). pose proof (demo_first_object _ _ Hrun) as Hr.
  destruct Hres as [[? _]|(_ & A' & L' & Hi' & HA' & _ & _ & _ & Hlv)]; [contradiction|].
  destruct (slab_free_spec 8 (free_frame F) _ demo_caches s A' L' demo_cache r Hi' HA' demo_plain) as (s1 & A1 & L1 & Hfree & Hi1 & HA1 & _).
  { apply Hlv. right. split; reflexivity. }
  apply slab_alloc_kept in Hrun as Hk. apply slab_free_kept in Hfree as Hk1.
  destruct (slab_shrink_correct 8 (free_frame F) _ demo_caches [demo_cache] s1 A1 L1 Hi1 HA1) as (s2 & _ & Hsh & _).
  { unfold registered. rewrite (proj2 Hk1), (proj2 Hk). exact Hreg. }
  exists s, r, s1, s2. split; [exact Hrun|]. split; [exact Hfree|exact Hsh].
Defined.

(** C16: [pmm_buddy_alloc], on any CPU and for any order, returns a free aligned
    block with every frame's reference count 1, or [PMM_INVALID_ADDR]; it
    fails only after every unused slab page has been returned to the buddy
    allocator and no aligned run of free frames of that order is left
    outside the CPU stashes. No slab object is lost by the reclaim, and the
    reference counts of the blocks callers hold do not change.
    [pmm_slab_shrink_all_locked] terminates, returns the block of every page
    on an empty list to the buddy allocator (or defers it to a grace period
    for a cache with SLAB_TYPESAFE_BY_RCU), leaves no page on an empty list,
    and keeps every live object. *)
Theorem pmm_pages_correct :
  (forall T U G regs p client A L cpu order,
  pmm_inv T U G regs p client A L -> is_Some (pm_cpus p !! cpu) -> 0 <= order ->
    exists p' r, pmm_buddy_alloc p cpu order = Some (p', r) /\ alloc_outcome T U G regs client A order p' r /\
      refs_same client (pm_buddy p) (pm_buddy p')) /\
  (forall T U rest G regs s A L,
  slab_inv T U rest G s A L -> all_placed A -> registered G s regs ->
    exists s' L', pmm_slab_shrink_all_locked s = Some s' /\
      slab_inv T U rest G s' (omap (reclaim G regs) A) L' /\
      (forall a pg, omap (reclaim G regs) A !! a = Some pg -> pg_on pg <> OnList Empty) /\
      (forall a pg, A !! a = Some pg -> pg_on pg <> OnList Empty -> omap (reclaim G regs) A !! a = Some pg) /\
      forall k x, live_in (omap (reclaim G regs) A) k x <-> live_in A k x).
Proof. exact (conj pmm_alloc_correct slab_shrink_correct). Qed.

Lemma pmm_pages_correct_witness : exists F p' r,
  pmm_buddy_alloc demo_pmm 1 0 = Some (p', r) /\
  alloc_outcome 8 (free_frame F) demo_caches [demo_cache] [] ∅ 0 p' r /\ refs_same [] (pm_buddy demo_pmm) (pm_buddy p').
Proof.
  destruct demo_pmm_ok as (F & _ & Hi). exists F.
  apply (proj1 pmm_pages_correct 8 (free_frame F) demo_caches [demo_cache] demo_pmm [] ∅ (fun _ _ => []) 1%nat 0);
    [done|eexists; vm_compute; reflexivity|lia].
Defined.

(** [pmm_ref_dec] on a held frame never faults and returns the frame to the
    allocator exactly when the count drops from 1 to 0 and the frame is not
    pinned for DMA; a pinned frame is kept and reported, a count of 0 stays 0,
    and no other frame's count changes. *)
Lemma ref_dec_correct T U s l1 f l2 rc pins :
  divided T U (s, l1 ++ (f, 0) :: l2) -> refcount s !! f = Some rc -> pincount s !! f = Some pins ->
  exists s', pmm_ref_dec s (f * PAGE_SIZE) = Some (s', (rc =? 1) && (0 <? pins)) /\
    divided T U (s', if (rc =? 1) && negb (0 <? pins) then l1 ++ l2 else l1 ++ (f, 0) :: l2) /\
    forall x, refcount s' !! x = if decide (x = f) then Some (if rc =? 0 then 0 else rc - 1) else refcount s !! x.
Proof. apply ref_dec_spec. Qed.

Lemma ref_dec_correct_witness : exists F s s',
  divided 8 (free_frame F) (s, [(0, 0)]) /\ pmm_ref_dec s 0 = Some (s', false) /\ divided 8 (free_frame F) (s', []).
Proof.
  destruct demo_ok as (F & Hi & Hc & Ht & _). exists F.
  destruct (pmm_buddy_alloc_locked demo 0) as [[s r]|] eqn:E; [|vm_compute in E; discriminate E].
  assert (He : snd <$> pmm_buddy_alloc_locked demo 0 = Some 0) by (vm_compute; reflexivity).
  rewrite E in He. injection He as ->.
  assert (Hp : (pmm_buddy_alloc_locked demo 0 ≫= fun x => pincount (fst x) !! 0) = Some 0) by (vm_compute; reflexivity).
  rewrite E in Hp. cbn [mbind option_bind fst] in Hp.
  assert (HD : divided 8 (free_frame F) (s, [(0, 0)])).
  { rewrite <- Ht. eapply (divided_alloc _ _ demo [] 0 s 0);
      [apply divided_init; assumption|lia|exact E|discriminate]. }
  destruct (divided_mark 8 (free_frame F) s 0 0 [] HD) as (s1 & Hrun & HD1 & Hrc).
  { intros x Hx. assert (x = 0) as -> by (change (2 ^ 0) with 1 in Hx; lia).
    assert (Hz : (pmm_buddy_alloc_locked demo 0 ≫= fun x => refcount (fst x) !! 0) = Some 0) by (vm_compute; reflexivity).
    rewrite E in Hz. exact Hz. }
  assert (Hrc1 : refcount s1 !! 0 = Some 1) by (rewrite Hrc; reflexivity).
  assert (Hp1 : pincount s1 !! 0 = Some 0).
  { assert (Hq : (pmm_buddy_alloc_locked demo 0 ≫= fun x => pmm_mark_allocated (fst x) 0 0 ≫= fun y => pincount (fst y) !! 0) = Some 0)
      by (vm_compute; reflexivity). rewrite E in Hq. cbn [mbind option_bind fst] in Hq.
    change (0 * PAGE_SIZE) with 0 in Hrun. rewrite Hrun in Hq. exact Hq. }
  destruct (ref_dec_correct 8 (free_frame F) s1 [] 0 [] 1 0 HD1 Hrc1 Hp1) as (s' & Hdec & HD' & _).
  exists s1, s'. split; [exact HD1|]. split; [exact Hdec|exact HD'].
Defined.

(** C18: [pmm_slab_cache_init], for any object size from 8 to 8104 bytes: slabs of
    the chosen order hold at least one object, [obj_per_slab] is the number of
    objects a slab is carved into, the per-CPU cap is within the depth of the
    per-CPU list, and the cache joins the others without disturbing pages,
    objects or the list of caches. *)
Theorem slab_cache_init_correct T U G regs p client A L a size flags :
  pmm_inv T U G regs p client A L -> a <> NULL -> G !! a = None -> 8 <= size <= MAX_OBJECT ->
  exists c, caches (pmm_slab_cache_init (pm_slabs p) a size flags) !! a = Some c /\
    slot_size c = size /\ 1 <= num_slots c /\ obj_per_slab c = num_slots c /\
    first_slot_off size + num_slots c * size <= slab_bytes (slab_order c) /\
    2 <= cpu_partial_cap c <= SLAB_PCPU_PARTIAL_DEPTH /\
    pmm_inv T U (<[a := c]> G) (a :: regs)
      (mkPmm (pmm_slab_cache_init (pm_slabs p) a size flags) (pm_cpus p)) client A L.
Proof.
  intros Hi Ha HG Hs. destruct (add_cache T U G regs p client A L a size flags Hi Ha HG Hs) as (c & Hc & Hi').
  destruct (new_cache_fields (pm_slabs p) a size flags Hs) as (c' & Hc' & _ & Hg & Hsz & Hobj & Hcap & _).
  assert (c' = c) as -> by congruence. exists c. split; [done|]. split; [done|].
  split; [by apply num_slots_bounds|]. split; [done|]. split; [|done].
  unfold num_slots. rewrite Hsz. destruct Hg as (_ & H8 & Hfit). rewrite Hsz in *.
  pose proof (Z.mul_div_le (slab_bytes (slab_order c) - first_slot_off size) size ltac:(lia)). lia.
Qed.

Lemma slab_cache_init_correct_witness : exists c,
  caches (pmm_slab_cache_init (pm_slabs demo_pmm) 8192 4096 SLAB_TYPESAFE_BY_RCU) !! 8192 = Some c /\
  obj_per_slab c = num_slots c.
Proof.
  destruct demo_pmm_ok as (F & _ & Hi).
  destruct (slab_cache_init_correct 8 (free_frame F) demo_caches [demo_cache] demo_pmm [] ∅ (fun _ _ => [])
    8192 4096 SLAB_TYPESAFE_BY_RCU Hi) as (c & Hc & _ & _ & Hobj & _);
    [discriminate|vm_compute; reflexivity|unfold MAX_OBJECT; lia|].
  exists c. split; [exact Hc|exact Hobj].
Defined.

(** The first half of [pmm_drain_correct]. *)
Lemma pcp_drain_all_correct T U G regs p client A L :
  pmm_inv T U G regs p client A L ->
  exists b' cpus', pcp_drain_all (pm_buddy p) (pm_cpus p) = Some (b', cpus') /\ all_stashes cpus' = [] /\
    length cpus' = length (pm_cpus p) /\ divided T U (b', page_blocks A ++ client).
Proof.
  intros [Hs Hpl Hcpu _ _].
  destruct (pcp_drain_all_spec T U (pm_cpus p) (pm_buddy p) (page_blocks A ++ client) Hcpu)
    as (b' & cpus' & Hrun & _ & Hst & _ & HD).
  { eapply divided_perm; [|apply (si_div _ _ _ _ _ _ _ Hs)]. apply Permutation_app_swap_app. }
  exists b', cpus'. split; [done|]. split; [done|]. split; [by eapply pcp_drain_all_length|done].
Qed.

(** A page allocated on CPU 1, which fills that CPU's stash. *)

(** CPU 1 takes one page; CPU 0 then asks for one; every stash is drained. *)
Definition demo_taken : pmm := default demo_pmm (fst <$> pmm_buddy_alloc demo_pmm 1 0).
Definition demo_short : pmm := default demo_pmm (fst <$> pmm_buddy_alloc demo_taken 0 0).
Definition demo_drained : pmm :=
  match pcp_drain_all (pm_buddy demo_short) (pm_cpus demo_short) with
  | Some (b, cpus) => mkPmm (with_buddy (pm_slabs demo_short) b) cpus
  | None => demo_short
  end.

(** The second half of [pmm_drain_correct]. *)
Lemma pmm_alloc_stranded :
  pmm_buddy_alloc demo_pmm 1 0 = Some (demo_taken, 7 * PAGE_SIZE) /\
  length (all_stashes (pm_cpus demo_taken)) = 7%nat /\
  pmm_buddy_alloc demo_taken 0 0 = Some (demo_short, PMM_INVALID_ADDR) /\
  length (all_stashes (pm_cpus demo_short)) = 7%nat /\
  option_map snd (pmm_buddy_alloc demo_drained 0 0) = Some (3 * PAGE_SIZE).
Proof. vm_compute. repeat split; reflexivity. Qed.

(** C19: [pcp_drain_all] terminates without a fault, empties the stash of every
    CPU, and gives every stashed frame back to the buddy allocator:
    afterwards each frame is free there, in a slab page, or in a block a
    user holds. An allocation can fail while frames sit idle: after CPU 1
    has taken a single page of an eight-frame machine, its refill has moved
    the other seven free frames to its stash, and an allocation on CPU 0
    returns [PMM_INVALID_ADDR]; after [pcp_drain_all] the same allocation
    succeeds. *)
Theorem pmm_drain_correct :
  (forall T U G regs p client A L,
    pmm_inv T U G regs p client A L ->
    exists b' cpus', pcp_drain_all (pm_buddy p) (pm_cpus p) = Some (b', cpus') /\ all_stashes cpus' = [] /\
      length cpus' = length (pm_cpus p) /\ divided T U (b', page_blocks A ++ client)) /\
  (pmm_buddy_alloc demo_pmm 1 0 = Some (demo_taken, 7 * PAGE_SIZE) /\
  length (all_stashes (pm_cpus demo_taken)) = 7%nat /\
  pmm_buddy_alloc demo_taken 0 0 = Some (demo_short, PMM_INVALID_ADDR) /\
  length (all_stashes (pm_cpus demo_short)) = 7%nat /\
  option_map snd (pmm_buddy_alloc demo_drained 0 0) = Some (3 * PAGE_SIZE)).
Proof. exact (conj pcp_drain_all_correct pmm_alloc_stranded). Qed.

Lemma pmm_drain_correct_witness : exists F p r b' cpus' client A,
  pmm_buddy_alloc demo_pmm 1 0 = Some (p, r) /\
  pcp_drain_all (pm_buddy p) (pm_cpus p) = Some (b', cpus') /\ divided 8 (free_frame F) (b', page_blocks A ++ client).
Proof.
  destruct demo_pmm_ok as (F & _ & Hi). exists F.
  destruct (pmm_alloc_spec 8 (free_frame F) demo_caches [demo_cache] demo_pmm [] ∅ (fun _ _ => []) 1 0 Hi)
    as (p & r & Hrun & (A & L & _ & _ & Hres) & _); [eexists; vm_compute; reflexivity|lia|].
  exists p, r. destruct Hres as [(_ & Hi' & _)|(f & _ & _ & _ & Hi' & _)];
    destruct (proj1 pmm_drain_correct _ _ _ _ _ _ _ _ Hi') as (b' & cpus' & Hd & _ & _ & HD);
    exists b', cpus'; eexists _, A; (split; [exact Hrun|]); split; [exact Hd|exact HD|exact Hd|exact HD].
Defined.
