(* ===== verification/Kheap.v ===== *)
(** * The kernel heap

    Models kernel/mm/kheap.c, kernel/mm/slab_pcpu.c, the calls of
    kernel/mm/pmm.c that lend slab pages to a CPU, and one round of the shrinker
    of kernel/mm/slab_shrinker.c.  Each CPU has, per size class, a slot with a
    chain of free objects and the slab page they come from.  An object is taken
    from the slot; a dry slot is refilled with what other CPUs gave back to the
    page, or with another page.  An object is given back to the slot when its
    page is the one of this CPU, and to the page's [remote_free] otherwise.
    Sizes above the largest class take a block of their own.

    The compare-and-swap of the fast paths makes taking and giving back one
    object a single step of its CPU, and the slow path runs with interrupts off;
    between the two an interrupt may use the heap.  The statistics counters are
    left out. *)

From S2P Require Import Prelude DList Buddy PmmRef Pcp Slab Pmm.

Abbreviation KMALLOC_CACHE_COUNT := 10%Z (only parsing).

(** The slot of a CPU for one class: [cpu_slot], [cpu_slab], [partial_head] and
    [partial_count]. *)
Record pcpu := Pcpu { cs_freelist : Z; cs_tid : Z; cs_slab : Z; cs_partial : Z; cs_count : Z }.

(** The page allocator, the slots, and the byte that heads a large block. *)
Record heap := Heap { hp_pmm : pmm; hp_slots : gmap (nat * Z) pcpu; hp_orders : gmap Z Z }.

Definition hp_slabs (h : heap) : slabs := pm_slabs (hp_pmm h).
Definition with_hslabs (s : slabs) (h : heap) : heap := Heap (mkPmm s (pm_cpus (hp_pmm h))) (hp_slots h) (hp_orders h).
Definition with_slot (cpu : nat) (cls : Z) (x : pcpu) (h : heap) : heap :=
  Heap (hp_pmm h) (<[(cpu, cls) := x]> (hp_slots h)) (hp_orders h).

(** ** Lending pages to a CPU *)

(** The first page of a list, off the list and merged with its remote frees. *)
Definition pmm_slab_grab (s : slabs) (cache : Z) (w : slab_list) : option (slabs * Z) :=
  c ← caches s !! cache;
  let h := list_head w c in
  if h =? NULL then Some (s, NULL)
  else
    s ← slab_list_remove s cache w h;
    s ← upd_header s h (with_on_list SLAB_LIST_NONE);
    s ← drain_remote_into_freelist_locked s h;
    Some (s, h).
Definition pmm_slab_grab_partial (s : slabs) (cache : Z) : option (slabs * Z) := pmm_slab_grab s cache Partial.
Definition pmm_slab_grab_empty (s : slabs) (cache : Z) : option (slabs * Z) := pmm_slab_grab s cache Empty.

Fixpoint pmm_slab_grab_partial_batch (s : slabs) (cache : Z) (want : nat) : option (slabs * list Z) :=
  match want with
  | O => Some (s, [])
  | S want =>
      '(s, h) ← pmm_slab_grab_partial s cache;
      if h =? NULL then Some (s, [])
      else '(s, out) ← pmm_slab_grab_partial_batch s cache want; Some (s, h :: out)
  end.

Definition pmm_slab_grow (s : slabs) (cache : Z) : option (slabs * Z) :=
  '(s, h) ← pmm_slab_grow_locked s cache;
  if h =? NULL then Some (s, NULL)
  else
    s ← slab_list_remove s cache Partial h;
    s ← upd_header s h (with_on_list SLAB_LIST_NONE);
    s ← drain_remote_into_freelist_locked s h;
    Some (s, h).

Definition pmm_slab_park_partial (s : slabs) (cache h : Z) : option slabs := park s cache Partial h.
Definition pmm_slab_park_full (s : slabs) (cache h : Z) : option slabs := park s cache Full h.
Definition pmm_slab_park_empty (s : slabs) (cache h : Z) : option slabs := park s cache Empty h.
Fixpoint pmm_slab_park_partial_batch (s : slabs) (cache : Z) (pages : list Z) : option slabs :=
  match pages with [] => Some s | h :: pages => s ← park s cache Partial h; pmm_slab_park_partial_batch s cache pages end.

(** The rescued chain, and whether the page stays with the CPU. *)
Definition pmm_slab_demote_or_keep (s : slabs) (cache h : Z) : option (slabs * Z * bool) :=
  s ← drain_remote_into_freelist_locked s h;
  hd ← headers s !! h;
  let fl := h_freelist hd in
  if negb (fl =? NULL) then s ← upd_header s h (with_freelist NULL); Some (s, fl, true)
  else s ← park s cache Full h; Some (s, NULL, false).

Definition pmm_slab_header_of (s : slabs) (ptr : Z) : option Z :=
  if ptr =? NULL then Some NULL else
  let fi := Z.shiftr (virt_to_phys ptr) PAGE_SHIFT in
  if total_frames (sl_buddy s) <=? fi then Some NULL else
  t ← trackers s !! fi;
  if t =? NULL then Some NULL
  else head_idx ← heads s !! fi; Some (phys_to_virt (u64 (Z.shiftl head_idx PAGE_SHIFT))).

(** ** Sizes *)

Definition g_kmalloc_sizes : list Z := [8; 16; 32; 64; 128; 256; 512; 1024; 2048; 4096].

Fixpoint pick_from (l : list Z) (i size : Z) : option Z :=
  match l with [] => None | x :: l => if size <=? x then Some i else pick_from l (i + 1) size end.
Definition pick_cache_idx (size : Z) : option Z := pick_from g_kmalloc_sizes 0 size.

(** [64 - __builtin_clzll(size - 1)] is the number of bits of [size - 1]. *)
Definition size_to_order (size : Z) : Z :=
  if size <=? PAGE_SIZE then 0 else u8 (u8 (Z.log2 (size - 1) + 1) - PAGE_SHIFT).

Section kheap.
(** The addresses of [g_kheap.caches]. *)
Context (kcache : Z -> Z).

Definition kheap_cache_get (cls : Z) : Z := if KMALLOC_CACHE_COUNT <=? cls then NULL else kcache cls.

Definition set_class (i : Z) (c : slab_cache) : slab_cache :=
  SlabCache (slot_size c) (c_partial c) (c_full c) (c_empty c) (slab_order c) i (c_flags c) (obj_per_slab c)
    (cpu_partial_cap c) (cache_next c).

Definition slab_pcpu_init (s : slabs) : slabs :=
  fold_left (fun s i => with_caches s (alter (set_class i) (kheap_cache_get i) (caches s))) (seqZ 0 KMALLOC_CACHE_COUNT) s.

Definition kheap_init (s : slabs) : slabs :=
  slab_pcpu_init (fold_left (fun s '(i, size) => pmm_slab_cache_init s (kcache i) size 0)
    (zip (seqZ 0 KMALLOC_CACHE_COUNT) g_kmalloc_sizes) s).

(** ** Per-CPU slots *)

Definition publish_freelist (fl : Z) (x : pcpu) : pcpu :=
  Pcpu fl (u64 (cs_tid x + 1)) (cs_slab x) (cs_partial x) (cs_count x).
Definition with_slab (a : Z) (x : pcpu) : pcpu := Pcpu (cs_freelist x) (cs_tid x) a (cs_partial x) (cs_count x).
Definition with_partial (a n : Z) (x : pcpu) : pcpu := Pcpu (cs_freelist x) (cs_tid x) (cs_slab x) a n.

(** Step 3a: the first page of the CPU's own list. *)
Definition pop_partial (s : slabs) (x : pcpu) : option (slabs * pcpu * Z) :=
  let page := cs_partial x in
  if page =? NULL then Some (s, x, NULL)
  else
    h ← headers s !! page;
    s ← (if negb (h_next h =? NULL) then upd_header s (h_next h) (set_prev NULL) else Some s);
    s ← upd_header s page (fun h => with_on_list SLAB_LIST_NONE (h_links NULL NULL h));
    Some (s, with_partial (h_next h) (u32 (cs_count x - 1)) x, page).

(** Step 3b: all but the first page of a batch go to the CPU's own list. *)
Fixpoint stash_pages (s : slabs) (x : pcpu) (l : list Z) : option (slabs * pcpu) :=
  match l with
  | [] => Some (s, x)
  | a :: l =>
      s ← upd_header s a (h_links NULL (cs_partial x));
      s ← (if negb (cs_partial x =? NULL) then upd_header s (cs_partial x) (set_prev a) else Some s);
      s ← upd_header s a (with_on_list SLAB_LIST_CPU_PART);
      stash_pages s (with_partial a (u32 (cs_count x + 1)) x) l
  end.
Definition grab_batch (s : slabs) (x : pcpu) (cache : Z) (c : slab_cache) : option (slabs * pcpu * Z) :=
  let cap := if cpu_partial_cap c =? 0 then 1 else cpu_partial_cap c in
  let room := u32 (SLAB_PCPU_PARTIAL_DEPTH - cs_count x) in
  let want := if u32 (room + 1) <? cap then u32 (room + 1) else cap in
  let want := if want =? 0 then 1 else want in
  '(s, batch) ← pmm_slab_grab_partial_batch s cache (Z.to_nat want);
  match batch with
  | [] => Some (s, x, NULL)
  | page :: l => '(s, x) ← stash_pages s x l; Some (s, x, page)
  end.

(** Step 3: a page for the CPU, or NULL. *)
Definition acquire_page (s : slabs) (x : pcpu) (cache : Z) : option (slabs * pcpu * Z) :=
  c ← caches s !! cache;
  '(s, x, page) ← pop_partial s x;
  '(s, x, page) ← (if page =? NULL then grab_batch s x cache c else Some (s, x, page));
  '(s, page) ← (if page =? NULL then pmm_slab_grab_empty s cache else Some (s, page));
  '(s, page) ← (if page =? NULL then pmm_slab_grow s cache else Some (s, page));
  Some (s, x, page).

(** Step 5: the page and its free objects become the CPU's. *)
Definition promote (s : slabs) (x : pcpu) (c : slab_cache) (page : Z) : option (slabs * pcpu) :=
  h ← headers s !! page;
  s ← upd_header s page (fun h => with_freelist NULL (with_inuse (obj_per_slab c) (with_on_list SLAB_LIST_CPU_ACTIVE h)));
  Some (s, publish_freelist (h_freelist h) (with_slab page x)).

(** Steps 3 to 5.  [true]: the slot has objects; [false]: there is no memory. *)
Definition take_page (s : slabs) (x : pcpu) (cache : Z) : option (slabs * pcpu * bool) :=
  '(s, x, page) ← acquire_page s x cache;
  if page =? NULL then Some (s, publish_freelist NULL x, false)
  else
    c ← caches s !! cache;
    '(s, x) ← promote s x c page;
    Some (s, x, true).

(** [true]: the caller tries the slot again. *)
Definition slab_refill (h : heap) (cpu : nat) (cls : Z) : option (heap * bool) :=
  x ← hp_slots h !! (cpu, cls);
  let cache := kheap_cache_get cls in
  let s := hp_slabs h in
  '(s, x, kept) ←
    (if negb (cs_slab x =? NULL) then
       '(s, fl, kept) ← pmm_slab_demote_or_keep s cache (cs_slab x);
       Some (s, if (kept : bool) then publish_freelist fl x else with_slab NULL x, kept)
     else Some (s, x, false));
  if (kept : bool) then Some (with_slot cpu cls x (with_hslabs s h), true)
  else '(s, x, again) ← take_page s x cache; Some (with_slot cpu cls x (with_hslabs s h), again).

(** The fast path: an object, or NULL when the slot is dry. *)
Definition slot_pop (h : heap) (cpu : nat) (cls : Z) : option (heap * Z) :=
  x ← hp_slots h !! (cpu, cls);
  if cs_freelist x =? NULL then Some (h, NULL)
  else
    next ← words (hp_slabs h) !! cs_freelist x;
    Some (with_slot cpu cls (publish_freelist next x) h, cs_freelist x).

(** [fuel] bounds the refills; the slot is not dry after one that succeeds. *)
Fixpoint slab_pcpu_alloc (fuel : nat) (h : heap) (cpu : nat) (cls_in : Z) : option (heap * Z) :=
  if SLAB_PCPU_CLASSES <=? cls_in then Some (h, NULL)
  else
    '(h, r) ← slot_pop h cpu cls_in;
    if negb (r =? NULL) then Some (h, r)
    else
      match fuel with
      | O => None
      | S fuel => '(h, again) ← slab_refill h cpu cls_in; if (again : bool) then slab_pcpu_alloc fuel h cpu cls_in else Some (h, NULL)
      end.

Definition slab_pcpu_free (h : heap) (cpu : nat) (ptr : Z) : option heap :=
  if ptr =? NULL then Some h
  else
    a ← pmm_slab_header_of (hp_slabs h) ptr;
    if a =? NULL then Some h
    else
      hd ← headers (hp_slabs h) !! a;
      c ← caches (hp_slabs h) !! h_cache hd;
      let cls := class_idx c in
      if SLAB_PCPU_CLASSES <=? cls then s ← pmm_slab_free_locked (hp_slabs h) ptr; Some (with_hslabs s h)
      else
        x ← hp_slots h !! (cpu, cls);
        if cs_slab x =? a then
          Some (with_slot cpu cls (publish_freelist ptr x) (with_hslabs (store_word (hp_slabs h) ptr (cs_freelist x)) h))
        else
          s ← upd_header (store_word (hp_slabs h) ptr (h_remote_free hd)) a (with_remote ptr);
          Some (with_hslabs s h).

(** ** kmalloc and kfree *)

Definition kmalloc (h : heap) (cpu : nat) (size : Z) : option (heap * Z) :=
  match pick_cache_idx size with
  | Some idx => slab_pcpu_alloc 1 h cpu idx
  | None =>
      let order := size_to_order (u64 (size + 8)) in
      '(p, phys) ← pmm_buddy_alloc (hp_pmm h) cpu order;
      if phys =? PMM_INVALID_ADDR then Some (Heap p (hp_slots h) (hp_orders h), NULL)
      else
        let raw := phys_to_virt phys in
        Some (Heap p (hp_slots h) (<[raw := order]> (hp_orders h)), u64 (raw + 16))
  end.

Definition kfree (h : heap) (cpu : nat) (addr : Z) : option heap :=
  if addr =? NULL then Some h
  else
    slab ← pmm_is_slab_ptr (hp_slabs h) addr;
    if (slab : bool) then slab_pcpu_free h cpu addr
    else
      let raw := u64 (addr - 16) in
      order ← hp_orders h !! raw;
      p ← pmm_buddy_free (hp_pmm h) cpu (virt_to_phys raw) order;
      Some (Heap p (hp_slots h) (hp_orders h)).

(** ** The shrinker *)

(** What one round does to the page allocator, by the share of free memory in
    basis points; the caches of file names and inodes are trimmed as well. *)
Definition shrinker_round (p : pmm) (ratio_bp : Z) : option pmm :=
  if 7500 <=? ratio_bp then Some p
  else if 5000 <=? ratio_bp then
    s ← pmm_slab_shrink_bounded_locked (pm_slabs p) 4; Some (mkPmm s (pm_cpus p))
  else
    s ← (if 2500 <=? ratio_bp then pmm_slab_shrink_bounded_locked (pm_slabs p) 32 else pmm_slab_shrink_all_locked (pm_slabs p));
    '(b, cpus) ← pcp_drain_all (sl_buddy s) (pm_cpus p);
    Some (mkPmm (with_buddy s b) cpus).
End kheap.
