(* ===== verification/KheapCalls.v ===== *)
(** * The kernel heap: calls

    What lending a slab page to a CPU, taking objects from its slot, giving them
    back and refilling the slot do to the invariant of the slab allocator; the
    objects in the slot of a CPU are the [pg_slot] of its page.  Then the
    invariant of the heap, which ties the slots of the CPUs to the slab
    pages they hold, and the effect of [kmalloc] and [kfree] on it. *)

From S2P Require Import Prelude DList Buddy BuddySpec PmmInit PmmInitSpec BuddyTrace PmmRef Pcp PcpSpec Slab SlabSpec.
From S2P Require Import SlabLists SlabCalls SlabShrink Pmm PmmSpec PmmTrace Kheap.

(** A page with other contents. *)
Definition refit (fr re li : list Z) (on : place) (sl : list Z) (lost : Z) (pg : page) : page :=
  Page (pg_cache pg) (pg_order pg) (pg_frame pg) fr re li on sl lost.

(** A live object is in no other part of its page. *)
Lemma live_parts pg x l1 l2 : NoDup (all_slots pg) -> pg_live pg = l1 ++ x :: l2 ->
  x ∉ pg_free pg /\ x ∉ pg_remote pg /\ x ∉ pg_slot pg.
Proof.
  unfold all_slots. intros Hnd Hl. rewrite Hl, !NoDup_app in Hnd. destruct Hnd as (_ & H1 & _ & H2 & _ & H3 & _).
  split_and!; intros Hx; [apply (H1 x Hx)|apply (H2 x Hx)|apply (H3 x)]; set_solver.
Qed.

Lemma chain_insert ws x v l : x ∉ l -> chain ws l -> chain (<[x := v]> ws) l.
Proof. intros Hx. apply chain_frame. intros y Hy. apply lookup_insert_ne. by intros ->. Qed.

Lemma chain_cons ws x l : x <> NULL -> x ∉ l -> chain ws l -> chain (<[x := first l]> ws) (x :: l).
Proof. intros Hn Hx Hc. split; [done|]. split; [apply lookup_insert_eq|by apply chain_insert]. Qed.

Section pages.
Context (T : Z) (U : Z -> Prop) (rest : list (Z * Z)) (G : gmap Z slab_cache).
Abbreviation inv := (slab_inv T U rest G).

Lemma slot_nonnull s A L a pg x : inv s A L -> A !! a = Some pg -> x ∈ all_slots pg -> x <> NULL.
Proof. intros Hi Ha Hx. by apply (object_page T U rest G s A L a pg x Hi Ha Hx). Qed.

(** [slab_pcpu_free] on a page that is not this CPU's. *)
Lemma put_remote s A L a pg x l1 l2 h :
  inv s A L -> A !! a = Some pg -> pg_live pg = l1 ++ x :: l2 -> headers s !! a = Some h ->
  exists s', upd_header (store_word s x (h_remote_free h)) a (with_remote x) = Some s' /\
    inv s' (<[a := refit (pg_free pg) (x :: pg_remote pg) (l1 ++ l2) (pg_on pg) (pg_slot pg) (pg_lost pg) pg]> A) L /\
    sl_buddy s' = sl_buddy s /\ cache_head s' = cache_head s /\ caches s' = caches s.
Proof.
  intros Hi Ha Hl Hh. destruct (header_at _ _ _ _ _ _ _ _ _ Hi Ha) as (h0 & Hh0 & Hu). assert (h0 = h) as -> by congruence.
  destruct (hdr_fields h pg Hu) as (_ & _ & _ & _ & _ & Hf6). destruct (slots_length _ _ _ _ _ _ _ _ _ Hi Ha) as [_ Hnd].
  destruct (live_parts pg x l1 l2 Hnd Hl) as (Hx1 & Hx2 & Hx3).
  assert (Hxn : x <> NULL) by (eapply slot_nonnull; [done..|]; unfold all_slots; rewrite Hl; set_solver).
  destruct (si_page _ _ _ _ _ _ _ Hi a pg Ha) as (Haddr & Hc1 & Hc2 & c & HG & Ho & Hg & Hp & Hc3 & Hlost).
  unfold upd_header. cbn [headers store_word with_words]. rewrite Hh. cbn [mbind option_bind]. eexists. split; [done|]. split; [|done].
  rewrite Hf6. unfold store_word. change (with_headers (with_words s ?w) ?m) with (with_words (with_headers s m) w).
  eapply set_page; try done.
  - change (unlinked (with_remote x h)) with (with_remote x (unlinked h)). rewrite Hu.
    unfold refit, hdr, with_remote. cbn [pg_cache pg_frame pg_free pg_live pg_remote pg_slot pg_lost pg_on h_cache h_slab_phys h_freelist h_inuse h_prev h_next h_on_list].
    f_equal. rewrite Hl, !length_app. cbn [length]. lia.
  - intros z Hz. apply lookup_insert_ne. intros <-. apply Hz. unfold all_slots. rewrite Hl. set_solver.
  - split; [done|]. cbn [refit pg_free pg_remote pg_live pg_slot pg_lost pg_cache pg_order].
    split; [by apply chain_insert|]. split; [by apply chain_cons|]. exists c. do 3 (split; [done|]).
    split; [|split; [by apply chain_insert|done]]. rewrite <- Hp, Hl, <- !app_assoc. cbn [app].
    apply Permutation_app_head. rewrite <- (Permutation_middle l1). by rewrite <- Permutation_middle.
Qed.

(** [slab_pcpu_free] on the page of this CPU. *)
Lemma put_slot s A L a pg x l1 l2 :
  inv s A L -> A !! a = Some pg -> pg_live pg = l1 ++ x :: l2 ->
  inv (store_word s x (first (pg_slot pg)))
    (<[a := refit (pg_free pg) (pg_remote pg) (l1 ++ l2) (pg_on pg) (x :: pg_slot pg) (pg_lost pg) pg]> A) L.
Proof.
  intros Hi Ha Hl. destruct (header_at _ _ _ _ _ _ _ _ _ Hi Ha) as (h & Hh & Hu).
  destruct (slots_length _ _ _ _ _ _ _ _ _ Hi Ha) as [_ Hnd]. destruct (live_parts pg x l1 l2 Hnd Hl) as (Hx1 & Hx2 & Hx3).
  assert (Hxn : x <> NULL) by (eapply slot_nonnull; [done..|]; unfold all_slots; rewrite Hl; set_solver).
  destruct (si_page _ _ _ _ _ _ _ Hi a pg Ha) as (Haddr & Hc1 & Hc2 & c & HG & Ho & Hg & Hp & Hc3 & Hlost).
  unfold store_word. replace s with (with_headers s (<[a := h]> (headers s))) at 1 by (rewrite insert_id by done; by destruct s).
  eapply set_page; try done.
  - rewrite Hu. unfold refit, hdr. cbn [pg_cache pg_frame pg_free pg_live pg_remote pg_slot pg_lost pg_on]. f_equal.
    rewrite Hl, !length_app. cbn [length]. lia.
  - intros z Hz. apply lookup_insert_ne. intros <-. apply Hz. unfold all_slots. rewrite Hl. set_solver.
  - split; [done|]. cbn [refit pg_free pg_remote pg_live pg_slot pg_lost pg_cache pg_order].
    do 2 (split; [by apply chain_insert|]). exists c. do 3 (split; [done|]).
    split; [|split; [by apply chain_cons|done]]. rewrite <- Hp, Hl, <- !app_assoc. cbn [app]. by rewrite <- (Permutation_middle l2).
Qed.

(** The fast path of [slab_pcpu_alloc]. *)
Lemma take_slot s A L a pg x l :
  inv s A L -> A !! a = Some pg -> pg_slot pg = x :: l ->
  words s !! x = Some (first l) /\ x <> NULL /\
  inv s (<[a := refit (pg_free pg) (pg_remote pg) (x :: pg_live pg) (pg_on pg) l (pg_lost pg) pg]> A) L.
Proof.
  intros Hi Ha Hs. destruct (header_at _ _ _ _ _ _ _ _ _ Hi Ha) as (h & Hh & Hu).
  destruct (si_page _ _ _ _ _ _ _ Hi a pg Ha) as (Haddr & Hc1 & Hc2 & c & HG & Ho & Hg & Hp & Hc3 & Hlost).
  rewrite Hs in Hc3. destruct Hc3 as (Hxn & Hw & Hc3). split; [done|]. split; [done|].
  replace s with (with_words (with_headers s (<[a := h]> (headers s))) (words s)) at 1 by (rewrite insert_id by done; by destruct s).
  eapply set_page; try done.
  - rewrite Hu. unfold refit, hdr. cbn [pg_cache pg_frame pg_free pg_live pg_remote pg_slot pg_lost pg_on]. f_equal.
    rewrite Hs. cbn [length]. lia.
  - split; [done|]. cbn [refit pg_free pg_remote pg_live pg_slot pg_lost pg_cache pg_order].
    do 2 (split; [done|]). exists c. do 3 (split; [done|]).
    split; [|split; done]. rewrite <- Hp, Hs. cbn [app]. by rewrite <- (Permutation_middle (pg_live pg) l x).
Qed.

(** ** Refilling a slot *)

Lemma demote_or_keep_spec s A L a pg k :
  inv s A L -> A !! a = Some pg -> pg_cache pg = k -> pooled G k -> pg_on pg = OnCpu SLAB_LIST_CPU_ACTIVE ->
  pg_free pg = [] -> pg_slot pg = [] ->
  exists s', sl_buddy s' = sl_buddy s /\
    ((pg_remote pg <> [] /\ pmm_slab_demote_or_keep s k a = Some (s', first (pg_remote pg), true) /\
      inv s' (<[a := refit [] [] (pg_live pg) (pg_on pg) (pg_remote pg) (pg_lost pg + Z.of_nat (length (pg_remote pg))) pg]> A) L) \/
     (pg_remote pg = [] /\ pmm_slab_demote_or_keep s k a = Some (s', NULL, false) /\
      exists L', inv s' (<[a := with_place (OnList Full) pg]> A) L')).
Proof.
  intros Hi Ha <- (ck & Hck & Hcl) Hon Hfr Hsl.
  destruct (drain_spec T U rest G s A L a pg Hi Ha) as (s1 & Hdr & Hi1 & _ & _ & _ & Hb1).
  unfold pmm_slab_demote_or_keep. rewrite Hdr. cbn [mbind option_bind].
  assert (Ha1 : <[a := drained pg]> A !! a = Some (drained pg)) by apply lookup_insert_eq.
  destruct (header_at _ _ _ _ _ _ _ _ _ Hi1 Ha1) as (h & Hh & Hu). rewrite Hh. cbn [mbind option_bind].
  destruct (hdr_fields _ _ Hu) as (_ & _ & Hfl & _). rewrite Hfl. cbn [drained with_slots pg_free]. rewrite Hfr, app_nil_r.
  destruct (si_page _ _ _ _ _ _ _ Hi a pg Ha) as (Haddr & _ & Hc2 & c & HG & Ho & Hg & Hp & _ & Hl0 & _).
  destruct (decide (pg_remote pg = [])) as [Hr|Hr].
  - rewrite Hr. change (first []) with NULL. rewrite Z.eqb_refl. cbn [negb].
    rewrite drained_id in Hi1, Hu, Ha1 by done. rewrite insert_id in Hi1, Ha1 by done.
    destruct (page_addr _ _ _ _ _ _ _ _ _ Hi Ha) as [Hnz _].
    assert (Hlo : loose T U rest G s1 (delete a A) L a (with_place (OnList Full) pg)).
    { apply loose_place, loose_intro; [done|done|]. intros w. by rewrite Hon. }
    destruct (link_page T U rest G s1 (delete a A) L a (with_place (OnList Full) pg) Full h Hlo Hnz Hh) as (s2 & L2 & Hpk & Hi2 & _ & Hb2);
      [by rewrite Hu|done|].
    change (pg_cache (with_place (OnList Full) pg)) with (pg_cache pg) in Hpk. rewrite Hpk. cbn [mbind option_bind].
    exists s2. split; [congruence|]. right. split; [done|]. split; [done|]. exists L2. by rewrite insert_delete_eq in Hi2.
  - destruct (pg_remote pg) as [|x rl] eqn:Er; [done|]. rewrite first_cons. pose proof Hc2 as (Hxn & _).
    destruct (Z.eqb_spec x NULL); [done|]. cbn [negb]. unfold upd_header. rewrite Hh. cbn [mbind option_bind].
    eexists (with_headers s1 _). split; [exact Hb1|]. left. split; [done|]. split; [done|].
    rewrite <- (insert_insert_eq A a _ (drained pg)).
    change (with_headers s1 ?m) with (with_words (with_headers s1 m) (words s1)). eapply set_page; try done.
    + change (unlinked (with_freelist NULL h)) with (with_freelist NULL (unlinked h)). rewrite Hu.
      unfold refit, hdr, drained, with_slots, with_freelist.
      cbn [pg_cache pg_frame pg_free pg_live pg_remote pg_slot pg_lost pg_on h_cache h_slab_phys h_freelist h_inuse h_prev h_next h_on_list h_remote_free].
      rewrite Hsl. f_equal. cbn [length]. lia.
    + destruct (si_page _ _ _ _ _ _ _ Hi1 a _ Ha1) as (_ & Hch & _). cbn [drained with_slots pg_free] in Hch. rewrite Hfr, app_nil_r, Er in Hch.
      split; [done|]. cbn [refit pg_free pg_remote pg_live pg_slot pg_lost pg_cache pg_order]. do 2 (split; [done|]).
      exists c. do 3 (split; [done|]). rewrite Hfr, Hsl, app_nil_r in Hp. split; [|split; [done|]].
      * rewrite <- Hp. apply (Permutation_app_comm (pg_live pg) (x :: rl)).
      * split; [lia|]. assert (ck = c) as -> by congruence. lia.
Qed.

Lemma grab_none s cache c w : caches s !! cache = Some c -> list_head w c = NULL -> pmm_slab_grab s cache w = Some (s, NULL).
Proof. intros Hc Hn. unfold pmm_slab_grab. rewrite Hc. cbn [mbind option_bind]. by rewrite Hn, Z.eqb_refl. Qed.

(** A list without pages is empty. *)
Lemma no_pages s A L k c w :
  inv s A L -> caches s !! k = Some c -> (forall a pg, A !! a = Some pg -> pg_cache pg = k -> pg_on pg <> OnList w) -> list_head w c = NULL.
Proof.
  intros Hi Hc Hno. destruct (Z.eq_dec (list_head w c) NULL) as [|Hn]; [done|].
  destruct (head_page T U rest G s A L k c w Hi Hc Hn) as (pg & Ha & Hk & Hon). by destruct (Hno _ _ Ha Hk).
Qed.

(** A fresh page, off every list. *)
Definition loan (k o f : Z) (sl : list Z) : page := Page k o f sl [] [] (OnCpu SLAB_LIST_NONE) [] 0.

Lemma slab_grow_spec s A L k c :
  inv s A L -> caches s !! k = Some c -> geom_ok c ->
  exists s' r, pmm_slab_grow s k = Some (s', r) /\
    ((r = NULL /\ s' = s /\
      forall f, block_ok T (slab_order c) f ->
        ~ (forall x, f <= x < f + 2 ^ slab_order c -> U x /\ x ∉ owned_frames (page_blocks A ++ rest))) \/
     (r <> NULL /\ A !! r = None /\ exists f L', inv s' (<[r := loan k (slab_order c) f (slots c r)]> A) L' /\
        refs_pages s s' (<[r := loan k (slab_order c) f (slots c r)]> A))).
Proof.
  intros Hi Hc Hg. unfold pmm_slab_grow.
  destruct (grow_spec T U rest G s A L k c Hi Hc Hg) as (s1 & r & -> & [(-> & -> & Hno)|(f & L1 & Hr & Hrn & Hnone & Hi1 & Hrc)]);
    cbn [mbind option_bind]; [rewrite Z.eqb_refl; eexists _, _; split; [done|]; by left|].
  destruct (Z.eqb_spec r NULL); [done|]. set (pg := new_page k (slab_order c) f (slots c r)) in *.
  assert (Ha1 : <[r := pg]> A !! r = Some pg) by apply lookup_insert_eq.
  destruct (unlink_page T U rest G s1 _ L1 r pg Partial Hi1 Ha1 eq_refl) as (s2 & L2 & h & Hrm & Hlo & Hh & Hu & _ & _ & Hb2).
  change (pg_cache pg) with k in Hrm. rewrite Hrm. cbn [mbind option_bind].
  destruct (off_spec T U rest G s2 _ L2 r pg h (rcu_callbacks s2) (OnCpu SLAB_LIST_NONE) Hlo Hh Hu ltac:(done)) as (s3 & Hup & Hi3 & _ & _ & Hrcu & Hb3).
  cbn [place_kind] in Hup. rewrite Hup. cbn [mbind option_bind]. rewrite <- Hrcu in Hi3.
  replace (with_rcu s3 (rcu_callbacks s3)) with s3 in Hi3 by by destruct s3.
  rewrite delete_insert_id in Hi3 by done. change (with_place _ pg) with (loan k (slab_order c) f (slots c r)) in Hi3.
  destruct (drain_spec T U rest G s3 _ L2 r _ Hi3 (lookup_insert_eq _ _ _)) as (s4 & -> & Hi4 & _ & _ & _ & Hb4). cbn [mbind option_bind].
  rewrite drained_id, insert_insert_eq in Hi4 by done.
  exists s4, r. split; [done|]. right. split; [done|]. split; [done|]. exists f, L2. split; [done|].
  intros x Hx. rewrite Hb4, Hb3, Hb2, Hrc. case_decide as Hd; [right|by left].
  exists r, (loan k (slab_order c) f (slots c r)). by rewrite lookup_insert_eq.
Qed.

(** Of a class of the heap: nothing is on its partial and empty lists. *)
Lemma acquire_spec s A L k c x :
  inv s A L -> caches s !! k = Some c -> geom_ok c -> cs_partial x = NULL ->
  (forall a pg, A !! a = Some pg -> pg_cache pg = k -> pg_on pg <> OnList Partial /\ pg_on pg <> OnList Empty) ->
  exists s' r, acquire_page s x k = Some (s', x, r) /\ pmm_slab_grow s k = Some (s', r) /\
    ((r = NULL /\ s' = s /\
      forall f, block_ok T (slab_order c) f ->
        ~ (forall x, f <= x < f + 2 ^ slab_order c -> U x /\ x ∉ owned_frames (page_blocks A ++ rest))) \/
     (r <> NULL /\ A !! r = None /\ exists f L', inv s' (<[r := loan k (slab_order c) f (slots c r)]> A) L' /\
        refs_pages s s' (<[r := loan k (slab_order c) f (slots c r)]> A))).
Proof.
  intros Hi Hc Hg Hx Hno. unfold acquire_page. rewrite Hc. cbn [mbind option_bind]. unfold pop_partial. rewrite Hx, Z.eqb_refl.
  cbn [mbind option_bind]. rewrite Z.eqb_refl.
  assert (Hp : list_head Partial c = NULL) by (eapply no_pages; [done..|]; intros; by eapply Hno).
  assert (He : list_head Empty c = NULL) by (eapply no_pages; [done..|]; intros; by eapply Hno).
  assert (Hb : grab_batch s x k c = Some (s, x, NULL)).
  { unfold grab_batch. destruct (Z.to_nat _) as [|n]; cbn [pmm_slab_grab_partial_batch mbind option_bind]; [done|].
    unfold pmm_slab_grab_partial. rewrite (grab_none s k c Partial Hc Hp). cbn [mbind option_bind]. by rewrite Z.eqb_refl. }
  rewrite Hb. cbn [mbind option_bind]. rewrite Z.eqb_refl. unfold pmm_slab_grab_empty. rewrite (grab_none s k c Empty Hc He).
  cbn [mbind option_bind]. rewrite Z.eqb_refl.
  destruct (slab_grow_spec s A L k c Hi Hc Hg) as (s' & r & Hrun & Hres). rewrite Hrun. cbn [mbind option_bind]. by exists s', r.
Qed.

(** The fresh page becomes the page of a CPU. *)
Lemma promote_spec s A L k c x r f :
  inv s (<[r := loan k (slab_order c) f (slots c r)]> A) L -> geom_ok c -> obj_per_slab c = num_slots c ->
  exists s' x', promote s x c r = Some (s', x') /\ x' = publish_freelist (first (slots c r)) (with_slab r x) /\ sl_buddy s' = sl_buddy s /\
    caches s' = caches s /\ cache_head s' = cache_head s /\
    inv s' (<[r := Page k (slab_order c) f [] [] [] (OnCpu SLAB_LIST_CPU_ACTIVE) (slots c r) 0]> A) L.
Proof.
  intros Hi Hg Hn. set (pg := loan _ _ _ _) in *. assert (Ha : <[r := pg]> A !! r = Some pg) by apply lookup_insert_eq.
  destruct (header_at _ _ _ _ _ _ _ _ _ Hi Ha) as (h & Hh & Hu). destruct (hdr_fields _ _ Hu) as (_ & _ & Hfl & _).
  destruct (si_page _ _ _ _ _ _ _ Hi r pg Ha) as (Haddr & Hc1 & _ & c' & HG & Ho & Hg' & Hp & _).
  unfold promote, upd_header. rewrite Hh. cbn [mbind option_bind]. rewrite Hfl.
  eexists (with_headers s _), _. split; [done|]. split; [done|]. split; [done|]. split; [done|]. split; [done|].
  rewrite <- (insert_insert_eq A r _ pg).
  change (with_headers s ?m) with (with_words (with_headers s m) (words s)). eapply set_page; try done.
  - change (unlinked ?g) with (with_freelist NULL (with_inuse (obj_per_slab c) (with_on_list SLAB_LIST_CPU_ACTIVE (unlinked h)))).
    rewrite Hu. unfold hdr, with_freelist, with_inuse, with_on_list, pg, loan. cbn. f_equal. rewrite Hn.
    pose proof (length_slots c r Hg). pose proof (num_slots_bounds c Hg). lia.
  - split; [done|]. cbn [pg_free pg_remote pg_live pg_slot pg_lost pg_cache pg_order]. do 2 (split; [done|]).
    exists c'. do 3 (split; [done|]). split; [|split; [done|split; [lia|done]]]. rewrite <- Hp. cbn. by rewrite app_nil_r.
Qed.
End pages.

(** ** Slab steps of the heap keep the list of caches *)

Lemma slab_grow_kept s k s' r : pmm_slab_grow s k = Some (s', r) -> kept s s'.
Proof. unfold pmm_slab_grow. intros H. bind_inv H; simplify_eq; kept_steps. Qed.

Lemma demote_kept s k a s' fl b : pmm_slab_demote_or_keep s k a = Some (s', fl, b) -> kept s s'.
Proof. unfold pmm_slab_demote_or_keep. intros H. bind_inv H; simplify_eq; kept_steps. Qed.

(** ** The address of a large object *)

Lemma big_addr_frame f : 0 <= f < MAX_FRAMES -> Z.shiftr (virt_to_phys (vaddr f + 16)) PAGE_SHIFT = f.
Proof.
  intros Hf. unfold virt_to_phys, vaddr, u64, PAGE_SHIFT. rewrite PAGE_SIZE_val, MAX_FRAMES_val in *. rewrite Z.mod_small by (unfold HHDM_OFFSET; lia).
  rewrite Z.shiftr_div_pow2 by lia. replace (HHDM_OFFSET + f * 4096 + 16 - HHDM_OFFSET) with (f * 4096 + 16) by lia.
  change (2 ^ 12) with 4096. symmetry. apply (Z.div_unique _ _ _ 16); lia.
Qed.

Lemma big_addr_null f : 0 <= f < MAX_FRAMES -> vaddr f + 16 =? NULL = false.
Proof. intros Hf. pose proof (vaddr_range f Hf). apply Z.eqb_neq. unfold HHDM_OFFSET, NULL in *. lia. Qed.

(** Looking up the page of an object. *)
Lemma header_of_object T U G rest s (A : gmap Z page) L a pg x :
  slab_inv T U rest G s A L -> A !! a = Some pg -> x ∈ pg_live pg ->
  pmm_is_slab_ptr s x = Some true /\ pmm_slab_header_of s x = Some a /\ x <> NULL /\ a <> NULL.
Proof.
  intros Hi Ha Hx. destruct (object_page T U rest G s A L a pg x Hi Ha) as (Hn & Hf & Ht & Hhd & Hk & Hv); [unfold all_slots; set_solver|].
  destruct (page_addr _ _ _ _ _ _ _ _ _ Hi Ha) as [Han _].
  unfold pmm_is_slab_ptr, pmm_slab_header_of. destruct (Z.eqb_spec x NULL); [done|].
  destruct (Z.leb_spec (total_frames (sl_buddy s)) (Z.shiftr (virt_to_phys x) PAGE_SHIFT)); [lia|].
  rewrite Ht. cbn [mbind option_bind]. destruct (Z.eqb_spec (pg_cache pg) NULL); [done|]. cbn [negb].
  rewrite Hhd. cbn [mbind option_bind]. by rewrite Hv.
Qed.

(** ** Blocks of other users *)

Lemma client_block T U G regs p client A L f o :
  pmm_inv T U G regs p client A L -> (f, o) ∈ client -> block_ok T o f /\ 0 <= f < MAX_FRAMES /\ f < total_frames (pm_buddy p).
Proof.
  intros [Hs] Hin. destruct (si_div _ _ _ _ _ _ _ Hs) as (F & HiF & _ & HT & Hl & _).
  rewrite Forall_forall in Hl. assert (Hb : block_ok T o f) by (apply (Hl (f, o)); set_solver).
  assert (HM : T <= MAX_FRAMES) by (rewrite <- HT; apply HiF). split; [done|]. split; [by apply (block_small T o f)|].
  destruct Hb as (Hb1 & Hb2 & Hb3 & Hb4). pose proof (pow2_pos o ltac:(lia)). unfold pm_buddy. lia.
Qed.

(** The frames of a client's block carry no slab cache. *)
Lemma block_untracked T U G regs p client A L f o :
  pmm_inv T U G regs p client A L -> (f, o) ∈ client -> trackers (pm_slabs p) !! f = Some NULL.
Proof.
  intros Hi Hin. destruct (client_block _ _ _ _ _ _ _ _ _ _ Hi Hin) as ((Hb1 & Hb2 & Hb3 & Hb4) & _). pose proof Hi as [Hs].
  pose proof (pow2_pos o ltac:(lia)). apply (si_free _ _ _ _ _ _ _ Hs); [lia|]. intros a pg Ha Hp.
  apply list_elem_of_split in Hin as (l1 & l2 & ->). pose proof (si_div _ _ _ _ _ _ _ Hs) as Hd. rewrite !app_assoc in Hd.
  eapply (divided_apart T U _ _ f o l2 f Hd); [|lia]. unfold owned_frames. rewrite !bind_app, !elem_of_app. do 3 left.
  apply list_elem_of_bind. exists (pg_frame pg, pg_order pg). split; [by apply elem_of_seqZ|].
  apply list_elem_of_fmap. exists (a, pg). split; [done|]. by apply elem_of_map_to_list.
Qed.

Lemma slot_not_live T U G rest s (A : gmap Z page) L a pg x k :
  slab_inv T U rest G s A L -> A !! a = Some pg -> x ∈ pg_slot pg -> ~ live_in A k x.
Proof.
  intros Hi Ha Hx (b & pgb & Hb & _ & Hl). destruct (decide (b = a)) as [->|Hne].
  - assert (pgb = pg) as -> by congruence. destruct (slots_length _ _ _ _ _ _ _ _ _ Hi Ha) as [_ Hnd].
    unfold all_slots in Hnd. do 2 apply NoDup_app in Hnd as (_ & _ & Hnd). apply NoDup_app in Hnd as (_ & Hdj & _). by apply (Hdj x).
  - eapply (slots_apart T U rest G s A L a pg b pgb x); [done..|set_solver|set_solver].
Qed.

Section heap.
Context (T : Z) (U : Z -> Prop) (G : gmap Z slab_cache) (regs : list Z) (kcache : Z -> Z).

(** The ten classes of the heap. *)
Record classes_ok : Prop := {
  co_class i : 0 <= i < KMALLOC_CACHE_COUNT -> exists c, G !! kcache i = Some c /\ class_idx c = i /\
    obj_per_slab c = num_slots c /\ g_kmalloc_sizes !! Z.to_nat i = Some (slot_size c);
  co_only k c : G !! k = Some c -> class_idx c < KMALLOC_CACHE_COUNT -> 0 <= class_idx c /\ k = kcache (class_idx c);
}.

(** The slot of a CPU: dry and without a page, or the chain of its page. *)
Definition slot_ok (A : gmap Z page) (cls : Z) (x : pcpu) : Prop :=
  cs_partial x = NULL /\
  ((cs_slab x = NULL /\ cs_freelist x = NULL) \/
   exists pg, A !! cs_slab x = Some pg /\ pg_cache pg = kcache cls /\ pg_on pg = OnCpu SLAB_LIST_CPU_ACTIVE /\
     pg_free pg = [] /\ cs_freelist x = first (pg_slot pg)).

(** A page of the heap is on the full list or with a CPU. *)
Definition shelved (pg : page) : Prop :=
  pooled G (pg_cache pg) -> pg_on pg = OnList Full \/ pg_on pg = OnCpu SLAB_LIST_CPU_ACTIVE.

Record heap_ok (n : nat) (S : gmap (nat * Z) pcpu) (A : gmap Z page) : Prop := {
  ho_dom cpu cls : (cpu < n)%nat -> 0 <= cls < KMALLOC_CACHE_COUNT -> is_Some (S !! (cpu, cls));
  ho_key cpu cls : is_Some (S !! (cpu, cls)) -> 0 <= cls < KMALLOC_CACHE_COUNT;
  ho_slot cpu cls x : S !! (cpu, cls) = Some x -> slot_ok A cls x;
  ho_apart k k' x x' : S !! k = Some x -> S !! k' = Some x' -> cs_slab x = cs_slab x' -> cs_slab x <> NULL -> k = k';
  ho_page a pg : A !! a = Some pg -> shelved pg;
}.

(** A page on the full list stays there, and none of its objects is handed out
    again. *)
Definition full_kept (A A' : gmap Z page) : Prop :=
  forall a pg, A !! a = Some pg -> pooled G (pg_cache pg) -> pg_on pg = OnList Full ->
    exists pg', A' !! a = Some pg' /\ pg_cache pg' = pg_cache pg /\ pg_on pg' = OnList Full /\ pg_live pg' ⊆ pg_live pg.

Lemma full_kept_refl A : full_kept A A.
Proof. intros a pg Ha _ Hon. by exists pg. Qed.

Lemma full_kept_trans A B C : full_kept A B -> full_kept B C -> full_kept A C.
Proof.
  intros H1 H2 a pg Ha Hp Hon. destruct (H1 a pg Ha Hp Hon) as (pg1 & Ha1 & Hk1 & Hon1 & Hl1).
  destruct (H2 a pg1 Ha1) as (pg2 & Ha2 & Hk2 & Hon2 & Hl2); [by rewrite Hk1|done|].
  exists pg2. split; [done|]. split; [congruence|]. split; [done|set_solver].
Qed.

Lemma full_kept_insert A a pg' :
  (forall pg, A !! a = Some pg -> pg_on pg = OnList Full -> pg_cache pg' = pg_cache pg /\ pg_on pg' = OnList Full /\ pg_live pg' ⊆ pg_live pg) ->
  full_kept A (<[a := pg']> A).
Proof.
  intros H b pg Hb _ Hon. destruct (decide (b = a)) as [->|Hne]; [|exists pg; by rewrite lookup_insert_ne].
  rewrite lookup_insert_eq. exists pg'. split; [done|]. by apply H.
Qed.

Lemma class_pooled cls : classes_ok -> 0 <= cls < KMALLOC_CACHE_COUNT -> pooled G (kcache cls).
Proof. intros Hc Hr. destruct (co_class Hc cls Hr) as (c & Hk & Hi & _). exists c. split; [done|]. change SLAB_PCPU_CLASSES with 10. lia. Qed.

Lemma class_inj cls cls' : classes_ok -> 0 <= cls < KMALLOC_CACHE_COUNT -> 0 <= cls' < KMALLOC_CACHE_COUNT ->
  kcache cls = kcache cls' -> cls = cls'.
Proof.
  intros Hc Hr Hr' He. destruct (co_class Hc cls Hr) as (c & Hk & Hi & _), (co_class Hc cls' Hr') as (c' & Hk' & Hi' & _).
  rewrite He in Hk. congruence.
Qed.

(** ** Changes of one page and one slot *)

(** A slot gets other contents, with the page it leaves and the page it takes. *)
Lemma heap_ok_update n S A cpu cls x x' A' :
  heap_ok n S A -> A !! NULL = None -> S !! (cpu, cls) = Some x -> slot_ok A' cls x' ->
  (cs_slab x' = cs_slab x \/ A !! cs_slab x' = None) ->
  (forall a, a <> cs_slab x -> a <> cs_slab x' -> A' !! a = A !! a) ->
  (forall a pg, a = cs_slab x \/ a = cs_slab x' -> A' !! a = Some pg -> shelved pg) ->
  heap_ok n (<[(cpu, cls) := x']> S) A'.
Proof.
  intros Ho Hnull Hx Hx' Hnew Hsame Hsh.
  assert (Hfar : forall k y, k <> (cpu, cls) -> S !! k = Some y -> cs_slab y <> NULL ->
    is_Some (A !! cs_slab y) /\ cs_slab y <> cs_slab x /\ cs_slab y <> cs_slab x').
  { intros [i j] y Hk Hy Hn. destruct (ho_slot _ _ _ Ho _ _ _ Hy) as [_ [[? _]|(pg & Ha & _)]]; [done|].
    assert (cs_slab y <> cs_slab x) by (intros He; apply Hk; by eapply (ho_apart _ _ _ Ho)).
    split; [by eexists|]. split; [done|]. destruct Hnew as [->|Hnew]; [done|]. intros He. rewrite <- He in Hnew. congruence. }
  constructor.
  - intros i j Hi Hj. destruct (decide ((i, j) = (cpu, cls))) as [->|Hne]; [rewrite lookup_insert_eq; by eexists|].
    rewrite lookup_insert_ne by done. by apply (ho_dom _ _ _ Ho).
  - intros i j. rewrite lookup_insert_is_Some'. intros [[= <- <-]|Hs]; eapply (ho_key _ _ _ Ho); eauto.
  - intros i j y. destruct (decide ((i, j) = (cpu, cls))) as [[= -> ->]|Hne]; [rewrite lookup_insert_eq; by intros [= <-]|].
    rewrite lookup_insert_ne by done. intros Hy. destruct (ho_slot _ _ _ Ho _ _ _ Hy) as [Hp Hc]. split; [done|].
    destruct Hc as [?|(pg & Ha & Hr)]; [by left|]. right. exists pg. split; [|done].
    destruct (Hfar _ _ Hne Hy) as (_ & H1 & H2); [intros Hz; rewrite Hz in Ha; congruence|]. by rewrite Hsame.
  - assert (Hhalf : forall k y, k <> (cpu, cls) -> S !! k = Some y -> cs_slab y = cs_slab x' -> cs_slab y <> NULL -> False).
    { intros k y Hk Hy He Hn. by destruct (Hfar k y Hk Hy Hn) as (_ & _ & ?). }
    intros k k' y y'. destruct (decide (k = (cpu, cls))) as [->|Hk], (decide (k' = (cpu, cls))) as [->|Hk'];
      rewrite ?lookup_insert_eq, ?lookup_insert_ne by done; [done| | |by apply (ho_apart _ _ _ Ho)].
    + intros [= <-] Hy' He Hn. exfalso. apply (Hhalf k' y'); congruence.
    + intros Hy [= <-] He Hn. exfalso. by apply (Hhalf k y).
  - intros a pg Ha. destruct (decide (a = cs_slab x)); [eauto|]. destruct (decide (a = cs_slab x')); [eauto|].
    rewrite Hsame in Ha by done. by eapply (ho_page _ _ _ Ho).
Qed.

(** A page changes behind its slot. *)
Lemma heap_ok_page n S A a pg pg' :
  heap_ok n S A -> A !! a = Some pg -> pg_cache pg' = pg_cache pg -> pg_on pg' = pg_on pg -> pg_free pg' = pg_free pg ->
  pg_slot pg' = pg_slot pg -> heap_ok n S (<[a := pg']> A).
Proof.
  intros Ho Ha Hk Hon Hf Hs. constructor; [apply (ho_dom _ _ _ Ho)|apply (ho_key _ _ _ Ho)| |apply (ho_apart _ _ _ Ho)|].
  - intros i j y Hy. destruct (ho_slot _ _ _ Ho _ _ _ Hy) as [Hp [?|(pg0 & Ha0 & Hr)]]; (split; [done|]); [by left|right].
    destruct (decide (cs_slab y = a)) as [Hz|Hne]; [subst a|exists pg0; by rewrite lookup_insert_ne].
    rewrite lookup_insert_eq. exists pg'. assert (pg0 = pg) as -> by congruence. by rewrite Hk, Hon, Hf, Hs.
  - intros b pgb. destruct (decide (b = a)) as [->|Hne]; [|rewrite lookup_insert_ne by done; apply (ho_page _ _ _ Ho)].
    rewrite lookup_insert_eq. intros [= <-]. unfold shelved. rewrite Hk, Hon. by apply (ho_page _ _ _ Ho a).
Qed.

(** The pages of the heap are the same ones. *)
Lemma heap_ok_same n S A A' :
  classes_ok -> heap_ok n S A -> undisturbed G A A' -> heap_ok n S A'.
Proof.
  intros Hc Ho Hu. assert (Hsame : forall a pg, pooled G (pg_cache pg) -> (A !! a = Some pg <-> A' !! a = Some pg)).
  { apply Hu. intros a pg Ha Hp. by destruct (ho_page _ _ _ Ho _ _ Ha Hp) as [-> | ->]. }
  constructor; [apply (ho_dom _ _ _ Ho)|apply (ho_key _ _ _ Ho)| |apply (ho_apart _ _ _ Ho)|].
  - intros i j y Hy. destruct (ho_slot _ _ _ Ho _ _ _ Hy) as [Hp [?|(pg & Ha & Hk & Hr)]]; (split; [done|]); [by left|right].
    exists pg. split; [|done]. apply Hsame; [|done]. rewrite Hk. apply class_pooled; [done|]. apply (ho_key _ _ _ Ho i). by eexists.
  - intros a pg Ha Hp. by apply (ho_page _ _ _ Ho a pg); [apply Hsame|].
Qed.

(** ** The fast paths *)

Definition heap_at (h : heap) (client : list (Z * Z)) (A : gmap Z page) (L : Z -> slab_list -> list Z) : Prop :=
  pmm_inv T U G regs (hp_pmm h) client A L /\ heap_ok (length (pm_cpus (hp_pmm h))) (hp_slots h) A.

Definition same_rest (h h' : heap) : Prop := hp_orders h' = hp_orders h /\ pm_cpus (hp_pmm h') = pm_cpus (hp_pmm h).

(** A step of the heap that leaves the buddy allocator and the caches alone. *)
Lemma heap_step h client A L s' A' L' S' :
  heap_at h client A L -> slab_inv T U (blocks (all_stashes (pm_cpus (hp_pmm h))) ++ client) G s' A' L' -> all_placed A' ->
  cache_head s' = cache_head (hp_slabs h) -> refs_pages (hp_slabs h) s' A' -> heap_ok (length (pm_cpus (hp_pmm h))) S' A' ->
  heap_at (Heap (mkPmm s' (pm_cpus (hp_pmm h))) S' (hp_orders h)) client A' L'.
Proof.
  intros [Hi Ho] Hs Hpl Hh Hr Ho'. split; [|done]. eapply slab_step; [exact Hi|done|done| |done].
  unfold registered. rewrite Hh. apply (pi_regs _ _ _ _ _ _ _ _ Hi).
Qed.

Lemma no_null h client A L : heap_at h client A L -> A !! NULL = None.
Proof.
  intros [[Hs] _]. destruct (A !! NULL) as [pg|] eqn:E; [|done]. by destruct (page_addr _ _ _ _ _ _ _ _ _ Hs E).
Qed.

Lemma pop_object h client A L cpu cls x :
  heap_at h client A L -> hp_slots h !! (cpu, cls) = Some x -> cs_freelist x <> NULL ->
  exists h' A', slot_pop h cpu cls = Some (h', cs_freelist x) /\ heap_at h' client A' L /\ same_rest h h' /\ full_kept A A' /\
    (forall k, ~ live_in A k (cs_freelist x)) /\
    forall k y, live_in A' k y <-> live_in A k y \/ (k = kcache cls /\ y = cs_freelist x).
Proof.
  intros Hh Hx Hn. pose proof (no_null _ _ _ _ Hh) as Hnull. pose proof Hh as [Hi Ho]. pose proof (pi_slab _ _ _ _ _ _ _ _ Hi) as Hs.
  destruct (ho_slot _ _ _ Ho _ _ _ Hx) as [Hp [[_ ?]|(pg & Ha & Hk & Hon & Hf & Hfl)]]; [done|]. rewrite Hfl in Hn |- *.
  destruct (pg_slot pg) as [|r l] eqn:Hsl; [done|]. rewrite first_cons in *.
  destruct (take_slot T U _ G _ A L _ pg r l Hs Ha Hsl) as (Hw & Hrn & Hs').
  unfold slot_pop. rewrite Hx. cbn [mbind option_bind]. rewrite Hfl. destruct (Z.eqb_spec r NULL); [done|].
  fold (hp_slabs h) in Hw. rewrite Hw. cbn [mbind option_bind].
  exists (with_slot cpu cls (publish_freelist (first l) x) h), (<[cs_slab x := refit (pg_free pg) (pg_remote pg) (r :: pg_live pg) (pg_on pg) l (pg_lost pg) pg]> A).
  split; [done|].
  split; [|split; [done|split; [|split; [|intros k y; rewrite <- Hk; by eapply live_add]]]].
  - replace (with_slot cpu cls (publish_freelist (first l) x) h) with
      (Heap (mkPmm (hp_slabs h) (pm_cpus (hp_pmm h))) (<[(cpu, cls) := publish_freelist (first l) x]> (hp_slots h)) (hp_orders h))
      by (unfold hp_slabs, with_slot; by destruct (hp_pmm h)).
    eapply heap_step; [done|exact Hs'| |done|by left|].
    + apply all_placed_insert; [apply (pi_placed _ _ _ _ _ _ _ _ Hi)|]. unfold placed. cbn. rewrite Hon. auto.
    + eapply heap_ok_update; [done|done|done| |by left| |].
      * split; [done|]. right. eexists. split; [apply lookup_insert_eq|]. by cbn [refit pg_cache pg_on pg_free pg_slot cs_freelist publish_freelist].
      * intros a Ha1 Ha2. by rewrite lookup_insert_ne.
      * cbn [cs_slab publish_freelist]. intros a pg' Ha' Hpg'. assert (a = cs_slab x) as -> by tauto.
        rewrite lookup_insert_eq in Hpg'. injection Hpg' as <-. intros _. right. exact Hon.
  - apply full_kept_insert. intros pg' Ha' Hon'. congruence.
  - intros k. eapply slot_not_live; [exact Hs|exact Ha|]. rewrite Hsl. left.
Qed.

(** ** Refilling a slot *)

(** No aligned run of free frames of order [o] is left. *)
Definition no_block (o : Z) (A : gmap Z page) (rest : list (Z * Z)) : Prop :=
  forall f, block_ok T o f -> ~ (forall x, f <= x < f + 2 ^ o -> U x /\ x ∉ owned_frames (page_blocks A ++ rest)).

Lemma class_cache h client A L cls :
  classes_ok -> heap_at h client A L -> 0 <= cls < KMALLOC_CACHE_COUNT ->
  exists c, caches (hp_slabs h) !! kcache cls = Some c /\ G !! kcache cls = Some (geom c) /\ geom_ok c /\ obj_per_slab c = num_slots c.
Proof.
  intros Hc [[Hs _ _ _ Hgo] _] Hr. destruct (co_class Hc cls Hr) as (c0 & Hk & _ & Hn & _). pose proof Hk as Hk'.
  rewrite <- (si_geom _ _ _ _ _ _ _ Hs), lookup_fmap, fmap_Some in Hk'. destruct Hk' as (c & Hcc & ->).
  exists c. split; [done|]. split; [done|]. split; [apply (Hgo _ _ Hk)|done].
Qed.

(** A fresh page in a slot that had none. *)
Definition active (k o f : Z) (sl : list Z) : page := Page k o f [] [] [] (OnCpu SLAB_LIST_CPU_ACTIVE) sl 0.

Lemma adopt_page h client A L cpu cls x s' L' r o f sl :
  heap_at h client A L -> hp_slots h !! (cpu, cls) = Some x -> cs_partial x = NULL -> A !! r = None ->
  slab_inv T U (blocks (all_stashes (pm_cpus (hp_pmm h))) ++ client) G s' (<[r := active (kcache cls) o f sl]> A) L' ->
  cache_head s' = cache_head (hp_slabs h) -> refs_pages (hp_slabs h) s' (<[r := active (kcache cls) o f sl]> A) ->
  heap_at (Heap (mkPmm s' (pm_cpus (hp_pmm h))) (<[(cpu, cls) := publish_freelist (first sl) (with_slab r x)]> (hp_slots h)) (hp_orders h))
    client (<[r := active (kcache cls) o f sl]> A) L' /\
  full_kept A (<[r := active (kcache cls) o f sl]> A) /\
  forall k y, live_in (<[r := active (kcache cls) o f sl]> A) k y <-> live_in A k y.
Proof.
  intros Hh Hx Hp Hnone Hs Hhd Hrefs. pose proof (no_null _ _ _ _ Hh) as HA0. pose proof Hh as [Hi Ho].
  split; [|split; [apply full_kept_insert; congruence|]].
  - eapply heap_step; [done|exact Hs| |done|done|].
    + apply all_placed_insert; [apply (pi_placed _ _ _ _ _ _ _ _ Hi)|]. unfold placed. cbn. auto.
    + eapply heap_ok_update; [done|done|done| |by right| |].
      * split; [done|]. right. eexists. split; [apply lookup_insert_eq|done].
      * cbn. intros a _ Ha. by rewrite lookup_insert_ne.
      * cbn [cs_slab publish_freelist with_slab]. intros a pg' Ha. destruct (decide (a = r)) as [->|Hne].
        -- rewrite lookup_insert_eq. intros [= <-] _. by right.
        -- rewrite lookup_insert_ne by done. apply (ho_page _ _ _ Ho).
  - intros k y. split; intros (b & pgb & Hb & Hk & Hy); exists b, pgb.
    + destruct (decide (b = r)) as [->|]; [|by rewrite lookup_insert_ne in Hb by done].
      rewrite lookup_insert_eq in Hb. injection Hb as <-. by apply not_elem_of_nil in Hy.
    + rewrite lookup_insert_ne by congruence. done.
Qed.

Lemma take_page_spec h client A L cpu cls x :
  classes_ok -> heap_at h client A L -> hp_slots h !! (cpu, cls) = Some x -> cs_slab x = NULL ->
  exists s' x' b A' L', take_page (hp_slabs h) x (kcache cls) = Some (s', x', b) /\
    heap_at (Heap (mkPmm s' (pm_cpus (hp_pmm h))) (<[(cpu, cls) := x']> (hp_slots h)) (hp_orders h)) client A' L' /\
    full_kept A A' /\ (forall k y, live_in A' k y <-> live_in A k y) /\
    if (b : bool) then cs_freelist x' <> NULL
    else forall c, G !! kcache cls = Some c -> no_block (slab_order c) A' (blocks (all_stashes (pm_cpus (hp_pmm h))) ++ client).
Proof.
  intros Hc Hh Hx Hnull. pose proof (no_null _ _ _ _ Hh) as HA0. pose proof Hh as [Hi Ho].
  pose proof (pi_slab _ _ _ _ _ _ _ _ Hi) as Hs. fold (hp_slabs h) in Hs.
  assert (Hr : 0 <= cls < KMALLOC_CACHE_COUNT) by (apply (ho_key _ _ _ Ho cpu); by eexists).
  destruct (class_cache _ _ _ _ _ Hc Hh Hr) as (c & Hcc & HG & Hg & Hn).
  destruct (ho_slot _ _ _ Ho _ _ _ Hx) as [Hp Hcase].
  destruct (acquire_spec T U _ G _ A L (kcache cls) c x Hs Hcc Hg Hp) as (s1 & r & Hacq & Hgrow & Hres).
  { intros a pg Ha Hk. assert (Hpo : pooled G (pg_cache pg)) by (rewrite Hk; by apply class_pooled).
    by destruct (ho_page _ _ _ Ho _ _ Ha Hpo) as [-> | ->]. }
  unfold take_page. rewrite Hacq. cbn [mbind option_bind].
  destruct Hres as [(-> & -> & Hno)|(Hrn & Hnone & f & L' & Hs1 & Hrefs)].
  - rewrite Z.eqb_refl. eexists _, _, _, A, L. split; [done|]. split; [|split; [apply full_kept_refl|split; [done|]]].
    + eapply heap_step; [done|done|apply (pi_placed _ _ _ _ _ _ _ _ Hi)|done|by left|].
      eapply heap_ok_update; [done|done|done| |by left|done|].
      * split; [done|]. by left.
      * cbn. intros a pg _. apply (ho_page _ _ _ Ho).
    + intros c' Hc'. by assert (c' = geom c) as -> by congruence.
  - destruct (Z.eqb_spec r NULL); [done|].
    pose proof HG as HG1. rewrite <- (si_geom _ _ _ _ _ _ _ Hs1), lookup_fmap, fmap_Some in HG1. destruct HG1 as (c1 & Hc1 & Hgc).
    assert (Ho1 : slab_order c = slab_order c1) by exact (f_equal slab_order Hgc).
    assert (Hn1 : obj_per_slab c1 = num_slots c1) by (change (obj_per_slab (geom c1) = num_slots (geom c1)); by rewrite <- Hgc).
    assert (Hsl1 : slots c r = slots c1 r) by (change (slots (geom c) r = slots (geom c1) r); by rewrite Hgc).
    assert (Hg1 : geom_ok c1) by (change (geom_ok (geom c1)); by rewrite <- Hgc).
    rewrite Ho1, Hsl1 in Hs1, Hrefs. rewrite Hc1. cbn [mbind option_bind].
    destruct (promote_spec T U _ G s1 A L' (kcache cls) c1 x r f Hs1 Hg1 Hn1) as (s2 & x' & -> & -> & Hb2 & _ & Hh2 & Hs2).
    cbn [mbind option_bind]. fold (active (kcache cls) (slab_order c1) f (slots c1 r)) in Hs2.
    destruct (adopt_page h client A L cpu cls x s2 L' r _ f _ Hh Hx Hp Hnone Hs2) as (Hh2' & Hfull & Hlv).
    { rewrite Hh2. by apply slab_grow_kept in Hgrow as [_ ?]. }
    { intros y Hy. rewrite Hb2. destruct (Hrefs y Hy) as [?|(b & pgb & Hb & Hin)]; [by left|right].
      destruct (decide (b = r)) as [->|Hne]; [|exists b, pgb; rewrite lookup_insert_ne in Hb |- * by done; done].
      eexists r, _. rewrite lookup_insert_eq in Hb |- *. split; [done|]. by injection Hb as <-. }
    eexists _, _, _, _, L'. split; [done|]. split; [exact Hh2'|]. split; [done|]. split; [done|].
    cbn [cs_freelist publish_freelist]. pose proof (length_slots c1 r Hg1) as Hl. pose proof (num_slots_bounds c1 Hg1).
    destruct (slots c1 r) as [|z zs] eqn:Ez; [simpl in Hl; lia|]. rewrite first_cons.
    eapply (slot_nonnull T U _ G s2 _ L' r _ z Hs2); [apply lookup_insert_eq|]. unfold all_slots, active. cbn. left.
Qed.

Lemma demote_step h client A L cpu cls x :
  classes_ok -> heap_at h client A L -> hp_slots h !! (cpu, cls) = Some x -> cs_freelist x = NULL -> cs_slab x <> NULL ->
  exists s' fl b A' L', pmm_slab_demote_or_keep (hp_slabs h) (kcache cls) (cs_slab x) = Some (s', fl, b) /\
    heap_at (Heap (mkPmm s' (pm_cpus (hp_pmm h)))
      (<[(cpu, cls) := if (b : bool) then publish_freelist fl x else with_slab NULL x]> (hp_slots h)) (hp_orders h)) client A' L' /\
    full_kept A A' /\ (forall k y, live_in A' k y <-> live_in A k y) /\ (b = true -> fl <> NULL).
Proof.
  intros Hc Hh Hx Hdry Hn. pose proof (no_null _ _ _ _ Hh) as HA0. pose proof Hh as [Hi Ho].
  pose proof (pi_slab _ _ _ _ _ _ _ _ Hi) as Hs. fold (hp_slabs h) in Hs. pose proof (pi_placed _ _ _ _ _ _ _ _ Hi) as Hpl.
  assert (Hr : 0 <= cls < KMALLOC_CACHE_COUNT) by (apply (ho_key _ _ _ Ho cpu); by eexists).
  destruct (ho_slot _ _ _ Ho _ _ _ Hx) as [Hp [[? _]|(pg & Ha & Hk & Hon & Hf & Hfl)]]; [done|].
  destruct (si_page _ _ _ _ _ _ _ Hs _ pg Ha) as (_ & _ & Hch2 & _ & _ & _ & _ & _ & Hch & _).
  assert (Hsl : pg_slot pg = []) by (apply (chain_first (words (hp_slabs h))); [done|congruence]).
  destruct (demote_or_keep_spec T U _ G _ A L _ pg (kcache cls) Hs Ha Hk (class_pooled cls Hc Hr) Hon Hf Hsl)
    as (s' & Hb & [(Hrm & Hrun & Hs')|(Hrm & Hrun & L' & Hs')]); pose proof (demote_kept _ _ _ _ _ _ Hrun) as [_ Hhd].
  - eexists s', _, true, _, L. split; [exact Hrun|]. split; [|split; [|split]].
    + eapply heap_step; [done|exact Hs'| |done|intros y Hy; rewrite Hb; by left|].
      * apply all_placed_insert; [done|]. unfold placed. cbn. rewrite Hon. auto.
      * eapply heap_ok_update; [done|done|done| |by left| |].
        -- split; [done|]. right. eexists. split; [apply lookup_insert_eq|done].
        -- intros a Ha1 _. by rewrite lookup_insert_ne.
        -- cbn [cs_slab publish_freelist]. intros a pg' Ha' Hpg'. assert (a = cs_slab x) as -> by tauto.
           rewrite lookup_insert_eq in Hpg'. injection Hpg' as <-. intros _. right. exact Hon.
    + apply full_kept_insert. congruence.
    + intros k y. by eapply live_same.
    + intros _. destruct (pg_remote pg) as [|z l]; [done|]. by destruct Hch2.
  - eexists s', _, false, _, L'. split; [exact Hrun|]. split; [|split; [|split]].
    + eapply heap_step; [done|exact Hs'| |done|intros y Hy; rewrite Hb; by left|].
      * by apply all_placed_insert.
      * eapply heap_ok_update; [done|done|done|by split; [done|left]|by right| |].
        -- intros a Ha1 _. by rewrite lookup_insert_ne.
        -- cbn [cs_slab with_slab]. intros a pg' Ha' Hpg'. destruct (decide (a = cs_slab x)) as [->|Hne].
           ++ rewrite lookup_insert_eq in Hpg'. injection Hpg' as <-. intros _. by left.
           ++ rewrite lookup_insert_ne in Hpg' by done. destruct Ha' as [->| ->]; [done|]. congruence.
    + apply full_kept_insert. congruence.
    + intros k y. by eapply live_same.
    + done.
Qed.

Lemma refill_spec h client A L cpu cls x :
  classes_ok -> heap_at h client A L -> hp_slots h !! (cpu, cls) = Some x -> cs_freelist x = NULL ->
  exists h' again A' L', slab_refill kcache h cpu cls = Some (h', again) /\ heap_at h' client A' L' /\ same_rest h h' /\
    full_kept A A' /\ (forall k y, live_in A' k y <-> live_in A k y) /\
    if (again : bool) then exists x', hp_slots h' !! (cpu, cls) = Some x' /\ cs_freelist x' <> NULL
    else forall c, G !! kcache cls = Some c -> no_block (slab_order c) A' (blocks (all_stashes (pm_cpus (hp_pmm h))) ++ client).
Proof.
  intros Hc Hh Hx Hdry. pose proof Hh as [Hi Ho].
  assert (Hr : 0 <= cls < KMALLOC_CACHE_COUNT) by (apply (ho_key _ _ _ Ho cpu); by eexists).
  unfold slab_refill. rewrite Hx. cbn [mbind option_bind]. unfold kheap_cache_get.
  destruct (Z.leb_spec KMALLOC_CACHE_COUNT cls); [lia|]. destruct (Z.eqb_spec (cs_slab x) NULL) as [Hz|Hz]; cbn [negb mbind option_bind].
  - destruct (take_page_spec h client A L cpu cls x Hc Hh Hx Hz) as (s' & x' & b & A' & L' & -> & Hh' & Hfull & Hlv & Hb).
    cbn [mbind option_bind]. eexists _, b, A', L'. split; [done|]. split; [exact Hh'|]. split; [done|]. split; [done|]. split; [done|].
    destruct b; [|done]. exists x'. cbn. by rewrite lookup_insert_eq.
  - destruct (demote_step h client A L cpu cls x Hc Hh Hx Hdry Hz) as (s1 & fl & b & A1 & L1 & -> & Hh1 & Hfull1 & Hlv1 & Hb1).
    cbn [mbind option_bind]. destruct b.
    + eexists _, true, A1, L1. split; [done|]. split; [exact Hh1|]. split; [done|]. split; [done|]. split; [done|].
      eexists. cbn. rewrite lookup_insert_eq. split; [done|]. by apply Hb1.
    + destruct (take_page_spec _ client A1 L1 cpu cls (with_slab NULL x) Hc Hh1) as (s' & x' & b & A' & L' & Hrun & Hh' & Hfull & Hlv & Hb);
        [cbn; by rewrite lookup_insert_eq|done|].
      unfold hp_slabs in Hrun at 1. cbn [hp_pmm pm_slabs] in Hrun. rewrite Hrun. cbn [mbind option_bind]. eexists _, b, A', L'. split; [done|].
      cbn [hp_slots hp_orders hp_pmm pm_cpus] in Hh'. rewrite insert_insert_eq in Hh'. split; [exact Hh'|]. split; [done|].
      split; [by eapply full_kept_trans|]. split; [intros k y; by rewrite Hlv, Hlv1|]. destruct b; [|done]. exists x'. cbn. by rewrite lookup_insert_eq.
Qed.

Lemma pcpu_alloc_spec h client A L cpu cls :
  classes_ok -> heap_at h client A L -> is_Some (hp_slots h !! (cpu, cls)) ->
  exists h' r A' L', slab_pcpu_alloc kcache 1 h cpu cls = Some (h', r) /\ heap_at h' client A' L' /\ same_rest h h' /\ full_kept A A' /\
    ((r = NULL /\ (forall k y, live_in A' k y <-> live_in A k y) /\
      forall c, G !! kcache cls = Some c -> no_block (slab_order c) A' (blocks (all_stashes (pm_cpus (hp_pmm h))) ++ client)) \/
     (r <> NULL /\ (forall k, ~ live_in A k r) /\ forall k y, live_in A' k y <-> live_in A k y \/ (k = kcache cls /\ y = r))).
Proof.
  intros Hc Hh [x Hx]. pose proof Hh as [Hi Ho].
  assert (Hr : 0 <= cls < KMALLOC_CACHE_COUNT) by (apply (ho_key _ _ _ Ho cpu); by eexists).
  assert (Hlt : SLAB_PCPU_CLASSES <=? cls = false) by (apply Z.leb_gt; lia).
  destruct (decide (cs_freelist x = NULL)) as [Hd|Hd].
  - assert (Hpop : slot_pop h cpu cls = Some (h, NULL)).
    { unfold slot_pop. rewrite Hx. cbn [mbind option_bind]. by rewrite Hd, Z.eqb_refl. }
    destruct (refill_spec h client A L cpu cls x Hc Hh Hx Hd) as (h1 & b & A1 & L1 & Hrun & Hh1 & [Hr1 Hr2] & Hfull1 & Hlv1 & Hb).
    cbn [slab_pcpu_alloc]. rewrite Hlt, Hpop. cbn [mbind option_bind]. rewrite Z.eqb_refl, Hrun. cbn [negb mbind option_bind].
    destruct b; [|eexists _, _, A1, L1; split; [done|]; split; [done|]; split; [done|]; split; [done|]; by left].
    destruct Hb as (x1 & Hx1 & Hn1). destruct (pop_object h1 client A1 L1 cpu cls x1 Hh1 Hx1 Hn1) as (h2 & A2 & -> & Hh2 & [Hq1 Hq2] & Hfull2 & Hnl & Hlv2).
    cbn [mbind option_bind]. destruct (Z.eqb_spec (cs_freelist x1) NULL); [done|]. cbn [negb].
    eexists _, _, A2, L1. split; [done|]. split; [done|]. split; [split; congruence|]. split; [by eapply full_kept_trans|].
    right. split; [done|]. split; [intros k Hk; apply (Hnl k); by apply Hlv1|]. intros k y. by rewrite Hlv2, Hlv1.
  - destruct (pop_object h client A L cpu cls x Hh Hx Hd) as (h2 & A2 & Hpop & Hh2 & Hrest & Hfull & Hnl & Hlv).
    cbn [slab_pcpu_alloc]. rewrite Hlt, Hpop. cbn [mbind option_bind]. destruct (Z.eqb_spec (cs_freelist x) NULL); [done|]. cbn [negb].
    eexists _, _, A2, L. split; [done|]. split; [done|]. split; [done|]. split; [done|]. by right.
Qed.

(** ** Giving an object back *)

Lemma pcpu_free_spec h client A L cpu cls x :
  classes_ok -> heap_at h client A L -> 0 <= cls < KMALLOC_CACHE_COUNT -> is_Some (hp_slots h !! (cpu, cls)) -> live_in A (kcache cls) x ->
  exists h' A', slab_pcpu_free h cpu x = Some h' /\ heap_at h' client A' L /\ same_rest h h' /\ full_kept A A' /\
    forall k y, live_in A' k y <-> live_in A k y /\ y <> x.
Proof.
  intros Hc Hh Hr [y Hy] (a & pg & Ha & Hk & Hx). pose proof (no_null _ _ _ _ Hh) as HA0. pose proof Hh as [Hi Ho].
  pose proof (pi_slab _ _ _ _ _ _ _ _ Hi) as Hs. fold (hp_slabs h) in Hs. pose proof (pi_placed _ _ _ _ _ _ _ _ Hi) as Hpl.
  destruct (header_of_object T U G _ _ A L a pg x Hs Ha Hx) as (_ & Hhd & Hxn & Han).
  destruct (header_at _ _ _ _ _ _ _ _ _ Hs Ha) as (hd & Hh1 & Hu). destruct (hdr_fields _ _ Hu) as (Hcache & _).
  destruct (class_cache _ _ _ _ _ Hc Hh Hr) as (c & Hcc & HG & _). destruct (co_class Hc cls Hr) as (c0 & Hk0 & Hcls & _).
  assert (class_idx c = cls) as Hcl by (assert (c0 = geom c) as -> by congruence; exact Hcls).
  apply list_elem_of_split in Hx as (l1 & l2 & Hl).
  unfold slab_pcpu_free. destruct (Z.eqb_spec x NULL); [done|]. rewrite Hhd. cbn [mbind option_bind].
  destruct (Z.eqb_spec a NULL); [done|]. rewrite Hh1. cbn [mbind option_bind]. rewrite Hcache, Hk, Hcc. cbn [mbind option_bind]. rewrite Hcl.
  destruct (Z.leb_spec SLAB_PCPU_CLASSES cls); [lia|]. rewrite Hy. cbn [mbind option_bind].
  assert (Hpg : placed pg) by by eapply Hpl.
  destruct (Z.eqb_spec (cs_slab y) a) as [He|He].
  - subst a. destruct (ho_slot _ _ _ Ho _ _ _ Hy) as [Hp [[? _]|(pg' & Ha' & _ & Hon & Hf & Hfl)]]; [done|]. assert (pg' = pg) as -> by congruence.
    pose proof (put_slot T U _ G _ A L _ pg x l1 l2 Hs Ha Hl) as Hs'. rewrite <- Hfl in Hs'.
    eexists _, (<[cs_slab y := refit (pg_free pg) (pg_remote pg) (l1 ++ l2) (pg_on pg) (x :: pg_slot pg) (pg_lost pg) pg]> A). split; [done|].
    split; [|split; [done|split; [apply full_kept_insert; congruence|intros k z; by eapply live_remove]]].
    apply (heap_step h client A L _ _ L (<[(cpu, cls) := publish_freelist x y]> (hp_slots h)) Hh Hs'); [|done|by left|].
    + apply all_placed_insert; [done|]. unfold placed. cbn. rewrite Hon. auto.
    + eapply heap_ok_update; [done|done|done| |by left| |].
      * split; [done|]. right. eexists. split; [apply lookup_insert_eq|done].
      * intros b Hb1 _. by rewrite lookup_insert_ne.
      * cbn [cs_slab publish_freelist]. intros b pg' Hb' Hpg'. assert (b = cs_slab y) as -> by tauto.
        rewrite lookup_insert_eq in Hpg'. injection Hpg' as <-. intros _. right. exact Hon.
  - destruct (put_remote T U _ G _ A L a pg x l1 l2 hd Hs Ha Hl Hh1) as (s' & Hrun & Hs' & Hb & Hch & _). rewrite Hrun. cbn [mbind option_bind].
    eexists _, (<[a := refit (pg_free pg) (x :: pg_remote pg) (l1 ++ l2) (pg_on pg) (pg_slot pg) (pg_lost pg) pg]> A). split; [done|].
    split; [|split; [done|split; [|intros k z; by eapply live_remove]]].
    + eapply (heap_step h client A L s' _ L (hp_slots h)); [done|exact Hs'| |done|intros z Hz; rewrite Hb; by left|].
      * apply all_placed_insert; [done|]. unfold placed in Hpg |- *. cbn. destruct (pg_on pg) as [[]| |]; try done; destruct Hpg as (_ & Hn & _); rewrite Hn in Hl; by destruct l1.
      * by eapply heap_ok_page.
    + apply full_kept_insert. intros pg' Ha' Hon. assert (pg' = pg) as -> by congruence. split; [done|]. split; [done|]. cbn. rewrite Hl. set_solver.
Qed.

(** ** Large objects *)

Lemma undisturbed_full n S A A' : heap_ok n S A -> undisturbed G A A' -> full_kept A A'.
Proof.
  intros Ho Hu a pg Ha Hp Hon. exists pg. split; [|done]. apply Hu; [|done|done].
  intros b pgb Hb Hpb. by destruct (ho_page _ _ _ Ho _ _ Hb Hpb) as [-> | ->].
Qed.

Lemma kmalloc_big_spec h client A L cpu size :
  classes_ok -> heap_at h client A L -> (cpu < length (pm_cpus (hp_pmm h)))%nat -> pick_cache_idx size = None ->
  let order := size_to_order (u64 (size + 8)) in
  exists h' r A' L', kmalloc kcache h cpu size = Some (h', r) /\ full_kept A A' /\ undisturbed G A A' /\
    (forall k y, live_in A' k y <-> live_in A k y) /\ length (pm_cpus (hp_pmm h')) = length (pm_cpus (hp_pmm h)) /\
    ((r = NULL /\ heap_at h' client A' L' /\ hp_orders h' = hp_orders h /\
      no_block order A' (blocks (all_stashes (pm_cpus (hp_pmm h'))) ++ client)) \/
     (exists f, r = vaddr f + 16 /\ 0 <= f < MAX_FRAMES /\ heap_at h' ((f, order) :: client) A' L' /\
        hp_orders h' = <[vaddr f := order]> (hp_orders h))).
Proof.
  intros Hc [Hi Ho] Hcpu Hpick order. unfold kmalloc. rewrite Hpick. fold order.
  assert (Hord : 0 <= order) by (unfold order, size_to_order; destruct (_ <=? _); [lia|apply u8_range]).
  destruct (pmm_alloc_spec T U G regs _ client A L cpu order Hi (lookup_lt_is_Some_2 _ _ Hcpu) Hord)
    as (p' & r & Hrun & (A' & L' & Hlv & HA & Hres) & _). rewrite Hrun. cbn [mbind option_bind].
  assert (Hu : undisturbed G A A') by (destruct HA as [->| ->]; [done|apply undisturbed_reclaim]).
  pose proof (alloc_cpus _ _ _ _ _ Hrun) as Hlen.
  assert (Ho' : heap_ok (length (pm_cpus p')) (hp_slots h) A') by (rewrite Hlen; by eapply heap_ok_same).
  destruct Hres as [(-> & Hi' & _ & Hno)|(f & -> & Hne & _ & Hi' & _)].
  - rewrite Z.eqb_refl. eexists _, _, A', L'. split; [done|]. split; [by eapply undisturbed_full|]. do 3 (split; [done|]).
    left. split; [done|]. split; [by split|]. split; [done|]. exact Hno.
  - destruct (Z.eqb_spec (f * PAGE_SIZE) PMM_INVALID_ADDR) as [|_]; [done|].
    destruct (client_block T U G regs _ _ _ _ f order Hi') as (_ & Hf & _); [left|]. rewrite phys_to_virt_frame by done.
    eexists _, _, A', L'. split; [done|]. split; [by eapply undisturbed_full|]. do 3 (split; [done|]). right. exists f.
    split; [|split; [done|]; by split]. unfold vaddr, u64. apply Z.mod_small. rewrite PAGE_SIZE_val, MAX_FRAMES_val in *.
    unfold HHDM_OFFSET. lia.
Qed.

Lemma kfree_big_spec h l1 f o l2 A L cpu :
  heap_at h (l1 ++ (f, o) :: l2) A L -> (cpu < length (pm_cpus (hp_pmm h)))%nat -> hp_orders h !! vaddr f = Some o ->
  exists h', kfree h cpu (vaddr f + 16) = Some h' /\ heap_at h' (l1 ++ l2) A L /\ hp_orders h' = hp_orders h /\
    length (pm_cpus (hp_pmm h')) = length (pm_cpus (hp_pmm h)).
Proof.
  intros [Hi Ho] Hcpu Hord. destruct (client_block T U G regs _ _ _ _ f o Hi) as (Hb & Hf & HfT); [set_solver|].
  pose proof (block_untracked T U G regs _ _ _ _ f o Hi ltac:(set_solver)) as Htr.
  pose proof (vaddr_range f Hf) as Hv. pose proof (vaddr_nonnull f Hf) as Hvn.
  pose proof (big_addr_frame f Hf) as Hfr. pose proof (big_addr_null f Hf) as Hnn.
  unfold kfree, pmm_is_slab_ptr. rewrite Hnn, Hfr. destruct (Z.leb_spec (total_frames (sl_buddy (hp_slabs h))) f); [unfold pm_buddy, hp_slabs in *; lia|].
  unfold hp_slabs. rewrite Htr. cbn [mbind option_bind]. rewrite Z.eqb_refl. cbn [negb].
  replace (u64 (vaddr f + 16 - 16)) with (vaddr f) by (unfold u64; rewrite Z.mod_small; unfold HHDM_OFFSET in *; lia).
  rewrite Hord. cbn [mbind option_bind]. rewrite virt_to_phys_frame by done.
  destruct (pmm_free_spec T U G regs _ l1 f o l2 A L cpu Hi (lookup_lt_is_Some_2 _ _ Hcpu)) as (p' & Hrun & Hi' & _). rewrite Hrun.
  pose proof (free_cpus _ _ _ _ _ Hrun) as Hlen. cbn [mbind option_bind]. eexists. split; [done|]. split; [|done].
  split; [done|]. cbn [hp_pmm hp_slots]. by rewrite Hlen.
Qed.
End heap.
