(* ===== verification/KheapTrace.v ===== *)
(** * The kernel heap: sequences of calls

    The step relation of all users of memory on all CPUs: objects taken from the
    heap and given back, bytes written to what is held, and the calls of other
    users of pages and slab objects.  Its invariant says which objects are held
    and what the slots of the CPUs hold; it holds after [kheap_init] on a machine
    without slab pages. *)

From S2P Require Import Prelude DList Buddy BuddySpec PmmInit PmmInitSpec BuddyTrace PmmRef Pcp PcpSpec Slab SlabSpec.
From S2P Require Import SlabLists SlabCalls SlabShrink Pmm PmmSpec PmmTrace PmmBoot Kheap KheapCalls.

(** The heap, the blocks and slab objects of other users, the objects of the
    classes (class, address) and the large objects (first frame, order, size). *)
Record hstate := HState { hs_heap : heap; hs_blocks : list (Z * Z); hs_objs : list (Z * Z); hs_small : list (Z * Z); hs_big : list (Z * Z * Z) }.

Definition hs_pmm (st : hstate) : pmm := hp_pmm (hs_heap st).
Definition hs_pstate (st : hstate) : pstate := PState (hs_pmm st) (hs_blocks st) (hs_objs st).
Definition big_blocks (l : list (Z * Z * Z)) : list (Z * Z) := fst <$> l.

(** The block of a large object has room for its head and its bytes. *)
Definition roomy (size : Z) : Prop := size + 16 <= PAGE_SIZE * 2 ^ size_to_order (u64 (size + 8)).

(** The bytes [lo, hi) belong to one user. *)
Inductive holds (st : hstate) : Z -> Z -> Prop :=
| holds_small cls x n : (cls, x) ∈ hs_small st -> g_kmalloc_sizes !! Z.to_nat cls = Some n -> holds st x (x + n)
| holds_big f o size : (f, o, size) ∈ hs_big st -> holds st (vaddr f + 16) (vaddr f + 16 + size)
| holds_obj k x c : (k, x) ∈ hs_objs st -> caches (pm_slabs (hs_pmm st)) !! k = Some c -> holds st x (x + slot_size c)
| holds_block f o : (f, o) ∈ hs_blocks st -> holds st (vaddr f) (vaddr f + PAGE_SIZE * 2 ^ o).

Section steps.
Context (kcache : Z -> Z).

Inductive hstep : hstate -> hstate -> Prop :=
| hstep_pmm h bs os sm big p' bs' os' :
    pstep (PState (hp_pmm h) bs os) (PState p' bs' os') ->
    hstep (HState h bs os sm big) (HState (Heap p' (hp_slots h) (hp_orders h)) bs' os' sm big)
| hstep_kmalloc_small h bs os sm big cpu size cls h' r :
    (cpu < length (pm_cpus (hp_pmm h)))%nat -> 0 <= size -> pick_cache_idx size = Some cls -> kmalloc kcache h cpu size = Some (h', r) ->
    hstep (HState h bs os sm big) (HState h' bs os (if r =? NULL then sm else (cls, r) :: sm) big)
| hstep_kmalloc_big h bs os sm big cpu size h' r :
    (cpu < length (pm_cpus (hp_pmm h)))%nat -> size < 2 ^ 64 -> pick_cache_idx size = None -> roomy size ->
    kmalloc kcache h cpu size = Some (h', r) ->
    hstep (HState h bs os sm big)
      (HState h' bs os sm (if r =? NULL then big else (Z.shiftr (virt_to_phys r) PAGE_SHIFT, size_to_order (u64 (size + 8)), size) :: big))
| hstep_kfree_small h bs os l1 cls x l2 big cpu h' :
    (cpu < length (pm_cpus (hp_pmm h)))%nat -> kfree h cpu x = Some h' ->
    hstep (HState h bs os (l1 ++ (cls, x) :: l2) big) (HState h' bs os (l1 ++ l2) big)
| hstep_kfree_big h bs os sm l1 f o size l2 cpu h' :
    (cpu < length (pm_cpus (hp_pmm h)))%nat -> kfree h cpu (vaddr f + 16) = Some h' ->
    hstep (HState h bs os sm (l1 ++ (f, o, size) :: l2)) (HState h' bs os sm (l1 ++ l2))
| hstep_kfree_null h bs os sm big cpu h' :
    kfree h cpu NULL = Some h' -> hstep (HState h bs os sm big) (HState h' bs os sm big)
| hstep_write h bs os sm big lo hi ws orders :
    holds (HState h bs os sm big) lo hi ->
    (forall a, apart a 8 lo (hi - lo) -> ws !! a = words (hp_slabs h) !! a) ->
    (forall a, apart a 1 lo (hi - lo) -> orders !! a = hp_orders h !! a) ->
    hstep (HState h bs os sm big)
      (HState (Heap (mkPmm (with_words (hp_slabs h) ws) (pm_cpus (hp_pmm h))) (hp_slots h) orders) bs os sm big).
End steps.

(** ** Sizes *)

Lemma pick_from_spec l : forall i size,
  match pick_from l i size with
  | Some j => i <= j < i + Z.of_nat (length l) /\ (exists n, l !! Z.to_nat (j - i) = Some n /\ size <= n) /\
      forall m n, (m < Z.to_nat (j - i))%nat -> l !! m = Some n -> n < size
  | None => forall n, n ∈ l -> n < size
  end.
Proof.
  induction l as [|x l IH]; intros i size; cbn [pick_from length]; [intros n Hn; by apply not_elem_of_nil in Hn|].
  destruct (Z.leb_spec size x) as [Hx|Hx].
  - split; [lia|]. rewrite Z.sub_diag. split; [by exists x|]. intros m n Hm. simpl in Hm. lia.
  - specialize (IH (i + 1) size). destruct (pick_from l (i + 1) size) as [j|].
    + destruct IH as (Hj & (n & Hn & Hs) & Hlt). replace (Z.to_nat (j - i)) with (S (Z.to_nat (j - (i + 1)))) by lia.
      split; [lia|]. split; [by exists n|]. intros [|m] n' Hm; cbn; [by intros [= <-]|]. apply Hlt. lia.
    + intros n [->|Hn]%elem_of_cons; [done|by apply IH].
Qed.

(** The class of a size is the smallest one with room. *)
Lemma pick_small size cls : pick_cache_idx size = Some cls ->
  0 <= cls < KMALLOC_CACHE_COUNT /\ (exists n, g_kmalloc_sizes !! Z.to_nat cls = Some n /\ size <= n) /\
  forall i n, 0 <= i < cls -> g_kmalloc_sizes !! Z.to_nat i = Some n -> n < size.
Proof.
  intros H. pose proof (pick_from_spec g_kmalloc_sizes 0 size) as Hs. unfold pick_cache_idx in H. rewrite H in Hs.
  rewrite Z.sub_0_r in Hs. destruct Hs as (Hr & Hn & Hlt). cbn in Hr. split; [lia|]. split; [done|].
  intros i n Hi. apply Hlt. lia.
Qed.

Lemma pick_big size : pick_cache_idx size = None <-> 4096 < size.
Proof.
  split; intros H.
  - pose proof (pick_from_spec g_kmalloc_sizes 0 size) as Hs. unfold pick_cache_idx in H. rewrite H in Hs. apply Hs. set_solver.
  - destruct (pick_cache_idx size) as [cls|] eqn:E; [|done]. apply pick_small in E as (_ & (n & Hn & Hs) & _). exfalso.
    assert (Hall : Forall (fun n => n <= 4096) g_kmalloc_sizes) by (repeat constructor; lia).
    pose proof (Forall_lookup_1 _ _ _ _ Hall Hn) as Hle. cbn in Hle. lia.
Qed.

Lemma order_range size : 0 <= size_to_order size.
Proof. unfold size_to_order. destruct (_ <=? _); [lia|]. unfold u8. apply Z.mod_pos_bound. lia. Qed.

(** ** The invariant of a sequence *)

Section safe.
Context (T : Z) (U : Z -> Prop) (G : gmap Z slab_cache) (regs : list Z) (kcache : Z -> Z).
Context (Hclasses : classes_ok G kcache).

(** The objects of the classes that are held are the live ones. *)
Definition small_ok (A : gmap Z page) (small : list (Z * Z)) : Prop :=
  NoDup small /\ forall cls x, (cls, x) ∈ small <-> 0 <= cls < KMALLOC_CACHE_COUNT /\ live_in A (kcache cls) x.

(** A large object has its order in front of it and fits its block. *)
Definition big_ok (orders : gmap Z Z) (b : Z * Z * Z) : Prop :=
  let '(f, o, size) := b in orders !! vaddr f = Some o /\ size + 16 <= PAGE_SIZE * 2 ^ o.

Definition heap_inv (st : hstate) (A : gmap Z page) (L : Z -> slab_list -> list Z) : Prop :=
  heap_at T U G regs kcache (hs_heap st) (big_blocks (hs_big st) ++ hs_blocks st) A L /\
  (NoDup (hs_objs st) /\ forall k x, (k, x) ∈ hs_objs st <-> live_in A k x /\ plain G k) /\
  small_ok A (hs_small st) /\ Forall (big_ok (hp_orders (hs_heap st))) (hs_big st).

Definition heap_safe (st : hstate) : Prop := exists A L, heap_inv st A L.

Lemma not_plain k : plain G k -> ~ pooled G k.
Proof. intros (c & Hc & H1) (c' & Hc' & H2). assert (c' = c) as -> by congruence. lia. Qed.

(** Another user takes or returns memory. *)
Lemma safe_pmm h bs os sm big A L p' bs' os' :
  heap_inv (HState h bs os sm big) A L -> pstep (PState (hp_pmm h) bs os) (PState p' bs' os') ->
  exists A' L', heap_inv (HState (Heap p' (hp_slots h) (hp_orders h)) bs' os' sm big) A' L' /\ full_kept G A A'.
Proof.
  intros ([Hi Ho] & [Hnd Hobj] & [Hnds Hsm] & Hbig) Hst. pose proof (pstep_cpus _ _ Hst) as Hlen.
  destruct (safe_step_at T U G regs (big_blocks big) (PState (hp_pmm h) bs os) (PState p' bs' os') A L (conj Hi (conj Hnd Hobj)) Hst) as (A' & L' & (Hi' & Hobj') & Hu).
  exists A', L'. split; [|by eapply undisturbed_full]. cbn [hs_heap hs_blocks hs_objs hs_small hs_big hp_pmm ps_pmm ps_objs] in *.
  split; [split; [exact Hi'|cbn; rewrite Hlen; by eapply heap_ok_same]|]. split; [exact Hobj'|]. split; [|done].
  split; [done|]. intros cls x. rewrite Hsm. enough (0 <= cls < KMALLOC_CACHE_COUNT -> (live_in A (kcache cls) x <-> live_in A' (kcache cls) x)) by tauto. intros Hcls.
  assert (Hsame : forall a pg, pooled G (pg_cache pg) -> (A !! a = Some pg <-> A' !! a = Some pg)).
  { apply Hu. intros a pg Ha Hp. by destruct (ho_page _ _ _ _ _ Ho _ _ Ha Hp) as [-> | ->]. }
  split; intros (a & pg & Ha & Hk & Hx); exists a, pg; (split; [|done]); apply Hsame; (done || (rewrite Hk; by apply class_pooled)).
Qed.

(** ** Objects of the classes *)

Lemma safe_kmalloc_small h bs os sm big A L cpu size cls :
  heap_inv (HState h bs os sm big) A L -> (cpu < length (pm_cpus (hp_pmm h)))%nat -> pick_cache_idx size = Some cls ->
  exists h' r A' L', kmalloc kcache h cpu size = Some (h', r) /\ full_kept G A A' /\
    heap_inv (HState h' bs os (if r =? NULL then sm else (cls, r) :: sm) big) A' L' /\
    (r = NULL -> forall c, G !! kcache cls = Some c ->
       no_block T U (slab_order c) A' (blocks (all_stashes (pm_cpus (hp_pmm h))) ++ big_blocks big ++ bs)).
Proof.
  intros (Hh & [Hnd Hobj] & [Hnds Hsm] & Hbig) Hcpu Hpick. pose proof (pick_small _ _ Hpick) as (Hr & _).
  cbn [hs_heap hs_blocks hs_objs hs_small hs_big] in *. pose proof Hh as [Hi Ho].
  destruct (pcpu_alloc_spec T U G regs kcache h _ A L cpu cls Hclasses Hh (ho_dom _ _ _ _ _ Ho cpu cls Hcpu Hr))
    as (h' & r & A' & L' & Hrun & Hh' & [Hq1 Hq2] & Hfull & Hres).
  exists h', r, A', L'. unfold kmalloc. rewrite Hpick. split; [done|]. split; [done|]. unfold heap_inv, small_ok.
  cbn [hs_heap hs_blocks hs_objs hs_small hs_big]. rewrite Hq1. destruct Hres as [(-> & Hlv & Hno)|(Hrn & Hnl & Hlv)].
  - rewrite Z.eqb_refl. split; [|by intros _]. split; [done|]. split; [split; [done|intros; by rewrite Hlv]|].
    split; [split; [done|intros; by rewrite Hlv]|done].
  - destruct (Z.eqb_spec r NULL); [done|]. split; [|done]. split; [done|]. split; [|split; [split|done]].
    + split; [done|]. intros k y. rewrite Hlv, Hobj. split; [tauto|]. intros [[?|[-> _]] Hp]; [done|].
      exfalso. by apply (not_plain _ Hp), class_pooled.
    + constructor; [|done]. intros [_ Hl]%Hsm. by apply (Hnl (kcache cls)).
    + intros c' y. rewrite elem_of_cons, Hlv, Hsm. split; [naive_solver|]. intros (Hr' & [Hl|[He ->]]); [naive_solver|]. left. f_equal.
      by eapply class_inj.
Qed.

Lemma safe_kfree_small h bs os l1 cls x l2 big A L cpu :
  heap_inv (HState h bs os (l1 ++ (cls, x) :: l2) big) A L -> (cpu < length (pm_cpus (hp_pmm h)))%nat ->
  exists h' A', kfree h cpu x = Some h' /\ full_kept G A A' /\ heap_inv (HState h' bs os (l1 ++ l2) big) A' L.
Proof.
  intros (Hh & [Hnd Hobj] & [Hnds Hsm] & Hbig) Hcpu. cbn [hs_heap hs_blocks hs_objs hs_small hs_big] in *. pose proof Hh as [Hi Ho].
  pose proof (pi_slab _ _ _ _ _ _ _ _ Hi) as Hs.
  assert (Hx : 0 <= cls < KMALLOC_CACHE_COUNT /\ live_in A (kcache cls) x) by (apply Hsm; rewrite elem_of_app, elem_of_cons; auto).
  destruct Hx as [Hr Hx]. destruct (pcpu_free_spec T U G regs kcache h _ A L cpu cls x Hclasses Hh Hr (ho_dom _ _ _ _ _ Ho cpu cls Hcpu Hr) Hx)
    as (h' & A' & Hrun & Hh' & [Hq1 Hq2] & Hfull & Hlv).
  exists h', A'. split; [|split; [done|]].
  - pose proof Hx as (a & pg & Ha & _ & Hxl). edestruct header_of_object as (Hsp & _ & Hxn & _); [exact Hs|exact Ha|exact Hxl|].
    unfold kfree. destruct (Z.eqb_spec x NULL); [done|]. unfold hp_slabs. rewrite Hsp. done.
  - unfold heap_inv. cbn [hs_heap hs_blocks hs_objs hs_small hs_big]. rewrite Hq1. split; [done|]. split; [|split; [|done]].
    + split; [done|]. intros k y. rewrite Hobj, Hlv. split; [|tauto]. intros [Hl Hp]. split; [split; [done|]|done]. intros ->.
      assert (k = kcache cls) as -> by (eapply live_unique; [exact Hs|done|done]). by apply (not_plain _ Hp), class_pooled.
    + destruct (objs_remove _ l1 l2 cls x Hnds Hsm) as [Hnd' Hsm'].
      { intros c' [Hr' Hl']. eapply class_inj; [done|done|done|]. eapply live_unique; [exact Hs|done|done]. }
      split; [done|]. intros c' y. rewrite Hsm', Hlv. tauto.
Qed.

(** ** Large objects *)

(** A new block does not start where another one does. *)
Lemma big_fresh h f o big bs A L b :
  heap_at T U G regs kcache h ((f, o) :: big_blocks big ++ bs) A L -> b ∈ big -> vaddr b.1.1 <> vaddr f.
Proof.
  intros [Hi _] Hb Hv. apply vaddr_inj in Hv. destruct (client_block T U G regs _ _ A L f o Hi) as ((Ho & _) & _); [left|].
  pose proof (pow2_pos o ltac:(lia)). eapply (client_apart T U G regs _ f o _ A L f Hi); [|lia].
  unfold owned_frames. rewrite bind_app, elem_of_app. left. apply list_elem_of_bind. exists b.1. split.
  - apply elem_of_seqZ. destruct b as [[f' o'] n']. cbn in *. subst f'.
    destruct (client_block T U G regs _ _ A L f o' Hi) as ((Ho' & _) & _); [|pose proof (pow2_pos o' ltac:(lia)); lia].
    right. apply elem_of_app. left. apply list_elem_of_fmap. by exists (f, o', n').
  - by apply list_elem_of_fmap_2.
Qed.

Lemma safe_kmalloc_big h bs os sm big A L cpu size :
  heap_inv (HState h bs os sm big) A L -> (cpu < length (pm_cpus (hp_pmm h)))%nat -> pick_cache_idx size = None -> roomy size ->
  exists h' r A' L', kmalloc kcache h cpu size = Some (h', r) /\ full_kept G A A' /\
    heap_inv (HState h' bs os sm
      (if r =? NULL then big else (Z.shiftr (virt_to_phys r) PAGE_SHIFT, size_to_order (u64 (size + 8)), size) :: big)) A' L'.
Proof.
  intros (Hh & [Hnd Hobj] & [Hnds Hsm] & Hbig) Hcpu Hpick Hroom. cbn [hs_heap hs_blocks hs_objs hs_small hs_big] in *.
  destruct (kmalloc_big_spec T U G regs kcache h _ A L cpu size Hclasses Hh Hcpu Hpick)
    as (h' & r & A' & L' & Hrun & Hfull & Hu & Hlv & Hlen & Hres).
  exists h', r, A', L'. split; [done|]. split; [done|]. unfold heap_inv, small_ok. cbn [hs_heap hs_blocks hs_objs hs_small hs_big].
  destruct Hres as [(-> & Hh' & Hq & _)|(f & -> & Hf & Hh' & Hq)].
  - rewrite Z.eqb_refl, Hq. split; [done|]. split; [split; [done|intros; by rewrite Hlv]|]. split; [split; [done|intros; by rewrite Hlv]|done].
  - rewrite big_addr_null, big_addr_frame by done. split; [exact Hh'|].
    split; [split; [done|intros; by rewrite Hlv]|]. split; [split; [done|intros; by rewrite Hlv]|].
    rewrite Hq. constructor; [split; [apply lookup_insert_eq|done]|]. apply Forall_forall. intros [[f' o'] n'] Hb.
    rewrite Forall_forall in Hbig. specialize (Hbig _ Hb) as [H1 H2]. split; [|done]. rewrite lookup_insert_ne; [done|].
    intros He. eapply big_fresh; [exact Hh'|exact Hb|exact (eq_sym He)].
Qed.

Lemma safe_kfree_big h bs os sm l1 f o size l2 A L cpu :
  heap_inv (HState h bs os sm (l1 ++ (f, o, size) :: l2)) A L -> (cpu < length (pm_cpus (hp_pmm h)))%nat ->
  exists h', kfree h cpu (vaddr f + 16) = Some h' /\ heap_inv (HState h' bs os sm (l1 ++ l2)) A L.
Proof.
  intros (Hh & Hobj & Hsm & Hbig) Hcpu. cbn [hs_heap hs_blocks hs_objs hs_small hs_big] in *.
  apply Forall_app in Hbig as [Hb1 Hb2]. apply Forall_cons in Hb2 as [[Hb _] Hb2].
  unfold big_blocks in Hh. rewrite fmap_app, fmap_cons, <- app_assoc in Hh. cbn [fst app] in Hh.
  destruct (kfree_big_spec T U G regs kcache h _ f o _ A L cpu Hh Hcpu Hb) as (h' & Hrun & Hh' & Hq & _).
  exists h'. split; [done|]. unfold heap_inv. cbn [hs_heap hs_blocks hs_objs hs_small hs_big]. rewrite Hq.
  split; [|split; [done|split; [done|by apply Forall_app]]]. unfold big_blocks. by rewrite fmap_app, <- app_assoc.
Qed.

(** ** Writing to what is held *)

(** The first byte of one block is not in another one. *)
Lemma start_apart p client A L f o l f' o' :
  pmm_inv T U G regs p client A L -> client ≡ₚ (f, o) :: l -> (f', o') ∈ l -> apart (vaddr f') 1 (vaddr f) (PAGE_SIZE * 2 ^ o).
Proof.
  intros Hi Hp Hin. apply (pmm_inv_perm _ _ _ _ _ _ _ _ _ Hp) in Hi.
  destruct (client_block T U G regs _ _ A L f o Hi) as ((Ho & _) & _); [left|].
  destruct (client_block T U G regs _ _ A L f' o' Hi) as ((Ho' & _) & _); [by right|].
  pose proof (pow2_pos o ltac:(lia)). pose proof (pow2_pos o' ltac:(lia)).
  assert (Hn : ~ (f <= f' < f + 2 ^ o)).
  { eapply (client_apart T U G regs _ f o _ A L f' Hi). unfold owned_frames. apply list_elem_of_bind. exists (f', o').
    split; [apply elem_of_seqZ; cbn; lia|done]. }
  unfold apart, vaddr. rewrite PAGE_SIZE_val. lia.
Qed.

(** What is held: an object, a part of a large object's block, or a block. *)
Lemma holds_cases st A L lo hi :
  heap_inv st A L -> holds st lo hi ->
  (exists k c, live_in A k lo /\ caches (pm_slabs (hs_pmm st)) !! k = Some c /\ hi = lo + slot_size c) \/
  (exists f o, vaddr f <= lo /\ hi <= vaddr f + PAGE_SIZE * 2 ^ o /\
     (((f, o) ∈ big_blocks (hs_big st) /\ vaddr f + 16 <= lo) \/ (f, o) ∈ hs_blocks st)).
Proof.
  intros (Hh & [Hnd Hobj] & [Hnds Hsm] & Hbig) Hhold. destruct Hhold as [cls x n Hx Hn|f o size Hb|k x c Hx Hc|f o Hb].
  - left. apply Hsm in Hx as [Hr Hl]. destruct (class_cache T U G regs kcache _ _ A L cls Hclasses Hh Hr) as (c & Hcc & HG & _).
    exists (kcache cls), c. split; [done|]. split; [done|]. destruct (co_class _ _ Hclasses cls Hr) as (c0 & Hc0 & _ & _ & Hsz).
    assert (c0 = geom c) as -> by congruence. rewrite Hn in Hsz. injection Hsz as ->. done.
  - right. exists f, o. rewrite Forall_forall in Hbig. destruct (Hbig _ Hb) as [_ H2]. split; [lia|]. split; [lia|]. left.
    split; [|lia]. apply list_elem_of_fmap. by exists (f, o, size).
  - left. exists k, c. split; [by apply Hobj|done].
  - right. exists f, o. split; [lia|]. split; [lia|]. by right.
Qed.

(** The link words of free objects are not in it. *)
Lemma links_apart st A L lo hi a pg z :
  heap_inv st A L -> holds st lo hi -> A !! a = Some pg -> z ∈ pg_free pg ++ pg_remote pg ++ pg_slot pg -> apart z 8 lo (hi - lo).
Proof.
  intros Hinv Hhold Ha Hz. pose proof Hinv as ([Hi _] & _). pose proof (pi_slab _ _ _ _ _ _ _ _ Hi) as Hs.
  assert (Hza : z ∈ all_slots pg) by (unfold all_slots; set_solver).
  destruct (slot_in_page T U G _ _ A L a pg z Hs Ha Hza) as (cz & Hcz & (_ & Hg8 & _) & _).
  destruct (holds_cases st A L lo hi Hinv Hhold) as [(k & c & Hl & Hc & ->)|(f & o & Hlo & Hhi & Hb)].
  - pose proof Hl as (b & pgb & Hpb & <- & Hlb).
    assert (Hne : z <> lo).
    { intros ->. rewrite app_assoc, elem_of_app in Hz. destruct Hz as [Hz|Hz].
      - by eapply (not_live T U _ G _ A L a pg lo (pg_cache pgb)).
      - by eapply (slot_not_live T U G _ _ A L a pg lo (pg_cache pgb)). }
    assert (Hap : apart z (slot_size cz) lo (slot_size c)).
    { eapply (slots_bytes_apart T U G _ _ A L a pg z cz b pgb lo c Hs); try done. unfold all_slots. set_solver. }
    unfold apart in *. lia.
  - assert (Hap : apart z (slot_size cz) (vaddr f) (PAGE_SIZE * 2 ^ o)).
    { eapply (slot_block_apart T U G _ _ A L a pg z cz f o Hs); [done|done|done|]. rewrite !elem_of_app. tauto. }
    unfold apart in *. lia.
Qed.

(** The first byte of a large object's block is in no range of a user. *)
Lemma head_apart st A L lo hi b :
  heap_inv st A L -> holds st lo hi -> b ∈ hs_big st -> apart (vaddr b.1.1) 1 lo (hi - lo).
Proof.
  intros Hinv Hhold Hb. pose proof Hinv as ([Hi _] & _). pose proof (pi_slab _ _ _ _ _ _ _ _ Hi) as Hs.
  destruct b as [[f' o'] n']. cbn [fst]. assert (Hin : (f', o') ∈ big_blocks (hs_big st)) by (apply list_elem_of_fmap; by exists (f', o', n')).
  destruct (client_block T U G regs _ _ A L f' o' Hi) as ((Ho' & _) & _); [set_solver|]. pose proof (pow2_pos o' ltac:(lia)).
  destruct (holds_cases st A L lo hi Hinv Hhold) as [(k & c & Hl & Hc & ->)|(f & o & Hlo & Hhi & Hcase)].
  - assert (Hap : apart lo (slot_size c) (vaddr f') (PAGE_SIZE * 2 ^ o')).
    { eapply (object_block_apart T U G _ _ A L k lo c f' o' Hs Hl Hc). rewrite !elem_of_app. auto. }
    unfold apart in *. rewrite PAGE_SIZE_val in *. lia.
  - assert (Hap : f = f' /\ vaddr f + 16 <= lo \/ apart (vaddr f') 1 (vaddr f) (PAGE_SIZE * 2 ^ o)); [|unfold apart in *; destruct Hap as [[-> ?]|?]; lia].
    destruct Hcase as [[Hbf Hlo16]|Hbf].
    + destruct (decide (f = f')) as [->|Hne]; [by left|right]. apply list_elem_of_split in Hbf as (l1 & l2 & Hl). rewrite Hl in Hi, Hin.
      eapply (start_apart _ _ A L f o ((l1 ++ l2) ++ hs_blocks st) f' o' Hi);
        [rewrite <- !app_assoc; cbn [app]; by rewrite <- Permutation_middle|set_solver].
    + right. apply list_elem_of_split in Hbf as (l1 & l2 & Hl). rewrite Hl in Hi.
      eapply (start_apart _ _ A L f o (big_blocks (hs_big st) ++ l1 ++ l2) f' o' Hi);
        [rewrite !app_assoc; by rewrite <- Permutation_middle|set_solver].
Qed.

Lemma safe_write h bs os sm big A L lo hi ws orders :
  heap_inv (HState h bs os sm big) A L -> holds (HState h bs os sm big) lo hi ->
  (forall a, apart a 8 lo (hi - lo) -> ws !! a = words (hp_slabs h) !! a) ->
  (forall a, apart a 1 lo (hi - lo) -> orders !! a = hp_orders h !! a) ->
  heap_inv (HState (Heap (mkPmm (with_words (hp_slabs h) ws) (pm_cpus (hp_pmm h))) (hp_slots h) orders) bs os sm big) A L.
Proof.
  intros Hinv Hhold Hws Hord. pose proof Hinv as ([Hi Ho] & Hobj & Hsm & Hbig). cbn [hs_heap hs_blocks hs_objs hs_small hs_big] in *.
  split; [split; [|done]|]; [|split; [done|split; [done|]]]; cbn [hs_heap hs_blocks hs_objs hs_small hs_big hp_pmm hp_orders].
  - pose proof Hi as [Hs Hpl Hcpu Hreg Hgo]. constructor; [|done|done|done|done]. destruct Hs. constructor; try done.
    cbn [pm_slabs words with_words]. intros a pg Ha. eapply page_ok_frame; [|by apply si_page]. intros z Hz. apply Hws.
    by eapply links_apart.
  - rewrite Forall_forall in Hbig |- *. intros [[f o] n] Hb. destruct (Hbig _ Hb) as [H1 H2]. split; [|done].
    rewrite Hord; [done|]. apply (head_apart _ A L lo hi (f, o, n) Hinv Hhold Hb).
Qed.

(** ** Steps *)

Lemma heap_step_at st st' A L : heap_inv st A L -> hstep kcache st st' -> exists A' L', heap_inv st' A' L' /\ full_kept G A A'.
Proof.
  intros Hs Hst. destruct Hst as [h bs os sm big p' bs' os' Hp|h bs os sm big cpu size cls h' r Hc H0 Hpick Hrun|
    h bs os sm big cpu size h' r Hc H64 Hpick Hroom Hrun|h bs os l1 cls x l2 big cpu h' Hc Hrun|
    h bs os sm l1 f o size l2 cpu h' Hc Hrun|h bs os sm big cpu h' Hrun|h bs os sm big lo hi ws orders Hh Hws Hord].
  - by eapply safe_pmm.
  - destruct (safe_kmalloc_small h bs os sm big A L cpu size cls Hs Hc Hpick) as (h1 & r1 & A' & L' & Hrun1 & Hfull & Hs' & _).
    simplify_eq. by exists A', L'.
  - destruct (safe_kmalloc_big h bs os sm big A L cpu size Hs Hc Hpick Hroom) as (h1 & r1 & A' & L' & Hrun1 & Hfull & Hs').
    simplify_eq. by exists A', L'.
  - destruct (safe_kfree_small h bs os l1 cls x l2 big A L cpu Hs Hc) as (h1 & A' & Hrun1 & Hfull & Hs'). simplify_eq. by exists A', L.
  - destruct (safe_kfree_big h bs os sm l1 f o size l2 A L cpu Hs Hc) as (h1 & Hrun1 & Hs'). simplify_eq.
    exists A, L. split; [done|apply full_kept_refl].
  - injection Hrun as <-. exists A, L. split; [done|apply full_kept_refl].
  - exists A, L. split; [by eapply safe_write|apply full_kept_refl].
Qed.

Lemma heap_reachable st st' A L : heap_inv st A L -> rtc (hstep kcache) st st' -> exists A' L', heap_inv st' A' L' /\ full_kept G A A'.
Proof.
  intros Hs Hr. revert A L Hs. induction Hr as [st|st st1 st2 H1 _ IH]; intros A L Hs; [exists A, L; split; [done|apply full_kept_refl]|].
  destruct (heap_step_at _ _ _ _ Hs H1) as (A1 & L1 & Hs1 & Hf1). destruct (IH _ _ Hs1) as (A2 & L2 & Hs2 & Hf2).
  exists A2, L2. split; [done|]. by eapply full_kept_trans.
Qed.
End safe.

(** ** The heap after boot *)

(** The slots of [n] CPUs, all zero. *)
Definition dry_slots (n : nat) : gmap (nat * Z) pcpu :=
  list_to_map ((fun k => (k, Pcpu 0 0 0 0 0)) <$> (cpu ← seq 0 n; cls ← seqZ 0 KMALLOC_CACHE_COUNT; [(cpu, cls)])).

Lemma dry_slots_at n cpu cls x :
  dry_slots n !! (cpu, cls) = Some x <-> (cpu < n)%nat /\ 0 <= cls < KMALLOC_CACHE_COUNT /\ x = Pcpu 0 0 0 0 0.
Proof.
  assert (Hin : (cpu, cls) ∈ (cpu ← seq 0 n; cls ← seqZ 0 KMALLOC_CACHE_COUNT; [(cpu, cls)]) <-> (cpu < n)%nat /\ 0 <= cls < KMALLOC_CACHE_COUNT).
  { rewrite list_elem_of_bind. split.
    - intros (i & Hj & Hi). apply elem_of_seq in Hi. apply list_elem_of_bind in Hj as (j & [= -> ->]%list_elem_of_singleton & Hj).
      apply elem_of_seqZ in Hj. lia.
    - intros [H1 H2]. exists cpu. rewrite elem_of_seq. split; [|lia]. apply list_elem_of_bind. exists cls. rewrite elem_of_seqZ. split; [set_solver|lia]. }
  unfold dry_slots. destruct (decide ((cpu, cls) ∈ (cpu ← seq 0 n; cls ← seqZ 0 KMALLOC_CACHE_COUNT; [(cpu, cls)]))) as [Hd|Hd].
  - rewrite (list_to_map_fun (fun _ => Pcpu 0 0 0 0 0)) by done. naive_solver.
  - rewrite not_elem_of_list_to_map_1; [naive_solver|]. rewrite <- list_fmap_compose. intros (k & Hk & Hin')%list_elem_of_fmap. cbn in Hk. by subst k.
Qed.

Section boot.
Context (T : Z) (U : Z -> Prop) (kcache : Z -> Z).

(** ** The caches *)

Lemma add_caches l : forall G regs p client A L,
  pmm_inv T U G regs p client A L -> NoDup (kcache <$> l.*1) ->
  Forall (fun x => kcache x.1 <> NULL /\ G !! kcache x.1 = None /\ 8 <= x.2 <= MAX_OBJECT) l ->
  exists G' regs',
    pmm_inv T U G' regs' (mkPmm (fold_left (fun s '(i, size) => pmm_slab_cache_init s (kcache i) size 0) l (pm_slabs p)) (pm_cpus p)) client A L /\
    (forall i size, (i, size) ∈ l -> exists c, G' !! kcache i = Some c /\ slot_size c = size /\ obj_per_slab c = num_slots c) /\
    forall k, k ∉ kcache <$> l.*1 -> G' !! k = G !! k.
Proof.
  induction l as [|[i size] l IH]; intros G regs p client A L Hi Hnd Hall.
  - exists G, regs. split; [by destruct p|]. split; [intros ? ? H; by apply not_elem_of_nil in H|done].
  - apply Forall_cons in Hall as [(Hn & HG & Hsz) Hall]. cbn [fst snd] in *. apply NoDup_cons in Hnd as [Hni Hnd].
    destruct (add_cache T U G regs p client A L (kcache i) size 0 Hi Hn HG Hsz) as (c & Hc & Hi').
    destruct (new_cache_fields (pm_slabs p) (kcache i) size 0 Hsz) as (c' & Hc' & _ & _ & Hcs & Hco & _). assert (c' = c) as -> by congruence.
    destruct (IH _ _ _ _ _ _ Hi' Hnd) as (G' & regs' & Hi2 & Hl & Hsame).
    { rewrite Forall_forall in Hall |- *. intros [j z] Hj. specialize (Hall _ Hj) as (H1 & H2 & H3). split; [done|]. split; [|done].
      rewrite lookup_insert_ne; [done|]. intros He. apply Hni. apply list_elem_of_fmap. exists j. split; [done|]. apply list_elem_of_fmap. by exists (j, z). }
    exists G', regs'. split; [exact Hi2|]. split.
    + intros j z [[= -> ->]|Hj]%elem_of_cons; [|by apply Hl]. exists c. rewrite Hsame by done. by rewrite lookup_insert_eq.
    + intros k Hk. cbn in Hk. rewrite not_elem_of_cons in Hk. destruct Hk as [Hk1 Hk2]. rewrite Hsame by done. by rewrite lookup_insert_ne.
Qed.

(** ** The stamps *)

Lemma geom_set_class i c : geom (set_class i c) = set_class i (geom c).
Proof. done. Qed.

Lemma chain_stamp (G : gmap Z slab_cache) i k l : forall hd, cache_chain G l hd -> cache_chain (alter (set_class i) k G) l hd.
Proof.
  induction l as [|x l IH]; intros hd Hch; [done|]. destruct Hch as (-> & Hn & c & Hc & Hch). split; [done|]. split; [done|].
  destruct (decide (x = k)) as [->|Hne].
  - exists (set_class i c). rewrite lookup_alter_eq, Hc. split; [done|]. by apply IH.
  - exists c. rewrite lookup_alter_ne by done. split; [done|]. by apply IH.
Qed.

Lemma stamp_class G regs p client L i k :
  pmm_inv T U G regs p client ∅ L ->
  pmm_inv T U (alter (set_class i) k G) regs (mkPmm (with_caches (pm_slabs p) (alter (set_class i) k (caches (pm_slabs p)))) (pm_cpus p)) client ∅ L.
Proof.
  intros [Hs Hpl Hcpu (Hch & Hnd & Hall) Hgo]. constructor; [|done|done| |].
  - destruct Hs as [Hd Hg Hn Hh Hp Hl Hm Ht Ho Hf Hr]. constructor; try done; cbn [pm_slabs caches with_caches headers].
    + rewrite <- Hg. apply map_eq. intros x. rewrite lookup_fmap. destruct (decide (x = k)) as [->|Hne].
      * rewrite !lookup_alter_eq, lookup_fmap. by destruct (caches (pm_slabs p) !! k).
      * by rewrite !lookup_alter_ne, lookup_fmap by done.
    + rewrite lookup_alter_None. done.
    + intros x c w Hx. destruct (decide (x = k)) as [->|Hne]; [|rewrite lookup_alter_ne in Hx by done; by apply Hl].
      rewrite lookup_alter_eq, fmap_Some in Hx. destruct Hx as (c0 & Hc0 & ->). specialize (Hl k c0 w Hc0). by destruct w.
  - split; [by apply chain_stamp|]. split; [done|]. intros x Hx. apply Hall. by rewrite lookup_alter_is_Some in Hx.
  - intros x c Hx. destruct (decide (x = k)) as [->|Hne]; [|rewrite lookup_alter_ne in Hx by done; by eapply Hgo].
    rewrite lookup_alter_eq, fmap_Some in Hx. destruct Hx as (c0 & Hc0 & ->). by apply (Hgo k c0).
Qed.

Lemma stamp_classes l : forall G regs p client L,
  pmm_inv T U G regs p client ∅ L -> NoDup (kheap_cache_get kcache <$> l) ->
  exists G', pmm_inv T U G' regs
      (mkPmm (fold_left (fun s i => with_caches s (alter (set_class i) (kheap_cache_get kcache i) (caches s))) l (pm_slabs p)) (pm_cpus p)) client ∅ L /\
    (forall i, i ∈ l -> G' !! kheap_cache_get kcache i = set_class i <$> G !! kheap_cache_get kcache i) /\
    forall k, k ∉ kheap_cache_get kcache <$> l -> G' !! k = G !! k.
Proof.
  induction l as [|i l IH]; intros G regs p client L Hi Hnd.
  - exists G. split; [by destruct p|]. split; [intros ? H; by apply not_elem_of_nil in H|done].
  - apply NoDup_cons in Hnd as [Hni Hnd]. destruct (IH _ _ _ _ _ (stamp_class _ _ _ _ _ i (kheap_cache_get kcache i) Hi) Hnd) as (G' & Hi' & Hin & Hsame).
    exists G'. split; [exact Hi'|]. split.
    + intros j [->|Hj]%elem_of_cons; [by rewrite Hsame, lookup_alter_eq|]. rewrite (Hin j Hj), lookup_alter_ne; [done|].
      intros He. apply Hni. rewrite He. by apply list_elem_of_fmap_2.
    + intros k. cbn. rewrite not_elem_of_cons. intros [Hk1 Hk2]. rewrite Hsame by done. by rewrite lookup_alter_ne.
Qed.

(** ** The heap after boot *)

Definition booted (p : pmm) (client : list (Z * Z)) : hstate :=
  HState (Heap (mkPmm (kheap_init kcache (pm_slabs p)) (pm_cpus p)) (dry_slots (length (pm_cpus p))) ∅) client [] [] [].

(** The addresses of the caches: distinct, and no cache is there yet. *)
Definition room_for_classes (G : gmap Z slab_cache) : Prop :=
  (forall i, 0 <= i < KMALLOC_CACHE_COUNT -> kcache i <> NULL /\ G !! kcache i = None) /\
  (forall i j, 0 <= i < KMALLOC_CACHE_COUNT -> 0 <= j < KMALLOC_CACHE_COUNT -> kcache i = kcache j -> i = j) /\
  forall k c, G !! k = Some c -> KMALLOC_CACHE_COUNT <= class_idx c.

Lemma classes_nodup l : (forall i j, i ∈ l -> j ∈ l -> kcache i = kcache j -> i = j) -> NoDup l -> NoDup (kcache <$> l).
Proof.
  induction l as [|x l IH]; intros Hinj Hnd; [constructor|]. apply NoDup_cons in Hnd as [Hx Hnd]. cbn. constructor.
  - intros (y & Hy & Hin)%list_elem_of_fmap. assert (x = y) as -> by (apply Hinj; [left|by right|done]). done.
  - apply IH; [|done]. intros i j Hi Hj. apply Hinj; by right.
Qed.

Lemma dry_heap_ok n G : heap_ok G kcache n (dry_slots n) ∅.
Proof.
  constructor.
  - intros cpu cls H1 H2. eexists. by apply dry_slots_at.
  - intros cpu cls [x Hx]. by apply dry_slots_at in Hx as (_ & ? & _).
  - intros cpu cls x (_ & _ & ->)%dry_slots_at. split; [done|]. by left.
  - intros [c1 c2] k' x x' (_ & _ & ->)%dry_slots_at _ _ H. done.
  - intros a pg H. by rewrite lookup_empty in H.
Qed.

Lemma boot_safe G regs p client L :
  pmm_inv T U G regs p client ∅ L -> room_for_classes G ->
  exists G' regs', classes_ok G' kcache /\ heap_safe T U G' regs' kcache (booted p client) /\ forall k c, G !! k = Some c -> G' !! k = Some c.
Proof.
  intros Hi (Hfree & Hinj & Hplain). set (l := zip (seqZ 0 KMALLOC_CACHE_COUNT) g_kmalloc_sizes).
  assert (Hget : kheap_cache_get kcache <$> seqZ 0 KMALLOC_CACHE_COUNT = kcache <$> seqZ 0 KMALLOC_CACHE_COUNT) by reflexivity.
  assert (Hl1 : l.*1 = seqZ 0 KMALLOC_CACHE_COUNT) by reflexivity.
  assert (Hnd : NoDup (kcache <$> seqZ 0 KMALLOC_CACHE_COUNT)).
  { apply classes_nodup; [|apply NoDup_seqZ]. intros i j Hri%elem_of_seqZ Hrj%elem_of_seqZ. apply Hinj; lia. }
  destruct (add_caches l G regs p client ∅ L Hi) as (G1 & regs1 & Hi1 & Hin1 & Hsame1).
  { by rewrite Hl1. }
  { assert (Hs : Forall (fun x => 0 <= x.1 < KMALLOC_CACHE_COUNT /\ 8 <= x.2 <= MAX_OBJECT) l) by (repeat constructor; cbn; unfold MAX_OBJECT; lia).
    eapply Forall_impl; [exact Hs|]. intros x [H1 H2]. destruct (Hfree _ H1). by split. }
  destruct (stamp_classes (seqZ 0 KMALLOC_CACHE_COUNT) _ _ _ _ _ Hi1) as (G2 & Hi2 & Hin2 & Hsame2); [by rewrite Hget|].
  rewrite Hget in Hsame2. rewrite Hl1 in Hsame1. fold (slab_pcpu_init kcache) in Hi2.
  assert (Hcls : forall i, 0 <= i < KMALLOC_CACHE_COUNT -> exists c, G2 !! kcache i = Some c /\ class_idx c = i /\
    obj_per_slab c = num_slots c /\ g_kmalloc_sizes !! Z.to_nat i = Some (slot_size c)).
  { intros i Hr. destruct (lookup_lt_is_Some_2 g_kmalloc_sizes (Z.to_nat i)) as [z Hz]; [cbn; lia|].
    assert (Hiz : (i, z) ∈ l).
    { apply list_elem_of_lookup. exists (Z.to_nat i). apply lookup_zip_with_Some. exists i, z. split; [done|]. split; [|done].
      rewrite lookup_seqZ_lt by lia. f_equal. lia. }
    destruct (Hin1 i z Hiz) as (c & Hc & Hsz & Hob). exists (set_class i c).
    assert (Hg2 : G2 !! kcache i = Some (set_class i c)).
    { specialize (Hin2 i). unfold kheap_cache_get in Hin2. destruct (Z.leb_spec KMALLOC_CACHE_COUNT i); [lia|]. rewrite Hin2, Hc; [done|]. apply elem_of_seqZ. lia. }
    split; [done|]. split; [done|]. split; [done|]. cbn. by rewrite Hz, Hsz. }
  assert (Hkeep : forall k, k ∉ kcache <$> seqZ 0 KMALLOC_CACHE_COUNT -> G2 !! k = G !! k) by (intros k Hk; by rewrite Hsame2, Hsame1).
  exists G2, regs1. split; [|split].
  - constructor; [done|]. intros k c Hk Hlt. destruct (decide (k ∈ kcache <$> seqZ 0 KMALLOC_CACHE_COUNT)) as [Hd|Hd].
    + apply list_elem_of_fmap in Hd as (i & -> & Hr%elem_of_seqZ). destruct (Hcls i ltac:(lia)) as (c' & Hc' & Hci & _).
      assert (c' = c) as -> by congruence. rewrite Hci. split; [lia|done].
    + rewrite Hkeep in Hk by done. apply Hplain in Hk. lia.
  - exists ∅, L. split; [split; [exact Hi2|apply dry_heap_ok]|]. split; [|split; [|constructor]].
    + split; [constructor|]. intros k x. split; [intros H; by apply not_elem_of_nil in H|]. intros [(a & pg & Ha & _) _]. by rewrite lookup_empty in Ha.
    + split; [constructor|]. intros k x. split; [intros H; by apply not_elem_of_nil in H|]. intros [_ (a & pg & Ha & _)]. by rewrite lookup_empty in Ha.
  - intros k c Hk. rewrite Hkeep; [done|]. intros (i & -> & Hr%elem_of_seqZ)%list_elem_of_fmap. destruct (Hfree i) as [_ Hnone]; [lia|]. congruence.
Qed.
End boot.
