(* ===== verification/KheapTheorems.v ===== *)
(** * The kernel heap: theorems

    What users of [kmalloc] and [kfree] rely on, and where the heap falls short
    of it. *)

From S2P Require Import Prelude DList Buddy BuddySpec PmmInit PmmInitSpec BuddyTrace BuddyTheorems.
From S2P Require Import PmmRef Pcp PcpSpec Slab SlabSpec SlabLists SlabCalls SlabShrink Pmm PmmSpec PmmTrace PmmBoot.
From S2P Require Import Kheap KheapCalls KheapTrace.

Section held.
Context (T : Z) (U : Z -> Prop) (G : gmap Z slab_cache) (regs : list Z) (kcache : Z -> Z).
Context (Hclasses : classes_ok G kcache).


(** No object is held twice. *)
Lemma small_addresses st A L : heap_inv T U G regs kcache st A L -> NoDup (snd <$> hs_small st).
Proof.
  intros ([Hi _] & _ & [Hnd Hsm] & _). pose proof (pi_slab _ _ _ _ _ _ _ _ Hi) as Hs.
  assert (Hu : forall c c' x, (c, x) ∈ hs_small st -> (c', x) ∈ hs_small st -> c = c').
  { intros c c' x [Hr Hl]%Hsm [Hr' Hl']%Hsm. eapply class_inj; [done..|]. eapply live_unique; [exact Hs|done|done]. }
  clear Hsm Hi Hs. induction (hs_small st) as [|[c x] l IH]; [constructor|]. apply NoDup_cons in Hnd as [Hx Hnd]. cbn. constructor.
  - intros ([c' x'] & -> & Hin)%list_elem_of_fmap. cbn in *. assert (c = c') as -> by (eapply (Hu c c' x'); [left|by right]). done.
  - apply IH; [done|]. intros c1 c2 y H1 H2. by eapply (Hu c1 c2 y); right.
Qed.

End held.

(** ** A small machine *)

(** Eight frames, two CPUs, and the ten caches of the heap. *)
Definition demo_kcache (i : Z) : Z := 65536 + 128 * i.
Definition demo_boot : hstate := booted demo_kcache (fresh_pmm demo 2) [].

Lemma demo_boot_safe : exists F G regs, classes_ok G demo_kcache /\ heap_safe 8 (free_frame F) G regs demo_kcache demo_boot.
Proof.
  destruct demo_ok as (F & Hi & Hc & Ht & _). pose proof (fresh_inv demo F 2 Hi Hc) as Hf. rewrite Ht in Hf.
  destruct (boot_safe 8 (free_frame F) demo_kcache ∅ [] _ _ _ Hf) as (G & regs & H1 & H2 & _).
  - split; [|split].
    + intros i Hr. split; [unfold demo_kcache, NULL; lia|apply lookup_empty].
    + unfold demo_kcache. intros i j _ _. lia.
    + intros k c H. by rewrite lookup_empty in H.
  - exists F, G, regs. split; [exact H1|exact H2].
Qed.

(** ** The properties *)




(** C20: [kmalloc] on any CPU, for any size, ends without a fault.  Up to 4096
    bytes it returns an object of the smallest class with room for the size, one
    that nobody holds, or NULL; NULL only when the class has no object for this
    CPU and no free block of its slab order is left.  Above that it returns the
    address 16 bytes into a new block of the computed order, or NULL, when no
    free block of that order is left even after every unused slab page was given
    back.  What others hold is unchanged. *)
Theorem kmalloc_correct T U G regs kcache h bs os sm big A L cpu size :
  classes_ok G kcache -> heap_inv T U G regs kcache (HState h bs os sm big) A L -> (cpu < length (pm_cpus (hp_pmm h)))%nat ->
  exists h' r A' L', kmalloc kcache h cpu size = Some (h', r) /\
    ((size <= 4096 /\ exists cls n, g_kmalloc_sizes !! Z.to_nat cls = Some n /\ size <= n /\
        (forall i n', 0 <= i < cls -> g_kmalloc_sizes !! Z.to_nat i = Some n' -> n' < size) /\
        heap_inv T U G regs kcache (HState h' bs os (if r =? NULL then sm else (cls, r) :: sm) big) A' L' /\
        (r <> NULL -> r ∉ snd <$> sm) /\
        (r = NULL -> forall c, G !! kcache cls = Some c ->
           no_block T U (slab_order c) A' (blocks (all_stashes (pm_cpus (hp_pmm h))) ++ big_blocks big ++ bs))) \/
     (4096 < size /\ let order := size_to_order (u64 (size + 8)) in
        (r = NULL /\ heap_inv T U G regs kcache (HState h' bs os sm big) A' L' /\
         no_block T U order A' (blocks (all_stashes (pm_cpus (hp_pmm h'))) ++ big_blocks big ++ bs)) \/
        (exists f, r = vaddr f + 16 /\ heap_inv T U G regs kcache (HState h' ((f, order) :: bs) os sm big) A' L' /\
         hp_orders h' !! vaddr f = Some order))).
Proof.
  intros Hcl Hinv Hc. destruct (pick_cache_idx size) as [cls|] eqn:Hpick.
  - pose proof (pick_small _ _ Hpick) as (Hr & (n & Hn & Hsz) & Hmin).
    destruct (safe_kmalloc_small T U G regs kcache Hcl h bs os sm big A L cpu size cls Hinv Hc Hpick) as (h' & r & A' & L' & Hrun & _ & Hinv' & Hno).
    exists h', r, A', L'. split; [done|]. left. split.
    { destruct (Z.le_gt_cases size 4096) as [|Hgt]; [done|]. apply pick_big in Hgt. congruence. }
    exists cls, n. split; [done|]. split; [done|]. split; [done|]. split; [done|]. split; [|done].
    intros Hrn. destruct (Z.eqb_spec r NULL) as [|_]; [done|]. apply (small_addresses T U G regs kcache Hcl) in Hinv'.
    by apply NoDup_cons in Hinv' as [? _].
  - destruct Hinv as (Hh & [Hnd Hobj] & [Hnds Hsm] & Hbig). cbn [hs_heap hs_blocks hs_objs hs_small hs_big] in *.
    destruct (kmalloc_big_spec T U G regs kcache h _ A L cpu size Hcl Hh Hc Hpick) as (h' & r & A' & L' & Hrun & _ & _ & Hlv & _ & Hres).
    exists h', r, A', L'. split; [done|]. right. split; [by apply pick_big|]. unfold heap_inv, small_ok. cbn [hs_heap hs_blocks hs_objs hs_small hs_big].
    assert (Hobj' : forall k x, (k, x) ∈ os <-> live_in A' k x /\ plain G k) by (intros; by rewrite Hlv, <- Hobj).
    assert (Hsm' : forall c x, (c, x) ∈ sm <-> 0 <= c < KMALLOC_CACHE_COUNT /\ live_in A' (kcache c) x) by (intros; by rewrite Hlv, <- Hsm).
    destruct Hres as [(-> & Hh' & Hq & Hno)|(f & -> & Hf & Hh' & Hq)].
    + left. split; [done|]. rewrite Hq. done.
    + right. exists f. split; [done|]. rewrite Hq, lookup_insert_eq. split; [|done].
      split; [destruct Hh' as [Hi' Ho']; split; [eapply pmm_inv_perm; [|exact Hi']; by rewrite <- Permutation_middle|done]|].
      split; [done|]. split; [done|]. apply Forall_forall. intros [[f' o'] n'] Hb.
      rewrite Forall_forall in Hbig. destruct (Hbig _ Hb) as [H1 H2]. split; [|done]. rewrite lookup_insert_ne; [done|].
      intros He. eapply big_fresh; [exact Hh'|exact Hb|exact (eq_sym He)].
Qed.

Lemma kmalloc_correct_witness : exists h r, kmalloc demo_kcache (hs_heap demo_boot) 1 100 = Some (h, r).
Proof.
  destruct demo_boot_safe as (F & G & regs & Hc & A & L & Hs).
  destruct (kmalloc_correct 8 (free_frame F) G regs demo_kcache (hs_heap demo_boot) [] [] [] [] A L 1 100 Hc Hs) as (h & r & _ & _ & Hrun & _);
    [vm_compute; lia|]. exists h, r. exact Hrun.
Defined.

(** ** Where the heap falls short *)

(** The sizes whose block is too small. *)
Lemma roomy_sizes size : 4096 < size < 2 ^ 63 -> roomy size <-> ~ exists k, 0 <= k /\ 2 ^ k - 16 < size <= 2 ^ k - 8.
Proof.
  intros Hs. unfold roomy. assert (u64 (size + 8) = size + 8) as -> by (unfold u64; apply Z.mod_small; lia).
  unfold size_to_order. rewrite PAGE_SIZE_val. destruct (Z.leb_spec (size + 8) 4096); [lia|]. replace (size + 8 - 1) with (size + 7) by lia.
  set (m := Z.log2 (size + 7)). destruct (Z.log2_spec (size + 7) ltac:(lia)) as [Hm1 Hm2]. fold m in Hm1, Hm2.
  assert (12 <= m) by (apply Z.log2_le_pow2; lia). assert (m < 64) by (apply Z.log2_lt_pow2; lia).
  assert (u8 (u8 (m + 1) - PAGE_SHIFT) = m - 11) as -> by (unfold u8, PAGE_SHIFT; rewrite !Z.mod_small; rewrite ?Z.mod_small; lia).
  assert (Hblk : 4096 * 2 ^ (m - 11) = 2 ^ Z.succ m) by (change 4096 with (2 ^ 12); rewrite <- Z.pow_add_r by lia; f_equal; lia).
  rewrite Hblk. split.
  - intros Hroom (k & Hk & Hlo & Hhi). assert (m < k) by (apply (Z.pow_lt_mono_r_iff 2); lia).
    destruct (Z.eq_dec k (Z.succ m)) as [->|Hne]; [lia|].
    assert (2 ^ (Z.succ m + 1) <= 2 ^ k) by (apply Z.pow_le_mono_r; lia). rewrite Z.pow_add_r in * by lia. lia.
  - intros Hno. destruct (Z.le_gt_cases (size + 16) (2 ^ Z.succ m)) as [|Hgt]; [done|]. exfalso. apply Hno. exists (Z.succ m). lia.
Qed.

(** A page of the heap that was parked on a full list. *)
Lemma page_stranded T U G regs kcache st st' a hd :
  classes_ok G kcache -> heap_safe T U G regs kcache st -> rtc (hstep kcache) st st' ->
  headers (pm_slabs (hs_pmm st)) !! a = Some hd -> h_on_list hd = SLAB_LIST_FULL -> pooled G (h_cache hd) ->
  exists hd', headers (pm_slabs (hs_pmm st')) !! a = Some hd' /\ h_on_list hd' = SLAB_LIST_FULL /\
    forall cls x, (cls, x) ∈ hs_small st' -> pmm_slab_header_of (pm_slabs (hs_pmm st')) x = Some a -> (cls, x) ∈ hs_small st.
Proof.
  intros Hcl (A & L & Hinv) Hr Hhd Hon Hp. pose proof Hinv as ([Hi _] & _ & [_ Hsm] & _). pose proof (pi_slab _ _ _ _ _ _ _ _ Hi) as Hs.
  assert (exists pg, A !! a = Some pg) as [pg Ha].
  { pose proof (f_equal (.!! a) (si_hdr _ _ _ _ _ _ _ Hs)) as He. unfold hs_pmm in Hhd. cbn in He. rewrite !lookup_fmap, Hhd in He.
    destruct (A !! a); [by eexists|done]. }
  destruct (header_at _ _ _ _ _ _ _ _ _ Hs Ha) as (hd0 & Hhd0 & Hu). assert (hd0 = hd) as -> by (unfold hs_pmm in Hhd; congruence).
  destruct (hdr_fields _ _ Hu) as (Hk & _ & _ & _ & Hol & _). rewrite Hk in Hp.
  assert (Hfull : pg_on pg = OnList Full).
  { pose proof (pi_placed _ _ _ _ _ _ _ _ Hi _ _ Ha) as Hpl. unfold placed in Hpl. rewrite Hon in Hol.
    destruct (pg_on pg) as [[]| |k0]; try done. cbn in Hol. by destruct Hpl as [->|[->| ->]]. }
  destruct (heap_reachable T U G regs kcache Hcl st st' A L Hinv Hr) as (A' & L' & Hinv' & Hfk).
  destruct (Hfk a pg Ha Hp Hfull) as (pg' & Ha' & Hk' & Hon' & Hlive). pose proof Hinv' as ([Hi' _] & _ & [_ Hsm'] & _).
  pose proof (pi_slab _ _ _ _ _ _ _ _ Hi') as Hs'. destruct (header_at _ _ _ _ _ _ _ _ _ Hs' Ha') as (hd' & Hhd' & Hu').
  exists hd'. split; [done|]. split; [destruct (hdr_fields _ _ Hu') as (_ & _ & _ & _ & -> & _); by rewrite Hon'|].
  intros cls x [Hrg (b & pgb & Hb & Hkb & Hx)]%Hsm' Hhx.
  destruct (header_of_object T U G _ _ A' L' b pgb x Hs' Hb Hx) as (_ & Hhx' & _). unfold hs_pmm in Hhx. rewrite Hhx' in Hhx.
  injection Hhx as ->. assert (pgb = pg') as -> by congruence. apply Hsm. split; [done|]. exists a, pg.
  split; [done|]. split; [congruence|]. set_solver.
Qed.

Fixpoint kmallocs (h : heap) (cpu : nat) (size : Z) (n : nat) : option (heap * list Z) :=
  match n with
  | O => Some (h, [])
  | S n => '(h, r) ← kmalloc demo_kcache h cpu size; '(h, l) ← kmallocs h cpu size n; Some (h, r :: l)
  end.
Fixpoint kfrees (h : heap) (cpu : nat) (l : list Z) : option heap :=
  match l with [] => Some h | x :: l => h ← kfree h cpu x; kfrees h cpu l end.

(** C21: Four ways in which the heap loses memory or gives too little.
    (1) The order of a large block is computed for 8 bytes of head but its data
    starts at 16: the block is too small exactly for the sizes from 15 to 8
    bytes below a power of two, and the last bytes belong to a neighbour.
    (2) A page that is parked on a full list stays there for ever, and no
    object of it is handed out again: after a machine of eight frames has
    handed out all the fourteen objects of 2048 bytes it has room for and got
    them back, nothing is held and [kmalloc] fails on both CPUs.
    (3) The size of a large object wraps: a request for 2^64 - 8 bytes is
    answered with one page.
    (4) All seven objects of a page are taken, and the slot is found dry.  An
    object given back by an interrupt before the refill turns interrupts off is
    lost: the slot has another page then, and the chains of its page are empty. *)
Theorem kheap_gaps :
  (forall size, 4096 < size < 2 ^ 63 -> roomy size <-> ~ exists k, 0 <= k /\ 2 ^ k - 16 < size <= 2 ^ k - 8) /\
  (forall T U G regs kcache st st' a hd,
     classes_ok G kcache -> heap_safe T U G regs kcache st -> rtc (hstep kcache) st st' ->
     headers (pm_slabs (hs_pmm st)) !! a = Some hd -> h_on_list hd = SLAB_LIST_FULL -> pooled G (h_cache hd) ->
     exists hd', headers (pm_slabs (hs_pmm st')) !! a = Some hd' /\ h_on_list hd' = SLAB_LIST_FULL /\
       forall cls x, (cls, x) ∈ hs_small st' -> pmm_slab_header_of (pm_slabs (hs_pmm st')) x = Some a -> (cls, x) ∈ hs_small st) /\
  (('(h, l) ← kmallocs (hs_heap demo_boot) 0 2048 15; h ← kfrees h 0 l;
    '(_, r) ← kmalloc demo_kcache h 0 8; '(_, r') ← kmalloc demo_kcache h 1 2048; Some (l, r, r')) =
   Some (((fun i => vaddr 0 + 2048 * i) <$> [1; 2; 3; 4; 5; 6; 7; 9; 10; 11; 12; 13; 14; 15]) ++ [NULL], NULL, NULL)) /\
  (option_map snd (kmalloc demo_kcache (hs_heap demo_boot) 0 (2 ^ 64 - 8)) = Some (vaddr 7 + 16)) /\
  (('(h, _) ← kmallocs (hs_heap demo_boot) 0 2048 7; '(h, dry) ← slot_pop h 0 8;
    h ← kfree h 0 (vaddr 0 + 2048); '(h, again) ← slab_refill demo_kcache h 0 8;
    x ← hp_slots h !! (0%nat, 8); hd ← headers (hp_slabs h) !! vaddr 0;
    Some (dry, again, (cs_slab x, cs_freelist x), (h_on_list hd, h_freelist hd, h_remote_free hd))) =
   Some (NULL, true, (vaddr 4, vaddr 4 + 2048), (SLAB_LIST_FULL, NULL, NULL))).
Proof.
  split; [exact roomy_sizes|]. split; [exact page_stranded|]. split; [|split]; vm_compute; reflexivity.
Qed.

(** A request for 8184 bytes gets two pages, of which it may use 8176 bytes. *)
Lemma kheap_gaps_witness : 4096 < 8184 < 2 ^ 63 /\ ~ roomy 8184.
Proof.
  split; [lia|]. intros Hroom. apply (proj1 kheap_gaps 8184 ltac:(lia)) in Hroom. apply Hroom. exists 13.
  split; [lia|]. change (2 ^ 13) with 8192. lia.
Defined.
