(* ===== verification/Cred.v ===== *)
(** * Credentials and file permission checks

    Models kernel/security/cred.h, acl.h and perm.c: the three user and three
    group identities of a process with its supplemental groups, the access
    control list walk, and the permission decision every open and exec makes.
    Identities are 32-bit words.  Reading [supplemental] past its 32 entries is
    a fault ([None]). *)

From S2P Require Import Prelude Errno.

(** ** Process credentials *)

Abbreviation CRED_NGROUPS_MAX := 32%Z (only parsing).

Record cred := Cred {
  ruid : Z; euid : Z; suid : Z;
  rgid : Z; egid : Z; sgid : Z;
  supplemental : list Z;
  ngroups : Z;
}.

Definition with_uids (r e s : Z) (c : cred) : cred :=
  Cred r e s (rgid c) (egid c) (sgid c) (supplemental c) (ngroups c).
Definition with_gids (r e s : Z) (c : cred) : cred :=
  Cred (ruid c) (euid c) (suid c) r e s (supplemental c) (ngroups c).
Definition with_groups (l : list Z) (n : Z) (c : cred) : cred :=
  Cred (ruid c) (euid c) (suid c) (rgid c) (egid c) (sgid c) l n.

Definition cred_init_root (c : cred) : cred := Cred 0 0 0 0 0 0 (supplemental c) 0.

(** [for (i = 0; i < src->ngroups && i < CRED_NGROUPS_MAX; i++)]: the entries
    past the copied ones keep what [dst] had. *)
Definition cred_copy (dst src : cred) : cred :=
  let n := Z.to_nat (Z.min (ngroups src) CRED_NGROUPS_MAX) in
  Cred (ruid src) (euid src) (suid src) (rgid src) (egid src) (sgid src)
    (take n (supplemental src) ++ drop n (supplemental dst)) (ngroups src).

(** [for (i = 0; i < c->ngroups; i++) if (supplemental[i] == gid) return 1]. *)
Fixpoint group_scan (l : list Z) (n : nat) (gid : Z) : option bool :=
  match n with
  | O => Some false
  | S n =>
      match l with
      | [] => None
      | x :: l => if x =? gid then Some true else group_scan l n gid
      end
  end.
Definition cred_in_group (c : cred) (gid : Z) : option bool :=
  if egid c =? gid then Some true else group_scan (supplemental c) (Z.to_nat (ngroups c)) gid.

Definition cred_is_root (c : cred) : bool := euid c =? 0.

(** The second component is the C return value. *)
Definition cred_setuid (c : cred) (uid : Z) : cred * Z :=
  if euid c =? 0 then (with_uids uid uid uid c, 0)
  else if (uid =? ruid c) || (uid =? suid c) then (with_uids (ruid c) uid (suid c) c, 0)
  else (c, -1).
Definition cred_seteuid (c : cred) (e : Z) : cred * Z :=
  if euid c =? 0 then (with_uids (ruid c) e (suid c) c, 0)
  else if (e =? ruid c) || (e =? suid c) || (e =? euid c) then (with_uids (ruid c) e (suid c) c, 0)
  else (c, -1).
Definition cred_setgid (c : cred) (gid : Z) : cred * Z :=
  if euid c =? 0 then (with_gids gid gid gid c, 0)
  else if (gid =? rgid c) || (gid =? sgid c) then (with_gids (rgid c) gid (sgid c) c, 0)
  else (c, -1).
Definition cred_setegid (c : cred) (e : Z) : cred * Z :=
  if euid c =? 0 then (with_gids (rgid c) e (sgid c) c, 0)
  else if (e =? rgid c) || (e =? sgid c) || (e =? egid c) then (with_gids (rgid c) e (sgid c) c, 0)
  else (c, -1).

(** ** Access control lists *)

Abbreviation ACL_PERM_READ := 4%Z (only parsing).
Abbreviation ACL_PERM_WRITE := 2%Z (only parsing).
Abbreviation ACL_PERM_EXEC := 1%Z (only parsing).
Abbreviation ACL_TAG_USER := 0%Z (only parsing).
Abbreviation ACL_TAG_GROUP := 1%Z (only parsing).
Abbreviation ACL_TAG_OTHER := 2%Z (only parsing).
Abbreviation ACL_WILDCARD := 4294967295%Z (only parsing).

Record acl_entry := AclEntry { e_tag : Z; e_perms : Z; e_qualifier : Z }.

Definition acl_from_mode (uid gid mode : Z) : list acl_entry :=
  [ AclEntry ACL_TAG_USER (Z.land (Z.shiftr mode 6) 7) uid;
    AclEntry ACL_TAG_GROUP (Z.land (Z.shiftr mode 3) 7) gid;
    AclEntry ACL_TAG_OTHER (Z.land mode 7) ACL_WILDCARD ].

(** Whether an entry applies; an entry with another tag is skipped. *)
Definition acl_match (e : acl_entry) (c : cred) : option bool :=
  if e_tag e =? ACL_TAG_USER then Some ((e_qualifier e =? ACL_WILDCARD) || (e_qualifier e =? euid c))
  else if e_tag e =? ACL_TAG_GROUP then
    if e_qualifier e =? ACL_WILDCARD then Some true else cred_in_group c (e_qualifier e)
  else if e_tag e =? ACL_TAG_OTHER then Some true
  else Some false.

Fixpoint acl_check (entries : list acl_entry) (c : cred) (need : Z) : option bool :=
  match entries with
  | [] => Some false
  | e :: entries =>
      hit ← acl_match e c;
      if hit : bool then Some (Z.land (e_perms e) need =? need) else acl_check entries c need
  end.

(** ** The permission decision *)

Record inode_perm := InodePerm {
  ip_uid : Z; ip_gid : Z; ip_mode : Z; ip_inode_nr : Z; ip_dev : Z; ip_nosuid : Z;
}.

Definition vfs_check_perm (ip : inode_perm) (c : cred) (need : Z) : option Z :=
  if cred_is_root c then
    if negb (Z.land need ACL_PERM_EXEC =? 0) then
      let any_x := Z.land (Z.lor (Z.lor (Z.shiftr (ip_mode ip) 6) (Z.shiftr (ip_mode ip) 3)) (ip_mode ip)) 1 in
      Some (if any_x =? 0 then - EACCES else 0)
    else Some 0
  else
    ok ← acl_check (acl_from_mode (ip_uid ip) (ip_gid ip) (ip_mode ip)) c need;
    Some (if ok : bool then 0 else - EACCES).

Abbreviation S_ISUID := 2048%Z (only parsing).

(** The result and [*out_setuid_uid]. *)
Definition vfs_check_exec (ip : inode_perm) (c : cred) : option (Z * Z) :=
  r ← vfs_check_perm ip c ACL_PERM_EXEC;
  if negb (r =? 0) then Some (r, ACL_WILDCARD)
  else if negb (ip_nosuid ip =? 0) then Some (0, ACL_WILDCARD)
  else if negb (Z.land (ip_mode ip) S_ISUID =? 0) && negb (ip_uid ip =? euid c) then Some (0, ip_uid ip)
  else Some (0, ACL_WILDCARD).

(** ** Well-formed credentials *)

Definition is_u32 (x : Z) : Prop := 0 <= x < 2 ^ 32.

Record cred_ok (c : cred) : Prop := {
  co_ruid : is_u32 (ruid c); co_euid : is_u32 (euid c); co_suid : is_u32 (suid c);
  co_rgid : is_u32 (rgid c); co_egid : is_u32 (egid c); co_sgid : is_u32 (sgid c);
  co_len : length (supplemental c) = 32%nat;
  co_groups : Forall is_u32 (supplemental c);
  co_n : 0 <= ngroups c <= CRED_NGROUPS_MAX;
}.

(** The groups of a process, as a set. *)
Definition groups (c : cred) : list Z := egid c :: take (Z.to_nat (ngroups c)) (supplemental c).

Lemma group_scan_spec gid : forall l n,
  (n <= length l)%nat -> group_scan l n gid = Some (bool_decide (gid ∈ take n l)).
Proof.
  induction l as [|x l IH]; intros [|n] Hn; cbn [group_scan take length] in *;
    [by rewrite bool_decide_eq_false_2 by apply not_elem_of_nil|lia|by rewrite bool_decide_eq_false_2 by apply not_elem_of_nil|].
  destruct (Z.eqb_spec x gid) as [->|Hne].
  - f_equal. symmetry. apply bool_decide_eq_true. left.
  - rewrite IH by lia. f_equal. apply bool_decide_ext. rewrite elem_of_cons. naive_solver.
Qed.

Lemma in_group_spec c gid : cred_ok c -> cred_in_group c gid = Some (bool_decide (gid ∈ groups c)).
Proof.
  intros Hc. unfold cred_in_group, groups. pose proof (co_n _ Hc) as Hn. pose proof (co_len _ Hc) as Hl.
  destruct (Z.eqb_spec (egid c) gid) as [<-|Hne].
  - f_equal. symmetry. apply bool_decide_eq_true. left.
  - rewrite group_scan_spec by lia. f_equal. apply bool_decide_ext. rewrite elem_of_cons. naive_solver.
Qed.

(** The class of a process for a file, and the three bits of that class: the
    POSIX rule, owner first, then group, then everyone else. *)
Definition posix_bits (ip : inode_perm) (c : cred) : Z :=
  if bool_decide (ip_uid ip = euid c) then Z.land (Z.shiftr (ip_mode ip) 6) 7
  else if bool_decide (ip_gid ip ∈ groups c) then Z.land (Z.shiftr (ip_mode ip) 3) 7
  else Z.land (ip_mode ip) 7.

(** POSIX access: the superuser may do anything except execute a file nobody
    may execute; everyone else needs every requested bit in their class. *)
Definition posix_access (ip : inode_perm) (c : cred) (need : Z) : bool :=
  if bool_decide (euid c = 0) then
    negb (Z.testbit need 0) || Z.testbit (ip_mode ip) 6 || Z.testbit (ip_mode ip) 3 || Z.testbit (ip_mode ip) 0
  else Z.land (posix_bits ip c) need =? need.

Lemma land_1_testbit x : Z.land x 1 = Z.b2z (Z.testbit x 0).
Proof. change 1 with (Z.ones 1). rewrite Z.land_ones, Z.bit0_mod by lia. done. Qed.

Lemma root_exec_spec mode :
  (Z.land (Z.lor (Z.lor (Z.shiftr mode 6) (Z.shiftr mode 3)) mode) 1 =? 0) =
  negb (Z.testbit mode 6 || Z.testbit mode 3 || Z.testbit mode 0).
Proof.
  rewrite land_1_testbit, !Z.lor_spec, !Z.shiftr_spec by lia. change (0 + 6) with 6. change (0 + 3) with 3.
  by destruct (Z.testbit mode 6), (Z.testbit mode 3), (Z.testbit mode 0).
Qed.

Lemma match_owner perms uid c :
  uid <> ACL_WILDCARD -> acl_match (AclEntry ACL_TAG_USER perms uid) c = Some (bool_decide (uid = euid c)).
Proof.
  intros Hu. unfold acl_match. cbn. destruct (Z.eqb_spec uid ACL_WILDCARD); [done|]. cbn [orb].
  destruct (Z.eqb_spec uid (euid c)); [by rewrite bool_decide_eq_true_2|by rewrite bool_decide_eq_false_2].
Qed.

Lemma match_group perms gid c :
  cred_ok c -> gid <> ACL_WILDCARD ->
  acl_match (AclEntry ACL_TAG_GROUP perms gid) c = Some (bool_decide (gid ∈ groups c)).
Proof.
  intros Hc Hg. unfold acl_match. cbn [e_tag e_qualifier]. change (ACL_TAG_GROUP =? ACL_TAG_USER) with false.
  change (ACL_TAG_GROUP =? ACL_TAG_GROUP) with true. destruct (Z.eqb_spec gid ACL_WILDCARD); [done|].
  by apply in_group_spec.
Qed.

Lemma check_perm_spec ip c need :
  cred_ok c -> ip_uid ip <> ACL_WILDCARD -> ip_gid ip <> ACL_WILDCARD ->
  vfs_check_perm ip c need = Some (if posix_access ip c need then 0 else - EACCES).
Proof.
  intros Hc Hu Hg. unfold vfs_check_perm, posix_access, cred_is_root.
  destruct (Z.eqb_spec (euid c) 0) as [He|He]; [rewrite bool_decide_eq_true_2 by done|rewrite bool_decide_eq_false_2 by done].
  - change ACL_PERM_EXEC with 1. rewrite land_1_testbit, root_exec_spec.
    by destruct (Z.testbit need 0), (Z.testbit (ip_mode ip) 6), (Z.testbit (ip_mode ip) 3), (Z.testbit (ip_mode ip) 0).
  - unfold posix_bits, acl_from_mode. cbn [acl_check]. rewrite match_owner, match_group by done.
    cbn [mbind option_bind e_perms].
    destruct (bool_decide (ip_uid ip = euid c)), (bool_decide (ip_gid ip ∈ groups c)); done.
Qed.
