(* ===== verification/Pledge.v ===== *)
(** * Pledge: which system calls a process may make

    Models kernel/security/pledge.h and pledge.c, and the enforcement in front
    of every handler in [syscall_dispatch] (kernel/syscall/syscall.c).  Masks
    are 32-bit words, one bit per group of system calls. *)

From S2P Require Import Prelude Errno.

(** ** Groups *)

Abbreviation PLEDGE_STDIO := 1%Z (only parsing).
Abbreviation PLEDGE_RPATH := 2%Z (only parsing).
Abbreviation PLEDGE_WPATH := 4%Z (only parsing).
Abbreviation PLEDGE_CPATH := 8%Z (only parsing).
Abbreviation PLEDGE_EXEC := 16%Z (only parsing).
Abbreviation PLEDGE_PROC := 32%Z (only parsing).
Abbreviation PLEDGE_INET := 64%Z (only parsing).
Abbreviation PLEDGE_UNIX := 128%Z (only parsing).
Abbreviation PLEDGE_SIGNAL := 256%Z (only parsing).
Abbreviation PLEDGE_THREAD := 512%Z (only parsing).
Abbreviation PLEDGE_PROT_EXEC := 1024%Z (only parsing).
Abbreviation PLEDGE_SETUID := 2048%Z (only parsing).
Abbreviation PLEDGE_CHOWN := 4096%Z (only parsing).
Abbreviation PLEDGE_CHMOD := 8192%Z (only parsing).
Abbreviation PLEDGE_TTY := 16384%Z (only parsing).
Abbreviation PLEDGE_IOCTL := 32768%Z (only parsing).
Abbreviation PLEDGE_SENDFD := 65536%Z (only parsing).
Abbreviation PLEDGE_KSEC := 131072%Z (only parsing).
Abbreviation PLEDGE_SHM := 262144%Z (only parsing).
Abbreviation PLEDGE_FRAMEBUF := 524288%Z (only parsing).
Abbreviation PLEDGE_ALL := 4294967295%Z (only parsing).

Definition pledge_restrict (current mask : Z) : Z := Z.land current mask.
Definition pledge_allowed (mask group : Z) : bool := negb (Z.land mask group =? 0).

(** ** System call numbers (kernel/syscall/syscall.h) *)

Abbreviation SYS_GETPID := 10%Z (only parsing).
Abbreviation SYS_GETPPID := 22%Z (only parsing).
Abbreviation SYS_CLOCK_NS := 14%Z (only parsing).
Abbreviation SYS_GETTOD := 32%Z (only parsing).
Abbreviation SYS_SIGRETURN := 28%Z (only parsing).
Abbreviation SYS_GETPGRP := 56%Z (only parsing).
Abbreviation SYS_GETSID := 58%Z (only parsing).
Abbreviation SYS_GETPGID := 55%Z (only parsing).
Abbreviation SYS_READ := 2%Z (only parsing).
Abbreviation SYS_WRITE := 0%Z (only parsing).
Abbreviation SYS_CLOSE := 4%Z (only parsing).
Abbreviation SYS_FSTAT := 45%Z (only parsing).
Abbreviation SYS_LSEEK := 21%Z (only parsing).
Abbreviation SYS_DUP := 23%Z (only parsing).
Abbreviation SYS_DUP2 := 24%Z (only parsing).
Abbreviation SYS_FCNTL := 44%Z (only parsing).
Abbreviation SYS_POLL := 61%Z (only parsing).
Abbreviation SYS_SELECT := 60%Z (only parsing).
Abbreviation SYS_EPOLL_CREATE := 97%Z (only parsing).
Abbreviation SYS_EPOLL_CTL := 98%Z (only parsing).
Abbreviation SYS_EPOLL_WAIT := 99%Z (only parsing).
Abbreviation SYS_NANOSLEEP := 31%Z (only parsing).
Abbreviation SYS_UNAME := 47%Z (only parsing).
Abbreviation SYS_UMASK := 48%Z (only parsing).
Abbreviation SYS_GETUID := 49%Z (only parsing).
Abbreviation SYS_GETEUID := 50%Z (only parsing).
Abbreviation SYS_GETGID := 51%Z (only parsing).
Abbreviation SYS_GETEGID := 52%Z (only parsing).
Abbreviation SYS_GETGROUPS := 53%Z (only parsing).
Abbreviation SYS_TIMES := 71%Z (only parsing).
Abbreviation SYS_GETRUSAGE := 72%Z (only parsing).
Abbreviation SYS_STAT := 15%Z (only parsing).
Abbreviation SYS_ACCESS := 46%Z (only parsing).
Abbreviation SYS_READDIR := 11%Z (only parsing).
Abbreviation SYS_READLINK := 62%Z (only parsing).
Abbreviation SYS_GETCWD := 18%Z (only parsing).
Abbreviation SYS_OPEN := 3%Z (only parsing).
Abbreviation SYS_MKDIR := 20%Z (only parsing).
Abbreviation SYS_UNLINK := 16%Z (only parsing).
Abbreviation SYS_RENAME := 17%Z (only parsing).
Abbreviation SYS_SYMLINK := 63%Z (only parsing).
Abbreviation SYS_LINK := 64%Z (only parsing).
Abbreviation SYS_TRUNCATE := 69%Z (only parsing).
Abbreviation SYS_FTRUNCATE := 70%Z (only parsing).
Abbreviation SYS_EXEC := 8%Z (only parsing).
Abbreviation SYS_SPAWN := 12%Z (only parsing).
Abbreviation SYS_FORK := 7%Z (only parsing).
Abbreviation SYS_WAIT := 9%Z (only parsing).
Abbreviation SYS_KILL := 6%Z (only parsing).
Abbreviation SYS_SETPGID := 54%Z (only parsing).
Abbreviation SYS_SETSID := 57%Z (only parsing).
Abbreviation SYS_TCGETPGRP := 73%Z (only parsing).
Abbreviation SYS_TCSETPGRP := 74%Z (only parsing).
Abbreviation SYS_SOCKET := 35%Z (only parsing).
Abbreviation SYS_BIND := 36%Z (only parsing).
Abbreviation SYS_LISTEN := 37%Z (only parsing).
Abbreviation SYS_ACCEPT := 38%Z (only parsing).
Abbreviation SYS_CONNECT := 39%Z (only parsing).
Abbreviation SYS_SENDTO := 40%Z (only parsing).
Abbreviation SYS_RECVFROM := 41%Z (only parsing).
Abbreviation SYS_SETSOCKOPT := 42%Z (only parsing).
Abbreviation SYS_SHUTDOWN := 43%Z (only parsing).
Abbreviation SYS_SIGACTION := 26%Z (only parsing).
Abbreviation SYS_SIGPROCMASK := 27%Z (only parsing).
Abbreviation SYS_THREAD := 13%Z (only parsing).
Abbreviation SYS_MMAP := 29%Z (only parsing).
Abbreviation SYS_MUNMAP := 30%Z (only parsing).
Abbreviation SYS_CHMOD := 65%Z (only parsing).
Abbreviation SYS_FCHMOD := 66%Z (only parsing).
Abbreviation SYS_CHOWN := 67%Z (only parsing).
Abbreviation SYS_FCHOWN := 68%Z (only parsing).
Abbreviation SYS_IOCTL := 59%Z (only parsing).
Abbreviation SYS_SHM_OPEN := 90%Z (only parsing).
Abbreviation SYS_SHM_UNLINK := 91%Z (only parsing).
Abbreviation SYS_FB_BLIT := 33%Z (only parsing).
Abbreviation SYS_FB_INFO := 34%Z (only parsing).
Abbreviation SYS_FB_MAP := 92%Z (only parsing).
Abbreviation SYS_CHDIR := 19%Z (only parsing).
Abbreviation SYS_REBOOT := 75%Z (only parsing).
Abbreviation SYS_SETUID := 76%Z (only parsing).
Abbreviation SYS_PLEDGE := 83%Z (only parsing).

(** ** The group of a system call

    The table of [pledge_group_for_syscall], in the order of its cases; 0 means
    the call is not restricted here. *)
Definition syscall_groups : list (list Z * Z) :=
  [ ([SYS_GETPID; SYS_GETPPID; SYS_CLOCK_NS; SYS_GETTOD; SYS_SIGRETURN; SYS_GETPGRP; SYS_GETSID;
        SYS_GETPGID], 0);
    ([SYS_READ; SYS_WRITE; SYS_CLOSE; SYS_FSTAT; SYS_LSEEK; SYS_DUP; SYS_DUP2; SYS_FCNTL; SYS_POLL;
        SYS_SELECT; SYS_EPOLL_CREATE; SYS_EPOLL_CTL; SYS_EPOLL_WAIT; SYS_NANOSLEEP; SYS_UNAME; SYS_UMASK;
        SYS_GETUID; SYS_GETEUID; SYS_GETGID; SYS_GETEGID; SYS_GETGROUPS; SYS_TIMES; SYS_GETRUSAGE],
        PLEDGE_STDIO);
    ([SYS_STAT; SYS_ACCESS; SYS_READDIR; SYS_READLINK; SYS_GETCWD], PLEDGE_RPATH);
    ([SYS_OPEN], 0);
    ([SYS_MKDIR; SYS_UNLINK; SYS_RENAME; SYS_SYMLINK; SYS_LINK; SYS_TRUNCATE; SYS_FTRUNCATE], PLEDGE_CPATH);
    ([SYS_EXEC; SYS_SPAWN], PLEDGE_EXEC);
    ([SYS_FORK; SYS_WAIT; SYS_KILL; SYS_SETPGID; SYS_SETSID; SYS_TCGETPGRP; SYS_TCSETPGRP], PLEDGE_PROC);
    ([SYS_SOCKET; SYS_BIND; SYS_LISTEN; SYS_ACCEPT; SYS_CONNECT; SYS_SENDTO; SYS_RECVFROM; SYS_SETSOCKOPT;
        SYS_SHUTDOWN], PLEDGE_INET);
    ([SYS_SIGACTION; SYS_SIGPROCMASK], PLEDGE_SIGNAL);
    ([SYS_THREAD], PLEDGE_THREAD);
    ([SYS_MMAP; SYS_MUNMAP], 0);
    ([SYS_CHMOD; SYS_FCHMOD], PLEDGE_CHMOD);
    ([SYS_CHOWN; SYS_FCHOWN], PLEDGE_CHOWN);
    ([SYS_IOCTL], 0);
    ([SYS_SHM_OPEN; SYS_SHM_UNLINK], PLEDGE_SHM);
    ([SYS_FB_BLIT; SYS_FB_INFO; SYS_FB_MAP], PLEDGE_FRAMEBUF);
    ([SYS_CHDIR], PLEDGE_RPATH);
    ([SYS_REBOOT], 0) ].

Fixpoint group_lookup (t : list (list Z * Z)) (nr : Z) : Z :=
  match t with
  | [] => 0
  | (ns, g) :: t => if existsb (Z.eqb nr) ns then g else group_lookup t nr
  end.

Definition pledge_group_for_syscall (nr : Z) : Z := group_lookup syscall_groups (u32 nr).

(** ** Enforcement *)

Abbreviation O_RDONLY := 0%Z (only parsing).
Abbreviation O_WRONLY := 1%Z (only parsing).
Abbreviation O_RDWR := 2%Z (only parsing).
Abbreviation O_CREAT := 64%Z (only parsing).

(** The group [sys_open] needs, by access mode. *)
Definition open_group (flags : Z) : Z :=
  let oflags := Z.land flags 3 in
  let creat := negb (Z.land flags O_CREAT =? 0) in
  if (oflags =? O_RDONLY) && negb creat then PLEDGE_RPATH
  else if creat then PLEDGE_CPATH
  else PLEDGE_WPATH.
Definition socket_group (domain : Z) : Z := if s32 domain =? 1 then PLEDGE_UNIX else PLEDGE_INET.
Definition ioctl_group (req : Z) : Z :=
  if (21504 <=? req) && (req <=? 21759) then PLEDGE_TTY else PLEDGE_IOCTL.

(** The checks of [syscall_dispatch] before the handler runs: [true] when the
    call goes through to its handler, [false] when the process is sent SIGKILL
    and the call returns -EPERM. *)
Definition pledge_gate (mask nr arg1 arg2 arg3 : Z) : bool :=
  if negb (mask =? PLEDGE_ALL) then
    let need := pledge_group_for_syscall nr in
    if negb (need =? 0) && negb (pledge_allowed mask need) then false
    else if (nr =? SYS_OPEN) && negb (pledge_allowed mask (open_group arg2)) then false
    else if (nr =? SYS_MMAP) && (negb (Z.land arg3 4 =? 0) && negb (pledge_allowed mask PLEDGE_PROT_EXEC)) then false
    else if (nr =? SYS_SOCKET) && negb (pledge_allowed mask (socket_group arg1)) then false
    else if (nr =? SYS_IOCTL) && negb (pledge_allowed mask (ioctl_group arg2)) then false
    else true
  else true.
