(* ===== verification/Unveil.v ===== *)
(** * Unveil: which paths a process may open

    Models kernel/security/unveil.h and unveil.c.  A C string is the list of
    its bytes before the terminating NUL; reading the terminator yields 0.  The
    result of [kmalloc] is the argument [alloc]: whether it succeeds.  [cap] is
    kept because it decides when the array grows. *)

From S2P Require Import Prelude Errno Cred.

Abbreviation UNVEIL_READ := 1%Z (only parsing).
Abbreviation UNVEIL_WRITE := 2%Z (only parsing).
Abbreviation UNVEIL_EXEC := 4%Z (only parsing).
Abbreviation UNVEIL_CREATE := 8%Z (only parsing).
Abbreviation UNVEIL_PATH_MAX := 256%Z (only parsing).

(** ** C strings *)

(** [s[i]]. *)
Definition char_at (s : list Z) (i : nat) : Z := default 0 (s !! i).

Definition s_strlen (s : list Z) : Z := Z.of_nat (length s).

(** [i] runs while [i < n]; the terminator of the shorter string is compared
    like any byte. *)
Fixpoint s_strncmp (a b : list Z) (n : nat) : Z :=
  match n with
  | O => 0
  | S n =>
      let x := char_at a 0 in
      let y := char_at b 0 in
      if negb (x =? y) then x - y
      else if x =? 0 then 0
      else s_strncmp (tail a) (tail b) n
  end.

(** At most [n - 1] bytes are copied. *)
Definition s_strncpy (src : list Z) (n : Z) : list Z := take (Z.to_nat (n - 1)) src.

(** ** The table *)

Record unveil_entry := UnveilEntry { u_path : list Z; u_perms : Z }.
Record unveil_table := UnveilTable { u_entries : list unveil_entry; u_cap : Z; u_locked : bool }.

Definition u_count (t : unveil_table) : Z := Z.of_nat (length (u_entries t)).

Definition unveil_init : unveil_table := UnveilTable [] 0 false.
Definition unveil_free (t : unveil_table) : unveil_table := UnveilTable [] 0 false.

(** The copy and whether it succeeded. *)
Definition unveil_copy (alloc : bool) (src : unveil_table) : unveil_table * Z :=
  if u_count src =? 0 then (UnveilTable [] 0 (u_locked src), 0)
  else if negb alloc then (UnveilTable [] 0 (u_locked src), -1)
  else (UnveilTable (u_entries src) (u_count src) (u_locked src), 0).

Definition unveil_lock (t : unveil_table) : unveil_table := UnveilTable (u_entries t) (u_cap t) true.

(** [t->entries[i].perms |= perms] for the first entry with this path. *)
Fixpoint merge_perms (es : list unveil_entry) (path : list Z) (perms : Z) : option (list unveil_entry) :=
  match es with
  | [] => None
  | e :: es =>
      if s_strncmp (u_path e) path (Z.to_nat UNVEIL_PATH_MAX) =? 0
      then Some (UnveilEntry (u_path e) (Z.lor (u_perms e) perms) :: es)
      else es ← merge_perms es path perms; Some (e :: es)
  end.

Definition unveil_add (alloc : bool) (t : unveil_table) (path : list Z) (perms : Z) : unveil_table * Z :=
  if u_locked t then (t, - EPERM)
  else if negb (char_at path 0 =? 47) then (t, - EINVAL)
  else
    let plen := s_strlen path in
    if (plen =? 0) || (UNVEIL_PATH_MAX <=? plen) then (t, - ENAMETOOLONG)
    else
      match merge_perms (u_entries t) path perms with
      | Some es => (UnveilTable es (u_cap t) (u_locked t), 0)
      | None =>
          let full := u_cap t <=? u_count t in
          if full && negb alloc then (t, - ENOMEM)
          else
            let cap := if full then (if negb (u_cap t =? 0) then u32 (u_cap t * 2) else 4) else u_cap t in
            (UnveilTable (u_entries t ++ [UnveilEntry (s_strncpy path UNVEIL_PATH_MAX) perms]) cap (u_locked t), 0)
      end.

(** Whether an entry covers a path: the prefix test and the boundary test. *)
Definition entry_matches (e : unveil_entry) (path : list Z) : bool :=
  let plen := s_strlen path in
  let elen := s_strlen (u_path e) in
  if plen <? elen then false
  else if negb (s_strncmp path (u_path e) (Z.to_nat elen) =? 0) then false
  else if (elen <? plen) && negb (char_at path (Z.to_nat elen) =? 47) then false
  else true.

Fixpoint check_entries (es : list unveil_entry) (path : list Z) (need : Z) : bool :=
  match es with
  | [] => false
  | e :: es => if entry_matches e path then Z.land (u_perms e) need =? need else check_entries es path need
  end.

Definition unveil_check (t : unveil_table) (path : list Z) (need : Z) : bool :=
  if u_count t =? 0 then true else check_entries (u_entries t) path need.

(** The test [sys_open] makes before it hands out a descriptor; paths starting
    with "/dev" and "/proc" are exempt. *)
Definition open_unveil_gate (t : unveil_table) (path : list Z) (flags : Z) : bool :=
  if (0 <? u_count t)
     && negb ((char_at path 1 =? 100) && (char_at path 2 =? 101) && (char_at path 3 =? 118))
     && negb ((char_at path 1 =? 112) && (char_at path 2 =? 114) && (char_at path 3 =? 111) && (char_at path 4 =? 99))
  then
    let acc := Z.land flags 3 in
    let need := UNVEIL_READ in
    let need := if (acc =? 1) || (acc =? 2) then Z.lor need UNVEIL_WRITE else need in
    let need := if negb (Z.land flags 64 =? 0) then Z.lor need UNVEIL_CREATE else need in
    unveil_check t path need
  else true.

(** ** Correctness *)

(** A C string: no byte is NUL. *)
Definition c_string (s : list Z) : Prop := Forall (fun x => 0 < x < 256) s.

(** The path is the entry's path, or lies below it: the next byte is a slash. *)
Definition below (prefix path : list Z) : Prop :=
  path = prefix \/ exists rest, path = prefix ++ 47 :: rest.

Lemma char_cons x s : char_at (x :: s) 0 = x.
Proof. reflexivity. Qed.
Lemma char_nil : char_at [] 0 = 0.
Proof. reflexivity. Qed.
Ltac step_cmp := cbn [s_strncmp tail]; rewrite ?char_cons, ?char_nil.

Lemma strncmp_prefix a : forall b,
  c_string a -> c_string b -> (length b <= length a)%nat ->
  s_strncmp a b (length b) = 0 <-> exists rest, a = b ++ rest.
Proof.
  induction a as [|x a IH]; intros [|y b] Ha Hb Hl; cbn [length] in *; try lia.
  - split; [by exists []|done].
  - split; [intros _; by exists (x :: a)|done].
  - inversion Ha as [|? ? Hx Ha']; inversion Hb as [|? ? Hy Hb']; subst. step_cmp.
    destruct (Z.eqb_spec x y) as [->|Hne]; cbn [negb].
    + destruct (Z.eqb_spec y 0); [lia|]. rewrite (IH b Ha' Hb') by lia. split.
      * intros [r ->]. by exists r.
      * intros [r Hr]. exists r. by injection Hr as ->.
    + split; [lia|]. intros [r [= ? _]]. done.
Qed.

Lemma strncmp_eq a : forall b n,
  c_string a -> c_string b -> (length a < n)%nat -> (length b < n)%nat ->
  s_strncmp a b n = 0 <-> a = b.
Proof.
  induction a as [|x a IH]; intros b [|n] Ha Hb Hn Hm; try (simpl in *; lia).
  - destruct b as [|y b]; [done|]. inversion Hb; subst. step_cmp. destruct (Z.eqb_spec 0 y); [lia|]. cbn [negb]. split; [lia|done].
  - destruct b as [|y b].
    + inversion Ha; subst. step_cmp.
      destruct (Z.eqb_spec x 0); [lia|]. cbn [negb]. split; [lia|done].
    + inversion Ha; inversion Hb; subst. step_cmp.
      destruct (Z.eqb_spec x y) as [->|Hne]; cbn [negb].
      * destruct (Z.eqb_spec y 0); [lia|]. rewrite IH by (done || (simpl in *; lia)). naive_solver.
      * split; [lia|congruence].
Qed.

Lemma entry_matches_spec e path :
  c_string (u_path e) -> c_string path -> entry_matches e path = true <-> below (u_path e) path.
Proof.
  intros He Hp. unfold entry_matches, s_strlen, below. rewrite Nat2Z.id.
  destruct (Z.ltb_spec (Z.of_nat (length path)) (Z.of_nat (length (u_path e)))) as [Hlt|Hge].
  { split; [done|]. intros [->|[r ->]]; [lia|]. rewrite length_app in Hlt. lia. }
  pose proof (strncmp_prefix path (u_path e) Hp He ltac:(lia)) as Hpre.
  destruct (Z.eqb_spec (s_strncmp path (u_path e) (length (u_path e))) 0) as [H0|H0]; cbn [negb].
  2: { split; [done|]. intros [->|[r ->]]; exfalso; apply H0, Hpre; [exists []|exists (47 :: r)]; [by rewrite app_nil_r|done]. }
  apply Hpre in H0 as [rest ->]. unfold char_at. rewrite lookup_app_r, Nat.sub_diag by lia. rewrite length_app.
  destruct rest as [|x rest].
  - rewrite app_nil_r. destruct (Z.ltb_spec (Z.of_nat (length (u_path e))) (Z.of_nat (length (u_path e) + length (@nil Z))));
      [simpl in *; lia|]. cbn [andb]. split; auto.
  - destruct (Z.ltb_spec (Z.of_nat (length (u_path e))) (Z.of_nat (length (u_path e) + length (x :: rest)))) as [_|];
      [|simpl in *; lia]. cbn [andb]. change (default 0 ((x :: rest) !! 0%nat)) with x. destruct (Z.eqb_spec x 47) as [->|Hx]; cbn [negb].
    + split; [|done]. intros _. right. by exists rest.
    + split; [done|]. intros [Heq|[r Heq]]; [|apply app_inv_head in Heq; congruence].
      apply (f_equal length) in Heq. rewrite length_app in Heq. simpl in Heq. lia.
Qed.

(** The entry that decides: the first one covering the path. *)
Fixpoint deciding (es : list unveil_entry) (path : list Z) : option unveil_entry :=
  match es with
  | [] => None
  | e :: es => if entry_matches e path then Some e else deciding es path
  end.

Lemma check_entries_spec es path need :
  check_entries es path need =
  match deciding es path with Some e => Z.land (u_perms e) need =? need | None => false end.
Proof. induction es as [|e es IH]; [done|]. simpl. by destruct (entry_matches e path). Qed.

(** Tables built by the kernel. *)
Definition table_ok (t : unveil_table) : Prop :=
  Forall (fun e => c_string (u_path e) /\ s_strlen (u_path e) < UNVEIL_PATH_MAX) (u_entries t) /\
  NoDup (u_path <$> u_entries t).

Lemma strncpy_id path : s_strlen path < UNVEIL_PATH_MAX -> s_strncpy path UNVEIL_PATH_MAX = path.
Proof. unfold s_strlen, s_strncpy. intros H. apply take_ge. lia. Qed.

Lemma path_cmp_spec e path :
  c_string (u_path e) -> s_strlen (u_path e) < UNVEIL_PATH_MAX -> c_string path -> s_strlen path < UNVEIL_PATH_MAX ->
  (s_strncmp (u_path e) path (Z.to_nat UNVEIL_PATH_MAX) =? 0) = bool_decide (u_path e = path).
Proof.
  unfold s_strlen. intros H1 H2 H3 H4.
  pose proof (strncmp_eq (u_path e) path (Z.to_nat 256) H1 H3 ltac:(lia) ltac:(lia)) as Hs.
  destruct (Z.eqb_spec (s_strncmp (u_path e) path (Z.to_nat 256)) 0) as [H0|H0].
  - symmetry. apply bool_decide_eq_true. by apply Hs.
  - symmetry. apply bool_decide_eq_false. intros Heq. by apply H0, Hs.
Qed.

(** Merging finds the entry with the path, if there is one. *)
Lemma merge_perms_spec es path perms :
  Forall (fun e => c_string (u_path e) /\ s_strlen (u_path e) < UNVEIL_PATH_MAX) es ->
  c_string path -> s_strlen path < UNVEIL_PATH_MAX ->
  match merge_perms es path perms with
  | Some es' => u_path <$> es' = u_path <$> es /\ path ∈ u_path <$> es /\
      exists l1 e l2, es = l1 ++ e :: l2 /\ u_path e = path /\ path ∉ u_path <$> l1 /\
        es' = l1 ++ UnveilEntry path (Z.lor (u_perms e) perms) :: l2
  | None => path ∉ u_path <$> es
  end.
Proof.
  intros He Hp Hl. induction He as [|e es [Hc Hs] He IH]; cbn [merge_perms]; [apply not_elem_of_nil|].
  rewrite path_cmp_spec by done. destruct (bool_decide_reflect (u_path e = path)) as [Heq|Hne].
  - split; [done|]. rewrite !fmap_cons. split; [rewrite Heq; left|].
    exists [], e, es. split; [done|]. split; [done|]. split; [apply not_elem_of_nil|]. by rewrite Heq.
  - destruct (merge_perms es path perms) as [es'|]; cbn [mbind option_bind].
    + destruct IH as (H1 & H2 & l1 & e' & l2 & -> & H3 & H4 & ->). rewrite !fmap_cons, H1.
      split; [done|]. split; [by right|]. exists (e :: l1), e', l2. split; [done|]. split; [done|]. split; [|done].
      rewrite fmap_cons, elem_of_cons. naive_solver.
    + rewrite fmap_cons, elem_of_cons. naive_solver.
Qed.
