(* ===== verification/Ksec.v ===== *)
(** * The channel to the policy agent

    Models kernel/security/ksec.c as a transition system: tasks that send a
    request and sleep, the reader thread that matches responses, and the agent
    on the other side of two pipes.  One slot, [s_pending], holds the request
    in flight.  Interleaving is explicit: every step is one lock-free section
    of the C code between two points where another task can run. *)

From S2P Require Import Prelude Errno Cred.

Record ksec_request := KsecRequest {
  q_seq : Z; q_op : Z; q_pid : Z; q_uid : Z; q_gid : Z; q_target : Z;
}.
Record ksec_response := KsecResponse { r_seq : Z; r_verdict : Z; r_granted_euid : Z }.

(** The pending slot. *)
Record ksec_pending := Pending {
  p_seq : Z; p_resp : ksec_response; p_waiter : option Z; p_done : bool;
}.

Inductive caller := Waiting (req : ksec_request) | Returned (req : ksec_request) (result : Z * ksec_response).

Record ksec_state := KsecState {
  s_agent_ready : bool;
  s_seq : Z;
  s_pending : ksec_pending;
  requests : list ksec_request;
  responses : list ksec_response;
  callers : gmap Z caller;
}.

Definition ksec_register_agent (s : ksec_state) (read_pipe write_pipe : bool) : ksec_state * Z :=
  if negb read_pipe || negb write_pipe then (s, - EINVAL)
  else if s_agent_ready s then (s, - EBUSY)
  else (KsecState true (s_seq s) (s_pending s) (requests s) (responses s) (callers s), 0).

Definition ksec_agent_present (s : ksec_state) : bool := s_agent_ready s.

Definition ksec_next_seq (seq : Z) : Z := u32 (seq + 1).

(** [ksec_request] up to the sleep.  [room] is whether the pipe takes the whole
    request; without it the call returns -EIO at once. *)
Definition request_begin (s : ksec_state) (task : Z) (req : ksec_request) (room : bool) : ksec_state * option Z :=
  if negb (s_agent_ready s) then (s, Some (- EAGAIN))
  else
    let p := Pending (q_seq req) (p_resp (s_pending s)) (Some task) false in
    if negb room then
      (KsecState true (s_seq s) (Pending (p_seq p) (p_resp p) None (p_done p)) (requests s) (responses s) (callers s),
       Some (- 5))
    else
      (KsecState true (s_seq s) p (requests s ++ [req]) (responses s) (<[task := Waiting req]> (callers s)), None).

(** The loop around [sched_sleep], each time the task runs again. *)
Definition request_wake (s : ksec_state) (task : Z) : ksec_state :=
  match callers s !! task with
  | Some (Waiting req) =>
      if p_done (s_pending s) then
        let p := s_pending s in
        KsecState (s_agent_ready s) (s_seq s) (Pending (p_seq p) (p_resp p) None (p_done p)) (requests s) (responses s)
          (<[task := Returned req (0, p_resp p)]> (callers s))
      else s
  | _ => s
  end.

(** One response read by [ksec_reader_thread]. *)
Definition reader_take (s : ksec_state) : ksec_state :=
  match responses s with
  | [] => s
  | resp :: rest =>
      let p := s_pending s in
      let p :=
        if bool_decide (is_Some (p_waiter p)) && (p_seq p =? r_seq resp) && negb (p_done p)
        then Pending (p_seq p) resp (p_waiter p) true else p in
      KsecState (s_agent_ready s) (s_seq s) p (requests s) rest (callers s)
  end.

(** The agent answers the oldest request; [verdict] decides. *)
Definition agent_answer (verdict : ksec_request -> Z * Z) (s : ksec_state) : ksec_state :=
  match requests s with
  | [] => s
  | req :: rest =>
      let '(v, g) := verdict req in
      KsecState (s_agent_ready s) (s_seq s) (s_pending s) rest (responses s ++ [KsecResponse (q_seq req) v g]) (callers s)
  end.

(** ** Runs *)

Section runs.
(** What the agent decides, for every request. *)
Context (verdict : ksec_request -> Z * Z).

Definition answer_to (req : ksec_request) : ksec_response :=
  KsecResponse (q_seq req) (verdict req).1 (verdict req).2.

(** Any interleaving; a task has one request at a time and sequence numbers
    are fresh. *)
Inductive kstep : ksec_state -> ksec_state -> Prop :=
| k_begin s task req s' :
    (forall r, callers s !! task <> Some (Waiting r)) -> q_seq req = ksec_next_seq (s_seq s) ->
    request_begin (KsecState (s_agent_ready s) (q_seq req) (s_pending s) (requests s) (responses s) (callers s)) task req true = (s', None) ->
    kstep s s'
| k_wake s task : kstep s (request_wake s task)
| k_reader s : kstep s (reader_take s)
| k_agent s : kstep s (agent_answer verdict s).

(** The same, with requests serialised: no request starts while another waits. *)
Inductive kstep_serial : ksec_state -> ksec_state -> Prop :=
| ks_begin s task req s' :
    (forall t r, callers s !! t <> Some (Waiting r)) -> q_seq req = ksec_next_seq (s_seq s) ->
    request_begin (KsecState (s_agent_ready s) (q_seq req) (s_pending s) (requests s) (responses s) (callers s)) task req true = (s', None) ->
    kstep_serial s s'
| ks_wake s task : kstep_serial s (request_wake s task)
| ks_reader s : kstep_serial s (reader_take s)
| ks_agent s : kstep_serial s (agent_answer verdict s).

Definition ksec_boot : ksec_state :=
  KsecState true 0 (Pending 0 (KsecResponse 0 0 0) None false) [] [] ∅.

(** Every answer returned is the agent's answer to that very request. *)
Definition answers_match (s : ksec_state) : Prop :=
  forall t req r resp, callers s !! t = Some (Returned req (r, resp)) -> r = 0 /\ resp = answer_to req.

(** Where the one outstanding request is. *)
Inductive in_flight (s : ksec_state) (req : ksec_request) : Prop :=
| fl_asked : requests s = [req] -> responses s = [] -> p_done (s_pending s) = false -> in_flight s req
| fl_answered : requests s = [] -> responses s = [answer_to req] -> p_done (s_pending s) = false -> in_flight s req
| fl_done : requests s = [] -> responses s = [] -> p_done (s_pending s) = true ->
    p_resp (s_pending s) = answer_to req -> in_flight s req.

Definition serial_inv (s : ksec_state) : Prop :=
  answers_match s /\
  ((forall t r, callers s !! t <> Some (Waiting r)) /\ requests s = [] /\ responses s = [] \/
   exists t req, (forall t' r, callers s !! t' = Some (Waiting r) <-> t' = t /\ r = req) /\
     p_seq (s_pending s) = q_seq req /\ p_waiter (s_pending s) = Some t /\ in_flight s req).

Lemma serial_begin s task req s' :
  serial_inv s -> (forall t r, callers s !! t <> Some (Waiting r)) ->
  request_begin (KsecState (s_agent_ready s) (q_seq req) (s_pending s) (requests s) (responses s) (callers s)) task req true = (s', None) ->
  serial_inv s'.
Proof.
  intros [Ha [(_ & Hq & Hr)|(t & r & Hw & _)]] Hno H; [|by destruct (Hno t r); apply Hw].
  unfold request_begin in H. cbn in H. destruct (s_agent_ready s); [|done]. injection H as <-. split.
  - intros t r0 r resp. cbn. destruct (decide (t = task)) as [->|]; [by rewrite lookup_insert_eq|].
    rewrite lookup_insert_ne by done. apply Ha.
  - right. exists task, req. cbn. split; [|split; [done|split; [done|]]].
    + intros t' r. destruct (decide (t' = task)) as [->|]; [rewrite lookup_insert_eq; naive_solver|].
      rewrite lookup_insert_ne by done. split; [intros H; by destruct (Hno t' r)|naive_solver].
    + apply fl_asked; cbn; by rewrite ?Hq, ?Hr.
Qed.

Lemma serial_wake s task : serial_inv s -> serial_inv (request_wake s task).
Proof.
  intros Hi. pose proof Hi as [Ha Hst]. unfold request_wake. destruct (callers s !! task) as [[req|]|] eqn:E; [|exact Hi..].
  destruct (p_done (s_pending s)) eqn:Ed; [|exact Hi].
  destruct Hst as [(Hno & _)|(t & req' & Hw & Hs & Hwt & Hf)]; [by destruct (Hno task req)|].
  apply Hw in E as [-> ->]. destruct Hf as [? ? Hd|? ? Hd|Hq Hr Hd Hresp]; [congruence..|]. split.
  - intros t' r0 r resp. cbn. destruct (decide (t' = t)) as [->|].
    + rewrite lookup_insert_eq. intros [= -> <- <-]. done.
    + rewrite lookup_insert_ne by done. apply Ha.
  - left. cbn. split; [|done]. intros t' r. destruct (decide (t' = t)) as [->|]; [by rewrite lookup_insert_eq|].
    rewrite lookup_insert_ne by done. rewrite Hw. naive_solver.
Qed.

Lemma serial_reader s : serial_inv s -> serial_inv (reader_take s).
Proof.
  intros Hi. pose proof Hi as [Ha Hst]. unfold reader_take. destruct (responses s) as [|resp rest] eqn:E; [exact Hi|].
  split; [done|]. destruct Hst as [(_ & _ & Hr)|(t & req & Hw & Hs & Hwt & Hf)]; [congruence|]. right. exists t, req.
  destruct Hf as [? Hr|Hq Hr Hd|? Hr]; [congruence| |congruence].
  assert (resp = answer_to req /\ rest = []) as [-> ->] by (split; congruence). cbn [s_pending callers].
  change (r_seq (answer_to req)) with (q_seq req).
  rewrite Hwt, Hs, Hd, Z.eqb_refl, bool_decide_eq_true_2 by by eexists. cbn [negb andb p_seq p_waiter].
  do 2 (split; [done|]). split; [done|]. by apply fl_done.
Qed.

Lemma serial_agent s : serial_inv s -> serial_inv (agent_answer verdict s).
Proof.
  intros Hi. pose proof Hi as [Ha Hst]. unfold agent_answer. destruct (requests s) as [|req rest] eqn:E; [exact Hi|].
  destruct (verdict req) as [v g] eqn:Ev. split; [done|].
  destruct Hst as [(_ & Hq & _)|(t & req' & Hw & Hs & Hwt & Hf)]; [congruence|]. right. exists t, req'. cbn.
  destruct Hf as [Hq Hr Hd|Hq|Hq]; [|congruence|congruence].
  assert (req' = req /\ rest = []) as [-> ->] by (split; congruence).
  do 2 (split; [done|]). split; [done|]. apply fl_answered; cbn; [done| |done].
  rewrite Hr. unfold answer_to. by rewrite Ev.
Qed.

Lemma serial_reachable s : rtc kstep_serial ksec_boot s -> serial_inv s.
Proof.
  intros H. assert (Hb : serial_inv ksec_boot).
  { split; [intros t req r resp; cbn; by rewrite lookup_empty|]. left. split; [|done].
    intros t r. cbn. by rewrite lookup_empty. }
  revert Hb. induction H as [|s1 s2 s3 Hs _ IH]; [done|]. intros Hi. apply IH. destruct Hs.
  - by eapply serial_begin.
  - by apply serial_wake.
  - by apply serial_reader.
  - by apply serial_agent.
Qed.
End runs.
