(* ===== verification/SecCtx.v ===== *)
(** * The security context of a process

    Credentials, pledge mask, unveil table and umask of a task, and everything
    that changes them: the identity system calls and [sys_pledge],
    [sys_unveil], [sys_unveil_lock], [sys_umask] (kernel/syscall/syscall.c),
    the copy [task_fork] makes (kernel/proc/process.c) and the context
    [sys_spawn] gives a child (kernel/proc/elf.c and syscall.c).  A system call
    returns its value as a signed number: 0, a result, or minus an error
    number.

    The policy agent is a user process; it is the argument [agent], a function
    from requests to the response [ksec_request] delivers ([None]: the request
    failed).  Whether one is registered is part of the arguments too. *)

From S2P Require Import Prelude Errno Cred Pledge Unveil Ksec.

Record task_sec := TaskSec {
  t_pid : Z;
  t_cred : cred;
  t_umask : Z;
  t_pledge : Z;
  t_unveil : unveil_table;
}.

Definition with_cred (t : task_sec) (c : cred) : task_sec :=
  TaskSec (t_pid t) c (t_umask t) (t_pledge t) (t_unveil t).
Definition with_umask (t : task_sec) (m : Z) : task_sec :=
  TaskSec (t_pid t) (t_cred t) m (t_pledge t) (t_unveil t).
Definition with_pledge (t : task_sec) (m : Z) : task_sec :=
  TaskSec (t_pid t) (t_cred t) (t_umask t) m (t_unveil t).
Definition with_unveil (t : task_sec) (u : unveil_table) : task_sec :=
  TaskSec (t_pid t) (t_cred t) (t_umask t) (t_pledge t) u.

(** ** The policy agent *)

Abbreviation KSEC_OP_SETEUID := 2%Z (only parsing).
Abbreviation KSEC_OP_SETUID := 3%Z (only parsing).
Abbreviation KSEC_VERDICT_ALLOW := 0%Z (only parsing).

(** ** Identity system calls *)

Section calls.
Context (agent : option (ksec_request -> option ksec_response)).

(** Ask the agent about [target]: the granted identity, if any.  The sequence
    number advances whenever a request is made. *)
Definition ask_agent (seq : Z) (t : task_sec) (op target : Z) : Z * option Z :=
  match agent with
  | None => (seq, None)
  | Some f =>
      let seq := ksec_next_seq seq in
      let req := KsecRequest seq op (t_pid t) (euid (t_cred t)) (egid (t_cred t)) target in
      match f req with
      | None => (seq, None)
      | Some resp => (seq, if negb (r_verdict resp =? KSEC_VERDICT_ALLOW) then None else Some (r_granted_euid resp))
      end
  end.

Definition sys_setuid (seq : Z) (t : task_sec) (uid : Z) : Z * task_sec * Z :=
  let '(c, r) := cred_setuid (t_cred t) (u32 uid) in
  if r =? 0 then (seq, with_cred t c, 0)
  else
    match ask_agent seq t KSEC_OP_SETUID (u32 uid) with
    | (seq, Some g) => (seq, with_cred t (with_uids g g g (t_cred t)), 0)
    | (seq, None) => (seq, t, - EPERM)
    end.

Definition sys_seteuid (seq : Z) (t : task_sec) (e : Z) : Z * task_sec * Z :=
  let '(c, r) := cred_seteuid (t_cred t) (u32 e) in
  if r =? 0 then (seq, with_cred t c, 0)
  else
    match ask_agent seq t KSEC_OP_SETEUID (u32 e) with
    | (seq, Some g) => (seq, with_cred t (with_uids (ruid (t_cred t)) g (suid (t_cred t)) (t_cred t)), 0)
    | (seq, None) => (seq, t, - EPERM)
    end.
End calls.

Definition sys_setgid (t : task_sec) (gid : Z) : task_sec * Z :=
  let '(c, r) := cred_setgid (t_cred t) (u32 gid) in
  if r =? 0 then (with_cred t c, 0) else (t, - EPERM).
Definition sys_setegid (t : task_sec) (e : Z) : task_sec * Z :=
  let '(c, r) := cred_setegid (t_cred t) (u32 e) in
  if r =? 0 then (with_cred t c, 0) else (t, - EPERM).

Definition sys_setreuid (t : task_sec) (r e : Z) : task_sec * Z :=
  let c := t_cred t in
  let new_ruid := if r =? 2 ^ 64 - 1 then ruid c else u32 r in
  let new_euid := if e =? 2 ^ 64 - 1 then euid c else u32 e in
  let ruid_ok := (new_ruid =? ruid c) || (new_ruid =? euid c) in
  let euid_ok := (new_euid =? ruid c) || (new_euid =? euid c) || (new_euid =? suid c) in
  if negb (cred_is_root c) && (negb ruid_ok || negb euid_ok) then (t, - EPERM)
  else
    let new_suid := if negb (new_ruid =? ruid c) || negb (new_euid =? ruid c) then new_euid else suid c in
    (with_cred t (with_uids new_ruid new_euid new_suid c), 0).

Definition sys_setregid (t : task_sec) (r e : Z) : task_sec * Z :=
  let c := t_cred t in
  let new_rgid := if r =? 2 ^ 64 - 1 then rgid c else u32 r in
  let new_egid := if e =? 2 ^ 64 - 1 then egid c else u32 e in
  let rgid_ok := (new_rgid =? rgid c) || (new_rgid =? egid c) in
  let egid_ok := (new_egid =? rgid c) || (new_egid =? egid c) || (new_egid =? sgid c) in
  if negb (cred_is_root c) && (negb rgid_ok || negb egid_ok) then (t, - EPERM)
  else
    let new_sgid := if negb (new_rgid =? rgid c) || negb (new_egid =? rgid c) then new_egid else sgid c in
    (with_cred t (with_gids new_rgid new_egid new_sgid c), 0).

(** [list] is what [copy_from_user] delivers: [size] words, or [None] when the
    pointer is bad. *)
Definition sys_setgroups (t : task_sec) (size : Z) (list : option (list Z)) : task_sec * Z :=
  let c := t_cred t in
  if negb (cred_is_root c) then (t, - EPERM)
  else if CRED_NGROUPS_MAX <? size then (t, - EINVAL)
  else if size =? 0 then (with_cred t (with_groups (supplemental c) 0 c), 0)
  else
    match list with
    | None => (t, - EFAULT)
    | Some l =>
        (with_cred t (with_groups (take (Z.to_nat size) l ++ drop (Z.to_nat size) (supplemental c)) size c), 0)
    end.

Definition sys_umask (t : task_sec) (mask : Z) : task_sec * Z := (with_umask t (Z.land mask 511), t_umask t).

Definition sys_pledge (t : task_sec) (mask : Z) : task_sec * Z :=
  (with_pledge t (pledge_restrict (t_pledge t) (u32 mask)), 0).

(** The C string in a byte array. *)
Fixpoint cut_nul (s : list Z) : list Z :=
  match s with [] => [] | x :: s => if x =? 0 then [] else x :: cut_nul s end.

(** [path] is the string copied from user memory; its bytes up to the first NUL
    are what [unveil_add] sees. *)
Definition sys_unveil (alloc : bool) (t : task_sec) (path : list Z) (perms : Z) : task_sec * Z :=
  let pathlen := Z.of_nat (length path) in
  if (pathlen =? 0) || (UNVEIL_PATH_MAX <=? pathlen) then (t, - EINVAL)
  else
    let '(u, r) := unveil_add alloc (t_unveil t) (cut_nul path) (u8 perms) in
    (with_unveil t u, r).

Definition sys_unveil_lock (t : task_sec) : task_sec * Z := (with_unveil t (unveil_lock (t_unveil t)), 0).

(** ** New processes *)

(** What [task_fork] copies; [garbage] is the credential memory of the new task
    before it, [alloc] whether the copy of the unveil table can be allocated. *)
Definition fork_sec (alloc : bool) (garbage : cred) (pid : Z) (parent : task_sec) : task_sec :=
  TaskSec pid (cred_copy garbage (t_cred parent)) (t_umask parent) (t_pledge parent)
    (fst (unveil_copy alloc (t_unveil parent))).

(** What the ELF loader gives a task made by [sys_spawn]. *)
Definition elf_task_sec (garbage : cred) (pid : Z) (parent : task_sec) : task_sec :=
  TaskSec pid (cred_copy garbage (t_cred parent)) 18 PLEDGE_ALL unveil_init.

Abbreviation SPAWN_ATTR_CRED := 1%Z (only parsing).
Abbreviation SPAWN_ATTR_UMASK := 2%Z (only parsing).
Abbreviation SPAWN_ATTR_PLEDGE := 4%Z (only parsing).
Abbreviation SPAWN_ATTR_UNVEIL := 8%Z (only parsing).

Record spawn_attr := SpawnAttr {
  a_flags : Z; a_uid : Z; a_gid : Z; a_umask : Z; a_pledge : Z; a_unveil : list (list Z * Z);
}.

Definition has_flag (a : spawn_attr) (f : Z) : bool := negb (Z.land (a_flags a) f =? 0).

(** [unveil_add] for each entry; failures are ignored. *)
Definition add_entries (alloc : bool) (u : unveil_table) (es : list (list Z * Z)) : unveil_table :=
  foldl (fun u e => fst (unveil_add alloc u e.1 e.2)) u es.

Definition apply_spawn_attr (alloc : bool) (parent child : task_sec) (a : spawn_attr) : task_sec :=
  let child := if has_flag a SPAWN_ATTR_CRED
    then with_cred child (with_gids (a_gid a) (a_gid a) (a_gid a)
           (with_uids (a_uid a) (a_uid a) (a_uid a) (t_cred child))) else child in
  let child := if has_flag a SPAWN_ATTR_UMASK then with_umask child (Z.land (a_umask a) 511) else child in
  let child := if has_flag a SPAWN_ATTR_PLEDGE
    then with_pledge child (pledge_restrict (t_pledge parent) (a_pledge a)) else child in
  if has_flag a SPAWN_ATTR_UNVEIL && negb (bool_decide (a_unveil a = [])) && alloc then
    with_unveil child (unveil_lock (add_entries alloc unveil_init (a_unveil a)))
  else child.

Definition spawn_sec (alloc : bool) (garbage : cred) (pid : Z) (parent : task_sec) (attr : option spawn_attr) : task_sec :=
  let child := elf_task_sec garbage pid parent in
  match attr with None => child | Some a => apply_spawn_attr alloc parent child a end.

(** ** Histories

    One process and its descendants by [fork] and [exec] (which keeps the
    context of the task it replaces the image of), without a policy agent. *)
Inductive sec_step : task_sec -> task_sec -> Prop :=
| step_setuid t uid seq seq' t' r : sys_setuid None seq t uid = (seq', t', r) -> sec_step t t'
| step_seteuid t e seq seq' t' r : sys_seteuid None seq t e = (seq', t', r) -> sec_step t t'
| step_setgid t gid t' r : sys_setgid t gid = (t', r) -> sec_step t t'
| step_setegid t e t' r : sys_setegid t e = (t', r) -> sec_step t t'
| step_setreuid t a b t' r : sys_setreuid t a b = (t', r) -> sec_step t t'
| step_setregid t a b t' r : sys_setregid t a b = (t', r) -> sec_step t t'
| step_setgroups t size l t' r : sys_setgroups t size l = (t', r) -> sec_step t t'
| step_umask t m t' r : sys_umask t m = (t', r) -> sec_step t t'
| step_pledge t m t' r : sys_pledge t m = (t', r) -> sec_step t t'
| step_unveil alloc t path perms t' r : sys_unveil alloc t path perms = (t', r) -> sec_step t t'
| step_unveil_lock t t' r : sys_unveil_lock t = (t', r) -> sec_step t t'
| step_fork garbage pid t : length (supplemental garbage) = 32%nat -> sec_step t (fork_sec true garbage pid t).

Definition uids (c : cred) : list Z := [ruid c; euid c; suid c].
Definition gids (c : cred) : list Z := [rgid c; egid c; sgid c].

(** [t] is no more powerful than [t0]. *)
Record confined (t0 t : task_sec) : Prop := {
  cf_uids : uids (t_cred t) ⊆ uids (t_cred t0);
  cf_gids : gids (t_cred t) ⊆ gids (t_cred t0);
  cf_groups : take (Z.to_nat (ngroups (t_cred t))) (supplemental (t_cred t)) =
    take (Z.to_nat (ngroups (t_cred t0))) (supplemental (t_cred t0));
  cf_n : ngroups (t_cred t) = ngroups (t_cred t0);
  cf_len : length (supplemental (t_cred t)) = 32%nat;
  cf_pledge : Z.land (t_pledge t) (t_pledge t0) = t_pledge t;
  cf_unveil : u_locked (t_unveil t0) = true ->
    u_entries (t_unveil t) = u_entries (t_unveil t0) /\ u_locked (t_unveil t) = true;
}.

Section confinement.
Context (t0 : task_sec).
Hypothesis Hroot : 0 ∉ uids (t_cred t0).
Hypothesis Hn : 0 <= ngroups (t_cred t0) <= CRED_NGROUPS_MAX.

Lemma not_root t : confined t0 t -> euid (t_cred t) <> 0.
Proof.
  intros Hc He. apply Hroot. apply (cf_uids _ _ Hc). rewrite <- He. unfold uids. set_solver.
Qed.

(** A change of identities that stays within the six slots. *)
Lemma confined_uids t a b c :
  confined t0 t -> [a; b; c] ⊆ uids (t_cred t) -> confined t0 (with_cred t (with_uids a b c (t_cred t))).
Proof. intros [] H. constructor; try done. cbn. by etrans. Qed.
Lemma confined_gids t a b c :
  confined t0 t -> [a; b; c] ⊆ gids (t_cred t) -> confined t0 (with_cred t (with_gids a b c (t_cred t))).
Proof. intros [] H. constructor; try done. cbn. by etrans. Qed.

Lemma three_in (a b c : Z) l : a ∈ l -> b ∈ l -> c ∈ l -> [a; b; c] ⊆ l.
Proof. intros Ha Hb Hc x. rewrite !elem_of_cons. intros [->|[->|[->|H]]]; [done..|by apply not_elem_of_nil in H]. Qed.

Ltac slots := apply three_in; unfold uids, gids; rewrite !elem_of_cons; intuition congruence.

Lemma confined_setuid t uid seq seq' t' r :
  confined t0 t -> sys_setuid None seq t uid = (seq', t', r) -> confined t0 t'.
Proof.
  intros Hc H. pose proof (not_root t Hc) as He. unfold sys_setuid, cred_setuid in H.
  destruct (Z.eqb_spec (euid (t_cred t)) 0); [done|].
  destruct (Z.eqb_spec (u32 uid) (ruid (t_cred t))), (Z.eqb_spec (u32 uid) (suid (t_cred t))); simplify_eq/=;
    try done; apply confined_uids; try done; slots.
Qed.

Lemma confined_seteuid t e seq seq' t' r :
  confined t0 t -> sys_seteuid None seq t e = (seq', t', r) -> confined t0 t'.
Proof.
  intros Hc H. pose proof (not_root t Hc) as He. unfold sys_seteuid, cred_seteuid in H.
  destruct (Z.eqb_spec (euid (t_cred t)) 0); [done|].
  destruct ((u32 e =? ruid (t_cred t)) || (u32 e =? suid (t_cred t)) || (u32 e =? euid (t_cred t))) eqn:E;
    simplify_eq/=; [|done].
  rewrite !orb_true_iff, !Z.eqb_eq in E. apply confined_uids; [done|]. slots.
Qed.

Lemma confined_setgid t gid t' r : confined t0 t -> sys_setgid t gid = (t', r) -> confined t0 t'.
Proof.
  intros Hc H. pose proof (not_root t Hc) as He. unfold sys_setgid, cred_setgid in H.
  destruct (Z.eqb_spec (euid (t_cred t)) 0); [done|].
  destruct (Z.eqb_spec (u32 gid) (rgid (t_cred t))), (Z.eqb_spec (u32 gid) (sgid (t_cred t))); simplify_eq/=;
    try done; apply confined_gids; try done; slots.
Qed.

Lemma confined_setegid t e t' r : confined t0 t -> sys_setegid t e = (t', r) -> confined t0 t'.
Proof.
  intros Hc H. pose proof (not_root t Hc) as He. unfold sys_setegid, cred_setegid in H.
  destruct (Z.eqb_spec (euid (t_cred t)) 0); [done|].
  destruct ((u32 e =? rgid (t_cred t)) || (u32 e =? sgid (t_cred t)) || (u32 e =? egid (t_cred t))) eqn:E;
    simplify_eq/=; [|done].
  rewrite !orb_true_iff, !Z.eqb_eq in E. apply confined_gids; [done|]. slots.
Qed.

Lemma confined_setreuid t a b t' r : confined t0 t -> sys_setreuid t a b = (t', r) -> confined t0 t'.
Proof.
  intros Hc H. pose proof (not_root t Hc) as He. unfold sys_setreuid, cred_is_root in H.
  destruct (Z.eqb_spec (euid (t_cred t)) 0); [done|]. cbn [negb andb] in H.
  set (nr := if a =? _ then _ else _) in H. set (ne := if b =? _ then _ else _) in H.
  destruct (negb _ || negb _) eqn:E in H; simplify_eq; [done|].
  rewrite orb_false_iff, !negb_false_iff, !orb_true_iff, !Z.eqb_eq in E.
  apply confined_uids; [done|]. destruct (negb _ || negb _), E as [E1 E2]; slots.
Qed.

Lemma confined_setregid t a b t' r : confined t0 t -> sys_setregid t a b = (t', r) -> confined t0 t'.
Proof.
  intros Hc H. pose proof (not_root t Hc) as He. unfold sys_setregid, cred_is_root in H.
  destruct (Z.eqb_spec (euid (t_cred t)) 0); [done|]. cbn [negb andb] in H.
  set (nr := if a =? _ then _ else _) in H. set (ne := if b =? _ then _ else _) in H.
  destruct (negb _ || negb _) eqn:E in H; simplify_eq; [done|].
  rewrite orb_false_iff, !negb_false_iff, !orb_true_iff, !Z.eqb_eq in E.
  apply confined_gids; [done|]. destruct (negb _ || negb _), E as [E1 E2]; slots.
Qed.

Lemma confined_setgroups t size l t' r : confined t0 t -> sys_setgroups t size l = (t', r) -> confined t0 t'.
Proof.
  intros Hc H. pose proof (not_root t Hc) as He. unfold sys_setgroups, cred_is_root in H.
  destruct (Z.eqb_spec (euid (t_cred t)) 0); [done|]. by simplify_eq/=.
Qed.

Lemma confined_pledge t m t' r : confined t0 t -> sys_pledge t m = (t', r) -> confined t0 t'.
Proof.
  intros [] H. injection H as <- _. constructor; try done. cbn. unfold pledge_restrict.
  rewrite <- Z.land_assoc, (Z.land_comm (u32 m)), Z.land_assoc. by f_equal.
Qed.

Lemma confined_unveil alloc t path perms t' r : confined t0 t -> sys_unveil alloc t path perms = (t', r) -> confined t0 t'.
Proof.
  intros Hc H. unfold sys_unveil in H. destruct (_ || _) in H; [by simplify_eq|].
  destruct (unveil_add _ _ _ _) as [u r'] eqn:E in H. injection H as <- _.
  destruct Hc as [H1 H2 H3 H4 H5 H6 H7]. constructor; try done. cbn. intros Hl. destruct (H7 Hl) as [He Hlk].
  unfold unveil_add in E. rewrite Hlk in E. by simplify_eq.
Qed.

Lemma confined_fork garbage pid t :
  confined t0 t -> length (supplemental garbage) = 32%nat -> confined t0 (fork_sec true garbage pid t).
Proof.
  intros [H1 H2 H3 H4 H5 H6 H7] Hg. constructor; try done; cbn.
  - rewrite H4, Z.min_l, take_app_le by (try rewrite length_take; lia).
    rewrite take_take, Nat.min_id. by rewrite <- H3, H4.
  - rewrite length_app, length_take, length_drop. lia.
  - intros Hl. destruct (H7 Hl) as [He Hlk]. unfold unveil_copy. destruct (Z.eqb_spec (u_count (t_unveil t)) 0) as [Hz|Hz].
    + cbn. unfold u_count in Hz. rewrite He in Hz. by destruct (u_entries (t_unveil t0)).
    + cbn. done.
Qed.

Lemma confined_step t t' : confined t0 t -> sec_step t t' -> confined t0 t'.
Proof.
  intros Hc Hs. destruct Hs as [| | | | | | | | | | |].
  - by eapply confined_setuid.
  - by eapply confined_seteuid.
  - by eapply confined_setgid.
  - by eapply confined_setegid.
  - by eapply confined_setreuid.
  - by eapply confined_setregid.
  - by eapply confined_setgroups.
  - injection H as <- _. by destruct Hc.
  - by eapply confined_pledge.
  - by eapply confined_unveil.
  - injection H as <- _. destruct Hc as [H1 H2 H3 H4 H5 H6 H7]. constructor; try done. cbn. intros Hl. by destruct (H7 Hl).
  - by apply confined_fork.
Qed.

Lemma confined_rtc t t' : confined t0 t -> rtc sec_step t t' -> confined t0 t'.
Proof. intros Hc. induction 1; eauto using confined_step. Qed.
End confinement.

Lemma confined_refl t : length (supplemental (t_cred t)) = 32%nat -> confined t t.
Proof. intros Hl. constructor; try done. apply Z.land_diag. Qed.
