(* ===== verification/SecurityTheorems.v ===== *)
(** * Security: theorems

    File permission decisions are the POSIX ones; a process without privilege
    stays confined whatever sequence of identity, pledge, unveil and fork calls
    it makes; and the ways around that confinement the kernel leaves open. *)

From S2P Require Import Prelude Errno Cred Pledge Unveil Ksec SecCtx.

(** A user without privilege: uid and gid 1000, one supplemental group. *)
Definition demo_cred : cred := Cred 1000 1000 1000 1000 1000 1000 (27 :: replicate 31 0) 1.

Lemma demo_cred_ok : cred_ok demo_cred.
Proof.
  constructor; unfold is_u32; cbn [demo_cred ruid euid suid rgid egid sgid ngroups supplemental]; try lia; [done|].
  constructor; [lia|]. apply Forall_replicate. lia.
Qed.

(** Only stdio and exec, and nothing visible but "/home". *)
Definition demo_jail : task_sec :=
  TaskSec 7 demo_cred 18 (Z.lor PLEDGE_STDIO PLEDGE_EXEC)
    (UnveilTable [UnveilEntry [47; 104; 111; 109; 101] UNVEIL_READ] 4 true).

(** C22: [vfs_check_perm] never faults and decides exactly as POSIX does: the
    owner's bits for the owner, the group's bits for members of the file's
    group, the other bits for everyone else, all requested bits needed; root
    passes, except for executing a file with no execute bit.  (The inode's uid
    and gid are not the value 0xFFFFFFFF.) *)
Theorem perm_is_posix ip c need :
  cred_ok c -> ip_uid ip <> ACL_WILDCARD -> ip_gid ip <> ACL_WILDCARD ->
  vfs_check_perm ip c need = Some (if posix_access ip c need then 0 else - EACCES).
Proof. apply check_perm_spec. Qed.

Lemma perm_is_posix_witness :
  vfs_check_perm (InodePerm 0 27 416 12 0 0) demo_cred ACL_PERM_READ = Some 0.
Proof.
  rewrite (perm_is_posix (InodePerm 0 27 416 12 0 0) demo_cred ACL_PERM_READ demo_cred_ok); [reflexivity|discriminate|discriminate].
Defined.



(** C24: two calls step outside that confinement.  A child spawned by a pledged,
    unveiled, unprivileged process starts with every system call group and full
    visibility, and with SPAWN_ATTR_CRED it starts as root.  And fork ignores a
    failed copy of the unveil table: when the allocation fails the child sees
    every path, although the table may be locked. *)
Theorem confinement_escapes :
  (let child := spawn_sec true demo_cred 8 demo_jail (Some (SpawnAttr SPAWN_ATTR_CRED 0 0 0 0 [])) in
   cred_is_root (t_cred demo_jail) = false /\ cred_is_root (t_cred child) = true /\
   t_pledge child = PLEDGE_ALL /\
   pledge_gate (t_pledge demo_jail) SYS_SOCKET 2 0 0 = false /\
   pledge_gate (t_pledge demo_jail) SYS_SPAWN 0 0 0 = true /\
   pledge_gate (t_pledge child) SYS_SOCKET 2 0 0 = true /\
   open_unveil_gate (t_unveil demo_jail) [47; 101; 116; 99] 0 = false /\
   open_unveil_gate (t_unveil child) [47; 101; 116; 99] 0 = true) /\
  (forall garbage pid t path need, 0 < u_count (t_unveil t) ->
   t_unveil (fork_sec false garbage pid t) = UnveilTable [] 0 (u_locked (t_unveil t)) /\
   unveil_check (t_unveil (fork_sec false garbage pid t)) path need = true).
Proof.
  split; [vm_compute; repeat split|]. intros garbage pid t path need Hn. unfold fork_sec, unveil_copy. cbn [t_unveil].
  destruct (Z.eqb_spec (u_count (t_unveil t)) 0); [lia|]. done.
Qed.

Lemma confinement_escapes_witness :
  unveil_check (t_unveil demo_jail) [47; 101; 116; 99] UNVEIL_READ = false /\
  unveil_check (t_unveil (fork_sec false demo_cred 9 demo_jail)) [47; 101; 116; 99] UNVEIL_READ = true.
Proof.
  split; [reflexivity|]. apply (proj2 confinement_escapes demo_cred 9 demo_jail [47; 101; 116; 99] UNVEIL_READ). reflexivity.
Defined.

(** ** Pledge *)

Lemma allowed_mono m k g : pledge_allowed (pledge_restrict m k) g = true -> pledge_allowed m g = true.
Proof.
  unfold pledge_allowed, pledge_restrict. rewrite !negb_true_iff, !Z.eqb_neq. intros H H0. apply H.
  rewrite <- Z.land_assoc, (Z.land_comm k), Z.land_assoc, H0. apply Z.land_0_l.
Qed.

Lemma restrict_all m k : 0 <= m < 2 ^ 32 -> pledge_restrict m k = PLEDGE_ALL -> m = PLEDGE_ALL.
Proof.
  unfold pledge_restrict. change PLEDGE_ALL with (Z.ones 32). intros Hm H.
  assert (H1 : Z.land m (Z.ones 32) = m) by (rewrite Z.land_ones by lia; by apply Z.mod_small).
  by rewrite <- H, Z.land_assoc, Z.land_diag, H in H1.
Qed.

(** One test of the gate. *)
Lemma guard_mono (c x y r r' : bool) :
  (x = true -> y = true) -> (r = true -> r' = true) ->
  (if c && negb x then false else r) = true -> (if c && negb y then false else r') = true.
Proof. destruct c, x, y, r, r'; simpl; auto. Qed.

Lemma gate_mono m k nr a1 a2 a3 :
  0 <= m < 2 ^ 32 -> pledge_gate (pledge_restrict m k) nr a1 a2 a3 = true -> pledge_gate m nr a1 a2 a3 = true.
Proof.
  intros Hm. unfold pledge_gate. pose proof (restrict_all m k Hm) as Hall.
  destruct (Z.eqb_spec m PLEDGE_ALL) as [|Hne]; [done|]. cbn [negb].
  destruct (Z.eqb_spec (pledge_restrict m k) PLEDGE_ALL) as [H|_]; [by destruct (Hne (Hall H))|]. cbn [negb].
  assert (Hs : forall g, pledge_allowed (pledge_restrict m k) g = true -> pledge_allowed m g = true)
    by (intros g; apply allowed_mono).
  apply guard_mono; [apply Hs|]. apply guard_mono; [apply Hs|]. rewrite !andb_assoc.
  apply guard_mono; [apply Hs|]. apply guard_mono; [apply Hs|]. by apply guard_mono; [apply Hs|].
Qed.

(** C25: giving up groups never enables a call: a system call that passes the
    pledge gate under a restricted mask passes it under the original mask,
    whatever its number and arguments.  The gate leaves calls open, though, that
    its header assigns to a group: with every group given up, setuid still
    passes (PLEDGE_SETUID), and so does everything submitted through
    io_uring_enter (102); creating a file for writing needs PLEDGE_CPATH only,
    not PLEDGE_WPATH; and a Unix socket needs PLEDGE_INET as well as
    PLEDGE_UNIX. *)
Theorem pledge_gate_groups :
  (forall m k nr a1 a2 a3, 0 <= m < 2 ^ 32 ->
    pledge_gate (pledge_restrict m k) nr a1 a2 a3 = true -> pledge_gate m nr a1 a2 a3 = true) /\
  pledge_gate 0 SYS_SETUID 0 0 0 = true /\ pledge_gate 0 102 0 0 0 = true /\
  pledge_gate 0 SYS_READ 0 0 0 = false /\
  pledge_gate PLEDGE_CPATH SYS_OPEN 0 (Z.lor O_CREAT O_WRONLY) 0 = true /\
  pledge_gate PLEDGE_CPATH SYS_OPEN 0 O_WRONLY 0 = false /\
  pledge_gate PLEDGE_UNIX SYS_SOCKET 1 0 0 = false /\
  pledge_gate (Z.lor PLEDGE_UNIX PLEDGE_INET) SYS_SOCKET 1 0 0 = true.
Proof. split; [apply gate_mono|]. vm_compute. repeat split. Qed.

Lemma pledge_gate_groups_witness :
  pledge_gate (pledge_restrict (t_pledge demo_jail) PLEDGE_STDIO) SYS_READ 0 0 0 = true /\
  pledge_gate (t_pledge demo_jail) SYS_READ 0 0 0 = true.
Proof.
  split; [reflexivity|]. apply (proj1 pledge_gate_groups (t_pledge demo_jail) PLEDGE_STDIO SYS_READ 0 0 0); [vm_compute; split; congruence|].
  reflexivity.
Defined.

(** ** Unveil *)


Lemma view_keys es : (fun e : unveil_entry => (u_path e, u_perms e)) <$> es = zip (u_path <$> es) (u_perms <$> es).
Proof. induction es as [|e es IH]; [done|]. by rewrite !fmap_cons, IH. Qed.

Lemma view_nodup es : NoDup (u_path <$> es) -> NoDup ((fun e => (u_path e, u_perms e)) <$> es).*1.
Proof. by rewrite <- list_fmap_compose. Qed.



Lemma deciding_spec es path e :
  Forall (fun e => c_string (u_path e) /\ s_strlen (u_path e) < UNVEIL_PATH_MAX) es -> c_string path ->
  deciding es path = Some e <-> exists l1 l2, es = l1 ++ e :: l2 /\ below (u_path e) path /\
    forall e', e' ∈ l1 -> ~ below (u_path e') path.
Proof.
  intros Hok Hp. induction Hok as [|e0 es [Hc _] Hok IH]; cbn [deciding].
  { split; [done|]. intros (l1 & l2 & H & _). by destruct l1. }
  pose proof (entry_matches_spec e0 path Hc Hp) as Hm. destruct (entry_matches e0 path).
  - split.
    + intros [= ->]. exists [], es. split; [done|]. split; [by apply Hm|]. intros ? H. by apply not_elem_of_nil in H.
    + intros ([|x l1] & l2 & H & Hb & Hno); simplify_eq/=; [done|]. destruct (Hno x); [by left|by apply Hm].
  - rewrite IH. split.
    + intros (l1 & l2 & -> & Hb & Hno). exists (e0 :: l1), l2. split; [done|]. split; [done|].
      intros e' [->|H]%elem_of_cons; [|by apply Hno]. intros Hb'. by apply Hm in Hb'.
    + intros ([|x l1] & l2 & H & Hb & Hno); simplify_eq/=; [by apply Hm in Hb|].
      exists l1, l2. split; [done|]. split; [done|]. intros e' He'. apply Hno. by right.
Qed.

(** An allowed path lies at or below some entry. *)
Lemma check_entries_below t path need :
  unveil_check t path need = true -> table_ok t -> c_string path -> u_entries t <> [] ->
  exists e, e ∈ u_entries t /\ below (u_path e) path.
Proof.
  intros H [Hok _] Hp Hne. unfold unveil_check, u_count in H.
  destruct (Z.eqb_spec (Z.of_nat (length (u_entries t))) 0) as [Hz|Hz]; [destruct (u_entries t); [done|simpl in Hz; lia]|].
  rewrite check_entries_spec in H. destruct (deciding (u_entries t) path) as [e|] eqn:E; [|done].
  apply deciding_spec in E as (l1 & l2 & -> & Hb & _); [|done|done]. exists e. split; [|done].
  rewrite elem_of_app, elem_of_cons. auto.
Qed.

(** The second half of [unveil_correct]. *)
Lemma unveil_check_correct t path need :
  table_ok t -> c_string path ->
  unveil_check t path need = true <->
  u_entries t = [] \/ exists l1 e l2, u_entries t = l1 ++ e :: l2 /\ below (u_path e) path /\
    (forall e', e' ∈ l1 -> ~ below (u_path e') path) /\ Z.land (u_perms e) need = need.
Proof.
  intros [Hok _] Hp. unfold unveil_check, u_count.
  destruct (Z.eqb_spec (Z.of_nat (length (u_entries t))) 0) as [Hz|Hz].
  { destruct (u_entries t); [|simpl in Hz; lia]. split; [by left|done]. }
  rewrite check_entries_spec. destruct (deciding (u_entries t) path) as [e|] eqn:E.
  - rewrite Z.eqb_eq. pose proof E as (l1 & l2 & He & Hb & Hno)%(deciding_spec _ _ _ Hok Hp). split.
    + intros Hn. right. by exists l1, e, l2.
    + intros [H|(l1' & e' & l2' & He' & Hb' & Hno' & Hn)]; [by rewrite H in Hz|].
      assert (E' : deciding (u_entries t) path = Some e') by (apply deciding_spec; [done|done|]; by exists l1', l2').
      congruence.
  - split; [done|]. intros [H|(l1 & e & l2 & He & Hb & Hno & _)]; [by rewrite H in Hz|].
    assert (E' : deciding (u_entries t) path = Some e) by (apply deciding_spec; [done|done|]; by exists l1, l2). congruence.
Qed.

Lemma unveil_check_correct_witness :
  unveil_check (t_unveil demo_jail) [47; 104; 111; 109; 101; 47; 98] UNVEIL_READ = true.
Proof.
  apply (unveil_check_correct (t_unveil demo_jail) [47; 104; 111; 109; 101; 47; 98] UNVEIL_READ).
  - split; [repeat constructor; lia|apply NoDup_singleton].
  - repeat constructor; lia.
  - right. exists [], (UnveilEntry [47; 104; 111; 109; 101] UNVEIL_READ), []. split; [reflexivity|].
    split; [right; exists [98]; reflexivity|]. split; [|reflexivity]. intros e' H. by apply not_elem_of_nil in H.
Defined.



(** Unveiling "/" hides the whole tree below it: the boundary test looks for a
    slash after the entry, but "/" already ends in one, so only "/" itself
    remains visible. *)
Lemma unveil_root_hides name x :
  c_string (x :: name) -> x <> 47 ->
  let t := fst (unveil_add true unveil_init [47] UNVEIL_READ) in
  unveil_check t [47] UNVEIL_READ = true /\ unveil_check t (47 :: x :: name) UNVEIL_READ = false.
Proof.
  intros Hs Hx t. split; [reflexivity|]. apply not_true_iff_false. intros H.
  apply check_entries_below in H; [|split; [repeat constructor; lia|apply NoDup_singleton]|constructor; [lia|done]|done].
  destruct H as (e & ->%list_elem_of_singleton & Hb). change (below [47] (47 :: x :: name)) in Hb.
  destruct Hb as [H|[r [= H _]]]; [discriminate H|done].
Qed.

(** ** The policy agent's channel *)

(** The agent lets task 2 become root and nobody else. *)
Definition demo_verdict (q : ksec_request) : Z * Z := if q_pid q =? 2 then (0, 0) else (1, 0).
Definition demo_req (pid seq : Z) : ksec_request := KsecRequest seq 3 pid 1000 1000 0.

(** One request begun; the agent answers and the reader matches. *)
Definition served (s : ksec_state) : ksec_state := reader_take (agent_answer demo_verdict s).
Definition begun (s : ksec_state) (pid seq : Z) : ksec_state :=
  fst (request_begin (KsecState (s_agent_ready s) seq (s_pending s) (requests s) (responses s) (callers s))
    pid (demo_req pid seq) true).

Lemma begun_step s pid seq :
  s_agent_ready s = true -> (forall r, callers s !! pid <> Some (Waiting r)) -> seq = ksec_next_seq (s_seq s) ->
  kstep demo_verdict s (begun s pid seq).
Proof.
  intros Ha Hw Hs. eapply (k_begin _ s pid (demo_req pid seq)); [done|done|].
  unfold begun, request_begin. cbn. by rewrite Ha.
Qed.

(** C27: while requests are serialised, every answer a task gets is the agent's
    answer to that task's own request, whatever the interleaving of reader,
    agent and wake-ups.  Two tasks asking at the same time can get each other's
    answer: task 1's request is overwritten in the slot by task 2's; the answer
    to task 1 is discarded, and when task 1 runs again after task 2's answer has
    arrived it returns with that answer, here a grant of uid 0 that the agent
    denied it. *)
Theorem ksec_answers :
  (forall verdict s t req r resp,
    rtc (kstep_serial verdict) ksec_boot s -> callers s !! t = Some (Returned req (r, resp)) ->
    r = 0 /\ resp = answer_to verdict req) /\
  (exists s, rtc (kstep demo_verdict) ksec_boot s /\
    callers s !! 1 = Some (Returned (demo_req 1 1) (0, KsecResponse 2 0 0)) /\
    answer_to demo_verdict (demo_req 1 1) = KsecResponse 1 1 0).
Proof.
  split.
  - intros verdict s t req r resp Hr. destruct (serial_reachable verdict s Hr) as [Ha _]. apply Ha.
  - exists (request_wake (served (served (begun (begun ksec_boot 1 1) 2 2))) 1). split; [|vm_compute; split; reflexivity].
    eapply rtc_l; [apply (begun_step ksec_boot 1 1); [done|intros r; cbn; by rewrite lookup_empty|reflexivity]|].
    eapply rtc_l; [apply (begun_step _ 2 2); [done|intros r; vm_compute; discriminate|reflexivity]|].
    unfold served. do 2 (eapply rtc_l; [apply k_agent|]; eapply rtc_l; [apply k_reader|]). apply rtc_once. apply k_wake.
Qed.

Lemma ksec_answers_witness :
  let s := request_wake (served (begun ksec_boot 1 1)) 1 in
  rtc (kstep_serial demo_verdict) ksec_boot s /\
  answer_to demo_verdict (demo_req 1 1) = KsecResponse 1 1 0.
Proof.
  intros s. assert (Hr : rtc (kstep_serial demo_verdict) ksec_boot s).
  { eapply rtc_l; [eapply (ks_begin _ ksec_boot 1 (demo_req 1 1) (begun ksec_boot 1 1)); [intros t r; cbn; by rewrite lookup_empty|reflexivity|reflexivity]|].
    eapply rtc_l; [apply ks_agent|]. eapply rtc_l; [apply ks_reader|]. apply rtc_once. apply ks_wake. }
  split; [exact Hr|]. symmetry.
  apply (proj1 ksec_answers demo_verdict s 1 (demo_req 1 1) 0 (KsecResponse 1 1 0) Hr). vm_compute. reflexivity.
Defined.
