(* ===== verification/Fd.v ===== *)
(** * Open files and descriptor tables

    Models the file descriptions of kernel/fs/vfs.h, the rights masks of
    kernel/security/rights.h, the descriptor tables of kernel/proc/process.c,
    the descriptor system calls of kernel/syscall/syscall.c and the descriptor
    queue of kernel/net/unix_sock.c.

    A [vfs_file_t] is an entry of the store [files]; tearing it down removes
    the entry, so a use after the release, like an index past the end of a
    table, is a fault ([None]).  [held] lists the references taken by [fdget]
    and not yet dropped.  [mem n] tells whether a table of [n] slots can be
    allocated. *)

From S2P Require Import Prelude Errno.

(** ** Rights *)

Abbreviation RIGHT_READ := 1%Z (only parsing).
Abbreviation RIGHT_WRITE := 2%Z (only parsing).
Abbreviation RIGHT_EXEC := 4%Z (only parsing).
Abbreviation RIGHT_SEEK := 8%Z (only parsing).
Abbreviation RIGHT_POLL := 16%Z (only parsing).
Abbreviation RIGHT_MMAP_R := 32%Z (only parsing).
Abbreviation RIGHT_MMAP_W := 64%Z (only parsing).
Abbreviation RIGHT_MMAP_X := 128%Z (only parsing).
Abbreviation RIGHT_IOCTL := 256%Z (only parsing).
Abbreviation RIGHT_SEND_FD := 512%Z (only parsing).

Definition rights_from_oflags (oflags : Z) (exec_ok : bool) : Z :=
  let r := Z.lor RIGHT_POLL RIGHT_SEEK in
  let acc := Z.land oflags 3 in
  let r := if (acc =? 0) || (acc =? 2) then Z.lor r (Z.lor RIGHT_READ RIGHT_MMAP_R) else r in
  let r := if (acc =? 1) || (acc =? 2) then Z.lor r (Z.lor RIGHT_WRITE RIGHT_MMAP_W) else r in
  let r := if exec_ok then Z.lor r (Z.lor RIGHT_EXEC RIGHT_MMAP_X) else r in
  Z.lor r (Z.lor RIGHT_IOCTL RIGHT_SEND_FD).

Definition rights_restrict (current mask : Z) : Z := Z.land current mask.
Definition rights_check (have need : Z) : bool := Z.land have need =? need.

(** The test of [sys_read] and [sys_write]: a mask of 0 stands for no
    restriction. *)
Definition rights_gate (rights need : Z) : bool := (rights =? 0) || rights_check rights need.

(** ** State *)

Record vfs_file := VFile {
  f_read : bool; f_write : bool;
  f_flags : Z; f_refcount : Z; f_rights : Z;
  f_sock : option Z;
}.

Record fdtable := FdTable { fd_table : list Z; fd_flags : list Z }.
Definition fd_cap (ft : fdtable) : Z := Z.of_nat (length (fd_table ft)).

Record task_files := TaskFiles { tf_ft : fdtable; tf_refs : Z }.

Abbreviation UNIX_ANCILLARY_MAX := 8%Z (only parsing).

Record unix_ancillary := Ancillary {
  anc_files : list Z; anc_rights : list Z;
  anc_head : Z; anc_tail : Z; anc_count : Z;
}.

(** The part of a Unix socket that descriptor passing touches; its name,
    stream buffer, datagrams and backlog are the matter of the files on Unix
    sockets. *)
Record fd_sock := FdSock { k_peer : Z; k_disconnected : bool; k_anc : unix_ancillary; k_file : Z }.

Record fd_state := FdState {
  files : gmap Z vfs_file;
  tables : gmap Z task_files;
  socks : gmap Z fd_sock;
  dying : list Z;
  held : list Z;
}.

Definition with_files (st : fd_state) (m : gmap Z vfs_file) : fd_state :=
  FdState m (tables st) (socks st) (dying st) (held st).
Definition with_tables (st : fd_state) (m : gmap Z task_files) : fd_state :=
  FdState (files st) m (socks st) (dying st) (held st).
Definition with_socks (st : fd_state) (m : gmap Z fd_sock) : fd_state :=
  FdState (files st) (tables st) m (dying st) (held st).
Definition with_dying (st : fd_state) (l : list Z) : fd_state :=
  FdState (files st) (tables st) (socks st) l (held st).
Definition with_held (st : fd_state) (l : list Z) : fd_state :=
  FdState (files st) (tables st) (socks st) (dying st) l.

Definition set_refcount (n : Z) (f : vfs_file) : vfs_file :=
  VFile (f_read f) (f_write f) (f_flags f) n (f_rights f) (f_sock f).
Definition set_rights (r : Z) (f : vfs_file) : vfs_file :=
  VFile (f_read f) (f_write f) (f_flags f) (f_refcount f) r (f_sock f).

(** What a call does: return a value, or stay asleep. *)
Inductive outcome := Ret (r : Z) | Sleeps.

(** ** File descriptions *)

Definition vfs_dup (st : fd_state) (f : Z) : option fd_state :=
  if f =? NULL then Some st
  else
    file ← files st !! f;
    Some (if 0 <? f_refcount file
          then with_files st (<[f := set_refcount (u32 (f_refcount file + 1)) file]> (files st)) else st).

Definition vfs_tryget (st : fd_state) (f : Z) : option (fd_state * Z) :=
  if f =? NULL then Some (st, NULL)
  else
    file ← files st !! f;
    Some (if f_refcount file =? 0 then (st, NULL)
          else (with_files st (<[f := set_refcount (u32 (f_refcount file + 1)) file]> (files st)), f)).

(** The close operation frees the description; that of a Unix socket hands the
    socket to a callback that runs after a grace period. *)
Definition file_close (st : fd_state) (f : Z) (file : vfs_file) : fd_state :=
  let st := with_files st (delete f (files st)) in
  match f_sock file with Some s => with_dying st (dying st ++ [s]) | None => st end.

Definition vfs_close (st : fd_state) (f : Z) : option fd_state :=
  if f =? NULL then Some st
  else
    file ← files st !! f;
    if f_refcount file =? 0 then Some st
    else
      let prev := f_refcount file in
      let st := with_files st (<[f := set_refcount (u32 (prev - 1)) file]> (files st)) in
      if negb (prev =? 1) then Some st else Some (file_close st f file).

(** ** Descriptor tables *)

Abbreviation FD_CLOEXEC := 1%Z (only parsing).

Definition get_slot (ft : fdtable) (fd : Z) : option Z := fd_table ft !! Z.to_nat fd.
Definition set_slot (ft : fdtable) (fd f : Z) : fdtable :=
  FdTable (<[Z.to_nat fd := f]> (fd_table ft)) (fd_flags ft).
Definition set_flag (ft : fdtable) (fd fl : Z) : fdtable :=
  FdTable (fd_table ft) (<[Z.to_nat fd := fl]> (fd_flags ft)).

Section calls.
Context (mem : Z -> bool).

Definition fdtable_alloc (cap : Z) : option fdtable :=
  if mem cap then Some (FdTable (replicate (Z.to_nat cap) NULL) (replicate (Z.to_nat cap) 0)) else None.

(** Copy into a table twice as large; [None] when there is no memory. *)
Definition fd_table_grow (ft : fdtable) : option fdtable :=
  neu ← fdtable_alloc (u32 (fd_cap ft * 2));
  Some (FdTable (fd_table ft ++ drop (length (fd_table ft)) (fd_table neu))
                (fd_flags ft ++ drop (length (fd_flags ft)) (fd_flags neu))).

Inductive slot_result := Slot (ft : fdtable) (fd : Z) | NoSlot.

(** The loop every allocation of a descriptor runs: the first free slot from
    [fd] on, growing the table once when it reaches the end. *)
Fixpoint find_slot (fuel : nat) (ft : fdtable) (fd : Z) : option slot_result :=
  match fuel with
  | O => None
  | S fuel =>
      match (if fd_cap ft <=? fd then fd_table_grow ft else Some ft) with
      | None => Some NoSlot
      | Some ft =>
          f ← get_slot ft fd;
          if f =? NULL then Some (Slot ft fd) else find_slot fuel ft (fd + 1)
      end
  end.

Definition alloc_slot (ft : fdtable) (start : Z) : option slot_result :=
  find_slot (S (length (fd_table ft))) ft start.

Definition with_table (st : fd_state) (t : Z) (ft : fdtable) : fd_state :=
  match tables st !! t with
  | Some tf => with_tables st (<[t := TaskFiles ft (tf_refs tf)]> (tables st))
  | None => st
  end.

(** ** System calls, in the task whose table is [t] *)

(** The end of [sys_open]: the rights and the descriptor of the file [f] that
    the path lookup returned. *)
Definition open_install (st : fd_state) (t f flags : Z) : option (fd_state * outcome) :=
  tf ← tables st !! t;
  file ← files st !! f;
  let file := set_rights (rights_from_oflags (Z.land flags 3) false) file in
  let file := VFile (f_read file) (if Z.land flags 3 =? 0 then false else f_write file)
                (Z.lor (Z.lor (f_flags file) (Z.land flags 0x400)) (Z.land flags 0x800))
                (f_refcount file) (f_rights file) (f_sock file) in
  let st := with_files st (<[f := file]> (files st)) in
  res ← alloc_slot (tf_ft tf) 0;
  match res with
  | NoSlot => st ← vfs_close st f; Some (st, Ret (- ENFILE))
  | Slot ft fd =>
      let ft := set_flag (set_slot ft fd f) fd (if Z.land flags 0x80000 =? 0 then 0 else FD_CLOEXEC) in
      Some (with_table st t ft, Ret fd)
  end.

Definition fd_install (st : fd_state) (t f : Z) : option (fd_state * outcome) :=
  tf ← tables st !! t;
  res ← alloc_slot (tf_ft tf) 3;
  match res with
  | NoSlot => st ← vfs_close st f; Some (st, Ret (- ENFILE))
  | Slot ft fd => Some (with_table st t (set_slot ft fd f), Ret fd)
  end.

Definition fdget (st : fd_state) (t fd : Z) : option (fd_state * Z) :=
  tf ← tables st !! t;
  if fd_cap (tf_ft tf) <=? fd then Some (st, NULL)
  else
    f ← get_slot (tf_ft tf) fd;
    '(st, f) ← vfs_tryget st f;
    Some (if f =? NULL then st else with_held st (f :: held st), f).

Fixpoint remove_one (f : Z) (l : list Z) : list Z :=
  match l with [] => [] | x :: l => if x =? f then l else x :: remove_one f l end.

Definition fdput (st : fd_state) (f : Z) : option fd_state :=
  vfs_close (with_held st (remove_one f (held st))) f.

Definition sys_close (st : fd_state) (t fd : Z) : option (fd_state * outcome) :=
  tf ← tables st !! t;
  if fd_cap (tf_ft tf) <=? fd then Some (st, Ret (- EBADF))
  else
    f ← get_slot (tf_ft tf) fd;
    if f =? NULL then Some (st, Ret (- EBADF))
    else
      st ← vfs_close (with_table st t (set_flag (set_slot (tf_ft tf) fd NULL) fd 0)) f;
      Some (st, Ret 0).

Definition sys_dup (st : fd_state) (t oldfd : Z) : option (fd_state * outcome) :=
  tf ← tables st !! t;
  if fd_cap (tf_ft tf) <=? oldfd then Some (st, Ret (- EBADF))
  else
    f ← get_slot (tf_ft tf) oldfd;
    if f =? NULL then Some (st, Ret (- EBADF))
    else
      res ← alloc_slot (tf_ft tf) 0;
      match res with
      | NoSlot => Some (st, Ret (- ENFILE))
      | Slot ft fd => st ← vfs_dup st f; Some (with_table st t (set_slot ft fd f), Ret fd)
      end.

Fixpoint grow_to (fuel : nat) (ft : fdtable) (fd : Z) : option (option fdtable) :=
  match fuel with
  | O => None
  | S fuel =>
      if fd <? fd_cap ft then Some (Some ft)
      else match fd_table_grow ft with None => Some None | Some ft => grow_to fuel ft fd end
  end.

Definition sys_dup2 (st : fd_state) (t oldfd newfd : Z) : option (fd_state * outcome) :=
  tf ← tables st !! t;
  if fd_cap (tf_ft tf) <=? oldfd then Some (st, Ret (- EBADF))
  else
    f ← get_slot (tf_ft tf) oldfd;
    if f =? NULL then Some (st, Ret (- EBADF))
    else if oldfd =? newfd then Some (st, Ret newfd)
    else
      res ← grow_to 64 (tf_ft tf) newfd;
      match res with
      | None => Some (st, Ret (- ENFILE))
      | Some ft =>
          old ← get_slot ft newfd;
          st ← vfs_dup st f;
          st ← vfs_close (with_table st t (set_flag (set_slot ft newfd f) newfd 0)) old;
          Some (st, Ret newfd)
      end.

(** [sys_pipe] after [pipe_create] returned the ends [r] and [w]. *)
Definition pipe_install (st : fd_state) (t r w : Z) : option (fd_state * outcome) :=
  tf ← tables st !! t;
  let fail st := st ← vfs_close st r; st ← vfs_close st w; Some (st, Ret (- ENFILE)) in
  res ← alloc_slot (tf_ft tf) 0;
  match res with
  | NoSlot => fail st
  | Slot ft rfd =>
      let ft := set_slot ft rfd r in
      res ← alloc_slot ft (rfd + 1);
      match res with
      | NoSlot => fail (with_table st t ft)
      | Slot ft wfd => Some (with_table st t (set_slot ft wfd w), Ret 0)
      end
  end.

(** [F_DUPFD] and [F_DUPFD_CLOEXEC]. *)
Definition fcntl_dupfd (st : fd_state) (t fd arg : Z) (cloexec : bool) : option (fd_state * outcome) :=
  tf ← tables st !! t;
  if fd_cap (tf_ft tf) <=? fd then Some (st, Ret (- EBADF))
  else
    f ← get_slot (tf_ft tf) fd;
    if f =? NULL then Some (st, Ret (- EBADF))
    else
      res ← alloc_slot (tf_ft tf) (u32 arg);
      match res with
      | NoSlot => Some (st, Ret (- EMFILE))
      | Slot ft nfd =>
          st ← vfs_dup st f;
          Some (with_table st t (set_flag (set_slot ft nfd f) nfd (if cloexec then FD_CLOEXEC else 0)), Ret nfd)
      end.

(** [F_GETFD] and [F_SETFD]. *)
Definition fcntl_getfd (st : fd_state) (t fd : Z) : option (fd_state * outcome) :=
  tf ← tables st !! t;
  if fd_cap (tf_ft tf) <=? fd then Some (st, Ret (- EBADF))
  else
    f ← get_slot (tf_ft tf) fd;
    if f =? NULL then Some (st, Ret (- EBADF))
    else r ← fd_flags (tf_ft tf) !! Z.to_nat fd; Some (st, Ret r).

Definition fcntl_setfd (st : fd_state) (t fd arg : Z) : option (fd_state * outcome) :=
  tf ← tables st !! t;
  if fd_cap (tf_ft tf) <=? fd then Some (st, Ret (- EBADF))
  else
    f ← get_slot (tf_ft tf) fd;
    if f =? NULL then Some (st, Ret (- EBADF))
    else Some (with_table st t (set_flag (tf_ft tf) fd (Z.land arg FD_CLOEXEC)), Ret 0).

(** ** Calls on one description: take a reference, act, drop it *)

Definition with_fd (st : fd_state) (t fd : Z)
    (act : fd_state -> Z -> vfs_file -> option (fd_state * outcome)) : option (fd_state * outcome) :=
  '(st, f) ← fdget st t fd;
  if f =? NULL then Some (st, Ret (- EBADF))
  else
    file ← files st !! f;
    '(st, r) ← act st f file;
    st ← fdput st f;
    Some (st, r).

Definition sys_restrict_fd (st : fd_state) (t fd rights_mask : Z) : option (fd_state * outcome) :=
  with_fd st t fd (fun st f file =>
    Some (with_files st (<[f := set_rights (rights_restrict (f_rights file) (u32 rights_mask)) file]> (files st)), Ret 0)).

(** [F_SETFL]. *)
Definition fcntl_setfl (st : fd_state) (t fd arg : Z) : option (fd_state * outcome) :=
  with_fd st t fd (fun st f file =>
    let set b fl := if Z.land arg b =? 0 then Z.land fl (Z.lxor b (2 ^ 32 - 1)) else Z.lor fl b in
    let fl := set 0x800 (set 0x400 (f_flags file)) in
    Some (with_files st (<[f := VFile (f_read file) (f_write file) fl (f_refcount file) (f_rights file) (f_sock file)]> (files st)), Ret 0)).

(** [op f] is the result of the driver's own read or write operation. *)
Definition sys_read (op : Z -> Z) (st : fd_state) (t fd : Z) : option (fd_state * outcome) :=
  with_fd st t fd (fun st f file =>
    if negb (rights_gate (f_rights file) RIGHT_READ) then Some (st, Ret (- EACCES))
    else Some (st, Ret (if f_read file then op f else -1))).

Definition sys_write (op : Z -> Z) (st : fd_state) (t fd : Z) : option (fd_state * outcome) :=
  with_fd st t fd (fun st f file =>
    if negb (f_write file) then Some (st, Ret (- EBADF))
    else if negb (rights_gate (f_rights file) RIGHT_WRITE) then Some (st, Ret (- EACCES))
    else Some (st, Ret (op f))).

(** ** Descriptors over a Unix socket *)

(** [unix_poll_wake] reads the description of the socket it wakes. *)
Definition unix_poll_wake (st : fd_state) (s : Z) : option unit :=
  k ← socks st !! s;
  if k_file k =? NULL then Some tt else _ ← files st !! k_file k; Some tt.

Definition anc_push (a : unix_ancillary) (f rights : Z) : unix_ancillary :=
  Ancillary (<[Z.to_nat (anc_tail a) := f]> (anc_files a)) (<[Z.to_nat (anc_tail a) := rights]> (anc_rights a))
    (anc_head a) ((anc_tail a + 1) mod UNIX_ANCILLARY_MAX) (anc_count a + 1).

Definition unix_sock_sendfd (st : fd_state) (sock : vfs_file) (f rights : Z) : option (fd_state * outcome) :=
  match f_sock sock with
  | None => Some (st, Ret (- EBADF))
  | Some s =>
      k ← socks st !! s;
      if k_peer k =? NULL then Some (st, Ret (- ENOTCONN))
      else
        p ← socks st !! k_peer k;
        if UNIX_ANCILLARY_MAX <=? anc_count (k_anc p) then Some (st, Ret (- ENOBUFS))
        else
          st ← vfs_dup st f;
          file ← files st !! f;
          let st := with_files st (<[f := set_rights rights file]> (files st)) in
          let p := FdSock (k_peer p) (k_disconnected p) (anc_push (k_anc p) f rights) (k_file p) in
          let st := with_socks st (<[k_peer k := p]> (socks st)) in
          _ ← unix_poll_wake st (k_peer k);
          Some (st, Ret 0)
  end.

Definition sys_sendfd (st : fd_state) (t sock_fd target_fd new_rights : Z) : option (fd_state * outcome) :=
  with_fd st t sock_fd (fun st _ sock =>
    match f_sock sock with
    | None => Some (st, Ret (- ENOTSOCK))
    | Some _ =>
        if negb (rights_check (f_rights sock) RIGHT_SEND_FD) then Some (st, Ret (- EPERM))
        else
          with_fd st t target_fd (fun st f target =>
            if negb (Z.land (u32 new_rights) (Z.lxor (f_rights target) (2 ^ 32 - 1)) =? 0) then Some (st, Ret (- EPERM))
            else unix_sock_sendfd st sock f (u32 new_rights))
    end).

Definition anc_pop (a : unix_ancillary) : option (unix_ancillary * Z) :=
  f ← anc_files a !! Z.to_nat (anc_head a);
  Some (Ancillary (<[Z.to_nat (anc_head a) := NULL]> (anc_files a)) (anc_rights a)
          ((anc_head a + 1) mod UNIX_ANCILLARY_MAX) (anc_tail a) (anc_count a - 1), f).

(** The queue is empty and the peer is there: the caller sleeps until it is
    woken; [signal] tells whether a signal ends the sleep. *)
Definition unix_sock_recvfd (st : fd_state) (signal : bool) (s : Z) : option (fd_state * option Z) :=
  k ← socks st !! s;
  if anc_count (k_anc k) =? 0 then
    if k_disconnected k && (k_peer k =? NULL) then Some (st, Some NULL)
    else if signal then Some (st, Some NULL) else Some (st, None)
  else
    '(a, f) ← anc_pop (k_anc k);
    Some (with_socks st (<[s := FdSock (k_peer k) (k_disconnected k) a (k_file k)]> (socks st)), Some f).

Definition sys_recvfd (st : fd_state) (t sock_fd : Z) (signal : bool) : option (fd_state * outcome) :=
  '(st, f) ← fdget st t sock_fd;
  if f =? NULL then Some (st, Ret (- EBADF))
  else
    file ← files st !! f;
    match f_sock file with
    | None => st ← fdput st f; Some (st, Ret (- ENOTSOCK))
    | Some s =>
        '(st, received) ← unix_sock_recvfd st signal s;
        match received with
        | None => st ← fdput st f; Some (st, Sleeps)
        | Some received =>
            st ← fdput st f;
            if received =? NULL then Some (st, Ret (- EAGAIN)) else fd_install st t received
        end
    end.

(** One turn of the loop of [recvmsg] that installs queued descriptors. *)
Definition recvmsg_take (st : fd_state) (t s : Z) : option (fd_state * outcome) :=
  k ← socks st !! s;
  if anc_count (k_anc k) =? 0 then Some (st, Sleeps)
  else
    '(a, f) ← anc_pop (k_anc k);
    let st := with_socks st (<[s := FdSock (k_peer k) (k_disconnected k) a (k_file k)]> (socks st)) in
    '(st, r) ← fd_install st t f;
    match r with
    | Ret fd => if fd <? 0 then st ← vfs_close st f; Some (st, r) else Some (st, r)
    | Sleeps => Some (st, r)
    end.

(** Two connected sockets [sa] and [sb] with descriptions [a] and [b]. *)
Definition empty_anc : unix_ancillary := Ancillary (replicate 8 NULL) (replicate 8 0) 0 0 0.

Definition unix_sock_open (st : fd_state) (f s : Z) : fd_state :=
  with_socks (with_files st (<[f := VFile true true 0 1 0xFFFFFFFF (Some s)]> (files st)))
    (<[s := FdSock NULL false empty_anc f]> (socks st)).

Definition set_peer (p : Z) (k : fd_sock) : fd_sock := FdSock p (k_disconnected k) (k_anc k) (k_file k).

Definition unix_sock_pair (st : fd_state) (a b sa sb : Z) : fd_state :=
  let st := unix_sock_open (unix_sock_open st a sa) b sb in
  with_socks st (alter (set_peer sa) sb (alter (set_peer sb) sa (socks st))).

Definition sys_socketpair (st : fd_state) (t a b sa sb : Z) : option (fd_state * outcome) :=
  let st := unix_sock_pair st a b sa sb in
  '(st, r0) ← fd_install st t a;
  match r0 with
  | Ret fd0 =>
      if fd0 <? 0 then st ← vfs_close st a; st ← vfs_close st b; Some (st, r0)
      else
        '(st, r1) ← fd_install st t b;
        match r1 with
        | Ret fd1 => if fd1 <? 0 then st ← vfs_close st b; Some (st, r1) else Some (st, Ret 0)
        | Sleeps => Some (st, r1)
        end
  | Sleeps => Some (st, r0)
  end.

Fixpoint close_all (st : fd_state) (l : list Z) : option fd_state :=
  match l with
  | [] => Some st
  | f :: l => st ← (if f =? NULL then Some st else vfs_close st f); close_all st l
  end.

(** The [count] entries of the queue from its head. *)
Definition anc_window (a : unix_ancillary) : list Z :=
  (fun i => default NULL (anc_files a !! Z.to_nat ((anc_head a + i) mod UNIX_ANCILLARY_MAX))) <$> seqZ 0 (anc_count a).

(** The callback that tears a socket down after its grace period: it leaves
    the peer, and releases what is still queued. *)
Definition unix_sock_free_rcu (st : fd_state) (s : Z) : option fd_state :=
  k ← socks st !! s;
  let st := with_dying st (remove_one s (dying st)) in
  st ← (if k_peer k =? NULL then Some st
        else
          p ← socks st !! k_peer k;
          let st := with_socks st (<[k_peer k := FdSock NULL true (k_anc p) (k_file p)]> (socks st)) in
          _ ← unix_poll_wake st (k_peer k);
          Some st);
  close_all (with_socks st (delete s (socks st))) (anc_window (k_anc k)).

(** ** Processes *)

(** The copy of the table in [fork]. *)
Fixpoint dup_all (st : fd_state) (l : list Z) : option fd_state :=
  match l with [] => Some st | f :: l => st ← vfs_dup st f; dup_all st l end.

Definition fork_files (st : fd_state) (parent child : Z) : option fd_state :=
  tf ← tables st !! parent;
  _ ← fdtable_alloc (fd_cap (tf_ft tf));
  st ← dup_all st (fd_table (tf_ft tf));
  Some (with_tables st (<[child := TaskFiles (tf_ft tf) 1]> (tables st))).

(** A thread that shares the table. *)
Definition share_files (st : fd_state) (t : Z) : option fd_state :=
  tf ← tables st !! t;
  Some (with_tables st (<[t := TaskFiles (tf_ft tf) (u32 (tf_refs tf + 1))]> (tables st))).

Definition task_files_release (st : fd_state) (t : Z) : option fd_state :=
  tf ← tables st !! t;
  if 0 <? u32 (tf_refs tf - 1) then
    Some (with_tables st (<[t := TaskFiles (tf_ft tf) (u32 (tf_refs tf - 1))]> (tables st)))
  else close_all (with_tables st (delete t (tables st))) (fd_table (tf_ft tf)).

(** The close-on-exec sweep of [sys_exec]; slot [i] and the [n] after it. *)
Fixpoint exec_sweep (st : fd_state) (t : Z) (i : nat) (n : nat) : option fd_state :=
  match n with
  | O => Some st
  | S n =>
      tf ← tables st !! t;
      f ← fd_table (tf_ft tf) !! i;
      fl ← fd_flags (tf_ft tf) !! i;
      st ← (if negb (f =? NULL) && negb (Z.land fl FD_CLOEXEC =? 0) then
              vfs_close (with_table st t (set_flag (set_slot (tf_ft tf) (Z.of_nat i) NULL) (Z.of_nat i) 0)) f
            else Some st);
      exec_sweep st t (S i) n
  end.

Definition exec_files (st : fd_state) (t : Z) : option fd_state :=
  tf ← tables st !! t;
  exec_sweep st t 0 (length (fd_table (tf_ft tf))).
End calls.
