(* ===== verification/FdSpec.v ===== *)
(** * Open files and descriptor tables: the reference-count invariant

    Every reference to a description is a slot of a table, an entry of a
    descriptor queue, or a reference held by a running call; [refs] counts
    them.  The invariant says the stored count is that number.  Lemmas are
    stated with a list [pend] of references that are counted but not yet, or
    no longer, stored anywhere. *)

From S2P Require Import Prelude Errno Fd.

(** ** Counting *)

Fixpoint cnt (f : Z) (l : list Z) : Z :=
  match l with [] => 0 | x :: l => (if x =? f then 1 else 0) + cnt f l end.

Lemma cnt_nonneg f l : 0 <= cnt f l.
Proof. induction l as [|x l IH]; cbn; zbool; lia. Qed.

Lemma cnt_app f l1 l2 : cnt f (l1 ++ l2) = cnt f l1 + cnt f l2.
Proof. induction l1 as [|x l IH]; cbn; lia. Qed.

Lemma cnt_replicate f n : f <> NULL -> cnt f (replicate n NULL) = 0.
Proof. intros Hf. induction n as [|n IH]; cbn [replicate cnt]; [done|].
  rewrite IH. destruct (Z.eqb_spec NULL f); [congruence|lia].
Qed.

Lemma cnt_pos f l : 0 < cnt f l <-> f ∈ l.
Proof.
  induction l as [|x l IH]; cbn; [split; [lia|intros H; by apply not_elem_of_nil in H]|].
  pose proof (cnt_nonneg f l). rewrite elem_of_cons, <- IH. zbool; split; intros; subst; naive_solver lia.
Qed.

Lemma cnt_insert f l i x y :
  l !! i = Some x -> cnt f (<[i := y]> l) = cnt f l - (if x =? f then 1 else 0) + (if y =? f then 1 else 0).
Proof.
  revert i. induction l as [|z l IH]; intros [|i] H; try done.
  - injection H as ->. change (<[0%nat:=y]> (x :: l)) with (y :: l). cbn [cnt]. lia.
  - change (<[S i:=y]> (z :: l)) with (z :: <[i:=y]> l). cbn [cnt]. rewrite (IH i) by done. lia.
Qed.

Lemma cnt_drop_null f l n : f <> NULL -> (forall x, x ∈ l -> x = NULL) -> cnt f (drop n l) = 0.
Proof.
  intros Hf. revert n. induction l as [|z l IH]; intros [|n] Hl; cbn; try done.
  - rewrite (Hl z) by set_solver. change (cnt f l) with (cnt f (drop 0 l)). rewrite IH by set_solver. zbool; lia.
  - apply IH. set_solver.
Qed.

Lemma cnt_remove_one f g l : f ∈ l -> cnt g (remove_one f l) = cnt g l - (if f =? g then 1 else 0).
Proof.
  induction l as [|x l IH]; intros Hf; [by apply not_elem_of_nil in Hf|]. cbn.
  destruct (Z.eqb_spec x f) as [->|Hne]; [lia|]. cbn. rewrite IH by set_solver. lia.
Qed.

(** ** Sums over a map *)

Section msum.
Context {A : Type} (g : A -> Z).

Definition msum (m : gmap Z A) : Z := map_fold (fun _ x a => g x + a) 0 m.

Lemma msum_new m k x : m !! k = None -> msum (<[k := x]> m) = g x + msum m.
Proof. intros H. unfold msum. rewrite map_fold_insert_L; [done| |done]. intros; lia. Qed.

Lemma msum_empty : msum ∅ = 0.
Proof. apply map_fold_empty. Qed.

Lemma msum_delete m k x : m !! k = Some x -> msum (delete k m) = msum m - g x.
Proof.
  intros H. pose proof (msum_new (delete k m) k x (lookup_delete_eq _ _)) as Hs.
  rewrite insert_delete_id in Hs by done. lia.
Qed.

Lemma msum_insert m k x y : m !! k = Some x -> msum (<[k := y]> m) = msum m - g x + g y.
Proof.
  intros H. rewrite <- insert_delete_eq, msum_new by apply lookup_delete_eq.
  rewrite (msum_delete _ _ x) by done. lia.
Qed.

Lemma msum_nonneg m : (forall x, 0 <= g x) -> 0 <= msum m.
Proof.
  intros Hg. induction m as [|k x m Hk IH] using map_ind; [done|].
  rewrite msum_new by done. specialize (Hg x). lia.
Qed.

Lemma msum_elem m k x : (forall x, 0 <= g x) -> m !! k = Some x -> g x <= msum m.
Proof.
  intros Hg H. pose proof (msum_delete m k x H). pose proof (msum_nonneg (delete k m) Hg). lia.
Qed.
End msum.

(** ** The invariant *)

Definition slots (tf : task_files) : list Z := fd_table (tf_ft tf).
Definition queued (k : fd_sock) : list Z := anc_files (k_anc k).

Definition refs (st : fd_state) (f : Z) : Z :=
  msum (fun tf => cnt f (slots tf)) (tables st) + msum (fun k => cnt f (queued k)) (socks st) + cnt f (held st).

Definition tab_ok (ft : fdtable) : Prop :=
  length (fd_flags ft) = length (fd_table ft) /\ 4 <= fd_cap ft < 2 ^ 31.

(** The entry of queue position [i]. *)
Definition in_window (a : unix_ancillary) (i : Z) : Prop := (i - anc_head a) mod 8 < anc_count a.

Record anc_ok (a : unix_ancillary) : Prop := {
  ao_files : length (anc_files a) = 8%nat;
  ao_rights : length (anc_rights a) = 8%nat;
  ao_head : 0 <= anc_head a < 8;
  ao_count : 0 <= anc_count a <= 8;
  ao_tail : anc_tail a = (anc_head a + anc_count a) mod 8;
  ao_entries : forall i x, 0 <= i < 8 -> anc_files a !! Z.to_nat i = Some x -> (x <> NULL <-> in_window a i);
}.

Record fd_inv (st : fd_state) (pend : list Z) : Prop := {
  fi_file : forall f file, files st !! f = Some file ->
    f <> NULL /\ 0 < f_refcount file < 2 ^ 32 /\ f_refcount file = refs st f + cnt f pend;
  fi_live : forall f, f <> NULL -> 0 < refs st f + cnt f pend -> is_Some (files st !! f);
  fi_table : forall t tf, tables st !! t = Some tf -> tab_ok (tf_ft tf) /\ 0 < tf_refs tf < 2 ^ 32;
  fi_sock : forall s k, socks st !! s = Some k -> s <> NULL /\ anc_ok (k_anc k);
  fi_open : forall s k, socks st !! s = Some k -> s ∉ dying st ->
    exists file, files st !! k_file k = Some file /\ f_sock file = Some s;
  fi_ctx : forall f file s, files st !! f = Some file -> f_sock file = Some s ->
    s ∉ dying st /\ exists k, socks st !! s = Some k /\ k_file k = f;
  fi_peer : forall s k, socks st !! s = Some k -> k_peer k <> NULL ->
    k_peer k <> s /\ exists k', socks st !! k_peer k = Some k' /\ k_peer k' = s;
  fi_dying : NoDup (dying st) /\ forall s, s ∈ dying st -> is_Some (socks st !! s);
  fi_held : forall f, f ∈ held st -> f <> NULL;
}.

(** Room for [n] more references to every description. *)
Definition room (n : Z) (st : fd_state) : Prop :=
  forall f file, files st !! f = Some file -> f_refcount file + n < 2 ^ 32.

Lemma refs_nonneg st f : 0 <= refs st f.
Proof.
  unfold refs. pose proof (cnt_nonneg f (held st)).
  pose proof (msum_nonneg (fun tf => cnt f (slots tf)) (tables st) (fun _ => cnt_nonneg _ _)).
  pose proof (msum_nonneg (fun k => cnt f (queued k)) (socks st) (fun _ => cnt_nonneg _ _)). lia.
Qed.

(** [refs] depends on the tables, the queues and the held references only. *)
Lemma refs_with_files st m f : refs (with_files st m) f = refs st f.
Proof. done. Qed.
Lemma refs_with_dying st m f : refs (with_dying st m) f = refs st f.
Proof. done. Qed.

Definition frame (st st' : fd_state) : Prop :=
  tables st' = tables st /\ socks st' = socks st /\ held st' = held st.

Lemma frame_refs st st' f : frame st st' -> refs st' f = refs st f.
Proof. intros (H1 & H2 & H3). unfold refs. by rewrite H1, H2, H3. Qed.

(** A reference somewhere keeps the description alive. *)
Lemma slot_live st pend t tf fd f :
  fd_inv st pend -> tables st !! t = Some tf -> get_slot (tf_ft tf) fd = Some f -> f <> NULL ->
  exists file, files st !! f = Some file.
Proof.
  intros Hi Ht Hg Hf. apply (fi_live _ _ Hi); [done|]. pose proof (cnt_nonneg f pend).
  pose proof (msum_elem (fun tf => cnt f (slots tf)) _ _ _ (fun _ => cnt_nonneg _ _) Ht) as H1. cbn in H1.
  assert (0 < cnt f (slots tf)) by (apply cnt_pos; by eapply list_elem_of_lookup_2).
  pose proof (msum_nonneg (fun k => cnt f (queued k)) (socks st) (fun _ => cnt_nonneg _ _)).
  pose proof (cnt_nonneg f (held st)). unfold refs. lia.
Qed.

Lemma held_live st pend f : fd_inv st pend -> f ∈ held st -> exists file, files st !! f = Some file.
Proof.
  intros Hi Hf. apply (fi_live _ _ Hi); [by apply (fi_held _ _ Hi)|]. apply cnt_pos in Hf.
  pose proof (cnt_nonneg f pend).
  pose proof (msum_nonneg (fun tf => cnt f (slots tf)) (tables st) (fun _ => cnt_nonneg _ _)).
  pose proof (msum_nonneg (fun k => cnt f (queued k)) (socks st) (fun _ => cnt_nonneg _ _)). unfold refs. lia.
Qed.

Lemma pend_live st pend f : fd_inv st pend -> f ∈ pend -> f <> NULL -> exists file, files st !! f = Some file.
Proof.
  intros Hi Hf Hn. apply (fi_live _ _ Hi); [done|]. apply cnt_pos in Hf. pose proof (refs_nonneg st f). lia.
Qed.

(** Pending references count up to order, and NULL ones do not count. *)
Lemma fd_inv_pend st pend pend' :
  fd_inv st pend -> (forall f, f <> NULL -> cnt f pend' = cnt f pend) -> fd_inv st pend'.
Proof.
  intros [H1 H2 H3 H4 H5 H6 H7 H8 H9] He. constructor; try done.
  - intros f file Hf. destruct (H1 _ _ Hf) as (Hn & ? & ?). rewrite He by done. done.
  - intros f Hn. rewrite He by done. by apply H2.
Qed.

(** Changing a description without its count and socket. *)
Lemma fd_inv_file st pend f file file' :
  fd_inv st pend -> files st !! f = Some file ->
  f_refcount file' = f_refcount file -> f_sock file' = f_sock file ->
  fd_inv (with_files st (<[f := file']> (files st))) pend.
Proof.
  intros [H1 H2 H3 H4 H5 H6 H7 H8 H9] Hf Hr Hs. constructor; try done; cbn [files with_files].
  - intros g x. destruct (decide (g = f)) as [->|].
    + rewrite lookup_insert_eq. intros [= <-]. rewrite Hr, refs_with_files. by apply H1.
    + rewrite lookup_insert_ne by done. apply H1.
  - intros g Hn Hg. rewrite lookup_insert_is_Some'. right. by apply H2.
  - intros s k Hk Hd. destruct (H5 _ _ Hk Hd) as (x & Hx & Hxs).
    destruct (decide (k_file k = f)) as [Ef|]; [rewrite Ef in *|].
    + exists file'. rewrite lookup_insert_eq. split; [done|]. congruence.
    + exists x. by rewrite lookup_insert_ne.
  - intros g x s. destruct (decide (g = f)) as [->|].
    + rewrite lookup_insert_eq. intros [= <-] ?. apply (H6 f file); congruence.
    + rewrite lookup_insert_ne by done. apply H6.
Qed.

(** Taking and dropping a reference. *)
Lemma bump_inv st pend f file :
  fd_inv st pend -> files st !! f = Some file -> f_refcount file + 1 < 2 ^ 32 ->
  fd_inv (with_files st (<[f := set_refcount (u32 (f_refcount file + 1)) file]> (files st))) (f :: pend).
Proof.
  intros [H1 H2 H3 H4 H5 H6 H7 H8 H9] Hf Hr. pose proof (H1 _ _ Hf) as (Hn & Hrc & He).
  rewrite u32_id by lia. constructor; try done; cbn [files with_files].
  - intros g x. destruct (decide (g = f)) as [->|].
    + rewrite lookup_insert_eq. intros [= <-]. rewrite refs_with_files. cbn. rewrite Z.eqb_refl. lia.
    + rewrite lookup_insert_ne by done. cbn. intros Hg. rewrite refs_with_files.
      destruct (Z.eqb_spec f g); [congruence|]. by apply H1.
  - intros g Hg Hc. rewrite lookup_insert_is_Some'. destruct (decide (f = g)); [by left|]. right. apply H2; [done|].
    cbn in Hc. destruct (Z.eqb_spec f g); [congruence|]. done.
  - intros s k Hk Hd. destruct (H5 _ _ Hk Hd) as (x & Hx & Hxs).
    destruct (decide (k_file k = f)) as [Ef|]; [rewrite Ef in *|].
    + eexists. rewrite lookup_insert_eq. split; [done|]. cbn. congruence.
    + exists x. by rewrite lookup_insert_ne.
  - intros g x s. destruct (decide (g = f)) as [->|].
    + rewrite lookup_insert_eq. intros [= <-] ?. by apply (H6 f file).
    + rewrite lookup_insert_ne by done. apply H6.
Qed.

Lemma drop_inv st pend f file :
  fd_inv st (f :: pend) -> files st !! f = Some file -> f_refcount file <> 1 ->
  fd_inv (with_files st (<[f := set_refcount (u32 (f_refcount file - 1)) file]> (files st))) pend.
Proof.
  intros [H1 H2 H3 H4 H5 H6 H7 H8 H9] Hf Hr. pose proof (H1 _ _ Hf) as (Hn & Hrc & He). cbn in He.
  rewrite Z.eqb_refl in He. rewrite u32_id by lia. constructor; try done; cbn [files with_files].
  - intros g x. destruct (decide (g = f)) as [->|].
    + rewrite lookup_insert_eq. intros [= <-]. rewrite refs_with_files. cbn. lia.
    + rewrite lookup_insert_ne by done. intros Hg. rewrite refs_with_files. destruct (H1 _ _ Hg) as (? & ? & He').
      cbn in He'. destruct (Z.eqb_spec f g); [congruence|]. done.
  - intros g Hg Hc. rewrite lookup_insert_is_Some'. right. apply H2; [done|]. cbn. rewrite refs_with_files in Hc.
    destruct (Z.eqb_spec f g); lia.
  - intros s k Hk Hd. destruct (H5 _ _ Hk Hd) as (x & Hx & Hxs).
    destruct (decide (k_file k = f)) as [Ef|]; [rewrite Ef in *|].
    + eexists. rewrite lookup_insert_eq. split; [done|]. cbn. congruence.
    + exists x. by rewrite lookup_insert_ne.
  - intros g x s. destruct (decide (g = f)) as [->|].
    + rewrite lookup_insert_eq. intros [= <-] ?. by apply (H6 f file).
    + rewrite lookup_insert_ne by done. apply H6.
Qed.

(** The last reference tears the description down. *)
Lemma last_inv st pend f file :
  fd_inv st (f :: pend) -> files st !! f = Some file -> f_refcount file = 1 ->
  fd_inv (file_close st f file) pend /\ frame st (file_close st f file).
Proof.
  intros [H1 H2 H3 H4 H5 H6 H7 [H8 H8'] H9] Hf Hr. pose proof (H1 _ _ Hf) as (Hn & Hrc & He). cbn in He.
  rewrite Z.eqb_refl in He. pose proof (refs_nonneg st f). pose proof (cnt_nonneg f pend).
  set (st' := file_close st f file).
  assert (Hfr : frame st st') by (unfold st', file_close; by destruct (f_sock file)).
  assert (Hfs : files st' = delete f (files st)) by (unfold st', file_close; by destruct (f_sock file)).
  assert (Hd : forall s, s ∈ dying st' <-> s ∈ dying st \/ f_sock file = Some s).
  { intros s. unfold st', file_close. destruct (f_sock file) as [s'|]; cbn.
    - rewrite elem_of_app, list_elem_of_singleton. naive_solver.
    - naive_solver. }
  assert (HN : NoDup (dying st')).
  { unfold st', file_close. destruct (f_sock file) as [s'|] eqn:Es; cbn; [|done].
    apply NoDup_app. split; [done|]. split; [|apply NoDup_singleton].
    intros x Hx ->%list_elem_of_singleton. by destruct (H6 _ _ _ Hf Es). }
  split; [|done]. destruct Hfr as (F1 & F2 & F3).
  assert (Href : forall g, refs st' g = refs st g) by (intros g; by apply frame_refs).
  constructor; rewrite ?F1, ?F2, ?F3, ?Hfs; try done.
  - intros g x [Hne Hg]%lookup_delete_Some. rewrite Href. destruct (H1 _ _ Hg) as (? & ? & He').
    cbn in He'. destruct (Z.eqb_spec f g); [congruence|]. done.
  - intros g Hg Hc. rewrite Href in Hc. destruct (decide (g = f)) as [->|]; [lia|].
    rewrite lookup_delete_ne by done. apply H2; [done|]. cbn. destruct (Z.eqb_spec f g); lia.
  - intros s k Hk Hs. rewrite Hd in Hs. destruct (H5 s k Hk) as (x & Hx & Hxs); [tauto|].
    exists x. rewrite lookup_delete_ne; [done|]. intros ->. apply Hs. right. congruence.
  - intros g x s [Hne Hg]%lookup_delete_Some Hs. destruct (H6 _ _ _ Hg Hs) as (Hnd & k & Hk & Hkf).
    split; [|by exists k]. rewrite Hd. intros [?|Hfs']; [done|]. destruct (H6 _ _ _ Hf Hfs') as (_ & k' & Hk' & ?).
    congruence.
  - split; [done|]. intros s [Hs|Hs]%Hd; [by apply H8'|]. destruct (H6 _ _ _ Hf Hs) as (_ & k & Hk & _). by exists k.
Qed.

Lemma vfs_close_spec st pend f :
  fd_inv st (f :: pend) -> exists st', vfs_close st f = Some st' /\ fd_inv st' pend /\ frame st st'.
Proof.
  intros Hi. unfold vfs_close. destruct (Z.eqb_spec f NULL) as [->|Hn].
  { exists st. split; [done|]. split; [|done]. apply (fd_inv_pend _ _ _ Hi). intros g Hg. cbn [cnt].
    destruct (Z.eqb_spec NULL g); [congruence|lia]. }
  destruct (pend_live _ _ f Hi) as [file Hf]; [set_solver|done|]. rewrite Hf. cbn [mbind option_bind].
  destruct (fi_file _ _ Hi _ _ Hf) as (_ & Hr & _). destruct (Z.eqb_spec (f_refcount file) 0); [lia|].
  destruct (Z.eqb_spec (f_refcount file) 1) as [E1|E1]; cbn [negb].
  - eexists. split; [done|]. pose proof (last_inv _ _ _ _ Hi Hf E1) as [Hl Hfr].
    assert (Heq : forall st1, file_close (with_files st (<[f:=st1]> (files st))) f file = file_close st f file).
    { intros x. unfold file_close. cbn. rewrite delete_insert_eq. by destruct (f_sock file). }
    by rewrite Heq.
  - eexists. split; [done|]. split; [by apply drop_inv|done].
Qed.

Lemma vfs_dup_spec st pend f file :
  fd_inv st pend -> files st !! f = Some file -> room 1 st ->
  exists st', vfs_dup st f = Some st' /\ fd_inv st' (f :: pend) /\ frame st st' /\ dying st' = dying st /\
    files st' !! f = Some (set_refcount (f_refcount file + 1) file) /\
    (forall g x, files st' !! g = Some x -> exists y, files st !! g = Some y /\ f_refcount x <= f_refcount y + 1).
Proof.
  intros Hi Hf Hroom. unfold vfs_dup. destruct (fi_file _ _ Hi _ _ Hf) as (Hn & Hr & _).
  destruct (Z.eqb_spec f NULL); [done|]. rewrite Hf. cbn [mbind option_bind].
  destruct (Z.ltb_spec 0 (f_refcount file)); [|lia]. specialize (Hroom _ _ Hf).
  eexists. split; [done|]. split; [by apply bump_inv|]. split; [done|]. split; [done|]. cbn [files with_files].
  rewrite lookup_insert_eq, u32_id by lia. split; [done|].
  intros g x. destruct (decide (g = f)) as [->|].
  - rewrite lookup_insert_eq. intros [= <-]. exists file. cbn. split; [done|lia].
  - rewrite lookup_insert_ne by done. intros. exists x. split; [done|lia].
Qed.

(** ** Tables *)

(** Replacing the table [tf] by one with the same references, up to [pend]. *)
Lemma table_inv st pend pend' t tf ft :
  fd_inv st pend -> tables st !! t = Some tf -> tab_ok ft ->
  (forall f, f <> NULL -> cnt f (fd_table ft) + cnt f pend' = cnt f (slots tf) + cnt f pend) ->
  fd_inv (with_table st t ft) pend'.
Proof.
  intros [H1 H2 H3 H4 H5 H6 H7 H8 H9] Ht Hok Hc. unfold with_table. rewrite Ht.
  set (st' := with_tables _ _).
  assert (Hr : forall f, f <> NULL -> refs st' f + cnt f pend' = refs st f + cnt f pend).
  { intros f Hf. unfold refs, st'. cbn [tables socks held with_tables].
    rewrite (msum_insert _ _ _ tf) by done. cbn [slots tf_ft]. specialize (Hc f Hf). unfold slots in *. cbn. lia. }
  constructor; try done.
  - intros f file Hf. destruct (H1 _ _ Hf) as (? & ? & ?). rewrite Hr by done. done.
  - intros f Hf. rewrite Hr by done. by apply H2.
  - intros t' tf'. unfold st'. cbn [tables with_tables]. destruct (decide (t' = t)) as [->|].
    + rewrite lookup_insert_eq. intros [= <-]. split; [done|]. by apply (H3 t tf).
    + rewrite lookup_insert_ne by done. apply H3.
Qed.

Lemma tab_ok_slot ft fd f : tab_ok ft -> tab_ok (set_slot ft fd f).
Proof. unfold tab_ok, set_slot, fd_cap. cbn. by rewrite length_insert. Qed.
Lemma tab_ok_flag ft fd f : tab_ok ft -> tab_ok (set_flag ft fd f).
Proof. unfold tab_ok, set_flag, fd_cap. cbn. by rewrite length_insert. Qed.

(** Storing [f] in a slot that held [old] moves one reference each way. *)
Lemma set_slot_cnt ft fd old f g :
  get_slot ft fd = Some old ->
  cnt g (fd_table (set_slot ft fd f)) + cnt g [old] = cnt g (fd_table ft) + cnt g [f].
Proof. intros H. unfold set_slot. cbn. rewrite (cnt_insert _ _ _ old) by done. lia. Qed.

(** ** Free descriptors *)

Section slots.
Context (mem : Z -> bool).
(** No table reaches 2^31 slots: it would take 16 GiB in one block. *)
Hypothesis mem_bound : forall c, mem c = true -> c < 2 ^ 31.

Lemma fd_grow_spec ft : tab_ok ft ->
  match fd_table_grow mem ft with
  | Some ft' =>
      tab_ok ft' /\ fd_cap ft' = 2 * fd_cap ft /\
      (forall i x, get_slot ft i = Some x -> get_slot ft' i = Some x) /\
      (forall i, fd_cap ft <= i < 2 * fd_cap ft -> get_slot ft' i = Some NULL) /\
      (forall f, f <> NULL -> cnt f (fd_table ft') = cnt f (fd_table ft)) /\ mem (2 * fd_cap ft) = true
  | None => mem (2 * fd_cap ft) = false
  end.
Proof.
  intros [Hl Hc]. unfold fd_table_grow, fdtable_alloc. rewrite u32_id by lia.
  replace (fd_cap ft * 2) with (2 * fd_cap ft) by lia.
  destruct (mem (2 * fd_cap ft)) eqn:Em; [|done]. cbn [mbind option_bind fd_table fd_flags].
  pose proof (mem_bound _ Em). set (ft' := FdTable _ _).
  assert (Hc' : fd_cap ft' = 2 * fd_cap ft).
  { unfold ft', fd_cap. cbn. rewrite length_app, length_drop, length_replicate. lia. }
  split; [split|split; [done|split; [|split; [|split; [|done]]]]].
  - unfold ft'. cbn. rewrite !length_app, !length_drop, !length_replicate. lia.
  - rewrite Hc'. lia.
  - intros i x Hi. unfold get_slot, ft' in *. cbn. rewrite lookup_app_l; [done|]. by eapply lookup_lt_Some.
  - intros i Hi. unfold get_slot, ft', fd_cap in *. cbn. rewrite lookup_app_r by lia.
    rewrite lookup_drop. apply lookup_replicate. split; [done|]. lia.
  - intros f Hf. unfold ft'. cbn. rewrite cnt_app, cnt_drop_null; [lia|done|].
    intros x [-> _]%elem_of_replicate. done.
Qed.

Record slot_found (ft : fdtable) (start : Z) (ft' : fdtable) (fd : Z) : Prop := {
  sf_ok : tab_ok ft';
  sf_free : get_slot ft' fd = Some NULL;
  sf_from : start <= fd;
  sf_cnt : forall f, f <> NULL -> cnt f (fd_table ft') = cnt f (fd_table ft);
  sf_keep : forall i x, get_slot ft i = Some x -> get_slot ft' i = Some x;
  sf_least : forall i, start <= i < fd -> exists x, get_slot ft' i = Some x /\ x <> NULL;
  sf_cap : fd_cap ft' = fd_cap ft \/ fd_cap ft' = 2 * fd_cap ft /\ mem (2 * fd_cap ft) = true;
}.

Lemma get_slot_some ft i : 0 <= i < fd_cap ft -> exists x, get_slot ft i = Some x.
Proof. intros H. apply lookup_lt_is_Some. unfold fd_cap in H. lia. Qed.

Lemma find_slot_spec ft start : tab_ok ft -> forall fuel fd,
  0 <= start <= fd -> fd < 2 * fd_cap ft -> (fd <= fd_cap ft \/ fd = start) -> fd_cap ft - fd < Z.of_nat fuel ->
  (0 < fuel)%nat ->
  (forall i, start <= i < fd -> exists x, get_slot ft i = Some x /\ x <> NULL) ->
  find_slot mem fuel ft fd = Some NoSlot /\ mem (2 * fd_cap ft) = false \/
  exists ft' fd', find_slot mem fuel ft fd = Some (Slot ft' fd') /\ slot_found ft start ft' fd'.
Proof.
  intros Hok fuel. induction fuel as [|fuel IH]; intros fd Hs H2 He Hf Hp Hl; [lia|]. cbn [find_slot].
  destruct (Z.leb_spec (fd_cap ft) fd) as [Hge|Hlt].
  - pose proof (fd_grow_spec ft Hok) as Hg. destruct (fd_table_grow mem ft) as [ft1|]; [|by left]. right.
    destruct Hg as (G1 & G2 & G3 & G4 & G5 & G6). rewrite G4 by lia. cbn. do 2 eexists. split; [done|].
    constructor; try done; [by apply G4|lia| |by right].
    intros i Hi. destruct He as [He| ->]; [|lia]. destruct (Hl i) as (x & Hx & ?); [lia|]. exists x. by rewrite (G3 i x).
  - destruct (get_slot_some ft fd) as [f Hg]; [lia|]. rewrite Hg. cbn [mbind option_bind].
    destruct (Z.eqb_spec f NULL) as [->|Hn].
    + right. do 2 eexists. split; [done|]. constructor; try done; [lia|by left].
    + apply IH; try lia.
      intros i Hi. destruct (decide (i = fd)) as [->|]; [by exists f|]. apply Hl. lia.
Qed.

(** The loop ends, with the lowest free descriptor, or without memory. *)
Lemma alloc_slot_spec ft start : tab_ok ft -> 0 <= start < 2 * fd_cap ft ->
  alloc_slot mem ft start = Some NoSlot /\ mem (2 * fd_cap ft) = false \/
  exists ft' fd, alloc_slot mem ft start = Some (Slot ft' fd) /\ slot_found ft start ft' fd.
Proof.
  intros Hok Hs. apply find_slot_spec; first done; unfold fd_cap in *; lia.
Qed.

Lemma grow_to_spec fd : forall fuel ft, tab_ok ft -> 0 <= fd -> 2 ^ 31 <= fd_cap ft * 2 ^ Z.of_nat fuel ->
  grow_to mem (S fuel) ft fd = Some None \/
  exists ft', grow_to mem (S fuel) ft fd = Some (Some ft') /\ tab_ok ft' /\ fd < fd_cap ft' /\
    (forall i x, get_slot ft i = Some x -> get_slot ft' i = Some x) /\
    forall f, f <> NULL -> cnt f (fd_table ft') = cnt f (fd_table ft).
Proof.
  intros fuel. induction fuel as [|fuel IH]; intros ft Hok Hfd Hb.
  - destruct Hok. change (2 ^ Z.of_nat 0) with 1 in Hb. lia.
  - remember (S fuel) as n. cbn [grow_to]. destruct (Z.ltb_spec fd (fd_cap ft)).
    { right. exists ft. done. }
    pose proof (fd_grow_spec ft Hok) as Hg. destruct (fd_table_grow mem ft) as [ft1|]; [|by left].
    destruct Hg as (G1 & G2 & G3 & G4 & G5 & G6). subst n.
    destruct (IH ft1 G1 Hfd) as [Hn|(ft' & E & K1 & K2 & K3 & K4)].
    { rewrite G2. replace (Z.of_nat (S fuel)) with (Z.of_nat fuel + 1) in Hb by lia.
      rewrite Z.pow_add_r in Hb by lia. lia. }
    + by left.
    + right. exists ft'. split; [done|]. split_and!; [done..| |].
      * intros i x Hi. by apply K3, G3.
      * intros f Hf. rewrite K4, G5; done.
Qed.
End slots.
