(* ===== verification/FdOps.v ===== *)
(** * Open files and descriptor tables: the calls keep the invariant

    Each call, in a state where every count is right and with room for the
    references it takes, returns without a fault in a state where every count
    is right again. *)

From S2P Require Import Prelude Errno Fd FdSpec.

Definition good (pend : list Z) (m : option (fd_state * outcome)) : Prop :=
  exists st' r, m = Some (st', r) /\ fd_inv st' pend.

Lemma good_ret st pend r : fd_inv st pend -> good pend (Some (st, r)).
Proof. intros H. by exists st, r. Qed.
#[local] Hint Resolve good_ret : core.

(** ** Held references *)

Lemma hold_inv st pend f : f <> NULL -> fd_inv st (f :: pend) -> fd_inv (with_held st (f :: held st)) pend.
Proof.
  intros Hf [H1 H2 H3 H4 H5 H6 H7 H8 H9].
  assert (Hr : forall g, refs (with_held st (f :: held st)) g + cnt g pend = refs st g + cnt g (f :: pend)).
  { intros g. unfold refs. cbn [tables socks held with_held cnt]. lia. }
  constructor; try done; cbn [held with_held].
  - intros g file Hg. rewrite Hr. by apply H1.
  - intros g. rewrite Hr. apply H2.
  - intros g [->|Hg]%elem_of_cons; [done|]. by apply H9.
Qed.

Lemma unhold_inv st pend f : f ∈ held st -> fd_inv st pend -> fd_inv (with_held st (remove_one f (held st))) (f :: pend).
Proof.
  intros Hf [H1 H2 H3 H4 H5 H6 H7 H8 H9].
  assert (Hr : forall g, refs (with_held st (remove_one f (held st))) g + cnt g (f :: pend) = refs st g + cnt g pend).
  { intros g. unfold refs. cbn [tables socks held with_held cnt]. rewrite cnt_remove_one by done. lia. }
  constructor; try done; cbn [held with_held].
  - intros g file Hg. rewrite Hr. by apply H1.
  - intros g. rewrite Hr. apply H2.
  - intros g Hg. apply H9. apply cnt_pos. apply cnt_pos in Hg. rewrite cnt_remove_one in Hg by done.
    destruct (f =? g); lia.
Qed.

Lemma room_weaken m n st : n <= m -> room m st -> room n st.
Proof. intros H Hr f file Hf. specialize (Hr f file Hf). lia. Qed.

(** The state in which a call acts on the description [f] of a descriptor. *)
Record got (st st1 : fd_state) (pend : list Z) (f : Z) (file : vfs_file) : Prop := {
  g_null : f <> NULL;
  g_inv : fd_inv st1 pend;
  g_file : files st1 !! f = Some file;
  g_held : held st1 = f :: held st;
  g_same : tables st1 = tables st /\ socks st1 = socks st /\ dying st1 = dying st;
  g_room : forall k, room (k + 1) st -> room k st1;
  g_orig : exists file0, files st !! f = Some file0 /\ file = set_refcount (f_refcount file0 + 1) file0;
}.

Lemma fdget_spec st pend t tf fd :
  fd_inv st pend -> tables st !! t = Some tf -> 0 <= fd -> room 1 st ->
  fdget st t fd = Some (st, NULL) \/
  exists st1 f file, fdget st t fd = Some (st1, f) /\ get_slot (tf_ft tf) fd = Some f /\ got st st1 pend f file.
Proof.
  intros Hi Ht Hfd Hroom. unfold fdget. rewrite Ht. cbn [mbind option_bind].
  destruct (Z.leb_spec (fd_cap (tf_ft tf)) fd); [by left|].
  destruct (get_slot_some (tf_ft tf) fd) as [f Hg]; [lia|]. rewrite Hg. cbn [mbind option_bind].
  unfold vfs_tryget. destruct (Z.eqb_spec f NULL) as [->|Hn]; [by left|].
  destruct (slot_live _ _ _ _ _ _ Hi Ht Hg Hn) as [file Hf]. rewrite Hf. cbn [mbind option_bind].
  destruct (fi_file _ _ Hi _ _ Hf) as (_ & Hr & _). destruct (Z.eqb_spec (f_refcount file) 0); [lia|].
  right. destruct (Z.eqb_spec f NULL); [done|]. do 3 eexists. split; [done|]. split; [done|].
  pose proof (Hroom _ _ Hf). constructor; try done.
  - apply (hold_inv _ _ f); [done|]. by apply bump_inv.
  - cbn. by rewrite lookup_insert_eq.
  - intros k Hk g x. cbn. destruct (decide (g = f)) as [->|].
    + rewrite lookup_insert_eq. intros [= <-]. specialize (Hk _ _ Hf). cbn. rewrite u32_id by lia. lia.
    + rewrite lookup_insert_ne by done. intros Hg'. specialize (Hk _ _ Hg'). lia.
  - exists file. by rewrite u32_id by lia.
Qed.

Lemma fdput_spec st pend f :
  fd_inv st pend -> f ∈ held st ->
  exists st', fdput st f = Some st' /\ fd_inv st' pend /\ tables st' = tables st /\ socks st' = socks st /\
    held st' = remove_one f (held st).
Proof.
  intros Hi Hf. unfold fdput. destruct (vfs_close_spec _ _ _ (unhold_inv _ _ _ Hf Hi)) as (st' & E & Hi' & F1 & F2 & F3).
  exists st'. done.
Qed.

Lemma remove_one_head f l : remove_one f (f :: l) = l.
Proof. cbn. by rewrite Z.eqb_refl. Qed.

(** A call on one description: it suffices that the action keeps the
    invariant and the held references. *)
Lemma with_fd_spec st pend t tf fd act :
  fd_inv st pend -> tables st !! t = Some tf -> 0 <= fd -> room 1 st ->
  (forall st1 f file, got st st1 pend f file -> get_slot (tf_ft tf) fd = Some f ->
     exists st2 r, act st1 f file = Some (st2, r) /\ fd_inv st2 pend /\ held st2 = held st1) ->
  exists st2 r, with_fd st t fd act = Some (st2, r) /\ fd_inv st2 pend /\ held st2 = held st.
Proof.
  intros Hi Ht Hfd Hr Hact. unfold with_fd.
  destruct (fdget_spec _ _ _ _ _ Hi Ht Hfd Hr) as [E|(st1 & f & file & E & Hs & Hg)]; rewrite E; cbn [mbind option_bind].
  { cbn. by do 2 eexists. }
  destruct (Z.eqb_spec f NULL) as [->|Hn]; [by destruct (g_null _ _ _ _ _ Hg)|].
  rewrite (g_file _ _ _ _ _ Hg). cbn [mbind option_bind].
  destruct (Hact _ _ _ Hg Hs) as (st2 & r & E2 & Hi2 & Hh). rewrite E2. cbn [mbind option_bind].
  rewrite (g_held _ _ _ _ _ Hg) in Hh.
  destruct (fdput_spec st2 pend f Hi2) as (st3 & E3 & Hi3 & _ & _ & Hh3); [rewrite Hh; set_solver|].
  rewrite E3. cbn. do 2 eexists. split; [done|]. split; [done|]. by rewrite Hh3, Hh, remove_one_head.
Qed.

Section ops.
Context (mem : Z -> bool).
Hypothesis mem_bound : forall c, mem c = true -> c < 2 ^ 31.

(** ** Installing a description *)

Lemma place_inv st pend t tf start ft' fd f ft :
  fd_inv st (f :: pend) -> tables st !! t = Some tf -> slot_found mem (tf_ft tf) start ft' fd ->
  fd_table ft = fd_table (set_slot ft' fd f) -> length (fd_flags ft) = length (fd_flags ft') ->
  fd_inv (with_table st t ft) pend.
Proof.
  intros Hi Ht [K1 K2 K3 K4 K5 K6 K7] Hft Hfl. eapply table_inv; [done..| |].
  - unfold tab_ok, fd_cap in *. rewrite Hft, Hfl. unfold set_slot. cbn. by rewrite length_insert.
  - intros g Hg. pose proof (set_slot_cnt ft' fd NULL f g K2) as Hc. rewrite <- Hft, K4 in Hc by done.
    cbn [cnt] in *. destruct (Z.eqb_spec NULL g); [congruence|]. unfold slots. lia.
Qed.

Lemma start3 ft : tab_ok ft -> 0 <= 3 < 2 * fd_cap ft.
Proof. intros [_ H]. lia. Qed.
Lemma start0 ft : tab_ok ft -> 0 <= 0 < 2 * fd_cap ft.
Proof. intros [_ H]. lia. Qed.

Lemma fd_install_good st pend t tf f :
  fd_inv st (f :: pend) -> tables st !! t = Some tf -> good pend (fd_install mem st t f).
Proof.
  intros Hi Ht. unfold fd_install. rewrite Ht. cbn [mbind option_bind].
  destruct (fi_table _ _ Hi _ _ Ht) as [Hok _].
  destruct (alloc_slot_spec mem mem_bound (tf_ft tf) 3 Hok (start3 _ Hok)) as [[E _]|(ft' & fd & E & Hs)]; rewrite E; cbn [mbind option_bind].
  - destruct (vfs_close_spec _ _ _ Hi) as (st' & Ec & Hi' & _). rewrite Ec. by apply good_ret.
  - apply good_ret. by eapply place_inv.
Qed.

Lemma open_install_good st pend t tf f file flags :
  fd_inv st (f :: pend) -> tables st !! t = Some tf -> files st !! f = Some file ->
  good pend (open_install mem st t f flags).
Proof.
  intros Hi Ht Hf. unfold open_install. rewrite Ht, Hf. cbn [mbind option_bind].
  destruct (fi_table _ _ Hi _ _ Ht) as [Hok _].
  set (st1 := with_files st _). assert (Hi1 : fd_inv st1 (f :: pend)) by by eapply fd_inv_file.
  destruct (alloc_slot_spec mem mem_bound (tf_ft tf) 0 Hok (start0 _ Hok)) as [[E _]|(ft' & fd & E & Hs)]; rewrite E; cbn [mbind option_bind].
  - destruct (vfs_close_spec _ _ _ Hi1) as (st' & Ec & Hi' & _). rewrite Ec. by apply good_ret.
  - apply good_ret. eapply place_inv; [done..|]. cbn. by rewrite length_insert.
Qed.

(** ** Closing and duplicating *)

Lemma clear_inv st pend t tf fd f ft :
  fd_inv st pend -> tables st !! t = Some tf -> get_slot (tf_ft tf) fd = Some f -> 
  fd_table ft = fd_table (set_slot (tf_ft tf) fd NULL) -> length (fd_flags ft) = length (fd_flags (tf_ft tf)) ->
  fd_inv (with_table st t ft) (f :: pend).
Proof.
  intros Hi Ht Hg Hft Hfl. destruct (fi_table _ _ Hi _ _ Ht) as [Hok _]. eapply table_inv; [done..| |].
  - unfold tab_ok, fd_cap in *. rewrite Hft, Hfl. unfold set_slot. cbn. by rewrite length_insert.
  - intros g Hn. pose proof (set_slot_cnt (tf_ft tf) fd f NULL g Hg) as Hc. rewrite <- Hft in Hc.
    cbn [cnt] in *. destruct (Z.eqb_spec NULL g); [congruence|]. unfold slots. lia.
Qed.

Lemma sys_close_good st pend t tf fd :
  fd_inv st pend -> tables st !! t = Some tf -> 0 <= fd -> good pend (sys_close st t fd).
Proof.
  intros Hi Ht Hfd. unfold sys_close. rewrite Ht. cbn [mbind option_bind].
  destruct (Z.leb_spec (fd_cap (tf_ft tf)) fd); [auto|].
  destruct (get_slot_some (tf_ft tf) fd) as [f Hg]; [lia|]. rewrite Hg. cbn [mbind option_bind].
  destruct (f =? NULL); [auto|].
  set (ft := set_flag _ _ _).
  assert (Hi1 : fd_inv (with_table st t ft) (f :: pend)).
  { eapply clear_inv; [done..|]. unfold ft. cbn. by rewrite length_insert. }
  destruct (vfs_close_spec _ _ _ Hi1) as (st' & Ec & Hi' & _). rewrite Ec. by apply good_ret.
Qed.

(** The shared body of [dup] and [F_DUPFD]. *)
Lemma dup_into st pend t tf f start ft' fd ft :
  fd_inv st pend -> room 1 st -> tables st !! t = Some tf -> (exists file, files st !! f = Some file) ->
  slot_found mem (tf_ft tf) start ft' fd ->
  fd_table ft = fd_table (set_slot ft' fd f) -> length (fd_flags ft) = length (fd_flags ft') ->
  exists st', vfs_dup st f = Some st' /\ fd_inv (with_table st' t ft) pend.
Proof.
  intros Hi Hr Ht [file Hf] Hs H1 H2. destruct (vfs_dup_spec _ _ _ _ Hi Hf Hr) as (st' & E & Hi' & (F & _) & _).
  exists st'. split; [done|]. eapply place_inv; [done|by rewrite F|done|done|done].
Qed.

Lemma sys_dup_good st pend t tf fd :
  fd_inv st pend -> room 1 st -> tables st !! t = Some tf -> 0 <= fd -> good pend (sys_dup mem st t fd).
Proof.
  intros Hi Hr Ht Hfd. unfold sys_dup. rewrite Ht. cbn [mbind option_bind].
  destruct (fi_table _ _ Hi _ _ Ht) as [Hok _].
  destruct (Z.leb_spec (fd_cap (tf_ft tf)) fd); [auto|].
  destruct (get_slot_some (tf_ft tf) fd) as [f Hg]; [lia|]. rewrite Hg. cbn [mbind option_bind].
  destruct (Z.eqb_spec f NULL); [auto|].
  destruct (alloc_slot_spec mem mem_bound (tf_ft tf) 0 Hok (start0 _ Hok)) as [[E _]|(ft' & nfd & E & Hs)]; rewrite E; cbn [mbind option_bind]; [auto|].
  destruct (dup_into st pend t tf f 0 ft' nfd (set_slot ft' nfd f)) as (st' & E' & Hi'); [done|done|done|by eapply slot_live|done|done|done|].
  rewrite E'. by apply good_ret.
Qed.

Lemma fcntl_dupfd_good st pend t tf fd arg cloexec :
  fd_inv st pend -> room 1 st -> tables st !! t = Some tf -> 0 <= fd -> u32 arg < 2 * fd_cap (tf_ft tf) ->
  good pend (fcntl_dupfd mem st t fd arg cloexec).
Proof.
  intros Hi Hr Ht Hfd Ha. unfold fcntl_dupfd. rewrite Ht. cbn [mbind option_bind].
  destruct (fi_table _ _ Hi _ _ Ht) as [Hok _]. pose proof (u32_range arg).
  destruct (Z.leb_spec (fd_cap (tf_ft tf)) fd); [auto|].
  destruct (get_slot_some (tf_ft tf) fd) as [f Hg]; [lia|]. rewrite Hg. cbn [mbind option_bind].
  destruct (Z.eqb_spec f NULL); [auto|].
  destruct (alloc_slot_spec mem mem_bound (tf_ft tf) (u32 arg) Hok) as [[E _]|(ft' & nfd & E & Hs)]; [lia| |]; rewrite E; cbn [mbind option_bind]; [auto|].
  destruct (dup_into st pend t tf f (u32 arg) ft' nfd (set_flag (set_slot ft' nfd f) nfd (if cloexec then 1 else 0)))
    as (st' & E' & Hi'); [done|done|done|by eapply slot_live|done|done|cbn; by rewrite length_insert|].
  rewrite E'. by apply good_ret.
Qed.

Lemma sys_dup2_good st pend t tf oldfd newfd :
  fd_inv st pend -> room 1 st -> tables st !! t = Some tf -> 0 <= oldfd -> 0 <= newfd ->
  good pend (sys_dup2 mem st t oldfd newfd).
Proof.
  intros Hi Hr Ht Hfd Hnfd. unfold sys_dup2. rewrite Ht. cbn [mbind option_bind].
  destruct (fi_table _ _ Hi _ _ Ht) as [Hok _].
  destruct (Z.leb_spec (fd_cap (tf_ft tf)) oldfd); [auto|].
  destruct (get_slot_some (tf_ft tf) oldfd) as [f Hg]; [lia|]. rewrite Hg. cbn [mbind option_bind].
  destruct (Z.eqb_spec f NULL) as [|Hn]; [auto|]. destruct (oldfd =? newfd); [auto|].
  destruct (slot_live _ _ _ _ _ _ Hi Ht Hg Hn) as [file Hf].
  destruct (grow_to_spec mem mem_bound newfd 63 (tf_ft tf) Hok Hnfd) as [E|(ft & E & K1 & K2 & K3 & K4)].
  { destruct Hok. lia. }
  - rewrite E. cbn [mbind option_bind]. auto.
  - rewrite E. cbn [mbind option_bind].
    destruct (get_slot_some ft newfd) as [old Ho]; [lia|]. rewrite Ho. cbn [mbind option_bind].
    destruct (vfs_dup_spec _ _ _ _ Hi Hf Hr) as (st1 & E1 & Hi1 & (F & _) & _). rewrite E1. cbn [mbind option_bind].
    set (ft2 := set_flag _ _ _).
    assert (Hi2 : fd_inv (with_table st1 t ft2) (old :: pend)).
    { eapply table_inv; [exact Hi1|by rewrite F|by apply tab_ok_flag, tab_ok_slot|].
      intros g Hgn. pose proof (set_slot_cnt ft newfd old f g Ho). unfold slots. rewrite <- (K4 g) by done.
      unfold ft2, set_flag. cbn [fd_table cnt] in *. lia. }
    destruct (vfs_close_spec _ _ _ Hi2) as (st3 & E3 & Hi3 & _). rewrite E3. by apply good_ret.
Qed.

(** Memory for the two growths a pair of descriptors can take. *)
Definition mem_for (ft : fdtable) : Prop := mem (2 * fd_cap ft) = true /\ mem (4 * fd_cap ft) = true.

Lemma with_table_lookup st t tf ft :
  tables st !! t = Some tf -> tables (with_table st t ft) !! t = Some (TaskFiles ft (tf_refs tf)).
Proof. intros H. unfold with_table. rewrite H. cbn. by rewrite lookup_insert_eq. Qed.

Lemma with_table_twice st t tf ft ft' :
  tables st !! t = Some tf -> with_table (with_table st t ft) t ft' = with_table st t ft'.
Proof.
  intros H. unfold with_table at 1. rewrite (with_table_lookup _ _ tf) by done. unfold with_table. rewrite H.
  unfold with_tables. cbn. by rewrite insert_insert_eq.
Qed.

Lemma fd_cap_slot ft fd f : fd_cap (set_slot ft fd f) = fd_cap ft.
Proof. unfold fd_cap, set_slot. cbn. by rewrite length_insert. Qed.

Lemma get_slot_lt ft fd x : get_slot ft fd = Some x -> 0 <= fd -> fd < fd_cap ft.
Proof. intros H%lookup_lt_Some. unfold fd_cap. lia. Qed.

Lemma pipe_install_good st pend t tf r w :
  fd_inv st (r :: w :: pend) -> tables st !! t = Some tf -> mem_for (tf_ft tf) -> good pend (pipe_install mem st t r w).
Proof.
  intros Hi Ht [Hm1 Hm2]. unfold pipe_install. rewrite Ht. cbn [mbind option_bind].
  destruct (fi_table _ _ Hi _ _ Ht) as [Hok _].
  destruct (alloc_slot_spec mem mem_bound (tf_ft tf) 0 Hok (start0 _ Hok)) as [[_ E]|(ft1 & rfd & E & Hs)]; [congruence|].
  rewrite E. cbn [mbind option_bind]. pose proof (sf_ok _ _ _ _ _ Hs) as Hok1. pose proof (sf_from _ _ _ _ _ Hs).
  pose proof (get_slot_lt _ _ _ (sf_free _ _ _ _ _ Hs)).
  pose proof (place_inv st (w :: pend) t tf 0 ft1 rfd r (set_slot ft1 rfd r) Hi Ht Hs eq_refl eq_refl) as Hi1.
  pose proof (with_table_lookup st t tf (set_slot ft1 rfd r) Ht) as Ht1.
  destruct (alloc_slot_spec mem mem_bound (set_slot ft1 rfd r) (rfd + 1)) as [[_ E2]|(ft2 & wfd & E2 & Hs2)].
  - by apply tab_ok_slot.
  - rewrite fd_cap_slot. lia.
  - rewrite fd_cap_slot in E2. destruct (sf_cap _ _ _ _ _ Hs) as [Hc|[Hc _]]; rewrite Hc in E2; [congruence|].
    replace (2 * (2 * fd_cap (tf_ft tf))) with (4 * fd_cap (tf_ft tf)) in E2 by lia. congruence.
  - rewrite E2. cbn [mbind option_bind]. apply good_ret. rewrite <- (with_table_twice _ _ tf (set_slot ft1 rfd r)) by done.
    by eapply (place_inv _ _ _ (TaskFiles (set_slot ft1 rfd r) (tf_refs tf))).
Qed.

Lemma fcntl_setfd_good st pend t tf fd arg :
  fd_inv st pend -> tables st !! t = Some tf -> 0 <= fd -> good pend (fcntl_setfd st t fd arg).
Proof.
  intros Hi Ht Hfd. unfold fcntl_setfd. rewrite Ht. cbn [mbind option_bind].
  destruct (fi_table _ _ Hi _ _ Ht) as [Hok _].
  destruct (Z.leb_spec (fd_cap (tf_ft tf)) fd); [auto|].
  destruct (get_slot_some (tf_ft tf) fd) as [f Hg]; [lia|]. rewrite Hg. cbn [mbind option_bind].
  destruct (f =? NULL); [auto|]. apply good_ret. eapply table_inv; [done|done|by apply tab_ok_flag|done].
Qed.

Lemma fcntl_getfd_good st pend t tf fd :
  fd_inv st pend -> tables st !! t = Some tf -> 0 <= fd -> good pend (fcntl_getfd st t fd).
Proof.
  intros Hi Ht Hfd. unfold fcntl_getfd. rewrite Ht. cbn [mbind option_bind].
  destruct (fi_table _ _ Hi _ _ Ht) as [[Hl _] _].
  destruct (Z.leb_spec (fd_cap (tf_ft tf)) fd); [auto|].
  destruct (get_slot_some (tf_ft tf) fd) as [f Hg]; [lia|]. rewrite Hg. cbn [mbind option_bind].
  destruct (f =? NULL); [auto|].
  destruct (lookup_lt_is_Some_2 (fd_flags (tf_ft tf)) (Z.to_nat fd)) as [x Hx]; [unfold fd_cap in *; lia|].
  rewrite Hx. cbn. auto.
Qed.
End ops.
