(* ===== verification/FdSocks.v ===== *)
(** * Open files and descriptor tables: rights, descriptor passing, processes

    The calls that act through a descriptor, the queue of descriptors a Unix
    socket carries, and what fork, exec and exit do to a table. *)

From S2P Require Import Prelude Errno Fd FdSpec FdOps.

(** ** Calls on one description *)

Section simple.
Context (st : fd_state) (pend : list Z) (t fd : Z) (tf : task_files).
Hypothesis (Hi : fd_inv st pend) (Ht : tables st !! t = Some tf) (Hfd : 0 <= fd) (Hr : room 1 st).

Lemma good_with_fd act :
  (forall st1 f file, got st st1 pend f file -> get_slot (tf_ft tf) fd = Some f ->
     exists st2 r, act st1 f file = Some (st2, r) /\ fd_inv st2 pend /\ held st2 = held st1) ->
  good pend (with_fd st t fd act).
Proof. intros H. destruct (with_fd_spec _ _ _ _ _ _ Hi Ht Hfd Hr H) as (st2 & r & E & Hi2 & _). by exists st2, r. Qed.

Lemma sys_restrict_fd_good mask : good pend (sys_restrict_fd st t fd mask).
Proof.
  apply good_with_fd. intros st1 f file Hg _. do 2 eexists. split; [done|]. split; [|done].
  by eapply fd_inv_file; [apply Hg|apply Hg| |].
Qed.

Lemma fcntl_setfl_good arg : good pend (fcntl_setfl st t fd arg).
Proof.
  apply good_with_fd. intros st1 f file Hg _. do 2 eexists. split; [done|]. split; [|done].
  by eapply fd_inv_file; [apply Hg|apply Hg| |].
Qed.

Lemma sys_read_good op : good pend (sys_read op st t fd).
Proof.
  apply good_with_fd. intros st1 f file Hg _. destruct (rights_gate _ _); cbn [negb];
    (do 2 eexists; split; [done|]; split; [apply Hg|done]).
Qed.

Lemma sys_write_good op : good pend (sys_write op st t fd).
Proof.
  apply good_with_fd. intros st1 f file Hg _. destruct (f_write file), (rights_gate _ _); cbn [negb];
    (do 2 eexists; split; [done|]; split; [apply Hg|done]).
Qed.
End simple.

(** ** The descriptor queue *)

Lemma anc_push_ok a f r :
  anc_ok a -> anc_count a < 8 -> f <> NULL ->
  anc_ok (anc_push a f r) /\ forall g, g <> NULL -> cnt g (anc_files (anc_push a f r)) = cnt g (anc_files a) + cnt g [f].
Proof.
  intros [H1 H2 H3 H4 H5 H6] Hc Hf.
  assert (Ht : 0 <= anc_tail a < 8) by (rewrite H5; mlia).
  destruct (lookup_lt_is_Some_2 (anc_files a) (Z.to_nat (anc_tail a))) as [x Hx]; [lia|].
  assert (x = NULL) as ->.
  { destruct (decide (x = NULL)) as [|Hn]; [done|]. apply (H6 _ _ Ht Hx) in Hn. unfold in_window in Hn.
    rewrite H5 in Hn. mlia. }
  split.
  - constructor; unfold anc_push, in_window; cbn; try (rewrite length_insert; done); try lia.
    + rewrite H5. mlia.
    + intros i y Hi Hy. destruct (decide (i = anc_tail a)) as [->|Hne].
      * rewrite list_lookup_insert_eq in Hy by lia. injection Hy as <-. split; [|done]. intros _. rewrite H5. mlia.
      * rewrite list_lookup_insert_ne in Hy by lia. rewrite (H6 _ _ Hi Hy). unfold in_window. rewrite H5 in Hne. mlia.
  - intros g Hg. unfold anc_push. cbn [anc_files]. rewrite (cnt_insert _ _ _ NULL) by done. cbn [cnt].
    destruct (Z.eqb_spec NULL g); [congruence|lia].
Qed.

Lemma anc_pop_ok a :
  anc_ok a -> 0 < anc_count a ->
  exists a' f, anc_pop a = Some (a', f) /\ f <> NULL /\ anc_ok a' /\
    forall g, g <> NULL -> cnt g (anc_files a') + cnt g [f] = cnt g (anc_files a).
Proof.
  intros [H1 H2 H3 H4 H5 H6] Hc. unfold anc_pop.
  destruct (lookup_lt_is_Some_2 (anc_files a) (Z.to_nat (anc_head a))) as [f Hx]; [lia|]. rewrite Hx.
  cbn [mbind option_bind]. do 2 eexists. split; [done|].
  assert (Hf : f <> NULL).
  { apply (H6 _ _ H3 Hx). unfold in_window. mlia. }
  split; [done|]. split.
  - constructor; unfold in_window; cbn; try (rewrite length_insert; done); try lia; try mlia.
    intros i y Hi Hy. destruct (decide (i = anc_head a)) as [->|Hne].
    + rewrite list_lookup_insert_eq in Hy by lia. injection Hy as <-. split; [done|]. mlia.
    + rewrite list_lookup_insert_ne in Hy by lia. rewrite (H6 _ _ Hi Hy). unfold in_window. mlia.
  - intros g Hg. cbn [anc_files]. rewrite (cnt_insert _ _ _ f) by done. cbn [cnt].
    destruct (Z.eqb_spec NULL g); [congruence|lia].
Qed.

(** The queued entries are all there is in the ring. *)
Lemma anc_window_cnt a g : anc_ok a -> g <> NULL -> cnt g (anc_window a) = cnt g (anc_files a).
Proof.
  intros [H1 H2 H3 H4 H5 H6] Hg. unfold anc_window.
  set (at_ := fun i => default NULL (anc_files a !! Z.to_nat ((anc_head a + i) mod 8))).
  assert (Hrest : forall (n : nat) m, anc_count a <= m -> m + Z.of_nat n <= 8 -> cnt g (at_ <$> seqZ m (Z.of_nat n)) = 0).
  { intros n. induction n as [|n IH]; intros m Hm Hle; [done|].
    rewrite seqZ_cons by lia. rewrite fmap_cons. cbn [cnt]. replace (Z.pred (Z.of_nat (S n))) with (Z.of_nat n) by lia.
    rewrite IH by lia.
    destruct (lookup_lt_is_Some_2 (anc_files a) (Z.to_nat ((anc_head a + m) mod 8))) as [x Hx]; [mlia|].
    assert (x = NULL) as ->.
    { destruct (decide (x = NULL)) as [|Hx0]; [done|]. apply (H6 ((anc_head a + m) mod 8)) in Hx0; [|mlia|done].
      unfold in_window in Hx0. mlia. }
    unfold at_. rewrite Hx. cbn [default from_option]. unfold id. destruct (Z.eqb_spec NULL g); [congruence|lia]. }
  assert (Hall : cnt g (at_ <$> seqZ 0 8) = cnt g (anc_files a)).
  { clear - H1 H3. unfold at_. destruct (anc_files a) as [|x0 [|x1 [|x2 [|x3 [|x4 [|x5 [|x6 [|x7 [|]]]]]]]]]; try done.
    assert (anc_head a = 0 \/ anc_head a = 1 \/ anc_head a = 2 \/ anc_head a = 3 \/ anc_head a = 4 \/ anc_head a = 5 \/
      anc_head a = 6 \/ anc_head a = 7) as Hh by lia.
    set (l := [x0; x1; x2; x3; x4; x5; x6; x7]).
    transitivity (cnt g (drop (Z.to_nat (anc_head a)) l ++ take (Z.to_nat (anc_head a)) l)).
    - f_equal. unfold l. by destruct Hh as [->|[->|[->|[->|[->|[->|[->| ->]]]]]]].
    - rewrite cnt_app, Z.add_comm, <- cnt_app. by rewrite take_drop. }
  replace 8 with (anc_count a + (8 - anc_count a)) in Hall by lia. rewrite seqZ_app, fmap_app, cnt_app in Hall by lia.
  rewrite <- (Z2Nat.id (8 - anc_count a)), Hrest in Hall by lia. lia.
Qed.

Lemma sock_inv st pend pend' s k k' :
  fd_inv st pend -> socks st !! s = Some k -> anc_ok (k_anc k') -> k_peer k' = k_peer k -> k_file k' = k_file k ->
  (forall f, f <> NULL -> cnt f (queued k') + cnt f pend' = cnt f (queued k) + cnt f pend) ->
  fd_inv (with_socks st (<[s := k']> (socks st))) pend'.
Proof.
  intros [H1 H2 H3 H4 H5 H6 H7 H8 H9] Hs Hok Hp Hkf Hc.
  set (st' := with_socks _ _).
  assert (Hr : forall f, f <> NULL -> refs st' f + cnt f pend' = refs st f + cnt f pend).
  { intros f Hf. unfold refs, st'. cbn [tables socks held with_socks].
    rewrite (msum_insert _ (socks st) _ k) by done. specialize (Hc f Hf). lia. }
  assert (Hl : forall s' x, socks st' !! s' = Some x -> exists y, socks st !! s' = Some y /\ k_peer x = k_peer y /\ k_file x = k_file y).
  { intros s' x. unfold st'. cbn. destruct (decide (s' = s)) as [->|].
    - rewrite lookup_insert_eq. intros [= <-]. by exists k.
    - rewrite lookup_insert_ne by done. by exists x. }
  assert (Hl' : forall s' y, socks st !! s' = Some y -> exists x, socks st' !! s' = Some x /\ k_peer x = k_peer y /\ k_file x = k_file y).
  { intros s' y Hy. unfold st'. cbn. destruct (decide (s' = s)) as [->|].
    - rewrite lookup_insert_eq. exists k'. assert (y = k) as -> by congruence. done.
    - rewrite lookup_insert_ne by done. by exists y. }
  constructor; try done.
  - intros f file Hf. destruct (H1 _ _ Hf) as (? & ? & ?). rewrite Hr by done. done.
  - intros f Hf. rewrite Hr by done. by apply H2.
  - intros s' x. unfold st'. cbn. destruct (decide (s' = s)) as [->|].
    + rewrite lookup_insert_eq. intros [= <-]. split; [by apply (H4 _ _ Hs)|done].
    + rewrite lookup_insert_ne by done. apply H4.
  - intros s' x (y & Hy & _ & ->)%Hl. by apply H5.
  - intros f file s' Hf Hfs. destruct (H6 _ _ _ Hf Hfs) as (? & y & Hy & ?). split; [done|].
    destruct (Hl' _ _ Hy) as (x & Hx & _ & ?). exists x. split; [done|congruence].
  - intros s' x (y & Hy & -> & _)%Hl Hn. destruct (H7 _ _ Hy Hn) as (? & z & Hz & ?). split; [done|].
    destruct (Hl' _ _ Hz) as (x' & Hx' & ? & _). exists x'. split; [done|congruence].
  - destruct H8 as [? H8]. split; [done|]. intros s' Hd. destruct (H8 s' Hd) as [y Hy].
    destruct (Hl' _ _ Hy) as (x & Hx & _). by exists x.
Qed.

(** ** Sending and receiving *)

(** No open socket has a peer whose description is gone already. *)
Definition peers_open (st : fd_state) : Prop :=
  forall s k, socks st !! s = Some k -> s ∉ dying st -> k_peer k <> NULL -> k_peer k ∉ dying st.

Lemma poll_wake_ok st pend s k :
  fd_inv st pend -> socks st !! s = Some k -> s ∉ dying st -> unix_poll_wake st s = Some tt.
Proof.
  intros Hi Hk Hd. unfold unix_poll_wake. rewrite Hk. cbn [mbind option_bind].
  destruct (fi_open _ _ Hi _ _ Hk Hd) as (x & Hx & _). rewrite Hx. by destruct (k_file k =? NULL).
Qed.

Lemma sendfd_act st pend s k sock f file rights :
  fd_inv st pend -> room 1 st -> peers_open st ->
  f_sock sock = Some s -> socks st !! s = Some k -> s ∉ dying st -> files st !! f = Some file ->
  exists st2 r, unix_sock_sendfd st sock f rights = Some (st2, r) /\ fd_inv st2 pend /\ held st2 = held st.
Proof.
  intros Hi Hr Hp Hs Hk Hd Hf. unfold unix_sock_sendfd. rewrite Hs, Hk. cbn [mbind option_bind].
  destruct (Z.eqb_spec (k_peer k) NULL) as [|Hn]; [by do 2 eexists|].
  destruct (fi_peer _ _ Hi _ _ Hk Hn) as (Hne & p & Hpk & Hpp). rewrite Hpk. cbn [mbind option_bind].
  destruct (Z.leb_spec 8 (anc_count (k_anc p))) as [|Hc]; [by do 2 eexists|].
  destruct (vfs_dup_spec _ _ _ _ Hi Hf Hr) as (st1 & E1 & Hi1 & (F1 & F2 & F3) & Fd' & Hf1 & _).
  rewrite E1. cbn [mbind option_bind]. rewrite Hf1. cbn [mbind option_bind].
  destruct (fi_file _ _ Hi _ _ Hf) as (Hfn & _).
  set (st2 := with_files st1 _). assert (Hi2 : fd_inv st2 (f :: pend)) by by eapply fd_inv_file.
  destruct (fi_sock _ _ Hi _ _ Hpk) as [_ Hok]. destruct (anc_push_ok _ f rights Hok Hc Hfn) as [Hok' Hcnt].
  set (p' := FdSock _ _ _ _).
  assert (Hi3 : fd_inv (with_socks st2 (<[k_peer k := p']> (socks st2))) pend).
  { eapply sock_inv; [exact Hi2|unfold st2; cbn; rewrite F2; exact Hpk|done|done|done|].
    intros g Hg. unfold queued, p'. cbn [k_anc]. rewrite Hcnt by done. cbn [cnt]. lia. }
  rewrite (poll_wake_ok _ pend (k_peer k) p' Hi3); cbn.
  - do 2 eexists. split; [done|]. split; [exact Hi3|]. done.
  - by rewrite lookup_insert_eq.
  - rewrite Fd'. by apply (Hp s k).
Qed.

Lemma sys_sendfd_good st pend t tf sock_fd target_fd rights :
  fd_inv st pend -> tables st !! t = Some tf -> 0 <= sock_fd -> 0 <= target_fd -> room 3 st -> peers_open st ->
  good pend (sys_sendfd st t sock_fd target_fd rights).
Proof.
  intros Hi Ht Hs Hd Hr Hp. unfold sys_sendfd.
  eapply good_with_fd; [done|done|done|by eapply room_weaken; [|exact Hr]; lia|].
  intros st1 fs sock Hg _. destruct (g_same _ _ _ _ _ Hg) as (S1 & S2 & S3). pose proof (g_inv _ _ _ _ _ Hg) as Hi1.
  destruct (f_sock sock) as [s|] eqn:Es; [|by do 2 eexists].
  destruct (rights_check _ _); cbn [negb]; [|by do 2 eexists].
  destruct (fi_ctx _ _ Hi1 _ _ _ (g_file _ _ _ _ _ Hg) Es) as (Hnd & k & Hk & _).
  assert (Hr1 : room 2 st1) by by apply (g_room _ _ _ _ _ Hg).
  eapply with_fd_spec; [done|by rewrite S1|done|by eapply room_weaken; [|exact Hr1]; lia|].
  intros st2 f target Hg2 _. destruct (g_same _ _ _ _ _ Hg2) as (T1 & T2 & T3). pose proof (g_inv _ _ _ _ _ Hg2) as Hi2.
  destruct (Z.land _ _ =? 0); cbn [negb]; [|by do 2 eexists].
  eapply (sendfd_act st2 pend s k sock f target); [done| | |done|by rewrite T2|by rewrite T3|apply Hg2].
  - by apply (g_room _ _ _ _ _ Hg2).
  - intros s' k'. rewrite T2, T3, S2, S3. apply Hp.
Qed.

(** Taking a descriptor off a queue makes it pending. *)
Lemma pop_inv st pend s k a f :
  fd_inv st pend -> socks st !! s = Some k -> anc_pop (k_anc k) = Some (a, f) -> 0 < anc_count (k_anc k) ->
  f <> NULL /\ fd_inv (with_socks st (<[s := FdSock (k_peer k) (k_disconnected k) a (k_file k)]> (socks st))) (f :: pend).
Proof.
  intros Hi Hk Ep Hc. destruct (fi_sock _ _ Hi _ _ Hk) as [_ Hok].
  destruct (anc_pop_ok _ Hok Hc) as (a' & f' & E & Hn & Hok' & Hcnt). rewrite Ep in E. injection E as <- <-.
  split; [done|]. eapply sock_inv; [done|done|done|done|done|].
  intros g Hg. unfold queued. cbn [k_anc cnt]. specialize (Hcnt g Hg). cbn [cnt] in Hcnt. lia.
Qed.

Lemma recvfd_act st pend s k signal :
  fd_inv st pend -> socks st !! s = Some k ->
  (exists r, unix_sock_recvfd st signal s = Some (st, r) /\ (r = None \/ r = Some NULL)) \/
  exists st2 f, unix_sock_recvfd st signal s = Some (st2, Some f) /\ f <> NULL /\ fd_inv st2 (f :: pend) /\
    held st2 = held st /\ tables st2 = tables st.
Proof.
  intros Hi Hk. unfold unix_sock_recvfd. rewrite Hk. cbn [mbind option_bind].
  destruct (fi_sock _ _ Hi _ _ Hk) as [_ Hok].
  destruct (Z.eqb_spec (anc_count (k_anc k)) 0) as [|Hc].
  { left. destruct (k_disconnected k && _); [eexists; split; [done|by right]|].
    destruct signal; eexists; (split; [done|]); [by right|by left]. }
  assert (0 < anc_count (k_anc k)) as Hc' by (pose proof (ao_count _ Hok); lia).
  right. destruct (anc_pop_ok _ Hok Hc') as (a & f & E & _). rewrite E. cbn [mbind option_bind].
  destruct (pop_inv _ _ _ _ _ _ Hi Hk E Hc') as [Hn Hi']. do 2 eexists. split; [done|]. done.
Qed.

Lemma sys_recvfd_good mem st pend t tf sock_fd signal :
  (forall c, mem c = true -> c < 2 ^ 31) ->
  fd_inv st pend -> tables st !! t = Some tf -> 0 <= sock_fd -> room 1 st ->
  good pend (sys_recvfd mem st t sock_fd signal).
Proof.
  intros Hm Hi Ht Hfd Hr. unfold sys_recvfd.
  destruct (fdget_spec _ _ _ _ _ Hi Ht Hfd Hr) as [E|(st1 & f & file & E & Hs & Hg)]; rewrite E; cbn [mbind option_bind].
  { cbn. by apply good_ret. }
  destruct (Z.eqb_spec f NULL) as [->|Hn]; [by destruct (g_null _ _ _ _ _ Hg)|].
  rewrite (g_file _ _ _ _ _ Hg). cbn [mbind option_bind]. pose proof (g_inv _ _ _ _ _ Hg) as Hi1.
  destruct (g_same _ _ _ _ _ Hg) as (S1 & _). assert (Hh : f ∈ held st1) by (rewrite (g_held _ _ _ _ _ Hg); set_solver).
  destruct (f_sock file) as [s|] eqn:Es.
  2: { destruct (fdput_spec _ _ _ Hi1 Hh) as (st2 & E2 & Hi2 & _). rewrite E2. cbn. by apply good_ret. }
  destruct (fi_ctx _ _ Hi1 _ _ _ (g_file _ _ _ _ _ Hg) Es) as (Hnd & k & Hk & _).
  destruct (recvfd_act st1 pend s k signal Hi1 Hk) as [(r & E2 & Hr2)|(st2 & g & E2 & Hgn & Hi2 & Hh2 & Ht2)];
    rewrite E2; cbn [mbind option_bind].
  - destruct (fdput_spec _ _ _ Hi1 Hh) as (st2 & E3 & Hi2 & _). rewrite E3. cbn.
    destruct Hr2 as [-> | ->]; cbn; by apply good_ret.
  - rewrite <- Hh2 in Hh. destruct (fdput_spec _ _ _ Hi2 Hh) as (st3 & E3 & Hi3 & T3 & _). rewrite E3. cbn.
    destruct (Z.eqb_spec g NULL); [done|]. eapply fd_install_good; [done|done|]. by rewrite T3, Ht2, S1.
Qed.
