(* ===== verification/FdProc.v ===== *)
(** * Open files and descriptor tables: creation, processes, runs

    New descriptions and socket pairs, the teardown of a socket, fork, exec and
    exit; then every call as a step of a transition system. *)

From S2P Require Import Prelude Errno Fd FdSpec FdOps FdSocks.

(** ** New descriptions *)

Lemma fresh_refs st pend f : fd_inv st pend -> f <> NULL -> files st !! f = None -> refs st f = 0 /\ cnt f pend = 0.
Proof.
  intros Hi Hn Hf. pose proof (refs_nonneg st f). pose proof (cnt_nonneg f pend).
  destruct (decide (0 < refs st f + cnt f pend)) as [Hp|]; [|lia].
  destruct (fi_live _ _ Hi _ Hn Hp) as [x Hx]. congruence.
Qed.

Lemma new_file_inv st pend f file :
  fd_inv st pend -> f <> NULL -> files st !! f = None -> f_refcount file = 1 -> f_sock file = None ->
  fd_inv (with_files st (<[f := file]> (files st))) (f :: pend).
Proof.
  intros Hi Hn Hf Hr Hs. destruct (fresh_refs _ _ _ Hi Hn Hf) as [R1 R2].
  destruct Hi as [H1 H2 H3 H4 H5 H6 H7 H8 H9]. constructor; try done; cbn [files with_files].
  - intros g x. destruct (decide (g = f)) as [->|].
    + rewrite lookup_insert_eq. intros [= <-]. rewrite refs_with_files. cbn [cnt]. rewrite Z.eqb_refl. lia.
    + rewrite lookup_insert_ne by done. intros Hg. rewrite refs_with_files. cbn [cnt].
      destruct (Z.eqb_spec f g); [congruence|]. by apply H1.
  - intros g Hg Hc. rewrite lookup_insert_is_Some'. destruct (decide (f = g)); [by left|]. right. apply H2; [done|].
    cbn [cnt] in Hc. rewrite refs_with_files in Hc. destruct (Z.eqb_spec f g); [congruence|done].
  - intros s k Hk Hd. destruct (H5 _ _ Hk Hd) as (x & Hx & Hxs). exists x. rewrite lookup_insert_ne; [done|]. congruence.
  - intros g x s. destruct (decide (g = f)) as [->|].
    + rewrite lookup_insert_eq. intros [= <-] ?. congruence.
    + rewrite lookup_insert_ne by done. apply H6.
Qed.

Lemma empty_anc_ok : anc_ok empty_anc.
Proof.
  constructor; try done; cbn [anc_files anc_head anc_count empty_anc]. intros i x Hi Hx.
  apply lookup_replicate in Hx as [-> _]. unfold in_window. cbn [anc_head anc_count empty_anc].
  split; [done|]. mlia.
Qed.

Lemma open_sock_inv st pend f s :
  fd_inv st pend -> f <> NULL -> files st !! f = None -> s <> NULL -> socks st !! s = None ->
  fd_inv (unix_sock_open st f s) (f :: pend).
Proof.
  intros Hi Hn Hf Hsn Hs. destruct (fresh_refs _ _ _ Hi Hn Hf) as [R1 R2].
  destruct Hi as [H1 H2 H3 H4 H5 H6 H7 [H8 H8'] H9]. set (st' := unix_sock_open st f s).
  assert (Hr : forall g, g <> NULL -> refs st' g = refs st g).
  { intros g Hg. unfold refs, st', unix_sock_open. cbn [tables socks held with_socks with_files].
    rewrite msum_new by done. unfold queued. cbn [k_anc empty_anc anc_files]. rewrite cnt_replicate by done. lia. }
  assert (Hd : s ∉ dying st) by (intros Hd; destruct (H8' s Hd); congruence).
  constructor; try done; cbn [files socks dying st' unix_sock_open with_socks with_files].
  - intros g x. destruct (decide (g = f)) as [->|].
    + rewrite lookup_insert_eq. intros [= <-]. rewrite Hr by done. cbn [cnt f_refcount]. rewrite Z.eqb_refl. lia.
    + rewrite lookup_insert_ne by done. intros Hg. destruct (H1 _ _ Hg) as (? & ? & ?). rewrite Hr by done. cbn [cnt].
      destruct (Z.eqb_spec f g); [congruence|]. done.
  - intros g Hg Hc. rewrite lookup_insert_is_Some'. destruct (decide (f = g)); [by left|]. right. apply H2; [done|].
    rewrite Hr in Hc by done. cbn [cnt] in Hc. destruct (Z.eqb_spec f g); [congruence|done].
  - intros s' k. destruct (decide (s' = s)) as [->|].
    + rewrite lookup_insert_eq. intros [= <-]. split; [done|apply empty_anc_ok].
    + rewrite lookup_insert_ne by done. apply H4.
  - intros s' k. destruct (decide (s' = s)) as [->|].
    + rewrite lookup_insert_eq. intros [= <-] _. eexists. cbn. rewrite lookup_insert_eq. done.
    + rewrite lookup_insert_ne by done. intros Hk Hd'. destruct (H5 _ _ Hk Hd') as (x & Hx & ?). exists x.
      rewrite lookup_insert_ne; [done|]. congruence.
  - intros g x s'. destruct (decide (g = f)) as [->|].
    + rewrite lookup_insert_eq. intros [= <-] [= <-]. split; [done|]. eexists. rewrite lookup_insert_eq. done.
    + rewrite lookup_insert_ne by done. intros Hg Hx. destruct (H6 _ _ _ Hg Hx) as (? & k & Hk & ?). split; [done|].
      exists k. rewrite lookup_insert_ne; [done|]. congruence.
  - intros s' k. destruct (decide (s' = s)) as [->|].
    + rewrite lookup_insert_eq. intros [= <-]. done.
    + rewrite lookup_insert_ne by done. intros Hk Hp. destruct (H7 _ _ Hk Hp) as (? & k' & Hk' & ?). split; [done|].
      exists k'. rewrite lookup_insert_ne; [done|]. congruence.
  - split; [done|]. intros s' Hs'. rewrite lookup_insert_is_Some'. right. by apply H8'.
Qed.

(** Changing who is whose peer. *)
Lemma peers_inv st pend m :
  fd_inv st pend ->
  (forall s, match m !! s, socks st !! s with
     | Some k', Some k => k_anc k' = k_anc k /\ k_file k' = k_file k
     | None, None => True | _, _ => False end) ->
  (forall s k, m !! s = Some k -> k_peer k <> NULL -> k_peer k <> s /\ exists k', m !! k_peer k = Some k' /\ k_peer k' = s) ->
  (forall f, msum (fun k => cnt f (queued k)) m = msum (fun k => cnt f (queued k)) (socks st)) ->
  fd_inv (with_socks st m) pend.
Proof.
  intros [H1 H2 H3 H4 H5 H6 H7 [H8 H8'] H9] Hm Hp Hsum.
  assert (Hr : forall f, refs (with_socks st m) f = refs st f).
  { intros f. unfold refs. cbn [tables socks held with_socks]. rewrite Hsum. done. }
  constructor; try done; cbn [socks files dying with_socks].
  - intros f x Hx. rewrite Hr. by apply H1.
  - intros f. rewrite Hr. apply H2.
  - intros s k Hk. specialize (Hm s). rewrite Hk in Hm. destruct (socks st !! s) as [k0|] eqn:E; [|done].
    destruct Hm as [-> _]. by apply H4.
  - intros s k Hk. specialize (Hm s). rewrite Hk in Hm. destruct (socks st !! s) as [k0|] eqn:E; [|done].
    destruct Hm as [_ ->]. by apply H5.
  - intros f x s Hf Hx. destruct (H6 _ _ _ Hf Hx) as (? & k & Hk & ?). split; [done|].
    specialize (Hm s). rewrite Hk in Hm. destruct (m !! s) as [k'|] eqn:E; [|done].
    exists k'. destruct Hm as [_ ?]. split; [done|congruence].
  - split; [done|]. intros s Hs. destruct (H8' s Hs) as [k Hk]. specialize (Hm s). rewrite Hk in Hm.
    by destruct (m !! s).
Qed.

Lemma link_inv st pend sa sb ka kb :
  fd_inv st pend -> sa <> NULL -> sb <> NULL -> sa <> sb -> socks st !! sa = Some ka -> socks st !! sb = Some kb ->
  k_peer ka = NULL -> k_peer kb = NULL ->
  fd_inv (with_socks st (<[sb := set_peer sa kb]> (<[sa := set_peer sb ka]> (socks st)))) pend.
Proof.
  intros Hi Hna Hnb Hne Ha Hb Pa Pb. apply peers_inv; [done|..].
  - intros s. destruct (decide (s = sb)) as [->|]; [rewrite lookup_insert_eq, Hb; done|].
    rewrite lookup_insert_ne by done. destruct (decide (s = sa)) as [->|]; [rewrite lookup_insert_eq, Ha; done|].
    rewrite lookup_insert_ne by done. by destruct (socks st !! s).
  - intros s k. destruct (decide (s = sb)) as [->|].
    { rewrite lookup_insert_eq. intros [= <-] _. cbn. split; [done|].
      rewrite lookup_insert_ne, lookup_insert_eq by done. by eexists. }
    rewrite lookup_insert_ne by done. destruct (decide (s = sa)) as [->|].
    { rewrite lookup_insert_eq. intros [= <-] _. cbn. split; [done|]. rewrite lookup_insert_eq. by eexists. }
    rewrite lookup_insert_ne by done. intros Hk Hp. destruct (fi_peer _ _ Hi _ _ Hk Hp) as (? & k' & Hk' & Hps).
    destruct (fi_sock _ _ Hi _ _ Hk) as [Hs0 _].
    split; [done|]. exists k'. rewrite !lookup_insert_ne; [done|..]; intros E; rewrite <- E in Hk'; congruence.
  - intros f. rewrite (msum_insert _ _ sb kb) by (by rewrite lookup_insert_ne).
    rewrite (msum_insert _ _ sa ka) by done. unfold queued. cbn. lia.
Qed.

Lemma alter_insert {A} (m : gmap Z A) f k x : m !! k = Some x -> alter f k m = <[k := f x]> m.
Proof.
  intros H. apply map_eq. intros i. destruct (decide (i = k)) as [->|].
  - by rewrite lookup_alter_eq, lookup_insert_eq, H.
  - by rewrite lookup_alter_ne, lookup_insert_ne.
Qed.

Lemma pair_inv st pend a b sa sb :
  fd_inv st pend -> a <> NULL -> b <> NULL -> a <> b -> files st !! a = None -> files st !! b = None ->
  sa <> NULL -> sb <> NULL -> sa <> sb -> socks st !! sa = None -> socks st !! sb = None ->
  fd_inv (unix_sock_pair st a b sa sb) (a :: b :: pend).
Proof.
  intros Hi Ha Hb Hab Fa Fb Hsa Hsb Hsab Sa Sb. unfold unix_sock_pair.
  assert (Hi2 : fd_inv (unix_sock_open (unix_sock_open st a sa) b sb) (a :: b :: pend)).
  { eapply fd_inv_pend; [apply open_sock_inv; [by apply open_sock_inv|done|..]|].
    - cbn. by rewrite lookup_insert_ne.
    - done.
    - cbn. by rewrite lookup_insert_ne.
    - intros f _. cbn. lia. }
  set (st2 := unix_sock_open _ _ _) in *.
  assert (La : socks st2 !! sa = Some (FdSock NULL false empty_anc a)).
  { cbn. rewrite lookup_insert_ne by done. by rewrite lookup_insert_eq. }
  assert (Lb : socks st2 !! sb = Some (FdSock NULL false empty_anc b)) by (cbn; by rewrite lookup_insert_eq).
  rewrite (alter_insert (socks st2) (set_peer sb) sa _ La).
  rewrite (alter_insert _ (set_peer sa) sb (FdSock NULL false empty_anc b)) by (by rewrite lookup_insert_ne).
  by apply link_inv.
Qed.

(** ** Teardown of a socket *)

Lemma remove_one_in x s l : NoDup l -> x ∈ remove_one s l <-> x ∈ l /\ x <> s.
Proof.
  induction l as [|y l IH]; intros Hn; [cbn; set_solver|]. apply NoDup_cons in Hn as [Hy Hn]. cbn.
  destruct (Z.eqb_spec y s) as [->|Hne]; [set_solver|]. rewrite !elem_of_cons, IH by done. naive_solver.
Qed.

Lemma remove_one_nodup s l : NoDup l -> NoDup (remove_one s l).
Proof.
  induction l as [|y l IH]; intros Hn; [done|]. pose proof Hn as [Hy Hn']%NoDup_cons. cbn.
  destruct (Z.eqb_spec y s); [done|]. apply NoDup_cons. split; [|by apply IH]. rewrite remove_one_in by done. tauto.
Qed.

Lemma delete_sock_inv st pend s k :
  fd_inv st pend -> socks st !! s = Some k -> s ∈ dying st -> k_peer k = NULL ->
  fd_inv (with_socks (with_dying st (remove_one s (dying st))) (delete s (socks st))) (queued k ++ pend).
Proof.
  intros Hi Hk Hd Hp. destruct Hi as [H1 H2 H3 H4 H5 H6 H7 [H8 H8'] H9].
  set (st' := with_socks _ _).
  assert (Hr : forall f, refs st' f + cnt f (queued k ++ pend) = refs st f + cnt f pend).
  { intros f. unfold refs, st'. cbn [tables socks held with_socks with_dying]. rewrite (msum_delete _ _ _ k) by done.
    rewrite cnt_app. lia. }
  constructor; try done; cbn [socks dying files st' with_socks with_dying].
  - intros f x Hx. rewrite Hr. by apply H1.
  - intros f. rewrite Hr. apply H2.
  - intros s' k' [_ Hs']%lookup_delete_Some. by apply H4.
  - intros s' k' [Hne Hs']%lookup_delete_Some Hnd. apply H5; [done|]. intros Hd'. apply Hnd. by apply remove_one_in.
  - intros f x s' Hf Hx. destruct (H6 _ _ _ Hf Hx) as (Hnd & k' & Hk' & ?).
    split; [rewrite remove_one_in by done; tauto|]. exists k'. rewrite lookup_delete_ne; [done|]. intros ->. done.
  - intros s' k' [Hne Hs']%lookup_delete_Some Hp'. destruct (H7 _ _ Hs' Hp') as (? & k2 & Hk2 & Hp2). split; [done|].
    exists k2. rewrite lookup_delete_ne; [done|]. intros E. rewrite <- E in Hk2.
    assert (k2 = k) as -> by congruence. rewrite Hp in Hp2. subst s'. by destruct (H4 _ _ Hs').
  - split; [by apply remove_one_nodup|]. intros s' [Hs' Hne]%remove_one_in; [|done].
    rewrite lookup_delete_ne by done. by apply H8'.
Qed.

Lemma close_all_spec : forall l st pend, fd_inv st (l ++ pend) ->
  exists st', close_all st l = Some st' /\ fd_inv st' pend /\ frame st st'.
Proof.
  induction l as [|f l IH]; intros st pend Hi; [by exists st|]. cbn [close_all].
  assert (exists st1, (if f =? NULL then Some st else vfs_close st f) = Some st1 /\ fd_inv st1 (l ++ pend) /\ frame st st1)
    as (st1 & E & Hi1 & F1).
  { destruct (vfs_close_spec _ _ _ Hi) as (st1 & E & Hi1 & F). exists st1. split; [|done].
    unfold vfs_close in *. by destruct (f =? NULL). }
  rewrite E. cbn [mbind option_bind]. destruct (IH _ _ Hi1) as (st2 & E2 & Hi2 & F2). exists st2.
  split; [done|]. split; [done|]. unfold frame in *. destruct F1 as (A & B & C), F2 as (A' & B' & C').
  split_and!; congruence.
Qed.

Lemma free_rcu_good st pend s k :
  fd_inv st pend -> socks st !! s = Some k -> s ∈ dying st -> k_peer k ∉ dying st ->
  exists st', unix_sock_free_rcu st s = Some st' /\ fd_inv st' pend.
Proof.
  intros Hi Hk Hd Hp. destruct (fi_sock _ _ Hi _ _ Hk) as [Hsn Hok]. unfold unix_sock_free_rcu. rewrite Hk.
  cbn [mbind option_bind].
  assert (Hwin : forall st', fd_inv st' (queued k ++ pend) -> fd_inv st' (anc_window (k_anc k) ++ pend)).
  { intros st' H. apply (fd_inv_pend _ _ _ H). intros f Hf. rewrite !cnt_app, anc_window_cnt by done. done. }
  destruct (Z.eqb_spec (k_peer k) NULL) as [Hn|Hn]; cbn [mbind option_bind].
  - destruct (close_all_spec _ _ _ (Hwin _ (delete_sock_inv _ _ _ _ Hi Hk Hd Hn))) as (st' & E & Hi' & _).
    by exists st'.
  - destruct (fi_peer _ _ Hi _ _ Hk Hn) as (Hne & p & Hpk & Hpp). cbn [socks with_dying]. rewrite Hpk. cbn [mbind option_bind].
    destruct (fi_open _ _ Hi _ _ Hpk Hp) as (x & Hx & _).
    assert (Hw : forall m l, unix_poll_wake (with_socks (with_dying st l) (<[k_peer k := FdSock NULL true (k_anc p) (k_file p)]> m)) (k_peer k) = Some tt).
    { intros m l. unfold unix_poll_wake. cbn [socks files with_socks with_dying].
      rewrite lookup_insert_eq. cbn [mbind option_bind k_file]. rewrite Hx. by destruct (k_file p =? NULL). }
    rewrite Hw. cbn [mbind option_bind].
    set (m1 := <[k_peer k := FdSock NULL true (k_anc p) (k_file p)]> (<[s := set_peer NULL k]> (socks st))).
    assert (Hi1 : fd_inv (with_socks st m1) pend).
    { apply peers_inv; [done|..]; unfold m1.
      - intros s'. destruct (decide (s' = k_peer k)) as [->|]; [rewrite lookup_insert_eq, Hpk; done|].
        rewrite lookup_insert_ne by done. destruct (decide (s' = s)) as [->|]; [rewrite lookup_insert_eq, Hk; done|].
        rewrite lookup_insert_ne by done. by destruct (socks st !! s').
      - intros s' k'. destruct (decide (s' = k_peer k)) as [->|]; [rewrite lookup_insert_eq; by intros [= <-]|].
        rewrite lookup_insert_ne by done. destruct (decide (s' = s)) as [->|]; [rewrite lookup_insert_eq; by intros [= <-]|].
        rewrite lookup_insert_ne by done. intros Hk' Hp'. destruct (fi_peer _ _ Hi _ _ Hk' Hp') as (? & k2 & Hk2 & Hp2).
        split; [done|]. exists k2. rewrite !lookup_insert_ne; [done|..]; intros E; rewrite <- E in Hk2;
          destruct (fi_sock _ _ Hi _ _ Hk') as [Hs0 _]; congruence.
      - intros f. rewrite (msum_insert _ _ _ p) by (by rewrite lookup_insert_ne). rewrite (msum_insert _ _ _ k) by done.
        unfold queued. cbn. lia. }
    pose proof (delete_sock_inv _ _ s (set_peer NULL k) Hi1) as Hi2. cbn [socks dying with_socks] in Hi2.
    assert (Hdel : delete s m1 = delete s (<[k_peer k := FdSock NULL true (k_anc p) (k_file p)]> (socks st))).
    { unfold m1. rewrite delete_insert_ne, delete_insert_eq by done. by rewrite delete_insert_ne. }
    rewrite Hdel in Hi2. destruct (close_all_spec _ _ _ (Hwin _ (Hi2 ltac:(unfold m1; rewrite lookup_insert_ne, lookup_insert_eq by done; done) Hd eq_refl))) as (st' & E & Hi' & _).
    by exists st'.
Qed.

(** ** Installing with memory at hand *)

Section procs.
Context (mem : Z -> bool).
Hypothesis mem_bound : forall c, mem c = true -> c < 2 ^ 31.

Lemma fd_install_mem st pend t tf f :
  fd_inv st (f :: pend) -> tables st !! t = Some tf -> mem (2 * fd_cap (tf_ft tf)) = true ->
  exists st' tf' fd, fd_install mem st t f = Some (st', Ret fd) /\ 0 <= fd /\ fd_inv st' pend /\
    tables st' !! t = Some tf' /\ (fd_cap (tf_ft tf') = fd_cap (tf_ft tf) \/ fd_cap (tf_ft tf') = 2 * fd_cap (tf_ft tf)).
Proof.
  intros Hi Ht Hm. unfold fd_install. rewrite Ht. cbn [mbind option_bind].
  destruct (fi_table _ _ Hi _ _ Ht) as [Hok _].
  destruct (alloc_slot_spec mem mem_bound (tf_ft tf) 3 Hok (start3 _ Hok)) as [[_ E]|(ft' & fd & E & Hs)]; [congruence|].
  rewrite E. cbn [mbind option_bind]. pose proof (sf_from _ _ _ _ _ Hs). do 3 eexists. split; [done|]. split; [lia|].
  split; [by eapply place_inv|]. split; [by apply with_table_lookup|]. cbn [tf_ft]. rewrite fd_cap_slot.
  destruct (sf_cap _ _ _ _ _ Hs) as [|[]]; auto.
Qed.

Lemma socketpair_good st pend t tf a b sa sb :
  fd_inv st pend -> tables st !! t = Some tf -> mem_for mem (tf_ft tf) ->
  a <> NULL -> b <> NULL -> a <> b -> files st !! a = None -> files st !! b = None ->
  sa <> NULL -> sb <> NULL -> sa <> sb -> socks st !! sa = None -> socks st !! sb = None ->
  good pend (sys_socketpair mem st t a b sa sb).
Proof.
  intros Hi Ht [Hm1 Hm2] Ha Hb Hab Fa Fb Hsa Hsb Hsab Sa Sb. unfold sys_socketpair.
  pose proof (pair_inv _ _ a b sa sb Hi Ha Hb Hab Fa Fb Hsa Hsb Hsab Sa Sb) as Hi1.
  destruct (fd_install_mem _ _ t tf _ Hi1) as (st2 & tf2 & fd & E & Hfd & Hi2 & Ht2 & Hc); [done|done|].
  rewrite E. cbn [mbind option_bind]. destruct (Z.ltb_spec fd 0); [lia|].
  destruct (fd_install_mem _ _ t tf2 _ Hi2 Ht2) as (st3 & tf3 & fd3 & E3 & Hfd3 & Hi3 & _).
  { destruct Hc as [-> | ->]; [done|]. by replace (2 * (2 * fd_cap (tf_ft tf))) with (4 * fd_cap (tf_ft tf)) by lia. }
  rewrite E3. cbn [mbind option_bind]. destruct (Z.ltb_spec fd3 0); [lia|]. by apply good_ret.
Qed.

Lemma recvmsg_take_good st pend t tf s k :
  fd_inv st pend -> tables st !! t = Some tf -> mem (2 * fd_cap (tf_ft tf)) = true -> socks st !! s = Some k ->
  good pend (recvmsg_take mem st t s).
Proof.
  intros Hi Ht Hm Hk. unfold recvmsg_take. rewrite Hk. cbn [mbind option_bind].
  destruct (fi_sock _ _ Hi _ _ Hk) as [_ Hok]. pose proof (ao_count _ Hok).
  destruct (Z.eqb_spec (anc_count (k_anc k)) 0); [by apply good_ret|].
  destruct (anc_pop_ok _ Hok) as (a & f & E & _); [lia|]. rewrite E. cbn [mbind option_bind].
  destruct (pop_inv _ _ _ _ _ _ Hi Hk E) as [Hn Hi']; [lia|].
  destruct (fd_install_mem _ _ t tf _ Hi' Ht Hm) as (st2 & tf2 & fd & E2 & Hfd & Hi2 & _). rewrite E2.
  cbn [mbind option_bind]. destruct (Z.ltb_spec fd 0); [lia|]. by apply good_ret.
Qed.

(** ** Fork, exec and exit *)

Lemma dup_all_spec : forall l st pend, fd_inv st pend -> room (Z.of_nat (length l)) st ->
  (forall f, f ∈ l -> f <> NULL -> is_Some (files st !! f)) ->
  exists st', dup_all st l = Some st' /\ fd_inv st' (l ++ pend) /\ frame st st'.
Proof.
  induction l as [|f l IH]; intros st pend Hi Hr Hl; [by exists st|]. cbn [dup_all].
  destruct (decide (f = NULL)) as [->|Hn].
  - unfold vfs_dup. cbn [mbind option_bind Z.eqb NULL]. destruct (IH st pend Hi) as (st' & E & Hi' & F).
    + eapply room_weaken; [|exact Hr]. cbn. lia.
    + intros g Hg. apply Hl. set_solver.
    + exists st'. split; [done|]. split; [|done]. apply (fd_inv_pend _ _ _ Hi'). intros g Hg. cbn [app cnt].
      destruct (Z.eqb_spec NULL g); [congruence|lia].
  - destruct (Hl f) as [file Hf]; [set_solver|done|].
    destruct (vfs_dup_spec _ _ _ _ Hi Hf) as (st1 & E1 & Hi1 & F1 & _ & Hf1 & Hle).
    { eapply room_weaken; [|exact Hr]. cbn. lia. }
    rewrite E1. cbn [mbind option_bind]. destruct (IH st1 (f :: pend) Hi1) as (st' & E & Hi' & F).
    + intros g x Hg. destruct (Hle _ _ Hg) as (y & Hy & ?). specialize (Hr _ _ Hy). cbn in Hr. lia.
    + intros g Hg Hgn. destruct (Hl g) as [y Hy]; [set_solver|done|].
      apply (fi_live _ _ Hi1 g Hgn). destruct (fi_file _ _ Hi _ _ Hy) as (_ & ? & ?).
      rewrite (frame_refs _ _ _ F1). cbn [cnt]. destruct (f =? g); lia.
    + exists st'. split; [done|]. split.
      * apply (fd_inv_pend _ _ _ Hi'). intros g Hg. cbn [app cnt]. rewrite !cnt_app. cbn [cnt]. lia.
      * unfold frame in *. destruct F1 as (A & B & C), F as (A' & B' & C'). split_and!; congruence.
Qed.

Lemma new_table_inv st pend t tf :
  fd_inv st (slots tf ++ pend) -> tables st !! t = None -> tab_ok (tf_ft tf) -> 0 < tf_refs tf < 2 ^ 32 ->
  fd_inv (with_tables st (<[t := tf]> (tables st))) pend.
Proof.
  intros [H1 H2 H3 H4 H5 H6 H7 H8 H9] Ht Hok Hrf. set (st' := with_tables _ _).
  assert (Hr : forall f, refs st' f + cnt f pend = refs st f + cnt f (slots tf ++ pend)).
  { intros f. unfold refs, st'. cbn [tables socks held with_tables]. rewrite msum_new by done. rewrite cnt_app. lia. }
  constructor; try done; cbn [tables st' with_tables].
  - intros f x Hx. rewrite Hr. by apply H1.
  - intros f. rewrite Hr. apply H2.
  - intros t' tf'. destruct (decide (t' = t)) as [->|]; [rewrite lookup_insert_eq; by intros [= <-]|].
    rewrite lookup_insert_ne by done. apply H3.
Qed.

Lemma fork_good st pend parent child tf :
  fd_inv st pend -> tables st !! parent = Some tf -> tables st !! child = None ->
  mem (fd_cap (tf_ft tf)) = true -> room (fd_cap (tf_ft tf)) st ->
  exists st', fork_files mem st parent child = Some st' /\ fd_inv st' pend.
Proof.
  intros Hi Ht Hc Hm Hr. unfold fork_files. rewrite Ht. cbn [mbind option_bind]. unfold fdtable_alloc. rewrite Hm.
  cbn [mbind option_bind]. destruct (fi_table _ _ Hi _ _ Ht) as [Hok _].
  destruct (dup_all_spec (fd_table (tf_ft tf)) st pend Hi Hr) as (st1 & E & Hi1 & (F & _)).
  { intros f [i Hf]%list_elem_of_lookup_1 Hn. eapply (slot_live _ _ _ _ (Z.of_nat i)); [done..| |done].
    unfold get_slot. by rewrite Nat2Z.id. }
  rewrite E. cbn [mbind option_bind]. eexists. split; [done|]. apply new_table_inv; [done|by rewrite F|done|cbn; lia].
Qed.

Lemma refs_field_inv st pend t tf n :
  fd_inv st pend -> tables st !! t = Some tf -> 0 < n < 2 ^ 32 ->
  fd_inv (with_tables st (<[t := TaskFiles (tf_ft tf) n]> (tables st))) pend.
Proof.
  intros [H1 H2 H3 H4 H5 H6 H7 H8 H9] Ht Hn. set (st' := with_tables _ _).
  assert (Hr : forall f, refs st' f = refs st f).
  { intros f. unfold refs, st'. cbn [tables socks held with_tables]. rewrite (msum_insert _ _ _ tf) by done.
    unfold slots. cbn [tf_ft]. lia. }
  constructor; try done; cbn [tables st' with_tables].
  - intros f x Hx. rewrite Hr. by apply H1.
  - intros f. rewrite Hr. apply H2.
  - intros t' tf'. destruct (decide (t' = t)) as [->|].
    + rewrite lookup_insert_eq. intros [= <-]. split; [by apply (H3 _ _ Ht)|done].
    + rewrite lookup_insert_ne by done. apply H3.
Qed.

Lemma delete_table_inv st pend t tf :
  fd_inv st pend -> tables st !! t = Some tf -> fd_inv (with_tables st (delete t (tables st))) (slots tf ++ pend).
Proof.
  intros [H1 H2 H3 H4 H5 H6 H7 H8 H9] Ht. set (st' := with_tables _ _).
  assert (Hr : forall f, refs st' f + cnt f (slots tf ++ pend) = refs st f + cnt f pend).
  { intros f. unfold refs, st'. cbn [tables socks held with_tables]. rewrite (msum_delete _ _ _ tf) by done.
    rewrite cnt_app. lia. }
  constructor; try done; cbn [tables st' with_tables].
  - intros f x Hx. rewrite Hr. by apply H1.
  - intros f. rewrite Hr. apply H2.
  - intros t' tf' [_ Ht']%lookup_delete_Some. by apply (H3 _ _ Ht').
Qed.

Lemma release_good st pend t tf :
  fd_inv st pend -> tables st !! t = Some tf -> exists st', task_files_release st t = Some st' /\ fd_inv st' pend.
Proof.
  intros Hi Ht. unfold task_files_release. rewrite Ht. cbn [mbind option_bind].
  destruct (fi_table _ _ Hi _ _ Ht) as [_ Hrf]. rewrite u32_id by lia.
  destruct (Z.ltb_spec 0 (tf_refs tf - 1)).
  - eexists. split; [done|]. apply refs_field_inv; [done|done|lia].
  - destruct (close_all_spec _ _ _ (delete_table_inv _ _ _ _ Hi Ht)) as (st' & E & Hi' & _). by exists st'.
Qed.

Lemma exec_sweep_good t : forall n i st pend tf, fd_inv st pend -> tables st !! t = Some tf ->
  (i + n <= length (slots tf))%nat -> exists st', exec_sweep st t i n = Some st' /\ fd_inv st' pend.
Proof.
  induction n as [|n IH]; intros i st pend tf Hi Ht Hl; [by exists st|]. cbn [exec_sweep]. rewrite Ht.
  cbn [mbind option_bind]. destruct (fi_table _ _ Hi _ _ Ht) as [[Hfl _] _]. unfold slots in Hl.
  destruct (lookup_lt_is_Some_2 (fd_table (tf_ft tf)) i) as [f Hf]; [lia|].
  destruct (lookup_lt_is_Some_2 (fd_flags (tf_ft tf)) i) as [fl Hfi]; [lia|]. rewrite Hf, Hfi. cbn [mbind option_bind].
  destruct (negb (f =? NULL) && negb (Z.land fl 1 =? 0)); cbn [mbind option_bind].
  - set (ft := set_flag _ _ _).
    assert (Hi1 : fd_inv (with_table st t ft) (f :: pend)).
    { eapply (clear_inv _ _ _ _ (Z.of_nat i)); [done|done|unfold get_slot; by rewrite Nat2Z.id|done|].
      unfold ft. cbn. by rewrite length_insert. }
    destruct (vfs_close_spec _ _ _ Hi1) as (st1 & E & Hi1' & (F & _)). rewrite E. cbn [mbind option_bind].
    eapply IH; [done|rewrite F; by apply with_table_lookup|]. unfold slots, ft. cbn. rewrite length_insert. lia.
  - eapply IH; [done|done|]. unfold slots. lia.
Qed.
End procs.
