(* ===== verification/FdTheorems.v ===== *)
(** * Open files and descriptor tables: theorems

    The exactness of reference counts over every run of calls, the effect of
    restricting a descriptor, and the error paths that break the counts. *)

From S2P Require Import Prelude Errno Fd FdSpec FdOps FdSocks FdProc.

(** ** Runs *)

Inductive fd_op :=
| OpOpen (t f : Z) (rd wr : bool) (flags : Z)
| OpPipe (t r w : Z)
| OpPair (t a b sa sb : Z)
| OpDup (t fd : Z)
| OpDup2 (t oldfd newfd : Z)
| OpDupFd (t fd arg : Z) (cloexec : bool)
| OpGetFd (t fd : Z)
| OpSetFd (t fd arg : Z)
| OpSetFl (t fd arg : Z)
| OpClose (t fd : Z)
| OpRead (t fd : Z)
| OpWrite (t fd : Z)
| OpRestrict (t fd mask : Z)
| OpGet (t fd : Z)
| OpPut (f : Z)
| OpSend (t sock_fd fd rights : Z)
| OpRecv (t sock_fd : Z) (signal : bool)
| OpRecvMsg (t s : Z)
| OpFree (s : Z)
| OpFork (parent child : Z)
| OpShare (t : Z)
| OpExec (t : Z)
| OpExit (t : Z).

Section runs.
Context (mem : Z -> bool) (op : Z -> Z).

Definition new_file (st : fd_state) (f : Z) (rd wr : bool) : fd_state :=
  with_files st (<[f := VFile rd wr 0 1 0 None]> (files st)).

Definition run (o : fd_op) (st : fd_state) : option fd_state :=
  match o with
  | OpOpen t f rd wr flags => fst <$> open_install mem (new_file st f rd wr) t f flags
  | OpPipe t r w => fst <$> pipe_install mem (new_file (new_file st r true false) w false true) t r w
  | OpPair t a b sa sb => fst <$> sys_socketpair mem st t a b sa sb
  | OpDup t fd => fst <$> sys_dup mem st t fd
  | OpDup2 t oldfd newfd => fst <$> sys_dup2 mem st t oldfd newfd
  | OpDupFd t fd arg c => fst <$> fcntl_dupfd mem st t fd arg c
  | OpGetFd t fd => fst <$> fcntl_getfd st t fd
  | OpSetFd t fd arg => fst <$> fcntl_setfd st t fd arg
  | OpSetFl t fd arg => fst <$> fcntl_setfl st t fd arg
  | OpClose t fd => fst <$> sys_close st t fd
  | OpRead t fd => fst <$> sys_read op st t fd
  | OpWrite t fd => fst <$> sys_write op st t fd
  | OpRestrict t fd mask => fst <$> sys_restrict_fd st t fd mask
  | OpGet t fd => fst <$> fdget st t fd
  | OpPut f => fdput st f
  | OpSend t sock_fd fd rights => fst <$> sys_sendfd st t sock_fd fd rights
  | OpRecv t sock_fd signal => fst <$> sys_recvfd mem st t sock_fd signal
  | OpRecvMsg t s => fst <$> recvmsg_take mem st t s
  | OpFree s => unix_sock_free_rcu st s
  | OpFork parent child => fork_files mem st parent child
  | OpShare t => share_files st t
  | OpExec t => exec_files st t
  | OpExit t => task_files_release st t
  end.

(** An open table, a valid number and room for one more reference. *)
Definition on_fd (st : fd_state) (t fd : Z) : Prop := is_Some (tables st !! t) /\ 0 <= fd /\ room 1 st.

(** What the callers see to, and the error paths left out: memory for a call
    that installs two descriptors or one taken from a queue, [F_DUPFD] below
    twice the table, peers that are still open. *)
Definition can (o : fd_op) (st : fd_state) : Prop :=
  match o with
  | OpOpen t f _ _ _ => is_Some (tables st !! t) /\ f <> NULL /\ files st !! f = None
  | OpPipe t r w =>
      (exists tf, tables st !! t = Some tf /\ mem_for mem (tf_ft tf)) /\
      r <> NULL /\ w <> NULL /\ r <> w /\ files st !! r = None /\ files st !! w = None
  | OpPair t a b sa sb =>
      (exists tf, tables st !! t = Some tf /\ mem_for mem (tf_ft tf)) /\
      a <> NULL /\ b <> NULL /\ a <> b /\ files st !! a = None /\ files st !! b = None /\
      sa <> NULL /\ sb <> NULL /\ sa <> sb /\ socks st !! sa = None /\ socks st !! sb = None
  | OpDupFd t fd arg _ =>
      on_fd st t fd /\ forall tf, tables st !! t = Some tf -> u32 arg < 2 * fd_cap (tf_ft tf)
  | OpDup2 t oldfd newfd => on_fd st t oldfd /\ 0 <= newfd
  | OpDup t fd | OpGetFd t fd | OpSetFd t fd _ | OpSetFl t fd _ | OpClose t fd | OpRead t fd | OpWrite t fd
  | OpRestrict t fd _ | OpGet t fd | OpRecv t fd _ => on_fd st t fd
  | OpPut f => f ∈ held st
  | OpSend t sock_fd fd _ => on_fd st t sock_fd /\ 0 <= fd /\ room 3 st /\ peers_open st
  | OpRecvMsg t s =>
      (exists tf, tables st !! t = Some tf /\ mem (2 * fd_cap (tf_ft tf)) = true) /\ is_Some (socks st !! s)
  | OpFree s => exists k, socks st !! s = Some k /\ s ∈ dying st /\ k_peer k ∉ dying st
  | OpFork parent child =>
      (exists tf, tables st !! parent = Some tf /\ mem (fd_cap (tf_ft tf)) = true /\ room (fd_cap (tf_ft tf)) st) /\
      tables st !! child = None
  | OpShare t => exists tf, tables st !! t = Some tf /\ tf_refs tf + 1 < 2 ^ 32
  | OpExec t | OpExit t => is_Some (tables st !! t)
  end.

Inductive fd_reachable : fd_state -> Prop :=
| reach_boot : fd_reachable (FdState ∅ {[ 1 := TaskFiles (FdTable (replicate 4 NULL) (replicate 4 0)) 1 ]} ∅ [] [])
| reach_step st o st' : fd_reachable st -> can o st -> run o st = Some st' -> fd_reachable st'.
End runs.

Lemma good_run pend m : good pend m -> exists st', fst <$> m = Some st' /\ fd_inv st' pend.
Proof. intros (st' & r & -> & H). by exists st'. Qed.

Lemma new_file_ok st pend f rd wr :
  fd_inv st pend -> f <> NULL -> files st !! f = None -> fd_inv (new_file st f rd wr) (f :: pend).
Proof. intros. by apply new_file_inv. Qed.

Lemma fd_run_inv mem op o st :
  (forall c, mem c = true -> c < 2 ^ 31) -> fd_inv st [] -> can mem o st ->
  exists st', run mem op o st = Some st' /\ fd_inv st' [].
Proof.
  intros Hm Hi Hc. destruct o; cbn [can run] in *.
  - destruct Hc as ([tf Ht] & Hf & Hn). eapply good_run, open_install_good; [done|by apply new_file_ok|done|].
    cbn. by rewrite lookup_insert_eq.
  - destruct Hc as ((tf & Ht & Hmf) & H1 & H2 & H3 & H4 & H5). eapply good_run, pipe_install_good; [done| |done|done].
    apply (fd_inv_pend _ (w :: r :: [])).
    + apply new_file_ok; [by apply new_file_ok|done|]. cbn. by rewrite lookup_insert_ne.
    + intros f _. cbn [cnt]. lia.
  - destruct Hc as ((tf & Ht & Hmf) & ? & ? & ? & ? & ? & ? & ? & ? & ? & ?). by eapply good_run, socketpair_good.
  - destruct Hc as ([tf Ht] & Hfd & Hr). by eapply good_run, sys_dup_good.
  - destruct Hc as (([tf Ht] & Hfd & Hr) & Hn). by eapply good_run, sys_dup2_good.
  - destruct Hc as (([tf Ht] & Hfd & Hr) & Hn). eapply good_run, fcntl_dupfd_good; [done..|by apply Hn].
  - destruct Hc as ([tf Ht] & Hfd & Hr). by eapply good_run, fcntl_getfd_good.
  - destruct Hc as ([tf Ht] & Hfd & Hr). by eapply good_run, fcntl_setfd_good.
  - destruct Hc as ([tf Ht] & Hfd & Hr). by eapply good_run, fcntl_setfl_good.
  - destruct Hc as ([tf Ht] & Hfd & Hr). by eapply good_run, sys_close_good.
  - destruct Hc as ([tf Ht] & Hfd & Hr). by eapply good_run, sys_read_good.
  - destruct Hc as ([tf Ht] & Hfd & Hr). by eapply good_run, sys_write_good.
  - destruct Hc as ([tf Ht] & Hfd & Hr). by eapply good_run, sys_restrict_fd_good.
  - destruct Hc as ([tf Ht] & Hfd & Hr).
    destruct (fdget_spec _ _ _ _ _ Hi Ht Hfd Hr) as [E|(st1 & f & file & E & _ & Hg)]; rewrite E; eexists; (split; [done|]).
    + done.
    + apply Hg.
  - destruct (fdput_spec _ _ _ Hi Hc) as (st' & E & Hi' & _). by exists st'.
  - destruct Hc as (([tf Ht] & Hfd & _) & Hfd2 & Hr & Hp). by eapply good_run, sys_sendfd_good.
  - destruct Hc as ([tf Ht] & Hfd & Hr). by eapply good_run, sys_recvfd_good.
  - destruct Hc as ((tf & Ht & Hmf) & [k Hk]). by eapply good_run, recvmsg_take_good.
  - destruct Hc as (k & Hk & Hd & Hp). by eapply free_rcu_good.
  - destruct Hc as ((tf & Ht & Hmf & Hr) & Hch). by eapply fork_good.
  - destruct Hc as (tf & Ht & Hr). unfold share_files. rewrite Ht. cbn. eexists. split; [done|].
    destruct (fi_table _ _ Hi _ _ Ht) as [_ ?]. rewrite u32_id by lia. apply refs_field_inv; [done|done|lia].
  - destruct Hc as [tf Ht]. unfold exec_files. rewrite Ht. cbn [mbind option_bind].
    eapply exec_sweep_good; [done|done|]. unfold slots. lia.
  - destruct Hc as [tf Ht]. by eapply release_good.
Qed.

Lemma fd_boot_inv : fd_inv (FdState ∅ {[ 1 := TaskFiles (FdTable (replicate 4 NULL) (replicate 4 0)) 1 ]} ∅ [] []) [].
Proof.
  constructor; cbn [files tables socks dying held]; try (intros ? ? H; by rewrite lookup_empty in H).
  - intros f Hn Hp. unfold refs in Hp. cbn [tables socks held] in Hp.
    rewrite <- insert_empty, msum_new in Hp by apply lookup_empty. unfold slots in Hp. cbn [tf_ft fd_table] in Hp.
    rewrite cnt_replicate, !msum_empty in Hp by done. cbn in Hp. lia.
  - intros t tf. rewrite lookup_singleton_Some. intros [<- <-]. split; [|cbn; lia]. split; [done|]. unfold fd_cap. cbn. lia.
  - intros f file s H. by rewrite lookup_empty in H.
  - split; [apply NoDup_nil; done|]. intros s H. by apply not_elem_of_nil in H.
  - intros f H. by apply not_elem_of_nil in H.
Qed.

Lemma reachable_inv mem op st : (forall c, mem c = true -> c < 2 ^ 31) -> fd_reachable mem op st -> fd_inv st [].
Proof.
  intros Hm H. induction H as [|st o st' _ IH Hc Hr]; [apply fd_boot_inv|].
  destruct (fd_run_inv mem op o st Hm IH Hc) as (st2 & E & Hi). congruence.
Qed.


(** ** Witnesses *)

Definition demo_mem (c : Z) : bool := c <=? 1024.
Definition demo_op (f : Z) : Z := 1.

(** The states of a run, and whether every step was allowed. *)
Fixpoint run_all (mem : Z -> bool) (l : list fd_op) (st : fd_state) : option fd_state :=
  match l with [] => Some st | o :: l => st ← run mem demo_op o st; run_all mem l st end.

Definition fd_boot : fd_state :=
  FdState ∅ {[ 1 := TaskFiles (FdTable (replicate 4 NULL) (replicate 4 0)) 1 ]} ∅ [] [].

Lemma demo_mem_bound c : demo_mem c = true -> c < 2 ^ 31.
Proof. unfold demo_mem. intros H%Z.leb_le. lia. Qed.

Lemma open_reachable mem op f rd wr flags st :
  f <> NULL -> run mem op (OpOpen 1 f rd wr flags) fd_boot = Some st -> fd_reachable mem op st.
Proof.
  intros Hf E. apply (reach_step mem op fd_boot (OpOpen 1 f rd wr flags) st); [apply reach_boot| |exact E].
  cbn [can]. split; [by eexists; vm_compute|]. split; [done|apply lookup_empty].
Qed.

Definition demo_open : fd_state := default fd_boot (run demo_mem demo_op (OpOpen 1 100 true true 2) fd_boot).

Lemma demo_open_files f file : files demo_open !! f = Some file -> f = 100 /\ f_refcount file = 1.
Proof.
  change (files demo_open) with ({[ 100 := VFile true true 0 1 891 None ]} : gmap Z vfs_file).
  by intros [<- <-]%lookup_singleton_Some.
Qed.


(** ** Restricting a descriptor *)

Lemma rights_check_land r m need :
  rights_check (Z.land r m) need = rights_check r need && rights_check m need.
Proof.
  unfold rights_check. apply eq_true_iff_eq. rewrite andb_true_iff, !Z.eqb_eq, !land_eq_need_iff.
  setoid_rewrite Z.land_spec. setoid_rewrite andb_true_iff. naive_solver.
Qed.

(** The first half of [fd_rights_and_errors]. *)
Lemma restrict_fd_effect st t tf fd mask f file :
  fd_inv st [] -> room 1 st -> tables st !! t = Some tf -> 0 <= fd ->
  get_slot (tf_ft tf) fd = Some f -> files st !! f = Some file ->
  exists st' file', sys_restrict_fd st t fd mask = Some (st', Ret 0) /\ files st' !! f = Some file' /\
    f_refcount file' = f_refcount file /\
    forall need, rights_gate (f_rights file') need =
      if Z.land (f_rights file) (u32 mask) =? 0 then true
      else rights_check (f_rights file) need && rights_check (u32 mask) need.
Proof.
  intros Hi Hr Ht Hfd Hs Hf. unfold sys_restrict_fd, with_fd.
  destruct (fdget_spec _ _ _ _ _ Hi Ht Hfd Hr) as [E|(st1 & f' & file1 & E & Hs' & Hg)].
  { exfalso. unfold fdget in E. rewrite Ht in E. cbn [mbind option_bind] in E.
    destruct (Z.leb_spec (fd_cap (tf_ft tf)) fd); [apply lookup_lt_Some in Hs; unfold fd_cap in *; lia|].
    rewrite Hs in E. cbn [mbind option_bind] in E. unfold vfs_tryget in E.
    destruct (fi_file _ _ Hi _ _ Hf) as (Hn & Hrc & _). destruct (Z.eqb_spec f NULL); [done|]. rewrite Hf in E.
    cbn [mbind option_bind] in E. destruct (Z.eqb_spec (f_refcount file) 0); [lia|]. injection E as _ E. done. }
  assert (f' = f) as -> by congruence. rewrite E. cbn [mbind option_bind].
  destruct (Z.eqb_spec f NULL) as [->|Hn]; [by destruct (g_null _ _ _ _ _ Hg)|].
  rewrite (g_file _ _ _ _ _ Hg). cbn [mbind option_bind].
  destruct (g_orig _ _ _ _ _ Hg) as (file0 & Hf0 & ->). assert (file0 = file) as -> by congruence.
  unfold fdput, vfs_close. destruct (Z.eqb_spec f NULL); [done|]. cbn [files with_files with_held].
  rewrite lookup_insert_eq. cbn [mbind option_bind set_rights set_refcount f_refcount f_rights].
  destruct (fi_file _ _ Hi _ _ Hf) as (_ & Hrc & _). destruct (Z.eqb_spec (f_refcount file + 1) 0); [lia|].
  destruct (Z.eqb_spec (f_refcount file + 1) 1); [lia|]. cbn [negb mbind option_bind].
  do 2 eexists. split; [done|]. cbn [files with_files with_held]. rewrite lookup_insert_eq. split; [done|].
  cbn [f_refcount f_rights set_refcount set_rights]. rewrite u32_id by lia. split; [lia|]. intros need. unfold rights_gate, rights_restrict.
  destruct (Z.eqb_spec (Z.land (f_rights file) (u32 mask)) 0); [done|]. apply rights_check_land.
Qed.

(** ** Error paths *)

(** Memory for tables of at most [n] slots. *)
Definition mem_upto (n c : Z) : bool := c <=? n.

(** Does a run end in a fault? *)
Definition faults (mem : Z -> bool) (l : list fd_op) : bool :=
  match run_all mem l fd_boot with None => true | Some _ => false end.

Definition rights_of (f : Z) (m : option fd_state) : option Z := st ← m; f_rights <$> files st !! f.

(** The second half of [fd_rights_and_errors]. *)
Lemma fd_error_paths :
  let pair := [OpPair 1 100 101 11 12; OpOpen 1 102 true true 2] in
  let send r := OpSend 1 3 0 r in
  let close := map (OpClose 1) in
  faults (mem_upto 4) [OpOpen 1 100 true true 2; OpDup 1 0; OpDup 1 0; OpPipe 1 200 201; OpClose 1 3] = true /\
  (let fill := pair ++ [send RIGHT_READ] ++ replicate 5 (OpDup 1 0) in
   faults (mem_upto 8) (fill ++ close [0; 1; 2; 5; 6; 7]) = false /\
   faults (mem_upto 8) (fill ++ [OpRecvMsg 1 12] ++ close [0; 1; 2; 5; 6; 7]) = true) /\
  faults demo_mem [OpOpen 1 100 true true 2; OpDupFd 1 0 1000 false] = true /\
  faults demo_mem (pair ++ close [3; 4] ++ [OpFree 11]) = true /\
  faults demo_mem (pair ++ close [4] ++ [send RIGHT_READ]) = true /\
  rights_of 102 (run_all demo_mem (pair ++ [send RIGHT_READ]) fd_boot) = Some RIGHT_READ /\
  rights_of 102 (run_all demo_mem (pair ++ [send RIGHT_READ; send 0]) fd_boot) = Some 0.
Proof. vm_compute. by repeat split. Qed.

(** C28: restricting an open descriptor returns 0 and ANDs the mask of its file,
    which every descriptor of the same file shares. A following read or
    write needs a right that both masks have, except that when the masks
    have no right in common the result is the mask 0, and everything is
    allowed. The error paths that break the counts. (1) When [pipe] finds no
    second slot it releases the read end and leaves it in the table: closing
    that descriptor uses a released file. (2) When [recvmsg] finds no slot
    for a received file the file loses two references, and closing the other
    descriptors of it uses a released file. (3) [F_DUPFD] from a number past
    twice the table reads and writes outside it. (4) Closing both ends of a
    socket pair before the teardown of the first runs, or sending to a
    closed peer, uses a released file. (5) Sending a read-only copy of a
    descriptor makes the sender's own descriptor read-only, and sending it
    with no rights lifts every restriction on it. *)
Theorem fd_rights_and_errors :
  (forall st t tf fd mask f file,
    fd_inv st [] -> room 1 st -> tables st !! t = Some tf -> 0 <= fd ->
    get_slot (tf_ft tf) fd = Some f -> files st !! f = Some file ->
    exists st' file', sys_restrict_fd st t fd mask = Some (st', Ret 0) /\ files st' !! f = Some file' /\
      f_refcount file' = f_refcount file /\
      forall need, rights_gate (f_rights file') need =
        if Z.land (f_rights file) (u32 mask) =? 0 then true
        else rights_check (f_rights file) need && rights_check (u32 mask) need) /\
  (let pair := [OpPair 1 100 101 11 12; OpOpen 1 102 true true 2] in
  let send r := OpSend 1 3 0 r in
  let close := map (OpClose 1) in
  faults (mem_upto 4) [OpOpen 1 100 true true 2; OpDup 1 0; OpDup 1 0; OpPipe 1 200 201; OpClose 1 3] = true /\
  (let fill := pair ++ [send RIGHT_READ] ++ replicate 5 (OpDup 1 0) in
   faults (mem_upto 8) (fill ++ close [0; 1; 2; 5; 6; 7]) = false /\
   faults (mem_upto 8) (fill ++ [OpRecvMsg 1 12] ++ close [0; 1; 2; 5; 6; 7]) = true) /\
  faults demo_mem [OpOpen 1 100 true true 2; OpDupFd 1 0 1000 false] = true /\
  faults demo_mem (pair ++ close [3; 4] ++ [OpFree 11]) = true /\
  faults demo_mem (pair ++ close [4] ++ [send RIGHT_READ]) = true /\
  rights_of 102 (run_all demo_mem (pair ++ [send RIGHT_READ]) fd_boot) = Some RIGHT_READ /\
  rights_of 102 (run_all demo_mem (pair ++ [send RIGHT_READ; send 0]) fd_boot) = Some 0).
Proof. exact (conj restrict_fd_effect fd_error_paths). Qed.

Lemma fd_rights_and_errors_witness : exists st' file',
  sys_restrict_fd demo_open 1 0 RIGHT_EXEC = Some (st', Ret 0) /\ files st' !! 100 = Some file' /\
  rights_gate (f_rights file') RIGHT_WRITE = true.
Proof.
  destruct (proj1 fd_rights_and_errors demo_open 1 (TaskFiles (FdTable [100; 0; 0; 0] [0; 0; 0; 0]) 1) 0 RIGHT_EXEC 100
    (VFile true true 0 1 891 None)) as (st' & file' & E & Hf & _ & Hg).
  - eapply (reachable_inv demo_mem demo_op); [exact demo_mem_bound|].
    apply (open_reachable _ _ 100 true true 2); [done|vm_compute; reflexivity].
  - intros f file [_ ->]%demo_open_files. lia.
  - vm_compute. reflexivity.
  - lia.
  - vm_compute. reflexivity.
  - vm_compute. reflexivity.
  - exists st', file'. split; [exact E|]. split; [exact Hf|]. rewrite Hg. reflexivity.
Defined.
