(* ===== verification/UnixNs.v ===== *)
(** * The namespace of Unix sockets

    Models the table of bound paths at the top of kernel/net/unix_sock.c: an
    open-addressing hash table with linear probing, rebuilt by every insertion
    and removal and published as a whole.  A path is the list of its bytes
    before the terminator; a slot whose socket is NULL is empty.  [mem cap]
    tells whether a table of [cap] slots can be allocated.  A probe that finds
    no empty slot would not end; it is [None]. *)

From S2P Require Import Prelude Errno.

Abbreviation UNIX_NS_INIT_CAP := 32%Z (only parsing).
Abbreviation UNIX_PATH_MAX := 108%Z (only parsing).

Record unix_ns_entry := NsEntry { ns_path : list Z; ns_sock : Z }.
Record unix_ns_table := NsTable { ns_slots : list unix_ns_entry; ns_cnt : Z }.
Definition ns_cap (t : unix_ns_table) : Z := Z.of_nat (length (ns_slots t)).

Fixpoint ns_streq (a b : list Z) : bool :=
  match a, b with
  | [], [] => true
  | x :: a, y :: b => (x =? y) && ns_streq a b
  | _, _ => false
  end.

Definition ns_path_copy (src : list Z) : list Z := take (Z.to_nat (UNIX_PATH_MAX - 1)) src.

(** FNV-1a, 32 bits. *)
Definition fnv_step (h c : Z) : Z := u32 (Z.lxor h (u8 c) * 16777619).
Definition ns_hash_str (s : list Z) (cap : Z) : Z := Z.land (fold_left fnv_step s 2166136261) (cap - 1).

Definition next_slot (i cap : Z) : Z := Z.land (u32 (i + 1)) (cap - 1).

(** The first empty slot from [i] on. *)
Fixpoint probe_free (fuel : nat) (slots : list unix_ns_entry) (i : Z) : option Z :=
  match fuel with
  | O => None
  | S fuel =>
      e ← slots !! Z.to_nat i;
      if ns_sock e =? NULL then Some i else probe_free fuel slots (next_slot i (Z.of_nat (length slots)))
  end.

Definition ns_table_raw_insert (t : unix_ns_table) (path : list Z) (sock : Z) : option unix_ns_table :=
  i ← probe_free (length (ns_slots t)) (ns_slots t) (ns_hash_str path (ns_cap t));
  Some (NsTable (<[Z.to_nat i := NsEntry (ns_path_copy path) sock]> (ns_slots t)) (u32 (ns_cnt t + 1))).

(** The lookup loop of [ns_find] and of the duplicate check, from the [n]-th
    probe at slot [i]; NULL when the path is not there. *)
Fixpoint probe_path (n : nat) (slots : list unix_ns_entry) (i : Z) (path : list Z) : option Z :=
  match n with
  | O => Some NULL
  | S n =>
      e ← slots !! Z.to_nat i;
      if ns_sock e =? NULL then Some NULL
      else if ns_streq (ns_path e) path then Some (ns_sock e)
      else probe_path n slots (next_slot i (Z.of_nat (length slots))) path
  end.

Definition ns_find (ns : option unix_ns_table) (path : list Z) : option Z :=
  match ns with
  | None => Some NULL
  | Some t => probe_path (length (ns_slots t)) (ns_slots t) (ns_hash_str path (ns_cap t)) path
  end.

Section calls.
Context (mem : Z -> bool).

Definition ns_table_alloc (cap : Z) : option unix_ns_table :=
  if mem cap then Some (NsTable (replicate (Z.to_nat cap) (NsEntry [] NULL)) 0) else None.

(** Insert the entries that are in use, in slot order. *)
Fixpoint reinsert (t : unix_ns_table) (l : list unix_ns_entry) : option unix_ns_table :=
  match l with
  | [] => Some t
  | e :: l =>
      t ← (if ns_sock e =? NULL then Some t else ns_table_raw_insert t (ns_path e) (ns_sock e));
      reinsert t l
  end.

Definition new_cap (old_cap old_cnt : Z) : Z :=
  let cap := if old_cap =? 0 then UNIX_NS_INIT_CAP else old_cap in
  if u32 (cap * 3) <=? u32 (u32 (old_cnt + 1) * 4)
  then (if old_cap =? 0 then UNIX_NS_INIT_CAP else u32 (old_cap * 2)) else cap.

(** The new table and the result. *)
Definition ns_insert (ns : option unix_ns_table) (path : list Z) (sock : Z) : option (option unix_ns_table * Z) :=
  found ← ns_find ns path;
  if negb (found =? NULL) then Some (ns, - EADDRINUSE)
  else
    let old_cap := match ns with Some t => ns_cap t | None => 0 end in
    let old_cnt := match ns with Some t => ns_cnt t | None => 0 end in
    match ns_table_alloc (new_cap old_cap old_cnt) with
    | None => Some (ns, - ENOMEM)
    | Some neu =>
        neu ← reinsert neu (match ns with Some t => ns_slots t | None => [] end);
        neu ← ns_table_raw_insert neu path sock;
        Some (Some neu, 0)
    end.

(** Copy everything but the first entry with the path. *)
Fixpoint reinsert_but (t : unix_ns_table) (l : list unix_ns_entry) (path : list Z) (removed : bool) : option unix_ns_table :=
  match l with
  | [] => Some t
  | e :: l =>
      if ns_sock e =? NULL then reinsert_but t l path removed
      else if negb removed && ns_streq (ns_path e) path then reinsert_but t l path true
      else t ← ns_table_raw_insert t (ns_path e) (ns_sock e); reinsert_but t l path removed
  end.

Definition ns_remove (ns : option unix_ns_table) (path : list Z) : option (option unix_ns_table) :=
  match ns with
  | None => Some ns
  | Some old =>
      match ns_table_alloc (ns_cap old) with
      | None => Some ns
      | Some neu => neu ← reinsert_but neu (ns_slots old) path false; Some (Some neu)
      end
  end.
End calls.
