(* ===== verification/UnixNsSpec.v ===== *)
(** * The namespace of Unix sockets: the table implements a map

    The invariant of linear probing without deletion: every slot from the hash
    of a path to the slot of its entry is in use.  A lookup then finds the
    entry before it meets an empty slot, and since the table is never full
    every probe ends. *)

From S2P Require Import Prelude Errno UnixNs.

Lemma streq_spec a : forall b, ns_streq a b = bool_decide (a = b).
Proof.
  induction a as [|x a IH]; intros [|y b]; cbn; try done. rewrite IH.
  destruct (Z.eqb_spec x y) as [->|Hne]; cbn; apply bool_decide_ext || (symmetry; apply bool_decide_eq_false); naive_solver.
Qed.

(** ** Slots modulo the capacity *)

Section table.
Context (k : Z).
Hypothesis k_range : 0 <= k <= 30.
Let cap : Z := 2 ^ k.

Lemma cap_pos : 0 < cap.
Proof. apply Z.pow_pos_nonneg; lia. Qed.

Lemma cap_le : cap <= 2 ^ 30.
Proof. apply Z.pow_le_mono_r; lia. Qed.

Lemma land_cap x : 0 <= x -> Z.land x (cap - 1) = x mod cap.
Proof.
  intros Hx. unfold cap. replace (2 ^ k - 1) with (Z.ones k) by (rewrite Z.ones_equiv; lia).
  apply Z.land_ones. lia.
Qed.

Lemma next_slot_mod i : 0 <= i < cap -> next_slot i cap = (i + 1) mod cap.
Proof. intros Hi. pose proof cap_le. unfold next_slot. rewrite u32_id by lia. apply land_cap. lia. Qed.

Lemma fnv_range s : forall h, 0 <= h < 2 ^ 32 -> 0 <= fold_left fnv_step s h < 2 ^ 32.
Proof. induction s as [|c s IH]; intros h Hh; cbn; [done|]. apply IH, u32_range. Qed.

Lemma hash_range s : 0 <= ns_hash_str s cap < cap.
Proof.
  unfold ns_hash_str. rewrite land_cap by (apply fnv_range; lia). apply Z.mod_pos_bound, cap_pos.
Qed.

(** The [n]-th slot probed from [h]. *)
Definition idx (h n : Z) : Z := (h + n) mod cap.

Lemma idx_range h n : 0 <= idx h n < cap.
Proof. apply Z.mod_pos_bound, cap_pos. Qed.

Lemma idx_next h n : 0 <= h < cap -> idx (next_slot h cap) n = idx h (n + 1).
Proof.
  intros Hh. unfold idx. rewrite next_slot_mod by done. rewrite Zplus_mod_idemp_l. f_equal. lia.
Qed.

Lemma idx_0 h : 0 <= h < cap -> idx h 0 = h.
Proof. intros Hh. unfold idx. rewrite Z.add_0_r. by apply Z.mod_small. Qed.

(** Every slot is met within [cap] probes. *)
Lemma idx_dist h i : 0 <= h < cap -> 0 <= i < cap -> idx h ((i - h) mod cap) = i.
Proof.
  intros Hh Hi. unfold idx. rewrite Zplus_mod_idemp_r. replace (h + (i - h)) with i by lia. by apply Z.mod_small.
Qed.

Definition used (slots : list unix_ns_entry) (i : Z) : Prop :=
  exists e, slots !! Z.to_nat i = Some e /\ ns_sock e <> NULL.

Lemma slot_get (slots : list unix_ns_entry) i : Z.of_nat (length slots) = cap -> 0 <= i < cap -> exists e, slots !! Z.to_nat i = Some e.
Proof. intros Hl Hi. apply lookup_lt_is_Some. lia. Qed.

Lemma probe_free_spec slots : Z.of_nat (length slots) = cap -> forall fuel h,
  0 <= h < cap -> (exists n, 0 <= n < Z.of_nat fuel /\ ~ used slots (idx h n)) ->
  exists n, 0 <= n < Z.of_nat fuel /\ probe_free fuel slots h = Some (idx h n) /\
    ~ used slots (idx h n) /\ forall m, 0 <= m < n -> used slots (idx h m).
Proof.
  intros Hl. induction fuel as [|fuel IH]; intros h Hh (n & Hn & Hu); [lia|]. cbn [probe_free].
  destruct (slot_get slots h Hl Hh) as [e He]. rewrite He. cbn [mbind option_bind].
  destruct (Z.eqb_spec (ns_sock e) NULL) as [Hz|Hz].
  - exists 0. rewrite idx_0 by done. split; [lia|]. split; [done|]. split; [|lia].
    intros (e' & He' & ?). congruence.
  - rewrite Hl. pose proof (next_slot_mod h Hh) as Hx.
    assert (Hr : 0 <= next_slot h cap < cap) by (rewrite Hx; apply Z.mod_pos_bound, cap_pos).
    assert (n <> 0) by (intros ->; rewrite idx_0 in Hu by done; apply Hu; by exists e).
    destruct (IH (next_slot h cap) Hr) as (m & Hm & E & Hum & Hall).
    { exists (n - 1). split; [lia|]. rewrite idx_next by done. by replace (n - 1 + 1) with n by lia. }
    exists (m + 1). rewrite idx_next in * by done. split; [lia|]. split; [done|]. split; [done|].
    intros j Hj. destruct (decide (j = 0)) as [->|]; [rewrite idx_0 by done; by exists e|].
    replace j with (j - 1 + 1) by lia. rewrite <- idx_next by done. apply Hall. lia.
Qed.

(** ** The invariant *)

Record ns_ok (slots : list unix_ns_entry) : Prop := {
  no_cap : Z.of_nat (length slots) = cap;
  no_probe : forall i e, 0 <= i -> slots !! Z.to_nat i = Some e -> ns_sock e <> NULL ->
    forall n, 0 <= n < (i - ns_hash_str (ns_path e) cap) mod cap -> used slots (idx (ns_hash_str (ns_path e) cap) n);
  no_inj : forall i j e e', slots !! i = Some e -> slots !! j = Some e' -> ns_sock e <> NULL -> ns_sock e' <> NULL ->
    ns_path e = ns_path e' -> i = j;
  no_len : forall i e, slots !! i = Some e -> ns_sock e <> NULL -> (length (ns_path e) <= 107)%nat;
}.

Definition has (slots : list unix_ns_entry) (p : list Z) (s : Z) : Prop :=
  s <> NULL /\ exists i, slots !! i = Some (NsEntry p s).

Lemma probe_path_spec slots p s : ns_ok slots -> forall fuel n i,
  let h := ns_hash_str p cap in
  0 <= n -> i = idx h n -> s <> NULL ->
  (exists j, slots !! Z.to_nat j = Some (NsEntry p s) /\ 0 <= j < cap /\ n <= (j - h) mod cap < n + Z.of_nat fuel) ->
  probe_path fuel slots i p = Some s.
Proof.
  intros Hok. induction fuel as [|fuel IH]; intros n i h Hn Hi Hs (j & Hj & Hjr & Hd); [lia|]. cbn [probe_path].
  pose proof (no_cap _ Hok) as Hl. pose proof (hash_range p) as Hh. fold h in Hh.
  assert (Hir : 0 <= i < cap) by (rewrite Hi; apply idx_range).
  destruct (slot_get slots i Hl Hir) as [e He]. rewrite He. cbn [mbind option_bind].
  destruct (decide (n = (j - h) mod cap)) as [En|En].
  - assert (i = j) as -> by (rewrite Hi, En; by apply idx_dist). assert (e = NsEntry p s) as -> by congruence.
    cbn [ns_sock ns_path]. rewrite streq_spec, bool_decide_eq_true_2 by done. by destruct (Z.eqb_spec s NULL).
  - assert (used slots i) as (e' & He' & Hu).
    { rewrite Hi. apply (no_probe _ Hok j (NsEntry p s)); [lia|done|done|]. cbn [ns_path]. fold h. lia. }
    assert (e' = e) as -> by congruence. destruct (Z.eqb_spec (ns_sock e) NULL); [done|].
    rewrite streq_spec. case_bool_decide as Ep.
    + exfalso. assert (Z.to_nat i = Z.to_nat j) by (eapply (no_inj _ Hok); [exact He|exact Hj|done|done|done]).
      apply En. assert (i = j) as Eij by lia. rewrite <- Eij, Hi. unfold idx. rewrite Zminus_mod_idemp_l.
      replace (h + n - h) with n by lia. rewrite Z.mod_small; [done|]. pose proof (Z.mod_pos_bound (j - h) cap cap_pos). lia.
    + rewrite Hl. apply (IH (n + 1)); [lia| |done|].
      * rewrite Hi. unfold idx. rewrite next_slot_mod by apply idx_range. rewrite Zplus_mod_idemp_l. f_equal. lia.
      * exists j. split; [done|]. split; [done|]. fold h. lia.
Qed.

Lemma probe_path_none slots p : ns_ok slots -> (forall s, ~ has slots p s) -> forall fuel i, 0 <= i < cap ->
  probe_path fuel slots i p = Some NULL.
Proof.
  intros Hok Hno. pose proof (no_cap _ Hok) as Hl. induction fuel as [|fuel IH]; intros i Hi; [done|]. cbn [probe_path].
  destruct (slot_get slots i Hl Hi) as [e He]. rewrite He. cbn [mbind option_bind].
  destruct (Z.eqb_spec (ns_sock e) NULL) as [|Hu]; [done|]. rewrite streq_spec. case_bool_decide as Ep.
  - exfalso. apply (Hno (ns_sock e)). split; [done|]. exists (Z.to_nat i). rewrite He, <- Ep. by destruct e.
  - rewrite Hl. apply IH. rewrite next_slot_mod by done. apply Z.mod_pos_bound, cap_pos.
Qed.

Lemma find_hit t p s : ns_ok (ns_slots t) -> has (ns_slots t) p s -> ns_find (Some t) p = Some s.
Proof.
  intros Hok (Hs & i & Hi). pose proof (no_cap _ Hok) as Hl. cbn [ns_find]. unfold ns_cap. rewrite Hl.
  pose proof (hash_range p). pose proof (lookup_lt_Some _ _ _ Hi).
  apply (probe_path_spec _ _ _ Hok _ 0); [lia|by rewrite idx_0|done|].
  exists (Z.of_nat i). rewrite Nat2Z.id. split; [done|]. split; [lia|].
  pose proof (Z.mod_pos_bound (Z.of_nat i - ns_hash_str p cap) cap cap_pos). lia.
Qed.

Lemma find_miss t p : ns_ok (ns_slots t) -> (forall s, ~ has (ns_slots t) p s) -> ns_find (Some t) p = Some NULL.
Proof.
  intros Hok Hno. cbn [ns_find]. unfold ns_cap. rewrite (no_cap _ Hok). apply probe_path_none; [done|done|apply hash_range].
Qed.

(** ** Insertion *)

Definition inuse (slots : list unix_ns_entry) : Z := Z.of_nat (length (filter (fun e => ns_sock e <> NULL) slots)).

Lemma inuse_insert slots i e e' :
  slots !! i = Some e -> ns_sock e = NULL -> ns_sock e' <> NULL -> inuse (<[i := e']> slots) = inuse slots + 1.
Proof.
  intros Hi He He'. unfold inuse. revert i Hi. induction slots as [|x l IH]; intros [|i] Hi; try done.
  - injection Hi as ->. change (<[0%nat:=e']> (e :: l)) with (e' :: l).
    rewrite filter_cons_True, filter_cons_False by (try done; naive_solver). cbn. lia.
  - change (<[S i:=e']> (x :: l)) with (x :: <[i:=e']> l). specialize (IH i Hi).
    destruct (decide (ns_sock x <> NULL)); [rewrite !filter_cons_True by done|rewrite !filter_cons_False by done]; cbn in *; lia.
Qed.

Lemma inuse_free slots : Z.of_nat (length slots) = cap -> inuse slots < cap -> exists i, 0 <= i < cap /\ ~ used slots i.
Proof.
  intros Hl Hc. assert (exists i e, slots !! i = Some e /\ ns_sock e = NULL) as (i & e & Hi & He).
  { rewrite <- Hl in Hc. clear Hl. unfold inuse in Hc. induction slots as [|x l IH]; [cbn in Hc; lia|].
    destruct (decide (ns_sock x = NULL)) as [|Hx]; [by exists 0%nat, x|].
    rewrite filter_cons_True in Hc by done. destruct IH as (i & e & Hi & ?); [cbn in Hc; lia|]. by exists (S i), e. }
  pose proof (lookup_lt_Some _ _ _ Hi). exists (Z.of_nat i). split; [lia|]. intros (e' & He' & ?).
  rewrite Nat2Z.id in He'. congruence.
Qed.

Lemma used_insert slots i j e : used slots j -> ns_sock e <> NULL -> used (<[i := e]> slots) j.
Proof.
  intros (x & Hx & Hu) He. unfold used. destruct (decide (i = Z.to_nat j)) as [->|].
  - exists e. rewrite list_lookup_insert_eq; [done|]. by eapply lookup_lt_Some.
  - exists x. by rewrite list_lookup_insert_ne.
Qed.

Lemma raw_insert_spec t p s :
  ns_ok (ns_slots t) -> inuse (ns_slots t) < cap -> ns_cnt t = inuse (ns_slots t) ->
  (forall s', ~ has (ns_slots t) p s') -> (length p <= 107)%nat -> s <> NULL ->
  exists t', ns_table_raw_insert t p s = Some t' /\ ns_ok (ns_slots t') /\ ns_cnt t' = inuse (ns_slots t') /\
    inuse (ns_slots t') = inuse (ns_slots t) + 1 /\
    forall q r, has (ns_slots t') q r <-> has (ns_slots t) q r \/ q = p /\ r = s.
Proof.
  intros Hok Hfree Hcnt Hno Hlen Hs. pose proof (no_cap _ Hok) as Hl. pose proof (hash_range p) as Hh. pose proof cap_le.
  unfold ns_table_raw_insert, ns_cap. rewrite Hl.
  destruct (inuse_free _ Hl Hfree) as (i0 & Hi0 & Hu0).
  destruct (probe_free_spec _ Hl (length (ns_slots t)) (ns_hash_str p cap) Hh) as (n & Hn & E & Hu & Hall).
  { exists ((i0 - ns_hash_str p cap) mod cap). rewrite idx_dist by done. split; [|done]. rewrite Hl. apply Z.mod_pos_bound, cap_pos. }
  rewrite E. cbn [mbind option_bind]. eexists. split; [done|]. cbn [ns_slots ns_cnt].
  set (h := ns_hash_str p cap) in *. set (i := idx h n) in *. pose proof (idx_range h n) as Hi. fold i in Hi.
  assert (Hcp : ns_path_copy p = p) by (unfold ns_path_copy; apply take_ge; cbn; lia). rewrite Hcp.
  destruct (slot_get _ i Hl Hi) as [e He].
  assert (Hez : ns_sock e = NULL) by (destruct (decide (ns_sock e = NULL)); [done|]; destruct Hu; by exists e).
  assert (Hinu : inuse (<[Z.to_nat i:=NsEntry p s]> (ns_slots t)) = inuse (ns_slots t) + 1) by by eapply inuse_insert.
  assert (Hcases : forall j x, <[Z.to_nat i:=NsEntry p s]> (ns_slots t) !! j = Some x ->
    j = Z.to_nat i /\ x = NsEntry p s \/ j <> Z.to_nat i /\ ns_slots t !! j = Some x).
  { intros j x. destruct (decide (j = Z.to_nat i)) as [->|].
    - rewrite list_lookup_insert_eq by (by eapply lookup_lt_Some). naive_solver.
    - rewrite list_lookup_insert_ne by done. naive_solver. }
  assert (Hnp : forall j x, ns_slots t !! j = Some x -> ns_sock x <> NULL -> ns_path x <> p).
  { intros j x Hx Hxs Hp. apply (Hno (ns_sock x)). split; [done|]. exists j. rewrite Hx, <- Hp. by destruct x. }
  split; [|split; [|split; [done|]]].
  - constructor.
    + by rewrite length_insert.
    + intros j x Hj Hx Hxs m Hm. apply used_insert; [|done].
      destruct (Hcases _ _ Hx) as [[Ej ->]|[Ej Hx']].
      * cbn [ns_path] in *. fold h in Hm |- *. apply Hall. assert (j = i) as -> by lia.
        unfold i, idx in Hm. rewrite Zminus_mod_idemp_l in Hm. replace (h + n - h) with n in Hm by lia.
        rewrite Z.mod_small in Hm by lia. lia.
      * by apply (no_probe _ Hok j x).
    + intros j j' x x' Hx Hx' Hxs Hxs' Hp.
      destruct (Hcases _ _ Hx) as [[-> ->]|[Ej Hx1]], (Hcases _ _ Hx') as [[-> ->]|[Ej' Hx1']]; [done| | |].
      * by destruct (Hnp _ _ Hx1' Hxs').
      * by destruct (Hnp _ _ Hx1 Hxs).
      * by apply (no_inj _ Hok j j' x x').
    + intros j x Hx Hxs. destruct (Hcases _ _ Hx) as [[_ ->]|[_ Hx1]]; [done|]. by apply (no_len _ Hok j x).
  - rewrite Hinu, Hcnt. unfold inuse. rewrite u32_id; [done|]. pose proof (Nat2Z.is_nonneg (length (filter (fun e => ns_sock e <> NULL) (ns_slots t)))).
    unfold inuse in Hfree. lia.
  - intros q r. split.
    + intros (Hr & j & Hj). destruct (Hcases _ _ Hj) as [[_ [= -> ->]]|[_ Hj']]; [by right|]. left. split; [done|]. by exists j.
    + intros [(Hr & j & Hj)|[-> ->]].
      * split; [done|]. exists j. rewrite list_lookup_insert_ne; [done|]. intros <-. assert (e = NsEntry q r) as -> by congruence. done.
      * split; [done|]. exists (Z.to_nat i). apply list_lookup_insert_eq. by eapply lookup_lt_Some.
Qed.

(** ** Rebuilding *)

(** The entries of [l] have distinct paths of legal length. *)
Definition entries_ok (l : list unix_ns_entry) : Prop :=
  NoDup (ns_path <$> filter (fun e => ns_sock e <> NULL) l) /\
  forall e, e ∈ l -> ns_sock e <> NULL -> (length (ns_path e) <= 107)%nat.

Lemma has_cons e l q r : has (e :: l) q r <-> r <> NULL /\ e = NsEntry q r \/ has l q r.
Proof.
  unfold has. split.
  - intros (Hr & [|i] & Hi); [left; split; [done|]; cbn in Hi; congruence|right; split; [done|by exists i]].
  - intros [[Hr ->]|(Hr & i & Hi)]; (split; [done|]); [by exists 0%nat|by exists (S i)].
Qed.

Lemma has_in l q r : has l q r -> q ∈ ns_path <$> filter (fun e => ns_sock e <> NULL) l.
Proof.
  intros (Hr & i & Hi). apply list_elem_of_fmap. exists (NsEntry q r). split; [done|].
  apply list_elem_of_filter. split; [done|]. by eapply list_elem_of_lookup_2.
Qed.

Lemma entries_cons_used e l : entries_ok (e :: l) -> ns_sock e <> NULL ->
  entries_ok l /\ (length (ns_path e) <= 107)%nat /\ (forall r, ~ has l (ns_path e) r) /\ inuse (e :: l) = inuse l + 1.
Proof.
  intros [Hn Hl] He. rewrite filter_cons_True, fmap_cons in Hn by done. apply NoDup_cons in Hn as [Hx Hn].
  split_and!; [split; [done|]; intros; apply Hl; set_solver|apply Hl; set_solver| |].
  - intros r Hr%has_in. done.
  - unfold inuse. rewrite filter_cons_True by done. cbn. lia.
Qed.

Lemma entries_cons_free e l : entries_ok (e :: l) -> ns_sock e = NULL -> entries_ok l /\ inuse (e :: l) = inuse l.
Proof.
  intros [Hn Hl] He. rewrite filter_cons_False in Hn by naive_solver.
  split; [split; [done|]; intros; apply Hl; set_solver|]. unfold inuse. by rewrite filter_cons_False by naive_solver.
Qed.

Lemma inuse_nonneg l : 0 <= inuse l.
Proof. clear. unfold inuse. lia. Qed.

(** What a rebuild leaves: a well-formed table with the old entries and those
    of [keep]. *)
Record rebuilt (t t' : unix_ns_table) (keep : list Z -> Z -> Prop) (n : Z) : Prop := {
  rb_ok : ns_ok (ns_slots t');
  rb_cnt : ns_cnt t' = inuse (ns_slots t');
  rb_num : inuse (ns_slots t') <= inuse (ns_slots t) + n;
  rb_has : forall q r, has (ns_slots t') q r <-> has (ns_slots t) q r \/ keep q r;
}.

Lemma reinsert_spec : forall l t,
  ns_ok (ns_slots t) -> ns_cnt t = inuse (ns_slots t) -> entries_ok l ->
  inuse (ns_slots t) + inuse l <= cap -> (forall q r r', has l q r -> ~ has (ns_slots t) q r') ->
  exists t', reinsert t l = Some t' /\ rebuilt t t' (has l) (inuse l).
Proof.
  induction l as [|e l IH]; intros t Hok Hcnt Hl Hc Hdis; cbn [reinsert].
  { exists t. split; [done|]. constructor; [done|done|change (inuse []) with 0; lia|]. intros q r. split; [by left|].
    intros [|(_ & i & Hi)]; [done|by rewrite lookup_nil in Hi]. }
  destruct (Z.eqb_spec (ns_sock e) NULL) as [He|He]; cbn [mbind option_bind].
  - destruct (entries_cons_free _ _ Hl He) as [Hl' Hi]. rewrite Hi in *.
    destruct (IH t Hok Hcnt Hl' Hc) as (t' & E & [R1 R2 R3 R4]).
    { intros q r r' Hq. apply (Hdis q r). apply has_cons. by right. }
    exists t'. split; [done|]. constructor; [done|done|done|]. intros q r. rewrite R4, has_cons.
    split; [naive_solver|]. intros [|[[? ->]|]]; [by left|done|by right].
  - destruct (entries_cons_used _ _ Hl He) as (Hl' & Hlen & Hno & Hi). rewrite Hi in *. pose proof (inuse_nonneg l).
    assert (Hhd : has (e :: l) (ns_path e) (ns_sock e)) by (apply has_cons; left; split; [done|by destruct e]).
    destruct (raw_insert_spec t (ns_path e) (ns_sock e) Hok) as (t1 & E1 & Hok1 & Hc1 & Hi1 & Hh1);
      [lia|done|intros s'; by eapply Hdis|done|done|].
    rewrite E1. cbn [mbind option_bind]. destruct (IH t1 Hok1 Hc1 Hl') as (t' & E & [R1 R2 R3 R4]); [lia| |].
    { intros q r r' Hq Hq1. apply Hh1 in Hq1 as [Hq1|[-> _]]; [|by apply (Hno r)].
      apply (Hdis q r r'); [|done]. apply has_cons. by right. }
    exists t'. split; [done|]. constructor; [done|done|lia|]. intros q r. rewrite R4, Hh1, has_cons. split.
    + intros [[|[-> ->]]|]; [by left|right; left; split; [done|by destruct e]|by right; right].
    + intros [|[[? ->]|]]; [by left; left|left; by right|by right].
Qed.

Lemma reinsert_but_spec p : forall l removed t,
  ns_ok (ns_slots t) -> ns_cnt t = inuse (ns_slots t) -> entries_ok l ->
  inuse (ns_slots t) + inuse l <= cap -> (forall q r r', has l q r -> ~ has (ns_slots t) q r') ->
  (removed = true -> forall r, ~ has l p r) ->
  exists t', reinsert_but t l p removed = Some t' /\ rebuilt t t' (fun q r => has l q r /\ q <> p) (inuse l).
Proof.
  induction l as [|e l IH]; intros removed t Hok Hcnt Hl Hc Hdis Hrm; cbn [reinsert_but].
  { exists t. split; [done|]. constructor; [done|done|change (inuse []) with 0; lia|]. intros q r. split; [by left|].
    intros [|[(_ & i & Hi) _]]; [done|by rewrite lookup_nil in Hi]. }
  destruct (Z.eqb_spec (ns_sock e) NULL) as [He|He].
  - destruct (entries_cons_free _ _ Hl He) as [Hl' Hi]. rewrite Hi in *.
    destruct (IH removed t Hok Hcnt Hl' Hc) as (t' & E & [R1 R2 R3 R4]).
    { intros q r r' Hq. apply (Hdis q r). apply has_cons. by right. }
    { intros Hr r Hq. apply (Hrm Hr r). apply has_cons. by right. }
    exists t'. split; [done|]. constructor; [done|done|done|]. intros q r. rewrite R4, has_cons.
    split; [naive_solver|]. intros [|[[[? ->]|] ?]]; [by left|done|by right].
  - destruct (entries_cons_used _ _ Hl He) as (Hl' & Hlen & Hno & Hi). rewrite Hi in *. pose proof (inuse_nonneg l).
    assert (Hhd : has (e :: l) (ns_path e) (ns_sock e)) by (apply has_cons; left; split; [done|by destruct e]).
    rewrite streq_spec. destruct (decide (ns_path e = p)) as [Hp|Hp].
    + assert (removed = false) as -> by (destruct removed; [|done]; destruct (Hrm eq_refl (ns_sock e)); by rewrite <- Hp).
      rewrite bool_decide_eq_true_2 by done. cbn [negb andb].
      destruct (IH true t Hok Hcnt Hl') as (t' & E & [R1 R2 R3 R4]); [lia| | |].
      { intros q r r' Hq. apply (Hdis q r). apply has_cons. by right. }
      { intros _ r. rewrite <- Hp. apply Hno. }
      exists t'. split; [done|]. constructor; [done|done|lia|]. intros q r. rewrite R4, has_cons.
      split; [naive_solver|]. intros [|[[[? ->]|] ?]]; [by left|done|by right].
    + rewrite bool_decide_eq_false_2 by done. rewrite andb_false_r.
      destruct (raw_insert_spec t (ns_path e) (ns_sock e) Hok) as (t1 & E1 & Hok1 & Hc1 & Hi1 & Hh1);
        [lia|done|intros s'; by eapply Hdis|done|done|].
      rewrite E1. cbn [mbind option_bind]. destruct (IH removed t1 Hok1 Hc1 Hl') as (t' & E & [R1 R2 R3 R4]); [lia| | |].
      { intros q r r' Hq Hq1. apply Hh1 in Hq1 as [Hq1|[-> _]]; [|by apply (Hno r)].
        apply (Hdis q r r'); [|done]. apply has_cons. by right. }
      { intros Hr r Hq. apply (Hrm Hr r). apply has_cons. by right. }
      exists t'. split; [done|]. constructor; [done|done|lia|]. intros q r. rewrite R4, Hh1, has_cons. split.
      * intros [[|[-> ->]]|[]]; [by left|right; split; [left; split; [done|by destruct e]|done]|right; split; [by right|done]].
      * intros [|[[[? ->]|] ?]]; [by left; left|left; by right|by right].
Qed.

Lemma fresh_table_ok : ns_ok (replicate (Z.to_nat cap) (NsEntry [] NULL)) /\ inuse (replicate (Z.to_nat cap) (NsEntry [] NULL)) = 0.
Proof.
  pose proof cap_pos. split.
  - constructor.
    + rewrite length_replicate. lia.
    + intros i e _ [-> _]%lookup_replicate. done.
    + intros i j e e' [-> _]%lookup_replicate. done.
    + intros i e [-> _]%lookup_replicate. done.
  - unfold inuse. induction (Z.to_nat cap) as [|n IH]; [done|]. cbn [replicate]. by rewrite filter_cons_False by (intros H'; by apply H').
Qed.

Lemma slots_entries slots : ns_ok slots -> entries_ok slots.
Proof.
  clear k_range. intros [_ _ Hinj Hlen]. split.
  - clear Hlen. induction slots as [|e l IH]; [constructor|].
    assert (Hl : NoDup (ns_path <$> filter (fun e => ns_sock e <> NULL) l)).
    { apply IH. intros i j x x' Hx Hx' ? ? ?. assert (S i = S j) by (by eapply Hinj). lia. }
    destruct (decide (ns_sock e <> NULL)) as [He|He]; [rewrite filter_cons_True by done|by rewrite filter_cons_False by done].
    rewrite fmap_cons. apply NoDup_cons. split; [|done]. intros (x & Hp & [Hx Hin]%list_elem_of_filter)%list_elem_of_fmap.
    apply list_elem_of_lookup_1 in Hin as [i Hi]. assert (0%nat = S i) by (by eapply (Hinj 0%nat (S i) e x)). lia.
  - intros e [i Hi]%list_elem_of_lookup_1 He. by eapply Hlen.
Qed.
End table.

(** ** The table as a map from paths to sockets *)

Definition ns_repr (ns : option unix_ns_table) (m : gmap (list Z) Z) : Prop :=
  match ns with
  | None => m = ∅
  | Some t => exists k, 5 <= k <= 28 /\ ns_ok k (ns_slots t) /\ ns_cnt t = inuse (ns_slots t) /\
      inuse (ns_slots t) * 4 < 2 ^ k * 3 /\ forall p s, has (ns_slots t) p s <-> m !! p = Some s
  end.

Lemma find_repr ns m p : ns_repr ns m -> ns_find ns p = Some (default NULL (m !! p)).
Proof.
  destruct ns as [t|]; cbn [ns_repr]; [|intros ->; done]. intros (k & Hk & Hok & _ & _ & Hm).
  destruct (m !! p) as [s|] eqn:E; cbn [default from_option].
  - by apply (find_hit k); [lia|done|apply Hm].
  - apply (find_miss k); [lia|done|]. intros s Hs%Hm. congruence.
Qed.

Section repr.
Context (mem : Z -> bool).
(** An entry takes 116 bytes: no allocation holds 2^29 of them. *)
Hypothesis mem_bound : forall c, mem c = true -> c <= 2 ^ 28.

(** The capacity an insertion allocates. *)
Definition grown (ns : option unix_ns_table) : Z :=
  match ns with Some t => new_cap (ns_cap t) (ns_cnt t) | None => UNIX_NS_INIT_CAP end.

Lemma new_cap_spec k cnt : 5 <= k <= 28 -> 0 <= cnt -> cnt * 4 < 2 ^ k * 3 ->
  exists k', new_cap (2 ^ k) cnt = 2 ^ k' /\ k <= k' <= k + 1 /\ (cnt + 1) * 4 < 2 ^ k' * 3.
Proof.
  intros Hk Hc Hl. assert (2 ^ 5 <= 2 ^ k <= 2 ^ 28) by (split; apply Z.pow_le_mono_r; lia).
  unfold new_cap. destruct (Z.eqb_spec (2 ^ k) 0); [lia|]. rewrite !(u32_id (_ + 1)), !u32_id by lia.
  assert (2 ^ (k + 1) = 2 * 2 ^ k) by (rewrite Z.pow_add_r by lia; lia).
  destruct (Z.leb_spec (2 ^ k * 3) ((cnt + 1) * 4)).
  - exists (k + 1). split; [lia|]. lia.
  - exists k. split; [done|]. lia.
Qed.

Lemma alloc_spec k t : 0 <= k <= 30 -> ns_table_alloc mem (2 ^ k) = Some t -> ns_ok k (ns_slots t) /\ ns_cnt t = inuse (ns_slots t) /\ inuse (ns_slots t) = 0 /\ forall p s, ~ has (ns_slots t) p s.
Proof.
  intros Hk H. unfold ns_table_alloc in H. destruct (mem _); [|done]. injection H as <-. cbn [ns_slots ns_cnt].
  destruct (fresh_table_ok k) as [H1 H2]; [lia|]. rewrite H2. split_and!; [done|done|done|].
  intros p s (Hs & i & Hi). apply lookup_replicate in Hi as [[= _ ->] _]. done.
Qed.

Lemma insert_repr ns m p s : ns_repr ns m -> (length p <= 107)%nat -> s <> NULL -> m !! p = None -> mem (grown ns) = true ->
  exists ns', ns_insert mem ns p s = Some (ns', 0) /\ ns_repr ns' (<[p := s]> m).
Proof.
  intros Hr Hp Hs Hm Hmem. unfold ns_insert. rewrite (find_repr _ _ _ Hr), Hm. cbn [mbind option_bind default from_option negb].
  change (NULL =? NULL) with true. cbn [negb].
  assert (exists k l, grown ns = new_cap (match ns with Some t => ns_cap t | None => 0 end) (match ns with Some t => ns_cnt t | None => 0 end) /\
    grown ns = 2 ^ k /\ 5 <= k <= 28 /\ l = match ns with Some t => ns_slots t | None => [] end /\ entries_ok l /\
    (inuse l + 1) * 4 < 2 ^ k * 3 /\ forall q r, has l q r <-> m !! q = Some r) as (k & l & E1 & E2 & Hk & El & Hl & Hc & Hh).
  { destruct ns as [t|]; cbn [ns_repr grown] in *.
    - destruct Hr as (k & Hk & Hok & Hc & Hld & Hh). pose proof (inuse_nonneg (ns_slots t)).
      assert (Hcap : ns_cap t = 2 ^ k) by apply Hok. rewrite Hcap, Hc in *.
      destruct (new_cap_spec k (inuse (ns_slots t))) as (k' & E & Hk' & Hld'); [lia..|]. rewrite E in *.
      apply mem_bound in Hmem. apply Z.pow_le_mono_r_iff in Hmem; [|lia..].
      exists k', (ns_slots t). do 2 (split; [done|]). split; [lia|]. split; [done|].
      split; [by apply (slots_entries k)|]. done.
    - subst m. exists 5, []. do 2 (split; [done|]). split; [lia|]. split; [done|].
      split; [split; [constructor|intros e He; by apply not_elem_of_nil in He]|]. split; [done|].
      intros q r. rewrite lookup_empty. split; [|done]. intros (_ & i & Hi). by rewrite lookup_nil in Hi. }
  rewrite <- E1, <- El. destruct (ns_table_alloc mem (grown ns)) as [t0|] eqn:Ea.
  2: { unfold ns_table_alloc in Ea. by rewrite Hmem in Ea. }
  rewrite E2 in Ea. destruct (alloc_spec k t0) as (A1 & A2 & A3 & A4); [lia|done|]. pose proof (inuse_nonneg l).
  destruct (reinsert_spec k ltac:(lia) l t0 A1 A2 Hl) as (t1 & Er & [R1 R2 R3 R4]); [lia|intros ? ? ? _; apply A4|].
  rewrite Er. cbn [mbind option_bind].
  destruct (raw_insert_spec k ltac:(lia) t1 p s R1) as (t2 & Ei & I1 & I2 & I3 & I4); [lia|done| |done|done|].
  { intros s' [?|?]%R4; [by eapply A4|]. apply Hh in H0. congruence. }
  rewrite Ei. cbn [mbind option_bind]. eexists. split; [done|]. cbn [ns_repr]. exists k. split_and!; [lia|lia|done|done|lia|].
  intros q r. rewrite I4, R4, Hh. destruct (decide (q = p)) as [->|Hne].
  - rewrite lookup_insert_eq. split; [intros [[?|?]|[_ ->]]; [by destruct (A4 p r)|congruence|done]|]. intros [= ->]. by right.
  - rewrite lookup_insert_ne by done. split; [intros [[?|?]|[? _]]; [by destruct (A4 q r)|done|done]|]. intros ?. left. by right.
Qed.

Lemma remove_repr ns m p : ns_repr ns m ->
  exists ns', ns_remove mem ns p = Some ns' /\
    (ns_repr ns' (delete p m) \/ ns' = ns /\ exists t, ns = Some t /\ mem (ns_cap t) = false).
Proof.
  intros Hr. destruct ns as [t|]; cbn [ns_remove ns_repr] in *.
  2: { exists None. split; [done|]. left. cbn. subst m. apply delete_empty. }
  destruct Hr as (k & Hk & Hok & Hc & Hld & Hh). assert (Hcap : ns_cap t = 2 ^ k) by apply Hok.
  destruct (ns_table_alloc mem (ns_cap t)) as [t0|] eqn:Ea.
  2: { exists (Some t). split; [done|]. right. split; [done|]. exists t. split; [done|].
       unfold ns_table_alloc in Ea. by destruct (mem (ns_cap t)). }
  rewrite Hcap in Ea. destruct (alloc_spec k t0) as (A1 & A2 & A3 & A4); [lia|done|].
  destruct (reinsert_but_spec k ltac:(lia) p (ns_slots t) false t0 A1 A2) as (t1 & Er & [R1 R2 R3 R4]);
    [by apply (slots_entries k)|lia|intros ? ? ? _; apply A4|done|].
  rewrite Er. cbn [mbind option_bind]. exists (Some t1). split; [done|]. left. cbn [ns_repr]. exists k.
  split_and!; [lia|lia|done|done|lia|]. intros q r. rewrite R4, Hh. destruct (decide (q = p)) as [->|Hne].
  - rewrite lookup_delete_eq. split; [intros [?|[_ ?]]; [by destruct (A4 p r)|done]|done].
  - rewrite lookup_delete_ne by done. split; [intros [?|[? _]]; [by destruct (A4 q r)|done]|]. intros ?. by right.
Qed.
End repr.
