(* ===== verification/Ring.v ===== *)
(** * Circular byte buffers

    The buffer that pipes (kernel/fs/pipe.c) and stream sockets
    (kernel/net/unix_sock.c) share in shape: an array whose size is a power of
    two, a read index, a write index and a count.  [contents] is the queue it
    stands for. *)

From S2P Require Import Prelude.

Record ring := Ring { r_buf : list Z; r_head : Z; r_tail : Z; r_count : Z }.

(** [buf[tail] = x; tail = (tail + 1) & (size - 1); count++]. *)
Definition ring_push (size : Z) (r : ring) (x : Z) : ring :=
  Ring (<[Z.to_nat (r_tail r) := x]> (r_buf r)) (r_head r) (Z.land (u32 (r_tail r + 1)) (size - 1)) (u32 (r_count r + 1)).

(** [x = buf[head]; head = (head + 1) & (size - 1); count--]. *)
Definition ring_pop (size : Z) (r : ring) : option (ring * Z) :=
  x ← r_buf r !! Z.to_nat (r_head r);
  Some (Ring (r_buf r) (Z.land (u32 (r_head r + 1)) (size - 1)) (r_tail r) (u32 (r_count r - 1)), x).

Section ring.
Context (k : Z).
Hypothesis k_range : 0 <= k <= 31.
Let size : Z := 2 ^ k.

Record ring_ok (r : ring) : Prop := {
  ro_len : Z.of_nat (length (r_buf r)) = size;
  ro_head : 0 <= r_head r < size;
  ro_count : 0 <= r_count r <= size;
  ro_tail : r_tail r = (r_head r + r_count r) mod size;
}.

Definition entry (r : ring) (i : Z) : Z := default 0 (r_buf r !! Z.to_nat ((r_head r + i) mod size)).
Definition contents (r : ring) : list Z := entry r <$> seqZ 0 (r_count r).

Lemma size_pos : 0 < size.
Proof. apply Z.pow_pos_nonneg; lia. Qed.

Lemma size_le : size <= 2 ^ 31.
Proof. apply Z.pow_le_mono_r; lia. Qed.

Lemma mask_size x : 0 <= x < 2 ^ 32 -> Z.land (u32 x) (size - 1) = x mod size.
Proof.
  intros Hx. rewrite u32_id by done. unfold size. replace (2 ^ k - 1) with (Z.ones k) by (rewrite Z.ones_equiv; lia).
  apply Z.land_ones. lia.
Qed.

Lemma contents_length r : ring_ok r -> Z.of_nat (length (contents r)) = r_count r.
Proof. intros Hr. unfold contents. rewrite length_fmap, length_seqZ. pose proof (ro_count r Hr). lia. Qed.

(** Two indices less than [size] apart meet different slots. *)
Lemma mod_neq a i j : 0 <= i < size -> 0 <= j < size -> i <> j -> (a + i) mod size <> (a + j) mod size.
Proof.
  intros Hi Hj Hne H. apply Hne. rewrite <- (Z.mod_small i size), <- (Z.mod_small j size) by done.
  replace i with (a + i - a) by lia. replace j with (a + j - a) by lia. rewrite <- Zminus_mod_idemp_l, H, Zminus_mod_idemp_l. done.
Qed.

Lemma push_ok r x : ring_ok r -> r_count r < size -> ring_ok (ring_push size r x) /\ contents (ring_push size r x) = contents r ++ [x].
Proof.
  intros [H1 H2 H3 H4] Hc. pose proof size_pos. pose proof size_le.
  assert (Ht : 0 <= r_tail r < size) by (rewrite H4; by apply Z.mod_pos_bound).
  unfold ring_push. rewrite mask_size, u32_id by lia. split.
  - constructor; cbn; [by rewrite length_insert|done|lia|]. rewrite H4, Zplus_mod_idemp_l. f_equal. lia.
  - unfold contents. cbn [r_count]. rewrite seqZ_app, fmap_app by lia. f_equal.
    + apply list_fmap_ext. intros i y Hi%lookup_seqZ. unfold entry. cbn [r_buf r_head].
      rewrite list_lookup_insert_ne; [done|]. rewrite H4. intros E. apply (mod_neq (r_head r) (r_count r) y); [lia..|].
      apply Z2Nat.inj in E; [done|apply Z.mod_pos_bound; lia..].
    + rewrite Z.add_0_l. rewrite seqZ_cons, seqZ_nil by lia. cbn [fmap list_fmap]. unfold entry. cbn [r_buf r_head]. rewrite <- H4, list_lookup_insert_eq; [done|]. lia.
Qed.

Lemma pop_ok r : ring_ok r -> 0 < r_count r ->
  exists r' x, ring_pop size r = Some (r', x) /\ ring_ok r' /\ contents r = x :: contents r'.
Proof.
  intros [H1 H2 H3 H4] Hc. pose proof size_pos. pose proof size_le. unfold ring_pop.
  destruct (lookup_lt_is_Some_2 (r_buf r) (Z.to_nat (r_head r))) as [x Hx]; [lia|]. rewrite Hx. cbn [mbind option_bind].
  rewrite mask_size, u32_id by lia. do 2 eexists. split; [done|]. split.
  - constructor; cbn; [done|by apply Z.mod_pos_bound|lia|]. rewrite H4, Zplus_mod_idemp_l. f_equal. lia.
  - unfold contents. cbn [r_count]. rewrite seqZ_cons by lia. rewrite fmap_cons. f_equal.
    + unfold entry. rewrite Z.add_0_r, Z.mod_small by done. by rewrite Hx.
    + rewrite <- Z.sub_1_r. rewrite <- (fmap_add_seqZ 1 0), <- list_fmap_compose. apply list_fmap_ext. intros i y _.
      unfold entry. cbn [r_buf r_head compose]. f_equal. f_equal. f_equal. rewrite Zplus_mod_idemp_l. f_equal. lia.
Qed.
End ring.

Definition ring_empty (size : Z) : ring := Ring (replicate (Z.to_nat size) 0) 0 0 0.

Lemma ring_empty_ok k : 0 <= k <= 31 -> ring_ok k (ring_empty (2 ^ k)) /\ contents k (ring_empty (2 ^ k)) = [].
Proof.
  intros Hk. assert (0 < 2 ^ k) by (apply Z.pow_pos_nonneg; lia). split; [|done].
  constructor; cbn; [rewrite length_replicate; lia|lia|lia|]. by rewrite Z.mod_0_l by lia.
Qed.
