(* ===== verification/Pipe.v ===== *)
(** * Pipes

    Models kernel/fs/pipe.c.  The loops of [pipe_read] and [pipe_write] run up
    to the point where they return or sleep; a sleeping call is resumed by
    running the same loop for the rest.  Below, one reading and one writing
    call run against each other: each runs without interruption until it
    returns or sleeps, and only the wake-ups the code issues make a sleeper
    run again. *)

From S2P Require Import Prelude Errno Ring.

Abbreviation PIPE_BUF_SIZE := 4096%Z (only parsing).
Abbreviation SIGPIPE := 13%Z (only parsing).

Record pipe_buf := PipeBuf { p_ring : ring; p_writer_refs : Z; p_reader_refs : Z }.

Definition with_ring (p : pipe_buf) (r : ring) : pipe_buf := PipeBuf r (p_writer_refs p) (p_reader_refs p).
Definition p_count (p : pipe_buf) : Z := r_count (p_ring p).

(** How a run of a loop ends. *)
Inductive loop_end := Finished | Hangup | MustWait.

(** [n] bytes still wanted, [got] read so far. *)
Fixpoint read_loop (n : nat) (p : pipe_buf) (got : list Z) : option (pipe_buf * list Z * loop_end) :=
  match n with
  | O => Some (p, got, Finished)
  | S n' =>
      if p_count p =? 0 then Some (p, got, if p_writer_refs p =? 0 then Hangup else MustWait)
      else
        '(r, x) ← ring_pop PIPE_BUF_SIZE (p_ring p);
        read_loop n' (with_ring p r) (got ++ [x])
  end.

(** [data] still to write. *)
Fixpoint write_loop (data : list Z) (p : pipe_buf) : pipe_buf * list Z * loop_end :=
  match data with
  | [] => (p, [], Finished)
  | x :: rest =>
      if p_count p =? PIPE_BUF_SIZE then (p, data, if p_reader_refs p =? 0 then Hangup else MustWait)
      else write_loop rest (with_ring p (ring_push PIPE_BUF_SIZE (p_ring p) x))
  end.

(** What a call has come to: the value it returns, or asleep; and whether it
    woke the other side. *)
Inductive progress := Returns (r : Z) (wakes : bool) | Blocks.

(** [signal]: a signal is pending when the call is about to sleep. *)
Definition pipe_read (p : pipe_buf) (want : nat) (got : list Z) (signal : bool) :
    option (pipe_buf * list Z * progress) :=
  '(p, got, e) ← read_loop want p got;
  let total := Z.of_nat (length got) in
  Some (p, got,
    match e with
    | Finished | Hangup => Returns total true
    | MustWait => if signal then Returns (if 0 <? total then total else - EINTR) false else Blocks
    end).

(** [deliver_sigpipe] raises the signal unless it is blocked or ignored. *)
Definition deliver_sigpipe (blocked : Z) (ignored : bool) : bool :=
  negb (negb (Z.land blocked (Z.shiftl 1 (SIGPIPE - 1)) =? 0) || ignored).

(** The test made once, before the first byte. *)
Definition pipe_write_open (p : pipe_buf) : bool := negb (p_reader_refs p =? 0).

(** [sent] bytes written so far. *)
Definition pipe_write (p : pipe_buf) (data : list Z) (sent : Z) (signal : bool) : pipe_buf * list Z * progress :=
  let '(p, rest, e) := write_loop data p in
  let total := sent + (Z.of_nat (length data) - Z.of_nat (length rest)) in
  (p, rest,
   match e with
   | Finished => Returns total true
   | Hangup => Returns (if total =? 0 then - EPIPE else total) false
   | MustWait => if signal then Returns (if 0 <? total then total else - EINTR) false else Blocks
   end).

(** The closing calls: the new state, whether the other side is woken, and
    whether the buffer is freed. *)
Definition pipe_read_close (p : pipe_buf) : pipe_buf * bool * bool :=
  let p := if 0 <? p_reader_refs p then PipeBuf (p_ring p) (p_writer_refs p) (p_reader_refs p - 1) else p in
  (p, p_reader_refs p =? 0, (p_reader_refs p =? 0) && (p_writer_refs p =? 0)).

Definition pipe_write_close (p : pipe_buf) : pipe_buf * bool * bool :=
  let p := if 0 <? p_writer_refs p then PipeBuf (p_ring p) (p_writer_refs p - 1) (p_reader_refs p) else p in
  (p, p_writer_refs p =? 0, (p_reader_refs p =? 0) && (p_writer_refs p =? 0)).

Definition pipe_read_poll (p : pipe_buf) : bool := (0 <? p_count p) || (p_writer_refs p =? 0).
Definition pipe_write_poll (p : pipe_buf) : bool := (p_count p <? PIPE_BUF_SIZE) && (0 <? p_reader_refs p).

Definition pipe_create : pipe_buf := PipeBuf (ring_empty PIPE_BUF_SIZE) 1 1.

(** ** One reader and one writer *)

Inductive call := Running | Asleep | Returned (r : Z).
Definition wake (c : call) : call := match c with Asleep => Running | _ => c end.

Record pipe_run := PipeRun {
  pr_pipe : pipe_buf;
  pr_reader : call; pr_want : nat; pr_got : list Z;
  pr_writer : call; pr_left : list Z; pr_sent : Z;
}.

Definition run_reader (s : pipe_run) : option pipe_run :=
  '(p, got, o) ← pipe_read (pr_pipe s) (pr_want s) (pr_got s) false;
  let want := (pr_want s - (length got - length (pr_got s)))%nat in
  Some match o with
  | Returns r wakes => PipeRun p (Returned r) want got (if wakes then wake (pr_writer s) else pr_writer s) (pr_left s) (pr_sent s)
  | Blocks => PipeRun p Asleep want got (pr_writer s) (pr_left s) (pr_sent s)
  end.

Definition run_writer (s : pipe_run) : pipe_run :=
  let '(p, rest, o) := pipe_write (pr_pipe s) (pr_left s) (pr_sent s) false in
  let sent := pr_sent s + (Z.of_nat (length (pr_left s)) - Z.of_nat (length rest)) in
  match o with
  | Returns r wakes => PipeRun p (if wakes then wake (pr_reader s) else pr_reader s) (pr_want s) (pr_got s) (Returned r) rest sent
  | Blocks => PipeRun p (pr_reader s) (pr_want s) (pr_got s) Asleep rest sent
  end.

Inductive pipe_step : pipe_run -> pipe_run -> Prop :=
| step_reader s s' : pr_reader s = Running -> run_reader s = Some s' -> pipe_step s s'
| step_writer s : pr_writer s = Running -> pipe_step s (run_writer s).

Definition pipe_start (data : list Z) (want : nat) : pipe_run := PipeRun pipe_create Running want [] Running data 0.
