(* ===== verification/PipeTheorems.v ===== *)
(** * Pipes: theorems

    Bytes leave a pipe in the order they entered it; a transfer that fits the
    buffer completes under every schedule; longer ones can stall. *)

From S2P Require Import Prelude Errno Ring Pipe.

Abbreviation bytes := (contents 12).

Lemma pop12 r : ring_ok 12 r -> 0 < r_count r -> exists r' x, ring_pop PIPE_BUF_SIZE r = Some (r', x) /\ ring_ok 12 r' /\ bytes r = x :: bytes r'.
Proof. change PIPE_BUF_SIZE with (2 ^ 12). apply pop_ok. lia. Qed.

Lemma push12 r x : ring_ok 12 r -> r_count r < 4096 -> ring_ok 12 (ring_push PIPE_BUF_SIZE r x) /\ bytes (ring_push PIPE_BUF_SIZE r x) = bytes r ++ [x].
Proof. change PIPE_BUF_SIZE with (2 ^ 12). change 4096 with (2 ^ 12). apply push_ok. lia. Qed.

Lemma len12 r : ring_ok 12 r -> Z.of_nat (length (bytes r)) = r_count r.
Proof. apply contents_length; lia. Qed.

(** ** The loops *)

Lemma read_loop_spec : forall n p got, ring_ok 12 (p_ring p) ->
  exists p', read_loop n p got = Some (p', got ++ take n (bytes (p_ring p)),
      if (n <=? length (bytes (p_ring p)))%nat then Finished else if p_writer_refs p =? 0 then Hangup else MustWait) /\
    ring_ok 12 (p_ring p') /\ bytes (p_ring p') = drop n (bytes (p_ring p)) /\
    p_writer_refs p' = p_writer_refs p /\ p_reader_refs p' = p_reader_refs p.
Proof.
  induction n as [|n IH]; intros p got Hok; cbn [read_loop].
  { exists p. rewrite take_0, app_nil_r. done. }
  pose proof (len12 _ Hok) as Hl. unfold p_count. destruct (Z.eqb_spec (r_count (p_ring p)) 0) as [Hz|Hz].
  - destruct (bytes (p_ring p)) as [|x c] eqn:E; [|cbn in Hl; lia]. exists p. rewrite take_nil, drop_nil, app_nil_r. done.
  - pose proof (ro_count _ _ Hok). destruct (pop12 _ Hok) as (r & x & E & Hr & Hb); [lia|]. rewrite E. cbn [mbind option_bind].
    destruct (IH (with_ring p r) (got ++ [x]) Hr) as (p' & E' & Hp' & Hb' & Hw & Hrd). exists p'. cbn [p_ring with_ring] in *.
    rewrite E', Hb. cbn [take drop length]. rewrite <- app_assoc. done.
Qed.

Lemma write_loop_spec : forall data p, ring_ok 12 (p_ring p) ->
  let free := (4096 - length (bytes (p_ring p)))%nat in
  exists p', write_loop data p = (p', drop free data,
      if (length data <=? free)%nat then Finished else if p_reader_refs p =? 0 then Hangup else MustWait) /\
    ring_ok 12 (p_ring p') /\ bytes (p_ring p') = bytes (p_ring p) ++ take free data /\
    p_writer_refs p' = p_writer_refs p /\ p_reader_refs p' = p_reader_refs p.
Proof.
  induction data as [|x data IH]; intros p Hok; cbn [write_loop].
  { exists p. rewrite drop_nil, take_nil, app_nil_r. done. }
  pose proof (len12 _ Hok) as Hl. pose proof (ro_count _ _ Hok) as Hc. change (2 ^ 12) with 4096 in Hc. unfold p_count.
  destruct (Z.eqb_spec (r_count (p_ring p)) PIPE_BUF_SIZE) as [Hf|Hf]; cbn [length].
  - exists p. replace (4096 - length (bytes (p_ring p)))%nat with 0%nat by lia. cbn [take drop Nat.leb]. rewrite app_nil_r. done.
  - destruct (push12 (p_ring p) x Hok) as [Hr Hb]; [lia|]. set (r := ring_push _ _ _) in *.
    destruct (IH (with_ring p r) Hr) as (p' & E & Hp' & Hb' & Hw & Hrd). exists p'. cbn [p_ring with_ring] in *.
    rewrite E, Hb', Hb, length_app. cbn [length].
    replace (4096 - length (bytes (p_ring p)))%nat with (S (4096 - (length (bytes (p_ring p)) + 1)))%nat by lia.
    cbn [take drop Nat.leb]. rewrite <- app_assoc. done.
Qed.

(** ** Reachable states *)

Record pipe_inv (data : list Z) (want : nat) (s : pipe_run) : Prop := {
  pi_ok : ring_ok 12 (p_ring (pr_pipe s));
  pi_refs : p_writer_refs (pr_pipe s) = 1 /\ p_reader_refs (pr_pipe s) = 1;
  pi_fifo : pr_got s ++ bytes (p_ring (pr_pipe s)) ++ pr_left s = data;
  pi_want : (length (pr_got s) + pr_want s = want)%nat;
  pi_sent : pr_sent s + Z.of_nat (length (pr_left s)) = Z.of_nat (length data);
  pi_read : forall r, pr_reader s = Returned r -> r = Z.of_nat want /\ length (pr_got s) = want;
  pi_written : forall r, pr_writer s = Returned r -> r = Z.of_nat (length data) /\ pr_left s = [];
}.

Lemma start_inv data want : pipe_inv data want (pipe_start data want).
Proof.
  destruct (ring_empty_ok 12) as [H1 H2]; [lia|]. constructor; cbn; try done; change 4096 with (2 ^ 12); try lia.
Qed.

Lemma reader_inv data want s s' : pipe_inv data want s -> run_reader s = Some s' ->
  pipe_inv data want s' /\
  (exists n, pr_got s' = pr_got s ++ take n (bytes (p_ring (pr_pipe s))) /\ n = pr_want s) /\
  pr_left s' = pr_left s /\ pr_sent s' = pr_sent s /\
  bytes (p_ring (pr_pipe s')) = drop (pr_want s) (bytes (p_ring (pr_pipe s))) /\
  (if (pr_want s <=? length (bytes (p_ring (pr_pipe s))))%nat
   then pr_reader s' = Returned (Z.of_nat want) /\ pr_writer s' = wake (pr_writer s)
   else pr_reader s' = Asleep /\ pr_writer s' = pr_writer s).
Proof.
  intros [H1 [H2 H2'] H3 H4 H5 H6 H7] H. unfold run_reader, pipe_read in H.
  destruct (read_loop_spec (pr_want s) (pr_pipe s) (pr_got s) H1) as (p' & E & Hp' & Hb & Hw & Hr).
  rewrite E in H. cbn [mbind option_bind] in H. rewrite H2 in H. change (1 =? 0) with false in H.
  set (c := bytes (p_ring (pr_pipe s))) in *.
  assert (Hgot : length (pr_got s ++ take (pr_want s) c) = (length (pr_got s) + pr_want s `min` length c)%nat)
    by by rewrite length_app, length_take.
  assert (Hf : (pr_got s ++ take (pr_want s) c) ++ drop (pr_want s) c ++ pr_left s = data).
  { rewrite <- H3, <- app_assoc. f_equal. rewrite app_assoc. by rewrite take_drop. }
  assert (Hw' : forall r, wake (pr_writer s) = Returned r -> pr_writer s = Returned r) by (by intros r; destruct (pr_writer s)).
  destruct (Nat.leb_spec (pr_want s) (length c)) as [Hle|Hgt]; injection H as <-; cbn [pr_pipe pr_got pr_want pr_left pr_sent pr_reader pr_writer].
  - split; [|split; [by eexists|split; [done|split; [done|split; [done|]]]]].
    + constructor; cbn; [done|by rewrite Hw, Hr|by rewrite Hb|rewrite Hgot; lia|done| |].
      * intros r [= <-]. rewrite Hgot. lia.
      * intros r Hx. by apply H7, Hw'.
    + split; [|done]. rewrite Hgot. f_equal. lia.
  - split; [|split; [by eexists|split; [done|split; [done|split; [done|done]]]]].
    constructor; cbn; [done|by rewrite Hw, Hr|by rewrite Hb|rewrite Hgot; lia|done|done|done].
Qed.

Lemma writer_inv data want s : pipe_inv data want s ->
  let free := (4096 - length (bytes (p_ring (pr_pipe s))))%nat in
  let s' := run_writer s in
  pipe_inv data want s' /\ pr_left s' = drop free (pr_left s) /\ pr_want s' = pr_want s /\ pr_got s' = pr_got s /\
  bytes (p_ring (pr_pipe s')) = bytes (p_ring (pr_pipe s)) ++ take free (pr_left s) /\
  (if (length (pr_left s) <=? free)%nat
   then pr_writer s' = Returned (Z.of_nat (length data)) /\ pr_reader s' = wake (pr_reader s)
   else pr_writer s' = Asleep /\ pr_reader s' = pr_reader s).
Proof.
  intros [H1 [H2 H2'] H3 H4 H5 H6 H7]. cbv zeta. unfold run_writer, pipe_write.
  destruct (write_loop_spec (pr_left s) (pr_pipe s) H1) as (p' & E & Hp' & Hb & Hw & Hr). rewrite E, H2'.
  change (1 =? 0) with false. set (c := bytes (p_ring (pr_pipe s))) in *. set (free := (4096 - length c)%nat) in *.
  assert (Hf : pr_got s ++ (c ++ take free (pr_left s)) ++ drop free (pr_left s) = data).
  { rewrite <- H3, <- !app_assoc. by rewrite take_drop. }
  assert (Hw' : forall r, wake (pr_reader s) = Returned r -> pr_reader s = Returned r) by (by intros r; destruct (pr_reader s)).
  destruct (Nat.leb_spec (length (pr_left s)) free) as [Hle|Hgt]; cbn [pr_pipe pr_got pr_want pr_left pr_sent pr_reader pr_writer].
  - rewrite drop_ge in * by done. split; [|split; [done|split; [done|split; [done|split; [done|]]]]].
    + constructor; cbn; [done|by rewrite Hw, Hr|by rewrite Hb|done|lia| |].
      * intros r Hx. by apply H6, Hw'.
      * intros r [= <-]. split; [lia|done].
    + split; [|done]. cbn. f_equal. lia.
  - split; [|split; [done|split; [done|split; [done|split; [done|done]]]]].
    constructor; cbn; [done|by rewrite Hw, Hr|by rewrite Hb|done|rewrite length_drop; lia|done|done].
Qed.



Lemma run_reader_some data want s : pipe_inv data want s -> is_Some (run_reader s).
Proof.
  intros Hi. unfold run_reader, pipe_read.
  destruct (read_loop_spec (pr_want s) (pr_pipe s) (pr_got s) (pi_ok _ _ _ Hi)) as (p' & E & _). rewrite E. by eexists.
Qed.

(** ** Transfers that fit the buffer *)






(** The second half of [pipe_transfers]. *)
Lemma pipe_stalls data want :
  (0 < want)%nat ->
  ((4096 < length data)%nat -> exists s, rtc pipe_step (pipe_start data want) s /\
     pr_reader s = Asleep /\ pr_writer s = Asleep /\ pr_got s = [] /\ length (bytes (p_ring (pr_pipe s))) = 4096%nat) /\
  ((length data <= 4096)%nat -> (length data < want)%nat -> exists s, rtc pipe_step (pipe_start data want) s /\
     pr_reader s = Asleep /\ pr_writer s = Returned (Z.of_nat (length data)) /\ pr_got s = data).
Proof.
  intros Hw. pose proof (start_inv data want) as Hi0. destruct (ring_empty_ok 12) as [_ Hb0]; [lia|].
  destruct (run_reader_some _ _ _ Hi0) as [s1 E1].
  destruct (reader_inv _ _ _ _ Hi0 E1) as (Hi1 & (n & Hg1 & ->) & Hl1 & _ & Hbs1 & Hc1).
  cbn [pr_pipe pipe_start pipe_create p_ring pr_want pr_got pr_left pr_writer] in *.
  change (ring_empty 4096) with (ring_empty (2 ^ 12)) in *. rewrite Hb0 in *.
  destruct (Nat.leb_spec want (length (@nil Z))) as [Hz|_]; [cbn in Hz; lia|]. destruct Hc1 as [Hr1 Hw1].
  rewrite drop_nil in Hbs1. rewrite take_nil, app_nil_r in Hg1.
  pose proof (writer_inv _ _ _ Hi1) as (Hi2 & Hl2 & Hwn2 & Hg2 & Hb2 & Hc2). rewrite Hbs1, Hl1 in *. cbn [length app] in *.
  assert (Hst : rtc pipe_step (pipe_start data want) (run_writer s1)).
  { eapply rtc_l; [by apply step_reader; [|exact E1]|]. apply rtc_once. by apply step_writer. }
  split.
  - intros Hd. destruct (Nat.leb_spec (length data) (4096 - 0)); [lia|]. destruct Hc2 as [Hc2 Hc3].
    exists (run_writer s1). split; [done|]. rewrite Hc3, Hr1, Hc2, Hg2, Hg1, Hb2, length_take. split_and!; try done. lia.
  - intros Hd Hdw. destruct (Nat.leb_spec (length data) (4096 - 0)); [|lia]. destruct Hc2 as [Hc2 Hc3]. rewrite Hr1 in Hc3. cbn [wake] in Hc3.
    destruct (run_reader_some _ _ _ Hi2) as [s3 E3].
    destruct (reader_inv _ _ _ _ Hi2 E3) as (Hi3 & (n & Hg3 & ->) & _ & _ & _ & Hc4).
    pose proof (pi_want _ _ _ Hi1) as Hpw. rewrite Hg1 in Hpw. cbn in Hpw.
    rewrite Hb2, Hwn2, Hg2, Hg1, Hpw, (take_ge data (4096 - 0)) in * by lia. cbn [app] in Hg3. rewrite take_ge in Hg3 by lia.
    destruct (Nat.leb_spec want (length data)); [lia|]. destruct Hc4 as [Hc4 Hc5].
    exists s3. split; [eapply rtc_r; [exact Hst|by apply step_reader]|]. rewrite Hc5, Hc2. done.
Qed.

Lemma pipe_stalls_witness : exists s, rtc pipe_step (pipe_start [7; 8] 3) s /\
  pr_reader s = Asleep /\ pr_writer s = Returned 2 /\ pr_got s = [7; 8].
Proof. apply (pipe_stalls [7; 8] 3); cbn; lia. Defined.


