(* ===== verification/UnixSock.v ===== *)
(** * Unix sockets

    Models the data path and the connection state machine of
    kernel/net/unix_sock.c.  A socket is an entry of the store; the teardown
    callback removes it, so using a socket through a stale pointer is a fault
    ([None]).  A call that sleeps is split where it sleeps: one definition runs
    up to the sleep, another from the wake-up on.  The queues of datagrams and
    of pending connections are lists.  [mem] tells whether a small allocation
    succeeds. *)

From S2P Require Import Prelude Errno Ring UnixNs.

Abbreviation UNIX_BUF_SIZE := 8192%Z (only parsing).
Abbreviation UNIX_BACKLOG_MAX := 16%Z (only parsing).
Abbreviation SOCK_STREAM := 1%Z (only parsing).
Abbreviation SOCK_DGRAM := 2%Z (only parsing).

Inductive unix_state := UNCONNECTED | BOUND | LISTENING | CONNECTING | CONNECTED | DISCONNECTED.
#[export] Instance unix_state_eq : EqDecision unix_state.
Proof. solve_decision. Defined.

Record unix_sock := USock {
  us_type : Z; us_state : unix_state;
  us_shutdown_rd : bool; us_shutdown_wr : bool;
  us_path : list Z;
  us_ring : ring;
  us_dgrams : list (list Z);
  us_peer : Z;
  us_backlog : list Z; us_backlog_max : Z;
  us_peer_pid : Z;
}.

Record ux_state := UxState { ux_socks : gmap Z unix_sock; ux_ns : option unix_ns_table }.

Definition set_sock (st : ux_state) (s : Z) (k : unix_sock) : ux_state := UxState (<[s := k]> (ux_socks st)) (ux_ns st).
Definition with_state (x : unix_state) (k : unix_sock) : unix_sock :=
  USock (us_type k) x (us_shutdown_rd k) (us_shutdown_wr k) (us_path k) (us_ring k) (us_dgrams k) (us_peer k) (us_backlog k) (us_backlog_max k) (us_peer_pid k).
Definition with_buf (r : ring) (k : unix_sock) : unix_sock :=
  USock (us_type k) (us_state k) (us_shutdown_rd k) (us_shutdown_wr k) (us_path k) r (us_dgrams k) (us_peer k) (us_backlog k) (us_backlog_max k) (us_peer_pid k).
Definition with_dgrams (l : list (list Z)) (k : unix_sock) : unix_sock :=
  USock (us_type k) (us_state k) (us_shutdown_rd k) (us_shutdown_wr k) (us_path k) (us_ring k) l (us_peer k) (us_backlog k) (us_backlog_max k) (us_peer_pid k).
Definition with_peer (p : Z) (k : unix_sock) : unix_sock :=
  USock (us_type k) (us_state k) (us_shutdown_rd k) (us_shutdown_wr k) (us_path k) (us_ring k) (us_dgrams k) p (us_backlog k) (us_backlog_max k) (us_peer_pid k).
Definition with_backlog (l : list Z) (k : unix_sock) : unix_sock :=
  USock (us_type k) (us_state k) (us_shutdown_rd k) (us_shutdown_wr k) (us_path k) (us_ring k) (us_dgrams k) (us_peer k) l (us_backlog_max k) (us_peer_pid k).
Definition with_peer_pid (n : Z) (k : unix_sock) : unix_sock :=
  USock (us_type k) (us_state k) (us_shutdown_rd k) (us_shutdown_wr k) (us_path k) (us_ring k) (us_dgrams k) (us_peer k) (us_backlog k) (us_backlog_max k) n.

Definition new_sock (type : Z) : unix_sock :=
  USock type UNCONNECTED false false [] (ring_empty UNIX_BUF_SIZE) [] NULL [] 0 0.

(** What a call has come to. *)
Inductive ux_outcome := URet (r : Z) | USleep.

(** Waking the sleepers of a socket reads its wait queue. *)
Definition unix_wake (st : ux_state) (s : Z) : option unit := _ ← ux_socks st !! s; Some tt.

(** ** The stream buffer *)

Fixpoint cbuf_put (r : ring) (data : list Z) : ring :=
  match data with [] => r | x :: data => cbuf_put (ring_push UNIX_BUF_SIZE r x) data end.

(** The loop stores the bytes and moves the tail; the count is updated at the
    end, which is the same as counting along. *)
Definition cbuf_write (k : unix_sock) (data : list Z) : unix_sock * Z :=
  let avail := UNIX_BUF_SIZE - r_count (us_ring k) in
  let len := if avail <? Z.of_nat (length data) then avail else Z.of_nat (length data) in
  (with_buf (cbuf_put (us_ring k) (take (Z.to_nat len) data)) k, len).

Fixpoint cbuf_take (n : nat) (r : ring) (got : list Z) : option (ring * list Z) :=
  match n with
  | O => Some (r, got)
  | S n => '(r, x) ← ring_pop UNIX_BUF_SIZE r; cbuf_take n r (got ++ [x])
  end.

Definition cbuf_read (k : unix_sock) (len : Z) : option (unix_sock * list Z) :=
  let len := if r_count (us_ring k) <? len then r_count (us_ring k) else len in
  '(r, got) ← cbuf_take (Z.to_nat len) (us_ring k) [];
  Some (with_buf r k, got).

(** ** Sending and receiving *)

(** The tests before the loop of [unix_sock_send_ex], for a stream; [None] in
    the second component when the loop is entered. *)
Definition send_begin (st : ux_state) (s : Z) (len : Z) : option (option Z) :=
  if len =? 0 then Some (Some (- EINVAL))
  else
    k ← ux_socks st !! s;
    if us_shutdown_wr k then Some (Some (- EPIPE))
    else if us_peer k =? NULL then Some (Some (- ENOTCONN))
    else
      p ← ux_socks st !! us_peer k;
      if us_shutdown_rd p then Some (Some (- EPIPE)) else Some None.

(** One turn of the loop, towards the [peer] found at the start: the rest of
    the data and the outcome. *)
Definition send_round (st : ux_state) (s peer : Z) (data : list Z) (total : Z) (nonblock : bool) :
    option (ux_state * list Z * Z * ux_outcome) :=
  k ← ux_socks st !! s;
  if (us_peer k =? NULL) || bool_decide (us_state k = DISCONNECTED)
  then Some (st, data, total, URet (if 0 <? total then total else - EPIPE))
  else
    p ← ux_socks st !! peer;
    let '(p, wrote) := cbuf_write p data in
    let st := set_sock st peer p in
    let rest := drop (Z.to_nat wrote) data in
    let total := total + wrote in
    if (0 <? Z.of_nat (length rest)) && (UNIX_BUF_SIZE <=? r_count (us_ring p)) then
      Some (st, rest, total, if nonblock then URet (if 0 <? total then total else - EAGAIN) else USleep)
    else Some (st, rest, total, URet total).

(** The condition a blocked sender re-evaluates when it is woken. *)
Definition send_may_resume (st : ux_state) (peer : Z) : option bool :=
  p ← ux_socks st !! peer;
  Some (r_count (us_ring p) <? UNIX_BUF_SIZE).

(** [unix_sock_recv_ex] from the test for data on, which is also what a
    sleeping call does when it is woken. *)
Definition recv_from (st : ux_state) (s : Z) (len : Z) (nonblock signal : bool) :
    option (ux_state * list Z * ux_outcome) :=
  k ← ux_socks st !! s;
  if us_type k =? SOCK_STREAM then
    if r_count (us_ring k) =? 0 then
      Some (st, [],
        if bool_decide (us_state k = DISCONNECTED) then URet 0
        else if nonblock then URet (- EAGAIN)
        else if signal then URet (- EINTR) else USleep)
    else
      '(k, got) ← cbuf_read k len;
      _ ← (if us_peer k =? NULL then Some tt else unix_wake st (us_peer k));
      Some (set_sock st s k, got, URet (Z.of_nat (length got)))
  else
    match us_dgrams k with
    | [] =>
        Some (st, [],
          if bool_decide (us_state k = DISCONNECTED) then URet 0
          else if nonblock then URet (- EAGAIN)
          else if signal then URet (- EINTR) else USleep)
    | msg :: rest =>
        let copy := if Z.of_nat (length msg) <? len then Z.of_nat (length msg) else len in
        Some (set_sock st s (with_dgrams rest k), take (Z.to_nat copy) msg, URet copy)
    end.

Definition unix_sock_recv (st : ux_state) (s : Z) (len : Z) (nonblock signal : bool) :
    option (ux_state * list Z * ux_outcome) :=
  if len =? 0 then Some (st, [], URet (- EINVAL))
  else
    k ← ux_socks st !! s;
    if us_shutdown_rd k then Some (st, [], URet 0)
    else recv_from st s len nonblock signal.

Definition unix_sock_sendto (mem : bool) (st : ux_state) (s : Z) (data path : list Z) : option (ux_state * Z) :=
  if Z.of_nat (length data) =? 0 then Some (st, - EINVAL)
  else
    k ← ux_socks st !! s;
    if negb (us_type k =? SOCK_DGRAM) then Some (st, - EOPNOTSUPP)
    else
      target ← (match path with [] => Some (us_peer k) | _ => ns_find (ux_ns st) path end);
      if target =? NULL then Some (st, - ECONNREFUSED)
      else
        t ← ux_socks st !! target;
        if negb (us_type t =? SOCK_DGRAM) then Some (st, - ECONNREFUSED)
        else if negb mem then Some (st, - ENOMEM)
        else Some (set_sock st target (with_dgrams (us_dgrams t ++ [data]) t), Z.of_nat (length data)).

(** [unix_sock_send_ex] on a datagram socket. *)
Definition send_dgram (mem : bool) (st : ux_state) (s : Z) (data : list Z) : option (ux_state * Z) :=
  if Z.of_nat (length data) =? 0 then Some (st, - EINVAL)
  else
    k ← ux_socks st !! s;
    if us_shutdown_wr k then Some (st, - EPIPE)
    else if us_peer k =? NULL then Some (st, - ENOTCONN)
    else unix_sock_sendto mem st s data [].

Definition unix_sock_shutdown (st : ux_state) (s how : Z) : option (ux_state * Z) :=
  k ← ux_socks st !! s;
  let rd := us_shutdown_rd k || (how =? 0) || (how =? 2) in
  let wr := us_shutdown_wr k || (how =? 1) || (how =? 2) in
  _ ← (if ((how =? 1) || (how =? 2)) && negb (us_peer k =? NULL) then unix_wake st (us_peer k) else Some tt);
  Some (set_sock st s (USock (us_type k) (us_state k) rd wr (us_path k) (us_ring k) (us_dgrams k) (us_peer k) (us_backlog k) (us_backlog_max k) (us_peer_pid k)), 0).

(** ** Names and connections *)

Section names.
(** Memory for a namespace table of the given number of slots. *)
Context (ns_mem : Z -> bool).

Definition unix_sock_bind (st : ux_state) (s : Z) (path : list Z) : option (ux_state * Z) :=
  match path with
  | [] => Some (st, - EINVAL)
  | _ =>
      k ← ux_socks st !! s;
      match us_path k with
      | _ :: _ => Some (st, - EINVAL)
      | [] =>
          '(ns, rc) ← ns_insert ns_mem (ux_ns st) path s;
          if negb (rc =? 0) then Some (st, rc)
          else
            let k := USock (us_type k) (if bool_decide (us_state k = UNCONNECTED) then BOUND else us_state k)
                       (us_shutdown_rd k) (us_shutdown_wr k) (take 107 path) (us_ring k) (us_dgrams k) (us_peer k)
                       (us_backlog k) (us_backlog_max k) (us_peer_pid k) in
            Some (UxState (<[s := k]> (ux_socks st)) ns, 0)
      end
  end.

Definition unix_sock_listen (st : ux_state) (s backlog : Z) : option (ux_state * Z) :=
  k ← ux_socks st !! s;
  if negb (us_type k =? SOCK_STREAM) then Some (st, - EOPNOTSUPP)
  else if negb (bool_decide (us_state k = BOUND)) then Some (st, - EINVAL)
  else
    let m := u32 backlog in
    let m := if m =? 0 then 1 else m in
    let m := if UNIX_BACKLOG_MAX <? m then UNIX_BACKLOG_MAX else m in
    Some (set_sock st s (USock (us_type k) LISTENING (us_shutdown_rd k) (us_shutdown_wr k) (us_path k) (us_ring k) (us_dgrams k) (us_peer k) (us_backlog k) m (us_peer_pid k)), 0).

(** [unix_sock_connect] up to the sleep. *)
Definition connect_begin (mem : bool) (st : ux_state) (s pid : Z) (path : list Z) : option (ux_state * ux_outcome) :=
  match path with
  | [] => Some (st, URet (- EINVAL))
  | _ =>
      k ← ux_socks st !! s;
      target ← ns_find (ux_ns st) path;
      if target =? NULL then Some (st, URet (- ECONNREFUSED))
      else
        t ← ux_socks st !! target;
        if us_type k =? SOCK_DGRAM then Some (set_sock st s (with_state CONNECTED (with_peer target k)), URet 0)
        else if negb (bool_decide (us_state k = UNCONNECTED)) && negb (bool_decide (us_state k = BOUND)) then Some (st, URet (- EISCONN))
        else if negb (us_type t =? SOCK_STREAM) then Some (st, URet (- ECONNREFUSED))
        else if negb (bool_decide (us_state t = LISTENING)) then Some (st, URet (- ECONNREFUSED))
        else if us_backlog_max t <=? Z.of_nat (length (us_backlog t)) then Some (st, URet (- ECONNREFUSED))
        else
          let st := set_sock st s (with_peer_pid pid k) in
          if negb mem then Some (st, URet (- ENOMEM))
          else
            t ← ux_socks st !! target;
            let st := set_sock st target (with_backlog (us_backlog t ++ [s]) t) in
            k ← ux_socks st !! s;
            Some (set_sock st s (with_state CONNECTING k), USleep)
  end.

(** From a wake-up on. *)
Definition connect_resume (st : ux_state) (s : Z) (signal : bool) : option (ux_state * ux_outcome) :=
  k ← ux_socks st !! s;
  if bool_decide (us_state k = CONNECTING) then Some (st, if signal then URet (- EINTR) else USleep)
  else if bool_decide (us_state k = CONNECTED) then Some (st, URet 0)
  else Some (set_sock st s (with_state UNCONNECTED k), URet (- ECONNREFUSED)).

(** [unix_sock_accept] once a connection is pending; [server] is the new
    socket, NULL without memory.  It returns the server side. *)
Definition unix_sock_accept (st : ux_state) (l server pid : Z) (signal : bool) : option (ux_state * ux_outcome) :=
  k ← ux_socks st !! l;
  if negb (us_type k =? SOCK_STREAM) then Some (st, URet NULL)
  else if negb (bool_decide (us_state k = LISTENING)) then Some (st, URet NULL)
  else
    match us_backlog k with
    | [] => Some (st, if signal then URet NULL else USleep)
    | client :: rest =>
        let st := set_sock st l (with_backlog rest k) in
        c ← ux_socks st !! client;
        if server =? NULL then Some (set_sock st client (with_state UNCONNECTED c), URet NULL)
        else
          let st := set_sock st server (with_peer_pid (us_peer_pid c) (with_state CONNECTED (with_peer client (new_sock SOCK_STREAM)))) in
          Some (set_sock st client (with_peer_pid pid (with_state CONNECTED (with_peer server c))), URet server)
    end.

(** ** Closing *)

Definition close_name (st : ux_state) (s : Z) : option ux_state :=
  k ← ux_socks st !! s;
  match us_path k with
  | [] => Some st
  | path => ns ← ns_remove ns_mem (ux_ns st) path; Some (UxState (ux_socks st) ns)
  end.

Fixpoint reject_all (st : ux_state) (l : list Z) : option ux_state :=
  match l with
  | [] => Some st
  | c :: l => k ← ux_socks st !! c; reject_all (set_sock st c (with_state UNCONNECTED k)) l
  end.

(** The callback after the grace period: the peer is told, the backlog
    rejected, the rest freed. *)
Definition sock_free (st : ux_state) (s : Z) : option ux_state :=
  k ← ux_socks st !! s;
  st ← (if us_peer k =? NULL then Some st
        else p ← ux_socks st !! us_peer k; Some (set_sock st (us_peer k) (with_state DISCONNECTED (with_peer NULL p))));
  st ← reject_all st (us_backlog k);
  Some (UxState (delete s (ux_socks st)) (ux_ns st)).
End names.

(** [unix_vfs_poll]: POLLIN is 1, POLLOUT is 4. *)
Definition unix_vfs_poll (ancillary : Z) (st : ux_state) (s events : Z) : option bool :=
  k ← ux_socks st !! s;
  let readable :=
    (if us_type k =? SOCK_STREAM then (0 <? r_count (us_ring k)) || bool_decide (us_state k = DISCONNECTED)
     else match us_dgrams k with [] => false | _ => true end) ||
    (bool_decide (us_state k = LISTENING) && match us_backlog k with [] => false | _ => true end) ||
    (0 <? ancillary) in
  if negb (Z.land events 1 =? 0) && readable then Some true
  else if Z.land events 4 =? 0 then Some false
  else if us_type k =? SOCK_DGRAM then Some true
  else if (us_type k =? SOCK_STREAM) && negb (us_peer k =? NULL) then
    p ← ux_socks st !! us_peer k; Some (r_count (us_ring p) <? UNIX_BUF_SIZE)
  else Some false.
