(* ===== verification/UnixTheorems.v ===== *)
(** * Unix sockets: theorems

    The namespace is a map; a stream delivers every byte in order under every
    schedule; and the stale pointers the connection code can follow. *)

From S2P Require Import Prelude Errno Ring UnixNs UnixNsSpec UnixSock.

(** ** The namespace *)

(** C29: the hash table of bound names implements a map from paths to sockets.
    For a path of at most 107 bytes a lookup returns exactly what the map
    holds, binding a free name adds it, binding a taken one fails with
    EADDRINUSE, binding without memory fails with ENOMEM, both without a
    change, and removal deletes the name, or, without memory, does nothing.
    Every probe ends. *)
Theorem ns_refines_map ns_mem ns m p s :
  (forall c, ns_mem c = true -> c <= 2 ^ 28) -> ns_repr ns m -> (length p <= 107)%nat -> s <> NULL ->
  ns_find ns p = Some (default NULL (m !! p)) /\
  (exists ns' r, ns_insert ns_mem ns p s = Some (ns', r) /\
     match m !! p with
     | Some _ => r = - EADDRINUSE /\ ns' = ns
     | None => if ns_mem (grown ns) then r = 0 /\ ns_repr ns' (<[p := s]> m) else r = - ENOMEM /\ ns' = ns
     end) /\
  (exists ns', ns_remove ns_mem ns p = Some ns' /\
     (ns_repr ns' (delete p m) \/ ns' = ns /\ exists t, ns = Some t /\ ns_mem (ns_cap t) = false)).
Proof.
  intros Hmem Hr Hp Hs. split; [by apply find_repr|]. split; [|by apply remove_repr].
  destruct (m !! p) as [x|] eqn:E.
  - unfold ns_insert. rewrite (find_repr _ _ _ Hr), E. cbn [mbind option_bind default from_option]. unfold id.
    assert (x <> NULL).
    { destruct ns as [t|]; cbn in Hr; [|subst m; by rewrite lookup_empty in E].
      destruct Hr as (k & _ & _ & _ & _ & Hh). apply Hh in E. by destruct E. }
    destruct (Z.eqb_spec x NULL); [done|]. cbn [negb]. by do 2 eexists.
  - destruct (ns_mem (grown ns)) eqn:Em.
    + destruct (insert_repr ns_mem Hmem ns m p s Hr Hp Hs E Em) as (ns' & Ei & Hr'). by exists ns', 0.
    + unfold ns_insert. rewrite (find_repr _ _ _ Hr), E. cbn [mbind option_bind default from_option].
      change (NULL =? NULL) with true. cbn [negb].
      assert (Eg : new_cap (match ns with Some t => ns_cap t | None => 0 end) (match ns with Some t => ns_cnt t | None => 0 end) = grown ns)
        by by destruct ns.
      rewrite Eg. unfold ns_table_alloc. rewrite Em. by do 2 eexists.
Qed.

Definition demo_ns_mem (c : Z) : bool := c <=? 64.

Lemma ns_refines_map_witness : exists ns' r, ns_insert demo_ns_mem None [47; 97] 5 = Some (ns', r) /\
  r = 0 /\ ns_repr ns' (<[ [47; 97] := 5 ]> ∅).
Proof.
  destruct (ns_refines_map demo_ns_mem None ∅ [47; 97] 5) as (_ & (ns' & r & E & H) & _).
  - unfold demo_ns_mem. intros c H%Z.leb_le. lia.
  - reflexivity.
  - cbn. lia.
  - discriminate.
  - exists ns', r. split; [exact E|]. exact H.
Defined.

(** ** Streams *)

Abbreviation sbytes := (contents 13).





(** *** A sender and a receiver *)


















(** ** Stale pointers *)








