(* ===== verification/EventFd.v ===== *)
(** * Event counters

    Models kernel/io/eventfd.c.  The counter is changed by compare-and-swap
    loops, so every thread is a small state machine: it has loaded the counter,
    it sleeps on one of the two wait queues, or it is done.  A step is one
    atomic access; threads interleave freely. *)

From S2P Require Import Prelude Errno.

Abbreviation EFD_SEMAPHORE := 1%Z (only parsing).
Abbreviation EFD_NONBLOCK := 4%Z (only parsing).
Abbreviation POLLIN := 1%Z (only parsing).
Abbreviation POLLOUT := 4%Z (only parsing).
Definition EVENTFD_MAX : Z := 0xfffffffffffffffe.

(** A thread inside a call: [old] is the value it last loaded and [nb]
    whether the call must not block.  [ReadWait] and [WriteWait] are about to
    evaluate the condition of the wait loop. *)
Inductive efd_thread :=
| Reading (nb : bool) (old : Z)
| ReadWait
| ReadAsleep
| Writing (nb : bool) (add old : Z)
| WriteWait (add : Z)
| WriteAsleep (add : Z)
| Done (r : Z).

(** [e_nonblock] is O_NONBLOCK of the file; [e_written] and [e_taken] sum up
    what the finished calls added and took. *)
Record eventfd_state := EfdState {
  e_count : Z;
  e_flags : Z;
  e_nonblock : bool;
  e_threads : gmap Z efd_thread;
  e_written : Z;
  e_taken : Z;
}.

Definition with_thread (s : eventfd_state) (t : Z) (x : efd_thread) : eventfd_state :=
  EfdState (e_count s) (e_flags s) (e_nonblock s) (<[t := x]> (e_threads s)) (e_written s) (e_taken s).

Definition eventfd_new (init_val flags : Z) : eventfd_state :=
  EfdState (u32 init_val) flags (negb (Z.land flags EFD_NONBLOCK =? 0)) ∅ 0 0.

Definition sema (s : eventfd_state) : bool := negb (Z.land (e_flags s) EFD_SEMAPHORE =? 0).
Definition nonblock (s : eventfd_state) : bool := e_nonblock s || negb (Z.land (e_flags s) EFD_NONBLOCK =? 0).

(** The entry of the two calls: argument checks and the first load. *)
Definition eventfd_read_op (s : eventfd_state) (len : Z) : efd_thread :=
  if len <? 8 then Done (- EINVAL) else Reading (nonblock s) (e_count s).

Definition eventfd_write_op (s : eventfd_state) (add len : Z) : efd_thread :=
  if len <? 8 then Done (- EINVAL)
  else if add =? 2 ^ 64 - 1 then Done (- EINVAL)
  else Writing (nonblock s) add (e_count s).

Definition wake_reader (x : efd_thread) : efd_thread := match x with ReadAsleep => ReadWait | _ => x end.
Definition wake_writer (x : efd_thread) : efd_thread := match x with WriteAsleep add => WriteWait add | _ => x end.

(** One turn of the reading loop of thread [t]. *)
Definition read_turn (s : eventfd_state) (t : Z) (nb : bool) (old : Z) : eventfd_state :=
  if old =? 0 then with_thread s t (if nb then Done (- EAGAIN) else ReadWait)
  else
    let taken := if sema s then 1 else old in
    let want := if sema s then old - 1 else 0 in
    if e_count s =? old then
      let ths := if old =? EVENTFD_MAX then wake_writer <$> e_threads s else e_threads s in
      EfdState want (e_flags s) (e_nonblock s) (<[t := Done 8]> ths) (e_written s) (e_taken s + taken)
    else with_thread s t (Reading nb (e_count s)).

Definition read_wait (s : eventfd_state) (t : Z) : eventfd_state :=
  with_thread s t (if e_count s =? 0 then ReadAsleep else Reading false (e_count s)).

(** One turn of the writing loop; the condition it waits for is evaluated in
    64 bits. *)
Definition overflows (old add : Z) : bool := (u64 (old + add) <? old) || (EVENTFD_MAX <? u64 (old + add)).
Definition room_for (count add : Z) : bool := u64 (count + add) <=? EVENTFD_MAX.

Definition write_turn (s : eventfd_state) (t : Z) (nb : bool) (add old : Z) : eventfd_state :=
  if overflows old add then with_thread s t (if nb then Done (- EAGAIN) else WriteWait add)
  else if e_count s =? old then
    let sum := u64 (old + add) in
    let ths := if old =? 0 then wake_reader <$> e_threads s else e_threads s in
    EfdState sum (e_flags s) (e_nonblock s) (<[t := Done 8]> ths) (e_written s + add) (e_taken s)
  else with_thread s t (Writing nb add (e_count s)).

Definition write_wait (s : eventfd_state) (t add : Z) : eventfd_state :=
  with_thread s t (if room_for (e_count s) add then Writing false add (e_count s) else WriteAsleep add).

Definition eventfd_poll_op (s : eventfd_state) (events : Z) : Z :=
  Z.lor (if negb (Z.land events POLLIN =? 0) && negb (e_count s =? 0) then POLLIN else 0)
        (if negb (Z.land events POLLOUT =? 0) && negb (e_count s =? EVENTFD_MAX) then POLLOUT else 0).

(** A thread that is not inside a call. *)
Definition idle (s : eventfd_state) (t : Z) : Prop := forall x, e_threads s !! t = Some x -> exists r, x = Done r.

(** Threads enter calls and take turns in any order. *)
Inductive efd_step : eventfd_state -> eventfd_state -> Prop :=
| efd_read s t len : idle s t -> efd_step s (with_thread s t (eventfd_read_op s len))
| efd_write s t add len : idle s t -> 0 <= add < 2 ^ 64 -> efd_step s (with_thread s t (eventfd_write_op s add len))
| efd_read_turn s t nb old : e_threads s !! t = Some (Reading nb old) -> efd_step s (read_turn s t nb old)
| efd_read_wait s t : e_threads s !! t = Some ReadWait -> efd_step s (read_wait s t)
| efd_write_turn s t nb add old : e_threads s !! t = Some (Writing nb add old) -> efd_step s (write_turn s t nb add old)
| efd_write_wait s t add : e_threads s !! t = Some (WriteWait add) -> efd_step s (write_wait s t add).
