(* ===== verification/EventFdTheorems.v ===== *)
(** * Event counters: theorems *)

From S2P Require Import Prelude Errno EventFd.

(** What a thread in a call has loaded is a value the counter can have. *)
Definition thread_ok (x : efd_thread) : Prop :=
  match x with
  | Reading _ old => 0 <= old <= EVENTFD_MAX
  | Writing _ add old => 0 <= add < 2 ^ 64 - 1 /\ 0 <= old <= EVENTFD_MAX
  | WriteWait add | WriteAsleep add => 0 <= add < 2 ^ 64 - 1
  | _ => True
  end.

Record efd_inv (init : Z) (s : eventfd_state) : Prop := {
  ei_count : 0 <= e_count s <= EVENTFD_MAX;
  ei_sum : e_count s = init + e_written s - e_taken s;
  ei_threads : forall t x, e_threads s !! t = Some x -> thread_ok x;
  ei_asleep : forall t, e_threads s !! t = Some ReadAsleep -> e_count s = 0;
}.

Lemma with_thread_inv init s t x :
  efd_inv init s -> thread_ok x -> (x = ReadAsleep -> e_count s = 0) -> efd_inv init (with_thread s t x).
Proof.
  intros [H1 H2 H3 H4] Hx Ha. constructor; cbn; try done.
  - intros t' y. destruct (decide (t' = t)) as [->|]; [rewrite lookup_insert_eq; by intros [= <-]|].
    rewrite lookup_insert_ne by done. apply H3.
  - intros t'. destruct (decide (t' = t)) as [->|]; [rewrite lookup_insert_eq; intros [= ->]; auto|].
    rewrite lookup_insert_ne by done. apply H4.
Qed.

(** A successful swap of thread [t]: [ths] is the other threads after the
    wake-ups. *)
Lemma swap_inv init s t count ths w k :
  efd_inv init s -> 0 <= count <= EVENTFD_MAX -> count = init + w - k ->
  (forall t x, ths !! t = Some x -> thread_ok x) -> (forall t, ths !! t = Some ReadAsleep -> count = 0) ->
  efd_inv init (EfdState count (e_flags s) (e_nonblock s) (<[t := Done 8]> ths) w k).
Proof.
  intros _ Hc Hs Ht Ha. constructor; cbn; try done.
  - intros t' y. destruct (decide (t' = t)) as [->|]; [rewrite lookup_insert_eq; by intros [= <-]|].
    rewrite lookup_insert_ne by done. apply Ht.
  - intros t'. destruct (decide (t' = t)) as [->|]; [by rewrite lookup_insert_eq|].
    rewrite lookup_insert_ne by done. apply Ha.
Qed.

Lemma wake_ok (f : efd_thread -> efd_thread) (ths : gmap Z efd_thread) :
  (forall x, thread_ok x -> thread_ok (f x)) -> (forall t x, ths !! t = Some x -> thread_ok x) ->
  forall t x, (f <$> ths) !! t = Some x -> thread_ok x.
Proof.
  intros Hf Ht t x Hx. rewrite lookup_fmap in Hx. destruct (ths !! t) as [y|] eqn:E; [|done].
  injection Hx as <-. by eapply Hf, Ht.
Qed.

Lemma efd_step_inv init s s' : efd_inv init s -> efd_step s s' -> efd_inv init s'.
Proof.
  intros Hi Hs. pose proof Hi as [H1 H2 H3 H4]. unfold EVENTFD_MAX in *. destruct Hs as [s t len|s t add len _ Ha|s t nb old Ht|s t Ht|s t nb add old Ht|s t add Ht].
  - apply with_thread_inv; [done|unfold eventfd_read_op; by destruct (len <? 8)|unfold eventfd_read_op; by destruct (len <? 8)].
  - apply with_thread_inv; [done|..]; unfold eventfd_write_op; destruct (len <? 8); try done;
      destruct (Z.eqb_spec add (2 ^ 64 - 1)); try done. cbn. unfold EVENTFD_MAX. lia.
  - pose proof (H3 _ _ Ht) as Ho. cbn in Ho. unfold EVENTFD_MAX in Ho. unfold read_turn.
    destruct (Z.eqb_spec old 0) as [->|Hz]; [apply with_thread_inv; [done|by destruct nb|by destruct nb]|].
    destruct (Z.eqb_spec (e_count s) old) as [Hc|Hc]; [|by apply with_thread_inv].
    apply swap_inv; [done| | | |].
    + unfold EVENTFD_MAX. destruct (sema s); lia.
    + destruct (sema s); lia.
    + destruct (old =? EVENTFD_MAX); [|done]. apply wake_ok; [by intros []|done].
    + intros t'. destruct (old =? EVENTFD_MAX).
      * rewrite lookup_fmap. destruct (e_threads s !! t') as [[]|] eqn:E; cbn; try done. intros _. apply H4 in E. lia.
      * intros E. apply H4 in E. lia.
  - unfold read_wait. apply with_thread_inv; [done|..]; destruct (Z.eqb_spec (e_count s) 0); done.
  - pose proof (H3 _ _ Ht) as [Ha Ho]. cbn in Ho. unfold EVENTFD_MAX in Ho. unfold write_turn, overflows.
    destruct ((u64 (old + add) <? old) || (EVENTFD_MAX <? u64 (old + add))) eqn:E;
      [apply with_thread_inv; [done|by destruct nb|by destruct nb]|].
    destruct (Z.eqb_spec (e_count s) old) as [Hc|Hc]; [|by apply with_thread_inv].
    apply orb_false_iff in E as [E1 E2]. apply Z.ltb_ge in E1, E2. unfold EVENTFD_MAX in E2.
    assert (old + add < 2 ^ 64) as Hlt.
    { destruct (Z.lt_ge_cases (old + add) (2 ^ 64)) as [|Hge]; [done|]. exfalso. unfold u64 in E1.
      rewrite <- (Z.mod_unique (old + add) (2 ^ 64) 1 (old + add - 2 ^ 64)) in E1 by lia. lia. }
    rewrite u64_id in * by lia. apply swap_inv; [done| | | |].
    + unfold EVENTFD_MAX. lia.
    + lia.
    + destruct (old =? 0); [|done]. apply wake_ok; [by intros []|done].
    + intros t'. destruct (Z.eqb_spec old 0).
      * rewrite lookup_fmap. destruct (e_threads s !! t') as [[]|]; done.
      * intros E. apply H4 in E. lia.
  - pose proof (H3 _ _ Ht) as Ha. cbn in Ha. unfold write_wait. apply with_thread_inv; [done|..]; by destruct (room_for _ _).
Qed.

Lemma conserves init flags s :
  rtc efd_step (eventfd_new init flags) s ->
  e_count s = u32 init + e_written s - e_taken s /\ 0 <= e_count s <= EVENTFD_MAX /\
  forall t, e_threads s !! t = Some ReadAsleep -> e_count s = 0.
Proof.
  intros H. assert (Hi : efd_inv (u32 init) (eventfd_new init flags)).
  { pose proof (u32_range init). constructor; cbn; unfold EVENTFD_MAX; try lia; intros t; by rewrite lookup_empty. }
  assert (efd_inv (u32 init) s) as [H1 H2 H3 H4]; [|done].
  induction H as [|s1 s2 s3 Hs _ IH]; [done|]. apply IH. by eapply efd_step_inv.
Qed.

Lemma writer_stalls c a :
  0 < c < EVENTFD_MAX -> 0 < a < 2 ^ 64 - 1 ->
  let s := EfdState c 0 false {[ 1 := Writing false a c; 2 := Reading false c ]} 0 0 in
  (c + a = 2 ^ 64 - 1 -> exists s', rtc efd_step s s' /\ e_count s' = 0 /\ e_threads s' !! 1 = Some (WriteAsleep a) /\
     e_threads s' !! 2 = Some (Done 8) /\ room_for (e_count s') a = true) /\
  (2 ^ 64 <= c + a -> write_wait (write_turn s 1 false a c) 1 a = s).
Proof.
  intros Hc Ha s. unfold EVENTFD_MAX in Hc. split.
  - intros Hs. set (s1 := with_thread s 1 (WriteWait a)). set (s2 := with_thread s1 1 (WriteAsleep a)).
    exists (read_turn s2 2 false c).
    assert (E1 : write_turn s 1 false a c = s1).
    { unfold write_turn, overflows, EVENTFD_MAX. rewrite Hs, u64_id by lia. destruct (Z.ltb_spec (2 ^ 64 - 1) c); [lia|]. done. }
    assert (E2 : write_wait s1 1 a = s2).
    { unfold write_wait, room_for, EVENTFD_MAX. cbn [s1 s e_count with_thread]. rewrite Hs, u64_id by lia. done. }
    assert (E3 : read_turn s2 2 false c = EfdState 0 0 false (<[2 := Done 8]> (e_threads s2)) 0 c).
    { unfold read_turn, EVENTFD_MAX. cbn [s2 s1 s e_count with_thread sema e_flags e_nonblock e_written e_taken].
      destruct (Z.eqb_spec c 0); [lia|]. rewrite Z.eqb_refl. destruct (Z.eqb_spec c 18446744073709551614); [lia|]. done. }
    split.
    + eapply rtc_l; [|eapply rtc_l; [|apply rtc_once]].
      * apply (efd_write_turn s 1 false a c). reflexivity.
      * rewrite E1. apply (efd_write_wait s1 1 a). reflexivity.
      * rewrite E2. apply (efd_read_turn s2 2 false c). reflexivity.
    + rewrite E3. cbn [e_count e_threads]. split; [done|]. split; [reflexivity|]. split; [reflexivity|].
      unfold room_for, EVENTFD_MAX. rewrite u64_id by lia. apply Z.leb_le. lia.
  - intros Hs. assert (Hu : u64 (c + a) = c + a - 2 ^ 64).
    { unfold u64. symmetry. apply (Z.mod_unique _ _ 1); lia. }
    unfold write_turn, overflows. rewrite Hu. destruct (Z.ltb_spec (c + a - 2 ^ 64) c); [|lia]. cbn [orb].
    unfold write_wait, room_for, EVENTFD_MAX. cbn [s e_count with_thread]. rewrite Hu.
    destruct (Z.leb_spec (c + a - 2 ^ 64) 18446744073709551614); [|lia]. reflexivity.
Qed.

(** C33: under every interleaving of readers and writers, and for either mode,
    the counter is the initial value plus everything the finished writes added
    minus everything the finished reads took, it stays between 0 and the
    documented maximum, and no reader sleeps while it is not 0.  A blocked
    writer, though, can be forgotten or spin.  Let the counter be [c] and a
    blocking write add [a].  When [c + a] is exactly one more than the maximum
    and [c] is not the maximum itself, the writer sleeps, and the read that
    brings the counter to 0 does not wake it although there is room.  When
    [c + a] exceeds 64 bits the condition the writer waits for holds by
    wrap-around, so it neither sleeps nor writes: its turns lead back to where
    it was. *)
Theorem eventfd_counter :
  (forall init flags s, rtc efd_step (eventfd_new init flags) s ->
    e_count s = u32 init + e_written s - e_taken s /\ 0 <= e_count s <= EVENTFD_MAX /\
    forall t, e_threads s !! t = Some ReadAsleep -> e_count s = 0) /\
  (forall c a, 0 < c < EVENTFD_MAX -> 0 < a < 2 ^ 64 - 1 ->
    let s := EfdState c 0 false {[ 1 := Writing false a c; 2 := Reading false c ]} 0 0 in
    (c + a = 2 ^ 64 - 1 -> exists s', rtc efd_step s s' /\ e_count s' = 0 /\ e_threads s' !! 1 = Some (WriteAsleep a) /\
       e_threads s' !! 2 = Some (Done 8) /\ room_for (e_count s') a = true) /\
    (2 ^ 64 <= c + a -> write_wait (write_turn s 1 false a c) 1 a = s)).
Proof. split; [apply conserves|apply writer_stalls]. Qed.

Lemma eventfd_counter_witness :
  (let s := with_thread (eventfd_new 3 0) 1 (eventfd_read_op (eventfd_new 3 0) 8) in
   e_count (read_turn s 1 false 3) = u32 3 + e_written (read_turn s 1 false 3) - e_taken (read_turn s 1 false 3)) /\
  exists s', rtc efd_step (EfdState (EVENTFD_MAX - 2) 0 false {[ 1 := Writing false 3 (EVENTFD_MAX - 2); 2 := Reading false (EVENTFD_MAX - 2) ]} 0 0) s' /\
    e_count s' = 0 /\ e_threads s' !! 1 = Some (WriteAsleep 3) /\ e_threads s' !! 2 = Some (Done 8) /\ room_for (e_count s') 3 = true.
Proof.
  split.
  - apply (proj1 eventfd_counter 3 0).
    eapply rtc_l; [apply (efd_read _ 1 8)|apply rtc_once, efd_read_turn; reflexivity].
    intros x Hx. cbn in Hx. rewrite lookup_empty in Hx. discriminate.
  - apply (proj2 eventfd_counter (EVENTFD_MAX - 2) 3); unfold EVENTFD_MAX; lia.
Defined.
