(* ===== verification/Sha256.v ===== *)
(** * SHA-256

    Models kernel/crypto/sha256.c: the compression function on 32-bit words,
    and the streaming interface with its partial-block buffer.  Bytes and words
    are [Z]; reading past the end of an array is a fault ([None]). *)

From S2P Require Import Prelude.

Abbreviation SHA256_BLOCK_SZ := 64%Z (only parsing).

Definition K : list Z :=
  [0x428a2f98; 0x71374491; 0xb5c0fbcf; 0xe9b5dba5] ++ [0x3956c25b; 0x59f111f1; 0x923f82a4; 0xab1c5ed5] ++
  [0xd807aa98; 0x12835b01; 0x243185be; 0x550c7dc3] ++ [0x72be5d74; 0x80deb1fe; 0x9bdc06a7; 0xc19bf174] ++
  [0xe49b69c1; 0xefbe4786; 0x0fc19dc6; 0x240ca1cc] ++ [0x2de92c6f; 0x4a7484aa; 0x5cb0a9dc; 0x76f988da] ++
  [0x983e5152; 0xa831c66d; 0xb00327c8; 0xbf597fc7] ++ [0xc6e00bf3; 0xd5a79147; 0x06ca6351; 0x14292967] ++
  [0x27b70a85; 0x2e1b2138; 0x4d2c6dfc; 0x53380d13] ++ [0x650a7354; 0x766a0abb; 0x81c2c92e; 0x92722c85] ++
  [0xa2bfe8a1; 0xa81a664b; 0xc24b8b70; 0xc76c51a3] ++ [0xd192e819; 0xd6990624; 0xf40e3585; 0x106aa070] ++
  [0x19a4c116; 0x1e376c08; 0x2748774c; 0x34b0bcb5] ++ [0x391c0cb3; 0x4ed8aa4a; 0x5b9cca4f; 0x682e6ff3] ++
  [0x748f82ee; 0x78a5636f; 0x84c87814; 0x8cc70208] ++ [0x90befffa; 0xa4506ceb; 0xbef9a3f7; 0xc67178f2].

Definition ROR32 (x n : Z) : Z := Z.lor (Z.shiftr x n) (u32 (Z.shiftl x (32 - n))).
Definition not32 (x : Z) : Z := Z.lxor x (2 ^ 32 - 1).
Definition CH (x y z : Z) : Z := Z.lxor (Z.land x y) (Z.land (not32 x) z).
Definition MAJ (x y z : Z) : Z := Z.lxor (Z.lxor (Z.land x y) (Z.land x z)) (Z.land y z).
Definition BSIG0 (x : Z) : Z := Z.lxor (Z.lxor (ROR32 x 2) (ROR32 x 13)) (ROR32 x 22).
Definition BSIG1 (x : Z) : Z := Z.lxor (Z.lxor (ROR32 x 6) (ROR32 x 11)) (ROR32 x 25).
Definition SSIG0 (x : Z) : Z := Z.lxor (Z.lxor (ROR32 x 7) (ROR32 x 18)) (Z.shiftr x 3).
Definition SSIG1 (x : Z) : Z := Z.lxor (Z.lxor (ROR32 x 17) (ROR32 x 19)) (Z.shiftr x 10).

Definition be32 (p : list Z) (i : nat) : option Z :=
  a ← p !! i; b ← p !! (i + 1)%nat; c ← p !! (i + 2)%nat; d ← p !! (i + 3)%nat;
  Some (Z.lor (Z.lor (Z.lor (Z.shiftl a 24) (Z.shiftl b 16)) (Z.shiftl c 8)) d).

Definition put_be32 (v : Z) : list Z := [u8 (Z.shiftr v 24); u8 (Z.shiftr v 16); u8 (Z.shiftr v 8); u8 v].

(** The loop fills the eight bytes from the last to the first. *)
Fixpoint be_bytes (n : nat) (v : Z) (acc : list Z) : list Z :=
  match n with O => acc | S n => be_bytes n (Z.shiftr v 8) (u8 v :: acc) end.
Definition put_be64 (v : Z) : list Z := be_bytes 8 v [].

(** The message schedule: sixteen words of the block, then the recurrence. *)
Fixpoint schedule (n : nat) (W : list Z) : option (list Z) :=
  match n with
  | O => Some W
  | S n =>
      let t := length W in
      a ← W !! (t - 2)%nat; b ← W !! (t - 7)%nat; c ← W !! (t - 15)%nat; d ← W !! (t - 16)%nat;
      schedule n (W ++ [u32 (SSIG1 a + b + SSIG0 c + d)])
  end.

Fixpoint load_words (n : nat) (block : list Z) (t : nat) : option (list Z) :=
  match n with
  | O => Some []
  | S n => w ← be32 block (4 * t); ws ← load_words n block (S t); Some (w :: ws)
  end.

Record working := Work { wa : Z; wb : Z; wc : Z; wd : Z; we : Z; wf : Z; wg : Z; wh : Z }.

Definition sha_round (s : working) (k w : Z) : working :=
  let T1 := u32 (wh s + BSIG1 (we s) + CH (we s) (wf s) (wg s) + k + w) in
  let T2 := u32 (BSIG0 (wa s) + MAJ (wa s) (wb s) (wc s)) in
  Work (u32 (T1 + T2)) (wa s) (wb s) (wc s) (u32 (wd s + T1)) (we s) (wf s) (wg s).

Fixpoint sha_rounds (s : working) (ks ws : list Z) : option working :=
  match ks, ws with
  | [], _ => Some s
  | k :: ks, w :: ws => sha_rounds (sha_round s k w) ks ws
  | _ :: _, [] => None
  end.

Definition sha256_compress (h : working) (block : list Z) : option working :=
  W ← load_words 16 block 0;
  W ← schedule 48 W;
  s ← sha_rounds h K W;
  Some (Work (u32 (wa h + wa s)) (u32 (wb h + wb s)) (u32 (wc h + wc s)) (u32 (wd h + wd s))
             (u32 (we h + we s)) (u32 (wf h + wf s)) (u32 (wg h + wg s)) (u32 (wh h + wh s))).

(** ** The streaming interface *)

Record sha256_ctx := ShaCtx { h_state : working; total_bytes : Z; sbuf : list Z; buf_len : Z }.

Definition sha256_iv : working :=
  Work 0x6a09e667 0xbb67ae85 0x3c6ef372 0xa54ff53a 0x510e527f 0x9b05688c 0x1f83d9ab 0x5be0cd19.

(** The buffer of a context on the stack holds whatever was there. *)
Definition sha256_init (ctx : sha256_ctx) : sha256_ctx := ShaCtx sha256_iv 0 (sbuf ctx) 0.

(** [dst[off + i] = src[i]] for every byte of [src]. *)
Definition blit (dst : list Z) (off : nat) (src : list Z) : option (list Z) :=
  if (off + length src <=? length dst)%nat then Some (take off dst ++ src ++ drop (off + length src) dst) else None.

(** The loop over whole blocks of the input. *)
Fixpoint whole_blocks (fuel : nat) (h : working) (p : list Z) : option (working * list Z) :=
  match fuel with
  | O => Some (h, p)
  | S fuel =>
      if SHA256_BLOCK_SZ <=? Z.of_nat (length p) then
        h ← sha256_compress h (take 64 p); whole_blocks fuel h (drop 64 p)
      else Some (h, p)
  end.

Definition sha256_update (ctx : sha256_ctx) (data : list Z) : option sha256_ctx :=
  let total := u64 (total_bytes ctx + Z.of_nat (length data)) in
  '(ctx, p) ←
    (if buf_len ctx =? 0 then Some (ShaCtx (h_state ctx) total (sbuf ctx) 0, data)
     else
       let want := SHA256_BLOCK_SZ - buf_len ctx in
       let n := if Z.of_nat (length data) <? want then Z.of_nat (length data) else want in
       b ← blit (sbuf ctx) (Z.to_nat (buf_len ctx)) (take (Z.to_nat n) data);
       let len := buf_len ctx + n in
       let p := drop (Z.to_nat n) data in
       if len =? SHA256_BLOCK_SZ then h ← sha256_compress (h_state ctx) b; Some (ShaCtx h total b 0, p)
       else Some (ShaCtx (h_state ctx) total b len, p));
  '(h, p) ← whole_blocks (S (length p / 64)) (h_state ctx) p;
  if Z.of_nat (length p) =? 0 then Some (ShaCtx h (total_bytes ctx) (sbuf ctx) (buf_len ctx))
  else b ← blit (sbuf ctx) 0 p; Some (ShaCtx h (total_bytes ctx) b (Z.of_nat (length p))).

Definition digest (h : working) : list Z :=
  put_be32 (wa h) ++ put_be32 (wb h) ++ put_be32 (wc h) ++ put_be32 (wd h) ++
  put_be32 (we h) ++ put_be32 (wf h) ++ put_be32 (wg h) ++ put_be32 (wh h).

Definition sha256_final (ctx : sha256_ctx) : option (list Z) :=
  let bit_len := u64 (total_bytes ctx * 8) in
  b ← blit (sbuf ctx) (Z.to_nat (buf_len ctx)) [0x80];
  let len := buf_len ctx + 1 in
  '(h, b, len) ←
    (if 56 <? len then
       b ← blit b (Z.to_nat len) (replicate (Z.to_nat (SHA256_BLOCK_SZ - len)) 0);
       h ← sha256_compress (h_state ctx) b; Some (h, b, 0)
     else Some (h_state ctx, b, len));
  b ← blit b (Z.to_nat len) (replicate (Z.to_nat (56 - len)) 0);
  b ← blit b 56 (put_be64 bit_len);
  h ← sha256_compress h b;
  Some (digest h).

(** [stack] is what the buffer of the local context holds at first. *)
Definition sha256 (stack : list Z) (data : list Z) : option (list Z) :=
  ctx ← sha256_update (sha256_init (ShaCtx sha256_iv 0 stack 0)) data;
  sha256_final ctx.
