(* ===== verification/ChaCha20.v ===== *)
(** * ChaCha20

    Models kernel/crypto/chacha20.c: the block function on a table of sixteen
    32-bit words and the stream that is XORed into the data.
    At the end the stream by blocks, which the theorems compare it with. *)

From S2P Require Import Prelude.

Abbreviation CHACHA20_BLOCK_SZ := 64%Z (only parsing).

Definition ROTL32 (x n : Z) : Z := Z.lor (u32 (Z.shiftl x n)) (Z.shiftr x (32 - n)).

(** The eight assignments of the macro, on the values of its four arguments. *)
Definition quarter (a b c d : Z) : Z * Z * Z * Z :=
  let a := u32 (a + b) in let d := ROTL32 (Z.lxor d a) 16 in
  let c := u32 (c + d) in let b := ROTL32 (Z.lxor b c) 12 in
  let a := u32 (a + b) in let d := ROTL32 (Z.lxor d a) 8 in
  let c := u32 (c + d) in let b := ROTL32 (Z.lxor b c) 7 in
  (a, b, c, d).

Definition QR (i j k l : nat) (x : list Z) : option (list Z) :=
  a ← x !! i; b ← x !! j; c ← x !! k; d ← x !! l;
  let '(a, b, c, d) := quarter a b c d in
  Some (<[l := d]> (<[k := c]> (<[j := b]> (<[i := a]> x)))).

Definition le32 (p : list Z) (i : nat) : option Z :=
  a ← p !! i; b ← p !! (i + 1)%nat; c ← p !! (i + 2)%nat; d ← p !! (i + 3)%nat;
  Some (Z.lor (Z.lor (Z.lor a (Z.shiftl b 8)) (Z.shiftl c 16)) (Z.shiftl d 24)).

Definition put_le32 (v : Z) : list Z := [u8 v; u8 (Z.shiftr v 8); u8 (Z.shiftr v 16); u8 (Z.shiftr v 24)].

Fixpoint load_le (n : nat) (p : list Z) (i : nat) : option (list Z) :=
  match n with
  | O => Some []
  | S n => w ← le32 p (4 * i); ws ← load_le n p (S i); Some (w :: ws)
  end.

Definition initial_state (key nonce : list Z) (counter : Z) : option (list Z) :=
  k ← load_le 8 key 0;
  n ← load_le 3 nonce 0;
  Some ([0x61707865; 0x3320646e; 0x79622d32; 0x6b206574] ++ k ++ [counter] ++ n).

Definition double_round (x : list Z) : option (list Z) :=
  x ← QR 0 4 8 12 x; x ← QR 1 5 9 13 x; x ← QR 2 6 10 14 x; x ← QR 3 7 11 15 x;
  x ← QR 0 5 10 15 x; x ← QR 1 6 11 12 x; x ← QR 2 7 8 13 x; QR 3 4 9 14 x.

Fixpoint double_rounds (n : nat) (x : list Z) : option (list Z) :=
  match n with O => Some x | S n => x ← double_round x; double_rounds n x end.

Definition chacha20_block (key nonce : list Z) (counter : Z) : option (list Z) :=
  s ← initial_state key nonce counter;
  x ← double_rounds 10 s;
  Some (zip_with (fun a b => u32 (a + b)) x s).

Definition ks_bytes (ks : list Z) : list Z := concat (put_le32 <$> ks).

(** [out[i] = in[i] ^ ks_bytes[i]] for the first [n] bytes. *)
Fixpoint xor_bytes (n : nat) (src ks : list Z) : option (list Z) :=
  match n, src, ks with
  | O, _, _ => Some []
  | S n, a :: src, k :: ks => out ← xor_bytes n src ks; Some (Z.lxor a k :: out)
  | _, _, _ => None
  end.

(** [src] is the memory behind [in], of which [len] bytes are processed. *)
Fixpoint xor_loop (fuel : nat) (src : list Z) (len : Z) (key nonce : list Z) (counter : Z) : option (list Z) :=
  if len =? 0 then Some []
  else match fuel with
  | O => None
  | S fuel =>
      ks ← chacha20_block key nonce counter;
      let n := if CHACHA20_BLOCK_SZ <? len then CHACHA20_BLOCK_SZ else len in
      out ← xor_bytes (Z.to_nat n) src (ks_bytes ks);
      rest ← xor_loop fuel (drop (Z.to_nat n) src) (len - n) key nonce (u32 (counter + 1));
      Some (out ++ rest)
  end.

Definition chacha20_xor (src : list Z) (len : Z) (key nonce : list Z) (initial_counter : Z) : option (list Z) :=
  xor_loop (S (Z.to_nat len)) src len key nonce initial_counter.

(** ** The key stream *)

Definition word (w : Z) : Prop := 0 <= w < 2 ^ 32.

Lemma QR_total i j k l x : length x = 16%nat -> (i < 16)%nat -> (j < 16)%nat -> (k < 16)%nat -> (l < 16)%nat ->
  exists y, QR i j k l x = Some y /\ length y = 16%nat.
Proof.
  intros Hx Hi Hj Hk Hl. unfold QR.
  destruct (lookup_lt_is_Some_2 x i) as [a ->]; [lia|]. destruct (lookup_lt_is_Some_2 x j) as [b ->]; [lia|].
  destruct (lookup_lt_is_Some_2 x k) as [c ->]; [lia|]. destruct (lookup_lt_is_Some_2 x l) as [d ->]; [lia|].
  eexists. split; [reflexivity|]. by rewrite !length_insert.
Qed.

Ltac qr_step := match goal with |- context [QR ?i ?j ?k ?l ?x] =>
  let y := fresh "y" in let E := fresh "E" in let L := fresh "L" in
  destruct (QR_total i j k l x) as (y & E & L); [assumption|lia..|]; rewrite ?E; cbn [mbind option_bind] end.

Lemma double_round_total x : length x = 16%nat -> exists y, double_round x = Some y /\ length y = 16%nat.
Proof. intros Hx. unfold double_round. do 8 qr_step. eexists; by split. Qed.

Lemma double_rounds_total n x : length x = 16%nat -> exists y, double_rounds n x = Some y /\ length y = 16%nat.
Proof.
  revert x. induction n as [|n IH]; intros x Hx; simpl; [by eexists|].
  destruct (double_round_total x Hx) as (y & -> & Hy). by apply IH.
Qed.

Lemma load_le_total n p i : (4 * (i + n) <= length p)%nat -> exists ws, load_le n p i = Some ws /\ length ws = n.
Proof.
  revert i. induction n as [|n IH]; intros i H; [by eexists|]. cbn [load_le]. unfold le32.
  destruct (lookup_lt_is_Some_2 p (4 * i)) as [a ->]; [lia|]. destruct (lookup_lt_is_Some_2 p (4 * i + 1)) as [b ->]; [lia|].
  destruct (lookup_lt_is_Some_2 p (4 * i + 2)) as [c ->]; [lia|]. destruct (lookup_lt_is_Some_2 p (4 * i + 3)) as [d ->]; [lia|].
  cbn [mbind option_bind]. destruct (IH (S i)) as (ws & -> & Hl); [lia|]. eexists; split; [done|simpl; lia].
Qed.

Lemma block_total key nonce c : length key = 32%nat -> length nonce = 12%nat ->
  exists ks, chacha20_block key nonce c = Some ks /\ length ks = 16%nat /\ Forall word ks.
Proof.
  intros Hk Hn. unfold chacha20_block, initial_state.
  destruct (load_le_total 8 key 0) as (k & -> & Hkl); [lia|]. destruct (load_le_total 3 nonce 0) as (n & -> & Hnl); [lia|].
  cbn [mbind option_bind]. set (s := _ ++ _).
  assert (Hs : length s = 16%nat) by (unfold s; rewrite !length_app; simpl; lia).
  destruct (double_rounds_total 10 s Hs) as (x & -> & Hx). cbn [mbind option_bind].
  eexists. split_and!; [done|rewrite length_zip_with; lia|].
  apply Forall_lookup. intros j w Hw. apply lookup_zip_with_Some in Hw as (u & v & -> & _). unfold word, u32. mlia.
Qed.

(** ** The stream *)

Definition ks_block (key nonce : list Z) (c : Z) : list Z := default [] (ks_bytes <$> chacha20_block key nonce c).

Definition keystream (key nonce : list Z) (c : Z) (n : nat) : list Z :=
  concat ((fun i => ks_block key nonce (u32 (c + i))) <$> seqZ 0 (Z.of_nat n)).

Section stream.
  Context (key nonce : list Z) (Hkey : length key = 32%nat) (Hnonce : length nonce = 12%nat).

Lemma ks_bytes_length ks : length (ks_bytes ks) = (4 * length ks)%nat.
Proof. unfold ks_bytes. induction ks as [|k ks IH]; [done|]. rewrite fmap_cons. cbn [concat]. rewrite length_app, IH. simpl. lia. Qed.

Lemma ks_bytes_byte ks : Forall (fun b => 0 <= b < 256) (ks_bytes ks).
Proof.
  unfold ks_bytes. induction ks as [|k ks IH]; [constructor|]. rewrite fmap_cons. cbn [concat]. apply Forall_app. split; [|done].
  unfold put_le32, u8. repeat constructor; mlia.
Qed.

Lemma ks_block_length c : length (ks_block key nonce c) = 64%nat.
Proof. unfold ks_block. destruct (block_total key nonce c Hkey Hnonce) as (ks & -> & Hl & _). simpl. rewrite ks_bytes_length. lia. Qed.

Lemma ks_block_byte c : Forall (fun b => 0 <= b < 256) (ks_block key nonce c).
Proof. unfold ks_block. destruct (block_total key nonce c Hkey Hnonce) as (ks & -> & _). apply ks_bytes_byte. Qed.

Lemma keystream_S c n : keystream key nonce c (S n) = ks_block key nonce (u32 c) ++ keystream key nonce (u32 (c + 1)) n.
Proof.
  unfold keystream. rewrite Nat2Z.inj_succ, seqZ_cons by lia. rewrite fmap_cons. cbn [concat]. rewrite Z.add_0_r. f_equal.
  replace (Z.pred (Z.succ (Z.of_nat n))) with (Z.of_nat n) by lia. change (Z.succ 0) with (1 + 0). rewrite <- fmap_add_seqZ.
  f_equal. rewrite <- list_fmap_compose. apply list_fmap_ext. intros j i _. simpl. unfold u32. rewrite Z.add_mod_idemp_l by lia. do 2 f_equal. lia.
Qed.

Lemma keystream_u32 c n : keystream key nonce (u32 c) n = keystream key nonce c n.
Proof. unfold keystream. f_equal. apply list_fmap_ext. intros j i _. unfold u32. by rewrite Z.add_mod_idemp_l. Qed.

Lemma keystream_add c n m : keystream key nonce c (n + m) = keystream key nonce c n ++ keystream key nonce (c + Z.of_nat n) m.
Proof.
  revert c. induction n as [|n IH]; intros c; [simpl; by rewrite Z.add_0_r|].
  cbn [Nat.add]. rewrite !keystream_S, IH, app_assoc. f_equal. rewrite <- (keystream_u32 (c + _)), <- (keystream_u32 (u32 _ + _)).
  f_equal. unfold u32. rewrite Z.add_mod_idemp_l by lia. f_equal. lia.
Qed.

Lemma keystream_length c n : length (keystream key nonce c n) = (64 * n)%nat.
Proof. revert c. induction n as [|n IH]; intros c; [done|]. rewrite keystream_S, length_app, ks_block_length, IH. lia. Qed.

Lemma keystream_byte c n : Forall (fun b => 0 <= b < 256) (keystream key nonce c n).
Proof. revert c. induction n as [|n IH]; intros c; [constructor|]. rewrite keystream_S. apply Forall_app. split; [apply ks_block_byte|apply IH]. Qed.

Lemma xor_bytes_ok n src ks : (n <= length src)%nat -> (n <= length ks)%nat ->
  xor_bytes n src ks = Some (zip_with Z.lxor (take n src) ks).
Proof.
  revert src ks. induction n as [|n IH]; intros src ks Hs Hk; [done|].
  destruct src as [|a src], ks as [|k ks]; simpl in *; try lia. rewrite IH by lia. done.
Qed.

Lemma zip_with_long {A B C} (f : A -> B -> C) l k k' : (length l <= length k)%nat -> zip_with f l (k ++ k') = zip_with f l k.
Proof. revert k. induction l as [|x l IH]; intros [|y k] H; simpl in *; try lia; [by destruct k'|done|]. f_equal. apply IH. lia. Qed.

(** Enough blocks for [len] bytes. *)
Definition blocks_for (len : nat) : nat := (len + 63) / 64.

Lemma xor_loop_ok fuel src len c : 0 <= len -> Z.of_nat (length src) >= len -> (Z.to_nat len < fuel)%nat -> c = u32 c ->
  xor_loop fuel src len key nonce c =
    Some (zip_with Z.lxor (take (Z.to_nat len) src) (keystream key nonce c (blocks_for (Z.to_nat len)))).
Proof.
  revert src len c. induction fuel as [|fuel IH]; intros src len c H0 Hs Hf Hc; [lia|]. cbn [xor_loop].
  destruct (Z.eqb_spec len 0) as [->|Hn]; [done|].
  pose proof (ks_block_length c) as Hkl. unfold ks_block in Hkl.
  destruct (block_total key nonce c Hkey Hnonce) as (ks & Hks & _). rewrite Hks in Hkl |- *. cbn [mbind option_bind]. simpl in Hkl.
  assert (Hkb : ks_block key nonce (u32 c) = ks_bytes ks) by (rewrite <- Hc; unfold ks_block; by rewrite Hks).
  set (n := if 64 <? len then 64 else len). assert (Hnn : n = Z.min 64 len) by (unfold n; zbool; lia).
  rewrite xor_bytes_ok by lia. cbn [mbind option_bind].
  rewrite IH; [|lia|rewrite length_drop; lia|lia|unfold u32; by rewrite Z.mod_mod by lia]. cbn [mbind option_bind]. f_equal.
  assert (Hbl : blocks_for (Z.to_nat len) = S (blocks_for (Z.to_nat (len - n)))).
  { unfold blocks_for. destruct (Z.ltb_spec 64 len).
    - replace (Z.to_nat len + 63)%nat with ((Z.to_nat (len - n) + 63) + 1 * 64)%nat by lia. rewrite Nat.div_add by lia. lia.
    - replace (Z.to_nat (len - n)) with 0%nat by lia. change ((0 + 63) / 64)%nat with 0%nat.
      symmetry. apply Nat.div_unique with (Z.to_nat len - 1)%nat; lia. }
  rewrite Hbl, keystream_S, Hkb. replace (Z.to_nat len) with (Z.to_nat n + Z.to_nat (len - n))%nat by lia.
  rewrite <- take_take_drop. destruct (decide (64 < len)).
  - rewrite (zip_with_app Z.lxor) by (rewrite length_take; lia). done.
  - replace (Z.to_nat (len - n)) with 0%nat by lia. rewrite take_0, app_nil_r. cbn [zip_with]. rewrite app_nil_r.
    symmetry. apply zip_with_long. rewrite length_take. lia.
Qed.

Lemma chacha20_xor_ok src len c : 0 <= len -> Z.of_nat (length src) >= len -> c = u32 c ->
  chacha20_xor src len key nonce c = Some (zip_with Z.lxor (take (Z.to_nat len) src) (keystream key nonce c (blocks_for (Z.to_nat len)))).
Proof. intros. unfold chacha20_xor. apply xor_loop_ok; done || lia. Qed.

End stream.

Lemma blocks_for_enough n : (n <= 64 * blocks_for n)%nat.
Proof. unfold blocks_for. pose proof (Nat.div_mod_eq (n + 63) 64). pose proof (Nat.mod_upper_bound (n + 63) 64 ltac:(lia)). lia. Qed.

Lemma xor_xor l k : (length l <= length k)%nat -> zip_with Z.lxor (zip_with Z.lxor l k) k = l.
Proof.
  revert k. induction l as [|x l IH]; intros [|y k] H; simpl in *; try done; try lia.
  rewrite Z.lxor_assoc, Z.lxor_nilpotent, Z.lxor_0_r. f_equal. apply IH. lia.
Qed.

Lemma xor_zeros n k : (n <= length k)%nat -> zip_with Z.lxor (replicate n 0) k = take n k.
Proof. revert k. induction n as [|n IH]; intros [|y k] H; simpl in *; try done; try lia. f_equal. apply IH. lia. Qed.

Lemma lxor_byte a b : 0 <= a < 256 -> 0 <= b < 256 -> 0 <= Z.lxor a b < 256.
Proof.
  intros Ha Hb. assert (Hnn : 0 <= Z.lxor a b) by (apply Z.lxor_nonneg; lia). split; [done|].
  destruct (decide (Z.lxor a b = 0)) as [->|Hz]; [lia|]. change 256 with (2 ^ 8). apply Z.log2_lt_pow2; [lia|].
  eapply Z.le_lt_trans; [apply Z.log2_lxor; lia|]. apply Z.max_lub_lt.
  - destruct (decide (a = 0)) as [->|]; [done|]. apply Z.log2_lt_pow2; lia.
  - destruct (decide (b = 0)) as [->|]; [done|]. apply Z.log2_lt_pow2; lia.
Qed.

Lemma Forall_zip_with_lxor l k : Forall (fun b => 0 <= b < 256) l -> Forall (fun b => 0 <= b < 256) k ->
  Forall (fun b => 0 <= b < 256) (zip_with Z.lxor l k).
Proof.
  intros Hl. revert k. induction Hl as [|a l Ha Hl IH]; intros k Hk; [constructor|].
  destruct Hk as [|b k Hb Hk]; simpl; constructor; [by apply lxor_byte|by apply IH].
Qed.

Lemma blocks_for_split n k : (64 * k <= n)%nat ->
  blocks_for n = (blocks_for (64 * k) + blocks_for (n - 64 * k))%nat /\ blocks_for (64 * k) = k.
Proof.
  intros H. assert (Hk : blocks_for (64 * k) = k).
  { unfold blocks_for. symmetry. apply Nat.div_unique with 63%nat; lia. }
  split; [|done]. rewrite Hk. unfold blocks_for. replace (n + 63)%nat with ((n - 64 * k + 63) + k * 64)%nat by lia.
  rewrite Nat.div_add by lia. lia.
Qed.
