(* ===== verification/Random.v ===== *)
(** * The kernel random number generator

    Models kernel/crypto/random.c.  The entropy pool is 32 bytes replaced by a
    hash of itself and each input; output is a ChaCha20 stream keyed by the
    pool.  The per-CPU sink of interrupt timings is the 128 bytes the compiler
    lays out for a fast_mix_t (64 bytes of data, the 32-bit counter at offset
    64, padding to the next multiple of the alignment), because one function
    writes past the data.  The hardware (cpuid, rdrand, rdseed, the time-stamp
    counter, the memory behind the kernel) is a record of functions giving the
    result of each successive execution. *)

From S2P Require Import Prelude Sha256 ChaCha20.

Abbreviation FASTMIX_FLUSH_EVERY := 256%Z (only parsing).
Abbreviation MAX_CPUS := 64%Z (only parsing).

Record hardware := HW {
  hw_has_rdrand : bool; hw_has_rdseed : bool;
  hw_rdrand : nat -> Z * bool; hw_rdseed : nat -> Z * bool;
  hw_tsc : nat -> Z; hw_dram : Z
}.

Record csprng := Csprng {
  g_pool : list Z; g_inited : bool; g_fastmix : list (list Z);
  rdrand_runs : nat; rdseed_runs : nat; tsc_runs : nat
}.

Definition with_pool (p : list Z) (s : csprng) : csprng := Csprng p (g_inited s) (g_fastmix s) (rdrand_runs s) (rdseed_runs s) (tsc_runs s).
Definition with_inited (b : bool) (s : csprng) : csprng := Csprng (g_pool s) b (g_fastmix s) (rdrand_runs s) (rdseed_runs s) (tsc_runs s).
Definition with_fastmix (f : list (list Z)) (s : csprng) : csprng := Csprng (g_pool s) (g_inited s) f (rdrand_runs s) (rdseed_runs s) (tsc_runs s).
Definition with_rdrand (n : nat) (s : csprng) : csprng := Csprng (g_pool s) (g_inited s) (g_fastmix s) n (rdseed_runs s) (tsc_runs s).
Definition with_rdseed (n : nat) (s : csprng) : csprng := Csprng (g_pool s) (g_inited s) (g_fastmix s) (rdrand_runs s) n (tsc_runs s).
Definition with_tsc (n : nat) (s : csprng) : csprng := Csprng (g_pool s) (g_inited s) (g_fastmix s) (rdrand_runs s) (rdseed_runs s) n.

(** The eight bytes of a uint64_t in memory. *)
Definition le64_bytes (v : Z) : list Z := (fun i => u8 (Z.shiftr v (8 * i))) <$> seqZ 0 8.

Section csprng.
  (** What the stack holds where the hash contexts are, and the machine. *)
  Context (stack : sha256_ctx) (hw : hardware).

(** ** Reading the hardware *)

(** Up to [n] executions of an instruction that reports success with the carry flag. *)
Fixpoint rd_retry (n : nat) (f : nat -> Z * bool) (k : nat) : option Z * nat :=
  match n with
  | O => (None, k)
  | S n => let '(v, ok) := f k in if ok then (Some v, S k) else rd_retry n f (S k)
  end.

Definition rdrand64 (s : csprng) : option Z * csprng :=
  if negb (hw_has_rdrand hw) then (None, s)
  else let '(r, k) := rd_retry 10 (hw_rdrand hw) (rdrand_runs s) in (r, with_rdrand k s).

Definition rdseed64 (s : csprng) : option Z * csprng :=
  if negb (hw_has_rdseed hw) then (None, s)
  else let '(r, k) := rd_retry 10 (hw_rdseed hw) (rdseed_runs s) in (r, with_rdseed k s).

Definition tsc_read_ns (s : csprng) : Z * csprng := (u64 (hw_tsc hw (tsc_runs s)), with_tsc (S (tsc_runs s)) s).

(** ** The pool *)

Definition pool_mix_locked (s : csprng) (data : list Z) : option csprng :=
  ctx ← sha256_update (sha256_init stack) (g_pool s);
  ctx ← sha256_update ctx data;
  d ← sha256_final ctx;
  Some (with_pool d s).

Definition kcsprng_mix (s : csprng) (data : list Z) : option csprng :=
  if Z.of_nat (length data) =? 0 then Some s else pool_mix_locked s data.

(** ** The interrupt path *)

(** The loop that XORs the timestamp into consecutive bytes from [off] on;
    [i % 63] is [i] for every [i] below 8. *)
Fixpoint xor_at (fm : list Z) (off : Z) (bytes : list Z) (i : Z) : option (list Z) :=
  match bytes with
  | [] => Some fm
  | b :: bytes =>
      let j := Z.to_nat (off + i mod (64 - 1)) in
      x ← fm !! j; xor_at (<[j := Z.lxor x b]> fm) off bytes (i + 1)
  end.

Definition fm_counter (fm : list Z) : option Z := le32 fm 64.

Definition kcsprng_mix_irq (s : csprng) (cpu : option Z) (vector tsc_ns : Z) : option csprng :=
  match cpu with
  | None => Some s
  | Some id =>
      if MAX_CPUS <=? id then Some s
      else
        fm ← g_fastmix s !! Z.to_nat id;
        c ← fm_counter fm;
        let off := u32 (c * 9) mod 64 in
        fm ← xor_at fm off (le64_bytes tsc_ns) 0;
        x ← fm !! Z.to_nat off;
        let fm := <[Z.to_nat off := Z.lxor x vector]> fm in
        c ← fm_counter fm;
        fm ← blit fm 64 (put_le32 (u32 (c + 1)));
        c ← fm_counter fm;
        if Z.land c (FASTMIX_FLUSH_EVERY - 1) =? 0 then
          s ← pool_mix_locked s (take 64 fm);
          fm ← blit fm 0 (replicate 64 0);
          Some (with_fastmix (<[Z.to_nat id := fm]> (g_fastmix s)) s)
        else Some (with_fastmix (<[Z.to_nat id := fm]> (g_fastmix s)) s)
  end.

(** ** Seeding *)

Fixpoint seed_rd (n : nat) (rd : csprng -> option Z * csprng) (seed : list Z) (s : csprng) : list Z * csprng :=
  match n with
  | O => (seed, s)
  | S n =>
      if Z.of_nat (length seed) <? 32 then
        let '(r, s) := rd s in
        seed_rd n rd (match r with Some v => seed ++ [v] | None => seed end) s
      else (seed, s)
  end.

Fixpoint seed_jitter (n : nat) (prev : Z) (seed : list Z) (s : csprng) : list Z * csprng :=
  match n with
  | O => (seed, s)
  | S n =>
      if Z.of_nat (length seed) <? 32 then
        let '(now, s) := tsc_read_ns s in
        seed_jitter n now (seed ++ [Z.lxor now (u64 (Z.shiftl prev 13))]) s
      else (seed, s)
  end.

Definition kcsprng_init (s : csprng) : option csprng :=
  if g_inited s then Some s
  else
    let '(seed, s) := seed_rd 8 rdrand64 [] s in
    let '(seed, s) := seed_rd 4 rdseed64 seed s in
    let '(prev, s) := tsc_read_ns s in
    let '(seed, s) := seed_jitter 16 prev seed s in
    let seed := if Z.of_nat (length seed) <? 32 then seed ++ [hw_dram hw] else seed in
    s ← pool_mix_locked s (concat (le64_bytes <$> seed));
    Some (with_inited true s).

(** ** Output *)

Fixpoint ks_loop (fuel : nat) (len : Z) (key nonce : list Z) (ctr : Z) : option (list Z) :=
  if len =? 0 then Some []
  else match fuel with
  | O => None
  | S fuel =>
      let n := if len <? CHACHA20_BLOCK_SZ then len else CHACHA20_BLOCK_SZ in
      out ← chacha20_xor (replicate 64 0) n key nonce ctr;
      rest ← ks_loop fuel (len - n) key nonce (u32 (ctr + 1));
      Some (out ++ rest)
  end.

Definition str_nonce : list Z := [110; 111; 110; 99; 101].
Definition str_advance : list Z := [97; 100; 118; 97; 110; 99; 101].

Definition hash_with (s : csprng) (tag : list Z) : option (list Z) :=
  ctx ← sha256_update (sha256_init stack) (g_pool s);
  ctx ← sha256_update ctx tag;
  sha256_final ctx.

Definition kcsprng_read (s : csprng) (len : Z) : option (list Z * csprng) :=
  if len =? 0 then Some ([], s)
  else
    s ← (if g_inited s then Some s else kcsprng_init s);
    let '(t, s) := tsc_read_ns s in
    s ← pool_mix_locked s (le64_bytes t);
    let key := take 32 (g_pool s) in
    nbuf ← hash_with s str_nonce;
    let nonce := take 12 nbuf in
    p ← hash_with s str_advance;
    let s := with_pool p s in
    out ← ks_loop (S (Z.to_nat len)) len key nonce 0;
    Some (out, s).

End csprng.
