(* ===== verification/CryptoTheorems.v ===== *)
(** * Theorems on the stream cipher and the random number generator

    Encryption with the ChaCha20 stream is undone by the same call and can be
    resumed at any block; a random read is the stream of a key and nonce
    hashed from the pool, and replaces the pool; the interrupt path writes past
    its 64-byte sink. *)

From S2P Require Import Prelude Sha256 Sha256Theorems ChaCha20 Random.

(** ** ChaCha20 *)

(** C35: with a 32-byte key, a 12-byte nonce and a 32-bit counter the cipher never
    faults and returns as many bytes as it was given, applying it twice gives
    the data back, bytes stay bytes, and the data may be processed in two calls
    cut at a multiple of 64 bytes, the second starting at the counter the first
    one stopped at (modulo 2^32). *)
Theorem chacha20_roundtrip key nonce c data k :
  length key = 32%nat -> length nonce = 12%nat -> 0 <= c < 2 ^ 32 -> (64 * k <= length data)%nat ->
  let len := Z.of_nat (length data) in
  exists out, chacha20_xor data len key nonce c = Some out /\ length out = length data /\
    chacha20_xor out len key nonce c = Some data /\
    (Forall (fun b => 0 <= b < 256) data -> Forall (fun b => 0 <= b < 256) out) /\
    exists o1 o2, chacha20_xor data (Z.of_nat (64 * k)) key nonce c = Some o1 /\
      chacha20_xor (drop (64 * k) data) (len - Z.of_nat (64 * k)) key nonce (u32 (c + Z.of_nat k)) = Some o2 /\ out = o1 ++ o2.
Proof.
  intros Hk Hn Hc Hd len.
  assert (Hu : c = u32 c) by (unfold u32; by rewrite Z.mod_small).
  pose proof (blocks_for_enough (length data)) as Hb. pose proof (keystream_length key nonce Hk Hn c (blocks_for (length data))) as Hl.
  assert (Hlen : Z.to_nat len = length data) by lia.
  exists (zip_with Z.lxor data (keystream key nonce c (blocks_for (length data)))).
  assert (Hol : length (zip_with Z.lxor data (keystream key nonce c (blocks_for (length data)))) = length data) by (rewrite length_zip_with; lia).
  split_and!.
  - by rewrite chacha20_xor_ok, Hlen, take_ge by (done || lia).
  - done.
  - rewrite chacha20_xor_ok, Hlen, take_ge by (done || lia). by rewrite xor_xor by lia.
  - intros Hbytes. apply Forall_zip_with_lxor; [done|by apply keystream_byte].
  - eexists _, _. rewrite !chacha20_xor_ok by (done || (rewrite ?length_drop; lia) || (unfold u32; by rewrite Z.mod_mod)).
    split_and!; [done..|]. rewrite Nat2Z.id, keystream_u32 by done. replace (Z.to_nat (len - _)) with (length data - 64 * k)%nat by lia.
    rewrite (take_ge (drop _ _)) by (rewrite length_drop; lia).
    assert (Hbk : blocks_for (length data) = (blocks_for (64 * k) + blocks_for (length data - 64 * k))%nat /\ blocks_for (64 * k) = k).
    { apply blocks_for_split. lia. }
    destruct Hbk as [-> ->]. rewrite keystream_add by done. rewrite <- (take_drop (64 * k) data) at 1.
    apply zip_with_app. rewrite length_take, keystream_length by done. lia.
Qed.

(** The first block of the stream is the test vector of section 2.3.2 of RFC 8439. *)
Lemma chacha20_roundtrip_witness :
  chacha20_block (seqZ 0 32) [0; 0; 0; 9; 0; 0; 0; 0x4a; 0; 0; 0; 0] 1 = Some
    [0xe4e7f110; 0x15593bd1; 0x1fdd0f50; 0xc47120a3; 0xc7f4d1c7; 0x0368c033; 0x9aaa2204; 0x4e6cd4c3;
     0x466482d2; 0x09aa9f07; 0x05d7c214; 0xa2028bd9; 0xd19c12b5; 0xb94e16de; 0xe883d0cb; 0x4e3c50a2] /\
  let data := replicate 70 65 in
  exists out, chacha20_xor data 70 (seqZ 0 32) (replicate 12 7) (2 ^ 32 - 1) = Some out /\ length out = length data /\
    chacha20_xor out 70 (seqZ 0 32) (replicate 12 7) (2 ^ 32 - 1) = Some data.
Proof.
  split; [vm_compute; reflexivity|].
  destruct (chacha20_roundtrip (seqZ 0 32) (replicate 12 7) (2 ^ 32 - 1) (replicate 70 65) 1) as (out & H1 & H2 & H3 & _);
    [reflexivity..|lia|cbn; lia|]. exists out. exact (conj H1 (conj H2 H3)).
Defined.

(** ** Random reads *)

Section read.
  Context (stack : sha256_ctx) (hw : hardware) (Hstack : length (sbuf stack) = 64%nat).







Lemma le64_length v : length (le64_bytes v) = 8%nat.
Proof. done. Qed.



End read.





Definition fresh : csprng := Csprng (replicate 32 0) false (replicate 64 (replicate 128 0)) 0 0 0.
Definition zero_ctx : sha256_ctx := ShaCtx sha256_iv 0 (replicate 64 0) 0.

(** ** The interrupt path *)

(** The interrupts of one CPU, with their vectors and timestamps. *)
Fixpoint irqs (stack : sha256_ctx) (s : csprng) (cpu : Z) (l : list (Z * Z)) : option csprng :=
  match l with [] => Some s | (v, t) :: l => s ← kcsprng_mix_irq stack s (Some cpu) v t; irqs stack s cpu l end.

(** The loop XORs its bytes into the consecutive bytes from the offset on. *)
Lemma xor_at_ok off bytes b0 pre l rest : 0 <= off -> length b0 = Z.to_nat off -> length l = length bytes ->
  (length pre + length bytes <= 63)%nat ->
  xor_at (b0 ++ pre ++ l ++ rest) off bytes (Z.of_nat (length pre)) = Some (b0 ++ pre ++ zip_with Z.lxor l bytes ++ rest).
Proof.
  intros Ho Hb. revert pre l. induction bytes as [|b bytes IH]; intros pre l Hl Hp; destruct l as [|y l]; try discriminate Hl; [done|].
  cbn [xor_at length] in *. rewrite Z.mod_small by lia.
  replace (Z.to_nat (off + Z.of_nat (length pre))) with (length (b0 ++ pre) + 0)%nat by (rewrite length_app; lia).
  rewrite (app_assoc b0 pre). rewrite lookup_app_r by lia.
  replace (length (b0 ++ pre) + 0 - length (b0 ++ pre))%nat with 0%nat by lia. cbn [app lookup list_lookup mbind option_bind].
  rewrite insert_app_r. cbn [insert list_insert].
  specialize (IH (pre ++ [Z.lxor y b]) l). rewrite length_app in IH. cbn [length] in IH.
  replace (Z.of_nat (length pre) + 1) with (Z.of_nat (length pre + 1)) by lia.
  rewrite <- !app_assoc in *. cbn [app zip_with] in *. apply IH; lia.
Qed.

(** The bytes of the timestamp that fall on the counter. *)
Definition tsc_byte (t i : Z) : Z := u8 (Z.shiftr t (8 * i)).

Lemma blit_mid (a b c d : list Z) : length b = length d -> blit (a ++ b ++ c) (length a) d = Some (a ++ d ++ c).
Proof.
  intros H. unfold blit. destruct (Nat.leb_spec (length a + length d) (length (a ++ b ++ c))) as [_|Hf]; [|rewrite !length_app in Hf; lia].
  rewrite take_app_length, <- drop_drop, drop_app_length. by rewrite <- H, drop_app_length.
Qed.

Lemma fm_counter_at b0 x w0 w1 w2 w3 r : length b0 = 63%nat -> fm_counter (b0 ++ x :: w0 :: w1 :: w2 :: w3 :: r) = le32 [w0; w1; w2; w3] 0.
Proof.
  intros Hb. assert (Hl : forall i, (b0 ++ x :: w0 :: w1 :: w2 :: w3 :: r) !! (64 + i)%nat = (w0 :: w1 :: w2 :: w3 :: r) !! i).
  { intros i. rewrite lookup_app_r by lia. by replace (64 + i - length b0)%nat with (S i) by lia. }
  unfold fm_counter, le32. change ((b0 ++ x :: w0 :: w1 :: w2 :: w3 :: r) !! 64%nat) with ((b0 ++ x :: w0 :: w1 :: w2 :: w3 :: r) !! (64 + 0)%nat).
  do 4 (rewrite Hl; cbn [lookup list_lookup mbind option_bind]). reflexivity.
Qed.

Lemma le32_put w : 0 <= w < 2 ^ 32 -> le32 (put_le32 w) 0 = Some w.
Proof.
  intros Hw. unfold le32, put_le32. cbn [lookup list_lookup mbind option_bind Nat.add]. f_equal. unfold u8.
  apply Z.bits_inj'. intros n Hn. rewrite !Z.lor_spec, !Z.shiftl_spec by done. change 256 with (2 ^ 8).
  rewrite <- !Z.land_ones by lia.
  assert (Hz : 32 <= n -> Z.testbit w n = false).
  { intros. rewrite <- (Z.mod_small w (2 ^ 32)) by done. apply Z.mod_pow2_bits_high. lia. }
  assert (Hb : forall k m, Z.testbit (Z.land (Z.shiftr w k) (Z.ones 8)) m = (0 <=? m) && (m <? 8) && Z.testbit w (m + k)).
  { intros k m. rewrite Z.land_spec. destruct (Z.leb_spec 0 m); [|rewrite Z.testbit_neg_r by lia; done].
    rewrite Z.shiftr_spec by lia. destruct (Z.ltb_spec m 8); [rewrite Z.ones_spec_low by lia; by rewrite andb_true_r|].
    rewrite Z.ones_spec_high by lia. by rewrite andb_false_r. }
  pose proof (Hb 0 n) as H0. rewrite Z.shiftr_0_r in H0. rewrite H0, !Hb, Z.add_0_r, !Z.sub_add.
  destruct (Z.testbit w n) eqn:E; rewrite ?andb_false_r, ?andb_true_r; [|done].
  destruct (decide (32 <= n)) as [Hge|]; [by specialize (Hz Hge)|]. zbool; simpl; try done; lia.
Qed.

(** The second half of [kcsprng_correct]. *)
Lemma kcsprng_irq_overrun :
  (forall stack s cpu vector t b0 x pad3 rest c,
    0 <= cpu < 64 -> length b0 = 63%nat -> length pad3 = 3%nat ->
    g_fastmix s !! Z.to_nat cpu = Some (b0 ++ (x :: 7 :: 0 :: 0 :: 0 :: pad3) ++ rest) ->
    le32 [Z.lxor 7 (tsc_byte t 1); tsc_byte t 2; tsc_byte t 3; tsc_byte t 4] 0 = Some c ->
    Z.land (u32 (c + 1)) 255 <> 0 ->
    exists s' fm, kcsprng_mix_irq stack s (Some cpu) vector t = Some s' /\
      g_fastmix s' !! Z.to_nat cpu = Some fm /\ fm_counter fm = Some (u32 (c + 1)) /\ g_pool s' = g_pool s) /\
  (exists l, length l = 256%nat /\ (g_pool <$> irqs zero_ctx fresh 0 l) = Some (g_pool fresh)).
Proof.
  split.
  - intros stack s cpu vector t b0 x pad3 rest c Hcpu Hb Hp3 Hfm Hc Hflush. unfold kcsprng_mix_irq.
    destruct (Z.leb_spec 64 cpu); [lia|]. rewrite Hfm. cbn [mbind option_bind].
    assert (H7 : fm_counter (b0 ++ (x :: 7 :: 0 :: 0 :: 0 :: pad3) ++ rest) = Some 7) by (cbn [app]; by rewrite fm_counter_at).
    rewrite H7. cbn [mbind option_bind]. change (u32 (7 * 9) mod 64) with 63.
    pose proof (xor_at_ok 63 (le64_bytes t) b0 [] (x :: 7 :: 0 :: 0 :: 0 :: pad3) rest) as Hx. cbn [app length] in Hx |- *.
    change (Z.of_nat 0) with 0 in Hx. rewrite Hx by (rewrite ?Hp3, ?le64_length; done || lia). clear Hx.
    unfold le64_bytes. change (seqZ 0 8) with [0; 1; 2; 3; 4; 5; 6; 7]. cbn [fmap list_fmap zip_with app mbind option_bind].
    fold (tsc_byte t 0) (tsc_byte t 1) (tsc_byte t 2) (tsc_byte t 3) (tsc_byte t 4). rewrite !Z.lxor_0_l.
    set (r := zip_with Z.lxor pad3 _ ++ rest).
    change (Z.to_nat 63) with 63%nat. rewrite lookup_app_r, Hb by lia. cbn [Nat.sub lookup list_lookup mbind option_bind].
    replace (<[63%nat := Z.lxor (Z.lxor x (tsc_byte t 0)) vector]> (b0 ++ _)) with
      (b0 ++ Z.lxor (Z.lxor x (tsc_byte t 0)) vector :: Z.lxor 7 (tsc_byte t 1) :: tsc_byte t 2 :: tsc_byte t 3 :: tsc_byte t 4 :: r).
    2: { rewrite insert_app_r_alt, Hb by lia. done. }
    rewrite fm_counter_at, Hc by done. cbn [mbind option_bind].
    set (y := Z.lxor (Z.lxor x _) _).
    pose proof (blit_mid (b0 ++ [y]) [Z.lxor 7 (tsc_byte t 1); tsc_byte t 2; tsc_byte t 3; tsc_byte t 4] r (put_le32 (u32 (c + 1))) eq_refl) as Hbl.
    rewrite length_app, Hb, <- !app_assoc in Hbl. cbn [app length Nat.add] in Hbl. rewrite Hbl. cbn [mbind option_bind].
    assert (Hcnt : fm_counter (b0 ++ y :: put_le32 (u32 (c + 1)) ++ r) = Some (u32 (c + 1))).
    { unfold put_le32 at 1. cbn [app]. rewrite fm_counter_at by done. apply (le32_put (u32 (c + 1))). unfold u32. mlia. }
    rewrite Hcnt. cbn [mbind option_bind]. change (256 - 1) with 255. destruct (Z.eqb_spec (Z.land (u32 (c + 1)) 255) 0); [done|].
    eexists _, _. split_and!; [done| |exact Hcnt|done].
    simpl. apply list_lookup_insert_eq. by eapply lookup_lt_Some.
  - exists ((fun k => (32, 123456789 + 1000000 * k)) <$> seqZ 0 256). split; [reflexivity|]. vm_compute. reflexivity.
Qed.

(** A sink that has seen seven interrupts, and an eighth at the timestamp 0x3e800. *)
Definition seventh : csprng := with_fastmix [replicate 63 0 ++ (0 :: 7 :: 0 :: 0 :: 0 :: [0; 0; 0]) ++ replicate 57 0] fresh.

Lemma kcsprng_irq_overrun_witness :
  exists s' fm, kcsprng_mix_irq zero_ctx seventh (Some 0) 32 0x3e800 = Some s' /\
    g_fastmix s' !! 0%nat = Some fm /\ fm_counter fm = Some 0x3f0 /\ g_pool s' = g_pool seventh.
Proof.
  exact (proj1 kcsprng_irq_overrun zero_ctx seventh 0 32 0x3e800 (replicate 63 0) 0 [0; 0; 0] (replicate 57 0) 0x3ef
    ltac:(lia) eq_refl eq_refl eq_refl eq_refl ltac:(discriminate)).
Defined.


