(* ===== verification/Vma.v ===== *)
(** * Address spaces

    Models kernel/mm/mm.c and the memory calls of kernel/syscall/syscall.c
    (brk, mmap, munmap).  The list of areas is a list of records; a call holds
    the writer lock and is one step.  Memory objects behind an area are numbers,
    0 for none; [f_refs] and [s_refs] count the references taken on open files
    and on shared memory objects.  An area unlinked from the list keeps its
    references on [deferred] until its grace period is over.  The page tables
    are a map from page numbers to frames, and [released] lists the frames whose
    reference was dropped.  [mem] tells whether an allocation succeeds. *)

From S2P Require Import Prelude Errno.

Abbreviation VM_PAGE := 4096%Z (only parsing).
Abbreviation VM_MASK := 4095%Z (only parsing).
Abbreviation VMM_MMAP_BASE := 0x7ff000000000%Z (only parsing).
Abbreviation VMM_USER_STACK_TOP := 0x7fffffffe000%Z (only parsing).
Abbreviation VMM_USER_STACK_PAGES := 2048%Z (only parsing).
Abbreviation VMA_R := 1%Z (only parsing).
Abbreviation VMA_W := 2%Z (only parsing).
Abbreviation VMA_X := 4%Z (only parsing).
Abbreviation VMA_ANON := 8%Z (only parsing).
Abbreviation VMA_SHARED := 16%Z (only parsing).
Abbreviation VMA_MMIO := 32%Z (only parsing).
Abbreviation VMA_FILE := 64%Z (only parsing).
Abbreviation PROT_READ := 1%Z (only parsing).
Abbreviation PROT_WRITE := 2%Z (only parsing).
Abbreviation PROT_EXEC := 4%Z (only parsing).
Abbreviation MAP_SHARED := 1%Z (only parsing).
Abbreviation MAP_FIXED := 16%Z (only parsing).
Abbreviation MAP_ANONYMOUS := 32%Z (only parsing).

Record vma := Vma {
  v_start : Z; v_end : Z; v_flags : Z;
  v_shmem : Z; v_pgoff : Z;
  v_file : Z; v_off : Z; v_len : Z;
}.

Record mm := Mm { vmas : list vma; brk_start : Z; brk : Z; mmap_base : Z }.

Record vm_state := VmState {
  vm_mm : mm;
  deferred : list vma;
  f_refs : gmap Z Z; s_refs : gmap Z Z;
  pages : gmap Z Z; released : list Z;
}.

Definition with_vmas (l : list vma) (m : mm) : mm := Mm l (brk_start m) (brk m) (mmap_base m).
Definition with_brk (b : Z) (m : mm) : mm := Mm (vmas m) (brk_start m) b (mmap_base m).
Definition with_base (b : Z) (m : mm) : mm := Mm (vmas m) (brk_start m) (brk m) b.
Definition with_mm (m : mm) (s : vm_state) : vm_state := VmState m (deferred s) (f_refs s) (s_refs s) (pages s) (released s).
Definition set_vmas (l : list vma) (s : vm_state) : vm_state := with_mm (with_vmas l (vm_mm s)) s.

(** ** References *)

Definition count (m : gmap Z Z) (o : Z) : Z := default 0 (m !! o).
Definition bump (o d : Z) (m : gmap Z Z) : gmap Z Z := <[o := count m o + d]> m.

Definition vfs_dup_ref (f : Z) (s : vm_state) : vm_state :=
  if f =? 0 then s else VmState (vm_mm s) (deferred s) (bump f 1 (f_refs s)) (s_refs s) (pages s) (released s).
Definition vfs_close_ref (f : Z) (s : vm_state) : vm_state :=
  if f =? 0 then s else VmState (vm_mm s) (deferred s) (bump f (-1) (f_refs s)) (s_refs s) (pages s) (released s).
Definition shmem_ref (o : Z) (s : vm_state) : vm_state :=
  if o =? 0 then s else VmState (vm_mm s) (deferred s) (f_refs s) (bump o 1 (s_refs s)) (pages s) (released s).
Definition shmem_unref (o : Z) (s : vm_state) : vm_state :=
  if o =? 0 then s else VmState (vm_mm s) (deferred s) (f_refs s) (bump o (-1) (s_refs s)) (pages s) (released s).

(** What the release of an area drops. *)
Definition vma_drop (v : vma) (s : vm_state) : vm_state := vfs_close_ref (v_file v) (shmem_unref (v_shmem v) s).

(** The grace-period callback, on the oldest unlinked area. *)
Definition vma_free_rcu (s : vm_state) : vm_state :=
  match deferred s with
  | [] => s
  | v :: l => vma_drop v (VmState (vm_mm s) l (f_refs s) (s_refs s) (pages s) (released s))
  end.

Definition call_rcu_vma (v : vma) (s : vm_state) : vm_state :=
  VmState (vm_mm s) (deferred s ++ [v]) (f_refs s) (s_refs s) (pages s) (released s).

(** ** The list of areas *)

Definition mm_create : mm := Mm [] 0 0 VMM_MMAP_BASE.

Definition overlap (start end_ : Z) (v : vma) : bool := (start <? v_end v) && (v_start v <? end_).

(** The walk of the insertion, from a predecessor on. *)
Fixpoint insert_after (x : vma) (l : list vma) : list vma :=
  match l with
  | [] => [x]
  | prev :: rest =>
      match rest with
      | next :: _ => if v_start next <? v_start x then prev :: insert_after x rest else prev :: x :: rest
      | [] => [prev; x]
      end
  end.

Definition insert_sorted (x : vma) (l : list vma) : list vma :=
  match l with
  | [] => [x]
  | v :: _ => if v_start x <? v_start v then x :: l else insert_after x l
  end.

Definition mm_vma_add (mem : bool) (s : vm_state) (start end_ flags : Z) : vm_state * Z :=
  if end_ <=? start then (s, 0)
  else if negb (Z.land start VM_MASK =? 0) then (s, 0)
  else if negb (Z.land end_ VM_MASK =? 0) then (s, 0)
  else if negb mem then (s, 0)
  else if existsb (overlap start end_) (vmas (vm_mm s)) then (s, 0)
  else (set_vmas (insert_sorted (Vma start end_ flags 0 0 0 0 0) (vmas (vm_mm s))) s, 1).

Definition mm_vma_add_file (mem : bool) (s : vm_state) (start end_ prot_flags file file_off file_len : Z) : vm_state * Z :=
  if file =? 0 then (s, 0)
  else if end_ <=? start then (s, 0)
  else if negb (Z.land start VM_MASK =? 0) then (s, 0)
  else if negb (Z.land end_ VM_MASK =? 0) then (s, 0)
  else if negb mem then (s, 0)
  else
    let s := vfs_dup_ref file s in
    if existsb (overlap start end_) (vmas (vm_mm s)) then (vfs_close_ref file s, 0)
    else (set_vmas (insert_sorted (Vma start end_ (Z.lor VMA_FILE prot_flags) 0 0 file file_off file_len) (vmas (vm_mm s))) s, 1).

Definition covers (addr : Z) (v : vma) : bool := (v_start v <=? addr) && (addr <? v_end v).

Fixpoint vma_find (l : list vma) (addr : Z) : option vma :=
  match l with [] => None | v :: l => if covers addr v then Some v else vma_find l addr end.

Definition mm_vma_find (m : mm) (addr : Z) : option vma := vma_find (vmas m) addr.

Definition mm_destroy (s : vm_state) : vm_state := set_vmas [] (fold_left (fun s v => vma_drop v s) (vmas (vm_mm s)) s).

(** ** Cloning *)

Definition set_backing (v0 : vma) (v : vma) : vma :=
  Vma (v_start v) (v_end v) (v_flags v)
    (if v_shmem v0 =? 0 then v_shmem v else v_shmem v0) (if v_shmem v0 =? 0 then v_pgoff v else v_pgoff v0)
    (if v_file v0 =? 0 then v_file v else v_file v0) (if v_file v0 =? 0 then v_off v else v_off v0) (if v_file v0 =? 0 then v_len v else v_len v0).

(** Change the first area that covers the address. *)
Fixpoint update_at (l : list vma) (addr : Z) (f : vma -> vma) : list vma :=
  match l with [] => [] | v :: l => if covers addr v then f v :: l else v :: update_at l addr f end.

Fixpoint clone_all (mem : nat -> bool) (k : nat) (snap : list vma) (s : vm_state) : vm_state * bool :=
  match snap with
  | [] => (s, true)
  | v :: snap =>
      let '(s, ok) := mm_vma_add (mem k) s (v_start v) (v_end v) (v_flags v) in
      if ok =? 0 then (s, false)
      else
        let s :=
          if negb (v_shmem v =? 0) || negb (v_file v =? 0) then
            match mm_vma_find (vm_mm s) (v_start v) with
            | Some _ => vfs_dup_ref (v_file v) (shmem_ref (v_shmem v) (set_vmas (update_at (vmas (vm_mm s)) (v_start v) (set_backing v)) s))
            | None => s
            end
          else s in
        clone_all mem (S k) snap s
  end.

(** The new address space, in a state that has it in place of the source's;
    [mem 0] and [mem 1] are the allocations of the descriptor and of the
    snapshot, the rest those of the areas. *)
Definition mm_clone (mem : nat -> bool) (s : vm_state) : vm_state * option mm :=
  let src := vm_mm s in
  if negb (mem 0%nat) then (s, None)
  else
    let dst := Mm [] (brk_start src) (brk src) (mmap_base src) in
    match vmas src with
    | [] => (s, Some dst)
    | snap =>
        if negb (mem 1%nat) then (s, None)
        else
          let '(s', ok) := clone_all mem 2 snap (with_mm dst s) in
          if ok then (with_mm src s', Some (vm_mm s')) else (with_mm src (mm_destroy s'), None)
    end.

(** ** Removing a range *)

(** The right fragment of a split. *)
Definition split_right (v : vma) (end_ : Z) : vma :=
  Vma end_ (v_end v) (v_flags v) (v_shmem v) (u32 (v_pgoff v + u32 ((end_ - v_start v) / VM_PAGE)))
    (v_file v)
    (if v_file v =? 0 then 0 else u64 (v_off v + (end_ - v_start v)))
    (if v_file v =? 0 then 0 else if end_ - v_start v <? v_len v then v_len v - (end_ - v_start v) else 0).

Definition set_end (e : Z) (v : vma) : vma := Vma (v_start v) e (v_flags v) (v_shmem v) (v_pgoff v) (v_file v) (v_off v) (v_len v).
Definition set_start (b : Z) (v : vma) : vma := Vma b (v_end v) (v_flags v) (v_shmem v) (v_pgoff v) (v_file v) (v_off v) (v_len v).

(** The loop: the areas kept, and the state with the references and the
    unlinked areas. *)
Fixpoint remove_loop (mem : bool) (start end_ : Z) (l : list vma) (s : vm_state) : list vma * vm_state * bool :=
  match l with
  | [] => ([], s, false)
  | v :: l =>
      if (end_ <=? v_start v) || (v_end v <=? start) then
        let '(l', s, did) := remove_loop mem start end_ l s in (v :: l', s, did)
      else if (start <=? v_start v) && (v_end v <=? end_) then
        let '(l', s, _) := remove_loop mem start end_ l (call_rcu_vma v s) in (l', s, true)
      else if (v_start v <? start) && (end_ <? v_end v) then
        if negb mem then let '(l', s, _) := remove_loop mem start end_ l s in (v :: l', s, true)
        else
          let right := split_right v end_ in
          let s := vfs_dup_ref (v_file v) (shmem_ref (v_shmem v) s) in
          let '(l', s, _) := remove_loop mem start end_ l s in (set_end start v :: right :: l', s, true)
      else if v_start v <? start then
        let '(l', s, _) := remove_loop mem start end_ l s in (set_end start v :: l', s, true)
      else
        let '(l', s, _) := remove_loop mem start end_ l s in (set_start end_ v :: l', s, true)
  end.

Definition mm_vma_remove (mem : bool) (s : vm_state) (start end_ : Z) : vm_state * Z :=
  if end_ <=? start then (s, 0)
  else
    let '(l, s, did) := remove_loop mem start end_ (vmas (vm_mm s)) s in
    (set_vmas l s, if did then 1 else 0).

(** ** Finding room *)

Definition page_up (len : Z) : Z := Z.land (u64 (len + VM_MASK)) (2 ^ 64 - VM_PAGE).

Fixpoint first_overlap (l : list vma) (start end_ : Z) : option vma :=
  match l with [] => None | v :: l => if overlap start end_ v then Some v else first_overlap l start end_ end.

Fixpoint free_loop (fuel : nat) (l : list vma) (len lower hint : Z) : option (option Z) :=
  if u64 (lower + len) <=? hint then
    match fuel with
    | O => None
    | S fuel =>
        let candidate := Z.land (u64 (hint - len)) (2 ^ 64 - VM_PAGE) in
        match first_overlap l candidate (u64 (candidate + len)) with
        | Some v => free_loop fuel l len lower (v_start v)
        | None => Some (Some candidate)
        end
    end
  else Some None.

(** [None] when the fuel, one more than the number of areas, does not suffice. *)
Definition mm_vma_find_free (s : vm_state) (len : Z) : option (vm_state * Z) :=
  if len =? 0 then Some (s, 0)
  else
    let len := page_up len in
    let m := vm_mm s in
    a ← free_loop (S (length (vmas m))) (vmas m) len (u64 (brk m + 64 * 1024 * 1024)) (mmap_base m);
    Some (match a with Some a => (with_mm (with_base a m) s, a) | None => (s, 0) end).

Definition mm_vma_pte_flags (vma_flags : Z) : Z :=
  Z.lor (Z.lor 5 (if Z.land vma_flags VMA_W =? 0 then 0 else 2)) (if Z.land vma_flags VMA_X =? 0 then 2 ^ 63 else 0).

(** ** Pages *)

(** The index bits of an address. *)
Definition page_of (va : Z) : Z := Z.land (Z.shiftr va 12) (2 ^ 36 - 1).

Definition set_pages (t : gmap Z Z) (s : vm_state) : vm_state := VmState (vm_mm s) (deferred s) (f_refs s) (s_refs s) t (released s).
Definition release (f : Z) (s : vm_state) : vm_state := VmState (vm_mm s) (deferred s) (f_refs s) (s_refs s) (pages s) (released s ++ [f]).

Definition vmm_page_unmap (s : vm_state) (va : Z) : vm_state * option Z :=
  match pages s !! page_of va with
  | Some f => (set_pages (delete (page_of va) (pages s)) s, Some f)
  | None => (s, None)
  end.

(** The addresses [addr], [addr + 4096], ... below [end_]. *)
Definition page_steps (addr end_ : Z) : list Z := (fun i => addr + VM_PAGE * i) <$> seqZ 0 ((end_ - addr + VM_MASK) / VM_PAGE).

Definition unmap_one (s : vm_state) (p : Z) : vm_state :=
  let mmio := match mm_vma_find (vm_mm s) p with Some v => negb (Z.land (v_flags v) VMA_MMIO =? 0) | None => false end in
  match vmm_page_unmap s p with
  | (s, Some f) => if mmio then s else release f s
  | (s, None) => s
  end.

Definition mm_unmap_range_flush_free (s : vm_state) (addr end_ : Z) : vm_state := fold_left unmap_one (page_steps addr end_) s.

Definition sys_munmap (mem : bool) (s : vm_state) (addr len : Z) : vm_state * Z :=
  if (addr =? 0) || negb (Z.land addr VM_MASK =? 0) then (s, u64 (- EINVAL))
  else if len =? 0 then (s, u64 (- EINVAL))
  else
    let len := page_up len in
    let s := mm_unmap_range_flush_free s addr (u64 (addr + len)) in
    let '(s, _) := mm_vma_remove mem s addr (u64 (addr + len)) in
    (s, 0).

(** ** The heap *)

Fixpoint end_of_start (l : list vma) (start : Z) : Z :=
  match l with [] => 0 | v :: l => if v_start v =? start then v_end v else end_of_start l start end.

Definition brk_grow (mem : bool) (s : vm_state) (new_brk : Z) : vm_state * Z :=
  let heap := brk_start (vm_mm s) in
  let vma_end := page_up new_brk in
  let old_end := end_of_start (vmas (vm_mm s)) heap in
  let s := if old_end =? 0 then s else fst (mm_vma_remove mem s heap old_end) in
  let '(s, ok) := mm_vma_add mem s heap vma_end (Z.lor (Z.lor VMA_R VMA_W) VMA_ANON) in
  if ok =? 0 then (s, u64 (- ENOMEM)) else (with_mm (with_brk new_brk (vm_mm s)) s, new_brk).

Definition unmap_release (s : vm_state) (p : Z) : vm_state :=
  match vmm_page_unmap s p with (s, Some f) => release f s | (s, None) => s end.

(** The first area that starts at the heap: cut, or unlinked. *)
Fixpoint shrink_heap (l : list vma) (heap new_brk : Z) (s : vm_state) : list vma * vm_state :=
  match l with
  | [] => ([], s)
  | v :: l =>
      if v_start v =? heap then
        if new_brk <=? heap then (l, call_rcu_vma v s) else (set_end new_brk v :: l, s)
      else let '(l', s) := shrink_heap l heap new_brk s in (v :: l', s)
  end.

Definition brk_shrink (s : vm_state) (new_brk : Z) : vm_state * Z :=
  let old_brk := brk (vm_mm s) in
  let s := fold_left unmap_release (page_steps new_brk old_brk) s in
  let '(l, s) := shrink_heap (vmas (vm_mm s)) (brk_start (vm_mm s)) new_brk s in
  (with_mm (with_brk new_brk (with_vmas l (vm_mm s))) s, new_brk).

Definition sys_brk (mem : bool) (s : vm_state) (new_brk : Z) : vm_state * Z :=
  if new_brk =? 0 then (s, brk (vm_mm s))
  else if new_brk <? brk_start (vm_mm s) then (s, u64 (- EINVAL))
  else if VMM_USER_STACK_TOP - VMM_USER_STACK_PAGES * VM_PAGE <=? new_brk then (s, u64 (- ENOMEM))
  else if new_brk =? brk (vm_mm s) then (s, brk (vm_mm s))
  else if brk (vm_mm s) <? new_brk then brk_grow mem s new_brk
  else brk_shrink s new_brk.

(** ** Mapping *)

(** What the descriptor argument leads to: none (the descriptor is -1), one
    that is not open, a regular file with its rights and size, a shared memory
    object with its number of pages, or a file of another kind.  Frame-buffer
    objects of the graphics driver are not modelled. *)
Inductive map_object := NoFd | BadFd | RegularFile (f rights size : Z) | SharedMemory (o npages : Z) | OtherFile.

(** The placement: the state and the address, 0 for none. *)
Definition mmap_place (mem : bool) (s : vm_state) (addr len flags : Z) : option (vm_state * Z) :=
  if negb (Z.land flags MAP_FIXED =? 0) then
    let s := mm_unmap_range_flush_free s addr (u64 (addr + len)) in
    let '(s, _) := mm_vma_remove mem s addr (u64 (addr + len)) in
    Some (s, addr)
  else if negb (addr =? 0) then
    let addr := Z.land addr (2 ^ 64 - VM_PAGE) in
    match first_overlap (vmas (vm_mm s)) addr (u64 (addr + len)) with
    | None => Some (s, addr)
    | Some _ => mm_vma_find_free s len
    end
  else mm_vma_find_free s len.

Definition mmap_vma_flags (prot : Z) (is_shared : bool) : Z :=
  Z.lor (Z.lor (Z.lor (Z.lor VMA_ANON (if Z.land prot PROT_READ =? 0 then 0 else VMA_R))
    (if Z.land prot PROT_WRITE =? 0 then 0 else VMA_W)) (if Z.land prot PROT_EXEC =? 0 then 0 else VMA_X))
    (if is_shared then VMA_SHARED else 0).

(** Attach a shared memory object to the area that starts at the address. *)
Fixpoint attach (l : list vma) (vaddr o pgoff : Z) : list vma :=
  match l with
  | [] => []
  | v :: l =>
      if v_start v =? vaddr then Vma (v_start v) (v_end v) (v_flags v) o pgoff (v_file v) (v_off v) (v_len v) :: l
      else v :: attach l vaddr o pgoff
  end.

(** [new_shm] is the object [shmem_create] returns, holding one reference, or 0. *)
Definition sys_mmap (mem : bool) (new_shm : Z) (s : vm_state) (addr len prot flags off : Z) (obj : map_object) : option (vm_state * Z) :=
  let is_anon := negb (Z.land flags MAP_ANONYMOUS =? 0) in
  let is_shared := negb (Z.land flags MAP_SHARED =? 0) in
  let has_fd := match obj with NoFd => false | _ => true end in
  if len =? 0 then Some (s, u64 (- EINVAL))
  else if negb is_anon && negb has_fd then Some (s, u64 (- EINVAL))
  else if is_anon && has_fd then Some (s, u64 (- EINVAL))
  else if negb (Z.land off VM_MASK =? 0) then Some (s, u64 (- EINVAL))
  else
    let len := page_up len in
    let npages := u32 (len / VM_PAGE) in
    if negb (Z.land flags MAP_FIXED =? 0) && ((addr =? 0) || negb (Z.land addr VM_MASK =? 0)) then Some (s, u64 (- EINVAL))
    else
      '(s, vaddr) ← mmap_place mem s addr len flags;
      let end_ := u64 (vaddr + len) in
      let vma_flags := mmap_vma_flags prot is_shared in
      let attach_shm o pgoff s := set_vmas (attach (vmas (vm_mm s)) vaddr o pgoff) s in
      let fail_unmap s := (fst (mm_vma_remove mem s vaddr end_), u64 (- EINVAL)) in
      if vaddr =? 0 then Some (s, u64 (- ENOMEM))
      else match obj with
      | BadFd => Some (s, u64 (- EBADF))
      | OtherFile =>
          if negb is_shared then Some (s, u64 (- EACCES))
          else
            let '(s, ok) := mm_vma_add mem s vaddr end_ vma_flags in
            if ok =? 0 then Some (s, u64 (- ENOMEM)) else Some (fail_unmap s)
      | RegularFile f rights size =>
          if is_shared && negb (Z.land prot PROT_WRITE =? 0) then Some (s, u64 (- EINVAL))
          else if negb (Z.land prot PROT_READ =? 0) && negb (rights =? 0) && (Z.land rights 1 =? 0) then Some (s, u64 (- EACCES))
          else if size <? off then Some (s, u64 (- EINVAL))
          else
            let file_len := if len <? size - off then len else size - off in
            let '(s, ok) := mm_vma_add_file mem s vaddr end_ (Z.land vma_flags (2 ^ 32 - 1 - VMA_ANON)) f off file_len in
            Some (s, if ok =? 0 then u64 (- ENOMEM) else vaddr)
      | SharedMemory o opages =>
          if negb is_shared && negb (Z.land prot PROT_WRITE =? 0) then Some (s, u64 (- EACCES))
          else
            let '(s, ok) := mm_vma_add mem s vaddr end_ vma_flags in
            if ok =? 0 then Some (s, u64 (- ENOMEM))
            else
              let pg_off := u32 (off / VM_PAGE) in
              if opages <? u32 (pg_off + npages) then Some (fail_unmap s)
              else Some (attach_shm o pg_off (shmem_ref o s), vaddr)
      | NoFd =>
          let '(s, ok) := mm_vma_add mem s vaddr end_ vma_flags in
          if ok =? 0 then Some (s, u64 (- ENOMEM))
          else if negb is_shared then Some (s, vaddr)
          else if new_shm =? 0 then Some (fail_unmap s)
          else Some (attach_shm new_shm 0 (shmem_ref new_shm s), vaddr)
      end.
