(* ===== verification/VmaSpec.v ===== *)
(** * Address spaces as maps

    The meaning of a list of areas is the map from an address to what is behind
    it: the protection, the shared memory object and its page, the file and the
    offset in it.  The lemmas give the effect of every list operation on that
    map, and on the references the areas hold. *)

From Stdlib Require Import Sorting.Sorted.
From S2P Require Import Prelude Errno Vma.

(** ** Well-formed lists *)

Definition area_ok (v : vma) : Prop :=
  0 <= v_start v < v_end v /\ v_end v < 2 ^ 64 /\ v_start v mod VM_PAGE = 0 /\ v_end v mod VM_PAGE = 0.

Definition before (a b : vma) : Prop := v_end a <= v_start b.
Definition areas_ok (l : list vma) : Prop := StronglySorted before l /\ Forall area_ok l.

Lemma land_mask x : 0 <= x -> (Z.land x VM_MASK =? 0) = bool_decide (x mod VM_PAGE = 0).
Proof.
  intros H. change VM_MASK with (Z.ones 12). rewrite Z.land_ones by lia. change (2 ^ 12) with 4096.
  destruct (Z.eqb_spec (x mod 4096) 0); [by rewrite bool_decide_eq_true_2|by rewrite bool_decide_eq_false_2].
Qed.

Lemma covers_spec addr v : covers addr v = bool_decide (v_start v <= addr < v_end v).
Proof. unfold covers. case_bool_decide; zbool; done || lia. Qed.
Lemma overlap_spec b e v : overlap b e v = bool_decide (b < v_end v /\ v_start v < e).
Proof. unfold overlap. case_bool_decide; zbool; done || lia. Qed.

Lemma vma_find_app l k addr : vma_find (l ++ k) addr = match vma_find l addr with Some v => Some v | None => vma_find k addr end.
Proof. induction l as [|v l IH]; [done|]. simpl. destruct (covers addr v); [done|apply IH]. Qed.

Lemma vma_find_none l addr : vma_find l addr = None <-> Forall (fun v => covers addr v = false) l.
Proof.
  induction l as [|v l IH]; simpl; [split; [constructor|done]|]. rewrite Forall_cons, <- IH.
  destruct (covers addr v); split; try done; by intros [].
Qed.

Lemma vma_find_elem l addr v : vma_find l addr = Some v -> v ∈ l /\ v_start v <= addr < v_end v.
Proof.
  induction l as [|w l IH]; simpl; [done|]. rewrite covers_spec. case_bool_decide as Hc.
  - intros [= <-]. split; [left|done].
  - intros H. destruct (IH H). split; [by right|done].
Qed.

(** In a sorted list the area that covers an address is unique. *)
Lemma vma_find_sorted l addr v : areas_ok l -> v ∈ l -> v_start v <= addr < v_end v -> vma_find l addr = Some v.
Proof.
  intros [Hs Ha] Hv Hc. induction Hs as [|w l Hs IH Hw]; [by apply not_elem_of_nil in Hv|].
  apply Forall_cons in Ha as [Haw Ha]. simpl. rewrite covers_spec. apply elem_of_cons in Hv as [->|Hv]; [by rewrite bool_decide_eq_true_2|].
  rewrite bool_decide_eq_false_2; [by apply IH|]. rewrite Forall_forall in Hw. pose proof (Hw _ Hv) as H1. unfold before in H1.
  rewrite Forall_forall in Ha. destruct (Ha _ Hv) as [? _]. lia.
Qed.

Lemma sorted_app_inv l1 l2 : StronglySorted before (l1 ++ l2) ->
  StronglySorted before l1 /\ StronglySorted before l2 /\ forall a b, a ∈ l1 -> b ∈ l2 -> before a b.
Proof.
  induction l1 as [|v l1 IH]; simpl; [intros H; split_and!; [constructor|done|]; intros a b Ha; by apply not_elem_of_nil in Ha|].
  intros H. apply StronglySorted_inv in H as [H Hv]. destruct (IH H) as (H1 & H2 & H3). rewrite Forall_app in Hv. destruct Hv as [Hv1 Hv2].
  split_and!; [by constructor|done|]. intros a b Ha Hb. apply elem_of_cons in Ha as [->|Ha]; [|by apply H3].
  rewrite Forall_forall in Hv2. by apply Hv2.
Qed.

Lemma sorted_app l1 l2 : StronglySorted before l1 -> StronglySorted before l2 ->
  (forall a b, a ∈ l1 -> b ∈ l2 -> before a b) -> StronglySorted before (l1 ++ l2).
Proof.
  induction l1 as [|v l1 IH]; simpl; intros H1 H2 H3; [done|]. apply StronglySorted_inv in H1 as [H1 Hv]. constructor.
  - apply IH; [done..|]. intros a b Ha Hb. apply H3; [by right|done].
  - apply Forall_app. split; [done|]. apply Forall_forall. intros b Hb. apply H3; [left|done].
Qed.

(** ** Insertion *)

Lemma insert_after_cons x prev next l :
  insert_after x (prev :: next :: l) = if v_start next <? v_start x then prev :: insert_after x (next :: l) else prev :: x :: next :: l.
Proof. reflexivity. Qed.

Lemma insert_after_split x prev l : StronglySorted before (prev :: l) -> v_start prev <= v_start x ->
  exists l1 l2, prev :: l = l1 ++ l2 /\ insert_after x (prev :: l) = l1 ++ x :: l2 /\
    Forall (fun a => v_start a <= v_start x) l1 /\ match l2 with [] => True | b :: _ => v_start x <= v_start b end.
Proof.
  revert prev. induction l as [|next l IH]; intros prev Hs Hp.
  - exists [prev], []. split_and!; try done. by constructor.
  - rewrite insert_after_cons. destruct (Z.ltb_spec (v_start next) (v_start x)) as [Hlt|Hge].
    + apply StronglySorted_inv in Hs as [Hs _]. destruct (IH next Hs) as (l1 & l2 & E & Ei & Hl1 & Hl2); [lia|].
      exists (prev :: l1), l2. rewrite Ei, E. split_and!; try done. by constructor.
    + exists [prev], (next :: l). split_and!; try done. by constructor.
Qed.

Lemma insert_sorted_split x l : areas_ok l -> area_ok x -> existsb (overlap (v_start x) (v_end x)) l = false ->
  exists l1 l2, l = l1 ++ l2 /\ insert_sorted x l = l1 ++ x :: l2 /\
    (forall a, a ∈ l1 -> before a x) /\ (forall b, b ∈ l2 -> before x b).
Proof.
  intros [Hs Ha] Hx Ho. assert (Hno : forall v, v ∈ l -> v_end v <= v_start x \/ v_end x <= v_start v).
  { intros v Hv. destruct (decide (v_end v <= v_start x \/ v_end x <= v_start v)) as [|Hn]; [done|].
    rewrite <- not_true_iff_false in Ho. destruct Ho. apply existsb_exists. exists v. split; [by apply list_elem_of_In|].
    rewrite overlap_spec. apply bool_decide_eq_true_2. lia. }
  destruct Hx as (Hx1 & _). rewrite Forall_forall in Ha.
  assert (Hsplit : exists l1 l2, l = l1 ++ l2 /\ insert_sorted x l = l1 ++ x :: l2 /\
    Forall (fun a => v_start a <= v_start x) l1 /\ match l2 with [] => True | b :: _ => v_start x <= v_start b end).
  { destruct l as [|v l]; [by exists [], []|]. unfold insert_sorted. destruct (Z.ltb_spec (v_start x) (v_start v)) as [Hlt|Hge].
    - exists [], (v :: l). split_and!; try done. lia.
    - by apply insert_after_split. }
  destruct Hsplit as (l1 & l2 & -> & Ei & Hl1 & Hl2). exists l1, l2. split_and!; [done|done|..].
  - intros a Hm. rewrite Forall_forall in Hl1. pose proof (Hl1 a Hm). assert (Hin : a ∈ l1 ++ l2) by (apply elem_of_app; by left).
    destruct (Hno a Hin), (Ha a Hin) as [? _]; unfold before; lia.
  - intros b Hm. assert (Hin : b ∈ l1 ++ l2) by (apply elem_of_app; by right). destruct (Hno b Hin) as [Hb|Hb]; [|done].
    apply sorted_app_inv in Hs as (_ & Hs2 & _). destruct l2 as [|c l2]; [by apply not_elem_of_nil in Hm|].
    assert (Hcb : v_start c <= v_start b).
    { apply StronglySorted_inv in Hs2 as [_ Hc]. apply elem_of_cons in Hm as [->|Hm]; [lia|]. rewrite Forall_forall in Hc.
      pose proof (Hc _ Hm) as H1. unfold before in H1. assert (Hcin : c ∈ l1 ++ c :: l2) by (apply elem_of_app; right; left). destruct (Ha c Hcin) as [? _]. lia. }
    destruct (Ha b Hin) as [? _]. lia.
Qed.

Lemma insert_sorted_ok x l : areas_ok l -> area_ok x -> existsb (overlap (v_start x) (v_end x)) l = false ->
  areas_ok (insert_sorted x l) /\ insert_sorted x l ≡ₚ x :: l /\
  forall addr, vma_find (insert_sorted x l) addr = if covers addr x then Some x else vma_find l addr.
Proof.
  intros Hl Hx Ho. destruct (insert_sorted_split x l Hl Hx Ho) as (l1 & l2 & -> & -> & H1 & H2).
  destruct Hl as [Hs Ha]. apply sorted_app_inv in Hs as (Hs1 & Hs2 & Hs3). rewrite Forall_app in Ha. destruct Ha as [Ha1 Ha2].
  assert (Hok : areas_ok (l1 ++ x :: l2)).
  { split; [|apply Forall_app; split; [done|by constructor]]. apply sorted_app; [done| |].
    - constructor; [done|]. by apply Forall_forall.
    - intros a b Hma Hmb. apply elem_of_cons in Hmb as [->|Hmb]; [by apply H1|by apply Hs3]. }
  split_and!; [done|by rewrite Permutation_middle|]. intros addr. rewrite covers_spec. case_bool_decide as Hc.
  - apply vma_find_sorted; [done| |done]. apply elem_of_app. right. left.
  - rewrite !vma_find_app. destruct (vma_find l1 addr); [done|]. simpl. rewrite covers_spec. by rewrite bool_decide_eq_false_2.
Qed.

Lemma insert_sorted_perm x l : insert_sorted x l ≡ₚ x :: l.
Proof.
  assert (Ha : forall p k, insert_after x (p :: k) ≡ₚ x :: p :: k).
  { intros p k. revert p. induction k as [|n k IH]; intros p; [apply perm_swap|]. rewrite insert_after_cons.
    destruct (v_start n <? v_start x); [rewrite IH|]; apply perm_swap. }
  destruct l as [|v l]; [done|]. unfold insert_sorted. destruct (v_start x <? v_start v); [done|apply Ha].
Qed.

(** ** What is behind an address *)

(** Protection, shared object and page in it, file and offset in it, and
    whether the offset is within the part of the area the file backs. *)
Definition backing (v : vma) (addr : Z) : Z * (Z * Z) * (Z * Z * bool) :=
  (v_flags v,
   (v_shmem v, if v_shmem v =? 0 then 0 else u32 (v_pgoff v + (addr - v_start v) / VM_PAGE)),
   (v_file v, if v_file v =? 0 then 0 else u64 (v_off v + (addr - v_start v)),
    if v_file v =? 0 then false else addr - v_start v <? v_len v)).

Definition view (l : list vma) (addr : Z) : option (Z * (Z * Z) * (Z * Z * bool)) :=
  (fun v => backing v addr) <$> vma_find l addr.

(** ** Removal *)

(** What the removal of a range makes of one area. *)
Definition pieces (mem : bool) (start end_ : Z) (v : vma) : list vma :=
  if (end_ <=? v_start v) || (v_end v <=? start) then [v]
  else if (start <=? v_start v) && (v_end v <=? end_) then []
  else if (v_start v <? start) && (end_ <? v_end v) then (if mem then [set_end start v; split_right v end_] else [v])
  else if v_start v <? start then [set_end start v] else [set_start end_ v].

Lemma remove_loop_list mem start end_ l s : fst (fst (remove_loop mem start end_ l s)) = concat (pieces mem start end_ <$> l).
Proof.
  revert s. induction l as [|v l IH]; intros s; [done|]. rewrite fmap_cons. cbn [remove_loop concat]. unfold pieces at 1.
  destruct ((end_ <=? v_start v) || (v_end v <=? start)).
  { specialize (IH s). destruct (remove_loop mem start end_ l s) as [[l' s'] d]. simpl in *. by rewrite IH. }
  destruct ((start <=? v_start v) && (v_end v <=? end_)).
  { specialize (IH (call_rcu_vma v s)). destruct (remove_loop mem start end_ l _) as [[l' s'] d]. done. }
  destruct ((v_start v <? start) && (end_ <? v_end v)).
  { destruct mem; simpl.
    - specialize (IH (vfs_dup_ref (v_file v) (shmem_ref (v_shmem v) s))). destruct (remove_loop true start end_ l _) as [[l' s'] d]. simpl in *. by rewrite IH.
    - specialize (IH s). destruct (remove_loop false start end_ l s) as [[l' s'] d]. simpl in *. by rewrite IH. }
  specialize (IH s). destruct (remove_loop mem start end_ l s) as [[l' s'] d]. simpl in *. destruct (v_start v <? start); simpl; by rewrite IH.
Qed.

(** The piece of an area that covers an address outside the range. *)
Definition piece (start end_ : Z) (v : vma) (addr : Z) : vma :=
  if (end_ <=? v_start v) || (v_end v <=? start) then v
  else if addr <? start then set_end start v
  else if v_start v <? start then split_right v end_ else set_start end_ v.

Lemma pieces_find start end_ v addr rest : start < end_ ->
  vma_find (pieces true start end_ v ++ rest) addr =
    if covers addr v && negb ((start <=? addr) && (addr <? end_)) then Some (piece start end_ v addr) else vma_find rest addr.
Proof.
  intros Hse. unfold pieces, piece, covers.
  destruct (Z.leb_spec end_ (v_start v)), (Z.leb_spec (v_end v) start); simpl; unfold covers;
    [zbool; simpl; done || lia..|].
  destruct (Z.leb_spec start (v_start v)), (Z.leb_spec (v_end v) end_), (Z.ltb_spec (v_start v) start), (Z.ltb_spec end_ (v_end v)); simpl; try lia;
    unfold covers, set_end, set_start, split_right; simpl; zbool; simpl; try done; lia.
Qed.

Lemma remove_find start end_ l addr : start < end_ ->
  vma_find (concat (pieces true start end_ <$> l)) addr =
    if (start <=? addr) && (addr <? end_) then None else (fun v => piece start end_ v addr) <$> vma_find l addr.
Proof.
  intros Hse. induction l as [|v l IH]; [simpl; by destruct (_ && _)|]. rewrite fmap_cons. cbn [concat]. rewrite pieces_find by done.
  rewrite IH. cbn [vma_find]. destruct (covers addr v), ((start <=? addr) && (addr <? end_)); done.
Qed.

Lemma page_split a b c : a mod VM_PAGE = 0 -> b mod VM_PAGE = 0 -> (b - a) / VM_PAGE + (c - b) / VM_PAGE = (c - a) / VM_PAGE.
Proof. intros Ha Hb. mlia. Qed.

Lemma u32_nested p d r : u32 (u32 (p + u32 d) + r) = u32 (p + (d + r)).
Proof. unfold u32. rewrite Z.add_mod_idemp_l, Z.add_shuffle0, Z.add_mod_idemp_r by lia. f_equal. lia. Qed.

Lemma u64_add_nested p r : u64 (u64 p + r) = u64 (p + r).
Proof. unfold u64. by rewrite Z.add_mod_idemp_l by lia. Qed.

(** A piece has the same thing behind the address, unless the area was cut at
    its left edge. *)
Lemma piece_backing start end_ v addr : area_ok v -> end_ mod VM_PAGE = 0 ->
  v_start v <= addr < v_end v -> ~ (start <= addr < end_) ->
  (v_file v = 0 /\ v_shmem v = 0) \/ ~ (start <= v_start v < end_) ->
  backing (piece start end_ v addr) addr = backing v addr.
Proof.
  intros (Hv & _ & Hal & _) He Hc Hout Hleft. unfold piece.
  destruct (Z.leb_spec end_ (v_start v)), (Z.leb_spec (v_end v) start); try done. simpl.
  destruct (Z.ltb_spec addr start); [done|]. destruct (Z.ltb_spec (v_start v) start).
  - unfold backing, split_right; simpl. destruct (Z.eqb_spec (v_shmem v) 0), (Z.eqb_spec (v_file v) 0); simpl;
      rewrite ?u32_nested, ?u64_add_nested, ?(page_split _ _ _ Hal He);
      replace (v_off v + (end_ - v_start v) + (addr - end_)) with (v_off v + (addr - v_start v)) by lia; try done; do 2 f_equal; zbool; done || lia.
  - destruct Hleft as [[Hf Hsh]|Hn]; [|lia]. unfold backing, set_start; simpl. by rewrite Hf, Hsh.
Qed.

Lemma pieces_sub mem start end_ v w : start < end_ -> area_ok v -> start mod VM_PAGE = 0 -> end_ mod VM_PAGE = 0 -> w ∈ pieces mem start end_ v ->
  area_ok w /\ v_start v <= v_start w /\ v_end w <= v_end v.
Proof.
  intros Hse Hv Hs He Hw. pose proof Hv as (? & ? & ? & ?). unfold pieces in Hw.
  destruct (Z.leb_spec end_ (v_start v)), (Z.leb_spec (v_end v) start); simpl in Hw;
    [apply list_elem_of_singleton in Hw; subst w; split; [done|lia]..|].
  destruct (Z.leb_spec start (v_start v)), (Z.leb_spec (v_end v) end_), (Z.ltb_spec (v_start v) start), (Z.ltb_spec end_ (v_end v)); simpl in Hw; try lia; try destruct mem;
    rewrite ?elem_of_cons in Hw; destruct_or? Hw; try (by apply not_elem_of_nil in Hw); subst w; unfold area_ok; simpl; split_and!; done || lia.
Qed.

Lemma pieces_sorted mem start end_ v : start < end_ -> StronglySorted before (pieces mem start end_ v).
Proof.
  intros Hse. unfold pieces. repeat case_match; repeat constructor. unfold before; simpl. lia.
Qed.

Lemma remove_ok mem start end_ l : start < end_ -> start mod VM_PAGE = 0 -> end_ mod VM_PAGE = 0 ->
  areas_ok l -> areas_ok (concat (pieces mem start end_ <$> l)).
Proof.
  intros Hse Hs He [Hl Ha]. induction Hl as [|v l Hl IH Hv]; [split; constructor|]. rewrite fmap_cons. cbn [concat].
  apply Forall_cons in Ha as [Hav Ha]. destruct (IH Ha) as [IH1 IH2].
  split; [|apply Forall_app; split; [|done]; apply Forall_forall; intros w Hw; by eapply pieces_sub].
  apply sorted_app; [by apply pieces_sorted|done|]. intros a b Hma Hmb.
  destruct (pieces_sub mem start end_ v a Hse Hav Hs He Hma) as (_ & _ & Hae).
  apply list_elem_of_In, in_concat in Hmb as (p & Hp & Hb). apply list_elem_of_In, list_elem_of_fmap in Hp as (w & -> & Hw).
  apply list_elem_of_In in Hb. rewrite Forall_forall in Ha, Hv.
  destruct (pieces_sub mem start end_ w b Hse (Ha _ Hw) Hs He Hb) as (_ & Hws & _). pose proof (Hv _ Hw) as Hvw. unfold before in *. lia.
Qed.

(** ** References *)

Definition uses (f : vma -> Z) (o : Z) (l : list vma) : Z := Z.of_nat (length (filter (fun v => f v = o) l)).

(** Each open file and shared object has the references counted in [bf] and
    [bs], and one for every area that has it, listed or on the way out. *)
Definition refs_ok (bf bs : Z -> Z) (s : vm_state) : Prop := forall o, o <> 0 ->
  count (f_refs s) o = bf o + uses v_file o (vmas (vm_mm s)) + uses v_file o (deferred s) /\
  count (s_refs s) o = bs o + uses v_shmem o (vmas (vm_mm s)) + uses v_shmem o (deferred s).

Lemma uses_app f o l k : uses f o (l ++ k) = uses f o l + uses f o k.
Proof. unfold uses. rewrite filter_app, length_app. lia. Qed.
Lemma uses_cons f o v l : uses f o (v :: l) = (if decide (f v = o) then 1 else 0) + uses f o l.
Proof. unfold uses. rewrite filter_cons. case_decide; simpl; lia. Qed.
Lemma uses_perm f o l k : l ≡ₚ k -> uses f o l = uses f o k.
Proof. intros H. unfold uses. by rewrite H. Qed.
Lemma uses_nil f o : uses f o [] = 0.
Proof. done. Qed.

Lemma count_bump o o' d m : count (bump o d m) o' = count m o' + if decide (o = o') then d else 0.
Proof.
  unfold bump, count at 1. case_decide as H; [subst; by rewrite lookup_insert_eq|]. rewrite lookup_insert_ne by done. unfold count. lia.
Qed.

Lemma dup_count f s o : o <> 0 -> count (f_refs (vfs_dup_ref f s)) o = count (f_refs s) o + if decide (f = o) then 1 else 0.
Proof. intros Ho. unfold vfs_dup_ref. destruct (Z.eqb_spec f 0); [|apply count_bump]. case_decide; subst; done || lia. Qed.
Lemma close_count f s o : o <> 0 -> count (f_refs (vfs_close_ref f s)) o = count (f_refs s) o - if decide (f = o) then 1 else 0.
Proof. intros Ho. unfold vfs_close_ref. destruct (Z.eqb_spec f 0); [case_decide; subst; done || lia|]. simpl. rewrite count_bump. case_decide; lia. Qed.
Lemma ref_count f s o : o <> 0 -> count (s_refs (shmem_ref f s)) o = count (s_refs s) o + if decide (f = o) then 1 else 0.
Proof. intros Ho. unfold shmem_ref. destruct (Z.eqb_spec f 0); [|apply count_bump]. case_decide; subst; done || lia. Qed.
Lemma unref_count f s o : o <> 0 -> count (s_refs (shmem_unref f s)) o = count (s_refs s) o - if decide (f = o) then 1 else 0.
Proof. intros Ho. unfold shmem_unref. destruct (Z.eqb_spec f 0); [case_decide; subst; done || lia|]. simpl. rewrite count_bump. case_decide; lia. Qed.

(** The reference primitives leave everything else as it is. *)
Lemma dup_rest f s : s_refs (vfs_dup_ref f s) = s_refs s /\ vm_mm (vfs_dup_ref f s) = vm_mm s /\ deferred (vfs_dup_ref f s) = deferred s.
Proof. unfold vfs_dup_ref. by destruct (f =? 0). Qed.
Lemma close_rest f s : s_refs (vfs_close_ref f s) = s_refs s /\ vm_mm (vfs_close_ref f s) = vm_mm s /\ deferred (vfs_close_ref f s) = deferred s.
Proof. unfold vfs_close_ref. by destruct (f =? 0). Qed.
Lemma ref_rest f s : f_refs (shmem_ref f s) = f_refs s /\ vm_mm (shmem_ref f s) = vm_mm s /\ deferred (shmem_ref f s) = deferred s.
Proof. unfold shmem_ref. by destruct (f =? 0). Qed.
Lemma unref_rest f s : f_refs (shmem_unref f s) = f_refs s /\ vm_mm (shmem_unref f s) = vm_mm s /\ deferred (shmem_unref f s) = deferred s.
Proof. unfold shmem_unref. by destruct (f =? 0). Qed.

(** What an object's references exceed the areas that have it by. *)
Definition f_slack (o : Z) (l : list vma) (s : vm_state) : Z := count (f_refs s) o - uses v_file o l - uses v_file o (deferred s).
Definition s_slack (o : Z) (l : list vma) (s : vm_state) : Z := count (s_refs s) o - uses v_shmem o l - uses v_shmem o (deferred s).

Lemma remove_loop_refs mem start end_ l s o : o <> 0 ->
  let '(l', s', _) := remove_loop mem start end_ l s in
  f_slack o l' s' = f_slack o l s /\ s_slack o l' s' = s_slack o l s /\ vm_mm s' = vm_mm s.
Proof.
  intros Ho. revert s. induction l as [|v l IH]; intros s; [done|]. cbn [remove_loop].
  destruct ((end_ <=? v_start v) || (v_end v <=? start)).
  { specialize (IH s). destruct (remove_loop mem start end_ l s) as [[l' s'] d]. unfold f_slack, s_slack in *. rewrite !uses_cons. split_and!; try apply IH; lia. }
  destruct ((start <=? v_start v) && (v_end v <=? end_)).
  { specialize (IH (call_rcu_vma v s)). destruct (remove_loop mem start end_ l (call_rcu_vma v s)) as [[l' s'] d].
    unfold f_slack, s_slack in *. cbn [call_rcu_vma deferred f_refs s_refs vm_mm] in IH. rewrite !uses_app, !uses_cons, !uses_nil in IH. rewrite !uses_cons.
    split_and!; try apply IH; lia. }
  destruct ((v_start v <? start) && (end_ <? v_end v)); [destruct mem; cbn [negb]|].
  - set (s1 := vfs_dup_ref _ _). specialize (IH s1).
    destruct (remove_loop true start end_ l s1) as [[l' s'] d]. destruct IH as (IH1 & IH2 & IH3).
    assert (H1 : f_slack o l s1 = f_slack o l s + if decide (v_file v = o) then 1 else 0).
    { unfold f_slack, s1. rewrite dup_count by done. destruct (dup_rest (v_file v) (shmem_ref (v_shmem v) s)) as (_ & _ & ->).
      destruct (ref_rest (v_shmem v) s) as (-> & _ & ->). lia. }
    assert (H2 : s_slack o l s1 = s_slack o l s + if decide (v_shmem v = o) then 1 else 0).
    { unfold s_slack, s1. destruct (dup_rest (v_file v) (shmem_ref (v_shmem v) s)) as (-> & _ & ->). rewrite ref_count by done.
      destruct (ref_rest (v_shmem v) s) as (_ & _ & ->). lia. }
    assert (H3 : vm_mm s1 = vm_mm s).
    { unfold s1. destruct (dup_rest (v_file v) (shmem_ref (v_shmem v) s)) as (_ & -> & _). apply (ref_rest (v_shmem v) s). }
    unfold f_slack, s_slack in *. rewrite !uses_cons. cbn [set_end split_right v_file v_shmem]. split_and!; [lia..|congruence].
  - specialize (IH s). destruct (remove_loop false start end_ l s) as [[l' s'] d]. unfold f_slack, s_slack in *. rewrite !uses_cons. split_and!; try apply IH; lia.
  - specialize (IH s). destruct (remove_loop mem start end_ l s) as [[l' s'] d]. destruct IH as (IH1 & IH2 & IH3).
    unfold f_slack, s_slack in *. destruct (v_start v <? start); rewrite !uses_cons; cbn [set_end set_start v_file v_shmem]; split_and!; done || lia.
Qed.

Lemma refs_slack bf bs s : refs_ok bf bs s <-> forall o, o <> 0 -> f_slack o (vmas (vm_mm s)) s = bf o /\ s_slack o (vmas (vm_mm s)) s = bs o.
Proof. unfold refs_ok, f_slack, s_slack. split; intros H o Ho; destruct (H o Ho); split; lia. Qed.

Lemma remove_refs mem s start end_ bf bs : refs_ok bf bs s -> refs_ok bf bs (fst (mm_vma_remove mem s start end_)).
Proof.
  rewrite !refs_slack. intros H o Ho. unfold mm_vma_remove. destruct (end_ <=? start); [by apply H|].
  pose proof (remove_loop_refs mem start end_ (vmas (vm_mm s)) s o Ho) as Hr. destruct (remove_loop mem start end_ (vmas (vm_mm s)) s) as [[l s'] d].
  destruct Hr as (H1 & H2 & _). destruct (H o Ho). simpl. unfold f_slack, s_slack in *. simpl. lia.
Qed.

Lemma drop_refs bf bs v l s : deferred s = v :: l -> refs_ok bf bs s -> refs_ok bf bs (vma_free_rcu s).
Proof.
  intros E H. unfold vma_free_rcu. rewrite E. intros o Ho. destruct (H o Ho) as [H1 H2]. rewrite E, !uses_cons in *.
  unfold vma_drop. set (s0 := VmState _ l _ _ _ _).
  destruct (close_rest (v_file v) (shmem_unref (v_shmem v) s0)) as (-> & -> & ->).
  rewrite close_count, unref_count by done. destruct (unref_rest (v_shmem v) s0) as (-> & -> & ->). simpl. split; lia.
Qed.

Lemma free_rcu_refs bf bs s : refs_ok bf bs s -> refs_ok bf bs (vma_free_rcu s).
Proof. intros H. destruct (deferred s) as [|v l] eqn:E; [unfold vma_free_rcu; by rewrite E|by eapply drop_refs]. Qed.

Lemma insert_refs bf bs x s : v_file x = 0 -> v_shmem x = 0 -> refs_ok bf bs s -> refs_ok bf bs (set_vmas (insert_sorted x (vmas (vm_mm s))) s).
Proof.
  intros Hf Hs H o Ho. destruct (H o Ho). simpl. rewrite !(uses_perm _ _ _ _ (insert_sorted_perm _ _)), !uses_cons.
  rewrite !decide_False by congruence. lia.
Qed.

Lemma add_refs mem s start end_ flags bf bs : refs_ok bf bs s -> refs_ok bf bs (fst (mm_vma_add mem s start end_ flags)).
Proof. intros H. unfold mm_vma_add. repeat case_match; try done. by apply insert_refs. Qed.

Lemma add_file_refs mem s start end_ flags f off len bf bs : refs_ok bf bs s -> refs_ok bf bs (fst (mm_vma_add_file mem s start end_ flags f off len)).
Proof.
  intros H. unfold mm_vma_add_file. destruct (f =? 0); [done|]. destruct (end_ <=? start); [done|].
  destruct (negb (Z.land start 4095 =? 0)); [done|]. destruct (negb (Z.land end_ 4095 =? 0)); [done|]. destruct mem; [|done]. cbn [negb].
  destruct (dup_rest f s) as (E1 & E2 & E3). destruct (existsb _ _); cbn [fst]; intros o Ho; destruct (H o Ho) as [H1 H2].
  - destruct (close_rest f (vfs_dup_ref f s)) as (-> & -> & ->). rewrite close_count, dup_count, E1, E2, E3 by done. lia.
  - cbn [set_vmas with_mm vm_mm with_vmas vmas f_refs s_refs deferred]. rewrite dup_count, E1, E2, E3 by done.
    rewrite !(uses_perm _ _ _ _ (insert_sorted_perm _ _)), !uses_cons. cbn [v_file v_shmem]. rewrite (decide_False (P := 0 = o)) by congruence. lia.
Qed.

(** ** Room *)

Lemma land_pages x : 0 <= x < 2 ^ 64 -> Z.land x (2 ^ 64 - VM_PAGE) = x - x mod VM_PAGE.
Proof. intros Hx. rewrite land_page_mask by done. mlia. Qed.

Lemma page_up_ok len : 0 < len <= 2 ^ 64 - VM_PAGE -> len <= page_up len < len + VM_PAGE /\ page_up len mod VM_PAGE = 0.
Proof.
  intros H. unfold page_up, u64. rewrite Z.mod_small by lia. rewrite land_pages by lia. mlia.
Qed.

Lemma first_overlap_some l b e v : first_overlap l b e = Some v -> v ∈ l /\ b < v_end v /\ v_start v < e.
Proof.
  induction l as [|w l IH]; simpl; [done|]. rewrite overlap_spec. case_bool_decide as Ho.
  - intros [= <-]. split; [left|done].
  - intros H. destruct (IH H). split; [by right|done].
Qed.

Lemma first_overlap_none l b e : first_overlap l b e = None <-> existsb (overlap b e) l = false.
Proof. induction l as [|w l IH]; simpl; [done|]. destruct (overlap b e w); done. Qed.

Definition starts_below (h : Z) (l : list vma) : nat := length (filter (fun v => v_start v < h) l).

Lemma starts_below_mono l h k : h <= k -> (starts_below h l <= starts_below k l)%nat.
Proof. intros Hle. unfold starts_below. induction l as [|w l IH]; [done|]. rewrite !filter_cons. repeat case_decide; simpl; lia. Qed.

Lemma starts_below_lt l v h : v ∈ l -> v_start v < h -> (starts_below (v_start v) l < starts_below h l)%nat.
Proof.
  intros Hv Hlt. apply list_elem_of_split in Hv as (l1 & l2 & ->).
  pose proof (starts_below_mono l1 (v_start v) h). pose proof (starts_below_mono l2 (v_start v) h). unfold starts_below in *.
  rewrite !filter_app, !filter_cons, decide_False, decide_True, !length_app by lia. simpl. lia.
Qed.

Lemma free_loop_ok fuel l len lower hint :
  areas_ok l -> 0 < len -> len mod VM_PAGE = 0 -> 0 <= lower -> lower + len < 2 ^ 64 ->
  0 <= hint < 2 ^ 64 -> hint mod VM_PAGE = 0 -> (starts_below hint l < fuel)%nat ->
  exists r, free_loop fuel l len lower hint = Some r /\
    match r with
    | Some a => lower <= a /\ a + len <= hint /\ a mod VM_PAGE = 0 /\ existsb (overlap a (a + len)) l = false
    | None => forall a, lower <= a -> a + len <= hint -> existsb (overlap a (a + len)) l = true
    end.
Proof.
  intros Hl Hlen Hla Hlo Hsum. revert hint. induction fuel as [|fuel IH]; intros hint Hh Hha Hf; [lia|].
  cbn [free_loop]. replace (u64 (lower + len)) with (lower + len) by (unfold u64; rewrite Z.mod_small; lia).
  destruct (Z.leb_spec (lower + len) hint) as [Hin|Hout]; [|exists None; split; [done|]; intros a; lia].
  assert (Hc : Z.land (u64 (hint - len)) (2 ^ 64 - 4096) = hint - len).
  { unfold u64. rewrite Z.mod_small, land_pages by lia. mlia. }
  rewrite Hc. replace (u64 (hint - len + len)) with hint by (unfold u64; rewrite Z.mod_small; lia).
  destruct (first_overlap l (hint - len) hint) as [v|] eqn:E.
  - apply first_overlap_some in E as (Hv & Hov1 & Hov2). pose proof (proj2 Hl) as Ha. rewrite Forall_forall in Ha. destruct (Ha v Hv) as (Hva & Hvb & Hvc & _).
    pose proof (starts_below_lt l v hint Hv Hov2). destruct (IH (v_start v)) as (r & -> & Hr); [lia|done|lia|].
    exists r. split; [done|]. destruct r as [a|]; [split_and!; try apply Hr; lia|].
    intros a Hal Hah. destruct (decide (a + len <= v_start v)); [by apply Hr|].
    apply existsb_exists. exists v. split; [by apply list_elem_of_In|]. rewrite overlap_spec. apply bool_decide_eq_true_2. lia.
  - apply first_overlap_none in E. exists (Some (hint - len)). split; [done|].
    replace (hint - len + len) with hint by lia. split_and!; try done; [lia..|]. rewrite Zminus_mod, Hha, Hla. done.
Qed.

Lemma starts_below_length h l : (starts_below h l <= length l)%nat.
Proof. unfold starts_below. apply length_filter. Qed.

(** ** Cloning *)

(** The copy of an area: fields without an object behind them are zeroed. *)
Definition norm (v : vma) : vma :=
  Vma (v_start v) (v_end v) (v_flags v) (v_shmem v) (if v_shmem v =? 0 then 0 else v_pgoff v)
    (v_file v) (if v_file v =? 0 then 0 else v_off v) (if v_file v =? 0 then 0 else v_len v).

Lemma norm_backing v addr : backing (norm v) addr = backing v addr.
Proof. unfold backing, norm; simpl. by destruct (v_shmem v =? 0), (v_file v =? 0). Qed.

Lemma norm_find l addr : vma_find (norm <$> l) addr = norm <$> vma_find l addr.
Proof. induction l as [|v l IH]; [done|]. simpl. unfold covers. simpl. destruct (_ && _); [done|apply IH]. Qed.

Lemma norm_view l addr : view (norm <$> l) addr = view l addr.
Proof. unfold view. rewrite norm_find. destruct (vma_find l addr); [|done]. simpl. by rewrite norm_backing. Qed.

Lemma norm_sorted l : StronglySorted before l -> StronglySorted before (norm <$> l).
Proof. induction 1 as [|v l _ IH Hv]; simpl; constructor; [done|]. rewrite Forall_fmap. done. Qed.

Lemma norm_ok l : areas_ok l -> areas_ok (norm <$> l).
Proof. intros [Hs Ha]. split; [by apply norm_sorted|]. rewrite Forall_fmap. done. Qed.

Lemma norm_uses_f o l : uses v_file o (norm <$> l) = uses v_file o l.
Proof. induction l as [|v l IH]; [done|]. rewrite fmap_cons, !uses_cons, IH. done. Qed.
Lemma norm_uses_s o l : uses v_shmem o (norm <$> l) = uses v_shmem o l.
Proof. induction l as [|v l IH]; [done|]. rewrite fmap_cons, !uses_cons, IH. done. Qed.

Lemma insert_last x l : areas_ok l -> area_ok x -> (forall a, a ∈ l -> before a x) ->
  existsb (overlap (v_start x) (v_end x)) l = false /\ insert_sorted x l = l ++ [x].
Proof.
  intros Hl Hx Hb. assert (Ho : existsb (overlap (v_start x) (v_end x)) l = false).
  { apply not_true_iff_false. rewrite existsb_exists. intros (a & Ha & Hov). apply list_elem_of_In in Ha. rewrite overlap_spec in Hov.
    apply bool_decide_eq_true_1 in Hov. pose proof (Hb a Ha). unfold before in *. lia. }
  split; [done|]. destruct (insert_sorted_split x l Hl Hx Ho) as (l1 & l2 & -> & -> & _ & H2). destruct l2 as [|b l2]; [by rewrite !app_nil_r|].
  assert (Hin : b ∈ l1 ++ b :: l2) by (apply elem_of_app; right; left). pose proof (Hb b Hin) as H3. pose proof (H2 b ltac:(left)) as H4.
  destruct Hl as [_ Hl]. rewrite Forall_forall in Hl. destruct (Hl b Hin) as [? _]. destruct Hx as [? _]. unfold before in *. lia.
Qed.

Lemma update_last l x f addr : (forall a, a ∈ l -> v_end a <= addr) -> v_start x <= addr < v_end x -> update_at (l ++ [x]) addr f = l ++ [f x].
Proof.
  intros Hl Hx. induction l as [|v l IH]; simpl; rewrite covers_spec; [by rewrite bool_decide_eq_true_2|].
  pose proof (Hl v ltac:(left)). rewrite bool_decide_eq_false_2 by lia. f_equal. apply IH. intros a Ha. apply Hl. by right.
Qed.

(** One turn of the copying loop. *)
Lemma clone_step mem s p v : areas_ok (p ++ [v]) -> vmas (vm_mm s) = norm <$> p ->
  mm_vma_add mem s (v_start v) (v_end v) (v_flags v) =
    if mem then (set_vmas ((norm <$> p) ++ [Vma (v_start v) (v_end v) (v_flags v) 0 0 0 0 0]) s, 1) else (s, 0).
Proof.
  intros [Hs Ha] Hv. apply sorted_app_inv in Hs as (Hs1 & _ & Hs2). apply Forall_app in Ha as [Ha1 [Ha2 _]%Forall_cons].
  pose proof Ha2 as (H1 & H2 & H3 & H4). unfold mm_vma_add. destruct (Z.leb_spec (v_end v) (v_start v)); [lia|].
  rewrite !land_mask, !bool_decide_eq_true_2 by (done || lia). cbn [negb]. destruct mem; [|done]. cbn [negb]. rewrite Hv.
  destruct (insert_last (Vma (v_start v) (v_end v) (v_flags v) 0 0 0 0 0) (norm <$> p)) as [Ho Hi].
  - apply norm_ok. by split.
  - done.
  - intros a Hin. apply list_elem_of_fmap in Hin as (w & -> & Hw). apply (Hs2 w v Hw). left.
  - cbn [v_start v_end] in Ho. by rewrite Ho, Hi.
Qed.

Lemma clone_back p v s : areas_ok (p ++ [v]) -> vmas (vm_mm s) = (norm <$> p) ++ [Vma (v_start v) (v_end v) (v_flags v) 0 0 0 0 0] ->
  update_at (vmas (vm_mm s)) (v_start v) (set_backing v) = norm <$> (p ++ [v]).
Proof.
  intros [Hs Ha] Hv. apply sorted_app_inv in Hs as (_ & _ & Hs2). apply Forall_app in Ha as [_ [Ha _]%Forall_cons]. destruct Ha as [? _].
  rewrite Hv, update_last; [|intros a Hin; apply list_elem_of_fmap in Hin as (w & -> & Hw); apply (Hs2 w v Hw); left|simpl; lia].
  rewrite fmap_app. do 2 f_equal. unfold set_backing, norm; simpl. destruct (Z.eqb_spec (v_shmem v) 0), (Z.eqb_spec (v_file v) 0); simpl; congruence.
Qed.

Lemma norm_plain v : v_shmem v = 0 -> v_file v = 0 -> norm v = Vma (v_start v) (v_end v) (v_flags v) 0 0 0 0 0.
Proof. intros H1 H2. unfold norm. by rewrite H1, H2. Qed.

Lemma clone_find l v : vma_find (l ++ [v]) (v_start v) = None -> v_start v < v_end v -> False.
Proof.
  rewrite vma_find_app. destruct (vma_find l (v_start v)); [done|]. simpl. rewrite covers_spec. case_bool_decide; [done|lia].
Qed.

Lemma clone_all_ok mem snap k p s o : o <> 0 -> areas_ok (p ++ snap) -> vmas (vm_mm s) = norm <$> p ->
  let '(s', ok) := clone_all mem k snap s in
  deferred s' = deferred s /\ f_slack o (vmas (vm_mm s')) s' = f_slack o (vmas (vm_mm s)) s /\
  s_slack o (vmas (vm_mm s')) s' = s_slack o (vmas (vm_mm s)) s /\
  (ok = true -> vm_mm s' = with_vmas (norm <$> (p ++ snap)) (vm_mm s)) /\ (ok = false -> exists i, mem i = false).
Proof.
  intros Ho. revert k p s. induction snap as [|v snap IH]; intros k p s Hok Hv.
  { simpl. split_and!; try done. intros _. rewrite app_nil_r, <- Hv. by destruct (vm_mm s). }
  cbn [clone_all]. assert (Hpv : areas_ok (p ++ [v])).
  { destruct Hok as [Hs Ha]. rewrite cons_middle, app_assoc in Hs, Ha. apply sorted_app_inv in Hs as [Hs _]. apply Forall_app in Ha as [Ha _]. by split. }
  rewrite (clone_step (mem k) s p v Hpv Hv). destruct (mem k) eqn:Em; [|simpl; split_and!; try done; eauto].
  change (1 =? 0) with false. cbn match. set (fresh := Vma _ _ _ 0 0 0 0 0). set (s1 := set_vmas _ s).
  set (s2 := if negb (v_shmem v =? 0) || negb (v_file v =? 0) then _ else s1).
  assert (Hs2 : vm_mm s2 = with_vmas (norm <$> (p ++ [v])) (vm_mm s) /\ deferred s2 = deferred s /\
    count (f_refs s2) o = count (f_refs s) o + (if decide (v_file v = o) then 1 else 0) /\
    count (s_refs s2) o = count (s_refs s) o + (if decide (v_shmem v = o) then 1 else 0)).
  { unfold s2. destruct (Z.eqb_spec (v_shmem v) 0) as [Hz1|Hz1], (Z.eqb_spec (v_file v) 0) as [Hz2|Hz2]; cbn [negb orb].
    1: { rewrite !decide_False by congruence. split_and!; try done; [|simpl; lia..]. unfold s1, set_vmas, with_mm. cbn [vm_mm].
         f_equal. rewrite fmap_app. f_equal. cbn [fmap list_fmap]. by rewrite norm_plain. }
    all: unfold mm_vma_find; destruct (vma_find (vmas (vm_mm s1)) (v_start v)) eqn:Ef;
      [|exfalso; destruct Hpv as [_ [_ [Hav _]%Forall_cons]%Forall_app]; destruct Hav as [? _]; apply (clone_find (norm <$> p) fresh Ef); simpl; lia].
    all: set (s3 := set_vmas _ s1); destruct (dup_rest (v_file v) (shmem_ref (v_shmem v) s3)) as (-> & -> & ->);
      rewrite dup_count, ref_count by done; destruct (ref_rest (v_shmem v) s3) as (-> & -> & ->);
      unfold s3; rewrite (clone_back p v s1 Hpv eq_refl); done. }
  destruct Hs2 as (Hm & Hd & Hf & Hsr). specialize (IH (S k) (p ++ [v]) s2). rewrite <- app_assoc in IH.
  assert (Hv2 : vmas (vm_mm s2) = norm <$> (p ++ [v])) by by rewrite Hm.
  specialize (IH Hok Hv2). destruct (clone_all mem (S k) snap s2) as [s' ok]. destruct IH as (I1 & I2 & I3 & I4 & I5).
  split_and!; [congruence|..|done].
  - rewrite I2. unfold f_slack. rewrite Hf, Hd, Hv2, Hv, fmap_app, uses_app. change (norm <$> [v]) with [norm v]. rewrite uses_cons, uses_nil. simpl. lia.
  - rewrite I3. unfold s_slack. rewrite Hsr, Hd, Hv2, Hv, fmap_app, uses_app. change (norm <$> [v]) with [norm v]. rewrite uses_cons, uses_nil. simpl. lia.
  - intros Hok'. rewrite (I4 Hok'), Hm. done.
Qed.

Lemma destroy_slack l s o : o <> 0 ->
  let s' := fold_left (fun s v => vma_drop v s) l s in
  f_slack o [] s' = f_slack o l s /\ s_slack o [] s' = s_slack o l s /\ deferred s' = deferred s /\ vm_mm s' = vm_mm s.
Proof.
  intros Ho. revert s. induction l as [|v l IH]; intros s; [done|]. cbn [fold_left]. specialize (IH (vma_drop v s)). cbv zeta in IH.
  destruct IH as (-> & -> & -> & ->). unfold vma_drop. destruct (close_rest (v_file v) (shmem_unref (v_shmem v) s)) as (E1 & E2 & E3).
  destruct (unref_rest (v_shmem v) s) as (F1 & F2 & F3). split_and!; [..|by rewrite E3|by rewrite E2].
  - unfold f_slack. rewrite E3, F3, close_count, F1, uses_cons by done. lia.
  - unfold s_slack. rewrite E3, F3, E1, unref_count, uses_cons by done. lia.
Qed.
