(* ===== verification/VmaTheorems.v ===== *)
(** * Theorems on address spaces

    The list of areas implements a map from addresses to what is behind them;
    the search for room ends, is right and is complete; a clone has the same
    map; mapping calls keep the list and the references right; and a list of
    what the calls accept or break. *)

From Stdlib Require Import Sorting.Sorted.
From S2P Require Import Prelude Errno Vma VmaSpec.

(** ** The map *)

Definition vm_inv (bf bs : Z -> Z) (s : vm_state) : Prop := areas_ok (vmas (vm_mm s)) /\ refs_ok bf bs s.

Definition u64_range (x : Z) : Prop := 0 <= x < 2 ^ 64.

Lemma overlap_view l start end_ : areas_ok l -> start < end_ ->
  existsb (overlap start end_) l = false <-> (forall addr, start <= addr < end_ -> view l addr = None).
Proof.
  intros [_ Ha] Hse. rewrite Forall_forall in Ha. split.
  - intros Ho addr Haddr. unfold view. destruct (vma_find l addr) as [v|] eqn:E; [|done]. apply vma_find_elem in E as [Hv Hc].
    rewrite <- not_true_iff_false in Ho. destruct Ho. apply existsb_exists. exists v. split; [by apply list_elem_of_In|].
    rewrite overlap_spec. apply bool_decide_eq_true_2. lia.
  - intros Hn. apply not_true_iff_false. rewrite existsb_exists. intros (v & Hv & Ho). apply list_elem_of_In in Hv. rewrite overlap_spec in Ho.
    apply bool_decide_eq_true_1 in Ho. destruct (Ha v Hv) as [? _].
    specialize (Hn (Z.max start (v_start v)) ltac:(lia)). unfold view in Hn. apply fmap_None in Hn. rewrite vma_find_none, Forall_forall in Hn.
    specialize (Hn v Hv). rewrite covers_spec in Hn. apply bool_decide_eq_false_1 in Hn. lia.
Qed.

Lemma insert_view x l : areas_ok l -> area_ok x -> existsb (overlap (v_start x) (v_end x)) l = false ->
  areas_ok (insert_sorted x l) /\
  forall addr, view (insert_sorted x l) addr = if decide (v_start x <= addr < v_end x) then Some (backing x addr) else view l addr.
Proof.
  intros Hl Hx Ho. destruct (insert_sorted_ok x l Hl Hx Ho) as (Hok & _ & Hf). split; [done|]. intros addr. unfold view. rewrite Hf, covers_spec.
  case_bool_decide; [rewrite decide_True by done|rewrite decide_False by done]; done.
Qed.

Definition fits (s : vm_state) (start end_ : Z) : Prop :=
  start < end_ /\ start mod VM_PAGE = 0 /\ end_ mod VM_PAGE = 0 /\ forall addr, start <= addr < end_ -> view (vmas (vm_mm s)) addr = None.

Lemma add_cases mem s start end_ flags : areas_ok (vmas (vm_mm s)) -> u64_range start -> u64_range end_ ->
  (mem = true /\ fits s start end_ /\
   mm_vma_add mem s start end_ flags = (set_vmas (insert_sorted (Vma start end_ flags 0 0 0 0 0) (vmas (vm_mm s))) s, 1)) \/
  (~ (mem = true /\ fits s start end_) /\ mm_vma_add mem s start end_ flags = (s, 0)).
Proof.
  intros Hl [Hs _] [He _]. unfold mm_vma_add, fits. destruct (Z.leb_spec end_ start); [right; split; [lia|done]|].
  rewrite !land_mask by done. case_bool_decide; cbn [negb]; [|right; split; [tauto|done]]. case_bool_decide; cbn [negb]; [|right; split; [tauto|done]].
  destruct mem; cbn [negb]; [|right; split; [by intros []|done]].
  pose proof (overlap_view (vmas (vm_mm s)) start end_ Hl ltac:(lia)) as Ho.
  destruct (existsb (overlap start end_) (vmas (vm_mm s))); [right|left; split_and!; try done; by apply Ho].
  split; [|done]. intros (_ & _ & _ & _ & Hn). apply Ho in Hn. done.
Qed.

Lemma add_file_cases mem s start end_ flags f off len : areas_ok (vmas (vm_mm s)) -> u64_range start -> u64_range end_ -> f <> 0 ->
  (mem = true /\ fits s start end_ /\
   mm_vma_add_file mem s start end_ flags f off len =
     (set_vmas (insert_sorted (Vma start end_ (Z.lor VMA_FILE flags) 0 0 f off len) (vmas (vm_mm s))) (vfs_dup_ref f s), 1)) \/
  (~ (mem = true /\ fits s start end_) /\ exists s', mm_vma_add_file mem s start end_ flags f off len = (s', 0) /\ vm_mm s' = vm_mm s).
Proof.
  intros Hl [Hs _] [He _] Hf. unfold mm_vma_add_file, fits. destruct (Z.eqb_spec f 0); [done|].
  destruct (Z.leb_spec end_ start); [right; split; [lia|by eexists]|].
  rewrite !land_mask by done. case_bool_decide; cbn [negb]; [|right; split; [tauto|by eexists]]. case_bool_decide; cbn [negb]; [|right; split; [tauto|by eexists]].
  destruct mem; cbn [negb]; [|right; split; [by intros []|by eexists]].
  destruct (dup_rest f s) as (_ & E & _). rewrite E. pose proof (overlap_view (vmas (vm_mm s)) start end_ Hl ltac:(lia)) as Ho.
  destruct (existsb (overlap start end_) (vmas (vm_mm s))); [right|left; split_and!; try done; by apply Ho].
  split; [intros (_ & _ & _ & _ & Hn); by apply Ho in Hn|]. eexists. split; [done|].
  destruct (close_rest f (vfs_dup_ref f s)) as (_ & -> & _). done.
Qed.

Lemma remove_vmas mem s start end_ : start < end_ -> vmas (vm_mm (fst (mm_vma_remove mem s start end_))) = concat (pieces mem start end_ <$> vmas (vm_mm s)).
Proof.
  intros Hse. unfold mm_vma_remove. destruct (Z.leb_spec end_ start); [lia|]. rewrite <- (remove_loop_list mem start end_ (vmas (vm_mm s)) s).
  by destruct (remove_loop mem start end_ (vmas (vm_mm s)) s) as [[l s'] d].
Qed.

Lemma remove_inv mem bf bs s start end_ : vm_inv bf bs s -> start mod VM_PAGE = 0 -> end_ mod VM_PAGE = 0 ->
  vm_inv bf bs (fst (mm_vma_remove mem s start end_)).
Proof.
  intros [Hl Hr] Hs He. split; [|by apply remove_refs]. destruct (decide (start < end_)) as [Hse|Hse].
  - rewrite remove_vmas by done. by apply remove_ok.
  - unfold mm_vma_remove. destruct (Z.leb_spec end_ start); [done|lia].
Qed.

Lemma add_inv mem bf bs s start end_ flags : vm_inv bf bs s -> u64_range start -> u64_range end_ -> vm_inv bf bs (fst (mm_vma_add mem s start end_ flags)).
Proof.
  intros [Hl Hr] Hs He. split; [|by apply add_refs]. destruct (add_cases mem s start end_ flags Hl Hs He) as [(_ & (Hf1 & Hf2 & Hf3 & Hf4) & ->)|(_ & ->)]; [|done].
  simpl. apply insert_view; [done| |by apply overlap_view]. unfold area_ok, u64_range in *. simpl. split_and!; done || lia.
Qed.

Lemma add_file_inv mem bf bs s start end_ flags f off len : vm_inv bf bs s -> u64_range start -> u64_range end_ -> f <> 0 ->
  vm_inv bf bs (fst (mm_vma_add_file mem s start end_ flags f off len)).
Proof.
  intros [Hl Hr] Hs He Hf. split; [|by apply add_file_refs].
  destruct (add_file_cases mem s start end_ flags f off len Hl Hs He Hf) as [(_ & (Hf1 & Hf2 & Hf3 & Hf4) & ->)|(_ & s' & -> & E)]; [|simpl; by rewrite E].
  simpl. apply insert_view; [done| |by apply overlap_view]. unfold area_ok, u64_range in *. simpl. split_and!; done || lia.
Qed.


(** An address space with an anonymous area, a file area and nothing else. *)
Definition demo_areas : list vma := [Vma 0x10000 0x14000 11 0 0 0 0 0; Vma 0x20000 0x24000 65 0 0 5 0x1000 0x3000].
Definition demo_vm : vm_state := VmState (Mm demo_areas 0x40000 0x40000 VMM_MMAP_BASE) [] {[ 5 := 1 ]} ∅ ∅ [].

Lemma demo_areas_ok : areas_ok demo_areas.
Proof. split; unfold demo_areas, area_ok, before; repeat constructor; cbn; lia || done. Qed.

Lemma demo_vm_inv : vm_inv (fun _ => 0) (fun _ => 0) demo_vm.
Proof.
  split; [apply demo_areas_ok|]. intros o Ho. cbn [demo_vm f_refs s_refs vm_mm vmas deferred]. unfold demo_areas. rewrite !uses_cons, !uses_nil. cbn [v_file v_shmem].
  rewrite !(decide_False (P := 0 = o)) by congruence. unfold count. rewrite lookup_empty. split; [|done].
  case_decide; [subst o; reflexivity|]. by rewrite lookup_singleton_ne.
Qed.


(** ** Room *)

Lemma free_loop_total fuel l len lower hint : u64_range len -> len mod VM_PAGE = 0 -> u64_range hint -> hint mod VM_PAGE = 0 ->
  areas_ok l -> (starts_below hint l < fuel)%nat ->
  exists r, free_loop fuel l len lower hint = Some r /\ forall a, r = Some a -> u64_range a /\ a mod VM_PAGE = 0.
Proof.
  intros Hlen Hla. revert hint. induction fuel as [|fuel IH]; intros hint Hh Hha Hl Hf; [lia|]. cbn [free_loop].
  destruct (u64 (lower + len) <=? hint); [|by exists None]. unfold u64_range in *.
  assert (Hcr : 0 <= u64 (hint - len) < 2 ^ 64) by (unfold u64; mlia). assert (Hca : u64 (hint - len) mod 4096 = 0) by (unfold u64; mlia).
  assert (Hc : Z.land (u64 (hint - len)) (2 ^ 64 - 4096) = u64 (hint - len)).
  { rewrite land_pages by done. lia. }
  rewrite Hc. assert (Hu : u64 (u64 (hint - len) + len) = hint) by (unfold u64; mlia). rewrite Hu.
  destruct (first_overlap l (u64 (hint - len)) hint) as [v|] eqn:E; [|eexists; split; [done|]; by intros a [= <-]].
  apply first_overlap_some in E as (Hv & _ & Hlt). pose proof (starts_below_lt l v hint Hv Hlt).
  pose proof (proj2 Hl) as Ha. rewrite Forall_forall in Ha. destruct (Ha v Hv) as (? & ? & ? & _). apply IH; done || lia.
Qed.

Lemma page_up_aligned len : u64_range len -> u64_range (page_up len) /\ page_up len mod VM_PAGE = 0.
Proof.
  intros _. unfold page_up, u64_range. assert (0 <= u64 (len + 4095) < 2 ^ 64) by (unfold u64; mlia). rewrite land_pages by done. mlia.
Qed.

Lemma find_free_total s len : areas_ok (vmas (vm_mm s)) -> u64_range (mmap_base (vm_mm s)) -> mmap_base (vm_mm s) mod VM_PAGE = 0 -> u64_range len ->
  exists s' a, mm_vma_find_free s len = Some (s', a) /\ u64_range a /\ a mod VM_PAGE = 0 /\
    (s' = s \/ s' = with_mm (with_base a (vm_mm s)) s).
Proof.
  intros Hl Hb Hba Hlen. unfold mm_vma_find_free. destruct (Z.eqb_spec len 0); [exists s, 0; unfold u64_range; split_and!; try done; auto|]. destruct (page_up_aligned len Hlen) as [Hp Hpa].
  destruct (free_loop_total (S (length (vmas (vm_mm s)))) (vmas (vm_mm s)) (page_up len) (u64 (brk (vm_mm s) + 64 * 1024 * 1024)) (mmap_base (vm_mm s)) Hp Hpa Hb Hba Hl) as (r & -> & Hr).
  - pose proof (starts_below_length (mmap_base (vm_mm s)) (vmas (vm_mm s))). lia.
  - cbn [mbind option_bind]. destruct r as [a|]; [destruct (Hr a eq_refl); eexists _, a; split_and!; auto|].
    exists s, 0. unfold u64_range. split_and!; try done. by left.
Qed.



(** ** Cloning *)

Lemma destroy_refs bf bs s src : (forall o, o <> 0 -> f_slack o (vmas (vm_mm s)) s = bf o + uses v_file o (vmas src) /\ s_slack o (vmas (vm_mm s)) s = bs o + uses v_shmem o (vmas src)) ->
  refs_ok bf bs (with_mm src (mm_destroy s)).
Proof.
  intros H o Ho. destruct (H o Ho) as [H1 H2]. unfold mm_destroy.
  destruct (destroy_slack (vmas (vm_mm s)) s o Ho) as (D1 & D2 & D3 & D4). set (s' := fold_left _ _ s) in *.
  unfold f_slack, s_slack in *. rewrite !uses_nil in *. simpl. lia.
Qed.

Lemma with_mm_back s : with_mm (vm_mm s) s = s.
Proof. by destruct s. Qed.

(** C38: cloning a well-formed address space gives one with the same map and the
    same heap and base, holding its own references, and leaves the source as it
    was; destroying the clone gives back exactly the references it took.  When
    an allocation fails, and only then, there is no clone and every reference
    taken on the way has been dropped. *)
Theorem mm_clone_exact mem bf bs s : vm_inv bf bs s ->
  match mm_clone mem s with
  | (s', Some dst) =>
      vm_mm s' = vm_mm s /\ deferred s' = deferred s /\ areas_ok (vmas dst) /\
      (forall addr, view (vmas dst) addr = view (vmas (vm_mm s)) addr) /\
      brk_start dst = brk_start (vm_mm s) /\ brk dst = brk (vm_mm s) /\ mmap_base dst = mmap_base (vm_mm s) /\
      refs_ok (fun o => bf o + uses v_file o (vmas dst)) (fun o => bs o + uses v_shmem o (vmas dst)) s' /\
      refs_ok bf bs (with_mm (vm_mm s) (mm_destroy (with_mm dst s')))
  | (s', None) => vm_mm s' = vm_mm s /\ vm_inv bf bs s' /\ exists i, mem i = false
  end.
Proof.
  intros [Hl Hr]. unfold mm_clone. destruct (mem 0%nat) eqn:E0; cbn [negb]; [|split; [done|]; split; [by split|by exists 0%nat]].
  assert (Hsl := proj1 (refs_slack bf bs s) Hr).
  destruct (vmas (vm_mm s)) as [|v0 l0] eqn:Ev.
  { split_and!; try done. intros o Ho. destruct (Hr o Ho). simpl. rewrite !uses_nil. lia. }
  destruct (mem 1%nat) eqn:E1; cbn [negb]; [|split; [done|]; split; [split; [by rewrite Ev|done]|by exists 1%nat]]. rewrite <- Ev in Hl |- *.
  set (dst0 := Mm [] _ _ _). set (s0 := with_mm dst0 s).
  assert (Hc : forall o, o <> 0 -> let '(s', ok) := clone_all mem 2 (vmas (vm_mm s)) s0 in
    deferred s' = deferred s /\ f_slack o (vmas (vm_mm s')) s' = f_slack o [] s0 /\ s_slack o (vmas (vm_mm s')) s' = s_slack o [] s0 /\
    (ok = true -> vm_mm s' = with_vmas (norm <$> vmas (vm_mm s)) dst0) /\ (ok = false -> exists i, mem i = false)).
  { intros o Ho. exact (clone_all_ok mem (vmas (vm_mm s)) 2 [] s0 o Ho Hl eq_refl). }
  destruct (clone_all mem 2 (vmas (vm_mm s)) s0) as [s' ok].
  assert (Hslack : forall o, o <> 0 -> f_slack o (vmas (vm_mm s')) s' = bf o + uses v_file o (vmas (vm_mm s)) /\ s_slack o (vmas (vm_mm s')) s' = bs o + uses v_shmem o (vmas (vm_mm s))).
  { intros o Ho. destruct (Hc o Ho) as (_ & -> & -> & _). destruct (Hsl o Ho). unfold f_slack, s_slack, s0 in *. simpl in *. rewrite !uses_nil. rewrite Ev in *. lia. }
  destruct (Hc 1 ltac:(lia)) as (Hd & _ & _ & Hm & Hf). destruct ok.
  - specialize (Hm eq_refl). rewrite Hm. split_and!; try done; [by apply norm_ok|intros addr; apply norm_view|..].
    + intros o Ho. destruct (Hslack o Ho) as [H1 H2]. rewrite Hm in H1, H2. unfold f_slack, s_slack in *. simpl in *. rewrite norm_uses_f, norm_uses_s in *. lia.
    + apply destroy_refs. intros o Ho. destruct (Hslack o Ho) as [H1 H2]. rewrite Hm in H1, H2. exact (conj H1 H2).
  - split; [done|]. split; [|by apply Hf]. split; [exact Hl|]. by apply destroy_refs.
Qed.

Lemma mm_clone_exact_witness :
  vm_inv (fun _ => 0) (fun _ => 0) demo_vm /\ count (f_refs (fst (mm_clone (fun _ => true) demo_vm))) 5 = 2 /\
  match mm_clone (fun _ => true) demo_vm with (s', Some dst) => view (vmas dst) 0x21000 = view demo_areas 0x21000 | _ => False end.
Proof.
  split; [apply demo_vm_inv|]. split; [reflexivity|].
  pose proof (mm_clone_exact (fun _ => true) (fun _ => 0) (fun _ => 0) demo_vm demo_vm_inv) as H.
  destruct (mm_clone (fun _ => true) demo_vm) as [s' [dst|]]; [apply H|]. destruct H as (_ & _ & [i Hi]). discriminate Hi.
Defined.

(** ** The calls *)

Definition call_inv (bf bs : Z -> Z) (s : vm_state) : Prop :=
  vm_inv bf bs s /\ u64_range (mmap_base (vm_mm s)) /\ mmap_base (vm_mm s) mod VM_PAGE = 0.

Definition same_areas (s s' : vm_state) : Prop := vm_mm s' = vm_mm s /\ deferred s' = deferred s /\ f_refs s' = f_refs s /\ s_refs s' = s_refs s.

Lemma same_areas_inv bf bs s s' : same_areas s s' -> call_inv bf bs s -> call_inv bf bs s'.
Proof.
  intros (E1 & E2 & E3 & E4) [[Hl Hr] Hb]. unfold call_inv, vm_inv. rewrite E1. split_and!; try done; try apply Hb.
  intros o Ho. rewrite E1, E2, E3, E4. by apply Hr.
Qed.

Lemma unmap_one_areas s p : same_areas s (unmap_one s p).
Proof. unfold unmap_one, vmm_page_unmap. destruct (pages s !! page_of p); [|done]. by destruct (mm_vma_find (vm_mm s) p) as [v|]; [destruct (negb _)|]. Qed.

Lemma unmap_range_areas s a e : same_areas s (mm_unmap_range_flush_free s a e).
Proof.
  unfold mm_unmap_range_flush_free. generalize (page_steps a e). intros l. revert s. induction l as [|p l IH]; intros s; [done|]. cbn [fold_left].
  destruct (unmap_one_areas s p) as (E1 & E2 & E3 & E4). destruct (IH (unmap_one s p)) as (F1 & F2 & F3 & F4). unfold same_areas. by rewrite F1, F2, F3, F4.
Qed.

Lemma remove_base mem s start end_ : mmap_base (vm_mm (fst (mm_vma_remove mem s start end_))) = mmap_base (vm_mm s).
Proof.
  unfold mm_vma_remove. destruct (end_ <=? start); [done|]. pose proof (remove_loop_refs mem start end_ (vmas (vm_mm s)) s 1 ltac:(lia)) as H.
  destruct (remove_loop mem start end_ (vmas (vm_mm s)) s) as [[l s'] d]. destruct H as (_ & _ & E). simpl. by rewrite E.
Qed.

Lemma remove_call_inv mem bf bs s start end_ : call_inv bf bs s -> start mod VM_PAGE = 0 -> end_ mod VM_PAGE = 0 ->
  call_inv bf bs (fst (mm_vma_remove mem s start end_)).
Proof. intros [Hi Hb] Hs He. split; [by apply remove_inv|]. by rewrite remove_base. Qed.

Lemma u64_sum_page a b : a mod VM_PAGE = 0 -> b mod VM_PAGE = 0 -> u64_range (u64 (a + b)) /\ u64 (a + b) mod VM_PAGE = 0.
Proof. intros. unfold u64_range, u64. mlia. Qed.

Lemma munmap_inv mem bf bs s addr len : call_inv bf bs s -> u64_range addr -> u64_range len -> call_inv bf bs (fst (sys_munmap mem s addr len)).
Proof.
  intros Hi [Ha _] Hl. unfold sys_munmap. rewrite land_mask by done. destruct (addr =? 0); [done|]. case_bool_decide as Hal; [|done]. cbn [orb negb].
  destruct (len =? 0); [done|]. destruct (page_up_aligned len Hl) as [_ Hp]. destruct (u64_sum_page addr (page_up len) Hal Hp) as [_ Hu].
  pose proof (remove_call_inv mem bf bs _ addr (u64 (addr + page_up len)) (same_areas_inv bf bs _ _ (unmap_range_areas s addr (u64 (addr + page_up len))) Hi) Hal Hu) as H.
  by destruct (mm_vma_remove mem _ addr (u64 (addr + page_up len))).
Qed.

Lemma place_ok mem bf bs s addr len flags : call_inv bf bs s -> u64_range addr -> u64_range len -> len mod VM_PAGE = 0 ->
  (Z.land flags MAP_FIXED <> 0 -> addr mod VM_PAGE = 0) ->
  exists s' a, mmap_place mem s addr len flags = Some (s', a) /\ call_inv bf bs s' /\ u64_range a /\ a mod VM_PAGE = 0.
Proof.
  intros Hi Ha Hl Hlp Hfix. pose proof Hi as [[Hok _] [Hb Hba]]. unfold mmap_place.
  destruct (find_free_total s len Hok Hb Hba Hl) as (s1 & a1 & E1 & Hr1 & Hp1 & Hs1).
  assert (Hfree : call_inv bf bs s1) by (destruct Hs1 as [->| ->]; [done|]; split; [exact (proj1 Hi)|done]).
  destruct (Z.eqb_spec (Z.land flags 16) 0) as [_|Hf]; cbn [negb].
  - destruct (Z.eqb_spec addr 0); cbn [negb]; [eauto 6|]. destruct (first_overlap _ _ _); [eauto 6|].
    exists s, (Z.land addr (2 ^ 64 - 4096)). rewrite land_pages by exact Ha. unfold u64_range in *. split_and!; try done; try mlia.
  - pose proof (remove_call_inv mem bf bs _ addr (u64 (addr + len)) (same_areas_inv bf bs _ _ (unmap_range_areas s addr (u64 (addr + len))) Hi) (Hfix Hf) (proj2 (u64_sum_page addr len (Hfix Hf) Hlp))) as H.
    destruct (mm_vma_remove mem _ addr (u64 (addr + len))) as [s2 r]. exists s2, addr. split_and!; try done. by apply Hfix.
Qed.

Definition set_shm (o pgoff : Z) (v : vma) : vma := Vma (v_start v) (v_end v) (v_flags v) o pgoff (v_file v) (v_off v) (v_len v).

Lemma attach_split l1 v l2 o pgoff : Forall (fun a => v_start a <> v_start v) l1 ->
  attach (l1 ++ v :: l2) (v_start v) o pgoff = l1 ++ set_shm o pgoff v :: l2.
Proof.
  intros H. induction H as [|a l1 Ha _ IH]; simpl; [by rewrite Z.eqb_refl|]. destruct (Z.eqb_spec (v_start a) (v_start v)); [done|]. by rewrite IH.
Qed.

Lemma swap_ok l1 v w l2 : v_start w = v_start v -> v_end w = v_end v -> areas_ok (l1 ++ v :: l2) -> areas_ok (l1 ++ w :: l2).
Proof.
  intros Hs He [Hl Ha]. apply sorted_app_inv in Hl as (H1 & H2 & H3). apply Forall_app in Ha as [Ha1 [Ha2 Ha3]%Forall_cons].
  apply StronglySorted_inv in H2 as [H2 Hv]. split.
  - apply sorted_app; [done|constructor; [done|]|].
    + eapply Forall_impl; [exact Hv|]. intros x. unfold before. by rewrite He.
    + intros a b Hma Hmb. apply elem_of_cons in Hmb as [->|Hmb]; [|apply H3; [done|by right]].
      pose proof (H3 a v Hma ltac:(left)). unfold before in *. by rewrite Hs.
  - apply Forall_app. split; [done|]. constructor; [|done]. unfold area_ok in *. by rewrite Hs, He.
Qed.

(** A fresh area with a shared memory object attached to it. *)
Lemma add_attach_inv bf bs s start end_ flags o pgoff : call_inv bf bs s -> u64_range start -> u64_range end_ -> fits s start end_ -> o <> 0 ->
  let s1 := set_vmas (insert_sorted (Vma start end_ flags 0 0 0 0 0) (vmas (vm_mm s))) s in
  call_inv bf bs (set_vmas (attach (vmas (vm_mm (shmem_ref o s1))) start o pgoff) (shmem_ref o s1)).
Proof.
  intros [[Hl Hr] Hb] Hs He (Hf1 & Hf2 & Hf3 & Hf4) Ho s1. set (x := Vma start end_ flags 0 0 0 0 0).
  assert (Hx : area_ok x) by (unfold area_ok, u64_range in *; simpl; split_and!; done || lia).
  destruct (insert_sorted_split x (vmas (vm_mm s)) Hl Hx (proj2 (overlap_view _ _ _ Hl Hf1) Hf4)) as (l1 & l2 & E & Ei & Hb1 & _).
  assert (Hat : attach (vmas (vm_mm (shmem_ref o s1))) start o pgoff = l1 ++ set_shm o pgoff x :: l2).
  { destruct (ref_rest o s1) as (_ & -> & _). unfold s1. cbn [set_vmas with_mm vm_mm with_vmas vmas]. fold x. rewrite Ei.
    apply (attach_split l1 x l2). apply Forall_forall. intros a Ha. pose proof (Hb1 a Ha) as Hba. unfold before in Hba.
    destruct Hl as [_ Hl]. rewrite E, Forall_app in Hl. destruct Hl as [Hl _]. rewrite Forall_forall in Hl. destruct (Hl a Ha) as [? _]. lia. }
  rewrite Hat. destruct (ref_rest o s1) as (R1 & R2 & R3). split; [split|].
  - cbn [set_vmas with_mm vm_mm with_vmas vmas]. apply (swap_ok l1 x); [done..|]. rewrite <- Ei. by apply insert_sorted_ok; [..|apply overlap_view].
  - intros q Hq. destruct (Hr q Hq) as [Q1 Q2]. cbn [set_vmas with_mm vm_mm with_vmas vmas f_refs s_refs deferred].
    rewrite ref_count, R1, R3 by done. unfold s1. cbn [set_vmas with_mm f_refs s_refs deferred].
    rewrite E in Q1, Q2. rewrite !uses_app, !uses_cons in *. unfold set_shm, x. cbn [v_file v_shmem]. rewrite (decide_False (P := 0 = q)) by congruence. lia.
  - cbn [set_vmas with_mm vm_mm with_vmas mmap_base]. rewrite R2. exact Hb.
Qed.

Lemma add_call_inv mem bf bs s start end_ flags : call_inv bf bs s -> u64_range start -> u64_range end_ -> call_inv bf bs (fst (mm_vma_add mem s start end_ flags)).
Proof.
  intros [Hi Hb] Hs He. split; [by apply add_inv|]. destruct (add_cases mem s start end_ flags (proj1 Hi) Hs He) as [(_ & _ & ->)|(_ & ->)]; exact Hb.
Qed.

Lemma add_file_call_inv mem bf bs s start end_ flags f off len : call_inv bf bs s -> u64_range start -> u64_range end_ -> f <> 0 ->
  call_inv bf bs (fst (mm_vma_add_file mem s start end_ flags f off len)).
Proof.
  intros [Hi Hb] Hs He Hf. split; [by apply add_file_inv|].
  destruct (add_file_cases mem s start end_ flags f off len (proj1 Hi) Hs He Hf) as [(_ & _ & ->)|(_ & s' & -> & E)]; cbn [fst]; [|by rewrite E].
  cbn [set_vmas with_mm vm_mm with_vmas mmap_base]. destruct (dup_rest f s) as (_ & -> & _). exact Hb.
Qed.

Definition object_ok (obj : map_object) : Prop :=
  match obj with RegularFile f _ _ => f <> 0 | SharedMemory o _ => o <> 0 | _ => True end.

Lemma mmap_inv mem shm bf bs s addr len prot flags off obj : call_inv bf bs s -> u64_range addr -> u64_range len -> 0 <= off -> object_ok obj ->
  exists s' r, sys_mmap mem shm s addr len prot flags off obj = Some (s', r) /\ call_inv bf bs s'.
Proof.
  intros Hi Ha Hl Hoff Hobj. unfold sys_mmap. set (anon := negb (Z.land flags 32 =? 0)). set (shared := negb (Z.land flags 1 =? 0)).
  set (has_fd := match obj with NoFd => false | _ => true end).
  destruct (len =? 0); [eauto|]. destruct (negb anon && negb has_fd); [eauto|]. destruct (anon && has_fd); [eauto|]. destruct (negb (Z.land off 4095 =? 0)); [eauto|].
  destruct (page_up_aligned len Hl) as [Hp Hpa]. destruct (negb (Z.land flags 16 =? 0) && _) eqn:Ef; [eauto|].
  destruct (place_ok mem bf bs s addr (page_up len) flags Hi Ha Hp Hpa) as (s1 & a & -> & Hi1 & Har & Hap).
  { intros Hfix. rewrite land_mask in Ef by apply Ha. destruct (Z.eqb_spec (Z.land flags 16) 0); [done|]. cbn [negb andb] in Ef.
    apply orb_false_iff in Ef as [_ Ef]. apply negb_false_iff in Ef. by apply bool_decide_eq_true_1 in Ef. }
  cbn [mbind option_bind]. destruct (a =? 0); [eauto|].
  destruct (u64_sum_page a (page_up len) Hap Hpa) as [Her Hea]. set (e := u64 (a + page_up len)) in *. set (vf := mmap_vma_flags prot shared).
  pose proof (add_call_inv mem bf bs s1 a e vf Hi1 Har Her) as Hadd.
  assert (Hfail : call_inv bf bs (fst (mm_vma_remove mem (fst (mm_vma_add mem s1 a e vf)) a e))) by by apply remove_call_inv.
  pose proof (add_cases mem s1 a e vf (proj1 (proj1 Hi1)) Har Her) as Hc. destruct obj as [| |f rights size|o npages|].
  - destruct Hc as [(_ & Hfits & E)|(_ & E)]; rewrite E in Hadd, Hfail |- *; [|eauto]. change (1 =? 0) with false. cbn match.
    destruct (negb shared); [eauto|]. destruct (Z.eqb_spec shm 0); [eauto|]. eexists _, _. split; [done|]. by apply add_attach_inv.
  - eauto.
  - destruct (shared && _); [eauto|]. destruct (_ && (Z.land rights 1 =? 0)); [eauto|]. destruct (size <? off); [eauto|].
    set (fl := if _ <? _ then _ else _). pose proof (add_file_call_inv mem bf bs s1 a e (Z.land vf (2 ^ 32 - 1 - 8)) f off fl Hi1 Har Her Hobj) as Hadf.
    destruct (mm_vma_add_file mem s1 a e _ f off fl) as [s2 ok]. eauto.
  - destruct (negb shared && _); [eauto|]. destruct Hc as [(_ & Hfits & E)|(_ & E)]; rewrite E in Hadd, Hfail |- *; [|eauto]. change (1 =? 0) with false. cbn match.
    destruct (npages <? _); [eauto|]. eexists _, _. split; [done|]. by apply add_attach_inv.
  - destruct (negb shared); [eauto|]. destruct Hc as [(_ & Hfits & E)|(_ & E)]; rewrite E in Hadd, Hfail |- *; [|eauto]. change (1 =? 0) with false. cbn match. eauto.
Qed.

(** The calls that map and unmap, and the grace-period callback. *)
Inductive vm_call :=
| CMmap (mem : bool) (shm addr len prot flags off : Z) (obj : map_object)
| CMunmap (mem : bool) (addr len : Z)
| CGrace.

Definition call_ok (c : vm_call) : Prop :=
  match c with
  | CMmap _ _ addr len _ _ off obj => u64_range addr /\ u64_range len /\ 0 <= off /\ object_ok obj
  | CMunmap _ addr len => u64_range addr /\ u64_range len
  | CGrace => True
  end.

Definition vm_run (c : vm_call) (s : vm_state) : option vm_state :=
  match c with
  | CMmap mem shm addr len prot flags off obj => fst <$> sys_mmap mem shm s addr len prot flags off obj
  | CMunmap mem addr len => Some (fst (sys_munmap mem s addr len))
  | CGrace => Some (vma_free_rcu s)
  end.

Fixpoint vm_runs (l : list vm_call) (s : vm_state) : option vm_state :=
  match l with [] => Some s | c :: l => s ← vm_run c s; vm_runs l s end.

Lemma grace_areas s : vm_mm (vma_free_rcu s) = vm_mm s.
Proof.
  unfold vma_free_rcu. destruct (deferred s) as [|v l]; [done|]. unfold vma_drop. set (s0 := VmState _ _ _ _ _ _).
  destruct (close_rest (v_file v) (shmem_unref (v_shmem v) s0)) as (_ & -> & _). by destruct (unref_rest (v_shmem v) s0) as (_ & -> & _).
Qed.

Lemma vm_run_inv bf bs c s : call_ok c -> call_inv bf bs s -> exists s', vm_run c s = Some s' /\ call_inv bf bs s'.
Proof.
  intros Hc Hi. destruct c as [mem shm addr len prot flags off obj|mem addr len|]; cbn [vm_run].
  - destruct Hc as (H1 & H2 & H3 & H4). destruct (mmap_inv mem shm bf bs s addr len prot flags off obj Hi H1 H2 H3 H4) as (s' & r & -> & Hs'). eauto.
  - eexists. split; [done|]. apply munmap_inv; [done|apply Hc..].
  - eexists. split; [done|]. destruct Hi as [[Hl Hr] Hb]. unfold call_inv, vm_inv. rewrite grace_areas. split_and!; try done; try apply Hb. by apply free_rcu_refs.
Qed.

(** The first half of [vm_calls_correct]. *)
Lemma vm_calls_safe bf bs l s : call_inv bf bs s -> Forall call_ok l ->
  exists s', vm_runs l s = Some s' /\ call_inv bf bs s'.
Proof.
  intros Hi Hl. revert s Hi. induction Hl as [|c l Hc _ IH]; intros s Hi; [by exists s|]. cbn [vm_runs].
  destruct (vm_run_inv bf bs c s Hc Hi) as (s1 & -> & Hi1). cbn [mbind option_bind]. by apply IH.
Qed.

(** Map two pages of a file, punch a hole, map shared memory into it, unmap all. *)
Definition demo_calls : list vm_call :=
  [CMmap true 0 0 8192 3 2 0 (RegularFile 5 0 5000); CMunmap true 0x10000 4096;
   CMmap true 9 0x10000 4096 3 (MAP_FIXED + MAP_SHARED + MAP_ANONYMOUS) 0 NoFd; CMunmap true 0x10000 0x20000; CGrace; CGrace; CGrace].

(** ** What the calls accept and break *)

Definition mmap_anon (s : vm_state) (addr len prot flags : Z) : option (vm_state * Z) :=
  sys_mmap true 0 s addr len prot (Z.lor flags MAP_ANONYMOUS) 0 NoFd.

(** A heap of two pages, the second with a frame, and an area above it. *)
Definition demo_heap : vm_state :=
  VmState (Mm [Vma 0x40000 0x42000 11 0 0 0 0 0; Vma 0x44000 0x45000 11 0 0 0 0 0] 0x40000 0x42000 VMM_MMAP_BASE) [] ∅ ∅ {[ 0x41 := 7 ]} [].

(** A heap grown to 16 pages, then unmapped, with two one-page areas in its place. *)
Definition demo_replaced : vm_state :=
  VmState (Mm [Vma 0x40000 0x41000 11 0 0 0 0 0; Vma 0x41000 0x42000 9 0 0 0 0 0] 0x40000 0x50000 VMM_MMAP_BASE) [] ∅ ∅ ∅ [].

Definition view_of (s : vm_state) (addr : Z) := view (vmas (vm_mm s)) addr.

(** The second half of [vm_calls_correct]. *)
Lemma vm_call_gaps :
  ((fun '(s, r) => (r, view_of s r)) <$> mmap_anon demo_vm 0xffff800000000000 4096 3 MAP_FIXED =
     Some (0xffff800000000000, Some (11, (0, 0), (0, 0, false)))) /\
  ((fun '(s, r) => view_of s r) <$> mmap_anon demo_vm 0 4096 (PROT_WRITE + PROT_EXEC) 2 =
     Some (Some (VMA_W + VMA_X + VMA_ANON, (0, 0), (0, 0, false)))) /\
  (view_of demo_heap 0x40000 <> None /\ snd (sys_brk true demo_heap 0x46000) = u64 (- ENOMEM) /\
     brk (vm_mm (fst (sys_brk true demo_heap 0x46000))) = 0x42000 /\ view_of (fst (sys_brk true demo_heap 0x46000)) 0x40000 = None) /\
  (let s := fst (sys_brk true demo_heap 0x41800) in
     brk (vm_mm s) = 0x41800 /\ view_of s 0x41000 <> None /\ pages s !! 0x41 = None /\ released s = [7]) /\
  (areas_ok (vmas (vm_mm demo_replaced)) /\ let s := fst (sys_brk true demo_replaced 0x48000) in
     vmas (vm_mm s) = [Vma 0x40000 0x48000 11 0 0 0 0 0; Vma 0x41000 0x42000 9 0 0 0 0 0]) /\
  ((fun '(s, r) => (r, mmap_base (vm_mm s))) <$> mmap_anon demo_vm 0 (2 ^ 64 - 0x4000000) 3 2 =
     Some (u64 (- ENOMEM), VMM_MMAP_BASE + 0x4000000)) /\
  (view_of demo_vm 0x21000 = Some (65, (0, 0), (5, 0x2000, true)) /\
     view_of (fst (sys_munmap true demo_vm 0x20000 4096)) 0x21000 = Some (65, (0, 0), (5, 0x1000, true))) /\
  (snd (sys_munmap false demo_vm 0x11000 4096) = 0 /\ view_of (fst (sys_munmap false demo_vm 0x11000 4096)) 0x11000 <> None).
Proof.
  split; [vm_compute; reflexivity|]. split; [vm_compute; reflexivity|]. split; [split_and!; vm_compute; reflexivity || discriminate|].
  split; [cbv zeta; split_and!; vm_compute; reflexivity || discriminate|].
  split; [split; [split; unfold demo_replaced, area_ok, before; repeat constructor; cbn; lia || done|vm_compute; reflexivity]|].
  split; [vm_compute; reflexivity|]. split; split; vm_compute; reflexivity || discriminate.
Qed.

(** C39: every sequence of mmap and munmap calls, with any arguments, any kind
    of object, any failures of allocation and grace periods at any time,
    comes to an end and keeps the areas sorted, disjoint and page-aligned,
    and every file and shared object at one reference for each area that has
    it. (1) mmap accepts a fixed address in the kernel half and (2) an area
    both writable and executable. (3) A brk that cannot grow the heap has
    already unmapped it. (4) A brk that shrinks the heap to the middle of a
    page releases that page, although the heap still has its first half. (5)
    When the heap has been replaced by other mappings, shrinking it
    stretches the area at its start over the next one. (6) A length so large
    that the sum with the lower limit wraps moves the base for later
    mappings up, although the call fails. (7) Unmapping the first page of a
    file mapping shifts what the remaining pages show by that page. (8)
    Unmapping the middle of an area without memory for the second half
    reports success and unmaps nothing. *)
Theorem vm_calls_correct :
  (forall bf bs l s,
  call_inv bf bs s -> Forall call_ok l ->
    exists s', vm_runs l s = Some s' /\ call_inv bf bs s') /\
  (((fun '(s, r) => (r, view_of s r)) <$> mmap_anon demo_vm 0xffff800000000000 4096 3 MAP_FIXED =
     Some (0xffff800000000000, Some (11, (0, 0), (0, 0, false)))) /\
  ((fun '(s, r) => view_of s r) <$> mmap_anon demo_vm 0 4096 (PROT_WRITE + PROT_EXEC) 2 =
     Some (Some (VMA_W + VMA_X + VMA_ANON, (0, 0), (0, 0, false)))) /\
  (view_of demo_heap 0x40000 <> None /\ snd (sys_brk true demo_heap 0x46000) = u64 (- ENOMEM) /\
     brk (vm_mm (fst (sys_brk true demo_heap 0x46000))) = 0x42000 /\ view_of (fst (sys_brk true demo_heap 0x46000)) 0x40000 = None) /\
  (let s := fst (sys_brk true demo_heap 0x41800) in
     brk (vm_mm s) = 0x41800 /\ view_of s 0x41000 <> None /\ pages s !! 0x41 = None /\ released s = [7]) /\
  (areas_ok (vmas (vm_mm demo_replaced)) /\ let s := fst (sys_brk true demo_replaced 0x48000) in
     vmas (vm_mm s) = [Vma 0x40000 0x48000 11 0 0 0 0 0; Vma 0x41000 0x42000 9 0 0 0 0 0]) /\
  ((fun '(s, r) => (r, mmap_base (vm_mm s))) <$> mmap_anon demo_vm 0 (2 ^ 64 - 0x4000000) 3 2 =
     Some (u64 (- ENOMEM), VMM_MMAP_BASE + 0x4000000)) /\
  (view_of demo_vm 0x21000 = Some (65, (0, 0), (5, 0x2000, true)) /\
     view_of (fst (sys_munmap true demo_vm 0x20000 4096)) 0x21000 = Some (65, (0, 0), (5, 0x1000, true))) /\
  (snd (sys_munmap false demo_vm 0x11000 4096) = 0 /\ view_of (fst (sys_munmap false demo_vm 0x11000 4096)) 0x11000 <> None)).
Proof. exact (conj vm_calls_safe vm_call_gaps). Qed.

Lemma vm_calls_correct_witness : exists s', vm_runs demo_calls demo_vm = Some s' /\ call_inv (fun _ => 0) (fun _ => 0) s'.
Proof.
  apply (proj1 vm_calls_correct).
  - split; [apply demo_vm_inv|]. unfold u64_range. cbn. split; [lia|reflexivity].
  - unfold demo_calls, call_ok, u64_range, object_ok. repeat constructor; lia.
Defined.
