(* ===== verification/Frames.v ===== *)
(** * Page frames: what the page tables rely on

    The virtual memory code takes single frames from the physical allocator,
    shares them by reference count and pins them for device access.  The
    operations are a class, so that the page-table theorems are proved against
    what the allocator promises and hold for every implementation of it; the
    promise is kept by the allocator of kernel/mm/pmm.c in [PmmFrames].

    The promise is stated on a map from the frames held by clients to their
    reference counts.  A frame that is allocated was not held, a frame leaves the
    map when its last reference is dropped, and no operation changes the count
    of another frame. *)

From S2P Require Import Prelude DList Buddy.

Abbreviation PAGE_ADDR_MASK := 0x000FFFFFFFFFF000%Z (only parsing).

(** A page-aligned address that fits in a page-table entry. *)
Definition frame_addr (f : Z) : Prop := Z.land f PAGE_ADDR_MASK = f.
#[export] Instance frame_addr_dec f : Decision (frame_addr f) := _.

Class FrameOps (A : Type) := {
  fr_alloc : A -> option (A * Z);
  fr_free : A -> Z -> option A;
  fr_ref_inc : A -> Z -> option A;
  fr_ref_dec : A -> Z -> option A;
  fr_ref_get : A -> Z -> option Z;
  fr_pin : A -> Z -> option A;
  fr_pin_get : A -> Z -> option Z;
}.

(** The held frames after one reference to [f] is dropped. *)
Definition drop_ref (M : gmap Z Z) (f : Z) : gmap Z Z :=
  match M !! f with
  | Some n => if n =? 1 then delete f M else <[f := n - 1]> M
  | None => M
  end.

Class FrameLaws (A : Type) `{FrameOps A} := {
  fr_rep : A -> gmap Z Z -> Prop;
  fr_ram : Z -> Prop;
  fr_held a M f n : fr_rep a M -> M !! f = Some n -> fr_ram f /\ 1 <= n;
  fr_ram_addr f : fr_ram f -> frame_addr f /\ f <> PMM_INVALID_ADDR;
  fr_ram_pos f : fr_ram f -> f <> 0;
  fr_alloc_ok a M : fr_rep a M ->
    exists a' r, fr_alloc a = Some (a', r) /\
      ((r = PMM_INVALID_ADDR /\ fr_rep a' M) \/ (fr_ram r /\ M !! r = None /\ fr_rep a' (<[r := 1]> M)));
  fr_free_ok a M f : fr_rep a M -> M !! f = Some 1 -> exists a', fr_free a f = Some a' /\ fr_rep a' (delete f M);
  fr_inc_ok a M f n : fr_rep a M -> M !! f = Some n -> n < 2 ^ 32 - 1 ->
    exists a', fr_ref_inc a f = Some a' /\ fr_rep a' (<[f := n + 1]> M);
  fr_dec_ok a M f n : fr_rep a M -> M !! f = Some n -> exists a', fr_ref_dec a f = Some a' /\ fr_rep a' (drop_ref M f);
  fr_get_ok a M f n : fr_rep a M -> M !! f = Some n -> fr_ref_get a f = Some n;
  fr_pin_ok a M f : fr_rep a M -> frame_addr f -> exists a', fr_pin a f = Some a' /\ fr_rep a' M;
  fr_pin_get_ok a M f : fr_rep a M -> frame_addr f -> exists n, fr_pin_get a f = Some n;
}.
