(* ===== verification/PmmFrames.v ===== *)
(** * The physical allocator as a supplier of page frames

    [pmm_buddy_alloc], [pmm_buddy_free] and the reference and pin counters of
    kernel/mm/pmm.c keep the promise of [Frames]: the held frames are single
    blocks of the clients, the counts in the map are the ones in
    [g_frame_refcount], and a frame leaves the map when it is released (or, while
    a device still uses it, leaked).  Pin counts survive every allocator
    operation, which is the one fact about them that the other files do not
    need. *)

From S2P Require Import Prelude DList Buddy BuddySpec BuddyTrace PmmRef PmmSpec Pcp PcpSpec Slab SlabSpec SlabShrink Pmm PmmTrace Frames.

(** ** Pin counts *)

Create HintDb pins.

Ltac pins_tac :=
  repeat match goal with
  | H : Some _ = Some _ |- _ => injection H as H; subst
  | H : (_, _) = (_, _) |- _ => injection H as H; subst
  | H : @mbind option _ _ _ _ _ = Some _ |- _ => progress (bind_inv H)
  | H : (let '(_, _) := _ in _) = Some _ |- _ => progress (bind_inv H)
  | H : (if _ then _ else _) = Some _ |- _ => progress (bind_inv H)
  | p : (_ * _)%type |- _ => destruct p
  | H : None = Some _ |- _ => discriminate H
  end.
Ltac pins_chain :=
  repeat match goal with
  | |- pincount ?b = pincount ?b => reflexivity
  | H : _ = Some ?b |- pincount ?b = _ => etrans; [solve [eauto with pins nocore]|]; clear H
  | H : _ = Some (?b, _) |- pincount ?b = _ => etrans; [solve [eauto with pins nocore]|]; clear H
  | H : _ = Some (?b, _, _) |- pincount ?b = _ => etrans; [solve [eauto with pins nocore]|]; clear H
  | |- pincount ?b = pincount _ => progress cbn
  end.

Lemma push_pins s o x s' : free_list_push s o x = Some s' -> pincount s' = pincount s.
Proof. unfold free_list_push. intros H. pins_tac. done. Qed.
Lemma remove_pins s o x s' : free_list_remove s o x = Some s' -> pincount s' = pincount s.
Proof. unfold free_list_remove. intros H. pins_tac. done. Qed.
Lemma pop_pins s o s' r : free_list_pop s o = Some (s', r) -> pincount s' = pincount s.
Proof. unfold free_list_pop. intros H. pins_tac; done. Qed.
Lemma toggle_pins s o i s' : bit_toggle s o i = Some s' -> pincount s' = pincount s.
Proof. unfold bit_toggle. intros H. pins_tac. done. Qed.
#[export] Hint Resolve push_pins remove_pins pop_pins toggle_pins : pins.

Lemma split_pins n : forall s o b s', split_down s n o b = Some s' -> pincount s' = pincount s.
Proof. induction n as [|n IH]; intros s o b s' H; cbn [split_down] in H; pins_tac; [done|]. pins_chain. Qed.
Lemma merge_pins n : forall s o b a s' o' a', merge_up s n o b a = Some (s', o', a') -> pincount s' = pincount s.
Proof.
  induction n as [|n IH]; intros s o b a s' o' a' H; cbn [merge_up] in H; pins_tac; pins_chain.
Qed.
Lemma mark_pins n : forall s f s' r, mark_frames s n f = Some (s', r) -> pincount s' = pincount s.
Proof.
  induction n as [|n IH]; intros s f s' r H; cbn [mark_frames] in H; pins_tac; [done|by eapply IH|].
  match goal with E : mark_frames _ _ _ = _ |- _ => apply IH in E; exact E end.
Qed.
Lemma clear_pins n : forall s f s', clear_refs s n f = Some s' -> pincount s' = pincount s.
Proof.
  induction n as [|n IH]; intros s f s' H; cbn [clear_refs] in H; pins_tac; [done| |]; by apply IH in H.
Qed.
#[export] Hint Resolve split_pins merge_pins mark_pins clear_pins : pins.

Lemma buddy_alloc_pins s o s' r : pmm_buddy_alloc_locked s o = Some (s', r) -> pincount s' = pincount s.
Proof. unfold pmm_buddy_alloc_locked. intros H. pins_tac; pins_chain. Qed.
Lemma buddy_free_pins s a o s' : pmm_buddy_free_locked s a o = Some s' -> pincount s' = pincount s.
Proof. unfold pmm_buddy_free_locked. intros H. pins_tac; pins_chain. Qed.
#[export] Hint Resolve buddy_alloc_pins buddy_free_pins : pins.

Lemma refill_batch_pins n : forall s l s' l', refill_batch s n l = Some (s', l') -> pincount s' = pincount s.
Proof.
  induction n as [|n IH]; intros s l s' l' H; cbn [refill_batch] in H; pins_tac; pins_chain.
Qed.
Lemma free_batch_pins l : forall s s', free_batch s l = Some s' -> pincount s' = pincount s.
Proof.
  induction l as [|x l IH]; intros s s' H; cbn [free_batch] in H; [by pins_tac|].
  unfold pmm_buddy_free_locked_for_pcp in H. pins_tac. apply IH in H. rewrite H. cbn. eauto with pins.
Qed.
#[export] Hint Resolve refill_batch_pins free_batch_pins : pins.

Lemma pcp_alloc_pins s c s' c' r : pcp_alloc s c = Some (s', c', r) -> pincount s' = pincount s.
Proof.
  unfold pcp_alloc, pcp_refill_one. intros H. pins_tac; [|done].
  match goal with l : list Z |- _ => destruct l end; pins_tac; pins_chain.
Qed.
Lemma drain_one_pins s c n s' c' : pcp_drain_one s c n = Some (s', c') -> pincount s' = pincount s.
Proof. unfold pcp_drain_one. intros H. pins_tac; pins_chain. Qed.
Lemma ref_zero_pins s x s' : pmm_ref_zero s x = Some s' -> pincount s' = pincount s.
Proof. unfold pmm_ref_zero. intros H. pins_tac; done. Qed.
#[export] Hint Resolve drain_one_pins ref_zero_pins : pins.

Lemma pcp_free_loop_pins n : forall s c x s' c', pcp_free_loop s c n x = Some (s', c') -> pincount s' = pincount s.
Proof. induction n as [|n IH]; intros s c x s' c' H; cbn [pcp_free_loop] in H; pins_tac; pins_chain. Qed.
#[export] Hint Resolve pcp_free_loop_pins : pins.
Lemma pcp_free_pins s c x s' c' : pcp_free s c x = Some (s', c') -> pincount s' = pincount s.
Proof. unfold pcp_free. intros H. pins_tac; pins_chain. Qed.
#[export] Hint Resolve pcp_alloc_pins pcp_free_pins : pins.

(** The slab pages that an allocation gives back leave the counts alone too. *)
Definition spins (s s' : slabs) : Prop := pincount (sl_buddy s') = pincount (sl_buddy s).

Lemma upd_header_pins s a g s' : upd_header s a g = Some s' -> spins s s'.
Proof. unfold upd_header. intros H. by pins_tac. Qed.
Lemma slab_remove_pins s k w a s' : slab_list_remove s k w a = Some s' -> spins s s'.
Proof. unfold slab_list_remove. intros H. by pins_tac. Qed.
Lemma set_frames_pins n : forall s f t hd s', set_frames s n f t hd = Some s' -> spins s s'.
Proof.
  induction n as [|n IH]; intros s f t hd s' H; cbn [set_frames] in H; pins_tac; [done..|]. by apply IH in H.
Qed.
Lemma drain_remote_pins s a s' : drain_remote_into_freelist_locked s a = Some s' -> spins s s'.
Proof.
  unfold drain_remote_into_freelist_locked. intros H. pins_tac; [by eapply upd_header_pins|].
  apply upd_header_pins in E0, H. unfold spins in *. by rewrite H, <- E0.
Qed.
Lemma release_pins s k a s' : pmm_slab_release_to_buddy_locked s k a = Some s' -> spins s s'.
Proof.
  unfold pmm_slab_release_to_buddy_locked. intros H. pins_tac. apply set_frames_pins in E1.
  apply buddy_free_pins in E2. unfold spins in *. cbn. by rewrite E2.
Qed.
Lemma destroy_pins s k a s' : pmm_slab_destroy_locked s k a = Some s' -> spins s s'.
Proof.
  unfold pmm_slab_destroy_locked. intros H. bind_inv H.
  all: assert (Hr : spins s s2) by (apply drain_remote_pins in E; unfold spins in *; rewrite <- E;
    repeat match goal with H : (if _ then _ else _) = Some _ |- _ => bind_inv H end;
    first [by eapply slab_remove_pins|by simplify_eq]).
  - apply upd_header_pins in E4. unfold spins in *. simplify_eq. cbn. by rewrite E4, Hr.
  - apply upd_header_pins in E4. apply release_pins in H. unfold spins in *. by rewrite H, E4, Hr.
Qed.
Lemma shrink_cache_pins n : forall s k s', shrink_cache s n k = Some s' -> spins s s'.
Proof.
  induction n as [|n IH]; intros s k s' H; cbn [shrink_cache] in H; pins_tac; [done..|].
  apply IH in H. apply destroy_pins in E1. unfold spins in *. by rewrite H.
Qed.
Lemma shrink_caches_pins m : forall s k s', shrink_caches s m k = Some s' -> spins s s'.
Proof.
  induction m as [|m IH]; intros s k s' H; cbn [shrink_caches] in H; pins_tac; [done..|].
  apply IH in H. apply shrink_cache_pins in E0. unfold spins in *. by rewrite H.
Qed.

Lemma stamp_pins p x o p' : stamp p x o = Some p' -> pincount (pm_buddy p') = pincount (pm_buddy p).
Proof. unfold stamp, pmm_mark_allocated. intros H. pins_tac. by apply mark_pins in E. Qed.
Lemma alloc_slow_frame p o p' r : pmm_buddy_alloc_slow p o = Some (p', r) ->
  pincount (pm_buddy p') = pincount (pm_buddy p) /\ pm_cpus p' = pm_cpus p.
Proof.
  unfold pmm_buddy_alloc_slow. intros H. bind_inv H; apply buddy_alloc_pins in E;
  assert (Hm : pincount (pm_buddy p0) = pincount (pm_buddy p) /\ pm_cpus p0 = pm_cpus p)
    by (destruct (z =? PMM_INVALID_ADDR); pins_tac; [|done]; split; [|done];
        match goal with Ha : pmm_slab_shrink_all_locked _ = _, Hb : pmm_buddy_alloc_locked _ _ = _ |- _ =>
          apply shrink_caches_pins in Ha; apply buddy_alloc_pins in Hb; unfold spins, pm_buddy in *; cbn in *; congruence end);
  injection H as <- <-; [|done].
  pose proof E2 as E3. apply stamp_pins in E3. unfold stamp in E2. clear E0. pins_tac. split; [rewrite E3|]; apply Hm.
Qed.
Lemma pmm_alloc_pins p cpu o p' r : pmm_buddy_alloc p cpu o = Some (p', r) -> pincount (pm_buddy p') = pincount (pm_buddy p).
Proof.
  unfold pmm_buddy_alloc. intros H. pins_tac.
  - apply pcp_alloc_pins in E1. apply stamp_pins in E3. by rewrite E3.
  - apply pcp_alloc_pins in E1. apply alloc_slow_frame in H as [H _]. by rewrite H.
  - by eapply alloc_slow_frame.
Qed.
Lemma pmm_free_pins p cpu x o p' : pmm_buddy_free p cpu x o = Some p' -> pincount (pm_buddy p') = pincount (pm_buddy p).
Proof. unfold pmm_buddy_free. intros H. pins_tac; cbn; eauto with pins. Qed.
Lemma ref_dec_pins b x b' r : pmm_ref_dec b x = Some (b', r) -> pincount b' = pincount b.
Proof. unfold pmm_ref_dec. intros H. pins_tac; try done. match goal with E : pmm_buddy_free_locked _ _ _ = _ |- _ => by apply buddy_free_pins in E end. Qed.
Lemma ref_inc_pins b x b' r : pmm_ref_inc b x = Some (b', r) -> pincount b' = pincount b.
Proof. unfold pmm_ref_inc. intros H. by pins_tac. Qed.

(** No CPU's stash goes away. *)
Lemma pmm_alloc_cpus p cpu o p' r : pmm_buddy_alloc p cpu o = Some (p', r) -> length (pm_cpus p') = length (pm_cpus p).
Proof.
  unfold pmm_buddy_alloc. intros H. bind_inv H.
  - unfold stamp in E3. pins_tac. cbn. by rewrite length_insert.
  - apply alloc_slow_frame in H as [_ H]. rewrite H. cbn. by rewrite length_insert.
  - apply alloc_slow_frame in H as [_ H]. by rewrite H.
Qed.
Lemma pmm_free_cpus p cpu x o p' : pmm_buddy_free p cpu x o = Some p' -> length (pm_cpus p') = length (pm_cpus p).
Proof. unfold pmm_buddy_free. intros H. pins_tac; cbn; by rewrite ?length_insert. Qed.

(** The allocator does not look at the pin counts. *)
Lemma inv_pins p l A L T U G regs m :
  pmm_inv T U G regs p l A L -> pmm_inv T U G regs (with_pm_buddy p (with_pincount (pm_buddy p) m)) l A L.
Proof.
  intros [Hs Hpl Hcpu Hreg Hgo]. constructor; try done.
  - eapply slab_inv_buddy; [exact Hs|]. destruct (si_div _ _ _ _ _ _ _ Hs) as (F & (C & HR) & Hr).
    exists F. split; [|done]. split; [|exact HR]. by destruct C; constructor.
  - eapply Forall_impl; [exact Hcpu|]. intros c [H0 H1 H2 H3]. by constructor.
Qed.

(** ** The supplier *)

Section supplier.
Context (cpu : nat).

(** The calls of one CPU. *)
Definition pmm_frames : FrameOps pmm := {|
  fr_alloc p := pmm_buddy_alloc p cpu 0;
  fr_free p f := pmm_buddy_free p cpu f 0;
  fr_ref_inc p f := '(b, _) ← pmm_ref_inc (pm_buddy p) f; Some (with_pm_buddy p b);
  fr_ref_dec p f := '(b, _) ← pmm_ref_dec (pm_buddy p) f; Some (with_pm_buddy p b);
  fr_ref_get p f := pmm_ref_get (pm_buddy p) f;
  fr_pin p f := b ← pmm_pin (pm_buddy p) f; Some (with_pm_buddy p b);
  fr_pin_get p f := pmm_pin_get (pm_buddy p) f;
|}.

Context (T : Z) (U : Z -> Prop) (G : gmap Z slab_cache) (regs : list Z).
(** The blocks of the allocator's other clients. *)
Context (rest : list (Z * Z)).
Hypothesis HT : T <= 2 ^ 40.
(** The first frame is reserved. *)
Hypothesis HU : ~ U 0.

Definition frame_block (f : Z) : Z * Z := (Z.shiftr f PAGE_SHIFT, 0).
Definition held_blocks (M : gmap Z Z) : list (Z * Z) := frame_block ∘ fst <$> map_to_list M.

Record rep (p : pmm) (M : gmap Z Z) : Prop := {
  rep_inv : exists leaked A L, pmm_inv T U G regs p (held_blocks M ++ leaked ++ rest) A L;
  rep_count f n : M !! f = Some n ->
    f = Z.shiftr f PAGE_SHIFT * PAGE_SIZE /\ 1 <= n /\ refcount (pm_buddy p) !! Z.shiftr f PAGE_SHIFT = Some n;
  rep_pins i : 0 <= i < T -> is_Some (pincount (pm_buddy p) !! i);
  rep_cpu : is_Some (pm_cpus p !! cpu);
}.

Definition is_ram (f : Z) : Prop := f = Z.shiftr f PAGE_SHIFT * PAGE_SIZE /\ 0 < Z.shiftr f PAGE_SHIFT < T.

Lemma held_split M f n : M !! f = Some n -> held_blocks M ≡ₚ frame_block f :: held_blocks (delete f M).
Proof.
  intros Hf. unfold held_blocks. rewrite <- (insert_delete_id M f n) at 1 by done.
  by rewrite map_to_list_insert by by rewrite lookup_delete_eq.
Qed.

Lemma inv_front p M f n leaked A L : M !! f = Some n ->
  pmm_inv T U G regs p (held_blocks M ++ leaked ++ rest) A L ->
  pmm_inv T U G regs p (frame_block f :: held_blocks (delete f M) ++ leaked ++ rest) A L.
Proof. intros Hf. apply pmm_inv_perm. by rewrite (held_split M f n). Qed.

Lemma rep_total p M : rep p M -> total_frames (pm_buddy p) = T.
Proof.
  intros [(lk & A & L & [Hs]) _ _ _]. destruct (si_div _ _ _ _ _ _ _ Hs) as (F & _ & _ & Ht & _). exact Ht.
Qed.

(** A client's frame is a usable one. *)
Lemma client_usable p f l A L : pmm_inv T U G regs p ((f, 0) :: l) A L -> U f.
Proof.
  intros [Hs]. destruct (si_div _ _ _ _ _ _ _ Hs) as (F & _ & _ & _ & _ & _ & HUf & _). apply HUf. right.
  unfold owned_frames. rewrite !bind_app, bind_cons, !elem_of_app. right. right. left. apply elem_of_seqZ. cbn. lia.
Qed.

Lemma rep_ram p M f n : rep p M -> M !! f = Some n -> is_ram f.
Proof.
  intros Hr Hf. pose proof (rep_total _ _ Hr) as Ht. destruct Hr as [(lk & A & L & Hi) Hc _ _].
  destruct (Hc f n Hf) as (He & _ & _). split; [done|]. apply (inv_front _ _ f n) in Hi; [|done].
  pose proof (held_view T U G regs p [] (Z.shiftr f PAGE_SHIFT) _ A L Hi) as Hd.
  pose proof (client_usable _ _ _ _ _ Hi) as Hu. apply held_frame in Hd as [Hd _]. rewrite Ht in Hd.
  assert (Z.shiftr f PAGE_SHIFT <> 0) by congruence. lia.
Qed.

Lemma frame_shiftr i : Z.shiftr (i * PAGE_SIZE) PAGE_SHIFT = i.
Proof. rewrite PAGE_SIZE_val. unfold PAGE_SHIFT. rewrite Z.shiftr_div_pow2 by lia. apply Z.div_mul. lia. Qed.

Lemma ram_addr f : is_ram f -> frame_addr f /\ f <> PMM_INVALID_ADDR.
Proof.
  intros [He Hr]. split; [|rewrite He; apply page_not_invalid]. rewrite PAGE_SIZE_val in He. unfold frame_addr.
  change PAGE_ADDR_MASK with (Z.shiftl (Z.ones 40) 12). rewrite He at 1.
  replace (Z.shiftr f PAGE_SHIFT * 4096) with (Z.shiftl (Z.shiftr f PAGE_SHIFT) 12) by (rewrite Z.shiftl_mul_pow2; lia).
  rewrite <- Z.shiftl_land, Z.land_ones, Z.mod_small, Z.shiftl_mul_pow2 by lia. lia.
Qed.

Lemma counted_owned M f n bs : M !! f = Some n -> Z.shiftr f PAGE_SHIFT ∈ owned_frames (held_blocks M ++ bs).
Proof.
  intros Hf. unfold owned_frames. apply list_elem_of_bind. exists (frame_block f).
  split; [cbn; apply elem_of_seqZ; lia|]. apply elem_of_app. left.
  apply list_elem_of_fmap. exists (f, n). split; [done|]. by apply elem_of_map_to_list.
Qed.

Lemma block_of_frame i : frame_block (i * PAGE_SIZE) = (i, 0).
Proof. unfold frame_block. by rewrite frame_shiftr. Qed.

Lemma held_blocks_insert M f n : M !! f = None -> held_blocks (<[f := n]> M) ≡ₚ frame_block f :: held_blocks M.
Proof. intros Hf. unfold held_blocks. by rewrite map_to_list_insert. Qed.

(** Two held frames that share an index are one. *)
Lemma rep_index p M f g n m : rep p M -> M !! f = Some n -> M !! g = Some m ->
  Z.shiftr f PAGE_SHIFT = Z.shiftr g PAGE_SHIFT -> f = g.
Proof.
  intros Hr Hf Hg He. destruct (rep_count _ _ Hr _ _ Hf) as [-> _]. destruct (rep_count _ _ Hr _ _ Hg) as [-> _]. by f_equal.
Qed.

Lemma rep_alloc p M : rep p M ->
  exists p' r, pmm_buddy_alloc p cpu 0 = Some (p', r) /\
    ((r = PMM_INVALID_ADDR /\ rep p' M) \/ (is_ram r /\ M !! r = None /\ rep p' (<[r := 1]> M))).
Proof.
  intros Hr. pose proof Hr as [(lk & A & L & Hi) Hc Hp Hcpu].
  destruct (pmm_alloc_spec T U G regs p _ A L cpu 0 Hi Hcpu ltac:(lia)) as (p' & r & Hrun & (A' & L' & _ & _ & Hout) & Hsm).
  exists p', r. split; [done|].
  assert (Hp' : forall i, 0 <= i < T -> is_Some (pincount (pm_buddy p') !! i)) by by rewrite (pmm_alloc_pins _ _ _ _ _ Hrun).
  assert (Hcpu' : is_Some (pm_cpus p' !! cpu)).
  { apply lookup_lt_is_Some. rewrite (pmm_alloc_cpus _ _ _ _ _ Hrun). by apply lookup_lt_is_Some. }
  assert (Hc' : forall f n, M !! f = Some n -> f = Z.shiftr f PAGE_SHIFT * PAGE_SIZE /\ 1 <= n /\
    refcount (pm_buddy p') !! Z.shiftr f PAGE_SHIFT = Some n).
  { intros f n Hf. rewrite (Hsm _ (counted_owned M f n _ Hf)). by apply Hc. }
  destruct Hout as [(-> & Hi' & _)|(f & -> & _ & Hb & Hi' & Hrc)]; [left; split; [done|]; by constructor; eauto|].
  right. apply block_ok_0 in Hb.
  assert (Hnone : M !! (f * PAGE_SIZE) = None).
  { apply eq_None_not_Some. intros [n Hn]. pose proof (counted_owned M _ _ (lk ++ rest) Hn) as Ho.
    rewrite frame_shiftr in Ho. apply (client_apart T U G regs p' f 0 _ A' L') in Ho; [lia|done]. }
  pose proof (client_usable _ _ _ _ _ Hi') as Hu. assert (f <> 0) by congruence.
  split_and!; [split; rewrite frame_shiftr; [done|lia]|done|]. constructor; [|..|done|done].
  - exists lk, A', L'. eapply pmm_inv_perm; [|exact Hi']. by rewrite held_blocks_insert, block_of_frame by done.
  - intros g n. destruct (decide (g = f * PAGE_SIZE)) as [->|Hne].
    + rewrite lookup_insert_eq. intros [= <-]. rewrite frame_shiftr. split_and!; [done|lia|apply Hrc; lia].
    + rewrite lookup_insert_ne by done. by apply Hc'.
Qed.

Lemma rep_free p M f : rep p M -> M !! f = Some 1 -> exists p', pmm_buddy_free p cpu f 0 = Some p' /\ rep p' (delete f M).
Proof.
  intros Hr Hf. pose proof Hr as [(lk & A & L & Hi) Hc Hp Hcpu]. destruct (Hc f 1 Hf) as (He & _ & _).
  apply (inv_front _ _ f 1) in Hi; [|done].
  destruct (pmm_free_spec T U G regs p [] (Z.shiftr f PAGE_SHIFT) 0 _ A L cpu Hi Hcpu) as (p' & Hrun & Hi' & _ & Hsm).
  rewrite <- He in Hrun. exists p'. split; [done|]. constructor; [by exists lk, A, L|..].
  - intros g n Hg. rewrite Hsm; [apply Hc; by apply lookup_delete_Some in Hg as [_ ?]|by eapply counted_owned].
  - by rewrite (pmm_free_pins _ _ _ _ _ Hrun).
  - apply lookup_lt_is_Some. rewrite (pmm_free_cpus _ _ _ _ _ Hrun). by apply lookup_lt_is_Some.
Qed.

Lemma rep_inc p M f n : rep p M -> M !! f = Some n -> n < 2 ^ 32 - 1 ->
  exists b r, pmm_ref_inc (pm_buddy p) f = Some (b, r) /\ rep (with_pm_buddy p b) (<[f := n + 1]> M).
Proof.
  intros Hr Hf Hn. pose proof Hr as [(lk & A & L & Hi) Hc Hp Hcpu]. destruct (Hc f n Hf) as (He & H1 & Hrc).
  apply (inv_front _ _ f n) in Hi; [|done].
  destruct (ref_inc_spec T U _ _ _ _ _ (held_view T U G regs p [] _ _ A L Hi) Hrc) as (b & Hrun & HD & Hr').
  rewrite <- He in Hrun. exists b, (n =? 0). split; [done|]. constructor; [|..|done].
  - exists lk, A, L. eapply pmm_inv_perm; [|eapply (ref_step _ _ _ _ p []); [exact Hi| |]].
    + rewrite <- insert_delete_eq, held_blocks_insert by by rewrite lookup_delete_eq. done.
    + intros x Hx. rewrite Hr'. by case_decide.
    + by rewrite <- !app_assoc in HD.
  - intros g m. change (pm_buddy (with_pm_buddy p b)) with b. rewrite Hr'. destruct (decide (g = f)) as [->|Hne].
    + rewrite lookup_insert_eq. intros [= <-]. rewrite decide_True by done. unfold u32.
      rewrite Z.mod_small by lia. split_and!; [done|lia|done].
    + rewrite lookup_insert_ne by done. intros Hg. rewrite decide_False; [by apply Hc|].
      intros Hx. apply Hne. by eapply (rep_index p M).
  - change (pm_buddy (with_pm_buddy p b)) with b. by rewrite (ref_inc_pins _ _ _ _ Hrun).
Qed.

Lemma rep_dec p M f n : rep p M -> M !! f = Some n ->
  exists b r, pmm_ref_dec (pm_buddy p) f = Some (b, r) /\ rep (with_pm_buddy p b) (drop_ref M f).
Proof.
  intros Hr Hf. pose proof Hr as [(lk & A & L & Hi) Hc Hp Hcpu]. destruct (Hc f n Hf) as (He & H1 & Hrc).
  apply (inv_front _ _ f n) in Hi; [|done]. destruct (Hp (Z.shiftr f PAGE_SHIFT)) as [pins Hpins].
  { destruct (rep_ram p M f n Hr Hf). lia. }
  destruct (ref_dec_spec T U _ _ _ _ _ _ (held_view T U G regs p [] _ _ A L Hi) Hrc Hpins) as (b & Hrun & HD & Hr').
  rewrite <- He in Hrun. eexists b, _. split; [done|]. constructor; [|..|done].
  - assert (Hst : forall bs, divided T U (b, page_blocks A ++ blocks (all_stashes (pm_cpus p)) ++ bs) ->
      pmm_inv T U G regs (with_pm_buddy p b) bs A L).
    { intros bs Hd. eapply (ref_step _ _ _ _ p []); [exact Hi| |exact Hd]. intros x Hx. rewrite Hr'. by case_decide. }
    unfold drop_ref, last_ref in *. rewrite Hf. destruct (Z.eqb_spec n 1) as [->|Hn1]; cbn [andb] in HD.
    + destruct (0 <? pins); cbn [negb] in HD; rewrite <- !app_assoc in HD; apply Hst in HD;
        [exists (frame_block f :: lk), A, L|by exists lk, A, L].
      eapply pmm_inv_perm; [|exact HD]. cbn [app]. by rewrite <- Permutation_middle.
    + exists lk, A, L. rewrite <- !app_assoc in HD. apply Hst in HD. eapply pmm_inv_perm; [|exact HD].
      rewrite <- insert_delete_eq, held_blocks_insert by by rewrite lookup_delete_eq. done.
  - intros g m Hg. change (pm_buddy (with_pm_buddy p b)) with b. rewrite Hr'. unfold drop_ref in Hg. rewrite Hf in Hg.
    destruct (decide (g = f)) as [->|Hne].
    + destruct (Z.eqb_spec n 1); [by rewrite lookup_delete_eq in Hg|]. rewrite lookup_insert_eq in Hg. injection Hg as <-.
      rewrite decide_True by done. destruct (Z.eqb_spec n 0); [lia|]. split_and!; [done|lia|done].
    + assert (Hg' : M !! g = Some m) by (destruct (n =? 1); by rewrite ?lookup_delete_ne, ?lookup_insert_ne in Hg).
      rewrite decide_False; [by apply Hc|]. intros Hx. apply Hne. by eapply (rep_index p M).
  - change (pm_buddy (with_pm_buddy p b)) with b. by rewrite (ref_dec_pins _ _ _ _ Hrun).
Qed.

Lemma rep_get p M f n : rep p M -> M !! f = Some n -> pmm_ref_get (pm_buddy p) f = Some n.
Proof.
  intros Hr Hf. unfold pmm_ref_get. rewrite (rep_total _ _ Hr). destruct (rep_ram _ _ _ _ Hr Hf) as [_ Hlt].
  destruct (Z.leb_spec T (Z.shiftr f PAGE_SHIFT)); [lia|]. by apply (rep_count _ _ Hr).
Qed.

Lemma frame_addr_nonneg f : frame_addr f -> 0 <= Z.shiftr f PAGE_SHIFT.
Proof. intros Hf. apply Z.shiftr_nonneg. rewrite <- Hf. apply Z.land_nonneg. right. done. Qed.

Lemma rep_pin p M f : rep p M -> frame_addr f -> exists b, pmm_pin (pm_buddy p) f = Some b /\ rep (with_pm_buddy p b) M.
Proof.
  intros Hr Hf. apply frame_addr_nonneg in Hf. unfold pmm_pin. rewrite (rep_total _ _ Hr).
  destruct (Z.leb_spec T (Z.shiftr f PAGE_SHIFT)); [exists (pm_buddy p); split; [done|by rewrite with_pm_buddy_id]|].
  pose proof Hr as [(lk & A & L & Hi) Hc Hp Hcpu]. destruct (Hp (Z.shiftr f PAGE_SHIFT)) as [n Hn]; [lia|].
  rewrite Hn. cbn [mbind option_bind]. eexists. split; [done|]. constructor; [|done|..|done].
  - exists lk, A, L. by apply inv_pins.
  - intros i Hi'. cbn. destruct (decide (i = Z.shiftr f PAGE_SHIFT)) as [->|Hne];
      [rewrite lookup_insert_eq; by eexists|rewrite lookup_insert_ne by done; by apply Hp].
Qed.

Lemma rep_pin_get p M f : rep p M -> frame_addr f -> exists n, pmm_pin_get (pm_buddy p) f = Some n.
Proof.
  intros Hr Hf. apply frame_addr_nonneg in Hf. unfold pmm_pin_get. rewrite (rep_total _ _ Hr).
  destruct (Z.leb_spec T (Z.shiftr f PAGE_SHIFT)); [by exists 0|]. apply (rep_pins _ _ Hr). lia.
Qed.

Definition pmm_frame_laws : @FrameLaws pmm pmm_frames.
Proof.
  refine {| fr_rep := rep : _ -> _ -> Prop; fr_ram := is_ram |}.
  - intros p M f n Hr Hf. split; [by eapply rep_ram|]. by apply (rep_count _ _ Hr _ _ Hf).
  - exact ram_addr.
  - intros f [_ Hf] ->. rewrite Z.shiftr_0_l in Hf. lia.
  - exact rep_alloc.
  - exact rep_free.
  - intros p M f n Hr Hf Hn. cbn. destruct (rep_inc p M f n Hr Hf Hn) as (b & r & -> & Hr'). by eexists.
  - intros p M f n Hr Hf. cbn. destruct (rep_dec p M f n Hr Hf) as (b & r & -> & Hr'). by eexists.
  - exact rep_get.
  - intros p M f Hr Hf. cbn. destruct (rep_pin p M f Hr Hf) as (b & -> & Hr'). by eexists.
  - exact rep_pin_get.
Defined.

(** At the start nothing is held. *)
Lemma rep_empty p A L : pmm_inv T U G regs p rest A L -> (forall i, 0 <= i < T -> is_Some (pincount (pm_buddy p) !! i)) ->
  is_Some (pm_cpus p !! cpu) -> rep p ∅.
Proof. intros Hi Hp Hcpu. constructor; [by exists [], A, L|done|done|done]. Qed.
End supplier.
