(* ===== verification/PageTable.v ===== *)
(** * Page tables

    Models kernel/mm/vmm.c.  Physical memory is a map from frame addresses to
    pages of 512 words of 64 bits, of which the absent ones are zero; reaching a
    frame that is not there through the higher-half direct map is a fault.  The
    physical allocator is any implementation of [FrameOps].  The state of the
    hardware translation buffers is not modelled; [cur] is the page table loaded
    on the CPU where a function asks for it, and [kernel_pml4] the kernel's. *)

From S2P Require Import Prelude Errno DList Buddy Vma Frames.

Abbreviation PAGE_PRESENT := 1%Z (only parsing).
Abbreviation PAGE_WRITABLE := 2%Z (only parsing).
Abbreviation PAGE_USER := 4%Z (only parsing).
Abbreviation PAGE_PWT := 8%Z (only parsing).
Abbreviation PAGE_PCD := 16%Z (only parsing).
Abbreviation PAGE_NX := 0x8000000000000000%Z (only parsing).
Abbreviation VMM_KDATA := 0x8000000000000003%Z (only parsing).
Abbreviation VMM_UDATA := 0x8000000000000007%Z (only parsing).
Abbreviation MMIO_VIRT_BASE := 0xFFFF900000000000%Z (only parsing).

(** ** Memory *)

Abbreviation page := (gmap Z Z) (only parsing).

Record machine (A : Type) := Machine { fa : A; ram : gmap Z page }.
Arguments Machine {A}.
Arguments fa {A}.
Arguments ram {A}.

Definition word (p : page) (i : Z) : Z := default 0 (p !! i).

Section vmm.
Context {A : Type} `{FrameOps A}.
Implicit Types (s : machine A).

Definition with_fa (a : A) s : machine A := Machine a (ram s).
Definition with_ram (r : gmap Z page) s : machine A := Machine (fa s) r.

Definition read_word s (f i : Z) : option Z := p ← ram s !! f; Some (word p i).
Definition write_word s (f i x : Z) : option (machine A) :=
  p ← ram s !! f; Some (with_ram (<[f := <[i := x]> p]> (ram s)) s).
Definition zero_page s (f : Z) : option (machine A) := _ ← ram s !! f; Some (with_ram (<[f := ∅]> (ram s)) s).
Definition copy_page s (dst src : Z) : option (machine A) :=
  p ← ram s !! src; _ ← ram s !! dst; Some (with_ram (<[dst := p]> (ram s)) s).

Definition bits (e mask : Z) : bool := negb (Z.land e mask =? 0).

(** [pmm_buddy_alloc(0)], with [PMM_INVALID_ADDR] turned into [None]. *)
Definition alloc s : option (machine A * option Z) :=
  '(a, r) ← fr_alloc (fa s);
  Some (with_fa a s, if r =? PMM_INVALID_ADDR then None else Some r).
Definition free s (f : Z) : option (machine A) := a ← fr_free (fa s) f; Some (with_fa a s).
Definition ref_inc s (f : Z) : option (machine A) := a ← fr_ref_inc (fa s) f; Some (with_fa a s).
Definition ref_dec s (f : Z) : option (machine A) := a ← fr_ref_dec (fa s) f; Some (with_fa a s).
Definition pin s (f : Z) : option (machine A) := a ← fr_pin (fa s) f; Some (with_fa a s).

(** ** The walk *)

(** The loop over the three upper levels: the address of the last table, or
    [None] for the NULL of a missing table. *)
Fixpoint walk (shifts : list Z) s (cur vaddr : Z) (create : bool) (inter_flags : Z) : option (machine A * option Z) :=
  match shifts with
  | [] => Some (s, Some cur)
  | shift :: shifts =>
      let idx := Z.land (Z.shiftr vaddr shift) 0x1FF in
      entry ← read_word s cur idx;
      if bits entry PAGE_PRESENT then walk shifts s (Z.land entry PAGE_ADDR_MASK) vaddr create inter_flags
      else if negb create then Some (s, None)
      else
        '(s, r) ← alloc s;
        match r with
        | None => Some (s, None)
        | Some new_frame =>
            s ← zero_page s new_frame;
            let desired := Z.lor (Z.lor new_frame inter_flags) PAGE_PRESENT in
            now ← read_word s cur idx;
            if now =? 0 then
              s ← write_word s cur idx desired;
              walk shifts s (Z.land desired PAGE_ADDR_MASK) vaddr create inter_flags
            else
              s ← free s new_frame;
              walk shifts s (Z.land now PAGE_ADDR_MASK) vaddr create inter_flags
        end
  end.

(** A pointer to the leaf entry is its table and its index. *)
Definition vmm_pte_get s (pml4_phys vaddr : Z) (create : bool) (inter_flags : Z) : option (machine A * option (Z * Z)) :=
  '(s, r) ← walk [39; 30; 21] s pml4_phys vaddr create inter_flags;
  Some (s, match r with Some pt => Some (pt, Z.land (Z.shiftr vaddr 12) 0x1FF) | None => None end).

(** ** One page *)

Definition vmm_page_map s (pml4_phys vaddr paddr flags : Z) : option (machine A * bool) :=
  let inter := Z.lor PAGE_PRESENT PAGE_WRITABLE in
  let inter := if bits flags PAGE_USER then Z.lor inter PAGE_USER else inter in
  '(s, pte) ← vmm_pte_get s pml4_phys vaddr true inter;
  match pte with
  | None => Some (s, false)
  | Some (t, i) => s ← write_word s t i (Z.lor (Z.land paddr PAGE_ADDR_MASK) flags); Some (s, true)
  end.

(** The frame is [*out_paddr]. *)
Definition vmm_page_unmap s (pml4_phys vaddr : Z) : option (machine A * option Z) :=
  '(s, pte) ← vmm_pte_get s pml4_phys vaddr false 0;
  match pte with
  | None => Some (s, None)
  | Some (t, i) =>
      e ← read_word s t i;
      if bits e PAGE_PRESENT then s ← write_word s t i 0; Some (s, Some (Z.land e PAGE_ADDR_MASK))
      else Some (s, None)
  end.

Definition vmm_page_phys s (pml4_phys vaddr : Z) : option Z :=
  '(s, pte) ← vmm_pte_get s pml4_phys vaddr false 0;
  match pte with
  | None => Some PMM_INVALID_ADDR
  | Some (t, i) =>
      e ← read_word s t i;
      Some (if bits e PAGE_PRESENT then Z.land e PAGE_ADDR_MASK else PMM_INVALID_ADDR)
  end.

(** The address, or NULL. *)
Definition vmm_page_alloc s (cur vaddr flags : Z) : option (machine A * Z) :=
  '(s, r) ← alloc s;
  match r with
  | None => Some (s, NULL)
  | Some frame =>
      '(s, ok) ← vmm_page_map s cur vaddr frame flags;
      if (ok : bool) then Some (s, vaddr) else s ← free s frame; Some (s, NULL)
  end.

Definition vmm_page_free s (cur vaddr : Z) : option (machine A) :=
  '(s, r) ← vmm_page_unmap s cur vaddr;
  match r with Some frame => ref_dec s frame | None => Some s end.

(** ** Address spaces *)

Definition upper_half (p : page) : page := filter (fun x => 256 <= x.1) p.

Definition vmm_alloc_pml4 s (kernel_pml4 : Z) : option (machine A * Z) :=
  '(s, r) ← alloc s;
  match r with
  | None => Some (s, PMM_INVALID_ADDR)
  | Some phys =>
      _ ← ram s !! phys;
      kern ← ram s !! kernel_pml4;
      Some (with_ram (<[phys := upper_half kern]> (ram s)) s, phys)
  end.

(** [for (int i = 0; i < n; i++)], with an early return when the body says so. *)
Fixpoint for_each (l : list Z) (body : machine A -> Z -> option (machine A * bool)) s : option (machine A * bool) :=
  match l with
  | [] => Some (s, true)
  | i :: l => '(s, ok) ← body s i; if (ok : bool) then for_each l body s else Some (s, false)
  end.
Fixpoint for_all (l : list Z) (body : machine A -> Z -> option (machine A)) s : option (machine A) :=
  match l with [] => Some s | i :: l => s ← body s i; for_all l body s end.

(** An area that maps device memory. *)
Definition mmio_at (m : option mm) (va : Z) : bool :=
  match m ≫= fun m => mm_vma_find m va with Some v => bits (v_flags v) VMA_MMIO | None => false end.

Definition free_leaf (m : option mm) (va pt : Z) s (l : Z) : option (machine A) :=
  e ← read_word s pt l;
  if negb (bits e PAGE_PRESENT) then Some s
  else if mmio_at m (Z.lor va (Z.shiftl l 12)) then Some s else ref_dec s (Z.land e PAGE_ADDR_MASK).

(** One entry of a table: what hangs below it, then the table it points to. *)
Definition free_entry (below : Z -> Z -> machine A -> Z -> option (machine A)) (shift va tbl : Z) s (k : Z) : option (machine A) :=
  e ← read_word s tbl k;
  if negb (bits e PAGE_PRESENT) then Some s
  else
    s ← for_all (seqZ 0 512) (below (Z.lor va (Z.shiftl k shift)) (Z.land e PAGE_ADDR_MASK)) s;
    e ← read_word s tbl k;
    free s (Z.land e PAGE_ADDR_MASK).

Definition vmm_free_user_ex s (pml4_phys : Z) (m : option mm) : option (machine A) :=
  for_all (seqZ 0 256) (free_entry (free_entry (free_entry (free_leaf m) 21) 30) 39 0 pml4_phys) s.

Definition vmm_free_user s (pml4_phys : Z) : option (machine A) := vmm_free_user_ex s pml4_phys None.

(** ** Fork *)

Definition clone_leaf (m : option mm) (va src dst : Z) s (si : Z) : option (machine A * bool) :=
  e ← read_word s src si;
  if negb (bits e PAGE_PRESENT) then Some (s, true)
  else
    let src_frame := Z.land e PAGE_ADDR_MASK in
    let leaf_flags := Z.ldiff e PAGE_ADDR_MASK in
    let va := Z.lor va (Z.shiftl si 12) in
    let v := m ≫= fun m => mm_vma_find m va in
    let is_shmem := match v with Some v => negb (v_shmem v =? 0) | None => false end in
    let is_shared := is_shmem || match v with Some v => bits (v_flags v) VMA_MMIO | None => false end in
    if is_shared then
      s ← (if is_shmem then ref_inc s src_frame else Some s);
      s ← write_word s dst si (Z.lor src_frame leaf_flags);
      Some (s, true)
    else
      deep ← (match m with None => Some true | Some _ => pins ← fr_pin_get (fa s) src_frame; Some (0 <? pins) end);
      if (deep : bool) then
        '(s, r) ← alloc s;
        match r with
        | None => Some (s, false)
        | Some dst_frame =>
            s ← copy_page s dst_frame src_frame;
            s ← write_word s dst si (Z.lor dst_frame leaf_flags);
            Some (s, true)
        end
      else
        let cow_flags := Z.ldiff leaf_flags PAGE_WRITABLE in
        s ← write_word s src si (Z.lor src_frame cow_flags);
        s ← write_word s dst si (Z.lor src_frame cow_flags);
        s ← ref_inc s src_frame;
        Some (s, true).

(** One entry of a table: a fresh table in the copy, then what hangs below. *)
Definition clone_entry (below : Z -> Z -> Z -> machine A -> Z -> option (machine A * bool)) (shift va src dst : Z) s (k : Z)
  : option (machine A * bool) :=
  e ← read_word s src k;
  if negb (bits e PAGE_PRESENT) then Some (s, true)
  else
    '(s, r) ← alloc s;
    match r with
    | None => Some (s, false)
    | Some t =>
        s ← zero_page s t;
        e ← read_word s src k;
        let inter_flags := Z.land (Z.ldiff e PAGE_ADDR_MASK) 0xFFF in
        s ← write_word s dst k (Z.lor (Z.lor t inter_flags) PAGE_PRESENT);
        e ← read_word s src k;
        for_each (seqZ 0 512) (below (Z.lor va (Z.shiftl k shift)) (Z.land e PAGE_ADDR_MASK) t) s
    end.

Definition vmm_clone_user_ex s (dst_pml4 src_pml4 : Z) (m : option mm) : option (machine A * bool) :=
  for_each (seqZ 0 256) (clone_entry (clone_entry (clone_entry (clone_leaf m) 21) 30) 39 0 src_pml4 dst_pml4) s.

Definition vmm_clone_user s (dst_pml4 src_pml4 : Z) : option (machine A * bool) :=
  vmm_clone_user_ex s dst_pml4 src_pml4 None.
End vmm.
