(* ===== verification/PageTableOps.v ===== *)
(** * Page tables: operations on one page

    The invariant of the whole virtual memory system, and the effect of the
    operations on single pages: the walk that creates missing tables, mapping,
    unmapping and looking up. *)

From S2P Require Import Prelude Errno DList Buddy Vma Frames PageTable PageTableSpec.

(** ** Reference counting *)

Definition counts (f : Z) (x : leaf) : bool := l_ref x && (addr x =? f).

(** The number of leaf entries that hold a reference to the frame. *)
Definition refs (P : gmap (Z * Z) leaf) (f : Z) : Z := Z.of_nat (size (filter (fun kx => counts f kx.2 = true) P)).

Lemma map_refs_nonneg P f : 0 <= refs P f.
Proof. unfold refs. lia. Qed.

Lemma refs_fresh P k x f : P !! k = None -> refs (<[k := x]> P) f = refs P f + Z.b2z (counts f x).
Proof.
  intros Hk. unfold refs. destruct (counts f x) eqn:E.
  - rewrite map_filter_insert_True by done. rewrite map_size_insert_None; [cbn [Z.b2z]; lia|].
    apply map_lookup_filter_None. by left.
  - rewrite map_filter_insert_False, delete_id by (done || cbn; congruence). cbn [Z.b2z]. lia.
Qed.

Lemma refs_delete P k x f : P !! k = Some x -> refs P f = refs (delete k P) f + Z.b2z (counts f x).
Proof.
  intros Hk. rewrite <- (insert_id P k x Hk) at 1. rewrite <- insert_delete_eq.
  by rewrite refs_fresh by apply lookup_delete_eq.
Qed.

Definition weight (f : Z) (o : option leaf) : Z := from_option (fun x => Z.b2z (counts f x)) 0 o.

Lemma refs_insert P k x f : refs (<[k := x]> P) f = refs P f - weight f (P !! k) + Z.b2z (counts f x).
Proof.
  rewrite <- insert_delete_eq, refs_fresh by apply lookup_delete_eq.
  destruct (P !! k) as [y|] eqn:E; cbn; [rewrite (refs_delete P k y f E); lia|]. by rewrite delete_id, Z.sub_0_r.
Qed.

Lemma refs_delete' P k f : refs (delete k P) f = refs P f - weight f (P !! k).
Proof.
  destruct (P !! k) as [y|] eqn:E; cbn; [rewrite (refs_delete P k y f E); lia|]. by rewrite delete_id, Z.sub_0_r.
Qed.

Lemma refs_change P P' k f :
  (forall j, j <> k -> P' !! j = P !! j) -> refs P' f = refs P f - weight f (P !! k) + weight f (P' !! k).
Proof.
  intros Hoth. assert (HP : delete k P' = delete k P).
  { apply map_eq. intros j. destruct (decide (j = k)) as [->|Hj]; [by rewrite !lookup_delete_eq|].
    rewrite !lookup_delete_ne by done. by apply Hoth. }
  pose proof (refs_delete' P k f). pose proof (refs_delete' P' k f). rewrite HP in *. lia.
Qed.

Lemma refs_pos P k x f : P !! k = Some x -> counts f x = true -> 1 <= refs P f.
Proof. intros Hk Hc. rewrite (refs_delete P k x f Hk), Hc. pose proof (map_refs_nonneg (delete k P) f). cbn. lia. Qed.

Lemma weight_le P k f : 0 <= weight f (P !! k) <= refs P f.
Proof.
  pose proof (map_refs_nonneg P f). destruct (P !! k) as [x|] eqn:E; cbn; [|lia]. destruct (counts f x) eqn:Ec; cbn; [|lia].
  pose proof (refs_pos P k x f E Ec). lia.
Qed.

Definition tab (T : gmap Z node) (f : Z) : Z := match T !! f with Some _ => 1 | None => 0 end.

(** ** The invariant *)

Section inv.
Context {A : Type} `{FrameLaws A} (kroot : Z) (kwin : Z -> bool).
Abbreviation shp := (shape kroot kwin).

(** [M]: the counts of the frames held; [X f]: the references to [f] that are
    not leaf entries (page cache, shared memory objects, a frame in the hands
    of a running function). *)
Record vm_inv (s : machine A) (M : gmap Z Z) (T : gmap Z node) (P : gmap (Z * Z) leaf) (X : Z -> Z) : Prop := {
  vi_shape : shp (ram s) T P;
  vi_rep : fr_rep (fa s) M;
  vi_ram f : fr_ram f -> is_Some (ram s !! f);
  vi_acct f : fr_ram f -> default 0 (M !! f) = refs P f + tab T f + X f;
  vi_extra f : 0 <= X f;
  vi_tab t n : T !! t = Some n -> fr_ram t -> M !! t = Some 1;
  vi_counted k x : P !! k = Some x -> l_ref x = true -> fr_ram (addr x);
  vi_plain k x : P !! k = Some x -> l_ref x = false -> T !! addr x = None /\ (fr_ram (addr x) -> 0 < X (addr x));
  vi_user t n : T !! t = Some n -> n_root n <> kroot -> fr_ram t;
}.

(** A frame that nobody holds. *)
Lemma free_frame_unused s M T P X f :
  vm_inv s M T P X -> fr_ram f -> M !! f = None -> T !! f = None /\ X f = 0 /\ refs P f = 0.
Proof.
  intros Hi Hr Hf. pose proof (vi_acct _ _ _ _ _ Hi f Hr) as Ha. rewrite Hf in Ha. cbn in Ha.
  pose proof (map_refs_nonneg P f). pose proof (vi_extra _ _ _ _ _ Hi f).
  unfold tab in Ha. destruct (T !! f) as [n|] eqn:E; [lia|]. split; [done|lia].
Qed.

(** A mapped frame is not a table. *)
Lemma mapped_not_table s M T P X k x : vm_inv s M T P X -> P !! k = Some x -> T !! addr x = None.
Proof.
  intros Hi Hk. destruct (l_ref x) eqn:E; [|by apply (vi_plain _ _ _ _ _ Hi k x)].
  pose proof (vi_counted _ _ _ _ _ Hi k x Hk E) as Hr. destruct (T !! addr x) as [n|] eqn:Et; [|done].
  pose proof (vi_acct _ _ _ _ _ Hi _ Hr) as Ha. rewrite (vi_tab _ _ _ _ _ Hi _ _ Et Hr) in Ha. unfold tab in Ha.
  rewrite Et in Ha. cbn in Ha. pose proof (vi_extra _ _ _ _ _ Hi (addr x)).
  assert (1 <= refs P (addr x)); [|lia]. eapply refs_pos; [exact Hk|]. unfold counts. by rewrite E, Z.eqb_refl.
Qed.

(** A counted leaf's frame is held. *)
Lemma counted_held s M T P X k x :
  vm_inv s M T P X -> P !! k = Some x -> l_ref x = true -> exists n, M !! addr x = Some n.
Proof.
  intros Hi Hk E. pose proof (vi_acct _ _ _ _ _ Hi _ (vi_counted _ _ _ _ _ Hi k x Hk E)) as Ha.
  destruct (M !! addr x) as [n|]; [by exists n|]. cbn in Ha.
  assert (1 <= refs P (addr x)); [eapply refs_pos; [exact Hk|]; unfold counts; by rewrite E, Z.eqb_refl|].
  pose proof (vi_extra _ _ _ _ _ Hi (addr x)). unfold tab in Ha. destruct (T !! addr x); lia.
Qed.

(** ** Allocation *)

Lemma frame_alloc_spec s M T P X :
  vm_inv s M T P X ->
  exists s' o, alloc s = Some (s', o) /\ ram s' = ram s /\
    match o with
    | None => vm_inv s' M T P X
    | Some f => fr_ram f /\ M !! f = None /\ T !! f = None /\ fr_rep (fa s') (<[f := 1]> M)
    end.
Proof.
  intros Hi. unfold alloc. destruct (fr_alloc_ok _ _ (vi_rep _ _ _ _ _ Hi)) as (a & r & Hrun & Hres).
  rewrite Hrun. cbn [mbind option_bind]. eexists _, _. split; [done|]. split; [done|].
  destruct Hres as [[-> Hrep]|(Hr & HM & Hrep)].
  - rewrite Z.eqb_refl. destruct Hi. by constructor.
  - destruct (Z.eqb_spec r PMM_INVALID_ADDR) as [->|_]; [by apply fr_ram_addr in Hr as [_ []]|].
    split; [done|]. split; [done|]. split; [|done]. by eapply free_frame_unused.
Qed.

(** An allocated frame in the hands of the caller. *)
Definition bump1 (f d : Z) (X : Z -> Z) (g : Z) : Z := if g =? f then X g + d else X g.

Lemma alloc_hold s s' M T P X f :
  vm_inv s M T P X -> ram s' = ram s -> fr_ram f -> M !! f = None -> fr_rep (fa s') (<[f := 1]> M) ->
  vm_inv s' (<[f := 1]> M) T P (bump1 f 1 X).
Proof.
  intros Hi Hram Hr HM Hrep. destruct (free_frame_unused _ _ _ _ _ _ Hi Hr HM) as (HT & HX & Hrf).
  destruct Hi. constructor; try done; rewrite ?Hram; try done.
  - intros g Hg. unfold bump1. destruct (Z.eqb_spec g f) as [->|Hne].
    + rewrite lookup_insert_eq. cbn. unfold tab. rewrite HT. lia.
    + rewrite lookup_insert_ne by done. by apply vi_acct0.
  - intros g. unfold bump1. pose proof (vi_extra0 g). destruct (g =? f); lia.
  - intros t n Ht Hrt. rewrite lookup_insert_ne by congruence. by eapply vi_tab0.
  - intros k x Hk Hx. destruct (vi_plain0 k x Hk Hx) as [H1 H2]. split; [done|]. intros Hrx. specialize (H2 Hrx).
    unfold bump1. destruct (_ =? _); lia.
Qed.

(** ** Tables *)

(** A fresh table under an empty entry: allocated, cleared, linked. *)
Lemma add_table s M T P X t r l q i fl :
  vm_inv s M T P X -> T !! t = Some (Node r (S l) q) -> slot kroot kwin (Node r (S l) q) i -> entry (ram s) t i = 0 ->
  Z.land fl PAGE_ADDR_MASK = 0 ->
  exists s1 o, alloc s = Some (s1, o) /\ ram s1 = ram s /\
    match o with
    | None => vm_inv s1 M T P X
    | Some new => exists s2 s3, zero_page s1 new = Some s2 /\ (forall u, u <> new -> ram s2 !! u = ram s !! u) /\
        write_word s2 t i (Z.lor (Z.lor new fl) PAGE_PRESENT) = Some s3 /\
        Z.land (Z.lor (Z.lor new fl) PAGE_PRESENT) PAGE_ADDR_MASK = new /\
        M !! new = None /\ T !! new = None /\ fr_ram new /\
        vm_inv s3 (<[new := 1]> M) (<[new := Node r l (q * 512 + i)]> T) P X /\
        (forall u, u <> new -> u <> t -> ram s3 !! u = ram s !! u)
    end.
Proof.
  intros Hi Ht Hsl He Hfl. destruct (frame_alloc_spec s M T P X Hi) as (s1 & o & Hrun & Hram & Ho).
  exists s1, o. split; [done|]. split; [done|]. destruct o as [new|]; [|done].
  destruct Ho as (Hr & HM & HT & Hrep). destruct (fr_ram_addr new Hr) as [Hfa _].
  assert (Hnt : new <> t) by congruence.
  destruct (vi_ram _ _ _ _ _ Hi new Hr) as [pn Hpn]. destruct (sh_mem _ _ _ _ _ (vi_shape _ _ _ _ _ Hi) _ _ Ht) as [_ Hmt].
  unfold zero_page. rewrite Hram, Hpn. cbn [mbind option_bind].
  set (s2 := with_ram (<[new := ∅]> (ram s)) s1).
  assert (Hoth : forall u, u <> new -> ram s2 !! u = ram s !! u) by (intros u Hu; by apply lookup_insert_ne).
  destruct (write_entry s2 t i (Z.lor (Z.lor new fl) PAGE_PRESENT)) as (s3 & Hw & Hfa3 & Hdom3 & Hoth3 & Hent3);
    [by rewrite Hoth|].
  assert (Haddr : Z.land (Z.lor (Z.lor new fl) PAGE_PRESENT) PAGE_ADDR_MASK = new).
  { rewrite <- Z.lor_assoc. apply frame_addr_lor; [done|]. by rewrite Z.land_lor_distr_l, Hfl. }
  assert (Hkeep : forall u, is_Some (ram s !! u) -> is_Some (ram s3 !! u)).
  { intros u Hu. apply Hdom3. destruct (decide (u = new)) as [->|]; [|by rewrite Hoth].
    cbn [s2 with_ram ram]. rewrite lookup_insert_eq. by eexists. }
  exists s2, s3. do 7 (split; [done|]). split.
  - constructor.
    + eapply (shape_add _ _ (ram s) _ _ _ t r l q i new (Z.lor (Z.lor new fl) PAGE_PRESENT)); [apply Hi|done|done|done|done|done|by apply bits_lor_r|done| |done|].
      { apply Hkeep. by eexists. }
      intros u j. rewrite Hent3. case_decide as Hd; [done|]. case_decide as Hd'.
      * subst u. unfold entry. cbn [s2 with_ram ram]. by rewrite lookup_insert_eq.
      * unfold entry. by rewrite Hoth.
    + rewrite Hfa3. done.
    + intros f Hf. apply Hkeep. by apply (vi_ram _ _ _ _ _ Hi).
    + intros f Hf. unfold tab. destruct (decide (f = new)) as [->|Hne].
      * rewrite !lookup_insert_eq. destruct (free_frame_unused _ _ _ _ _ _ Hi Hr HM) as (_ & HX & Hrf). cbn. lia.
      * rewrite !lookup_insert_ne by done. by apply (vi_acct _ _ _ _ _ Hi).
    + apply Hi.
    + intros u n [[<- <-]|[Hn Hu]]%lookup_insert_Some Hru; [by rewrite lookup_insert_eq|].
      rewrite lookup_insert_ne by done. by eapply (vi_tab _ _ _ _ _ Hi).
    + apply Hi.
    + intros k x Hk Hx. destruct (vi_plain _ _ _ _ _ Hi k x Hk Hx) as [H1 H2]. split; [|done].
      rewrite lookup_insert_ne; [done|]. intros Heq. rewrite <- Heq in H2. specialize (H2 Hr).
      destruct (free_frame_unused _ _ _ _ _ _ Hi Hr HM) as (_ & HX & _). lia.
    + intros u n [[<- <-]|[Hn Hu]]%lookup_insert_Some; [done|]. by apply (vi_user _ _ _ _ _ Hi).
  - intros u Hu Hut. rewrite Hoth3 by done. by apply Hoth.
Qed.

(** Tables were added, all of them at places [Q]; nothing else changed. *)
Record grown (Q : node -> Prop) (s : machine A) (M : gmap Z Z) (T : gmap Z node)
  (s' : machine A) (M' : gmap Z Z) (T' : gmap Z node) : Prop := {
  gr_tabs : T ⊆ T';
  gr_new t n : T' !! t = Some n -> T !! t = None -> M !! t = None /\ fr_ram t /\ Q n;
  gr_counts f : T' !! f = None \/ is_Some (T !! f) -> M' !! f = M !! f;
  gr_data f : T' !! f = None -> ram s' !! f = ram s !! f;
}.

Lemma grown_refl Q s s' M T : ram s' = ram s -> grown Q s M T s' M T.
Proof. intros Hr. constructor; [done|congruence|done|by rewrite Hr]. Qed.

Lemma grown_trans Q s1 M1 T1 s2 M2 T2 s3 M3 T3 :
  grown Q s1 M1 T1 s2 M2 T2 -> grown Q s2 M2 T2 s3 M3 T3 -> grown Q s1 M1 T1 s3 M3 T3.
Proof.
  intros [A1 B1 C1 D1] [A2 B2 C2 D2]. constructor.
  - by etrans.
  - intros t n Ht Hn. destruct (T2 !! t) as [n2|] eqn:E.
    + assert (n2 = n) as -> by (apply (lookup_weaken _ _ _ _ E) in A2; congruence). by apply B1.
    + destruct (B2 t n Ht E) as (H1 & H2 & H3). split; [|done]. rewrite <- C1; [done|by left].
  - intros f Hf. assert (HT : T2 !! f = None \/ is_Some (T2 !! f)).
    { destruct (T2 !! f) as [n|]; [by right|by left]. }
    rewrite C2, C1; [done| |].
    + destruct Hf as [Hf|Hf]; [left|by right]. by eapply lookup_weaken_None.
    + destruct Hf as [Hf|[n Hf]]; [by left|right]. exists n. by eapply lookup_weaken.
  - intros f Hf. rewrite D2 by done. apply D1. by eapply lookup_weaken_None.
Qed.

(** One table added. *)
Lemma grown_add (Q : node -> Prop) s s' M T t new n :
  is_Some (T !! t) -> M !! new = None -> T !! new = None -> fr_ram new -> Q n ->
  (forall u, u <> new -> u <> t -> ram s' !! u = ram s !! u) ->
  grown Q s M T s' (<[new := 1]> M) (<[new := n]> T).
Proof.
  intros [nt Ht] HM HT Hr HQ Hoth. constructor.
  - by apply insert_subseteq.
  - intros u m [[<- <-]|[Hn Hu]]%lookup_insert_Some Hnone; [done|congruence].
  - intros f Hf. rewrite lookup_insert_ne; [done|]. intros <-. rewrite lookup_insert_eq in Hf.
    destruct Hf as [Hf|Hf]; [congruence|]. destruct Hf. congruence.
  - intros f Hf. apply lookup_insert_None in Hf as [Hf Hn]. apply Hoth; congruence.
Qed.

(** The walk that creates what is missing. *)
Lemma walk_create r va fl l : Z.land fl PAGE_ADDR_MASK = 0 -> forall s M T P X t,
  vm_inv s M T P X -> (l <= 3)%nat -> T !! t = Some (Node r l (pre l (page_of va))) -> owned kroot kwin r (page_of va) ->
  exists s' o M' T', walk (shifts l) s t va true fl = Some (s', o) /\ vm_inv s' M' T' P X /\
    grown (fun n => n_root n = r) s M T s' M' T' /\
    match o with Some t' => T' !! t' = Some (Node r 0 (pre 0 (page_of va))) | None => True end.
Proof.
  intros Hfl. induction l as [|l IH]; intros s M T P X t Hi Hl Ht Ho.
  { exists s, (Some t), M, T. by split_and!; try apply grown_refl. }
  pose proof (vi_shape _ _ _ _ _ Hi) as Hs. set (v := page_of va) in *.
  rewrite shifts_S. cbn [walk]. rewrite va_index by lia. fold v.
  assert (Hmem : is_Some (ram s !! t)) by by apply (sh_mem _ _ _ _ _ Hs _ _ Ht).
  rewrite read_entry by done. cbn [mbind option_bind].
  destruct (sh_down _ _ _ _ _ Hs _ _ _ _ (ix (S l) v) Ht) as [He|[Hb Hd]]; [by apply slot_of| |].
  2: { rewrite Hb. apply IH; [done|lia| |done]. rewrite Hd. unfold pre at 2. by rewrite <- pre_split. }
  rewrite He, bits_0. cbn [negb].
  destruct (add_table s M T P X t r l (pre (S l) v) (ix (S l) v) fl Hi Ht) as (s1 & o & -> & Hram & Hres);
    [by apply slot_of|done|done|]. cbn [mbind option_bind]. destruct o as [new|].
  2: { exists s1, None, M, T. split_and!; try done. by apply grown_refl. }
  destruct Hres as (s2 & s3 & -> & Hoth & Hw & Haddr & HM & HT & Hr & Hi3 & Hoth3). cbn [mbind option_bind].
  assert (Hnt : t <> new) by congruence.
  rewrite read_entry by by rewrite Hoth. cbn [mbind option_bind]. unfold entry at 1. rewrite Hoth by done. fold (entry (ram s) t (ix (S l) v)).
  rewrite He. cbn [Z.eqb]. rewrite Hw. cbn [mbind option_bind]. rewrite Haddr.
  destruct (IH s3 _ _ P X new Hi3) as (s' & o & M' & T' & Hrun & Hi' & Hg & Ho'); [lia| |done|].
  { rewrite lookup_insert_eq. unfold pre at 2. by rewrite <- pre_split. }
  exists s', o, M', T'. split; [done|]. split; [done|]. split; [|done]. eapply grown_trans; [|exact Hg].
  eapply (grown_add _ _ _ _ _ t); [by eexists|done..|]. done.
Qed.

(** ** Leaf entries *)

(** What is asked of the leaf entries as a whole. *)
Definition leaves_ok (T : gmap Z node) (P : gmap (Z * Z) leaf) (X : Z -> Z) : Prop :=
  forall k x, P !! k = Some x ->
    if l_ref x then fr_ram (addr x) else T !! addr x = None /\ (fr_ram (addr x) -> 0 < X (addr x)).

Lemma vm_leaves s M T P X : vm_inv s M T P X -> leaves_ok T P X.
Proof. intros Hi k x Hk. destruct (l_ref x) eqn:E; [by eapply (vi_counted _ _ _ _ _ Hi)|by eapply (vi_plain _ _ _ _ _ Hi)]. Qed.

(** Writing one leaf entry; the difference in references goes to or comes from
    the writer. *)
Lemma set_leaf s M T P X t r q i e P' X' :
  vm_inv s M T P X -> T !! t = Some (Node r 0 q) -> 0 <= i < 512 ->
  (forall k, k <> (r, q * 512 + i) -> P' !! k = P !! k) ->
  (P' !! (r, q * 512 + i) = None /\ e = 0 \/
   exists b, P' !! (r, q * 512 + i) = Some (Leaf e b) /\ bits e PAGE_PRESENT = true) ->
  (forall f, X' f = X f + weight f (P !! (r, q * 512 + i)) - weight f (P' !! (r, q * 512 + i))) ->
  (forall f, 0 <= X' f) -> leaves_ok T P' X' ->
  exists s', write_word s t i e = Some s' /\ vm_inv s' M T P' X' /\ (forall u, u <> t -> ram s' !! u = ram s !! u).
Proof.
  intros Hi Ht Hr Hoth Hnew HX HX0 Hok. pose proof (vi_shape _ _ _ _ _ Hi) as Hs.
  destruct (write_entry s t i e) as (s' & Hw & Hfa & Hdom & Hkeep & Hent); [by apply (sh_mem _ _ _ _ _ Hs _ _ Ht)|].
  exists s'. split; [done|]. split; [|done]. constructor.
  - eapply (shape_leaf _ _ (ram s)); [exact Hs|exact Ht|exact Hr|intros u; apply Hdom|intros u j _; apply Hent|done|done].
  - rewrite Hfa. apply Hi.
  - intros f Hf. apply Hdom. by apply (vi_ram _ _ _ _ _ Hi).
  - intros f Hf. rewrite (vi_acct _ _ _ _ _ Hi f Hf), HX, (refs_change P P' (r, q * 512 + i) f Hoth). lia.
  - done.
  - apply Hi.
  - intros k x Hk Hx. specialize (Hok k x Hk). by rewrite Hx in Hok.
  - intros k x Hk Hx. specialize (Hok k x Hk). by rewrite Hx in Hok.
  - apply Hi.
Qed.

(** References that are not leaf entries. *)
Lemma drop_extra s M T P X f n :
  vm_inv s M T P X -> fr_ram f -> M !! f = Some n -> T !! f = None -> 1 <= X f ->
  (forall k x, P !! k = Some x -> l_ref x = false -> addr x = f -> 1 < X f) ->
  exists s', ref_dec s f = Some s' /\ ram s' = ram s /\ vm_inv s' (drop_ref M f) T P (bump1 f (-1) X).
Proof.
  intros Hi Hr HM HT HX Hpl. unfold ref_dec. destruct (fr_dec_ok _ _ _ _ (vi_rep _ _ _ _ _ Hi) HM) as (a & -> & Hrep).
  cbn [mbind option_bind]. eexists. split; [done|]. split; [done|]. pose proof (vi_acct _ _ _ _ _ Hi f Hr) as Ha.
  destruct (fr_held _ _ _ _ (vi_rep _ _ _ _ _ Hi) HM) as [_ Hn]. constructor; try apply Hi; [done| | | |].
  - intros g Hg. unfold bump1, drop_ref. rewrite HM in *. cbn in Ha. destruct (Z.eqb_spec g f) as [->|Hne].
    + destruct (Z.eqb_spec n 1); [rewrite lookup_delete_eq|rewrite lookup_insert_eq]; cbn; lia.
    + rewrite <- (vi_acct _ _ _ _ _ Hi g Hg). destruct (n =? 1); [by rewrite lookup_delete_ne|by rewrite lookup_insert_ne].
  - intros g. unfold bump1. pose proof (vi_extra _ _ _ _ _ Hi g). destruct (Z.eqb_spec g f); subst; lia.
  - intros t m Ht Hrt. assert (t <> f) by congruence. pose proof (vi_tab _ _ _ _ _ Hi t m Ht Hrt) as Hm.
    unfold drop_ref. rewrite HM. destruct (n =? 1); [by rewrite lookup_delete_ne|by rewrite lookup_insert_ne].
  - intros k x Hk Hx. destruct (vi_plain _ _ _ _ _ Hi k x Hk Hx) as [H1 H2]. split; [done|]. intros Hrx.
    specialize (H2 Hrx). unfold bump1. destruct (Z.eqb_spec (addr x) f) as [He|]; [|done].
    specialize (Hpl k x Hk Hx He). rewrite He. lia.
Qed.

Lemma take_extra s M T P X f n :
  vm_inv s M T P X -> fr_ram f -> M !! f = Some n -> T !! f = None -> n < 2 ^ 32 - 1 ->
  exists s', ref_inc s f = Some s' /\ ram s' = ram s /\ vm_inv s' (<[f := n + 1]> M) T P (bump1 f 1 X).
Proof.
  intros Hi Hr HM HT Hn. unfold ref_inc. destruct (fr_inc_ok _ _ _ _ (vi_rep _ _ _ _ _ Hi) HM Hn) as (a & -> & Hrep).
  cbn [mbind option_bind]. eexists. split; [done|]. split; [done|]. pose proof (vi_acct _ _ _ _ _ Hi f Hr) as Ha.
  constructor; try apply Hi; [done| | | |].
  - intros g Hg. unfold bump1. rewrite HM in Ha. cbn in Ha. destruct (Z.eqb_spec g f) as [->|Hne].
    + rewrite lookup_insert_eq. cbn. lia.
    + rewrite lookup_insert_ne by done. by apply (vi_acct _ _ _ _ _ Hi).
  - intros g. unfold bump1. pose proof (vi_extra _ _ _ _ _ Hi g). destruct (g =? f); lia.
  - intros t m Ht Hrt. rewrite lookup_insert_ne by congruence. by apply (vi_tab _ _ _ _ _ Hi t m).
  - intros k x Hk Hx. destruct (vi_plain _ _ _ _ _ Hi k x Hk Hx) as [H1 H2]. split; [done|]. intros Hrx.
    specialize (H2 Hrx). unfold bump1. destruct (_ =? _); lia.
Qed.

(** ** Looking up *)

(** A root whose mapping of [va] these tables manage. *)
Definition in_space (T : gmap Z node) (r va : Z) : Prop := T !! r = Some (Node r 3 0) /\ owned kroot kwin r (page_of va).

Lemma pre_3 va : pre 3 (page_of va) = 0.
Proof. unfold pre. apply Z.div_small. pose proof (page_of_range va). unfold span. cbn. lia. Qed.

(** The entry's place, and what is there. *)
Lemma pte_find (s : machine A) T P r va :
  shp (ram s) T P -> in_space T r va ->
  exists o, vmm_pte_get s r va false 0 = Some (s, o) /\
    match o with
    | Some (t, i) => T !! t = Some (Node r 0 (page_of va / 512)) /\ i = page_of va mod 512 /\
        is_Some (ram s !! t) /\ entry (ram s) t i = from_option l_pte 0 (P !! (r, page_of va))
    | None => P !! (r, page_of va) = None
    end.
Proof.
  intros Hs [Hr Ho]. unfold vmm_pte_get. change [39; 30; 21] with (shifts 3).
  destruct (walk_find kroot kwin s T P r va 0 3 r) as (o & -> & Hres); [done|lia|by rewrite pre_3|done|].
  cbn [mbind option_bind]. eexists. split; [done|]. destruct o as [t|].
  - change (Z.shiftr va 12) with (Z.shiftr va (12 + 9 * Z.of_nat 0)). rewrite va_index by lia.
    rewrite pre_0 in Hres. unfold ix, span. rewrite Z.div_1_r. split; [done|]. split; [done|].
    split; [by apply (sh_mem _ _ _ _ _ Hs _ _ Hres)|]. rewrite (sh_leaf _ _ _ _ _ Hs _ _ _ _ Hres) by mlia.
    do 3 f_equal. mlia.
  - destruct (P !! (r, page_of va)) as [x|] eqn:E; [|done]. destruct (sh_dom _ _ _ _ _ Hs _ _ _ E) as [_ [t Ht]].
    by apply Hres in Ht.
Qed.

Lemma leaf_present R T P k x : shp R T P -> P !! k = Some x -> bits (l_pte x) PAGE_PRESENT = true.
Proof. intros Hs Hk. destruct k. by apply (sh_dom _ _ _ _ _ Hs) in Hk as [? _]. Qed.

Lemma page_phys_spec (s : machine A) T P r va :
  shp (ram s) T P -> in_space T r va ->
  vmm_page_phys s r va = Some (from_option addr PMM_INVALID_ADDR (P !! (r, page_of va))).
Proof.
  intros Hs Hin. unfold vmm_page_phys. destruct (pte_find s T P r va Hs Hin) as (o & -> & Ho). cbn [mbind option_bind].
  destruct o as [[t i]|]; [|by rewrite Ho]. destruct Ho as (_ & _ & Hm & He). rewrite read_entry, He by done.
  cbn [mbind option_bind]. destruct (P !! (r, page_of va)) as [x|] eqn:E; cbn; [|by rewrite bits_0].
  by rewrite (leaf_present _ _ _ _ _ Hs E).
Qed.

(** ** Mapping and unmapping *)

(** The page the entry of page [v] is in. *)
Lemma va_split v : v = v / 512 * 512 + v mod 512.
Proof. mlia. Qed.

Lemma page_unmap_spec s M T P X r va :
  vm_inv s M T P X -> in_space T r va ->
  exists s', vmm_page_unmap s r va = Some (s', addr <$> P !! (r, page_of va)) /\
    vm_inv s' M T (delete (r, page_of va) P) (fun f => X f + weight f (P !! (r, page_of va))) /\
    (forall u, T !! u = None -> ram s' !! u = ram s !! u).
Proof.
  intros Hi Hin. unfold vmm_page_unmap. pose proof (vi_shape _ _ _ _ _ Hi) as Hs.
  destruct (pte_find s T P r va Hs Hin) as (o & -> & Ho). cbn [mbind option_bind]. set (v := page_of va) in *.
  destruct (P !! (r, v)) as [x|] eqn:E.
  - destruct o as [[t i]|]; [|done]. destruct Ho as (Ht & -> & Hm & He). rewrite read_entry, He by done.
    cbn [mbind option_bind from_option fmap option_fmap option_map]. rewrite (leaf_present _ _ _ _ _ Hs E).
    pose proof (va_split v) as Hv.
    destruct (set_leaf s M T P X t r (v / 512) (v mod 512) 0 (delete (r, v) P) (fun f => X f + weight f (P !! (r, v))) Hi Ht)
      as (s' & -> & Hi' & Hkeep); rewrite <- ?Hv.
    + mlia.
    + intros k Hk. by rewrite lookup_delete_ne.
    + left. by rewrite lookup_delete_eq.
    + intros f. rewrite lookup_delete_eq. cbn. lia.
    + intros f. pose proof (vi_extra _ _ _ _ _ Hi f). unfold weight. destruct (P !! (r, v)); cbn; [|lia].
      destruct (counts f _); cbn; lia.
    + intros k y Hk. apply lookup_delete_Some in Hk as [_ Hk]. pose proof (vm_leaves _ _ _ _ _ Hi k y Hk) as Hy.
      destruct (l_ref y); [done|]. destruct Hy as [Hy1 Hy2]. split; [done|]. intros Hr. specialize (Hy2 Hr).
      rewrite E. cbn. destruct (counts _ _); cbn; lia.
    + cbn [mbind option_bind]. eexists. split; [done|]. rewrite <- E. split; [done|]. intros u Hu. apply Hkeep. congruence.
  - rewrite delete_id by done. cbn [weight from_option fmap option_fmap option_map].
    assert (Hi' : vm_inv s M T P (fun f => X f + 0)).
    { destruct Hi. constructor; try done; intros; rewrite ?Z.add_0_r; by eauto. }
    exists s. destruct o as [[t i]|]; [|done]. destruct Ho as (_ & _ & Hm & He). rewrite read_entry, He by done.
    cbn [mbind option_bind from_option]. by rewrite bits_0.
Qed.

(** Conditions on the leaf entries survive the growth of tables. *)
Lemma leaves_grown Q s M T s' M' T' P' X' :
  grown Q s M T s' M' T' -> leaves_ok T P' X' -> (forall f, fr_ram f -> M !! f = None -> X' f <= 0) -> leaves_ok T' P' X'.
Proof.
  intros Hg Hok HX k x Hk. specialize (Hok k x Hk). destruct (l_ref x); [done|]. destruct Hok as [H1 H2]. split; [|done].
  destruct (T' !! addr x) as [n|] eqn:E; [|done]. destruct (gr_new _ _ _ _ _ _ _ Hg _ _ E H1) as (HM & Hr & _).
  specialize (H2 Hr). specialize (HX _ Hr HM). lia.
Qed.

Lemma inter_flags_ok (b : bool) : Z.land (if b then Z.lor (Z.lor PAGE_PRESENT PAGE_WRITABLE) PAGE_USER else Z.lor PAGE_PRESENT PAGE_WRITABLE) PAGE_ADDR_MASK = 0.
Proof. by destruct b. Qed.

(** The entry's place, created if need be. *)
Lemma pte_create s M T P X r va fl :
  vm_inv s M T P X -> in_space T r va -> Z.land fl PAGE_ADDR_MASK = 0 ->
  exists s' o M' T', vmm_pte_get s r va true fl = Some (s', o) /\ vm_inv s' M' T' P X /\
    grown (fun n => n_root n = r) s M T s' M' T' /\
    match o with Some (t, i) => T' !! t = Some (Node r 0 (page_of va / 512)) /\ i = page_of va mod 512 | None => True end.
Proof.
  intros Hi [Hr Ho] Hfl. unfold vmm_pte_get. change [39; 30; 21] with (shifts 3).
  destruct (walk_create r va fl 3 Hfl s M T P X r Hi) as (s' & o & M' & T' & -> & Hi' & Hg & Hres); [lia|by rewrite pre_3|done|].
  cbn [mbind option_bind]. eexists s', _, M', T'. split; [done|]. split; [done|]. split; [done|]. destruct o as [t|]; [|done].
  change (Z.shiftr va 12) with (Z.shiftr va (12 + 9 * Z.of_nat 0)). rewrite va_index by lia.
  rewrite pre_0 in Hres. unfold ix, span. by rewrite Z.div_1_r.
Qed.

Lemma page_map_spec s M T P X r va paddr flags b :
  let x := Leaf (Z.lor paddr flags) b in
  let X' := fun f => X f + weight f (P !! (r, page_of va)) - Z.b2z (counts f x) in
  vm_inv s M T P X -> in_space T r va -> frame_addr paddr -> Z.land flags PAGE_ADDR_MASK = 0 -> bits flags PAGE_PRESENT = true ->
  (forall f, 0 <= X' f) -> leaves_ok T (<[(r, page_of va) := x]> P) X' ->
  exists s' ok M' T', vmm_page_map s r va paddr flags = Some (s', ok) /\ grown (fun n => n_root n = r) s M T s' M' T' /\
    if ok : bool then vm_inv s' M' T' (<[(r, page_of va) := x]> P) X' else vm_inv s' M' T' P X.
Proof.
  intros x X' Hi Hin Hfa Hfl Hpr HX0 Hok. unfold vmm_page_map.
  destruct (pte_create s M T P X r va _ Hi Hin (inter_flags_ok (bits flags PAGE_USER))) as (s1 & o & M' & T' & -> & Hi1 & Hg & Ho).
  cbn [mbind option_bind]. destruct o as [[t i]|]; [|by exists s1, false, M', T'].
  destruct Ho as [Ht ->]. set (v := page_of va) in *. pose proof (va_split v) as Hv. rewrite Hfa.
  destruct (set_leaf s1 M' T' P X t r (v / 512) (v mod 512) (Z.lor paddr flags) (<[(r, v) := x]> P) X' Hi1 Ht)
    as (s' & -> & Hi' & Hkeep); rewrite <- ?Hv.
  - mlia.
  - intros k Hk. by rewrite lookup_insert_ne.
  - right. exists b. rewrite lookup_insert_eq. split; [done|]. by apply bits_lor_r.
  - intros f. rewrite lookup_insert_eq. done.
  - done.
  - eapply leaves_grown; [exact Hg|done|]. intros f Hf HM.
    destruct (free_frame_unused _ _ _ _ _ _ Hi Hf HM) as (_ & H1 & H2). unfold X'. rewrite H1.
    pose proof (weight_le P (r, v) f). destruct (counts f x); cbn; lia.
  - cbn [mbind option_bind]. exists s', true, M', T'. split; [done|]. split; [|done].
    destruct Hg as [G1 G2 G3 G4]. constructor; try done. intros f Hf. rewrite Hkeep by congruence. by apply G4.
Qed.

(** ** Holding frames *)

Lemma vm_inv_ext s M T P X X' : (forall f, X' f = X f) -> vm_inv s M T P X -> vm_inv s M T P X'.
Proof. intros HX []. constructor; try done; intros; rewrite ?HX; eauto. Qed.

(** A frame somebody refers to other than by a leaf entry. *)
Lemma extra_held s M T P X f : vm_inv s M T P X -> fr_ram f -> 0 < X f -> T !! f = None /\ exists n, M !! f = Some n.
Proof.
  intros Hi Hr HX. pose proof (vi_acct _ _ _ _ _ Hi f Hr) as Ha. pose proof (map_refs_nonneg P f). unfold tab in Ha.
  destruct (T !! f) as [n|] eqn:E; [rewrite (vi_tab _ _ _ _ _ Hi f n E Hr) in Ha; cbn in Ha; lia|]. split; [done|].
  destruct (M !! f) as [n|]; [by exists n|]. cbn in Ha. lia.
Qed.

(** [D]: the references that frames mapped without one rely on. *)
Definition backed (P : gmap (Z * Z) leaf) (D : Z -> Z) : Prop :=
  (forall f, 0 <= D f) /\ forall k x, P !! k = Some x -> l_ref x = false -> fr_ram (addr x) -> 0 < D (addr x).

Definition bounded (M : gmap Z Z) : Prop := forall f n, M !! f = Some n -> n < 2 ^ 32 - 1.

Lemma take_hold s M T P X f : vm_inv s M T P X -> bounded M -> fr_ram f -> 0 < X f ->
  exists n s', M !! f = Some n /\ ref_inc s f = Some s' /\ ram s' = ram s /\ vm_inv s' (<[f := n + 1]> M) T P (bump1 f 1 X).
Proof.
  intros Hi Hb Hr HX. destruct (extra_held _ _ _ _ _ _ Hi Hr HX) as (HT & n & Hn). exists n.
  destruct (take_extra s M T P X f n Hi Hr Hn HT (Hb f n Hn)) as (s' & ? & ? & ?). by exists s'.
Qed.

Lemma drop_hold s M T P X D f : vm_inv s M T P X -> backed P D -> fr_ram f -> D f < X f ->
  exists s', ref_dec s f = Some s' /\ ram s' = ram s /\ vm_inv s' (drop_ref M f) T P (bump1 f (-1) X).
Proof.
  intros Hi [HD0 HD] Hr HX. pose proof (HD0 f). destruct (extra_held _ _ _ _ _ _ Hi Hr) as (HT & n & Hn); [lia|].
  apply (drop_extra s M T P X f n); [done..|lia|]. intros k x Hk Hl Ha. specialize (HD k x Hk Hl). rewrite Ha in HD.
  specialize (HD Hr). lia.
Qed.
End inv.
