(* ===== verification/PageClone.v ===== *)
(** * Page tables: copying an address space

    [vmm_clone_user_ex] gives the copy a table for every table of the source and
    an entry for every entry: the same frame where the area is shared, a private
    copy of a pinned frame, and otherwise the same frame read-only on both
    sides.  The effect is proved page by page for each level of the tables. *)

From S2P Require Import Prelude Errno DList Buddy Vma Frames PageTable PageTableSpec PageTableOps.

(** ** Addresses of entries *)

Lemma lor_low p k n : 0 <= k < 2 ^ n -> 0 <= n -> Z.lor (Z.shiftl p n) k = p * 2 ^ n + k.
Proof.
  intros Hk Hn. rewrite <- Z.add_nocarry_lor; [by rewrite Z.shiftl_mul_pow2|].
  apply Z.bits_inj'. intros i Hi. rewrite Z.land_spec, Z.bits_0, Z.shiftl_spec by lia.
  destruct (Z.ltb_spec i n).
  - by rewrite Z.testbit_neg_r by lia.
  - rewrite andb_comm, <- (Z.mod_small k (2 ^ n)) by lia. by rewrite Z.mod_pow2_bits_high by lia.
Qed.

(** The address of entry [k] of table [p] of level [l]. *)
Lemma entry_va l p k : 0 <= k < 512 ->
  Z.lor (p * span (S l) * 4096) (Z.shiftl k (12 + 9 * Z.of_nat l)) = (p * 512 + k) * span l * 4096.
Proof.
  intros Hk. assert (Hs : span l * 4096 = 2 ^ (12 + 9 * Z.of_nat l)).
  { unfold span. change 512 with (2 ^ 9). rewrite <- Z.pow_mul_r, Z.mul_comm by lia. change 4096 with (2 ^ 12).
    by rewrite <- Z.pow_add_r by lia. }
  rewrite span_S. replace (p * (512 * span l) * 4096) with (p * 2 ^ 9 * (span l * 4096)) by lia.
  replace ((p * 512 + k) * span l * 4096) with ((p * 512 + k) * (span l * 4096)) by lia. rewrite Hs.
  set (n := 12 + 9 * Z.of_nat l). rewrite <- (Z.shiftl_mul_pow2 (p * 2 ^ 9)), <- Z.shiftl_lor by lia.
  rewrite <- (Z.shiftl_mul_pow2 p 9), lor_low, Z.shiftl_mul_pow2 by lia. done.
Qed.

Lemma page_of_va v : 0 <= v < 2 ^ 36 -> page_of (v * 4096) = v.
Proof.
  intros Hv. unfold page_of. change (2 ^ 36 - 1) with (Z.ones 36). rewrite Z.land_ones, Z.shiftr_div_pow2 by lia.
  change 4096 with (2 ^ 12). rewrite Z.div_mul by lia. by apply Z.mod_small.
Qed.

(** ** The pages of an address space *)

Definition spages (P : gmap (Z * Z) leaf) (r : Z) : gset Z := set_map snd (filter (fun k => k.1 = r) (dom P)).

Lemma elem_spages P r v : v ∈ spages P r <-> is_Some (P !! (r, v)).
Proof.
  unfold spages. rewrite elem_of_map. split.
  - intros ([r' v'] & -> & [Hr Hd]%elem_of_filter). cbn in *. subst. by apply elem_of_dom.
  - intros Hd. exists (r, v). split; [done|]. apply elem_of_filter. split; [done|]. by apply elem_of_dom.
Qed.

(** Writable no more. *)
Definition cow (x : leaf) : leaf :=
  Leaf (Z.lor (addr x) (Z.ldiff (Z.ldiff (l_pte x) PAGE_ADDR_MASK) PAGE_WRITABLE)) (l_ref x).

Lemma flags_ldiff2 e m : Z.land (Z.ldiff (Z.ldiff e PAGE_ADDR_MASK) m) PAGE_ADDR_MASK = 0.
Proof.
  rewrite (Z.ldiff_land _ m), <- Z.land_assoc, (Z.land_comm (Z.lnot m)), Z.land_assoc.
  by rewrite flags_ldiff.
Qed.

Lemma addr_cow x : addr (cow x) = addr x.
Proof. unfold cow, addr at 1. cbn. apply frame_addr_lor; [apply frame_addr_land|apply flags_ldiff2]. Qed.

Lemma weight_cow f x : weight f (Some (cow x)) = weight f (Some x).
Proof. unfold weight, from_option, counts. by rewrite addr_cow. Qed.

Lemma present_flags e : bits e PAGE_PRESENT = true -> bits (Z.ldiff e PAGE_ADDR_MASK) PAGE_PRESENT = true.
Proof.
  unfold bits. rewrite !negb_true_iff, !Z.eqb_neq. intros Hn Hz. apply Hn. rewrite <- Hz.
  rewrite Z.ldiff_land, <- Z.land_assoc. f_equal.
Qed.

Lemma present_cow x : bits (l_pte x) PAGE_PRESENT = true -> bits (l_pte (cow x)) PAGE_PRESENT = true.
Proof.
  intros Hp. apply bits_lor_r. unfold bits in *. rewrite !negb_true_iff, !Z.eqb_neq in *. intros Hz. apply Hp.
  rewrite <- Hz, !Z.ldiff_land, <- !Z.land_assoc. f_equal.
Qed.

(** The pages of entry [q] of level [l], and the tables below it. *)
Definition range (l : nat) (q v : Z) : Prop := v / span l = q.
Definition below (l : nat) (q : Z) (n : node) : Prop := (n_level n < l)%nat /\ n_number n / span (l - 1 - n_level n) = q.

#[export] Instance below_dec l q n : Decision (below l q n).
Proof. unfold below. apply _. Defined.
#[export] Instance range_dec l q v : Decision (range l q v).
Proof. unfold range. apply _. Defined.

Lemma range_S l q v : range (S l) q v <-> exists k, k ∈ seqZ 0 512 /\ range l (q * 512 + k) v.
Proof.
  unfold range. rewrite div_span. split.
  - intros <-. exists ((v / span l) mod 512). rewrite elem_of_seqZ. split; mlia.
  - intros (k & Hk & ->). apply elem_of_seqZ in Hk. mlia.
Qed.

(** An address space maps nothing below an empty entry. *)
Lemma nothing_below kroot kwin R T P t r l p k v :
  shape kroot kwin R T P -> T !! t = Some (Node r (S l) p) -> (S l <= 3)%nat -> 0 <= k < 512 -> entry R t k = 0 ->
  range (S l) (p * 512 + k) v -> P !! (r, v) = None.
Proof.
  intros Hs Ht Hl Hk He Hv. destruct (P !! (r, v)) as [x|] eqn:E; [|done].
  destruct (sh_dom _ _ _ _ _ Hs _ _ _ E) as [_ [u Hu]]. rewrite <- pre_0 in Hu.
  destruct (ancestors _ _ _ _ _ _ _ _ l Hs 0%nat Hu) as [w Hw]; [lia|]. cbn [Nat.add] in Hw.
  destruct (none_below _ _ _ _ _ _ _ _ _ _ Hs Ht Hl Hk He w). by rewrite Hw, <- Hv.
Qed.

Lemma inter_ok e : Z.land (Z.land (Z.ldiff e PAGE_ADDR_MASK) 0xFFF) PAGE_ADDR_MASK = 0.
Proof. by rewrite <- Z.land_assoc, Z.land_0_r. Qed.

Lemma below_self l q r : below (S l) q (Node r l q).
Proof. unfold below. cbn [n_level n_number]. split; [lia|]. replace (S l - 1 - l)%nat with 0%nat by lia. apply Z.div_1_r. Qed.

(** The tables below an entry of a table below. *)
Lemma below_S l q k n : 0 <= k < 512 -> below l (q * 512 + k) n -> below (S l) q n.
Proof.
  intros Hk [Hl Hn]. split; [lia|]. replace (S l - 1 - n_level n)%nat with (S (l - 1 - n_level n)) by lia.
  rewrite div_span, Hn. mlia.
Qed.

Definition user_page (v : Z) : Prop := 0 <= v < 2 ^ 35.

Lemma user_range v : user_page v <-> exists k, k ∈ seqZ 0 256 /\ range 3 (0 * 512 + k) v.
Proof.
  unfold user_page, range, span. change (512 ^ Z.of_nat 3) with (2 ^ 27). split.
  - intros Hv. exists (v / 2 ^ 27). rewrite elem_of_seqZ. split; mlia.
  - intros (k & Hk & Hv). apply elem_of_seqZ in Hk. mlia.
Qed.

Lemma user_slot kroot kwin r k : r <> kroot -> 0 <= k < 256 -> slot kroot kwin (Node r 3 0) k.
Proof.
  intros Hr Hk. split; [lia|]. intros _. cbn. unfold owns. destruct (Z.eqb_spec r kroot); [done|]. apply Z.ltb_lt. lia.
Qed.

(** An address space with nothing in it. *)
Definition empty_space (T : gmap Z node) (P : gmap (Z * Z) leaf) (r : Z) : Prop :=
  T !! r = Some (Node r 3 0) /\ (forall t n, T !! t = Some n -> n_root n = r -> t = r) /\ (forall v, P !! (r, v) = None).

(** Counts as they change when a page is copied. *)
Definition grows (M M' : gmap Z Z) : Prop :=
  (forall f n, M' !! f = Some n -> n = 1 \/ (exists n0, M !! f = Some n0 /\ n <= n0 + 1)) /\
  (forall f, is_Some (M !! f) -> is_Some (M' !! f)).

Lemma grows_refl M : grows M M.
Proof. split; [|done]. intros f n Hf. right. exists n. split; [done|lia]. Qed.

Lemma grows_inc M f n : M !! f = Some n -> grows M (<[f := n + 1]> M).
Proof.
  intros Hf. split.
  - intros g k [[<- <-]|[Hg Hk]]%lookup_insert_Some; right; [by exists n|]. exists k. split; [done|lia].
  - intros g Hg. destruct (decide (g = f)) as [->|]; [rewrite lookup_insert_eq; by eexists|by rewrite lookup_insert_ne].
Qed.

Lemma grows_new M f : M !! f = None -> grows M (<[f := 1]> M).
Proof.
  intros Hf. split.
  - intros g k [[<- <-]|[Hg Hk]]%lookup_insert_Some; [by left|right]. exists k. split; [done|lia].
  - intros g Hg. destruct (decide (g = f)) as [->|]; [rewrite lookup_insert_eq; by eexists|by rewrite lookup_insert_ne].
Qed.
Section clone.
Context {A : Type} `{FrameLaws A} (kroot : Z) (kwin : Z -> bool).
Context (X : Z -> Z) (src dst : Z) (m : mm) (Hne : src <> dst) (lone : Z * Z -> Prop).
Abbreviation inv := (vm_inv kroot kwin).

(** What the source's areas say of a page. *)
Definition area (v : Z) : option vma := mm_vma_find m (v * 4096).
Definition is_shmem (v : Z) : bool := match area v with Some a => negb (v_shmem a =? 0) | None => false end.
Definition is_shared (v : Z) : bool := is_shmem v || match area v with Some a => bits (v_flags a) VMA_MMIO | None => false end.

Context (Hlone : forall v, lone (src, v) \/ lone (dst, v) -> is_shared v = false).

(** Only device memory is mapped without a reference. *)
Definition tagged (P : gmap (Z * Z) leaf) : Prop :=
  forall v x, P !! (src, v) = Some x -> l_ref x = negb (is_shared v && negb (is_shmem v)).

(** The counts stay below [2 ^ 32] while the rest of the pages are copied. *)
Record room (M : gmap Z Z) (P : gmap (Z * Z) leaf) : Prop := {
  rm_sub : spages P dst ⊆ spages P src;
  rm_one : 1 + (Z.of_nat (size (spages P src)) - Z.of_nat (size (spages P dst))) <= 2 ^ 32 - 1;
  rm_all f n : M !! f = Some n -> n + (Z.of_nat (size (spages P src)) - Z.of_nat (size (spages P dst))) <= 2 ^ 32 - 1;
}.

(** The pages [lone], wherever they can be written to, are not shared. *)
Definition excl (P : gmap (Z * Z) leaf) : Prop := forall k x, lone k -> P !! k = Some x -> bits (l_pte x) PAGE_WRITABLE = true ->
  l_ref x = true /\ refs P (addr x) = 1 /\ X (addr x) = 0.

Record cinv (s : machine A) (M : gmap Z Z) (T : gmap Z node) (P : gmap (Z * Z) leaf) : Prop := {
  ci_inv : inv s M T P X;
  ci_room : room M P;
  ci_tagged : tagged P;
  ci_excl : excl P;
}.

(** The entries [xs] and [xd] of source and copy, after page [v] with entry [x]
    was copied. *)
Definition copied (v : Z) (s : machine A) (M : gmap Z Z) (x xs xd : leaf) (s' : machine A) : Prop :=
  if is_shared v then xs = x /\ xd = x
  else
    (xs = x /\ l_ref xd = true /\ l_pte xd = Z.lor (addr xd) (Z.ldiff (l_pte x) PAGE_ADDR_MASK) /\
     M !! addr xd = None /\ fr_ram (addr xd) /\ ram s' !! addr xd = ram s !! addr x) \/
    (xs = cow x /\ xd = cow x).

Definition page_copied (v : Z) (s : machine A) (M : gmap Z Z) (P : gmap (Z * Z) leaf) (s' : machine A) (P' : gmap (Z * Z) leaf) : Prop :=
  match P !! (src, v) with
  | None => P' !! (src, v) = None /\ P' !! (dst, v) = None
  | Some x => exists xs xd, P' !! (src, v) = Some xs /\ P' !! (dst, v) = Some xd /\ copied v s M x xs xd s'
  end.

(** The pages [G] were copied, all of them if [ok]. *)
Record cloned (G : Z -> Prop) (Q : node -> Prop) (s : machine A) (M : gmap Z Z) (T : gmap Z node) (P : gmap (Z * Z) leaf)
  (s' : machine A) (M' : gmap Z Z) (T' : gmap Z node) (P' : gmap (Z * Z) leaf) (ok : bool) : Prop := {
  cl_tabs : T ⊆ T';
  cl_new t n : T' !! t = Some n -> T !! t = None -> M !! t = None /\ fr_ram t /\ n_root n = dst /\ Q n;
  cl_data f : is_Some (M !! f) \/ ~ fr_ram f -> T !! f = None -> ram s' !! f = ram s !! f;
  cl_held f : is_Some (M !! f) -> is_Some (M' !! f);
  cl_other r v : r <> src /\ r <> dst \/ ~ G v -> P' !! (r, v) = P !! (r, v);
  cl_pages v : G v -> page_copied v s M P s' P' \/ (ok = false /\ P' !! (src, v) = P !! (src, v) /\ P' !! (dst, v) = None);
}.

(** Data that is held and is no table survives the growth of the tables. *)
Lemma cloned_keep G Q s M T P s' M' T' P' ok f :
  cloned G Q s M T P s' M' T' P' ok -> is_Some (M !! f) \/ ~ fr_ram f -> T !! f = None -> T' !! f = None.
Proof.
  intros Hc Hf HT. destruct (T' !! f) as [n|] eqn:E; [|done]. destruct (cl_new _ _ _ _ _ _ _ _ _ _ _ Hc _ _ E HT) as (HM & Hr & _).
  destruct Hf as [[? Hf]|Hf]; [congruence|done].
Qed.

Lemma cloned_none (G : Z -> Prop) Q s M T P :
  (forall v, G v -> P !! (src, v) = None /\ P !! (dst, v) = None) -> cloned G Q s M T P s M T P true.
Proof.
  intros HG. constructor; try done; [congruence|]. intros v Hv. left. unfold page_copied. destruct (HG v Hv) as [-> ->]. done.
Qed.

(** Nothing copied. *)
Lemma cloned_fail (G : Z -> Prop) Q s M T P s' :
  (forall v, G v -> P !! (dst, v) = None) -> ram s' = ram s -> cloned G Q s M T P s' M T P false.
Proof. intros HG Hr. constructor; try done; [congruence|by rewrite Hr|]. intros v Hv. right. auto. Qed.

(** A copied page stays copied while others are. *)
Lemma copied_later v s M x xs xd s1 M1 T1 P1 G Q s2 M2 T2 P2 ok :
  inv s1 M1 T1 P1 X -> P1 !! (dst, v) = Some xd -> cloned G Q s1 M1 T1 P1 s2 M2 T2 P2 ok ->
  copied v s M x xs xd s1 -> copied v s M x xs xd s2.
Proof.
  intros Hi Hd Hcl Hc. unfold copied in *. destruct (is_shared v); [done|].
  destruct Hc as [(H1 & H2 & H3 & H4 & H5 & H6)|Hc]; [left|by right]. do 5 (split; [done|]). rewrite <- H6.
  apply (cl_data _ _ _ _ _ _ _ _ _ _ _ Hcl).
  - left. destruct (counted_held _ _ _ _ _ _ _ _ _ Hi Hd H2) as [n Hn]. by exists n.
  - by eapply mapped_not_table.
Qed.

(** A page copied later is copied from what was there before. *)
Lemma copied_earlier v s M T P x xs xd s1 M1 T1 P1 G Q s2 ok :
  cinv s M T P -> P !! (src, v) = Some x -> cloned G Q s M T P s1 M1 T1 P1 ok ->
  copied v s1 M1 x xs xd s2 -> copied v s M x xs xd s2.
Proof.
  intros [Hi _ Htag _] Hx Hcl Hc. unfold copied in *. destruct (is_shared v) eqn:Es; [done|].
  destruct Hc as [(H1 & H2 & H3 & H4 & H5 & H6)|Hc]; [left|by right]. do 3 (split; [done|]). split; [|split; [done|]].
  - destruct (M !! addr xd) as [n|] eqn:E; [|done]. destruct (cl_held _ _ _ _ _ _ _ _ _ _ _ Hcl (addr xd)) as [n' Hn'];
      [by eexists|congruence].
  - rewrite H6. apply (cl_data _ _ _ _ _ _ _ _ _ _ _ Hcl); [left|by eapply mapped_not_table].
    assert (Hr : l_ref x = true) by by rewrite (Htag v x Hx), Es.
    destruct (counted_held _ _ _ _ _ _ _ _ _ Hi Hx Hr) as [n Hn]. by exists n.
Qed.

Lemma cloned_seq (G1 G2 : Z -> Prop) Q s M T P s1 M1 T1 P1 s2 M2 T2 P2 ok :
  cinv s M T P -> cinv s1 M1 T1 P1 -> (forall v, G1 v -> ~ G2 v) ->
  cloned G1 Q s M T P s1 M1 T1 P1 true -> cloned G2 Q s1 M1 T1 P1 s2 M2 T2 P2 ok ->
  cloned (fun v => G1 v \/ G2 v) Q s M T P s2 M2 T2 P2 ok.
Proof.
  intros Hc Hc1 Hdj C1 C2. pose proof C1 as [A1 B1 D1 E1 O1 S1]. pose proof C2 as [A2 B2 D2 E2 O2 S2]. constructor.
  - by etrans.
  - intros t n Ht Hn. destruct (T1 !! t) as [n1|] eqn:E.
    + assert (n1 = n) as -> by (apply (lookup_weaken _ _ _ _ E) in A2; congruence). by apply B1.
    + destruct (B2 t n Ht E) as (H1 & H2 & H3). split; [|done]. destruct (M !! t) as [k|] eqn:Ek; [|done].
      destruct (E1 t) as [k' Hk']; [by eexists|congruence].
  - intros f Hf HT. rewrite D2, D1; [done..| |by eapply cloned_keep]. destruct Hf as [Hf|Hf]; [left; auto|by right].
  - auto.
  - intros r v Hv. rewrite O2 by tauto. apply O1. tauto.
  - intros v [Hv|Hv].
    + destruct (S1 v Hv) as [Hp|[? _]]; [left|done]. unfold page_copied in *.
      rewrite !O2 by (right; auto). destruct (P !! (src, v)) as [x|]; [|done].
      destruct Hp as (xs & xd & Hs & Hd & Hcp). exists xs, xd. split; [done|]. split; [done|].
      eapply copied_later; [apply Hc1|exact Hd|exact C2|done].
    + assert (Hn1 : ~ G1 v) by (intros Hg; by apply (Hdj v)). destruct (S2 v Hv) as [Hp|(-> & Hs & Hd)].
      * left. unfold page_copied in *. rewrite O1 in Hp by by right. destruct (P !! (src, v)) as [x|] eqn:Ex; [|done].
        destruct Hp as (xs & xd & Hs & Hd & Hcp). exists xs, xd. split; [done|]. split; [done|].
        eapply copied_earlier; [exact Hc|exact Ex|exact C1|done].
      * right. split; [done|]. split; [|done]. rewrite Hs. apply O1. by right.
Qed.

(** A failure part of the way. *)
Lemma cloned_stop (G G' : Z -> Prop) Q s M T P s' M' T' P' :
  (forall v, Decision (G v)) -> (forall v, G v -> G' v) -> (forall v, G' v -> P !! (dst, v) = None) ->
  cloned G Q s M T P s' M' T' P' false -> cloned G' Q s M T P s' M' T' P' false.
Proof.
  intros Hdec HG HP [A1 B1 D1 E1 O1 S1]. constructor; try done.
  - intros r v Hv. apply O1. destruct Hv as [Hv|Hv]; [by left|right]. auto.
  - intros v Hv. destruct (decide (G v)) as [Hg|Hg]; [auto|]. right. rewrite !O1 by by right. auto.
Qed.

Lemma cloned_mono (G : Z -> Prop) (Q Q' : node -> Prop) s M T P s' M' T' P' ok :
  (forall n, Q n -> Q' n) -> cloned G Q s M T P s' M' T' P' ok -> cloned G Q' s M T P s' M' T' P' ok.
Proof.
  intros HQ [A1 B1 D1 E1 O1 S1]. constructor; try done.
  intros t n Ht Hn. destruct (B1 t n Ht Hn) as (? & ? & ? & ?). auto.
Qed.

Lemma cloned_ext (G G' : Z -> Prop) Q s M T P s' M' T' P' ok :
  (forall v, G v <-> G' v) -> cloned G Q s M T P s' M' T' P' ok -> cloned G' Q s M T P s' M' T' P' ok.
Proof.
  intros HG [A1 B1 D1 E1 O1 S1]. constructor; try done.
  - intros r v Hv. apply O1. rewrite HG. done.
  - intros v Hv. apply S1. by apply HG.
Qed.

(** ** One page *)

(** Data written to a frame that is not a table. *)
Lemma inv_data s s' M T P Y :
  inv s M T P Y -> fa s' = fa s -> (forall u, is_Some (ram s !! u) -> is_Some (ram s' !! u)) ->
  (forall t, is_Some (T !! t) -> ram s' !! t = ram s !! t) -> inv s' M T P Y.
Proof.
  intros [Hs Hrep Hram Hac Hex Htab Hco Hpl Hus] Hfa Hdom Hk. constructor; try done; [|by rewrite Hfa|auto].
  assert (He : forall t n i, T !! t = Some n -> entry (ram s') t i = entry (ram s) t i).
  { intros t n i Ht. unfold entry. rewrite Hk; [done|by eexists]. }
  destruct Hs as [S1 S2 S3 S4 S5 S6]. constructor; try done.
  - intros t n Ht. destruct (S2 t n Ht). auto.
  - intros t r l q i Ht Hi. rewrite (He t _ i Ht). by apply S3.
  - intros t r l q Ht Hl. destruct (S4 t r l q Ht Hl) as (t' & Ht' & Hrest). exists t'. by rewrite (He t' _ _ Ht').
  - intros t r q i Ht Hi. rewrite (He t _ i Ht). by apply S5.
Qed.

(** A reference taken before or after a table is written. *)
Lemma inc_then_write (s s1 s2 : machine A) f t i e :
  ref_inc s f = Some s1 -> write_word s1 t i e = Some s2 ->
  exists s1', write_word s t i e = Some s1' /\ ref_inc s1' f = Some s2.
Proof.
  unfold ref_inc, write_word. intros H1 H2. bind_inv H1. injection H1 as <-. cbn [ram with_fa fa] in H2.
  destruct (ram s !! t) as [p|]; [|done]. cbn [mbind option_bind] in *. injection H2 as <-.
  eexists. split; [done|]. cbn [fa with_ram]. by rewrite E.
Qed.

Lemma room_step M M' P v x xs xd :
  room M P -> P !! (src, v) = Some x -> P !! (dst, v) = None ->
  grows M M' -> room M' (<[(dst, v) := xd]> (<[(src, v) := xs]> P)).
Proof.
  intros [Hsub Hone Hall] Hx Hd [HM _]. set (P' := <[(dst, v) := xd]> (<[(src, v) := xs]> P)).
  assert (Hs : spages P' src = spages P src).
  { apply set_eq. intros w. rewrite !elem_spages. unfold P'. rewrite lookup_insert_ne by congruence.
    destruct (decide (w = v)) as [->|Hw]; [rewrite lookup_insert_eq, Hx; split; by eexists|].
    by rewrite lookup_insert_ne by congruence. }
  assert (Hdp : spages P' dst = {[v]} ∪ spages P dst).
  { apply set_eq. intros w. rewrite elem_of_union, elem_of_singleton, !elem_spages. unfold P'.
    destruct (decide (w = v)) as [->|Hw]; [rewrite lookup_insert_eq; split; [by left|by eexists]|].
    rewrite !lookup_insert_ne by congruence. naive_solver. }
  assert (Hnew : v ∉ spages P dst) by (rewrite elem_spages, Hd; by intros [? ?]).
  assert (Hsz : Z.of_nat (size (spages P' dst)) = Z.of_nat (size (spages P dst)) + 1).
  { rewrite Hdp, size_union, size_singleton by set_solver. lia. }
  constructor; rewrite ?Hs, ?Hsz.
  - rewrite Hdp. apply union_subseteq. split; [|done]. apply singleton_subseteq_l, elem_spages. by eexists.
  - lia.
  - intros g n Hg. destruct (HM g n Hg) as [->|(n0 & Hn0 & Hle)]; [lia|]. specialize (Hall g n0 Hn0). lia.
Qed.

(** The count of a frame of the source can still grow. *)
Lemma room_inc M P v x f n : room M P -> P !! (src, v) = Some x -> P !! (dst, v) = None -> M !! f = Some n -> n < 2 ^ 32 - 1.
Proof.
  intros [Hsub Hone Hall] Hx Hd Hf. specialize (Hall f n Hf).
  assert (size (spages P dst) < size (spages P src))%nat; [|lia]. apply subset_size. split; [done|]. intros Hsub'.
  assert (Hin : v ∈ spages P dst) by (apply Hsub', elem_spages; by eexists). apply elem_spages in Hin as [? ?]. congruence.
Qed.

(** A second entry for the same frame. *)
Lemma refs_two P k j x y f : k <> j -> P !! k = Some x -> P !! j = Some y -> counts f x = true -> counts f y = true -> 2 <= refs P f.
Proof.
  intros Hn Hk Hj Hx Hy. rewrite (refs_delete P k x f Hk), Hx. assert (1 <= refs (delete k P) f); [|cbn; lia].
  eapply (refs_pos _ j y); [by rewrite lookup_delete_ne|done].
Qed.

Lemma excl_other P k j x y : excl P -> lone k -> P !! k = Some x -> bits (l_pte x) PAGE_WRITABLE = true -> k <> j -> P !! j = Some y ->
  counts (addr x) y = false.
Proof.
  intros He Hk Hx Hw Hn Hy. destruct (He k x Hk Hx Hw) as (Hl & Hr & _). destruct (counts (addr x) y) eqn:E; [|done].
  assert (2 <= refs P (addr x)); [|lia]. eapply refs_two; [exact Hn|exact Hx|exact Hy| |done]. unfold counts. by rewrite Hl, Z.eqb_refl.
Qed.

Lemma excl_copy P v x xs xd :
  excl P -> P !! (src, v) = Some x -> P !! (dst, v) = None -> addr xs = addr x -> l_ref xs = l_ref x ->
  (is_shared v = true \/ bits (l_pte xs) PAGE_WRITABLE = false /\ bits (l_pte xd) PAGE_WRITABLE = false) /\ addr xd = addr x /\ l_ref xd = l_ref x \/
  xs = x /\ refs P (addr xd) = 0 /\ X (addr xd) = 0 /\ l_ref xd = true ->
  excl (<[(dst, v) := xd]> (<[(src, v) := xs]> P)).
Proof.
  intros He Hx Hd Ha Hl Hcase. set (P' := <[(dst, v) := xd]> (<[(src, v) := xs]> P)).
  assert (Hrefs : forall g, refs P' g = refs P g + Z.b2z (counts g xd)).
  { intros g. unfold P'. rewrite !refs_insert, lookup_insert_ne, Hd, Hx by congruence. unfold weight, from_option, counts. rewrite Ha, Hl. lia. }
  assert (Hold : forall k y, k <> (src, v) -> lone k -> P !! k = Some y -> bits (l_pte y) PAGE_WRITABLE = true ->
    l_ref y = true /\ refs P' (addr y) = 1 /\ X (addr y) = 0).
  { intros k y Hk Hlk Hy Hw. destruct (He k y Hlk Hy Hw) as (H1 & H2 & H3). split_and!; [done| |done]. rewrite Hrefs, H2.
    assert (counts (addr y) xd = false) as ->; [|done]. destruct Hcase as [(_ & Hax & Hlx)|(_ & H4 & _)].
    - pose proof (excl_other _ _ _ _ _ He Hlk Hy Hw Hk Hx) as Hc. unfold counts in *. by rewrite Hax, Hlx.
    - unfold counts. destruct (Z.eqb_spec (addr xd) (addr y)) as [E|]; [rewrite E in H4; lia|by rewrite andb_false_r]. }
  intros k y Hlk [[<- <-]|[Hkd [[<- <-]|[Hks Hy]]%lookup_insert_Some]]%lookup_insert_Some Hw; [| |by eapply Hold].
  - destruct Hcase as [([Hsh|[_ Hno]] & _)|(_ & H4 & H5 & H6)]; [|congruence|].
    + rewrite Hlone in Hsh by by right. done.
    + split_and!; [done| |done]. rewrite Hrefs, H4. unfold counts. by rewrite H6, Z.eqb_refl.
  - destruct Hcase as [([Hsh|[Hno _]] & _)|(-> & H4 & H5 & H6)]; [|congruence|].
    + rewrite Hlone in Hsh by by left. done.
    + destruct (He _ _ Hlk Hx Hw) as (H1 & H2 & H3). split_and!; [done| |done]. rewrite Hrefs, H2. unfold counts.
      destruct (Z.eqb_spec (addr xd) (addr x)) as [E|]; [rewrite E in H4; lia|by rewrite andb_false_r].
Qed.

Lemma cow_readonly x : bits (l_pte (cow x)) PAGE_WRITABLE = false.
Proof.
  unfold bits, cow. cbn [l_pte]. rewrite Z.land_lor_distr_l, Z.ldiff_land, <- Z.land_assoc, (Z.land_comm (Z.lnot _)), Z.land_lnot_diag, Z.land_0_r.
  unfold addr. by rewrite <- Z.land_assoc, Z.land_0_r.
Qed.

Lemma copied_excl s M T P v x xs xd s' :
  inv s M T P X -> excl P -> P !! (src, v) = Some x -> P !! (dst, v) = None -> l_ref xs = l_ref x ->
  copied v s M x xs xd s' -> excl (<[(dst, v) := xd]> (<[(src, v) := xs]> P)).
Proof.
  intros Hi He Hx Hd Hl Hc. unfold copied in Hc. destruct (is_shared v) eqn:Es.
  { destruct Hc as [-> ->]. eapply excl_copy; [done|exact Hx|done..|]. left. split; [by left|done]. }
  destruct Hc as [(-> & Hr & _ & HM & Hram & _)|[-> ->]].
  - destruct (free_frame_unused _ _ _ _ _ _ _ _ Hi Hram HM) as (_ & HX & HP). eapply excl_copy; [done|exact Hx|done..|]. by right.
  - eapply excl_copy; [done|exact Hx|done|apply addr_cow|done|]. left. split_and!; [right; split; apply cow_readonly|apply addr_cow|done].
Qed.

Lemma leaf_done Q s M T P s' M' v x xs xd :
  cinv s M T P -> P !! (src, v) = Some x -> P !! (dst, v) = None ->
  inv s' M' T (<[(dst, v) := xd]> (<[(src, v) := xs]> P)) X -> l_ref xs = l_ref x ->
  grows M M' ->
  (forall f, is_Some (M !! f) \/ ~ fr_ram f -> T !! f = None -> ram s' !! f = ram s !! f) ->
  copied v s M x xs xd s' ->
  exists P', cinv s' M' T P' /\ cloned (fun w => w = v) Q s M T P s' M' T P' true.
Proof.
  intros [Hi Hroom Htag Hxc] Hx Hd Hi' Hl Hgr Hdata Hc. exists (<[(dst, v) := xd]> (<[(src, v) := xs]> P)). split.
  - constructor; [done|by eapply room_step| |by eapply copied_excl]. intros w y. rewrite lookup_insert_ne by congruence.
    intros [[[= <-] <-]|[Hn Hy]]%lookup_insert_Some; [rewrite Hl|]; by apply Htag.
  - constructor; try done; [congruence|apply Hgr| |].
    + intros r w Hw. rewrite !lookup_insert_ne by naive_solver. done.
    + intros w ->. left. unfold page_copied. rewrite Hx. exists xs, xd.
      rewrite lookup_insert_ne, !lookup_insert_eq by congruence. done.
Qed.

(** An entry of the copy. *)
Lemma set_dst s M T P Y t p i y Y' :
  inv s M T P Y -> T !! t = Some (Node dst 0 p) -> 0 <= i < 512 -> P !! (dst, p * 512 + i) = None ->
  bits (l_pte y) PAGE_PRESENT = true -> (forall f, Y' f = Y f - weight f (Some y)) -> (forall f, 0 <= Y' f) ->
  leaves_ok T P Y' -> (if l_ref y then fr_ram (addr y) else T !! addr y = None /\ (fr_ram (addr y) -> 0 < Y' (addr y))) ->
  exists s', write_word s t i (l_pte y) = Some s' /\ inv s' M T (<[(dst, p * 512 + i) := y]> P) Y' /\
    (forall u, u <> t -> ram s' !! u = ram s !! u).
Proof.
  intros Hi Ht Hr Hnone Hb HY HY0 Hok Hy. eapply (set_leaf kroot kwin s M T P Y t dst p i); try done.
  - intros k Hk. by rewrite lookup_insert_ne.
  - right. exists (l_ref y). rewrite lookup_insert_eq. by destruct y.
  - intros f. rewrite lookup_insert_eq, Hnone, HY. cbn. lia.
  - intros k x [[<- <-]|[Hk Hx]]%lookup_insert_Some; [done|exact (Hok k x Hx)].
Qed.

Lemma bump_spent (Y : Z -> Z) f y g : l_ref y = true -> addr y = f -> Y g = bump1 f 1 Y g - weight g (Some y).
Proof. intros Hl Ha. unfold bump1, weight, from_option, counts. rewrite Hl, Ha. cbn. rewrite (Z.eqb_sym f g). destruct (g =? f); cbn; lia. Qed.

(** The same entry for the copy, with a reference for shared memory. *)
Lemma share_page Q s M T P dst_t p i x :
  cinv s M T P -> T !! dst_t = Some (Node dst 0 p) -> 0 <= i < 512 ->
  P !! (src, p * 512 + i) = Some x -> P !! (dst, p * 512 + i) = None -> is_shared (p * 512 + i) = true ->
  exists s1 s' M' P', (if is_shmem (p * 512 + i) then ref_inc s (addr x) else Some s) = Some s1 /\
    write_word s1 dst_t i (l_pte x) = Some s' /\ cinv s' M' T P' /\
    cloned (fun w => w = p * 512 + i) Q s M T P s' M' T P' true.
Proof.
  intros Hc Ht Hr Hx Hnone Hsh. pose proof Hc as [Hi Hroom Htag Hxc]. set (v := p * 512 + i) in *.
  pose proof (Htag v x Hx) as Hl. rewrite Hsh in Hl. cbn [andb] in Hl. rewrite negb_involutive in Hl.
  pose proof (leaf_present _ _ _ _ _ _ _ (vi_shape _ _ _ _ _ _ _ Hi) Hx) as Hb.
  assert (Hkeep : forall s1 s' : machine A, ram s1 = ram s -> (forall u, u <> dst_t -> ram s' !! u = ram s1 !! u) ->
    forall f, is_Some (M !! f) \/ ~ fr_ram f -> T !! f = None -> ram s' !! f = ram s !! f).
  { intros s1 s' Hram Hk f _ Hf. rewrite Hk, Hram by congruence. done. }
  destruct (is_shmem v).
  - pose proof (vi_counted _ _ _ _ _ _ _ Hi _ _ Hx Hl) as Hra.
    destruct (counted_held _ _ _ _ _ _ _ _ _ Hi Hx Hl) as [n Hn].
    destruct (take_extra _ _ s M T P X (addr x) n Hi Hra Hn) as (s1 & Hinc & Hram & Hi1);
      [by eapply mapped_not_table|by eapply room_inc|].
    destruct (set_dst s1 _ T P _ dst_t p i x X Hi1 Ht Hr Hnone Hb) as (s' & Hw & Hi' & Hk).
    { intros f. by apply bump_spent. }
    { apply Hi. }
    { by eapply vm_leaves. }
    { by rewrite Hl. }
    destruct (leaf_done Q s M T P s' (<[addr x := n + 1]> M) v x x x) as (P' & Hc' & Hcl); try done.
    { by rewrite (insert_id P (src, v)). }
    { by apply grows_inc. }
    { by eapply Hkeep. }
    { unfold copied. by rewrite Hsh. }
    by exists s1, s', (<[addr x := n + 1]> M), P'.
  - destruct (vi_plain _ _ _ _ _ _ _ Hi _ _ Hx Hl) as [HT HX].
    destruct (set_dst s M T P X dst_t p i x X Hi Ht Hr Hnone Hb) as (s' & Hw & Hi' & Hk).
    { intros f. unfold weight, from_option, counts. rewrite Hl. cbn. lia. }
    { apply Hi. }
    { by eapply vm_leaves. }
    { by rewrite Hl. }
    destruct (leaf_done Q s M T P s' M v x x x) as (P' & Hc' & Hcl); try done.
    { by rewrite (insert_id P (src, v)). }
    { apply grows_refl. }
    { by eapply Hkeep. }
    { unfold copied. by rewrite Hsh. }
    by exists s, s', M, P'.
Qed.

(** The frame is copied for the copy. *)
Lemma copy_private Q s M T P dst_t p i x :
  cinv s M T P -> T !! dst_t = Some (Node dst 0 p) -> 0 <= i < 512 ->
  P !! (src, p * 512 + i) = Some x -> P !! (dst, p * 512 + i) = None -> is_shared (p * 512 + i) = false ->
  exists s1 o, alloc s = Some (s1, o) /\
    match o with
    | None => cinv s1 M T P /\ ram s1 = ram s
    | Some f => exists s2 s' M' P', copy_page s1 f (addr x) = Some s2 /\
        write_word s2 dst_t i (Z.lor f (Z.ldiff (l_pte x) PAGE_ADDR_MASK)) = Some s' /\ cinv s' M' T P' /\
        cloned (fun w => w = p * 512 + i) Q s M T P s' M' T P' true
    end.
Proof.
  intros Hc Ht Hr Hx Hnone Hsh. pose proof Hc as [Hi Hroom Htag Hxc]. set (v := p * 512 + i) in *.
  pose proof (Htag v x Hx) as Hl. rewrite Hsh in Hl. cbn [andb negb] in Hl.
  pose proof (leaf_present _ _ _ _ _ _ _ (vi_shape _ _ _ _ _ _ _ Hi) Hx) as Hb.
  destruct (frame_alloc_spec _ _ s M T P X Hi) as (s1 & o & Hrun & Hram & Ho). exists s1, o. split; [done|].
  destruct o as [f|]; [|by split]. destruct Ho as (Hrf & HMf & HTf & Hrep).
  pose proof (alloc_hold _ _ s s1 M T P X f Hi Hram Hrf HMf Hrep) as Hi1.
  destruct (fr_ram_addr f Hrf) as [Hfa _]. destruct (vi_ram _ _ _ _ _ _ _ Hi f Hrf) as [pf Hpf].
  destruct (vi_ram _ _ _ _ _ _ _ Hi _ (vi_counted _ _ _ _ _ _ _ Hi _ _ Hx Hl)) as [px Hpx].
  unfold copy_page. rewrite Hram, Hpf, Hpx. cbn [mbind option_bind]. set (s2 := with_ram (<[f := px]> (ram s)) s1).
  assert (Hoth : forall u, u <> f -> ram s2 !! u = ram s !! u) by (intros u Hu; by apply lookup_insert_ne).
  assert (Hi2 : inv s2 (<[f := 1]> M) T P (bump1 f 1 X)).
  { eapply inv_data; [exact Hi1|done| |]; rewrite Hram.
    - intros u Hu. destruct (decide (u = f)) as [->|Hn]; [|by rewrite Hoth]. eexists. apply lookup_insert_eq.
    - intros t [n Hn]. apply Hoth. congruence. }
  set (y := Leaf (Z.lor f (Z.ldiff (l_pte x) PAGE_ADDR_MASK)) true).
  assert (Hay : addr y = f) by (apply frame_addr_lor; [done|apply flags_ldiff]).
  destruct (set_dst s2 _ T P _ dst_t p i y X Hi2 Ht Hr Hnone) as (s' & Hw & Hi' & Hk).
  { by apply bits_lor_r, present_flags. }
  { intros g. by apply bump_spent. }
  { apply Hi. }
  { by eapply vm_leaves. }
  { cbn [l_ref y]. by rewrite Hay. }
  destruct (leaf_done Q s M T P s' (<[f := 1]> M) v x x y) as (P' & Hc' & Hcl); try done.
  { by rewrite (insert_id P (src, v)). }
  { by apply grows_new. }
  { intros g Hg HTg. assert (g <> f) by (intros ->; destruct Hg as [[? ?]|?]; [congruence|done]).
    rewrite Hk, Hoth by congruence. done. }
  { unfold copied. rewrite Hsh. left. rewrite Hay. do 5 (split; [done|]). rewrite Hk by congruence.
    cbn [s2 with_ram ram]. by rewrite lookup_insert_eq. }
  by exists s2, s', (<[f := 1]> M), P'.
Qed.

(** The frame is shared read-only. *)
Lemma share_cow Q s M T P src_t dst_t p i x :
  cinv s M T P -> T !! src_t = Some (Node src 0 p) -> T !! dst_t = Some (Node dst 0 p) -> 0 <= i < 512 ->
  P !! (src, p * 512 + i) = Some x -> P !! (dst, p * 512 + i) = None -> is_shared (p * 512 + i) = false ->
  exists s1 s2 s' M' P', write_word s src_t i (l_pte (cow x)) = Some s1 /\ write_word s1 dst_t i (l_pte (cow x)) = Some s2 /\
    ref_inc s2 (addr x) = Some s' /\ cinv s' M' T P' /\ cloned (fun w => w = p * 512 + i) Q s M T P s' M' T P' true.
Proof.
  intros Hc Hts Ht Hr Hx Hnone Hsh. pose proof Hc as [Hi Hroom Htag Hxc]. set (v := p * 512 + i) in *.
  pose proof (Htag v x Hx) as Hl. rewrite Hsh in Hl. cbn [andb negb] in Hl.
  pose proof (leaf_present _ _ _ _ _ _ _ (vi_shape _ _ _ _ _ _ _ Hi) Hx) as Hb. apply present_cow in Hb.
  destruct (set_leaf _ _ s M T P X src_t src p i (l_pte (cow x)) (<[(src, v) := cow x]> P) X Hi Hts Hr) as (s1 & Hw1 & Hi1 & Hk1).
  { intros k Hk. by rewrite lookup_insert_ne. }
  { right. exists (l_ref x). by rewrite lookup_insert_eq. }
  { intros f. fold v. rewrite lookup_insert_eq, weight_cow, Hx. lia. }
  { apply Hi. }
  { intros k y [[<- <-]|[Hk Hy]]%lookup_insert_Some; [|exact (vm_leaves _ _ _ _ _ _ _ Hi k y Hy)].
    rewrite addr_cow. exact (vm_leaves _ _ _ _ _ _ _ Hi _ x Hx). }
  assert (Hx1 : <[(src, v) := cow x]> P !! (src, v) = Some (cow x)) by apply lookup_insert_eq.
  assert (Hn1 : <[(src, v) := cow x]> P !! (dst, v) = None) by (rewrite lookup_insert_ne by congruence; done).
  pose proof (vi_counted _ _ _ _ _ _ _ Hi _ _ Hx Hl) as Hra.
  destruct (counted_held _ _ _ _ _ _ _ _ _ Hi Hx Hl) as [n Hn].
  destruct (take_extra _ _ s1 M T _ X (addr x) n Hi1 Hra Hn) as (s2 & Hinc & Hram & Hi2);
    [exact (mapped_not_table _ _ _ _ _ _ _ _ _ Hi Hx)|eapply room_inc; [exact Hroom|exact Hx|done|done]|].
  destruct (set_dst s2 _ T _ _ dst_t p i (cow x) X Hi2 Ht Hr Hn1 Hb) as (s' & Hw & Hi' & Hk).
  { intros f. apply bump_spent; [done|apply addr_cow]. }
  { apply Hi. }
  { by eapply vm_leaves. }
  { rewrite addr_cow. cbn [l_ref cow]. by rewrite Hl. }
  destruct (inc_then_write _ _ _ _ _ _ _ Hinc Hw) as (s3 & Hw3 & Hinc3).
  destruct (leaf_done Q s M T P s' (<[addr x := n + 1]> M) v x (cow x) (cow x)) as (P' & Hc' & Hcl); try done.
  { by apply grows_inc. }
  { intros f _ HTf. rewrite Hk, Hram, Hk1 by congruence. done. }
  { unfold copied. rewrite Hsh. by right. }
  by exists s1, s3, s', (<[addr x := n + 1]> M), P'.
Qed.

Lemma clone_leaf_spec Q s M T P src_t dst_t p k :
  cinv s M T P -> T !! src_t = Some (Node src 0 p) -> T !! dst_t = Some (Node dst 0 p) -> 0 <= k < 512 ->
  P !! (dst, p * 512 + k) = None ->
  exists s' ok M' P', clone_leaf (Some m) (p * span 1 * 4096) src_t dst_t s k = Some (s', ok) /\ cinv s' M' T P' /\
    cloned (fun w => w = p * 512 + k) Q s M T P s' M' T P' ok.
Proof.
  intros Hc Hts Ht Hr Hnone. pose proof Hc as [Hi _ _ _]. pose proof (vi_shape _ _ _ _ _ _ _ Hi) as Hs. unfold clone_leaf.
  rewrite read_entry by by apply (sh_mem _ _ _ _ _ Hs _ _ Hts). cbn [mbind option_bind].
  rewrite (sh_leaf _ _ _ _ _ Hs _ _ _ _ Hts Hr). destruct (P !! (src, p * 512 + k)) as [x|] eqn:Hx; cbn [from_option].
  2: { rewrite bits_0. cbn [negb]. exists s, true, M, P. split; [done|]. split; [done|]. apply cloned_none. by intros v ->. }
  rewrite (leaf_present _ _ _ _ _ _ _ Hs Hx). cbn [negb]. fold (addr x).
  change (Z.shiftl k 12) with (Z.shiftl k (12 + 9 * Z.of_nat 0)). rewrite entry_va, Z.mul_1_r by done.
  fold (area (p * 512 + k)). fold (is_shmem (p * 512 + k)). fold (is_shared (p * 512 + k)).
  destruct (is_shared (p * 512 + k)) eqn:Hsh.
  - replace (Z.lor (addr x) (Z.ldiff (l_pte x) PAGE_ADDR_MASK)) with (l_pte x) by (symmetry; apply split_entry). destruct (share_page Q s M T P dst_t p k x) as (s1 & s' & M' & P' & -> & Hw & Hc' & Hcl); try done.
    cbn [mbind option_bind]. rewrite Hw. cbn [mbind option_bind]. by exists s', true, M', P'.
  - destruct (fr_pin_get_ok _ _ (addr x) (vi_rep _ _ _ _ _ _ _ Hi)) as [pins ->]; [apply frame_addr_land|].
    cbn [mbind option_bind]. destruct (0 <? pins).
    + destruct (copy_private Q s M T P dst_t p k x) as (s1 & o & -> & Ho); try done. cbn [mbind option_bind].
      destruct o as [f|].
      * destruct Ho as (s2 & s' & M' & P' & -> & Hw & Hc' & Hcl). cbn [mbind option_bind]. rewrite Hw. cbn [mbind option_bind].
        by exists s', true, M', P'.
      * destruct Ho as [Hc1 Hram]. exists s1, false, M, P. split; [done|]. split; [done|]. apply cloned_fail; [by intros v ->|done].
    + destruct (share_cow Q s M T P src_t dst_t p k x) as (s1 & s2 & s' & M' & P' & Hw1 & Hw2 & Hinc & Hc' & Hcl); try done.
      cbn [l_pte cow] in Hw1, Hw2. rewrite Hw1. cbn [mbind option_bind]. rewrite Hw2. cbn [mbind option_bind]. rewrite Hinc.
      cbn [mbind option_bind]. by exists s', true, M', P'.
Qed.

(** ** Whole tables *)

Fixpoint clone_level (l : nat) : Z -> Z -> Z -> machine A -> Z -> option (machine A * bool) :=
  match l with
  | O => clone_leaf (Some m)
  | S l' => clone_entry (clone_level l') (12 + 9 * Z.of_nat l)
  end.

(** What is asked before entry [k] of a table is copied. *)
Record ready (l : nat) (T : gmap Z node) (P : gmap (Z * Z) leaf) (p k : Z) : Prop := {
  rd_src : slot kroot kwin (Node src l p) k;
  rd_dst : slot kroot kwin (Node dst l p) k;
  rd_fresh t n : T !! t = Some n -> n_root n = dst -> ~ below l (p * 512 + k) n;
  rd_none v : range l (p * 512 + k) v -> P !! (dst, v) = None;
}.

Definition level_ok (l : nat) : Prop := forall s M T P src_t dst_t p k,
  cinv s M T P -> T !! src_t = Some (Node src l p) -> T !! dst_t = Some (Node dst l p) -> ready l T P p k ->
  exists s' ok M' T' P', clone_level l (p * span (S l) * 4096) src_t dst_t s k = Some (s', ok) /\ cinv s' M' T' P' /\
    cloned (range l (p * 512 + k)) (below l (p * 512 + k)) s M T P s' M' T' P' ok.

(** Entries copied one after the other. *)
Lemma clone_entries l : level_ok l -> forall ks s M T P src_t dst_t p,
  cinv s M T P -> T !! src_t = Some (Node src l p) -> T !! dst_t = Some (Node dst l p) -> NoDup ks ->
  (forall k, k ∈ ks -> ready l T P p k) ->
  exists s' ok M' T' P', for_each ks (clone_level l (p * span (S l) * 4096) src_t dst_t) s = Some (s', ok) /\ cinv s' M' T' P' /\
    cloned (fun v => exists k, k ∈ ks /\ range l (p * 512 + k) v) (fun n => exists k, k ∈ ks /\ below l (p * 512 + k) n)
      s M T P s' M' T' P' ok.
Proof.
  intros Hlev. induction ks as [|k ks IH]; intros s M T P src_t dst_t p Hc Hts Ht Hnd Hrd.
  { exists s, true, M, T, P. split; [done|]. split; [done|]. apply cloned_none. intros v (k & Hk & _). by apply not_elem_of_nil in Hk. }
  apply NoDup_cons in Hnd as [Hk Hnd]. cbn [for_each].
  destruct (Hlev s M T P src_t dst_t p k Hc Hts Ht) as (s1 & ok & M1 & T1 & P1 & -> & Hc1 & Hcl1); [apply Hrd; by left|].
  cbn [mbind option_bind].
  assert (Hcl1' : cloned (range l (p * 512 + k)) (fun n => exists j, j ∈ k :: ks /\ below l (p * 512 + j) n) s M T P s1 M1 T1 P1 ok).
  { eapply cloned_mono; [|exact Hcl1]. intros n Hn. exists k. split; [by left|done]. }
  destruct ok.
  - destruct (IH s1 M1 T1 P1 src_t dst_t p Hc1) as (s' & ok & M' & T' & P' & -> & Hc' & Hcl'); [..|done| |].
    { eapply lookup_weaken; [exact Hts|apply Hcl1]. }
    { eapply lookup_weaken; [exact Ht|apply Hcl1]. }
    { intros j Hj. destruct (Hrd j) as [R1 R2 R3 R4]; [by right|]. constructor; try done.
      - intros t n Htn Hroot Hb. destruct (T !! t) as [n'|] eqn:E.
        + pose proof (lookup_weaken _ _ _ _ E (cl_tabs _ _ _ _ _ _ _ _ _ _ _ Hcl1)) as Hw. assert (n' = n) as -> by congruence. by apply (R3 t n).
        + destruct (cl_new _ _ _ _ _ _ _ _ _ _ _ Hcl1 _ _ Htn E) as (_ & _ & _ & [Hl1 Hn1]). destruct Hb as [_ Hn2].
          assert (k = j) as -> by lia. done.
      - intros v Hv. rewrite (cl_other _ _ _ _ _ _ _ _ _ _ _ Hcl1); [by apply R4|]. right. unfold range in *.
        intros Hv'. assert (k = j) as -> by lia. done. }
    exists s', ok, M', T', P'. split; [done|]. split; [done|].
    eapply cloned_ext; [|eapply (cloned_seq (range l (p * 512 + k)) (fun v => exists j, j ∈ ks /\ range l (p * 512 + j) v)); [exact Hc|exact Hc1| |exact Hcl1'|]].
    2: { intros v Hv (j & Hj & Hv'). unfold range in *. assert (k = j) as -> by lia. done. }
    2: { eapply cloned_mono; [|exact Hcl']. intros n (j & Hj & Hb). exists j. split; [by right|done]. }
    intros v. split; [intros [Hv|(j & Hj & Hv)]|intros (j & [->|Hj]%elem_of_cons & Hv)].
    + exists k. split; [by left|done].
    + exists j. split; [by right|done].
    + by left.
    + right. by exists j.
  - exists s1, false, M1, T1, P1. split; [done|]. split; [done|]. eapply (cloned_stop (range l (p * 512 + k))); [apply _| | |exact Hcl1'].
    + intros v Hv. exists k. split; [by left|done].
    + intros v (j & Hj & Hv). by apply (rd_none _ _ _ _ _ (Hrd j Hj)).
Qed.

(** The table of the copy, before its entries are. *)
Lemma cinv_table (Q : node -> Prop) s M T P s' new l q :
  cinv s M T P -> inv s' (<[new := 1]> M) (<[new := Node dst l q]> T) P X -> M !! new = None -> T !! new = None ->
  fr_ram new -> Q (Node dst l q) -> (forall u, u <> new -> T !! u = None -> ram s' !! u = ram s !! u) ->
  cinv s' (<[new := 1]> M) (<[new := Node dst l q]> T) P /\
  cloned (fun _ => False) Q s M T P s' (<[new := 1]> M) (<[new := Node dst l q]> T) P true.
Proof.
  intros [Hi [Hsub Hone Hall] Htag Hxc] Hi' HM HT Hr HQ Hk. split; constructor; try done.
  - constructor; try done. intros f n [[<- <-]|[Hn Hf]]%lookup_insert_Some; [done|by apply (Hall f)].
  - by apply insert_subseteq.
  - intros t n [[<- <-]|[Hn Ht]]%lookup_insert_Some Hnone; [done|congruence].
  - intros f Hf HTf. apply Hk; [|done]. intros ->. destruct Hf as [[? ?]|?]; [congruence|done].
  - intros f Hf. apply grows_new; [done|done].
Qed.

Lemma clone_level_ok l : (l <= 3)%nat -> level_ok l.
Proof.
  induction l as [|l IH]; intros Hl3 s M T P src_t dst_t p k Hc Hts Ht [R1 R2 R3 R4].
  { destruct (clone_leaf_spec (below 0 (p * 512 + k)) s M T P src_t dst_t p k Hc Hts Ht (proj1 R1)) as (s' & ok & M' & P' & Hrun & Hc' & Hcl).
    { apply R4. apply Z.div_1_r. }
    exists s', ok, M', T, P'. split; [done|]. split; [done|]. eapply cloned_ext; [|exact Hcl].
    intros v. unfold range. rewrite Z.div_1_r. done. }
  cbn [clone_level]. unfold clone_entry. pose proof Hc as [Hi _ _ _]. pose proof (vi_shape _ _ _ _ _ _ _ Hi) as Hs.
  assert (Hms : is_Some (ram s !! src_t)) by by apply (sh_mem _ _ _ _ _ Hs _ _ Hts).
  assert (Hnst : src_t <> dst_t) by congruence.
  rewrite read_entry by done. cbn [mbind option_bind].
  destruct (sh_down _ _ _ _ _ Hs _ _ _ _ k Hts R1) as [He|[Hb Hd]].
  { rewrite He, bits_0. cbn [negb]. exists s, true, M, T, P. split; [done|]. split; [done|]. apply cloned_none. intros v Hv.
    split; [|by apply R4]. by eapply (nothing_below _ _ _ _ _ src_t src l p k v Hs Hts Hl3 (proj1 R1) He). }
  rewrite Hb. cbn [negb]. set (e := entry (ram s) src_t k) in *.
  destruct (add_table _ _ s M T P X dst_t dst l p k (Z.land (Z.ldiff e PAGE_ADDR_MASK) 0xFFF) Hi Ht R2) as (s1 & o & -> & Hram & Ho).
  { destruct (sh_down _ _ _ _ _ Hs _ _ _ _ k Ht R2) as [|[_ Hd']]; [done|]. exfalso. eapply R3; [exact Hd'|done|]. apply below_self. }
  { apply inter_ok. }
  cbn [mbind option_bind]. destruct o as [new|].
  2: { exists s1, false, M, T, P. split; [done|]. destruct Hc. split; [by constructor|]. by apply cloned_fail. }
  destruct Ho as (s2 & s3 & -> & Hk2 & Hw & _ & HM & HT & Hr & Hi3 & Hk3). cbn [mbind option_bind].
  assert (Hsn : src_t <> new) by congruence.
  assert (Hent : forall s' : machine A, ram s' !! src_t = ram s !! src_t -> read_word s' src_t k = Some e).
  { intros s' Hs'. rewrite read_entry by by rewrite Hs'. unfold e, entry. by rewrite Hs'. }
  rewrite (Hent s2) by by apply Hk2. cbn [mbind option_bind]. rewrite Hw. cbn [mbind option_bind].
  rewrite (Hent s3) by by apply Hk3. cbn [mbind option_bind]. rewrite entry_va by apply R1.
  destruct (cinv_table (below (S l) (p * 512 + k)) s M T P s3 new l (p * 512 + k) Hc Hi3 HM HT Hr) as [Hc3 Hcl3].
  { apply below_self. }
  { intros u Hu HTu. apply Hk3; congruence. }
  destruct (clone_entries l ltac:(apply IH; lia) (seqZ 0 512) s3 _ _ P (Z.land e PAGE_ADDR_MASK) new (p * 512 + k) Hc3)
    as (s' & ok & M' & T' & P' & -> & Hc' & Hcl').
  { rewrite lookup_insert_ne; [done|]. intros Heq. rewrite <- Heq in Hd. congruence. }
  { apply lookup_insert_eq. }
  { apply NoDup_seqZ. }
  { intros j Hj%elem_of_seqZ. constructor.
    - split; [lia|]. cbn. lia.
    - split; [lia|]. cbn. lia.
    - intros t n [[<- <-]|[Hn Htn]]%lookup_insert_Some Hroot Hbl; [destruct Hbl; cbn [n_level] in *; lia|].
      apply (R3 t n Htn Hroot). eapply below_S; [|exact Hbl]. lia.
    - intros v Hv. apply R4. apply range_S. exists j. split; [apply elem_of_seqZ; lia|done]. }
  exists s', ok, M', T', P'. split; [done|]. split; [done|].
  eapply cloned_ext; [|eapply (cloned_seq (fun _ => False) (fun v => exists j, j ∈ seqZ 0 512 /\ range l ((p * 512 + k) * 512 + j) v)); [exact Hc|exact Hc3|done|exact Hcl3|]].
  2: { eapply cloned_mono; [|exact Hcl']. intros n (j & Hj%elem_of_seqZ & Hbl). eapply below_S; [|exact Hbl]. lia. }
  intros v. rewrite range_S. naive_solver.
Qed.

(** ** The whole user half *)

Lemma clone_user_spec s M T P :
  cinv s M T P -> src <> kroot -> dst <> kroot -> T !! src = Some (Node src 3 0) -> empty_space T P dst ->
  exists s' ok M' T' P', vmm_clone_user_ex s dst src (Some m) = Some (s', ok) /\ cinv s' M' T' P' /\
    cloned user_page (fun _ => True) s M T P s' M' T' P' ok.
Proof.
  intros Hc Hsk Hdk Hs (Hd & Hdt & Hdp). unfold vmm_clone_user_ex.
  destruct (clone_entries 3 (clone_level_ok 3 (Nat.le_refl 3)) (seqZ 0 256) s M T P src dst 0 Hc Hs Hd)
    as (s' & ok & M' & T' & P' & Hrun & Hc' & Hcl).
  { apply NoDup_seqZ. }
  { intros k Hk%elem_of_seqZ. constructor; [apply user_slot; [done|lia]..| |by auto].
    intros t n Ht Hroot [Hl _]. assert (t = dst) as -> by by eapply Hdt. assert (n = Node dst 3 0) as -> by congruence.
    cbn in Hl. lia. }
  exists s', ok, M', T', P'. split; [done|]. split; [done|]. eapply cloned_mono; [|eapply cloned_ext; [|exact Hcl]]; [done|].
  intros v. by rewrite user_range.
Qed.
End clone.
