(* ===== verification/PageFree.v ===== *)
(** * Page tables: tearing an address space down

    [vmm_free_user_ex] drops the reference of every leaf entry and returns every
    table below the root.  It writes no table, so the proof follows the books:
    the counts, the tables and the entries that still stand. *)

From S2P Require Import Prelude Errno DList Buddy Vma Frames PageTable PageTableSpec PageTableOps PageClone.

Lemma existsb_true {B} (f : B -> Prop) `{!forall b, Decision (f b)} (l : list B) :
  existsb (fun b => bool_decide (f b)) l = true <-> exists b, b ∈ l /\ f b.
Proof.
  rewrite existsb_exists. split.
  - intros (b & Hb & Hf%bool_decide_eq_true). exists b. by rewrite list_elem_of_In.
  - intros (b & Hb & Hf). exists b. rewrite bool_decide_eq_true. by rewrite <- list_elem_of_In.
Qed.

(** Every table below an entry is the table it points to, or below one of its entries. *)
Lemma below_cases l q n :
  below (S l) q n <-> (n_level n = l /\ n_number n = q) \/ exists k, k ∈ seqZ 0 512 /\ below l (q * 512 + k) n.
Proof.
  unfold below. split.
  - intros [Hl Hn]. destruct (decide (n_level n = l)) as [He|He].
    + left. split; [done|]. rewrite <- Hn. replace (S l - 1 - n_level n)%nat with 0%nat by lia. symmetry. apply Z.div_1_r.
    + right. exists ((n_number n / span (l - 1 - n_level n)) mod 512). rewrite elem_of_seqZ. split; [mlia|]. split; [lia|].
      replace (S l - 1 - n_level n)%nat with (S (l - 1 - n_level n)) in Hn by lia. rewrite div_span in Hn. mlia.
  - intros [[Hl Hn]|(k & Hk & Hl & Hn)].
    + split; [lia|]. replace (S l - 1 - n_level n)%nat with 0%nat by lia. rewrite Hn. apply Z.div_1_r.
    + apply elem_of_seqZ in Hk. split; [lia|]. replace (S l - 1 - n_level n)%nat with (S (l - 1 - n_level n)) by lia.
      rewrite div_span, Hn. mlia.
Qed.

Section free.
Context {A : Type} `{FrameLaws A} (kroot : Z) (kwin : Z -> bool).
Abbreviation inv := (vm_inv kroot kwin).

(** The part of the invariant that does not speak of memory. *)
Record books (a : A) (M : gmap Z Z) (T : gmap Z node) (P : gmap (Z * Z) leaf) (X : Z -> Z) : Prop := {
  bk_rep : fr_rep a M;
  bk_acct f : fr_ram f -> default 0 (M !! f) = refs P f + tab T f + X f;
  bk_extra f : 0 <= X f;
  bk_tab t n : T !! t = Some n -> fr_ram t -> M !! t = Some 1;
  bk_leaves : leaves_ok T P X;
}.

Lemma inv_books s M T P X : inv s M T P X -> books (fa s) M T P X.
Proof. intros Hi. constructor; try apply Hi. by eapply vm_leaves. Qed.

(** A frame with a counted leaf entry is held and is no table. *)
Lemma books_leaf a M T P X k x :
  books a M T P X -> P !! k = Some x -> l_ref x = true ->
  fr_ram (addr x) /\ T !! addr x = None /\ exists n, M !! addr x = Some n.
Proof.
  intros [B1 B2 B3 B4 B5] Hk Hl. pose proof (B5 k x Hk) as Hr. rewrite Hl in Hr. split; [done|].
  pose proof (B2 _ Hr) as Ha. pose proof (B3 (addr x)) as HX.
  assert (1 <= refs P (addr x)) as Hp by (eapply refs_pos; [exact Hk|]; unfold counts; by rewrite Hl, Z.eqb_refl).
  destruct (T !! addr x) as [n|] eqn:E.
  - rewrite (B4 _ _ E Hr) in Ha. unfold tab in Ha. rewrite E in Ha. cbn in Ha. lia.
  - split; [done|]. unfold tab in Ha. rewrite E in Ha. destruct (M !! addr x) as [n|]; [by exists n|]. cbn in Ha. lia.
Qed.

Lemma leaves_sub T P P' X : P' ⊆ P -> leaves_ok T P X -> leaves_ok T P' X.
Proof. intros Hsub Hok k x Hk. apply Hok with k. by eapply lookup_weaken. Qed.

(** An entry goes with its reference. *)
Lemma books_drop a M T P X k x :
  books a M T P X -> P !! k = Some x -> l_ref x = true ->
  exists a' M', fr_ref_dec a (addr x) = Some a' /\ books a' M' T (delete k P) X.
Proof.
  intros Hb Hk Hl. destruct (books_leaf _ _ _ _ _ _ _ Hb Hk Hl) as (Hr & HT & n & Hn). destruct Hb as [B1 B2 B3 B4 B5].
  destruct (fr_dec_ok _ _ _ _ B1 Hn) as (a' & Hrun & Hrep). exists a', (drop_ref M (addr x)). split; [done|].
  destruct (fr_held _ _ _ _ B1 Hn) as [_ Hn1]. constructor; try done.
  - intros f Hf. pose proof (B2 f Hf) as Ha. rewrite refs_delete', Hk. cbn [weight from_option]. unfold counts. rewrite Hl. cbn [andb].
    unfold drop_ref. rewrite Hn. destruct (Z.eqb_spec (addr x) f) as [<-|Hne]; cbn [Z.b2z].
    + rewrite Hn in Ha. cbn in Ha. destruct (Z.eqb_spec n 1); [rewrite lookup_delete_eq|rewrite lookup_insert_eq]; cbn; lia.
    + destruct (n =? 1); [rewrite lookup_delete_ne by done|rewrite lookup_insert_ne by done]; lia.
  - intros t m Ht Hrt. assert (t <> addr x) by congruence. unfold drop_ref. rewrite Hn. specialize (B4 t m Ht Hrt).
    destruct (n =? 1); [by rewrite lookup_delete_ne|by rewrite lookup_insert_ne].
  - eapply leaves_sub; [apply delete_subseteq|done].
Qed.

(** An entry without a reference. *)
Lemma books_forget a M T P X k x :
  books a M T P X -> P !! k = Some x -> l_ref x = false -> books a M T (delete k P) X.
Proof.
  intros [B1 B2 B3 B4 B5] Hk Hl. constructor; try done; [|eapply leaves_sub; [apply delete_subseteq|done]].
  intros f Hf. rewrite (B2 f Hf), refs_delete', Hk. cbn [weight from_option]. unfold counts. rewrite Hl. cbn. lia.
Qed.

(** A table goes back. *)
Lemma books_table a M T P X t n :
  books a M T P X -> T !! t = Some n -> fr_ram t ->
  exists a' M', fr_free a t = Some a' /\ books a' M' (delete t T) P X.
Proof.
  intros [B1 B2 B3 B4 B5] Ht Hr. pose proof (B4 t n Ht Hr) as HM.
  destruct (fr_free_ok _ _ _ B1 HM) as (a' & Hrun & Hrep). exists a', (delete t M). split; [done|]. constructor; try done.
  - intros f Hf. pose proof (B2 f Hf) as Ha. unfold tab in *. destruct (decide (f = t)) as [->|Hne].
    + rewrite !lookup_delete_eq. rewrite HM, Ht in Ha. cbn in *. lia.
    + by rewrite !lookup_delete_ne.
  - intros u k Hu Hru. apply lookup_delete_Some in Hu as [Hn Hu]. rewrite lookup_delete_ne by done. by eapply B4.
  - intros k x Hk. specialize (B5 k x Hk). destruct (l_ref x); [done|]. destruct B5 as [H1 H2]. split; [|done].
    apply lookup_delete_None. by right.
Qed.

(** ** Walking down *)

Section walk.
Context (R : gmap Z page) (T0 : gmap Z node) (P0 : gmap (Z * Z) leaf) (X : Z -> Z) (r : Z) (m : option mm).
Hypothesis Hs : shape kroot kwin R T0 P0.
Hypothesis Huser : forall t n, T0 !! t = Some n -> n_root n = r -> fr_ram t.
Hypothesis Htag : forall v x, P0 !! (r, v) = Some x -> l_ref x = negb (mmio_at m (v * 4096)).

(** What stands when the tables [gT] and the pages [gP] of the space are gone. *)
Definition Tof (gT : node -> bool) : gmap Z node := filter (fun tn => n_root tn.2 <> r \/ gT tn.2 = false) T0.
Definition Pof (gP : Z -> bool) : gmap (Z * Z) leaf := filter (fun kx => kx.1.1 <> r \/ gP kx.1.2 = false) P0.

Lemma Tof_ext gT gT' : (forall t n, T0 !! t = Some n -> n_root n = r -> gT n = gT' n) -> Tof gT = Tof gT'.
Proof.
  intros He. apply map_filter_ext. intros t n Hn. cbn. destruct (decide (n_root n = r)) as [Hr|Hr]; [|tauto].
  by rewrite (He t n Hn Hr).
Qed.

Lemma Pof_ext gP gP' : (forall v x, P0 !! (r, v) = Some x -> gP v = gP' v) -> Pof gP = Pof gP'.
Proof.
  intros He. apply map_filter_ext. intros [r' v] x Hx. cbn. destruct (decide (r' = r)) as [->|Hr]; [|tauto].
  by rewrite (He v x Hx).
Qed.

Lemma Tof_lookup gT t n : Tof gT !! t = Some n <-> T0 !! t = Some n /\ (n_root n <> r \/ gT n = false).
Proof. unfold Tof. by rewrite map_lookup_filter_Some. Qed.

Lemma Pof_lookup gP v x : gP v = false -> P0 !! (r, v) = Some x -> Pof gP !! (r, v) = Some x.
Proof. intros Hg Hx. apply map_lookup_filter_Some. auto. Qed.

Lemma Pof_remove gP q : Pof (fun v => gP v || (v =? q)) = delete (r, q) (Pof gP).
Proof.
  apply map_eq. intros [r' v]. destruct (decide ((r', v) = (r, q))) as [[= -> ->]|Hn].
  - rewrite lookup_delete_eq. apply map_lookup_filter_None. right. intros x _. cbn. rewrite Z.eqb_refl, orb_true_r. naive_solver.
  - rewrite lookup_delete_ne by done. apply option_eq. intros x. unfold Pof. rewrite !map_lookup_filter_Some. cbn.
    destruct (Z.eqb_spec v q) as [->|]; [|by rewrite orb_false_r]. assert (r' <> r) by congruence. tauto.
Qed.

Lemma Tof_remove gT t n : T0 !! t = Some n -> n_root n = r -> Tof (fun n' => gT n' || bool_decide (n' = n)) = delete t (Tof gT).
Proof.
  intros Ht Hr. apply map_eq. intros u. destruct (decide (u = t)) as [->|Hn].
  - rewrite lookup_delete_eq. apply map_lookup_filter_None. right. intros x Hx. cbn. assert (x = n) as -> by congruence.
    rewrite bool_decide_true by done. rewrite orb_true_r. naive_solver.
  - rewrite lookup_delete_ne by done. apply option_eq. intros x. rewrite !Tof_lookup.
    destruct (decide (x = n)) as [->|Hx]; [|by rewrite bool_decide_false, orb_false_r].
    split; intros [Hu _]; by assert (u = t) by by eapply node_unique.
Qed.

Fixpoint free_level (l : nat) : Z -> Z -> machine A -> Z -> option (machine A) :=
  match l with
  | O => free_leaf m
  | S l' => free_entry (free_level l') (12 + 9 * Z.of_nat l)
  end.

Definition free_ok (l : nat) : Prop := forall s M gT gP t p k,
  T0 !! t = Some (Node r l p) -> slot kroot kwin (Node r l p) k -> ram s = R -> books (fa s) M (Tof gT) (Pof gP) X ->
  (forall n, below l (p * 512 + k) n -> gT n = false) -> (forall v, range l (p * 512 + k) v -> gP v = false) ->
  exists s' M', free_level l (p * span (S l) * 4096) t s k = Some s' /\ ram s' = R /\
    books (fa s') M' (Tof (fun n => gT n || bool_decide (below l (p * 512 + k) n)))
      (Pof (fun v => gP v || bool_decide (range l (p * 512 + k) v))) X.

Lemma free_leaf_ok : free_ok 0.
Proof.
  intros s M gT gP t p k Ht [Hk _] Hram Hb HgT HgP. cbn [free_level]. unfold free_leaf. set (v := p * 512 + k) in *.
  assert (HT : Tof (fun n => gT n || bool_decide (below 0 v n)) = Tof gT).
  { apply Tof_ext. intros u n _ _. rewrite bool_decide_false, orb_false_r; [done|]. intros [? _]. lia. }
  assert (HP : Pof (fun w => gP w || bool_decide (range 0 v w)) = delete (r, v) (Pof gP)).
  { rewrite <- Pof_remove. apply Pof_ext. intros w x _. f_equal. destruct (Z.eqb_spec w v) as [->|Hw].
    - apply bool_decide_true, Z.div_1_r.
    - apply bool_decide_false. intros Hd. apply Hw. rewrite <- Hd. symmetry. apply Z.div_1_r. }
  rewrite HT, HP. rewrite read_entry, Hram by (rewrite Hram; by apply (sh_mem _ _ _ _ _ Hs _ _ Ht)). cbn [mbind option_bind].
  rewrite (sh_leaf _ _ _ _ _ Hs _ _ _ _ Ht Hk). fold v.
  destruct (P0 !! (r, v)) as [x|] eqn:Hx; cbn [from_option].
  2: { rewrite bits_0. cbn [negb]. exists s, M. split; [done|]. split; [done|]. rewrite delete_id; [done|].
       apply map_lookup_filter_None. by left. }
  rewrite (leaf_present _ _ _ _ _ _ _ Hs Hx). cbn [negb].
  change (Z.shiftl k 12) with (Z.shiftl k (12 + 9 * Z.of_nat 0)). rewrite entry_va, Z.mul_1_r by done. fold v.
  assert (Hpx : Pof gP !! (r, v) = Some x) by (apply Pof_lookup; [apply HgP; apply Z.div_1_r|done]).
  pose proof (Htag v x Hx) as Hl. destruct (mmio_at m (v * 4096)); cbn [negb] in Hl.
  - exists s, M. split; [done|]. split; [done|]. by eapply books_forget.
  - destruct (books_drop _ _ _ _ _ _ _ Hb Hpx Hl) as (a' & M' & Hrun & Hb'). unfold ref_dec. fold (addr x). rewrite Hrun.
    cbn [mbind option_bind]. by exists (with_fa a' s), M'.
Qed.

Lemma free_entries l : free_ok l -> forall ks s M gT gP t p,
  T0 !! t = Some (Node r l p) -> NoDup ks -> (forall k, k ∈ ks -> slot kroot kwin (Node r l p) k) ->
  ram s = R -> books (fa s) M (Tof gT) (Pof gP) X ->
  (forall k n, k ∈ ks -> below l (p * 512 + k) n -> gT n = false) ->
  (forall k v, k ∈ ks -> range l (p * 512 + k) v -> gP v = false) ->
  exists s' M', for_all ks (free_level l (p * span (S l) * 4096) t) s = Some s' /\ ram s' = R /\
    books (fa s') M' (Tof (fun n => gT n || existsb (fun k => bool_decide (below l (p * 512 + k) n)) ks))
      (Pof (fun v => gP v || existsb (fun k => bool_decide (range l (p * 512 + k) v)) ks)) X.
Proof.
  intros Hlev. induction ks as [|k ks IH]; intros s M gT gP t p Ht Hnd Hsl Hram Hb HgT HgP; cbn [for_all existsb].
  { exists s, M. split; [done|]. split; [done|]. rewrite (Tof_ext _ gT), (Pof_ext _ gP); [done|..]; intros; apply orb_false_r. }
  apply NoDup_cons in Hnd as [Hk Hnd].
  destruct (Hlev s M gT gP t p k Ht) as (s1 & M1 & -> & Hr1 & Hb1); [apply Hsl; by left|done|done| | |].
  { intros n. apply HgT. by left. }
  { intros v. apply HgP. by left. }
  cbn [mbind option_bind].
  destruct (IH s1 M1 (fun n => gT n || bool_decide (below l (p * 512 + k) n)) (fun v => gP v || bool_decide (range l (p * 512 + k) v)) t p Ht Hnd) as (s' & M' & -> & Hr' & Hb'); [|done|exact Hb1| | |].
  { intros j Hj. apply Hsl. by right. }
  { intros j n Hj Hbl. apply orb_false_iff. split; [apply (HgT j n); [by right|done]|]. apply bool_decide_false.
    destruct Hbl as [_ H1]. intros [_ H2]. assert (k = j) as -> by lia. done. }
  { intros j v Hj Hbl. apply orb_false_iff. split; [apply (HgP j v); [by right|done]|]. apply bool_decide_false.
    unfold range in *. intros H2. assert (k = j) as -> by lia. done. }
  exists s', M'. split; [done|]. split; [done|].
  erewrite Tof_ext, Pof_ext; [exact Hb'|..]; intros; cbn; by rewrite orb_assoc.
Qed.

(** The tables above. *)
Lemma above u lev num d : T0 !! u = Some (Node r lev num) -> (lev + d <= 3)%nat ->
  exists w, T0 !! w = Some (Node r (lev + d) (num / span d)).
Proof using Hs.
  clear X.
  intros Hu. induction d as [|d IH]; intros Hd.
  - exists u. rewrite Nat.add_0_r. change (span 0) with 1. by rewrite Z.div_1_r.
  - destruct IH as [w Hw]; [lia|]. destruct (sh_up _ _ _ _ _ Hs _ _ _ _ Hw) as (w' & Hw' & _); [lia|].
    exists w'. rewrite div_span. by replace (lev + S d)%nat with (S (lev + d)) by lia.
Qed.

Lemma no_tables_below t l p k u n :
  T0 !! t = Some (Node r (S l) p) -> (S l <= 3)%nat -> 0 <= k < 512 -> entry R t k = 0 ->
  T0 !! u = Some n -> n_root n = r -> ~ below (S l) (p * 512 + k) n.
Proof using Hs.
  clear X.
  intros Ht Hl Hk He Hu Hr [Hl' Hn]. destruct n as [r' lev num]. cbn [n_root n_level n_number] in *. subst r'.
  destruct (above u lev num (l - lev) Hu) as [w Hw]; [lia|].
  destruct (none_below _ _ _ _ _ _ _ _ _ _ Hs Ht Hl Hk He w). rewrite Hw. replace (lev + (l - lev))%nat with l by lia.
  rewrite <- Hn. by replace (S l - 1 - lev)%nat with (l - lev)%nat by lia.
Qed.

Lemma free_level_ok l : (l <= 3)%nat -> free_ok l.
Proof.
  induction l as [|l IH]; [intros _; apply free_leaf_ok|].
  intros Hl3 s M gT gP t p k Ht Hsl Hram Hb HgT HgP. cbn [free_level]. unfold free_entry. set (q := p * 512 + k) in *.
  assert (Hent : forall s' : machine A, ram s' = R -> read_word s' t k = Some (entry R t k)).
  { intros s' Hr'. rewrite read_entry; rewrite Hr'; [done|]. by apply (sh_mem _ _ _ _ _ Hs _ _ Ht). }
  rewrite (Hent s Hram). cbn [mbind option_bind].
  destruct (sh_down _ _ _ _ _ Hs _ _ _ _ k Ht Hsl) as [He|[Hp Hd]].
  { rewrite He, bits_0. cbn [negb]. exists s, M. split; [done|]. split; [done|]. erewrite Tof_ext, Pof_ext; [exact Hb|..].
    - intros v x Hx. cbn. rewrite bool_decide_false; [apply orb_false_r|]. intros Hv.
      pose proof (nothing_below _ _ _ _ _ _ _ _ _ _ _ Hs Ht Hl3 (proj1 Hsl) He Hv). congruence.
    - intros u n Hu Hr. cbn. rewrite bool_decide_false; [apply orb_false_r|].
      by apply (no_tables_below t l p k u n Ht Hl3 (proj1 Hsl) He). }
  rewrite Hp. cbn [negb]. rewrite entry_va by apply Hsl. fold q.
  destruct (free_entries l ltac:(apply IH; lia) (seqZ 0 512) s M gT gP _ q Hd) as (s1 & M1 & -> & Hr1 & Hb1); [| |done|done| | |].
  { apply NoDup_seqZ. }
  { intros j Hj%elem_of_seqZ. split; [lia|]. cbn. lia. }
  { intros j n Hj Hbl. apply HgT. apply below_cases. right. by exists j. }
  { intros j v Hj Hbl. apply HgP. apply range_S. exists j. by split. }
  cbn [mbind option_bind]. rewrite (Hent s1 Hr1). cbn [mbind option_bind].
  destruct (books_table _ _ _ _ _ (Z.land (entry R t k) PAGE_ADDR_MASK) (Node r l q) Hb1) as (a' & M' & Hrun & Hb').
  { apply Tof_lookup. split; [done|]. right. apply orb_false_iff. split; [apply HgT, below_self|].
    apply not_true_iff_false. rewrite existsb_true. intros (j & _ & Hj & _). cbn in Hj. lia. }
  { by eapply Huser. }
  unfold free. rewrite Hrun. cbn [mbind option_bind]. exists (with_fa a' s1), M'. split; [done|]. split; [done|].
  rewrite <- (Tof_remove _ _ _ Hd) in Hb' by done. erewrite Tof_ext, Pof_ext; [exact Hb'|..].
  - intros v x _. cbn. f_equal. apply eq_iff_eq_true. by rewrite existsb_true, bool_decide_eq_true, range_S.
  - intros u n Hu Hr. cbn. rewrite <- orb_assoc. f_equal. apply eq_iff_eq_true.
    rewrite orb_true_iff, existsb_true, !bool_decide_eq_true, below_cases. destruct n as [r' lev num]. cbn in *. subst r'.
    split; [intros [[-> ->]|?]; auto|intros [?|[= -> ->]]; auto].
Qed.

(** ** The whole user half *)

(** Every table of the space but the root is below an entry of the lower half. *)
Lemma tables_user u n : r <> kroot -> T0 !! u = Some n -> n_root n = r -> (n_level n < 3)%nat ->
  exists k, k ∈ seqZ 0 256 /\ below 3 (0 * 512 + k) n.
Proof using Hs.
  clear X.
  intros Hk Hu Hr Hl. destruct n as [r' lev num]. cbn [n_root n_level] in *. subst r'.
  destruct (above u lev num (2 - lev) Hu) as [w Hw]; [lia|]. replace (lev + (2 - lev))%nat with 2%nat in Hw by lia.
  destruct (sh_up _ _ _ _ _ Hs _ _ _ _ Hw) as (w' & Hw' & [Hi Hown] & _); [lia|].
  destruct (sh_level _ _ _ _ _ Hs _ _ Hw') as [_ Hroot]. destruct (Hroot eq_refl) as [_ Hz]. cbn [n_root n_level n_number] in *.
  specialize (Hown eq_refl). unfold owns in Hown. destruct (Z.eqb_spec r kroot); [done|]. apply Z.ltb_lt in Hown.
  exists (num / span (2 - lev)). split; [apply elem_of_seqZ; mlia|]. split; [cbn; lia|]. cbn [n_number n_level].
  replace (3 - 1 - lev)%nat with (2 - lev)%nat by lia. lia.
Qed.

Lemma leaves_user v x : r <> kroot -> P0 !! (r, v) = Some x -> user_page v.
Proof using Hs.
  clear X.
  intros Hk Hx. destruct (sh_dom _ _ _ _ _ Hs _ _ _ Hx) as [_ [t Ht]].
  destruct (tables_user t _ Hk Ht eq_refl) as (k & Hks & Hb); [cbn; lia|]. apply elem_of_seqZ in Hks.
  destruct Hb as [_ Hb]. cbn [n_level n_number] in Hb. change (span (3 - 1 - 0)) with (2 ^ 18) in Hb. unfold user_page. mlia.
Qed.
End walk.

(** The other spaces are unaffected. *)
Lemma shape_without R T P r :
  shape kroot kwin R T P -> shape kroot kwin R (filter (fun tn => n_root tn.2 <> r) T) (filter (fun kx => kx.1.1 <> r) P).
Proof.
  intros Hs. assert (HT : forall t n, filter (fun tn => n_root tn.2 <> r) T !! t = Some n <-> T !! t = Some n /\ n_root n <> r)
    by (intros; by rewrite map_lookup_filter_Some).
  constructor.
  - intros t n [Ht _]%HT. by apply (sh_level _ _ _ _ _ Hs).
  - intros t n [Ht _]%HT. by apply (sh_mem _ _ _ _ _ Hs t n).
  - intros t r' l q i [Ht Hn]%HT Hi. destruct (sh_down _ _ _ _ _ Hs _ _ _ _ i Ht Hi) as [|[Hb Hd]]; [by left|right].
    split; [done|]. by apply HT.
  - intros t r' l q [Ht Hn]%HT Hl. destruct (sh_up _ _ _ _ _ Hs _ _ _ _ Ht Hl) as (t' & Ht' & Hrest). exists t'.
    split; [|done]. by apply HT.
  - intros t r' q i [Ht Hn]%HT Hi. rewrite (sh_leaf _ _ _ _ _ Hs _ _ _ _ Ht Hi). f_equal. symmetry.
    destruct (P !! (r', q * 512 + i)) as [x|] eqn:E; [by apply map_lookup_filter_Some|apply map_lookup_filter_None; by left].
  - intros r' v x [Hx Hn]%map_lookup_filter_Some. destruct (sh_dom _ _ _ _ _ Hs _ _ _ Hx) as [Hb [t Ht]]. split; [done|].
    exists t. by apply HT.
Qed.

(** A table that is handed to the caller. *)
Lemma books_hand_over a M T P X t n :
  books a M T P X -> T !! t = Some n -> books a M (delete t T) P (bump1 t 1 X).
Proof.
  intros [B1 B2 B3 B4 B5] Ht. constructor; [done|..].
  - intros f Hf. rewrite (B2 f Hf). unfold tab, bump1. destruct (Z.eqb_spec f t) as [->|Hne].
    + rewrite Ht, lookup_delete_eq. lia.
    + by rewrite lookup_delete_ne.
  - intros f. unfold bump1. specialize (B3 f). destruct (f =? t); lia.
  - intros u k [Hn Hu]%lookup_delete_Some Hru. by eapply B4.
  - intros k x Hx. specialize (B5 k x Hx). destruct (l_ref x); [done|]. destruct B5 as [H1 H2].
    split; [apply lookup_delete_None; by right|]. intros Hf. specialize (H2 Hf). unfold bump1. destruct (_ =? _); lia.
Qed.

Lemma books_inv s M T P X :
  books (fa s) M T P X -> shape kroot kwin (ram s) T P -> (forall f, fr_ram f -> is_Some (ram s !! f)) ->
  (forall t n, T !! t = Some n -> n_root n <> kroot -> fr_ram t) -> inv s M T P X.
Proof.
  intros [B1 B2 B3 B4 B5] Hs Hr Hu. constructor; try done; intros k x Hx Hl; specialize (B5 k x Hx); by rewrite Hl in B5.
Qed.

(** What is left of the tables and entries when every entry of the root is gone. *)
Lemma tables_left R T P r :
  shape kroot kwin R T P -> r <> kroot -> T !! r = Some (Node r 3 0) ->
  delete r (Tof T r (fun n => existsb (fun k => bool_decide (below 3 (0 * 512 + k) n)) (seqZ 0 256)))
    = filter (fun tn => n_root tn.2 <> r) T /\
  Tof T r (fun n => existsb (fun k => bool_decide (below 3 (0 * 512 + k) n)) (seqZ 0 256)) !! r = Some (Node r 3 0).
Proof.
  intros Hs Hk Hr. split.
  - apply map_eq. intros t. apply option_eq. intros n. rewrite lookup_delete_Some, Tof_lookup, map_lookup_filter_Some.
    cbn [snd]. split; [intros (Hne & Ht & [Hn|Hg])|intros [Ht Hn]].
    + done.
    + split; [done|]. intros Hroot. apply not_true_iff_false in Hg. apply Hg. apply existsb_true.
      eapply tables_user; [exact Hs|done|exact Ht|done|]. destruct (sh_level _ _ _ _ _ Hs _ _ Ht) as [Hl H3].
      destruct (decide (n_level n = 3%nat)) as [E|]; [|lia]. destruct (H3 E). congruence.
    + split; [|auto]. intros <-. rewrite Hr in Ht. injection Ht as <-. by apply Hn.
  - apply Tof_lookup. split; [done|]. right. apply not_true_iff_false. rewrite existsb_true. intros (j & _ & Hj & _).
    cbn in Hj. lia.
Qed.

Lemma leaves_left R T P r :
  shape kroot kwin R T P -> r <> kroot ->
  Pof P r (fun v => existsb (fun k => bool_decide (range 3 (0 * 512 + k) v)) (seqZ 0 256)) = filter (fun kx => kx.1.1 <> r) P.
Proof.
  intros Hs Hk. apply map_filter_ext. intros [r' v] x Hx. cbn [fst snd]. split; [|tauto]. intros [?|Hg]; [done|]. intros ->.
  apply not_true_iff_false in Hg. apply Hg. apply existsb_true. apply user_range. by eapply leaves_user.
Qed.

(** The space is gone; its root is in the hands of the caller. *)
Lemma free_user_spec s M T P X r m :
  inv s M T P X -> r <> kroot -> T !! r = Some (Node r 3 0) ->
  (forall v x, P !! (r, v) = Some x -> l_ref x = negb (mmio_at m (v * 4096))) ->
  exists s' M', vmm_free_user_ex s r m = Some s' /\ ram s' = ram s /\ M' !! r = Some 1 /\
    inv s' M' (filter (fun tn => n_root tn.2 <> r) T) (filter (fun kx => kx.1.1 <> r) P) (bump1 r 1 X).
Proof.
  intros Hi Hk Hr Htag. pose proof (vi_shape _ _ _ _ _ _ _ Hi) as Hs. unfold vmm_free_user_ex.
  assert (Huser : forall t n, T !! t = Some n -> n_root n = r -> fr_ram t) by (intros t n Ht <-; by apply (vi_user _ _ _ _ _ _ _ Hi t n)).
  assert (HT0 : Tof T r (fun _ => false) = T) by (apply map_filter_id; auto).
  assert (HP0 : Pof P r (fun _ => false) = P) by (apply map_filter_id; auto).
  destruct (free_entries (ram s) T P X r m 3 (free_level_ok (ram s) T P X r m Hs Huser Htag 3 (Nat.le_refl 3)) (seqZ 0 256) s M
    (fun _ => false) (fun _ => false) r 0 Hr) as (s' & M' & Hrun & Hram & Hb); [..|done|done|].
  { apply NoDup_seqZ. }
  { intros k Hks%elem_of_seqZ. apply user_slot; [done|lia]. }
  { done. }
  { rewrite HT0, HP0. by apply inv_books. }
  cbn [orb] in Hb. destruct (tables_left _ _ _ _ Hs Hk Hr) as [HT HTr]. rewrite (leaves_left _ _ _ _ Hs Hk) in Hb.
  exists s', M'. split; [done|]. split; [done|]. split.
  { apply (bk_tab _ _ _ _ _ Hb r _ HTr). by eapply Huser. }
  apply (books_hand_over _ _ _ _ _ _ _ Hb) in HTr. rewrite HT in HTr. apply books_inv; [done| | |].
  - rewrite Hram. by apply shape_without.
  - rewrite Hram. apply Hi.
  - intros t n [Ht _]%map_lookup_filter_Some. by apply (vi_user _ _ _ _ _ _ _ Hi).
Qed.
End free.
