(* ===== verification/Shmem.v ===== *)
(** * Shared memory objects

    Models kernel/mm/shmem.c and the calls [sys_shm_open], [sys_shm_unlink] and
    the shared-memory half of [sys_ftruncate] of kernel/syscall/syscall.c.  The
    objects are a map by address; using an object that was freed is a fault.  A
    name is the list of its bytes before the terminator, and a slot of the
    namespace table holds an object's address or NULL.  The arguments [a] and
    [mem] are what [kmalloc] answers.  Objects whose last reference is gone wait
    in [sw_rcu] for the end of a grace period. *)

From S2P Require Import Prelude Errno DList Buddy Cred UnixNs Vma Frames PageTable.

Abbreviation SHMEM_MAX_PAGES := 262144%Z (only parsing).
Abbreviation SHMEM_NAME_MAX := 63%Z (only parsing).
Abbreviation SHMEM_NS_INIT_CAP := 32%Z (only parsing).

Record shm := Shm {
  so_pages : list Z; so_npages : Z; so_refcount : Z;
  so_uid : Z; so_gid : Z; so_mode : Z; so_name : list Z;
}.
(** The length of [pages[]]. *)
Definition so_max_pages (o : shm) : Z := Z.of_nat (length (so_pages o)).

Definition with_pages (l : list Z) (n : Z) (o : shm) : shm :=
  Shm l n (so_refcount o) (so_uid o) (so_gid o) (so_mode o) (so_name o).
Definition with_ref (n : Z) (o : shm) : shm :=
  Shm (so_pages o) (so_npages o) n (so_uid o) (so_gid o) (so_mode o) (so_name o).
Definition with_name (l : list Z) (o : shm) : shm :=
  Shm (so_pages o) (so_npages o) (so_refcount o) (so_uid o) (so_gid o) (so_mode o) l.

Abbreviation O_CREAT := 0x40%Z (only parsing).
Abbreviation O_EXCL := 0x80%Z (only parsing).
Abbreviation O_TRUNC := 0x200%Z (only parsing).

Record shm_table := ShmTable { st_slots : list Z; st_cnt : Z }.
Definition st_cap (t : shm_table) : Z := Z.of_nat (length (st_slots t)).

Record shmw (A : Type) := Shmw {
  sw_m : machine A; sw_objs : gmap Z shm; sw_ns : option shm_table; sw_rcu : list Z;
}.
Arguments Shmw {A}.
Arguments sw_m {A}.
Arguments sw_objs {A}.
Arguments sw_ns {A}.
Arguments sw_rcu {A}.

(** ** The namespace *)

Definition s_streq : list Z -> list Z -> bool := ns_streq.
Definition shm_hash_str (s : list Z) (cap : Z) : Z := Z.land (fold_left fnv_step s 2166136261) (cap - 1).

Definition shm_ns_table_alloc (mem : bool) (cap : Z) : option shm_table :=
  if mem then Some (ShmTable (replicate (Z.to_nat cap) NULL) 0) else None.

(** [while (t->slots[i].shm) i = (i + 1u) & (t->cap - 1u)]. *)
Fixpoint shm_probe_free (fuel : nat) (slots : list Z) (i : Z) : option Z :=
  match fuel with
  | O => None
  | S fuel =>
      x ← slots !! Z.to_nat i;
      if x =? NULL then Some i else shm_probe_free fuel slots (next_slot i (Z.of_nat (length slots)))
  end.

Section namespace.
Context (objs : gmap Z shm).

Definition shm_ns_raw_insert (t : shm_table) (x : Z) : option shm_table :=
  o ← objs !! x;
  i ← shm_probe_free (length (st_slots t)) (st_slots t) (shm_hash_str (so_name o) (st_cap t));
  Some (ShmTable (<[Z.to_nat i := x]> (st_slots t)) (u32 (st_cnt t + 1))).

(** The lookup loop, also of the duplicate check: NULL when nothing is found. *)
Fixpoint shm_probe (n : nat) (slots : list Z) (i : Z) (name : list Z) : option Z :=
  match n with
  | O => Some NULL
  | S n =>
      x ← slots !! Z.to_nat i;
      if x =? NULL then Some NULL
      else
        o ← objs !! x;
        if s_streq (so_name o) name then Some x else shm_probe n slots (next_slot i (Z.of_nat (length slots))) name
  end.

Fixpoint shm_copy (neu : shm_table) (l : list Z) : option shm_table :=
  match l with
  | [] => Some neu
  | x :: l => neu ← (if x =? NULL then Some neu else shm_ns_raw_insert neu x); shm_copy neu l
  end.

(** Every entry but the first that is [shm]. *)
Fixpoint shm_copy_but (neu : shm_table) (l : list Z) (shm : Z) (removed : bool) : option shm_table :=
  match l with
  | [] => Some neu
  | x :: l =>
      if x =? NULL then shm_copy_but neu l shm removed
      else if negb removed && (x =? shm) then shm_copy_but neu l shm true
      else neu ← shm_ns_raw_insert neu x; shm_copy_but neu l shm removed
  end.
End namespace.

Definition shm_new_cap (old_cap old_cnt : Z) : Z :=
  let cap := if old_cap =? 0 then SHMEM_NS_INIT_CAP else old_cap in
  if u32 (cap * 3) <=? u32 (u32 (old_cnt + 1) * 4)
  then (if old_cap =? 0 then SHMEM_NS_INIT_CAP else u32 (old_cap * 2)) else cap.

(** ** Objects *)

Section shmem.
Context {A : Type} `{FrameOps A}.
Implicit Types (w : shmw A).

Definition with_objs (m : gmap Z shm) w : shmw A := Shmw (sw_m w) m (sw_ns w) (sw_rcu w).
Definition with_ns (ns : option shm_table) w : shmw A := Shmw (sw_m w) (sw_objs w) ns (sw_rcu w).
Definition with_vm (s : machine A) w : shmw A := Shmw s (sw_objs w) (sw_ns w) (sw_rcu w).
Definition upd_obj (x : Z) (f : shm -> shm) w : option (shmw A) :=
  o ← sw_objs w !! x; Some (with_objs (<[x := f o]> (sw_objs w)) w).

(** The address, or NULL. *)
Definition shmem_create w (a : Z) (mem : bool) (npages uid gid mode : Z) : shmw A * Z :=
  if SHMEM_MAX_PAGES <? npages then (w, NULL)
  else if a =? NULL then (w, NULL)
  else
    let cap := if 0 <? npages then npages else 1 in
    if negb mem then (w, NULL)
    else (with_objs (<[a := Shm (replicate (Z.to_nat cap) 0) npages 1 uid gid mode []]> (sw_objs w)) w, a).

Definition shmem_ref w (x : Z) : option (shmw A) :=
  if x =? NULL then Some w else upd_obj x (fun o => with_ref (u32 (so_refcount o + 1)) o) w.

Definition shmem_tryget w (x : Z) : option (shmw A * bool) :=
  if x =? NULL then Some (w, false)
  else
    o ← sw_objs w !! x;
    if so_refcount o =? 0 then Some (w, false)
    else w ← upd_obj x (with_ref (u32 (so_refcount o + 1))) w; Some (w, true).

(** [for (i = from; i < to; i++)] drop the object's reference to its page. *)
Fixpoint drop_pages (s : machine A) (l : list Z) : option (machine A) :=
  match l with
  | [] => Some s
  | p :: l => s ← (if p =? 0 then Some s else ref_dec s p); drop_pages s l
  end.

Definition shmem_free_rcu w (x : Z) : option (shmw A) :=
  o ← sw_objs w !! x;
  s ← (if so_max_pages o <? so_npages o then None else drop_pages (sw_m w) (take (Z.to_nat (so_npages o)) (so_pages o)));
  Some (Shmw s (delete x (sw_objs w)) (sw_ns w) (sw_rcu w)).

Definition shmem_ns_remove w (mem : bool) (x : Z) : option (shmw A) :=
  if x =? NULL then Some w
  else
    o ← sw_objs w !! x;
    match so_name o with
    | [] => Some w
    | _ =>
        match sw_ns w with
        | None => Some w
        | Some old =>
            match shm_ns_table_alloc mem (st_cap old) with
            | None => Some w
            | Some neu => neu ← shm_copy_but (sw_objs w) neu (st_slots old) x false; Some (with_ns (Some neu) w)
            end
        end
    end.

Definition shmem_unref w (mem : bool) (x : Z) : option (shmw A) :=
  if x =? NULL then Some w
  else
    o ← sw_objs w !! x;
    w ← upd_obj x (with_ref (u32 (so_refcount o - 1))) w;
    if negb (so_refcount o =? 1) then Some w
    else
      w ← shmem_ns_remove w mem x;
      Some (Shmw (sw_m w) (sw_objs w) (sw_ns w) (sw_rcu w ++ [x])).

(** [PMM_INVALID_ADDR], or a frame with a reference for the caller. *)
Definition shmem_get_page w (x pg_idx : Z) : option (shmw A * Z) :=
  if x =? NULL then Some (w, PMM_INVALID_ADDR)
  else
    o ← sw_objs w !! x;
    if so_npages o <=? pg_idx then Some (w, PMM_INVALID_ADDR)
    else
      p ← so_pages o !! Z.to_nat pg_idx;
      if negb (p =? 0) then s ← ref_inc (sw_m w) p; Some (with_vm s w, p)
      else
        '(s, r) ← alloc (sw_m w);
        match r with
        | None => Some (with_vm s w, PMM_INVALID_ADDR)
        | Some frame =>
            s ← zero_page s frame;
            w ← upd_obj x (with_pages (<[Z.to_nat pg_idx := frame]> (so_pages o)) (so_npages o)) (with_vm s w);
            s ← ref_inc s frame;
            Some (with_vm s w, frame)
        end.

(** [while (new_cap < new_npages)]: at most 20 doublings reach the maximum. *)
Fixpoint grow_cap (fuel : nat) (new_cap new_npages : Z) : option Z :=
  if new_npages <=? new_cap then Some new_cap
  else
    match fuel with
    | O => None
    | S fuel => grow_cap fuel (if new_cap =? 0 then 1 else u32 (new_cap * 2)) new_npages
    end.

(** [for (i = from; i < to; i++) pages[i] = 0], outside the array a fault. *)
Definition clear_slots (l : list Z) (from to : Z) : option (list Z) :=
  if (to <=? from) then Some l
  else if Z.of_nat (length l) <? to then None
  else Some (take (Z.to_nat from) l ++ replicate (Z.to_nat (to - from)) 0 ++ drop (Z.to_nat to) l).

Definition shmem_resize w (mem : bool) (x new_npages : Z) : option (shmw A * Z) :=
  if x =? NULL then Some (w, - EINVAL)
  else if SHMEM_MAX_PAGES <? new_npages then Some (w, - EINVAL)
  else
    o ← sw_objs w !! x;
    if new_npages =? so_npages o then Some (w, 0)
    else if new_npages <? so_npages o then
      s ← (if so_max_pages o <? so_npages o then None
           else drop_pages (sw_m w) (drop (Z.to_nat new_npages) (take (Z.to_nat (so_npages o)) (so_pages o))));
      l ← clear_slots (so_pages o) new_npages (so_npages o);
      w ← upd_obj x (with_pages l new_npages) (with_vm s w);
      Some (w, 0)
    else if so_max_pages o <? new_npages then
      new_cap ← grow_cap 20 (so_max_pages o) new_npages;
      let new_cap := if SHMEM_MAX_PAGES <? new_cap then SHMEM_MAX_PAGES else new_cap in
      if new_cap <? new_npages then Some (w, - EINVAL)
      else if negb mem then Some (w, - ENOMEM)
      else
        l ← (if so_max_pages o <? so_npages o then None
             else Some (take (Z.to_nat (so_npages o)) (so_pages o) ++ replicate (Z.to_nat (new_cap - so_npages o)) 0));
        w ← upd_obj x (with_pages l new_npages) w;
        Some (w, 0)
    else
      l ← clear_slots (so_pages o) (so_npages o) new_npages;
      w ← upd_obj x (with_pages l new_npages) w;
      Some (w, 0).

(** ** Names *)

(** The object, with a reference, or NULL. *)
Definition shmem_ns_find w (name : list Z) : option (shmw A * Z) :=
  match name with
  | [] => Some (w, NULL)
  | _ =>
      match sw_ns w with
      | None => Some (w, NULL)
      | Some t =>
          x ← shm_probe (sw_objs w) (length (st_slots t)) (st_slots t) (shm_hash_str name (st_cap t)) name;
          '(w, ok) ← shmem_tryget w x;
          Some (w, if (ok : bool) then x else NULL)
      end
  end.

Definition shmem_ns_insert w (mem : bool) (x : Z) : option (shmw A * Z) :=
  if x =? NULL then Some (w, - EINVAL)
  else
    o ← sw_objs w !! x;
    match so_name o with
    | [] => Some (w, - EINVAL)
    | name =>
        let old_cap := match sw_ns w with Some t => st_cap t | None => 0 end in
        let old_cnt := match sw_ns w with Some t => st_cnt t | None => 0 end in
        found ← match sw_ns w with
          | Some t => shm_probe (sw_objs w) (length (st_slots t)) (st_slots t) (shm_hash_str name (st_cap t)) name
          | None => Some NULL
          end;
        if negb (found =? NULL) then Some (w, - EEXIST)
        else
          match shm_ns_table_alloc mem (shm_new_cap old_cap old_cnt) with
          | None => Some (w, - ENOMEM)
          | Some neu =>
              neu ← shm_copy (sw_objs w) neu (match sw_ns w with Some t => st_slots t | None => [] end);
              neu ← shm_ns_raw_insert (sw_objs w) neu x;
              Some (with_ns (Some neu) w, 0)
          end
    end.

Definition shmem_check_access (o : shm) (c : cred) (oflags : Z) : option Z :=
  if euid c =? 0 then Some 0
  else
    perm ← (if euid c =? so_uid o then Some (Z.land (Z.shiftr (so_mode o) 6) 7)
            else g ← cred_in_group c (so_gid o);
                 Some (if (g : bool) then Z.land (Z.shiftr (so_mode o) 3) 7 else Z.land (so_mode o) 7));
    let need_r := (oflags =? 0) || (oflags =? 2) in
    let need_w := (oflags =? 1) || (oflags =? 2) in
    Some (if need_r && (Z.land perm 4 =? 0) then - EACCES
          else if need_w && (Z.land perm 2 =? 0) then - EACCES else 0).

(** The open file holds a reference to the object; [false] for no memory. *)
Definition shmem_fd_create w (mem : bool) (x : Z) : option (shmw A * bool) :=
  if x =? NULL then Some (w, false)
  else if negb mem then Some (w, false)
  else w ← shmem_ref w x; Some (w, true).

Definition shmem_fd_close w (mem : bool) (x : Z) : option (shmw A) := shmem_unref w mem x.

(** ** System calls *)

(** What the allocator answers during one call. *)
Record shm_mem := ShmMem { m_obj : Z; m_pages : bool; m_table : bool; m_remove : bool; m_file : bool }.

(** The C string at the start of a buffer. *)
Fixpoint c_string (l : list Z) : list Z :=
  match l with [] => [] | x :: l => if x =? 0 then [] else x :: c_string l end.

(** A name is "/" and no more slashes; [inr] is the part after the slash. *)
Definition shm_name (uname : list Z) (no_more : bool) : Z + list Z :=
  match uname with
  | [] => inl (- ENAMETOOLONG)
  | c :: rest =>
      if SHMEM_NAME_MAX <? Z.of_nat (length uname) then inl (- ENAMETOOLONG)
      else if negb (c =? 47) then inl (- EINVAL)
      else if no_more && existsb (Z.eqb 47) rest then inl (- EINVAL)
      else match c_string rest with [] => inl (- EINVAL) | iname => inr iname end
  end.

(** [slot] is the descriptor the table has room for. *)
Definition sys_shm_open w (k : shm_mem) (slot : option Z) (c : cred) (umask : Z) (uname : list Z) (oflags mode : Z)
  : option (shmw A * Z) :=
  match shm_name uname true with
  | inl err => Some (w, err)
  | inr iname =>
      let access_mode := Z.land oflags 3 in
      let creating := bits oflags O_CREAT in
      let exclusive := bits oflags O_EXCL in
      let truncating := bits oflags O_TRUNC in
      '(w, x) ← shmem_ns_find w iname;
      let found_extra_ref := negb (x =? NULL) in
      '(w, r) ←
        (if found_extra_ref then
           if creating && exclusive then w ← shmem_unref w (m_remove k) x; Some (w, inl (- EEXIST))
           else
             o ← sw_objs w !! x;
             rc ← shmem_check_access o c access_mode;
             if negb (rc =? 0) then w ← shmem_unref w (m_remove k) x; Some (w, inl rc)
             else if truncating && ((access_mode =? 1) || (access_mode =? 2))
             then '(w, _) ← shmem_resize w (m_pages k) x 0; Some (w, inr x)
             else Some (w, inr x)
         else if negb creating then Some (w, inl (- ENOENT))
         else
           let effective_mode := u16 (Z.land (Z.land mode (Z.lnot umask)) 0x1FF) in
           let '(w, x) := shmem_create w (m_obj k) (m_pages k) 0 (euid c) (egid c) effective_mode in
           if x =? NULL then Some (w, inl (- ENOMEM))
           else
             w ← upd_obj x (with_name iname) w;
             '(w, rc) ← shmem_ns_insert w (m_table k) x;
             if negb (rc =? 0) then w ← shmem_unref w (m_remove k) x; Some (w, inl rc)
             else Some (w, inr x));
      match r with
      | inl err => Some (w, err)
      | inr x =>
          let drop_extra w := if found_extra_ref then shmem_unref w (m_remove k) x else Some w in
          '(w, ok) ← shmem_fd_create w (m_file k) x;
          if negb ok then w ← drop_extra w; Some (w, - ENOMEM)
          else
            match slot with
            | Some i => w ← drop_extra w; Some (w, i)
            | None => w ← shmem_fd_close w (m_remove k) x; w ← drop_extra w; Some (w, - EMFILE)
            end
      end
  end.

(** [sys_shm_unlink] in two parts: until the object is found, and from the
    permission check on. *)
Definition shm_unlink_find w (uname : list Z) : option (shmw A * (Z + Z)) :=
  match shm_name uname false with
  | inl err => Some (w, inl err)
  | inr iname =>
      '(w, x) ← shmem_ns_find w iname;
      Some (w, if x =? NULL then inl (- ENOENT) else inr x)
  end.
Definition shm_unlink_rest w (mem : bool) (c : cred) (x : Z) : option (shmw A * Z) :=
  o ← sw_objs w !! x;
  if negb (euid c =? 0) && negb (euid c =? so_uid o) then w ← shmem_unref w mem x; Some (w, - EACCES)
  else
    w ← shmem_ns_remove w mem x;
    w ← upd_obj x (with_name []) w;
    w ← shmem_unref w mem x;
    w ← shmem_unref w mem x;
    Some (w, 0).
Definition sys_shm_unlink w (mem : bool) (c : cred) (uname : list Z) : option (shmw A * Z) :=
  '(w, r) ← shm_unlink_find w uname;
  match r with inl err => Some (w, err) | inr x => shm_unlink_rest w mem c x end.

(** For a descriptor of the object at [x]. *)
Definition sys_ftruncate_shm w (mem : bool) (x length : Z) : option (shmw A * Z) :=
  if x =? NULL then Some (w, - EINVAL)
  else
    '(w, rc) ← shmem_resize w mem x (u32 (u64 (length + 4096 - 1) / 4096));
    Some (w, if rc <? 0 then rc else 0).
End shmem.
