(* ===== verification/Pcache.v ===== *)
(** * The page cache

    Models kernel/mm/pcache.c.  An entry is a record by address; the hash chains
    are the lists of their entries, and the ring through which the clock hand
    goes is made of the pointers [clock_next] and [clock_prev] of the entries.
    Using an entry that is not there is a fault.  The cache takes and drops
    references to frames of the machine it runs on; [free_pages_get] is the
    allocator's count of free pages. *)

From S2P Require Import Prelude Errno DList Buddy Vma Frames PageTable.

Abbreviation PCACHE_MASK := 1023%Z (only parsing).
Abbreviation PCACHE_TARGET_PCT := 80%Z (only parsing).

Record pentry := PEntry {
  pe_ino : Z; pe_idx : Z; pe_frame : Z;
  clock_next : Z; clock_prev : Z; pe_accessed : bool;
}.
Definition with_next (n : Z) (e : pentry) : pentry := PEntry (pe_ino e) (pe_idx e) (pe_frame e) n (clock_prev e) (pe_accessed e).
Definition with_prev (p : Z) (e : pentry) : pentry := PEntry (pe_ino e) (pe_idx e) (pe_frame e) (clock_next e) p (pe_accessed e).
Definition with_accessed (b : bool) (e : pentry) : pentry := PEntry (pe_ino e) (pe_idx e) (pe_frame e) (clock_next e) (clock_prev e) b.

Record pcache := Pcache {
  pc_entries : gmap Z pentry;
  pc_buckets : gmap Z (list Z);
  pc_hand : Z;
  pc_count : Z;
  pc_ready : bool;
  pc_wake : bool;
}.
Definition bucket (c : pcache) (h : Z) : list Z := default [] (pc_buckets c !! h).
Definition with_entries (m : gmap Z pentry) (c : pcache) : pcache := Pcache m (pc_buckets c) (pc_hand c) (pc_count c) (pc_ready c) (pc_wake c).
Definition with_bucket (h : Z) (l : list Z) (c : pcache) : pcache :=
  Pcache (pc_entries c) (<[h := l]> (pc_buckets c)) (pc_hand c) (pc_count c) (pc_ready c) (pc_wake c).
Definition with_hand (x : Z) (c : pcache) : pcache := Pcache (pc_entries c) (pc_buckets c) x (pc_count c) (pc_ready c) (pc_wake c).
Definition with_count (n : Z) (c : pcache) : pcache := Pcache (pc_entries c) (pc_buckets c) (pc_hand c) n (pc_ready c) (pc_wake c).
Definition with_wake (b : bool) (c : pcache) : pcache := Pcache (pc_entries c) (pc_buckets c) (pc_hand c) (pc_count c) (pc_ready c) b.

Definition upd_entry (c : pcache) (x : Z) (f : pentry -> pentry) : option pcache :=
  e ← pc_entries c !! x; Some (with_entries (<[x := f e]> (pc_entries c)) c).

(** ** The ring *)

Definition clock_insert (c : pcache) (e : Z) : option pcache :=
  c ← (if pc_hand c =? NULL then
         c ← upd_entry c e (with_next e);
         c ← upd_entry c e (with_prev e);
         Some (with_hand e c)
       else
         c ← upd_entry c e (with_next (pc_hand c));
         h ← pc_entries c !! pc_hand c;
         c ← upd_entry c e (with_prev (clock_prev h));
         h ← pc_entries c !! pc_hand c;
         c ← upd_entry c (clock_prev h) (with_next e);
         upd_entry c (pc_hand c) (with_prev e));
  Some (with_count (u64 (pc_count c + 1)) c).

Definition clock_remove (c : pcache) (e : Z) : option pcache :=
  v ← pc_entries c !! e;
  c ← (if clock_next v =? e then Some (with_hand NULL c)
       else
         c ← upd_entry c (clock_prev v) (with_next (clock_next v));
         v ← pc_entries c !! e;
         c ← upd_entry c (clock_next v) (with_prev (clock_prev v));
         v ← pc_entries c !! e;
         Some (if pc_hand c =? e then with_hand (clock_next v) c else c));
  c ← upd_entry c e (with_next NULL);
  c ← upd_entry c e (with_prev NULL);
  Some (with_count (u64 (pc_count c - 1)) c).

(** ** The table *)

Definition pcache_init (c : pcache) : pcache := Pcache (pc_entries c) ∅ (pc_hand c) (pc_count c) true (pc_wake c).

Definition pcache_hash (ino pg_idx : Z) : Z :=
  let k := Z.lor (u64 (Z.shiftl ino 32)) pg_idx in
  let k := Z.lxor k (Z.shiftr k 33) in
  let k := u64 (k * 0xff51afd7ed558ccd) in
  let k := Z.lxor k (Z.shiftr k 33) in
  let k := u64 (k * 0xc4ceb9fe1a85ec53) in
  let k := Z.lxor k (Z.shiftr k 33) in
  u32 (Z.land k PCACHE_MASK).

(** The first entry of a chain for this page, or NULL. *)
Fixpoint chain_find (m : gmap Z pentry) (l : list Z) (ino pg_idx : Z) : option Z :=
  match l with
  | [] => Some NULL
  | x :: l =>
      e ← m !! x;
      if (pe_ino e =? ino) && (pe_idx e =? pg_idx) then Some x else chain_find m l ino pg_idx
  end.

Section pcache.
Context {A : Type} `{FrameOps A} (free_pages_get : A -> Z).
Implicit Types (s : machine A).

(** The pages the cache may hold. *)
Definition pcache_target (c : pcache) s : Z :=
  u64 (u64 (free_pages_get (fa s) + pc_count c) * PCACHE_TARGET_PCT) / 100.

Definition pcache_maybe_wake_reclaim (c : pcache) s : pcache :=
  if pcache_target c s <? pc_count c then with_wake true c else c.

Definition pcache_get s (c : pcache) (ino pg_idx : Z) : option (machine A * pcache * Z) :=
  if negb (pc_ready c) || (ino =? 0) then Some (s, c, PMM_INVALID_ADDR)
  else
    x ← chain_find (pc_entries c) (bucket c (pcache_hash ino pg_idx)) ino pg_idx;
    if x =? NULL then Some (s, c, PMM_INVALID_ADDR)
    else
      e ← pc_entries c !! x;
      c ← upd_entry c x (with_accessed true);
      s ← ref_inc s (pe_frame e);
      Some (s, c, pe_frame e).

(** [ne] is the memory for the new entry. *)
Definition pcache_insert s (c : pcache) (ne ino pg_idx frame : Z) : option (machine A * pcache * Z) :=
  if negb (pc_ready c) || (ino =? 0) then Some (s, c, PMM_INVALID_ADDR)
  else if ne =? NULL then Some (s, c, PMM_INVALID_ADDR)
  else
    let h := pcache_hash ino pg_idx in
    x ← chain_find (pc_entries c) (bucket c h) ino pg_idx;
    if negb (x =? NULL) then
      e ← pc_entries c !! x;
      s ← ref_inc s (pe_frame e);
      s ← ref_dec s frame;
      Some (s, c, pe_frame e)
    else
      s ← ref_inc s frame;
      let c := with_entries (<[ne := PEntry ino pg_idx frame NULL NULL true]> (pc_entries c)) c in
      let c := with_bucket h (ne :: bucket c h) c in
      c ← clock_insert c ne;
      Some (s, pcache_maybe_wake_reclaim c s, frame).

(** One chain of [pcache_evict_inode]: what stays of it. *)
Fixpoint evict_chain s (c : pcache) (l : list Z) (ino : Z) : option (machine A * pcache * list Z) :=
  match l with
  | [] => Some (s, c, [])
  | x :: l =>
      e ← pc_entries c !! x;
      if pe_ino e =? ino then
        c ← clock_remove c x;
        s ← ref_dec s (pe_frame e);
        evict_chain s (with_entries (delete x (pc_entries c)) c) l ino
      else
        '(s, c, l) ← evict_chain s c l ino;
        Some (s, c, x :: l)
  end.
Fixpoint evict_chains s (c : pcache) (hs : list Z) (ino : Z) : option (machine A * pcache) :=
  match hs with
  | [] => Some (s, c)
  | h :: hs =>
      '(s, c, l) ← evict_chain s c (bucket c h) ino;
      evict_chains s (with_bucket h l c) hs ino
  end.
Definition pcache_evict_inode s (c : pcache) (ino : Z) : option (machine A * pcache) :=
  if negb (pc_ready c) || (ino =? 0) then Some (s, c) else evict_chains s c (seqZ 0 1024) ino.

(** The loop that unlinks the victim from its chain. *)
Fixpoint unchain (l : list Z) (x : Z) : list Z :=
  match l with [] => [] | y :: l => if y =? x then l else y :: unchain l x end.

Fixpoint evict_scan s (c : pcache) (n : nat) : option (machine A * pcache * bool) :=
  match n with
  | O => Some (s, c, false)
  | S n =>
      let cand := pc_hand c in
      e ← pc_entries c !! cand;
      let c := with_hand (clock_next e) c in
      if pe_accessed e then
        c ← upd_entry c cand (with_accessed false);
        evict_scan s c n
      else
        rc ← fr_ref_get (fa s) (pe_frame e);
        if 1 <? rc then
          c ← upd_entry c cand (with_accessed true);
          evict_scan s c n
        else
          c ← clock_remove c cand;
          let h := pcache_hash (pe_ino e) (pe_idx e) in
          let c := with_bucket h (unchain (bucket c h) cand) c in
          s ← ref_dec s (pe_frame e);
          Some (s, with_entries (delete cand (pc_entries c)) c, true)
  end.
Definition pcache_evict_one s (c : pcache) : option (machine A * pcache * bool) :=
  if pc_hand c =? NULL then Some (s, c, false)
  else
    let limit := u64 (pc_count c * 2) in
    let limit := if limit <? 2 then 2 else limit in
    evict_scan s c (Z.to_nat limit).

(** The inner loop of the reclaim thread; every round evicts a page. *)
Fixpoint reclaim_loop (fuel : nat) s (c : pcache) : option (machine A * pcache) :=
  if (pc_count c <=? pcache_target c s) || (pc_count c =? 0) then Some (s, c)
  else
    match fuel with
    | O => None
    | S fuel =>
        '(s, c, ok) ← pcache_evict_one s c;
        if negb ok then Some (s, c) else reclaim_loop fuel s c
    end.
Definition pcache_reclaim s (c : pcache) : option (machine A * pcache) :=
  reclaim_loop (Z.to_nat (pc_count c)) s (with_wake false c).
End pcache.
