(* ===== verification/PcacheSpec.v ===== *)
(** * The page cache: ring, chains and references

    The ring of [Pcache] is a circular doubly linked list, given here by the
    list of its entries from the clock hand on.  The invariant says that ring
    and chains hold the same entries, one for each cached page. *)

From S2P Require Import Prelude Errno DList Buddy Vma Frames PageTable Pcache.

(** ** Circular lists *)

Definition nx (m : gmap Z pentry) (x : Z) : option Z := clock_next <$> m !! x.
Definition pv (m : gmap Z pentry) (x : Z) : option Z := clock_prev <$> m !! x.
Definition link (m : gmap Z pentry) (a b : Z) : Prop := nx m a = Some b /\ pv m b = Some a.

(** From [a] through [l] to [b]. *)
Fixpoint path (m : gmap Z pentry) (a : Z) (l : list Z) (b : Z) : Prop :=
  match l with [] => link m a b | x :: l => link m a x /\ path m x l b end.

Definition ring (m : gmap Z pentry) (l : list Z) : Prop := match l with [] => True | h :: t => path m h t h end.

Lemma path_app m l1 : forall a x l2 b, path m a (l1 ++ x :: l2) b <-> path m a l1 x /\ path m x l2 b.
Proof. induction l1 as [|y l1 IH]; intros a x l2 b; cbn; [done|]. rewrite IH. tauto. Qed.

Lemma ring_rotate m l1 l2 : ring m (l1 ++ l2) -> ring m (l2 ++ l1).
Proof.
  destruct l1 as [|h t]; [by rewrite app_nil_r|]. destruct l2 as [|x t2]; [by rewrite app_nil_r|].
  cbn [app ring]. rewrite !path_app. tauto.
Qed.

Definition lastd (a : Z) (l : list Z) : Z := default a (last l).
Lemma lastd_cons a x l : lastd a (x :: l) = lastd x l.
Proof. unfold lastd. rewrite last_cons. by destruct (last l). Qed.
Lemma lastd_in a l : lastd a l ∈ a :: l.
Proof.
  revert a. induction l as [|x l IH]; intros a; [by left|]. rewrite lastd_cons. right. apply IH.
Qed.

Lemma path_last m l : forall a b, path m a l b -> nx m (lastd a l) = Some b /\ pv m b = Some (lastd a l).
Proof. induction l as [|x l IH]; intros a b; cbn; [done|]. intros [_ Hp]. rewrite lastd_cons. by apply IH. Qed.

(** A path with another end. *)
Lemma path_change m m' l : forall a b b', NoDup (a :: l) -> path m a l b ->
  (forall x, x ∈ a :: l -> x <> lastd a l -> nx m' x = nx m x) -> (forall x, x ∈ l -> pv m' x = pv m x) ->
  nx m' (lastd a l) = Some b' -> pv m' b' = Some (lastd a l) -> path m' a l b'.
Proof.
  induction l as [|x l IH]; intros a b b' Hnd Hp Hn Hv H1 H2; [done|]. destruct Hp as [[Hl1 Hl2] Hp].
  apply NoDup_cons in Hnd as [Ha Hnd]. rewrite lastd_cons in *. split; [split|].
  - rewrite Hn; [done|by left|]. intros ->. apply Ha, lastd_in.
  - rewrite Hv; [done|by left].
  - apply (IH x b); [done|done| |set_solver|done|done]. intros y Hy. apply Hn. by right.
Qed.

(** The list without one of its elements. *)
Lemma ring_same m m' l : (forall x, x ∈ l -> nx m' x = nx m x /\ pv m' x = pv m x) -> ring m l -> ring m' l.
Proof.
  destruct l as [|h t]; [done|]. intros Hs. cbn [ring].
  assert (Hg : forall l a b, path m a l b -> (forall x, x ∈ a :: b :: l -> nx m' x = nx m x /\ pv m' x = pv m x) -> path m' a l b).
  { induction l as [|x l IH]; intros a b; cbn; unfold link.
    - intros [H1 H2] He. rewrite (proj1 (He a ltac:(set_solver))), (proj2 (He b ltac:(set_solver))). done.
    - intros [[H1 H2] Hp] He. rewrite (proj1 (He a ltac:(set_solver))), (proj2 (He x ltac:(set_solver))).
      split; [done|]. apply IH; [done|]. set_solver. }
  intros Hp. apply Hg; [done|]. set_solver.
Qed.

(** ** Entry updates *)

(** What an entry says apart from its place in the ring. *)
Definition pdata (e : pentry) : Z * Z * Z * bool := (pe_ino e, pe_idx e, pe_frame e, pe_accessed e).
Definition same_data (m m' : gmap Z pentry) : Prop := forall x, pdata <$> m' !! x = pdata <$> m !! x.
#[export] Instance same_data_refl : Reflexive same_data.
Proof. by intros m x. Qed.
#[export] Instance same_data_trans : Transitive same_data.
Proof. intros m1 m2 m3 H1 H2 x. by rewrite H2, H1. Qed.

Lemma same_data_some m m' x : same_data m m' -> is_Some (m' !! x) <-> is_Some (m !! x).
Proof. intros Hs. rewrite <- !(fmap_is_Some pdata), Hs. done. Qed.

Lemma same_data_get m m' x e : same_data m m' -> m' !! x = Some e -> exists e0, m !! x = Some e0 /\ pdata e = pdata e0.
Proof.
  intros Hs Hx. specialize (Hs x). rewrite Hx in Hs. destruct (m !! x) as [e0|]; [|done]. exists e0. split; [done|].
  cbn in Hs. congruence.
Qed.

Lemma upd_entry_spec c x f e : pc_entries c !! x = Some e ->
  upd_entry c x f = Some (with_entries (<[x := f e]> (pc_entries c)) c).
Proof. intros Hx. unfold upd_entry. by rewrite Hx. Qed.

Lemma same_data_insert m x e e' : m !! x = Some e -> pdata e' = pdata e -> same_data m (<[x := e']> m).
Proof.
  intros Hx He y. destruct (decide (y = x)) as [->|Hne]; [rewrite lookup_insert_eq, Hx; cbn; by rewrite He|].
  by rewrite lookup_insert_ne.
Qed.

(** Pointer updates, seen through [nx] and [pv]. *)
Definition set_nx (m : gmap Z pentry) (x v : Z) : gmap Z pentry := match m !! x with Some e => <[x := with_next v e]> m | None => m end.
Definition set_pv (m : gmap Z pentry) (x v : Z) : gmap Z pentry := match m !! x with Some e => <[x := with_prev v e]> m | None => m end.

Lemma set_nx_nx m x v y : is_Some (m !! x) -> nx (set_nx m x v) y = if decide (y = x) then Some v else nx m y.
Proof.
  intros [e He]. unfold set_nx, nx. rewrite He. case_decide; subst; [by rewrite lookup_insert_eq|by rewrite lookup_insert_ne].
Qed.
Lemma set_nx_pv m x v y : pv (set_nx m x v) y = pv m y.
Proof.
  unfold set_nx, pv. destruct (m !! x) as [e|] eqn:E; [|done].
  destruct (decide (y = x)) as [->|]; [by rewrite lookup_insert_eq, E|by rewrite lookup_insert_ne].
Qed.
Lemma set_pv_pv m x v y : is_Some (m !! x) -> pv (set_pv m x v) y = if decide (y = x) then Some v else pv m y.
Proof.
  intros [e He]. unfold set_pv, pv. rewrite He. case_decide; subst; [by rewrite lookup_insert_eq|by rewrite lookup_insert_ne].
Qed.
Lemma set_pv_nx m x v y : nx (set_pv m x v) y = nx m y.
Proof.
  unfold set_pv, nx. destruct (m !! x) as [e|] eqn:E; [|done].
  destruct (decide (y = x)) as [->|]; [by rewrite lookup_insert_eq, E|by rewrite lookup_insert_ne].
Qed.
Lemma set_nx_data m x v : same_data m (set_nx m x v).
Proof. unfold set_nx. destruct (m !! x) as [e|] eqn:E; [|done]. by eapply same_data_insert. Qed.
Lemma set_pv_data m x v : same_data m (set_pv m x v).
Proof. unfold set_pv. destruct (m !! x) as [e|] eqn:E; [|done]. by eapply same_data_insert. Qed.

Lemma upd_next c x v : is_Some (pc_entries c !! x) -> upd_entry c x (with_next v) = Some (with_entries (set_nx (pc_entries c) x v) c).
Proof. intros [e He]. unfold upd_entry, set_nx. by rewrite He. Qed.
Lemma upd_prev c x v : is_Some (pc_entries c !! x) -> upd_entry c x (with_prev v) = Some (with_entries (set_pv (pc_entries c) x v) c).
Proof. intros [e He]. unfold upd_entry, set_pv. by rewrite He. Qed.

Lemma nx_get m x v : nx m x = Some v -> exists e, m !! x = Some e /\ clock_next e = v.
Proof. unfold nx. destruct (m !! x) as [e|]; [|done]. cbn. intros [= <-]. by exists e. Qed.
Lemma pv_get m x v : pv m x = Some v -> exists e, m !! x = Some e /\ clock_prev e = v.
Proof. unfold pv. destruct (m !! x) as [e|]; [|done]. cbn. intros [= <-]. by exists e. Qed.

Ltac ptr := repeat first [rewrite set_nx_nx by first [assumption|apply same_data_some; eauto]
  | rewrite set_pv_pv by first [assumption|eauto] | rewrite set_nx_pv | rewrite set_pv_nx].

Lemma some_nx m x y v : is_Some (m !! y) -> is_Some (set_nx m x v !! y).
Proof. intros Hy. by apply (same_data_some _ _ _ (set_nx_data m x v)). Qed.
Lemma some_pv m x y v : is_Some (m !! y) -> is_Some (set_pv m x v !! y).
Proof. intros Hy. by apply (same_data_some _ _ _ (set_pv_data m x v)). Qed.

Ltac same_ptrs := repeat (etrans; [|first [apply set_nx_data|apply set_pv_data]]); reflexivity.

Create HintDb ring.
#[export] Hint Resolve some_nx some_pv : ring.

Definition hd0 (l : list Z) : Z := match l with [] => NULL | x :: _ => x end.

(** Everything but the entries, the hand and the count. *)
Definition moved (c : pcache) (m : gmap Z pentry) (h n : Z) : pcache :=
  Pcache m (pc_buckets c) h n (pc_ready c) (pc_wake c).

(** The entry goes in just behind the hand. *)
Lemma clock_insert_spec c e l :
  ring (pc_entries c) l -> NoDup l -> pc_hand c = hd0 l -> e ∉ l -> NULL ∉ l -> e <> NULL ->
  is_Some (pc_entries c !! e) -> (forall x, x ∈ l -> is_Some (pc_entries c !! x)) ->
  exists m, clock_insert c e = Some (moved c m (hd0 (l ++ [e])) (u64 (pc_count c + 1))) /\
    ring m (l ++ [e]) /\ same_data (pc_entries c) m.
Proof.
  destruct c as [m bk hd cnt rd wk]. cbn [pc_entries pc_hand pc_count].
  intros Hr Hnd -> Hn H0 He Hse Hsl. unfold clock_insert. cbn [pc_hand].
  destruct l as [|h t].
  - cbn [hd0 Z.eqb]. rewrite upd_next by done. cbn [mbind option_bind].
    rewrite upd_prev by by apply some_nx. cbn [mbind option_bind]. eexists. split; [done|]. split.
    + cbn. split; rewrite ?set_pv_nx, ?set_nx_nx, ?set_pv_pv by eauto with ring; by rewrite decide_True.
    + etrans; [apply set_nx_data|apply set_pv_data].
  - cbn [hd0 app]. assert (h <> NULL) by set_solver.
    destruct (Z.eqb_spec h NULL); [done|]. rewrite upd_next by done. cbn [mbind option_bind].
    cbn [ring] in Hr. destruct (path_last _ _ _ _ Hr) as [Hl1 Hl2]. set (z := lastd h t) in *.
    assert (Hz : z ∈ h :: t) by apply lastd_in. assert (Hze : z <> e) by set_solver. assert (Hhe : h <> e) by set_solver.
    cbn [pc_hand with_entries pc_entries].
    destruct (pv_get (set_nx m e h) h z) as (eh & Heh & Hpz); [by rewrite set_nx_pv|]. rewrite Heh. cbn [mbind option_bind].
    rewrite upd_prev by by apply some_nx. cbn [mbind option_bind pc_hand with_entries pc_entries]. rewrite Hpz.
    destruct (pv_get (set_pv (set_nx m e h) e z) h z) as (eh' & Heh' & Hpz').
    { rewrite set_pv_pv, set_nx_pv by eauto with ring. by rewrite decide_False. }
    rewrite Heh'. cbn [mbind option_bind]. rewrite Hpz', upd_next by (cbn; eauto 6 with ring).
    cbn [mbind option_bind pc_hand with_entries pc_entries]. rewrite upd_prev by (assert (h ∈ h :: t) by set_solver; cbn; eauto 6 with ring).
    eexists. split; [done|]. split; [|same_ptrs].
    cbn [app ring pc_entries with_entries]. apply NoDup_cons in Hnd as Hnd'. destruct Hnd' as [Hht _].
    apply path_app. split; [apply (path_change m _ t h h e Hnd Hr)|].
    + intros x Hx Hxz. fold z in Hxz. rewrite ?set_pv_nx, ?set_nx_nx by eauto with ring. rewrite decide_False by done.
      rewrite ?set_pv_nx, set_nx_nx by eauto with ring. rewrite decide_False by set_solver. done.
    + intros x Hx. rewrite set_pv_pv by (assert (h ∈ h :: t) by set_solver; eauto 6 with ring). rewrite decide_False by set_solver.
      rewrite set_nx_pv, set_pv_pv by eauto with ring. rewrite decide_False by set_solver. by rewrite set_nx_pv.
    + fold z. rewrite set_pv_nx, set_nx_nx by eauto with ring. by rewrite decide_True.
    + fold z. rewrite set_pv_pv by (assert (h ∈ h :: t) by set_solver; eauto 6 with ring). rewrite decide_False by done.
      rewrite set_nx_pv, set_pv_pv by eauto with ring. by rewrite decide_True.
    + cbn [path]. split.
      * rewrite set_pv_nx, set_nx_nx by eauto with ring. rewrite decide_False by done.
        rewrite set_pv_nx, set_nx_nx by eauto with ring. by rewrite decide_True.
      * rewrite set_pv_pv by (assert (h ∈ h :: t) by set_solver; eauto 6 with ring). by rewrite decide_True.
Qed.

(** The pointers of the neighbours and of the entry itself. *)
Definition unlink (m : gmap Z pentry) (e z x : Z) : gmap Z pentry :=
  set_pv (set_nx (set_pv (set_nx m z x) x z) e NULL) e NULL.

Lemma unlink_ring m e x t :
  path m e (x :: t) e -> NoDup (e :: x :: t) -> (forall y, y ∈ e :: x :: t -> is_Some (m !! y)) ->
  ring (unlink m e (lastd x t) x) (x :: t).
Proof.
  intros [[He1 He2] Hp] Hnd Hs. set (z := lastd x t). assert (Hz : z ∈ x :: t) by apply lastd_in.
  apply NoDup_cons in Hnd as [Hen Hnd]. assert (Hze : z <> e) by set_solver. assert (Hxe : x <> e) by set_solver.
  assert (Se : is_Some (m !! e)) by (apply Hs; set_solver). assert (Sz : is_Some (m !! z)) by (apply Hs; set_solver).
  assert (Sx : is_Some (m !! x)) by (apply Hs; set_solver). cbn [ring]. unfold unlink.
  apply NoDup_cons in Hnd as Hnd'. destruct Hnd' as [Hxt _].
  apply (path_change m _ t x e x Hnd Hp).
  - intros y Hy Hyz. fold z in Hyz. rewrite set_pv_nx, set_nx_nx by eauto with ring. rewrite decide_False by set_solver.
    rewrite set_pv_nx, set_nx_nx by done. by rewrite decide_False.
  - intros y Hy. rewrite set_pv_pv by eauto 6 with ring. rewrite decide_False by set_solver.
    rewrite set_nx_pv, set_pv_pv by eauto with ring. rewrite decide_False by set_solver. by rewrite set_nx_pv.
  - fold z. rewrite set_pv_nx, set_nx_nx by eauto with ring. rewrite decide_False by done.
    rewrite set_pv_nx, set_nx_nx by done. by rewrite decide_True.
  - fold z. rewrite set_pv_pv by eauto 6 with ring. rewrite decide_False by done.
    rewrite set_nx_pv, set_pv_pv by eauto with ring. by rewrite decide_True.
Qed.

Lemma clock_remove_spec c l1 e l2 :
  ring (pc_entries c) (l1 ++ e :: l2) -> NoDup (l1 ++ e :: l2) -> pc_hand c = hd0 (l1 ++ e :: l2) ->
  (forall x, x ∈ l1 ++ e :: l2 -> is_Some (pc_entries c !! x)) ->
  exists m, clock_remove c e = Some (moved c m (hd0 (l1 ++ l2)) (u64 (pc_count c - 1))) /\
    ring m (l1 ++ l2) /\ same_data (pc_entries c) m.
Proof.
  destruct c as [m bk hd cnt rd wk]. cbn [pc_entries pc_hand pc_count]. intros Hr Hnd -> Hsl.
  assert (Hrot : ring m (e :: l2 ++ l1)) by by apply (ring_rotate m l1 (e :: l2)).
  assert (Hnd' : NoDup (e :: l2 ++ l1)) by by (rewrite (Permutation_app_comm l2 l1), Permutation_middle).
  assert (Hs' : forall y, y ∈ e :: l2 ++ l1 -> is_Some (m !! y)) by (intros y Hy; apply Hsl; set_solver).
  unfold clock_remove. destruct (l2 ++ l1) as [|x t] eqn:El.
  - apply app_eq_nil in El as [-> ->]. cbn [ring path app hd0] in *. destruct Hrot as [Hn _].
    destruct (nx_get _ _ _ Hn) as (v & Hv & Hvn). cbn [pc_entries]. rewrite Hv. cbn [mbind option_bind].
    rewrite Hvn, Z.eqb_refl. cbn [mbind option_bind].
    rewrite upd_next by (cbn; eauto with ring). cbn [mbind option_bind].
    rewrite upd_prev by (cbn; eauto with ring). cbn [mbind option_bind]. eexists. split; [done|].
    split; [done|]. same_ptrs.
  - pose proof (unlink_ring m e x t Hrot Hnd' Hs') as Hring. destruct Hrot as [[Hn Hp] Hpath].
    destruct (path_last _ _ _ _ Hpath) as [Hz1 Hz2]. set (z := lastd x t) in *.
    assert (Hz : z ∈ x :: t) by apply lastd_in.
    apply NoDup_cons in Hnd' as [Hen Hnd']. assert (Hze : z <> e) by set_solver. assert (Hxe : x <> e) by set_solver.
    assert (Se : is_Some (m !! e)) by (apply Hs'; set_solver). assert (Sz : is_Some (m !! z)) by (apply Hs'; set_solver).
    assert (Sx : is_Some (m !! x)) by (apply Hs'; set_solver).
    destruct (nx_get _ _ _ Hn) as (v & Hv & Hvn). assert (Hvp : clock_prev v = z) by (unfold pv in Hz2; rewrite Hv in Hz2; by injection Hz2).
    cbn [pc_entries]. rewrite Hv. cbn [mbind option_bind]. rewrite Hvn, Hvp. destruct (Z.eqb_spec x e); [done|].
    rewrite upd_next by done. cbn [mbind option_bind pc_entries with_entries].
    assert (Hv1 : set_nx m z x !! e = Some v).
    { unfold set_nx. destruct Sz as [? ->]. by rewrite lookup_insert_ne. }
    rewrite Hv1. cbn [mbind option_bind]. rewrite Hvn, Hvp, upd_prev by (cbn; eauto with ring).
    cbn [mbind option_bind pc_entries with_entries].
    assert (Hv2 : set_pv (set_nx m z x) x z !! e = Some v).
    { unfold set_pv. destruct (some_nx m z x x Sx) as [? ->]. by rewrite lookup_insert_ne. }
    rewrite Hv2. cbn [mbind option_bind pc_hand with_entries]. rewrite Hvn.
    assert (Hhd : hd0 (l1 ++ l2) = if hd0 (l1 ++ e :: l2) =? e then x else hd0 (l1 ++ e :: l2)).
    { destruct l1 as [|y l1]; cbn [app hd0]; [rewrite Z.eqb_refl; rewrite app_nil_r in El; by subst|].
      destruct (Z.eqb_spec y e) as [->|]; [|done]. exfalso. apply Hen. rewrite <- El. set_solver. }
    exists (unlink m e z x). split; [|split; [apply (ring_rotate _ l2); by rewrite El|unfold unlink; same_ptrs]].
    rewrite Hhd. unfold unlink.
    destruct (hd0 (l1 ++ e :: l2) =? e); rewrite upd_next by (cbn; eauto with ring); cbn [mbind option_bind];
      rewrite upd_prev by (cbn; eauto with ring); done.
Qed.
