(* ===== verification/PcacheOps.v ===== *)
(** * The page cache: operations

    Every operation keeps the ring and the chains in step and the reference
    counts exact: the cache holds one reference for every entry, and a caller
    that is given a frame holds one more.  Eviction takes only pages that nobody
    else refers to, and finds one whenever there is one. *)

From S2P Require Import Prelude Errno DList Buddy Vma Frames PageTable PageTableSpec PageTableOps Pcache PcacheSpec.

(** ** The invariant *)

Record pc_inv (c : pcache) (l : list Z) : Prop := {
  pi_ring : ring (pc_entries c) l;
  pi_nodup : NoDup l;
  pi_null : NULL ∉ l;
  pi_hand : pc_hand c = hd0 l;
  pi_dom x : is_Some (pc_entries c !! x) <-> x ∈ l;
  pi_chain h x : x ∈ bucket c h <-> exists e, pc_entries c !! x = Some e /\ pcache_hash (pe_ino e) (pe_idx e) = h;
  pi_chain_nodup h : NoDup (bucket c h);
  pi_keys x y e f : pc_entries c !! x = Some e -> pc_entries c !! y = Some f -> pe_ino e = pe_ino f -> pe_idx e = pe_idx f -> x = y;
  pi_count : pc_count c = Z.of_nat (length l);
  pi_small : Z.of_nat (length l) < 2 ^ 62;
}.

Definition cached (c : pcache) (ino idx f : Z) : Prop :=
  exists x e, pc_entries c !! x = Some e /\ pe_ino e = ino /\ pe_idx e = idx /\ pe_frame e = f.

(** The number of entries for a frame. *)
Definition crefs (m : gmap Z pentry) (f : Z) : Z := Z.of_nat (size (filter (fun kx => pe_frame kx.2 = f) m)).

Lemma crefs_nonneg m f : 0 <= crefs m f.
Proof. unfold crefs. lia. Qed.

Lemma crefs_insert m x e f : m !! x = None -> crefs (<[x := e]> m) f = crefs m f + Z.b2z (pe_frame e =? f).
Proof.
  intros Hx. unfold crefs. destruct (Z.eqb_spec (pe_frame e) f).
  - rewrite map_filter_insert_True by done. rewrite map_size_insert_None; [cbn [Z.b2z]; lia|].
    apply map_lookup_filter_None. by left.
  - rewrite map_filter_insert_False, delete_id by done. cbn [Z.b2z]. lia.
Qed.

Lemma crefs_delete m x e f : m !! x = Some e -> crefs m f = crefs (delete x m) f + Z.b2z (pe_frame e =? f).
Proof.
  intros Hx. rewrite <- (insert_id m x e Hx) at 1. rewrite <- insert_delete_eq. by rewrite crefs_insert by apply lookup_delete_eq.
Qed.

Lemma crefs_pos m x e : m !! x = Some e -> 1 <= crefs m (pe_frame e).
Proof. intros Hx. rewrite (crefs_delete m x e _ Hx), Z.eqb_refl. pose proof (crefs_nonneg (delete x m) (pe_frame e)). cbn. lia. Qed.

(** Entries that agree on what they cache. *)
Definition same_frames (m m' : gmap Z pentry) : Prop :=
  forall x, (fun e => (pe_ino e, pe_idx e, pe_frame e)) <$> m' !! x = (fun e => (pe_ino e, pe_idx e, pe_frame e)) <$> m !! x.
#[export] Instance same_frames_refl : Reflexive same_frames.
Proof. by intros m x. Qed.
#[export] Instance same_frames_trans : Transitive same_frames.
Proof. intros m1 m2 m3 H1 H2 x. by rewrite H2, H1. Qed.
#[export] Instance same_frames_sym : Symmetric same_frames.
Proof. intros m1 m2 H1 x. by rewrite H1. Qed.

Lemma same_frames_get m m' x e : same_frames m m' -> m !! x = Some e ->
  exists e', m' !! x = Some e' /\ pe_ino e' = pe_ino e /\ pe_idx e' = pe_idx e /\ pe_frame e' = pe_frame e.
Proof.
  intros Hs Hx. specialize (Hs x). rewrite Hx in Hs. destruct (m' !! x) as [e'|]; [|done]. exists e'. split; [done|].
  cbn in Hs. split_and!; congruence.
Qed.

Lemma same_data_frames m m' : same_data m m' -> same_frames m m'.
Proof.
  intros Hs x. specialize (Hs x). destruct (m !! x) as [e|], (m' !! x) as [e'|]; cbn in *; try done.
  unfold pdata in Hs. congruence.
Qed.

Lemma crefs_same m m' f : same_frames m m' -> crefs m' f = crefs m f.
Proof.
  intros Hs. unfold crefs. f_equal. rewrite <- !(size_dom (D := gset Z)). f_equal. apply set_eq. intros x.
  rewrite !elem_of_dom. split; intros [e [He Hf]%map_lookup_filter_Some]; cbn in Hf.
  - destruct (same_frames_get m' m x e) as (e' & He' & _ & _ & Hf'); [by symmetry|done|].
    exists e'. apply map_lookup_filter_Some. split; [done|]. cbn. congruence.
  - destruct (same_frames_get m m' x e) as (e' & He' & _ & _ & Hf'); [done|done|].
    exists e'. apply map_lookup_filter_Some. split; [done|]. cbn. congruence.
Qed.

Lemma same_frames_some m m' x : same_frames m m' -> is_Some (m' !! x) <-> is_Some (m !! x).
Proof. intros Hs. split; intros [e He]; eapply same_frames_get in He as (? & ? & _); eauto; by symmetry. Qed.

(** Every entry is still there. *)
Definition more (m m' : gmap Z pentry) : Prop := forall x e, m !! x = Some e ->
  exists e', m' !! x = Some e' /\ pe_ino e' = pe_ino e /\ pe_idx e' = pe_idx e /\ pe_frame e' = pe_frame e.
#[export] Instance more_refl : Reflexive more.
Proof. intros m x e He. by exists e. Qed.
#[export] Instance more_trans : Transitive more.
Proof.
  intros m1 m2 m3 H1 H2 x e He. destruct (H1 x e He) as (e2 & He2 & ? & ? & ?). destruct (H2 x e2 He2) as (e3 & He3 & ? & ? & ?).
  exists e3. split_and!; congruence.
Qed.

Lemma same_more m m' : same_frames m m' -> more m m'.
Proof. intros Hs x e. by apply same_frames_get. Qed.

Lemma more_add m m' x e : m !! x = None -> same_frames (<[x := e]> m) m' -> more m m'.
Proof. intros Hx Hs y f Hy. apply (same_frames_get _ _ _ _ Hs). rewrite lookup_insert_ne; [done|congruence]. Qed.

Lemma crefs_more m m' f : more m m' -> crefs m f <= crefs m' f.
Proof.
  intros Hm. unfold crefs. rewrite <- !(size_dom (D := gset Z)). apply inj_le, subseteq_size. intros x.
  rewrite !elem_of_dom. intros [e [He Hf]%map_lookup_filter_Some]. destruct (Hm x e He) as (e' & He' & _ & _ & Hf').
  exists e'. apply map_lookup_filter_Some. split; [done|]. cbn in *. congruence.
Qed.

Lemma cached_same c c' ino idx f : same_frames (pc_entries c) (pc_entries c') -> cached c ino idx f <-> cached c' ino idx f.
Proof.
  intros Hs. split; intros (x & e & He & H1 & H2 & H3).
  - destruct (same_frames_get _ _ _ _ Hs He) as (e' & ? & ? & ? & ?). exists x, e'. split_and!; congruence.
  - symmetry in Hs. destruct (same_frames_get _ _ _ _ Hs He) as (e' & ? & ? & ? & ?). exists x, e'. split_and!; congruence.
Qed.

(** Other contents of the entries, another rotation of the ring. *)
Lemma pc_change c l m' h' w l' :
  pc_inv c l -> same_frames (pc_entries c) m' -> ring m' l' -> l' ≡ₚ l -> h' = hd0 l' ->
  pc_inv (Pcache m' (pc_buckets c) h' (pc_count c) (pc_ready c) w) l'.
Proof.
  intros [H1 H2 H3 H4 H5 H6 H7 H8 H9 H10] Hs Hr Hp ->.
  assert (Hs' : same_frames m' (pc_entries c)) by by symmetry.
  constructor; cbn [pc_entries pc_hand pc_count]; rewrite ?Hp; try done.
  - intros x. rewrite (same_frames_some (pc_entries c) m' x Hs), H5. by rewrite Hp.
  - intros h x. change (bucket _ h) with (bucket c h). rewrite H6. split; intros (e & He & Hh).
    + destruct (same_frames_get _ _ _ _ Hs He) as (e' & ? & Hi & Hx & _). exists e'. split; [done|]. by rewrite Hi, Hx.
    + destruct (same_frames_get _ _ _ _ Hs' He) as (e' & ? & Hi & Hx & _). exists e'. split; [done|]. by rewrite Hi, Hx.
  - intros x y e f Hx Hy Hi Hj. destruct (same_frames_get _ _ _ _ Hs' Hx) as (e1 & ? & Hi1 & Hx1 & _).
    destruct (same_frames_get _ _ _ _ Hs' Hy) as (e2 & ? & Hi2 & Hx2 & _). apply (H8 x y e1 e2); congruence.
Qed.

Lemma accessed_ptrs m x e b l : m !! x = Some e -> ring m l -> ring (<[x := with_accessed b e]> m) l.
Proof.
  intros Hx. apply ring_same. intros y _. unfold nx, pv. destruct (decide (y = x)) as [->|]; [|by rewrite lookup_insert_ne].
  by rewrite lookup_insert_eq, Hx.
Qed.
Lemma accessed_frames m x e b : m !! x = Some e -> same_frames m (<[x := with_accessed b e]> m).
Proof.
  intros Hx y. destruct (decide (y = x)) as [->|]; [by rewrite lookup_insert_eq, Hx|by rewrite lookup_insert_ne].
Qed.

Lemma pc_access c l x e b : pc_inv c l -> pc_entries c !! x = Some e ->
  pc_inv (with_entries (<[x := with_accessed b e]> (pc_entries c)) c) l.
Proof.
  intros Hi Hx. apply (pc_change c l); [done|by apply accessed_frames|apply accessed_ptrs; [done|apply Hi]|done|apply Hi].
Qed.

Lemma pc_advance c x t e : pc_inv c (x :: t) -> pc_entries c !! x = Some e -> clock_next e = hd0 (t ++ [x]).
Proof.
  intros Hi Hx. pose proof (pi_ring _ _ Hi) as Hr. destruct t as [|y t]; cbn in Hr.
  - destruct Hr as [Hn _]. unfold nx in Hn. rewrite Hx in Hn. cbn in *. congruence.
  - destruct Hr as [[Hn _] _]. unfold nx in Hn. rewrite Hx in Hn. cbn in *. congruence.
Qed.

Lemma pc_rotate c x t : pc_inv c (x :: t) -> pc_inv (with_hand (hd0 (t ++ [x])) c) (t ++ [x]).
Proof.
  intros Hi. apply (pc_change c (x :: t)); [done|done|apply (ring_rotate _ [x]), Hi|by rewrite <- Permutation_cons_append|done].
Qed.

(** ** Chains *)

Lemma chain_find_spec m l ino idx : (forall x, x ∈ l -> is_Some (m !! x)) -> NULL ∉ l ->
  exists r, chain_find m l ino idx = Some r /\
    ((r = NULL /\ forall x e, x ∈ l -> m !! x = Some e -> ~ (pe_ino e = ino /\ pe_idx e = idx)) \/
     (r <> NULL /\ r ∈ l /\ exists e, m !! r = Some e /\ pe_ino e = ino /\ pe_idx e = idx)).
Proof.
  induction l as [|x l IH]; intros Hs H0; cbn [chain_find]; [exists NULL; split; [done|left; split; [done|set_solver]]|].
  destruct (Hs x) as [e He]; [by left|]. rewrite He. cbn [mbind option_bind].
  destruct (Z.eqb_spec (pe_ino e) ino) as [H1|H1], (Z.eqb_spec (pe_idx e) idx) as [H2|H2]; cbn [andb].
  1: { exists x. split; [done|]. right. split; [set_solver|]. split; [by left|]. by exists e. }
  all: destruct IH as (r & Hr & Hres); [set_solver|set_solver|]; exists r; split; [done|];
    destruct Hres as [[-> Hno]|(Hn & Hin & Hex)]; [left; split; [done|]|right; split_and!; [done|by right|done]];
    intros y f [->|Hy]%elem_of_cons Hf; [rewrite He in Hf; injection Hf as <-; tauto|by eapply Hno].
Qed.

(** Looking up a page in its chain. *)
Lemma find_spec c l ino idx : pc_inv c l ->
  exists r, chain_find (pc_entries c) (bucket c (pcache_hash ino idx)) ino idx = Some r /\
    ((r = NULL /\ forall f, ~ cached c ino idx f) \/
     (r <> NULL /\ exists e, pc_entries c !! r = Some e /\ pe_ino e = ino /\ pe_idx e = idx)).
Proof.
  intros Hi. destruct (chain_find_spec (pc_entries c) (bucket c (pcache_hash ino idx)) ino idx) as (r & Hr & Hres).
  { intros x Hx. apply (pi_chain _ _ Hi) in Hx as (e & He & _). by exists e. }
  { intros Hx. apply (pi_chain _ _ Hi) in Hx as (e & He & _). apply (pi_null _ _ Hi), (pi_dom _ _ Hi). by exists e. }
  exists r. split; [done|]. destruct Hres as [[-> Hno]|(Hn & _ & Hex)]; [left|by right]. split; [done|].
  intros f (x & e & He & Hi1 & Hi2 & _). apply (Hno x e); [|done|done]. apply (pi_chain _ _ Hi).
  exists e. split; [done|]. by rewrite Hi1, Hi2.
Qed.

Lemma cached_unique c l ino idx f g : pc_inv c l -> cached c ino idx f -> cached c ino idx g -> f = g.
Proof.
  intros Hi (x & e & He & <- & <- & <-) (y & e' & He' & H1 & H2 & <-).
  assert (x = y) as -> by by apply (pi_keys _ _ Hi x y e e'). congruence.
Qed.

Lemma unchain_elem l x y : NoDup l -> y ∈ unchain l x <-> y ∈ l /\ y <> x.
Proof.
  induction l as [|z l IH]; intros Hnd; cbn [unchain]; [set_solver|]. apply NoDup_cons in Hnd as [Hz Hnd].
  destruct (Z.eqb_spec z x) as [->|Hne]; [set_solver|]. rewrite !elem_of_cons, IH by done. naive_solver.
Qed.
Lemma unchain_nodup l x : NoDup l -> NoDup (unchain l x).
Proof.
  induction l as [|z l IH]; intros Hnd; cbn [unchain]; [done|]. pose proof Hnd as Hnd'. apply NoDup_cons in Hnd' as [Hz Hnd'].
  destruct (z =? x); [done|]. apply NoDup_cons. split; [|by apply IH]. rewrite unchain_elem by done. tauto.
Qed.

(** ** With the frames *)

Section ops.
Context {A : Type} `{FrameLaws A} (kroot : Z) (kwin : Z -> bool) (free_pages_get : A -> Z).
Context (T : gmap Z node) (P : gmap (Z * Z) leaf) (D : Z -> Z).

(** [Y]: the references that are neither leaf entries nor the cache's. *)
Record pc_sys (s : machine A) (M : gmap Z Z) (c : pcache) (l : list Z) (Y : Z -> Z) : Prop := {
  ps_vm : vm_inv kroot kwin s M T P (fun f => crefs (pc_entries c) f + Y f);
  ps_pc : pc_inv c l;
  ps_ram x e : pc_entries c !! x = Some e -> fr_ram (pe_frame e);
  ps_backed : backed P D;
  ps_hold f : D f <= Y f;
}.

Lemma ps_pos s M c l Y x e : pc_sys s M c l Y -> pc_entries c !! x = Some e -> D (pe_frame e) < crefs (pc_entries c) (pe_frame e) + Y (pe_frame e).
Proof. intros Hp Hx. pose proof (crefs_pos _ _ _ Hx). pose proof (ps_hold _ _ _ _ _ Hp (pe_frame e)). lia. Qed.

Lemma ps_change s M c l Y m' h' w l' :
  pc_sys s M c l Y -> same_frames (pc_entries c) m' -> ring m' l' -> l' ≡ₚ l -> h' = hd0 l' ->
  pc_sys s M (Pcache m' (pc_buckets c) h' (pc_count c) (pc_ready c) w) l' Y.
Proof.
  intros [Hv Hp Hr Hb Hh] Hs Hring Hperm Hhd. constructor; [|by apply (pc_change c l)| |done|done].
  - eapply vm_inv_ext; [|exact Hv]. intros f. cbn. by rewrite (crefs_same _ _ f Hs).
  - intros x e He. symmetry in Hs. destruct (same_frames_get _ _ _ _ Hs He) as (e' & He' & _ & _ & <-). by apply (Hr x).
Qed.

Lemma ps_access s M c l Y x e b : pc_sys s M c l Y -> pc_entries c !! x = Some e ->
  pc_sys s M (with_entries (<[x := with_accessed b e]> (pc_entries c)) c) l Y.
Proof.
  intros Hs Hx. pose proof (ps_pc _ _ _ _ _ Hs) as Hi.
  apply (ps_change s M c l); [done|by apply accessed_frames|apply accessed_ptrs; [done|apply Hi]|done|apply Hi].
Qed.

Lemma ps_wake s M c l Y b : pc_sys s M c l Y -> pc_sys s M (with_wake b c) l Y.
Proof. intros Hs. pose proof (ps_pc _ _ _ _ _ Hs) as Hi. apply (ps_change s M c l); [done|done|apply Hi|done|apply Hi]. Qed.

Lemma ps_take s M c l Y f : pc_sys s M c l Y -> bounded M -> fr_ram f -> 0 < crefs (pc_entries c) f + Y f ->
  exists n s', M !! f = Some n /\ ref_inc s f = Some s' /\ ram s' = ram s /\ pc_sys s' (<[f := n + 1]> M) c l (bump1 f 1 Y).
Proof.
  intros [Hv Hp Hr Hb Hh] Hbd Hf HX. destruct (take_hold _ _ _ _ _ _ _ _ Hv Hbd Hf HX) as (n & s' & Hn & Hrun & Hram & Hi).
  exists n, s'. split_and!; [done..|]. constructor; try done.
  - eapply vm_inv_ext; [|exact Hi]. intros g. unfold bump1. destruct (g =? f); lia.
  - intros g. specialize (Hh g). unfold bump1. destruct (g =? f); lia.
Qed.

Lemma ps_drop s M c l Y f : pc_sys s M c l Y -> fr_ram f -> D f < Y f ->
  exists s', ref_dec s f = Some s' /\ ram s' = ram s /\ pc_sys s' (drop_ref M f) c l (bump1 f (-1) Y).
Proof.
  intros [Hv Hp Hr Hb Hh] Hf HX. destruct (drop_hold _ _ _ _ _ _ _ D f Hv Hb Hf) as (s' & Hrun & Hram & Hi).
  { pose proof (crefs_nonneg (pc_entries c) f). lia. }
  exists s'. split_and!; [done..|]. constructor; try done.
  - eapply vm_inv_ext; [|exact Hi]. intros g. unfold bump1. destruct (g =? f); lia.
  - intros g. specialize (Hh g). unfold bump1. destruct (Z.eqb_spec g f); subst; lia.
Qed.

Lemma get_spec s M c l Y ino idx : pc_sys s M c l Y -> bounded M ->
  exists s' c' r, pcache_get s c ino idx = Some (s', c', r) /\ ram s' = ram s /\ same_frames (pc_entries c) (pc_entries c') /\
    ((r = PMM_INVALID_ADDR /\ s' = s /\ c' = c /\ (pc_ready c = true -> ino <> 0 -> forall f, ~ cached c ino idx f)) \/
     (cached c ino idx r /\ exists n, M !! r = Some n /\ pc_sys s' (<[r := n + 1]> M) c' l (bump1 r 1 Y))).
Proof.
  intros Hs Hb. unfold pcache_get. destruct (negb (pc_ready c) || (ino =? 0)) eqn:E.
  { eexists _, _, _. do 3 (split; [done|]). left. split_and!; [done..|]. intros Hr Hn. rewrite Hr in E. cbn in E. by apply Z.eqb_eq in E. }
  pose proof (ps_pc _ _ _ _ _ Hs) as Hi. destruct (find_spec c l ino idx Hi) as (x & -> & Hx). cbn [mbind option_bind].
  destruct Hx as [[-> Hno]|(Hn & e & He & H1 & H2)].
  { rewrite Z.eqb_refl. eexists _, _, _. do 3 (split; [done|]). left. by split_and!. }
  destruct (Z.eqb_spec x NULL) as [|_]; [done|]. rewrite He. cbn [mbind option_bind].
  rewrite (upd_entry_spec c x _ e He). cbn [mbind option_bind].
  destruct (ps_take s M _ l Y (pe_frame e) (ps_access s M c l Y x e true Hs He) Hb) as (n & s' & Hn' & -> & Hram & Hs').
  { by apply (ps_ram _ _ _ _ _ Hs x). }
  { cbn. rewrite (crefs_same (pc_entries c)) by by apply accessed_frames. pose proof (ps_pos _ _ _ _ _ _ _ Hs He).
    pose proof (proj1 (ps_backed _ _ _ _ _ Hs) (pe_frame e)). lia. }
  cbn [mbind option_bind]. eexists _, _, _. do 2 (split; [done|]). split; [by apply accessed_frames|]. right.
  split; [by exists x, e|]. by exists n.
Qed.

Lemma bucket_with c h l h' : bucket (with_bucket h l c) h' = if decide (h' = h) then l else bucket c h'.
Proof.
  unfold bucket, with_bucket. cbn. case_decide; subst; [by rewrite lookup_insert_eq|by rewrite lookup_insert_ne].
Qed.

(** Chains that are the same lists. *)
Lemma ps_buckets s M c l Y c' : pc_sys s M c l Y -> (forall h, bucket c' h = bucket c h) ->
  c' = Pcache (pc_entries c) (pc_buckets c') (pc_hand c) (pc_count c) (pc_ready c) (pc_wake c) -> pc_sys s M c' l Y.
Proof.
  intros [Hv [P1 P2 P3 P4 P5 P6 P7 P8 P9 P10] Hr Hbk Hh] Hb Hc. destruct c' as [m bk hd cnt rd wk].
  cbn [pc_buckets] in Hc. injection Hc as -> -> -> -> ->. constructor; try done. constructor; try done.
  - intros h x. rewrite Hb. apply P6.
  - intros h. rewrite Hb. apply P7.
Qed.

(** A page not yet in the cache. *)
Lemma pc_add c l ne ino idx f :
  pc_inv c l -> ne <> NULL -> pc_entries c !! ne = None -> (forall g, ~ cached c ino idx g) -> Z.of_nat (length l) + 1 < 2 ^ 62 ->
  let h := pcache_hash ino idx in
  let c1 := with_bucket h (ne :: bucket c h) (with_entries (<[ne := PEntry ino idx f NULL NULL true]> (pc_entries c)) c) in
  exists c', clock_insert c1 ne = Some c' /\ pc_inv c' (l ++ [ne]) /\ pc_ready c' = pc_ready c /\
    same_frames (<[ne := PEntry ino idx f NULL NULL true]> (pc_entries c)) (pc_entries c').
Proof.
  intros Hi Hne Hnone Hno Hlen h c1. set (m1 := <[ne := PEntry ino idx f NULL NULL true]> (pc_entries c)).
  assert (Hnl : ne ∉ l) by (intros Hin; apply (pi_dom _ _ Hi) in Hin; rewrite Hnone in Hin; by destruct Hin).
  destruct (clock_insert_spec c1 ne l) as (m & Hrun & Hring & Hsd).
  { apply (ring_same (pc_entries c)); [|apply Hi]. intros x Hx. unfold nx, pv. cbn. rewrite lookup_insert_ne by set_solver. done. }
  1-5: by first [apply Hi|done].
  { cbn. rewrite lookup_insert_eq. by eexists. }
  { intros x Hx. cbn. rewrite lookup_insert_ne by set_solver. by apply (pi_dom _ _ Hi). }
  apply same_data_frames in Hsd. cbn [c1 with_bucket with_entries pc_entries] in Hsd. fold m1 in Hsd.
  eexists. split; [exact Hrun|]. split; [|done].
  assert (Hget : forall x e, m !! x = Some e -> exists e', m1 !! x = Some e' /\ pe_ino e' = pe_ino e /\ pe_idx e' = pe_idx e).
  { intros x e He. symmetry in Hsd. destruct (same_frames_get _ _ _ _ Hsd He) as (e' & ? & ? & ? & _). by exists e'. }
  assert (Hkey : forall x e, m1 !! x = Some e -> pe_ino e = ino -> pe_idx e = idx -> x = ne).
  { intros x e He H1 H2. destruct (decide (x = ne)) as [|Hx]; [done|]. unfold m1 in He. rewrite lookup_insert_ne in He by done.
    exfalso. apply (Hno (pe_frame e)). by exists x, e. }
  constructor; cbn [moved pc_entries pc_hand pc_count].
  - done.
  - apply NoDup_app. split; [apply Hi|]. split; [|apply NoDup_singleton]. set_solver.
  - intros Hin. apply elem_of_app in Hin as [Hin|Hin]; [by apply (pi_null _ _ Hi)|]. apply list_elem_of_singleton in Hin. done.
  - done.
  - intros x. rewrite (same_frames_some m1 m x Hsd). unfold m1. rewrite elem_of_app, list_elem_of_singleton, <- (pi_dom _ _ Hi).
    destruct (decide (x = ne)) as [->|Hx]; [rewrite lookup_insert_eq; split; [by right|by eexists]|rewrite lookup_insert_ne by done; tauto].
  - intros h' x. change (bucket _ h') with (bucket c1 h'). unfold c1. rewrite bucket_with.
    change (bucket (with_entries _ c) h') with (bucket c h').
    assert (Hm : (exists e, m !! x = Some e /\ pcache_hash (pe_ino e) (pe_idx e) = h') <->
      x = ne /\ h' = h \/ x <> ne /\ x ∈ bucket c h').
    { rewrite (pi_chain _ _ Hi). split.
      - intros (e & He & Hh). destruct (Hget x e He) as (e' & He' & H1 & H2). unfold m1 in He'.
        destruct (decide (x = ne)) as [->|Hx].
        + rewrite lookup_insert_eq in He'. injection He' as <-. cbn in H1, H2. left. split; [done|]. unfold h. by rewrite H1, H2, Hh.
        + rewrite lookup_insert_ne in He' by done. right. split; [done|]. exists e'. by rewrite H1, H2.
      - intros [[-> ->]|[Hx (e & He & Hh)]].
        + destruct (same_frames_get m1 m ne (PEntry ino idx f NULL NULL true) Hsd) as (e' & He' & H1 & H2 & _); [apply lookup_insert_eq|].
          exists e'. split; [done|]. by rewrite H1, H2.
        + destruct (same_frames_get m1 m x e Hsd) as (e' & He' & H1 & H2 & _); [unfold m1; by rewrite lookup_insert_ne|].
          exists e'. split; [done|]. by rewrite H1, H2, Hh. }
    rewrite Hm. assert (Hnb : forall k, ne ∉ bucket c k).
    { intros k Hk. apply (pi_chain _ _ Hi) in Hk as (e & He & _). congruence. }
    specialize (Hnb h'). clear Hget Hkey. destruct (decide (x = ne)) as [->|Hx]; case_decide as Hd; rewrite ?elem_of_cons.
    + split; intros _; by left.
    + split; [done|]. by intros [[_ ?]|[? _]].
    + rewrite Hd. split; [intros [->|?]; [done|by right]|intros [[-> _]|[_ ?]]; [done|by right]].
    + split; [by right|]. by intros [[-> _]|[_ ?]].
  - intros h'. change (bucket _ h') with (bucket c1 h'). unfold c1. rewrite bucket_with. case_decide; [|apply Hi].
    apply NoDup_cons. split; [|apply Hi]. change (bucket (with_entries _ c) h) with (bucket c h).
    intros Hk. apply (pi_chain _ _ Hi) in Hk as (e & He & _). congruence.
  - intros x y e e' Hx Hy H1 H2. destruct (Hget x e Hx) as (e1 & He1 & A1 & B1). destruct (Hget y e' Hy) as (e2 & He2 & A2 & B2).
    unfold m1 in He1, He2. destruct (decide (x = ne)) as [->|Hxn].
    { rewrite lookup_insert_eq in He1. injection He1 as <-. cbn in A1, B1. symmetry. apply (Hkey y e2); [done|congruence..]. }
    destruct (decide (y = ne)) as [->|Hyn].
    { rewrite lookup_insert_eq in He2. injection He2 as <-. cbn in A2, B2. apply (Hkey x e1); [done|congruence..]. }
    rewrite lookup_insert_ne in He1, He2 by done. apply (pi_keys _ _ Hi x y e1 e2); congruence.
  - change (pc_count c1) with (pc_count c). rewrite (pi_count _ _ Hi), length_app. cbn [length]. rewrite u64_id; lia.
  - rewrite length_app. cbn [length]. lia.
Qed.

Lemma insert_spec s M c l Y ne ino idx f :
  pc_sys s M c l Y -> bounded M -> fr_ram f -> D f < Y f -> (ne <> NULL -> pc_entries c !! ne = None) ->
  Z.of_nat (length l) + 1 < 2 ^ 62 ->
  exists s' c' r, pcache_insert free_pages_get s c ne ino idx f = Some (s', c', r) /\ ram s' = ram s /\
    ((r = PMM_INVALID_ADDR /\ s' = s /\ c' = c) \/
     (cached c ino idx r /\ c' = c /\ exists n, M !! r = Some n /\
        pc_sys s' (drop_ref (<[r := n + 1]> M) f) c l (bump1 f (-1) (bump1 r 1 Y))) \/
     (r = f /\ (forall i j g, cached c' i j g <-> cached c i j g \/ (i = ino /\ j = idx /\ g = f)) /\
        more (pc_entries c) (pc_entries c') /\ (forall x, is_Some (pc_entries c' !! x) -> is_Some (pc_entries c !! x) \/ x = ne) /\
        exists n, M !! f = Some n /\ pc_sys s' (<[f := n + 1]> M) c' (l ++ [ne]) Y)).
Proof.
  intros Hs Hb Hf HY Hne Hlen. unfold pcache_insert. destruct (negb (pc_ready c) || (ino =? 0)).
  { eexists _, _, _. do 2 (split; [done|]). by left. }
  destruct (Z.eqb_spec ne NULL) as [|Hn0]; [eexists _, _, _; do 2 (split; [done|]); by left|].
  pose proof (ps_pc _ _ _ _ _ Hs) as Hi. destruct (find_spec c l ino idx Hi) as (x & -> & Hx). cbn [mbind option_bind].
  destruct Hx as [[-> Hno]|(Hn & e & He & H1 & H2)].
  - rewrite Z.eqb_refl. cbn [negb].
    destruct (ps_take s M c l Y f Hs Hb Hf) as (n & s1 & HM & -> & Hram & Hs1).
    { pose proof (crefs_nonneg (pc_entries c) f). pose proof (proj1 (ps_backed _ _ _ _ _ Hs) f). lia. }
    cbn [mbind option_bind]. destruct (pc_add c l ne ino idx f Hi Hn0 (Hne Hn0) Hno Hlen) as (c' & Hrun & Hi' & Hrd & Hsf).
    cbv zeta. change (bucket (with_entries _ c) (pcache_hash ino idx)) with (bucket c (pcache_hash ino idx)).
    rewrite Hrun. cbn [mbind option_bind]. eexists _, _, _. split; [done|]. split; [done|]. right. right.
    set (c2 := pcache_maybe_wake_reclaim free_pages_get c' s1).
    assert (Hc2 : pc_entries c2 = pc_entries c') by (unfold c2, pcache_maybe_wake_reclaim; by destruct (_ <? _)).
    assert (Hi2 : pc_inv c2 (l ++ [ne])).
    { unfold c2, pcache_maybe_wake_reclaim. destruct (_ <? _); [|done]. apply (pc_change c' (l ++ [ne])); [done|done|apply Hi'|done|apply Hi']. }
    split; [done|]. split.
    + intros i j g. rewrite <- (cached_same (with_entries (<[ne := PEntry ino idx f NULL NULL true]> (pc_entries c)) c) c2) by by rewrite Hc2.
      unfold cached. cbn [with_entries pc_entries]. split.
      * intros (x & e & [[<- <-]|[Hx He]]%lookup_insert_Some & <- & <- & <-); [right; done|left; by exists x, e].
      * intros [(x & e & He & Hr)|(-> & -> & ->)]; [exists x, e|exists ne, (PEntry ino idx f NULL NULL true)].
        -- rewrite lookup_insert_ne; [done|]. intros <-. rewrite (Hne Hn0) in He. done.
        -- by rewrite lookup_insert_eq.
    + rewrite Hc2. split; [by eapply more_add; [apply Hne|]|]. split.
      { intros x Hx. apply (same_frames_some _ _ _ Hsf) in Hx. destruct (decide (x = ne)) as [->|Hxn]; [by right|left].
        by rewrite lookup_insert_ne in Hx. }
      exists n. split; [done|]. destruct Hs1 as [Hv _ Hr Hbk Hh]. constructor; [|done| |done|apply Hs].
      * eapply vm_inv_ext; [|exact Hv]. intros g. cbn. rewrite Hc2, (crefs_same _ _ g Hsf), crefs_insert by by apply Hne.
        cbn. unfold bump1. rewrite (Z.eqb_sym f g). destruct (g =? f); cbn; lia.
      * rewrite Hc2. intros x e He. symmetry in Hsf. destruct (same_frames_get _ _ _ _ Hsf He) as (e' & He' & _ & _ & <-).
        apply lookup_insert_Some in He' as [[_ <-]|[_ He']]; [done|by apply (Hr x)].
  - destruct (Z.eqb_spec x NULL) as [|_]; [done|]. cbn [negb]. rewrite He. cbn [mbind option_bind].
    pose proof (ps_ram _ _ _ _ _ Hs x e He) as Hre.
    destruct (ps_take s M c l Y (pe_frame e) Hs Hb Hre) as (n & s1 & HM & -> & Hram & Hs1).
    { pose proof (ps_pos _ _ _ _ _ _ _ Hs He). pose proof (proj1 (ps_backed _ _ _ _ _ Hs) (pe_frame e)). lia. }
    cbn [mbind option_bind]. destruct (ps_drop s1 _ c l _ f Hs1 Hf) as (s2 & -> & Hram2 & Hs2).
    { unfold bump1. destruct (f =? pe_frame e); lia. }
    cbn [mbind option_bind]. eexists _, _, _. split; [done|]. split; [congruence|]. right. left.
    split; [by exists x, e|]. split; [done|]. by exists n.
Qed.

(** An entry taken out of ring and chain. *)
Lemma pc_del c l1 x l2 e bks B w :
  let h := pcache_hash (pe_ino e) (pe_idx e) in
  pc_inv c (l1 ++ x :: l2) -> pc_entries c !! x = Some e ->
  (forall h', default [] (bks !! h') = if decide (h' = h) then B else bucket c h') ->
  NoDup B -> (forall y, y ∈ B <-> y ∈ bucket c h /\ y <> x) ->
  exists m, clock_remove c x = Some (moved c m (hd0 (l1 ++ l2)) (u64 (pc_count c - 1))) /\
    same_frames (pc_entries c) m /\
    pc_inv (Pcache (delete x m) bks (hd0 (l1 ++ l2)) (u64 (pc_count c - 1)) (pc_ready c) w) (l1 ++ l2).
Proof.
  intros h Hi He Hbk HB HBx. pose proof Hi as [H1 H2 H3 H4 H5 H6 H7 H8 H9 H10].
  destruct (clock_remove_spec c l1 x l2 H1 H2 H4) as (m & Hrun & Hring & Hsd); [intros y; apply H5|].
  apply same_data_frames in Hsd. assert (Hsd' : same_frames m (pc_entries c)) by by symmetry.
  exists m. split; [done|]. split; [done|].
  assert (Hnd : x ∉ l1 ++ l2 /\ NoDup (l1 ++ l2)) by by (rewrite <- Permutation_middle in H2; apply NoDup_cons in H2).
  destruct Hnd as [Hx Hnd].
  assert (Hget : forall y f, delete x m !! y = Some f -> y <> x /\ exists g, pc_entries c !! y = Some g /\ pe_ino g = pe_ino f /\ pe_idx g = pe_idx f).
  { intros y f [Hy Hf]%lookup_delete_Some. split; [done|]. destruct (same_frames_get _ _ _ _ Hsd' Hf) as (g & ? & ? & ? & _). by exists g. }
  constructor; cbn [pc_entries pc_hand pc_count]; try done.
  - eapply ring_same; [|exact Hring]. intros y Hy. unfold nx, pv. rewrite lookup_delete_ne by (intros ->; done). done.
  - rewrite <- Permutation_middle in H3. set_solver.
  - intros y. destruct (decide (y = x)) as [->|Hy].
    + rewrite lookup_delete_eq. split; [by intros [? ?]|done].
    + rewrite lookup_delete_ne, (same_frames_some _ _ y Hsd), H5, <- Permutation_middle, elem_of_cons by done. naive_solver.
  - intros h' y. unfold bucket. cbn [pc_buckets]. rewrite Hbk.
    assert (Hm : (exists f, delete x m !! y = Some f /\ pcache_hash (pe_ino f) (pe_idx f) = h') <-> y <> x /\ y ∈ bucket c h').
    { rewrite H6. split.
      - intros (f & Hf & Hh). destruct (Hget y f Hf) as (Hy & g & Hg & Hg1 & Hg2). split; [done|]. exists g. by rewrite Hg1, Hg2.
      - intros (Hy & g & Hg & Hh). destruct (same_frames_get _ _ _ _ Hsd Hg) as (f & Hf & Hf1 & Hf2 & _).
        exists f. by rewrite lookup_delete_ne, Hf1, Hf2. }
    rewrite Hm. case_decide as Hd; [subst h'; rewrite HBx; tauto|]. split; [|tauto]. intros Hy. split; [|done].
    intros ->. apply H6 in Hy as (f & Hf & Hh). apply Hd. rewrite He in Hf. injection Hf as <-. done.
  - intros h'. unfold bucket. cbn [pc_buckets]. rewrite Hbk. case_decide; [done|apply H7].
  - intros y z f g Hf Hg K1 K2. destruct (Hget y f Hf) as (_ & f' & ? & ? & ?). destruct (Hget z g Hg) as (_ & g' & ? & ? & ?).
    apply (H8 y z f' g'); congruence.
  - rewrite H9, !length_app in *. cbn [length] in *. rewrite u64_id; lia.
  - rewrite !length_app in *. cbn [length] in *. lia.
Qed.

(** The cache's reference goes with the entry. *)
Lemma ps_del s M c l1 x l2 e bks B w Y :
  let h := pcache_hash (pe_ino e) (pe_idx e) in
  pc_sys s M c (l1 ++ x :: l2) Y -> pc_entries c !! x = Some e ->
  (forall h', default [] (bks !! h') = if decide (h' = h) then B else bucket c h') ->
  NoDup B -> (forall y, y ∈ B <-> y ∈ bucket c h /\ y <> x) ->
  exists m s', clock_remove c x = Some (moved c m (hd0 (l1 ++ l2)) (u64 (pc_count c - 1))) /\
    ref_dec s (pe_frame e) = Some s' /\ ram s' = ram s /\ same_frames (pc_entries c) m /\
    pc_sys s' (drop_ref M (pe_frame e)) (Pcache (delete x m) bks (hd0 (l1 ++ l2)) (u64 (pc_count c - 1)) (pc_ready c) w) (l1 ++ l2) Y.
Proof.
  intros h Hs He Hbk HB HBx. pose proof Hs as [Hv Hi Hr Hb Hh].
  destruct (pc_del c l1 x l2 e bks B w Hi He Hbk HB HBx) as (m & Hrun & Hsf & Hi').
  destruct (drop_hold _ _ _ _ _ _ _ D (pe_frame e) Hv Hb (Hr x e He) (ps_pos _ _ _ _ _ _ _ Hs He)) as (s' & Hd & Hram & Hv').
  exists m, s'. split_and!; try done. constructor; try done.
  - eapply vm_inv_ext; [|exact Hv']. intros g. cbn [pc_entries]. destruct (same_frames_get _ _ _ _ Hsf He) as (e' & He' & _ & _ & Hf).
    unfold bump1. rewrite <- (crefs_same _ _ g Hsf), (crefs_delete m x e' g He'), Hf. rewrite (Z.eqb_sym (pe_frame e) g).
    destruct (g =? pe_frame e); cbn; lia.
  - cbn [pc_entries]. intros y f [_ Hf]%lookup_delete_Some. symmetry in Hsf. destruct (same_frames_get _ _ _ _ Hsf Hf) as (g & Hg & _ & _ & <-). by apply (Hr y).
Qed.

(** ** Eviction *)

(** One page that only the cache referred to has gone. *)
Definition evicted (M : gmap Z Z) (c : pcache) (Y : Z -> Z) (s' : machine A) (c' : pcache) : Prop :=
  exists x e l', pc_entries c !! x = Some e /\ M !! pe_frame e = Some 1 /\
    same_frames (delete x (pc_entries c)) (pc_entries c') /\ pc_ready c' = pc_ready c /\ pc_wake c' = pc_wake c /\
    pc_count c' = pc_count c - 1 /\ pc_sys s' (delete (pe_frame e) M) c' l' Y.

Lemma same_frames_delete m m' x : same_frames m m' -> same_frames (delete x m) (delete x m').
Proof.
  intros Hs y. destruct (decide (y = x)) as [->|Hy]; [by rewrite !lookup_delete_eq|by rewrite !lookup_delete_ne].
Qed.

Lemma evicted_same M c c1 Y s' c' :
  same_frames (pc_entries c) (pc_entries c1) -> pc_ready c1 = pc_ready c -> pc_wake c1 = pc_wake c -> pc_count c1 = pc_count c ->
  evicted M c1 Y s' c' -> evicted M c Y s' c'.
Proof.
  intros Hs H1 H2 H3 (x & e & l' & He & HM & Hs' & R1 & R2 & R3 & Hsys). pose proof Hs as Hb. symmetry in Hb.
  destruct (same_frames_get _ _ _ _ Hb He) as (e0 & He0 & _ & _ & Hf). exists x, e0, l'. rewrite Hf.
  split_and!; try done; [|congruence..]. etrans; [by apply same_frames_delete|done].
Qed.

Lemma cached_ref s M c l Y x e : pc_sys s M c l Y -> pc_entries c !! x = Some e ->
  exists n, M !! pe_frame e = Some n /\ 1 <= n /\ fr_ref_get (fa s) (pe_frame e) = Some n.
Proof.
  intros [Hv Hi Hr Hb Hh] He. destruct (extra_held _ _ _ _ _ _ _ _ Hv (Hr x e He)) as (_ & n & Hn).
  { pose proof (crefs_pos _ _ _ He). specialize (Hh (pe_frame e)). pose proof (proj1 Hb (pe_frame e)). lia. }
  exists n. split; [done|]. pose proof (vi_rep _ _ _ _ _ _ _ Hv) as Hrep. split; [by apply (fr_held _ _ _ _ Hrep Hn)|].
  by apply (fr_get_ok _ _ _ _ Hrep).
Qed.

Lemma evict_victim s M c t x e Y :
  let h := pcache_hash (pe_ino e) (pe_idx e) in
  pc_sys s M c (t ++ [x]) Y -> pc_entries c !! x = Some e -> M !! pe_frame e = Some 1 ->
  exists c1 s', clock_remove c x = Some c1 /\ ref_dec s (pe_frame e) = Some s' /\ ram s' = ram s /\
    let c2 := with_bucket h (unchain (bucket c1 h) x) c1 in
    evicted M c Y s' (with_entries (delete x (pc_entries c2)) c2).
Proof.
  intros h Hs He HM. pose proof (ps_pc _ _ _ _ _ Hs) as Hi.
  destruct (ps_del s M c t x [] e (<[h := unchain (bucket c h) x]> (pc_buckets c)) (unchain (bucket c h) x) (pc_wake c) Y Hs He)
    as (m & s' & Hrun & Hd & Hram & Hsf & Hsys).
  { intros h'. case_decide as Hh; [subst h'; by rewrite lookup_insert_eq|by rewrite lookup_insert_ne]. }
  { apply unchain_nodup, Hi. }
  { intros y. apply unchain_elem, Hi. }
  eexists _, s'. split; [exact Hrun|]. split; [done|]. split; [done|]. exists x, e, (t ++ []).
  split; [done|]. split; [done|]. split; [by apply same_frames_delete|]. split; [done|]. split; [done|].
  split; [|unfold drop_ref in Hsys; rewrite HM in Hsys; exact Hsys].
  cbn. rewrite (pi_count _ _ Hi), length_app. cbn [length]. pose proof (pi_small _ _ Hi) as Hl. rewrite length_app in Hl.
  cbn [length] in Hl. rewrite u64_id; lia.
Qed.

(** The hand went past the entries [l1] without a victim. *)
Definition passed (M : gmap Z Z) (m m' : gmap Z pentry) (l1 l2 : list Z) : Prop := forall x e e',
  m !! x = Some e -> m' !! x = Some e' ->
  (x ∈ l1 -> M !! pe_frame e = Some 1 -> pe_accessed e = true /\ pe_accessed e' = false) /\
  (x ∈ l2 -> pe_accessed e' = pe_accessed e).

Lemma scan_spec l1 : forall s M c l2 Y, pc_sys s M c (l1 ++ l2) Y ->
  exists s' c' ok, evict_scan s c (length l1) = Some (s', c', ok) /\ ram s' = ram s /\
    if ok : bool then evicted M c Y s' c'
    else s' = s /\ pc_sys s M c' (l2 ++ l1) Y /\ same_frames (pc_entries c) (pc_entries c') /\
      pc_ready c' = pc_ready c /\ pc_wake c' = pc_wake c /\ pc_count c' = pc_count c /\
      passed M (pc_entries c) (pc_entries c') l1 l2.
Proof.
  induction l1 as [|x t IH]; intros s M c l2 Y Hs.
  { cbn [length evict_scan]. eexists _, _, _. split; [done|]. split; [done|]. rewrite app_nil_r. split_and!; try done.
    intros x e e' He He'. split; [by intros ?%not_elem_of_nil|]. intros _. by simplify_eq. }
  cbn [app length evict_scan] in *. pose proof (ps_pc _ _ _ _ _ Hs) as Hi. rewrite (pi_hand _ _ Hi). cbn [hd0].
  assert (Hx : is_Some (pc_entries c !! x)) by (apply (pi_dom _ _ Hi); by left). destruct Hx as [e He].
  rewrite He. cbn [mbind option_bind]. rewrite (pc_advance c x (t ++ l2) e Hi He), <- app_assoc.
  assert (Hrot : pc_sys s M (with_hand (hd0 (t ++ l2 ++ [x])) c) (t ++ l2 ++ [x]) Y).
  { apply (ps_change s M c (x :: t ++ l2)); [done|done| |by rewrite app_assoc, <- Permutation_cons_append|done].
    rewrite app_assoc. apply (ring_rotate _ [x]), Hi. }
  set (c0 := with_hand (hd0 (t ++ l2 ++ [x])) c) in *.
  pose proof (pi_nodup _ _ Hi) as Hnd. apply NoDup_cons in Hnd as [Hxn _].
  assert (Hgo : forall b, (M !! pe_frame e = Some 1 -> pe_accessed e = true /\ b = false) ->
    exists s' c' ok, evict_scan s (with_entries (<[x := with_accessed b e]> (pc_entries c0)) c0) (length t) = Some (s', c', ok) /\ ram s' = ram s /\
    if ok : bool then evicted M c Y s' c'
    else s' = s /\ pc_sys s M c' (l2 ++ x :: t) Y /\ same_frames (pc_entries c) (pc_entries c') /\
      pc_ready c' = pc_ready c /\ pc_wake c' = pc_wake c /\ pc_count c' = pc_count c /\
      passed M (pc_entries c) (pc_entries c') (x :: t) l2).
  { intros b Hb. pose proof (ps_access s M c0 _ Y x e b Hrot He) as H1. destruct (IH _ _ _ _ _ H1) as (s' & c' & ok & -> & Hram & Hres).
    pose proof (accessed_frames (pc_entries c) x e b He) as Hsf.
    exists s', c', ok. split; [done|]. split; [done|]. destruct ok; [by eapply evicted_same in Hres|].
    destruct Hres as (-> & R1 & R2 & R3 & R4 & R5 & R6). split; [done|]. rewrite <- app_assoc in R1. split; [done|].
    split; [by etrans|]. do 3 (split; [done|]). intros y f f' Hf Hf'. destruct (decide (y = x)) as [->|Hy].
    - assert (f = e) as -> by congruence. cbn in R6. destruct (R6 x (with_accessed b e) f') as [_ Hk]; [apply lookup_insert_eq|done|].
      split; [|intros Hin; exfalso; apply Hxn, elem_of_app; by right]. intros _ HM. rewrite Hk by set_solver. cbn. by apply Hb.
    - cbn in R6. destruct (R6 y f f') as [K1 K2]; [by rewrite lookup_insert_ne|done|]. split; [|set_solver].
      intros [->|Hin]%elem_of_cons; [done|by apply K1]. }
  destruct (pe_accessed e) eqn:Ea; [rewrite (upd_entry_spec c0 x _ e He); cbn [mbind option_bind]; by apply Hgo|].
  destruct (cached_ref s M c _ Y x e Hs He) as (n & HM & Hn & ->). cbn [mbind option_bind]. destruct (Z.ltb_spec 1 n).
  { rewrite (upd_entry_spec c0 x _ e He). cbn [mbind option_bind]. apply Hgo. rewrite HM. intros [= ->]. lia. }
  assert (n = 1) as -> by lia. rewrite app_assoc in Hrot.
  destruct (evict_victim s M c0 (t ++ l2) x e Y Hrot He HM) as (c1 & s' & -> & Hd & Hram & Hev). cbn [mbind option_bind].
  rewrite Hd. cbn [mbind option_bind]. eexists _, _, true. split; [done|]. split; [done|]. exact Hev.
Qed.

Lemma evict_scan_app a : forall (s : machine A) c b, evict_scan s c (a + b) =
  '(s', c', ok) ← evict_scan s c a; if (ok : bool) then Some (s', c', true) else evict_scan s' c' b.
Proof.
  induction a as [|a IH]; intros s c b; [done|]. cbn [Nat.add evict_scan].
  destruct (pc_entries c !! pc_hand c) as [e|]; [|done]. cbn [mbind option_bind]. destruct (pe_accessed e).
  { destruct (upd_entry _ _ _) as [c'|]; [|done]. apply IH. }
  destruct (fr_ref_get _ _) as [n|]; [|done]. cbn [mbind option_bind]. destruct (1 <? n).
  { destruct (upd_entry _ _ _) as [c'|]; [|done]. apply IH. }
  destruct (clock_remove _ _) as [c'|]; [|done]. cbn [mbind option_bind]. by destruct (ref_dec _ _).
Qed.

(** A page is evicted exactly when the cache alone refers to one. *)
Lemma evict_one_spec s M c l Y : pc_sys s M c l Y ->
  exists s' c' ok, pcache_evict_one s c = Some (s', c', ok) /\ ram s' = ram s /\
    if ok : bool then evicted M c Y s' c'
    else s' = s /\ same_frames (pc_entries c) (pc_entries c') /\ pc_count c' = pc_count c /\ (exists l', pc_sys s M c' l' Y) /\
      forall x e, pc_entries c !! x = Some e -> M !! pe_frame e <> Some 1.
Proof.
  intros Hs. pose proof (ps_pc _ _ _ _ _ Hs) as Hi. unfold pcache_evict_one.
  assert (Hin : forall x e, pc_entries c !! x = Some e -> x ∈ l) by (intros x e He; apply (pi_dom _ _ Hi); by exists e).
  destruct (Z.eqb_spec (pc_hand c) NULL) as [Hh|Hh].
  { eexists _, _, _. split; [done|]. split; [done|]. do 3 (split; [done|]). split; [by exists l|]. intros x e He.
    apply Hin in He. rewrite (pi_hand _ _ Hi) in Hh. destruct l as [|y l]; [by apply not_elem_of_nil in He|].
    cbn in Hh. exfalso. apply (pi_null _ _ Hi). subst. by left. }
  assert (Hlim : (if u64 (pc_count c * 2) <? 2 then 2 else u64 (pc_count c * 2)) = Z.of_nat (length l + length l)).
  { rewrite (pi_count _ _ Hi). pose proof (pi_small _ _ Hi). rewrite u64_id by lia. destruct (Z.ltb_spec (Z.of_nat (length l) * 2) 2); [|lia].
    destruct l; [|cbn in *; lia]. rewrite (pi_hand _ _ Hi) in Hh. done. }
  rewrite Hlim, Nat2Z.id, evict_scan_app. rewrite <- (app_nil_r l) in Hs.
  destruct (scan_spec l s M c [] Y Hs) as (s1 & c1 & ok & -> & Hram & H1). cbn [mbind option_bind].
  destruct ok; [by eexists _, _, _|]. destruct H1 as (-> & Hs1 & Hsf & Hr1 & Hw1 & Hc1 & Hp1). cbn [app] in Hs1.
  rewrite <- (app_nil_r l) in Hs1. destruct (scan_spec l s M c1 [] Y Hs1) as (s2 & c2 & ok & -> & Hram2 & H2).
  eexists _, _, _. split; [done|]. split; [done|]. destruct ok; [by eapply evicted_same|].
  destruct H2 as (-> & Hs2 & Hsf2 & Hr2 & Hw2 & Hc2 & Hp2). split; [done|]. split; [by etrans|]. split; [congruence|].
  split; [by exists ([] ++ l)|]. intros x e He HM.
  destruct (same_frames_get _ _ _ _ Hsf He) as (e1 & He1 & _ & _ & Hf1).
  destruct (same_frames_get _ _ _ _ Hsf2 He1) as (e2 & He2 & _ & _ & Hf2).
  destruct (Hp1 x e e1 He He1) as [K1 _]. destruct (K1 (Hin x e He) HM) as [_ Ha].
  destruct (Hp2 x e1 e2 He1 He2) as [K2 _]. rewrite Hf1 in K2. destruct (K2 (Hin x e He) HM) as [Hb _]. congruence.
Qed.

Lemma evicted_cached M c l Y s s' c' : pc_sys s M c l Y -> evicted M c Y s' c' ->
  (forall i j f, cached c' i j f -> cached c i j f) /\ (forall i j f, cached c i j f -> M !! f <> Some 1 -> cached c' i j f).
Proof.
  intros Hs (x & e & l' & He & HM & Hsf & _). split.
  - intros i j f (y & g & Hg & H1 & H2 & H3). symmetry in Hsf. destruct (same_frames_get _ _ _ _ Hsf Hg) as (g' & Hg' & ? & ? & ?).
    apply lookup_delete_Some in Hg' as [_ Hg']. exists y, g'. split_and!; congruence.
  - intros i j f (y & g & Hg & H1 & H2 & H3) Hn. assert (x <> y) by (intros ->; simplify_eq; done).
    destruct (same_frames_get _ _ y g Hsf) as (g' & Hg' & ? & ? & ?); [by rewrite lookup_delete_ne|]. exists y, g'. split_and!; congruence.
Qed.

(** The reclaim thread stops when the cache is small enough or nothing is left
    that could be evicted, and only drops pages that nobody else refers to. *)
Lemma reclaim_spec fuel : forall s M c l Y, pc_sys s M c l Y -> pc_count c <= Z.of_nat fuel ->
  exists s' c' M' l', reclaim_loop free_pages_get fuel s c = Some (s', c') /\ ram s' = ram s /\ pc_sys s' M' c' l' Y /\
    (forall i j f, cached c' i j f -> cached c i j f) /\
    (forall i j f, cached c i j f -> M !! f <> Some 1 -> cached c' i j f) /\ (forall f n, M !! f = Some n -> n <> 1 -> M' !! f = Some n) /\
    (pc_count c' <= pcache_target free_pages_get c' s' \/ forall i j f, cached c' i j f -> M' !! f <> Some 1).
Proof.
  induction fuel as [|fuel IH]; intros s M c l Y Hs Hf; pose proof (ps_pc _ _ _ _ _ Hs) as Hi; pose proof (pi_count _ _ Hi) as Hc.
  all: cbn [reclaim_loop]; destruct (Z.leb_spec (pc_count c) (pcache_target free_pages_get c s)) as [Hle|Hgt]; cbn [orb];
    [exists s, c, M, l; split_and!; auto|].
  all: destruct (Z.eqb_spec (pc_count c) 0) as [Hz|Hz]; [exists s, c, M, l; split_and!; auto; right;
    intros i j f (x & e & He & _); assert (Hl : x ∈ l) by (apply (pi_dom _ _ Hi); by exists e); destruct l; [by apply not_elem_of_nil in Hl|cbn in *; lia]|].
  { lia. }
  destruct (evict_one_spec s M c l Y Hs) as (s1 & c1 & ok & -> & Hram & H1). cbn [mbind option_bind]. destruct ok; cbn [negb].
  - pose proof (evicted_cached _ _ _ _ _ _ _ Hs H1) as [E1 E2]. destruct H1 as (x & e & l1 & He & HM & Hsf & R1 & R2 & R3 & Hs1).
    destruct (IH _ _ _ _ _ Hs1) as (s' & c' & M' & l' & -> & Hram' & Hs' & K1 & K2 & K3 & K4); [lia|].
    exists s', c', M', l'. split; [done|]. split; [congruence|]. split; [done|]. split; [auto|].
    assert (Hd : forall f n, M !! f = Some n -> n <> 1 -> delete (pe_frame e) M !! f = Some n).
    { intros f n Hn Hn1. rewrite lookup_delete_ne; [done|]. congruence. }
    split; [|split; [auto|done]]. intros i j f Hcf Hn. apply K2; [by apply E2|].
    intros [_ HM']%lookup_delete_Some. done.
  - destruct H1 as (-> & Hsf & Hcnt & [l' Hs1] & Hno). exists s, c1, M, l'. split_and!; try done.
    + intros i j f. by apply cached_same.
    + intros i j f Hcf _. by apply (cached_same c c1).
    + right. intros i j f Hcf. apply (cached_same c c1) in Hcf; [|done]. destruct Hcf as (x & e & He & _ & _ & <-). by apply (Hno x).
Qed.

(** ** All pages of a file *)

Lemma clock_remove_bucket c x h b : clock_remove (with_bucket h b c) x = with_bucket h b <$> clock_remove c x.
Proof.
  destruct c as [m bk hd cnt rd wk]. unfold clock_remove, upd_entry, with_bucket, with_entries, with_hand, with_count. simpl.
  destruct (m !! x) as [v|] eqn:E0; simpl; [|done]. destruct (clock_next v =? x); simpl.
  { rewrite E0. simpl. by rewrite lookup_insert_eq. }
  destruct (m !! clock_prev v) as [p|]; simpl; [|done]. match goal with |- context [<[?a := ?b]> m !! x] => destruct (<[a := b]> m !! x) as [v2|] end; simpl; [|done].
  match goal with |- context [<[?a := ?b]> ?m !! clock_next v2] => destruct (<[a := b]> m !! clock_next v2) as [q|] end; simpl; [|done]. match goal with |- context [<[?a := ?b]> ?mm !! x] => destruct (<[a := b]> mm !! x) as [v3|] eqn:E end; simpl; [|done].
  destruct (hd =? x); simpl; rewrite E; simpl; by rewrite lookup_insert_eq.
Qed.

Lemma upd_entry_buckets c x f c' : upd_entry c x f = Some c' -> pc_buckets c' = pc_buckets c.
Proof. unfold upd_entry. intros Hc. bind_inv Hc. by injection Hc as <-. Qed.
Lemma clock_remove_buckets c x c' : clock_remove c x = Some c' -> pc_buckets c' = pc_buckets c.
Proof.
  unfold clock_remove. intros Hc. bind_inv Hc. injection Hc as <-. cbn.
  apply upd_entry_buckets in E1, E2. rewrite E2, E1. bind_inv E0; injection E0 as <-; [done|].
  repeat match goal with E : upd_entry _ _ _ = Some _ |- _ => apply upd_entry_buckets in E end.
  rewrite <- E4, <- E6. by destruct (pc_hand p5 =? x).
Qed.

(** The entries of [l] for the file have gone, the others stay. *)
Definition purged (ino : Z) (Q : Z -> Prop) (m m' : gmap Z pentry) : Prop := forall x,
  match m !! x with
  | None => m' !! x = None
  | Some e => (Q x /\ pe_ino e = ino /\ m' !! x = None) \/
      (~ (Q x /\ pe_ino e = ino) /\ exists e', m' !! x = Some e' /\ pe_ino e' = pe_ino e /\ pe_idx e' = pe_idx e /\ pe_frame e' = pe_frame e)
  end.

Lemma evict_chain_spec h ino l : forall kept s M c lr Y,
  pc_sys s M (with_bucket h (kept ++ l) c) lr Y -> (forall x e, x ∈ l -> pc_entries c !! x = Some e -> pcache_hash (pe_ino e) (pe_idx e) = h) ->
  exists s' c' l' M' lr', evict_chain s c l ino = Some (s', c', l') /\ ram s' = ram s /\
    pc_sys s' M' (with_bucket h (kept ++ l') c') lr' Y /\ pc_buckets c' = pc_buckets c /\
    purged ino (fun x => x ∈ l) (pc_entries c) (pc_entries c').
Proof.
  induction l as [|x l IH]; intros kept s M c lr Y Hs Hh; cbn [evict_chain].
  { exists s, c, [], M, lr. split_and!; try done. intros x. destruct (pc_entries c !! x) as [e|]; [|done]. right. split; [set_solver|by exists e]. }
  pose proof (ps_pc _ _ _ _ _ Hs) as Hi. assert (Hx : x ∈ bucket (with_bucket h (kept ++ x :: l) c) h).
  { rewrite bucket_with, decide_True by done. set_solver. }
  pose proof (pi_chain_nodup _ _ Hi h) as Hnd. rewrite bucket_with, decide_True in Hnd by done.
  apply (pi_chain _ _ Hi) in Hx as (e & He & _). change (pc_entries (with_bucket _ _ c)) with (pc_entries c) in He. rewrite He. cbn [mbind option_bind].
  assert (Hxl : x ∉ kept ++ l /\ NoDup (kept ++ l)) by by (rewrite <- Permutation_middle in Hnd; apply NoDup_cons in Hnd).
  pose proof (Hh x e ltac:(by left) He) as Hhx. destruct (Z.eqb_spec (pe_ino e) ino) as [Hino|Hino].
  - assert (Hxr : x ∈ lr) by (apply (pi_dom _ _ Hi); by exists e). apply list_elem_of_split in Hxr as (r1 & r2 & ->).
    destruct (ps_del s M _ r1 x r2 e (<[h := kept ++ l]> (pc_buckets c)) (kept ++ l) (pc_wake c) Y Hs He) as (m & s1 & Hrun & Hd & Hram & Hsf & Hs1).
    + intros h'. rewrite Hhx, bucket_with. case_decide as Hd; [subst h'; by rewrite lookup_insert_eq|by rewrite lookup_insert_ne].
    + apply Hxl.
    + intros y. rewrite Hhx, bucket_with, decide_True by done. set_solver.
    + rewrite clock_remove_bucket in Hrun. destruct (clock_remove c x) as [c0|] eqn:Hc; [|done]. cbn in Hrun. injection Hrun as Hm0 Hb0 Hh0 Hn0 Hr0 Hw0.
      cbn [mbind option_bind]. rewrite Hd. cbn [mbind option_bind].
      rename Hm0 into Hm. pose proof (clock_remove_buckets _ _ _ Hc) as Hbk. cbn [pc_count pc_ready with_bucket] in Hs1.
      destruct (IH kept s1 (drop_ref M (pe_frame e)) (with_entries (delete x (pc_entries c0)) c0) (r1 ++ r2) Y) as (s' & c' & l' & M' & lr' & -> & Hram' & Hs' & Hbk' & Hpu).
      * unfold with_bucket, with_entries. cbn. rewrite Hm, Hbk, Hh0, Hn0, Hr0, Hw0. exact Hs1.
      * cbn [with_entries pc_entries]. intros y g Hy [Hxy Hg]%lookup_delete_Some. rewrite Hm in Hg. symmetry in Hsf.
        destruct (same_frames_get _ _ _ _ Hsf Hg) as (g' & Hg' & <- & <- & _). apply (Hh y); [by right|done].
      * exists s', c', l', M', lr'. split; [done|]. split; [congruence|]. split; [done|]. split; [by rewrite Hbk'|].
        intros y. specialize (Hpu y). cbn [with_entries pc_entries] in Hpu. rewrite Hm in Hpu.
        destruct (decide (y = x)) as [->|Hy]; [rewrite lookup_delete_eq in Hpu; rewrite He; left; split; [by left|done]|].
        rewrite lookup_delete_ne in Hpu by done. pose proof (Hsf y) as Hfy. cbn in Hfy.
        destruct (pc_entries c !! y) as [g|], (m !! y) as [g'|]; cbn in Hfy; try done. injection Hfy as F1 F2 F3.
        rewrite <- F1, <- F2, <- F3. destruct Hpu as [(K1 & K2 & K3)|(K1 & K2)]; [left; split; [by right|done]|right]. split; [|done].
        intros [[->|Hin]%elem_of_cons Hk]; [done|tauto].
  - replace (kept ++ x :: l) with ((kept ++ [x]) ++ l) in Hs by by rewrite <- app_assoc.
    destruct (IH (kept ++ [x]) s M c lr Y Hs) as (s' & c' & l' & M' & lr' & -> & Hram' & Hs' & Hbk' & Hpu).
    { intros y g Hy. apply Hh. by right. }
    cbn [mbind option_bind]. exists s', c', (x :: l'), M', lr'. rewrite <- app_assoc in Hs'. split_and!; try done.
    intros y. specialize (Hpu y). destruct (pc_entries c !! y) as [g|] eqn:Eg; [|done].
    destruct Hpu as [(K1 & K2 & K3)|(K1 & K2)]; [left; split; [by right|done]|right]. split; [|done].
    intros [[->|Hin]%elem_of_cons Hi']; [congruence|tauto].
Qed.

Lemma purged_trans ino (Q1 Q2 Q : Z -> Prop) m1 m2 m3 :
  purged ino Q1 m1 m2 -> purged ino Q2 m2 m3 -> (forall x e, m1 !! x = Some e -> pe_ino e = ino -> Q x <-> Q1 x \/ Q2 x) -> purged ino Q m1 m3.
Proof.
  intros H1 H2 HQ x. specialize (H1 x). specialize (H2 x). destruct (m1 !! x) as [e|] eqn:E1; [|by rewrite H1 in H2].
  destruct H1 as [(K1 & K2 & K3)|(K1 & e2 & K2 & K3 & K4 & K5)].
  - rewrite K3 in H2. left. split; [apply (HQ x e E1 K2); by left|done].
  - rewrite K2 in H2. rewrite K3, K4, K5 in H2. destruct H2 as [(J1 & J2 & J3)|(J1 & J2)].
    + left. split; [apply (HQ x e E1 J2); by right|done].
    + right. split; [|done]. intros [HQx Hi]. apply (HQ x e E1 Hi) in HQx as [?|?]; tauto.
Qed.

Lemma evict_chains_spec ino hs : forall s M c lr Y, pc_sys s M c lr Y ->
  exists s' c' M' lr', evict_chains s c hs ino = Some (s', c') /\ ram s' = ram s /\ pc_sys s' M' c' lr' Y /\
    purged ino (fun x => exists h e, h ∈ hs /\ pc_entries c !! x = Some e /\ pcache_hash (pe_ino e) (pe_idx e) = h) (pc_entries c) (pc_entries c').
Proof.
  induction hs as [|h hs IH]; intros s M c lr Y Hs; cbn [evict_chains].
  { exists s, c, M, lr. split_and!; try done. intros x. destruct (pc_entries c !! x) as [e|]; [|done]. right.
    split; [intros [(h & ? & Hh & _) _]; by apply not_elem_of_nil in Hh|by exists e]. }
  pose proof (ps_pc _ _ _ _ _ Hs) as Hi.
  destruct (evict_chain_spec h ino (bucket c h) [] s M c lr Y) as (s1 & c1 & l1 & M1 & lr1 & -> & Hram & Hs1 & Hbk & Hpu).
  { cbn [app]. eapply (ps_buckets s M c); [done| |done]. intros h'. rewrite bucket_with. by case_decide; subst. }
  { intros x e Hx He. apply (pi_chain _ _ Hi) in Hx as (e' & He' & Hh). congruence. }
  cbn [mbind option_bind app] in *. destruct (IH _ _ _ _ _ Hs1) as (s' & c' & M' & lr' & -> & Hram' & Hs' & Hpu').
  exists s', c', M', lr'. split; [done|]. split; [congruence|]. split; [done|].
  eapply purged_trans; [exact Hpu|exact Hpu'|]. intros x e He Hino. cbn [with_bucket pc_entries]. split.
  - intros (h' & e' & Hh' & He' & Hx). rewrite He in He'. injection He' as <-. apply elem_of_cons in Hh' as [->|Hh'].
    + left. apply (pi_chain _ _ Hi). by exists e.
    + destruct (decide (x ∈ bucket c h)) as [|Hno]; [by left|right]. specialize (Hpu x). rewrite He in Hpu.
      destruct Hpu as [(? & _)|(_ & g & Hg & G1 & G2 & _)]; [done|]. exists h', g.
      split; [done|]. split; [done|]. by rewrite G1, G2.
  - intros [Hx|(h' & e' & Hh' & He' & Hx)].
    + apply (pi_chain _ _ Hi) in Hx as (e' & He' & Hh). exists h, e'. split; [by left|done].
    + specialize (Hpu x). rewrite He in Hpu. destruct Hpu as [(_ & _ & Hn)|(_ & g & Hg & G1 & G2 & _)]; [congruence|].
      exists h', e. split; [by right|]. split; [done|]. rewrite Hg in He'. injection He' as <-. by rewrite <- G1, <- G2.
Qed.

Lemma pcache_hash_range i j : 0 <= pcache_hash i j < 1024.
Proof.
  unfold pcache_hash. change PCACHE_MASK with (Z.ones 10). rewrite Z.land_ones by lia. unfold u32. mlia.
Qed.

Lemma evict_inode_spec s M c lr Y ino : pc_sys s M c lr Y -> pc_ready c = true -> ino <> 0 ->
  exists s' c' M' lr', pcache_evict_inode s c ino = Some (s', c') /\ ram s' = ram s /\ pc_sys s' M' c' lr' Y /\
    forall i j f, cached c' i j f <-> cached c i j f /\ i <> ino.
Proof.
  intros Hs Hr Hn. unfold pcache_evict_inode. rewrite Hr. destruct (Z.eqb_spec ino 0); [done|]. cbn [negb orb].
  destruct (evict_chains_spec ino (seqZ 0 1024) s M c lr Y Hs) as (s' & c' & M' & lr' & Hrun & Hram & Hs' & Hpu).
  exists s', c', M', lr'. do 3 (split; [done|]). intros i j f. unfold cached. split.
  - intros (x & e' & He' & H1 & H2 & H3). specialize (Hpu x). destruct (pc_entries c !! x) as [e|] eqn:E; [|congruence].
    destruct Hpu as [(_ & _ & Hk)|(Hk & g & Hg & G1 & G2 & G3)]; [congruence|]. simplify_eq. split; [exists x, e; by split_and!|].
    intros Hi. apply Hk. split; [|congruence]. eexists _, e. split; [|done]. apply elem_of_seqZ, pcache_hash_range.
  - intros [(x & e & He & H1 & H2 & H3) Hi]. specialize (Hpu x). rewrite He in Hpu.
    destruct Hpu as [(_ & Hk & _)|(_ & g & Hg & G1 & G2 & G3)]; [congruence|]. exists x, g. split_and!; congruence.
Qed.
End ops.
