(* ===== verification/PageFault.v ===== *)
(** * Page faults

    Models the rest of kernel/mm/vmm.c that fills page tables: [isr14_page_fault]
    (copy-on-write, demand paging from files through the page cache, from shared
    memory objects and with zeroed memory, and the kernel's own demand mapping),
    [vmm_get_user_pages], [vmm_map_mmio] and [vmm_map_physical_user], and
    [user_buf_prefault] of kernel/syscall/syscall.c.

    The state is the machine with the shared memory objects, and the page cache.
    A backing file is a parameter: its inode number, whether a reference to it
    can still be taken, and what a positional read of it returns, with the page
    it leaves in a zeroed buffer. *)

From S2P Require Import Prelude Errno DList Buddy Cred UnixNs Vma Frames PageTable Shmem Pcache.

Record kworld (A : Type) := KWorld { k_shm : shmw A; k_pc : pcache }.
Arguments KWorld {A}.
Arguments k_shm {A}.
Arguments k_pc {A}.

(** The access is retried, the task is killed, the kernel stops. *)
Inductive outcome := Resolved | Kill | Panic.

(** A frame with a reference for the caller, no memory, or a failed read. *)
Inductive got := Got (frame : Z) | NoMemory | ReadError.

Definition page_base (va : Z) : Z := Z.ldiff va 0xFFF.

Section fault.
Context {A : Type} `{FrameOps A} (free_pages_get : A -> Z).
Context (file_ino : Z -> Z) (file_live : Z -> bool) (pread : Z -> Z -> Z -> Z * page).
Implicit Types (s : machine A) (w : kworld A).

Definition k_vm w : machine A := sw_m (k_shm w).
Definition set_vm s w : kworld A := KWorld (with_vm s (k_shm w)) (k_pc w).
Definition set_shm (x : shmw A) w : kworld A := KWorld x (k_pc w).
Definition set_pc (c : pcache) w : kworld A := KWorld (k_shm w) c.

(** ** Copy on write *)

(** The part under [vma_lock]; whether the fault is resolved. *)
Definition cow_break s (cur page vma_flags : Z) : option (machine A * bool) :=
  '(s, pte) ← vmm_pte_get s cur page false 0;
  match pte with
  | None => Some (s, false)
  | Some (t, i) =>
      e ← read_word s t i;
      if negb (bits e PAGE_PRESENT) then Some (s, false)
      else if bits e PAGE_WRITABLE then Some (s, true)
      else
        let old_frame := Z.land e PAGE_ADDR_MASK in
        rc ← fr_ref_get (fa s) old_frame;
        if 1 <? rc then
          '(s, r) ← alloc s;
          match r with
          | None => Some (s, false)
          | Some new_frame =>
              s ← copy_page s new_frame old_frame;
              s ← write_word s t i (Z.lor new_frame (mm_vma_pte_flags vma_flags));
              s ← ref_dec s old_frame;
              Some (s, true)
          end
        else if rc =? 1 then s ← write_word s t i (Z.lor e PAGE_WRITABLE); Some (s, true)
        else Some (s, false)
  end.

(** ** Backing store *)

Section file.
Context (file off len : Z).

(** [memset] and the read of the part of the page that the file backs. *)
Definition read_page s (frame pg_off : Z) : option (machine A * Z) :=
  s ← zero_page s frame;
  let bytes := if len <? u64 (pg_off + 4096) then u64 (len - pg_off) else 4096 in
  let '(rc, p) := pread file bytes (u64 (off + pg_off)) in
  Some (if 0 <? rc then with_ram (<[frame := p]> (ram s)) s else s, rc).

Definition mach_pc : Type := machine A * pcache.

(** Pages [ra] after the one that faulted. *)
Fixpoint read_ahead (mem : Z -> Z) (ino pg_off pg_idx : Z) (ras : list Z) (sc : mach_pc) : option mach_pc :=
  match ras with
  | [] => Some sc
  | ra :: ras =>
      let ra_pg_off := u64 (pg_off + ra * 4096) in
      if len <=? ra_pg_off then Some sc
      else
        let ra_pg_idx := u32 (pg_idx + ra) in
        '(s, c, r) ← pcache_get sc.1 sc.2 ino ra_pg_idx;
        if negb (r =? PMM_INVALID_ADDR) then read_ahead mem ino pg_off pg_idx ras (s, c)
        else
          '(s, r) ← alloc s;
          match r with
          | None => Some (s, c)
          | Some ra_frame =>
              '(s, rc) ← read_page s ra_frame ra_pg_off;
              if rc <=? 0 then s ← ref_dec s ra_frame; read_ahead mem ino pg_off pg_idx ras (s, c)
              else
                '(s, c, ra_c) ← pcache_insert free_pages_get s c (mem ra_pg_idx) ino ra_pg_idx ra_frame;
                s ← ref_dec s (if negb (ra_c =? PMM_INVALID_ADDR) then ra_c else ra_frame);
                read_ahead mem ino pg_off pg_idx ras (s, c)
          end
  end.

(** The page as it is on disk. *)
Definition clean_page (mem : Z -> Z) (pg_off : Z) (sc : mach_pc) : option (mach_pc * got) :=
  let pg_file_idx := u32 (Z.shiftr (u64 (off + pg_off)) PAGE_SHIFT) in
  let ino := file_ino file in
  '(s, c, hit) ← (if negb (ino =? 0) then pcache_get sc.1 sc.2 ino pg_file_idx else Some (sc.1, sc.2, PMM_INVALID_ADDR));
  if negb (hit =? PMM_INVALID_ADDR) then Some ((s, c), Got hit)
  else
    '(s, r) ← alloc s;
    match r with
    | None => Some ((s, c), NoMemory)
    | Some clean_frame =>
        '(s, rc) ← (if pg_off <? len then read_page s clean_frame pg_off else s ← zero_page s clean_frame; Some (s, 1));
        if rc <=? 0 then s ← ref_dec s clean_frame; Some ((s, c), ReadError)
        else if ino =? 0 then Some ((s, c), Got clean_frame)
        else
          '(s, c, r) ← pcache_insert free_pages_get s c (mem pg_file_idx) ino pg_file_idx clean_frame;
          let clean_frame := if negb (r =? PMM_INVALID_ADDR) then r else clean_frame in
          sc ← read_ahead mem ino pg_off pg_file_idx (seqZ 1 7) (s, c);
          Some (sc, Got clean_frame)
    end.

(** Shared when read-only, a private copy when writable. *)
Definition file_page (mem : Z -> Z) (vma_flags pg_off : Z) (sc : mach_pc) : option (mach_pc * got) :=
  '(sc, g) ← clean_page mem pg_off sc;
  match g with
  | Got clean_frame =>
      if bits vma_flags VMA_W then
        '(s, r) ← alloc sc.1;
        match r with
        | None => s ← ref_dec s clean_frame; Some ((s, sc.2), NoMemory)
        | Some frame =>
            s ← copy_page s frame clean_frame;
            s ← ref_dec s clean_frame;
            Some ((s, sc.2), Got frame)
        end
      else Some (sc, Got clean_frame)
  | _ => Some (sc, g)
  end.
End file.

Definition anon_page s : option (machine A * got) :=
  '(s, r) ← alloc s;
  match r with
  | None => Some (s, NoMemory)
  | Some frame => s ← zero_page s frame; Some (s, Got frame)
  end.

(** ** The handler *)

Inductive installed := Installed | LostRace | MapFail.

Definition install s (cur page frame flags : Z) : option (machine A * installed) :=
  now ← vmm_page_phys s cur page;
  if negb (now =? PMM_INVALID_ADDR) then Some (s, LostRace)
  else
    '(s, ok) ← vmm_page_map s cur page frame flags;
    Some (s, if (ok : bool) then Installed else MapFail).

(** An access that cannot be satisfied. *)
Definition refuse (is_user : bool) : outcome := if is_user then Kill else Panic.

(** The frame for a missing page of area [v], with the objects that were
    referred to meanwhile released except for [shm]. *)
Definition backing_page w (mem : Z -> Z) (v : vma) (file shm page : Z) : option (kworld A * got) :=
  if negb (file =? 0) then
    '(sc, g) ← file_page file (v_off v) (v_len v) mem (v_flags v) (u64 (page - v_start v)) (k_vm w, k_pc w);
    Some (set_pc sc.2 (set_vm sc.1 w), g)
  else if negb (shm =? NULL) then
    '(x, frame) ← shmem_get_page (k_shm w) shm (u32 (u32 (u64 (page - v_start v) / 4096) + v_pgoff v));
    Some (set_shm x w, if frame =? PMM_INVALID_ADDR then NoMemory else Got frame)
  else '(s, g) ← anon_page (k_vm w); Some (set_vm s w, g).

Definition release_shm w (mt : bool) (shm : Z) : option (kworld A) := x ← shmem_unref (k_shm w) mt shm; Some (set_shm x w).

Definition demand_page w (mem : Z -> Z) (mt is_user is_write is_ifetch : bool) (cur : Z) (m : mm) (fault_addr : Z) : option (kworld A * outcome) :=
  match mm_vma_find m fault_addr with
  | None => Some (w, refuse is_user)
  | Some v =>
      '(x, ok) ← shmem_tryget (k_shm w) (v_shmem v);
      let w := set_shm x w in
      let vma_shmem := if (ok : bool) then v_shmem v else NULL in
      let vma_file := if bits (v_flags v) VMA_FILE && negb (v_file v =? 0) && file_live (v_file v) then v_file v else 0 in
      if (is_write && negb (bits (v_flags v) VMA_W)) || (is_ifetch && negb (bits (v_flags v) VMA_X)) then
        w ← release_shm w mt vma_shmem; Some (w, refuse is_user)
      else
        let page := page_base fault_addr in
        '(w, g) ← backing_page w mem v vma_file vma_shmem page;
        match g with
        | NoMemory => w ← (if negb (vma_file =? 0) then Some w else release_shm w mt vma_shmem); Some (w, refuse is_user)
        | ReadError => Some (w, Kill)
        | Got frame =>
            '(s, r) ← install (k_vm w) cur page frame (mm_vma_pte_flags (v_flags v));
            match r with
            | Installed => w ← release_shm (set_vm s w) mt vma_shmem; Some (w, Resolved)
            | _ =>
                s ← ref_dec s frame;
                w ← release_shm (set_vm s w) mt vma_shmem;
                Some (w, match r with LostRace => Resolved | _ => refuse is_user end)
            end
        end
  end.

Definition user_fault w (mem : Z -> Z) (mt is_present is_user is_write is_ifetch : bool) (cur : Z) (m : mm) (fault_addr : Z) : option (kworld A * outcome) :=
  '(w, resolved) ←
    (if is_present && is_write then
       match mm_vma_find m fault_addr with
       | Some v =>
           if bits (v_flags v) VMA_W && (v_shmem v =? 0) && negb (bits (v_flags v) VMA_MMIO)
           then '(s, r) ← cow_break (k_vm w) cur (page_base fault_addr) (v_flags v); Some (set_vm s w, r)
           else Some (w, false)
       | None => Some (w, false)
       end
     else Some (w, false));
  if (resolved : bool) then Some (w, Resolved)
  else if is_present then Some (w, refuse is_user)
  else demand_page w mem mt is_user is_write is_ifetch cur m fault_addr.

(** The kernel's own memory, on demand. *)
Definition kernel_page w (kernel_pml4 va : Z) : option (kworld A * outcome) :=
  '(s, r) ← alloc (k_vm w);
  match r with
  | None => Some (set_vm s w, Panic)
  | Some frame =>
      s ← zero_page s frame;
      '(s, _) ← vmm_page_map s kernel_pml4 (page_base va) frame VMM_KDATA;
      Some (set_vm s w, Resolved)
  end.

(** [task]: the current task, if there is one, with its address space, if it
    has one. *)
Definition isr14_page_fault w (mem : Z -> Z) (mt : bool) (kernel_pml4 cur : Z) (task : option (option mm)) (fault_addr ec : Z) : option (kworld A * outcome) :=
  let is_present := Z.testbit ec 0 in
  let is_write := Z.testbit ec 1 in
  let is_user := Z.testbit ec 2 in
  let is_reserved := Z.testbit ec 3 in
  let is_ifetch := Z.testbit ec 4 in
  if is_reserved then Some (w, Panic)
  else if is_user || (match task with Some _ => true | None => false end && (fault_addr <? 0x8000000000000000)) then
    match task with
    | Some (Some m) => user_fault w mem mt is_present is_user is_write is_ifetch cur m fault_addr
    | _ => Some (w, Panic)
    end
  else if negb is_present then kernel_page w kernel_pml4 fault_addr
  else Some (w, Panic).

(** ** Pages for a device *)

(** A page that was not there. *)
Definition user_page_new s (pml4_phys va inter leaf : Z) : option (machine A * option Z) :=
  '(s, r) ← alloc s;
  match r with
  | None => Some (s, None)
  | Some frame =>
      s ← zero_page s frame;
      '(s, pte) ← vmm_pte_get s pml4_phys va true inter;
      match pte with
      | None => s ← free s frame; Some (s, None)
      | Some (t, i) =>
          e ← read_word s t i;
          if bits e PAGE_PRESENT then
            let have := Z.land e PAGE_ADDR_MASK in
            s ← pin s have;
            s ← ref_dec s frame;
            Some (s, Some have)
          else
            s ← write_word s t i (Z.lor frame leaf);
            s ← pin s frame;
            Some (s, Some frame)
      end
  end.

(** One page of [vmm_get_user_pages]: its frame, pinned, or nothing. *)
Definition user_page_pinned s (pml4_phys va : Z) : option (machine A * option Z) :=
  let inter := Z.lor (Z.lor PAGE_PRESENT PAGE_WRITABLE) PAGE_USER in
  let leaf := VMM_UDATA in
  '(s, pte) ← vmm_pte_get s pml4_phys va false 0;
  e ← match pte with Some (t, i) => read_word s t i | None => Some 0 end;
  match pte with
  | Some (t, i) =>
      if bits e PAGE_PRESENT then
        let phys := Z.land e PAGE_ADDR_MASK in
        rc ← (if negb (bits e PAGE_WRITABLE) then fr_ref_get (fa s) phys else Some 0);
        if negb (bits e PAGE_WRITABLE) && (1 <? rc) then
          '(s, r) ← alloc s;
          match r with
          | None => Some (s, None)
          | Some nf =>
              s ← copy_page s nf phys;
              s ← write_word s t i (Z.lor nf leaf);
              s ← ref_dec s phys;
              s ← pin s nf;
              Some (s, Some nf)
          end
        else
          s ← (if negb (bits e PAGE_WRITABLE) && (rc =? 1) then write_word s t i (Z.lor e PAGE_WRITABLE) else Some s);
          s ← pin s phys;
          Some (s, Some phys)
      else user_page_new s pml4_phys va inter leaf
  | None => user_page_new s pml4_phys va inter leaf
  end.

Fixpoint get_user_pages_loop s (pml4_phys : Z) (vas : list Z) : option (machine A * option (list Z)) :=
  match vas with
  | [] => Some (s, Some [])
  | va :: vas =>
      '(s, r) ← user_page_pinned s pml4_phys va;
      match r with
      | None => Some (s, None)
      | Some f =>
          '(s, rest) ← get_user_pages_loop s pml4_phys vas;
          Some (s, match rest with Some l => Some (f :: l) | None => None end)
      end
  end.

(** The frames behind [out[]], or [None] for the result 0. *)
Definition vmm_get_user_pages s (pml4_phys uaddr count : Z) : option (machine A * option (list Z)) :=
  get_user_pages_loop s pml4_phys ((fun i => u64 (page_base uaddr + i * 4096)) <$> seqZ 0 count).

(** ** Before a copy to user memory *)

(** The walk of [user_buf_prefault]: whether the page is present. *)
Definition prefault_present s (pml4 page : Z) : option bool :=
  e4 ← read_word s pml4 (Z.land (Z.shiftr page 39) 0x1FF);
  if negb (bits e4 PAGE_PRESENT) then Some false
  else
    e3 ← read_word s (Z.land e4 PAGE_ADDR_MASK) (Z.land (Z.shiftr page 30) 0x1FF);
    if negb (bits e3 PAGE_PRESENT) then Some false
    else
      e2 ← read_word s (Z.land e3 PAGE_ADDR_MASK) (Z.land (Z.shiftr page 21) 0x1FF);
      if negb (bits e2 PAGE_PRESENT) then Some false
      else
        e1 ← read_word s (Z.land e2 PAGE_ADDR_MASK) (Z.land (Z.shiftr page 12) 0x1FF);
        Some (bits e1 PAGE_PRESENT).

Fixpoint prefault_loop s (m : mm) (pml4 : Z) (pages : list Z) : option (machine A) :=
  match pages with
  | [] => Some s
  | page :: pages =>
      match mm_vma_find m page with
      | None => prefault_loop s m pml4 pages
      | Some v =>
          here ← prefault_present s pml4 page;
          if (here : bool) then prefault_loop s m pml4 pages
          else
            '(s, r) ← alloc s;
            match r with
            | None => Some s
            | Some frame =>
                s ← zero_page s frame;
                '(s, ok) ← vmm_page_map s pml4 page frame (mm_vma_pte_flags (v_flags v));
                s ← (if (ok : bool) then Some s else free s frame);
                prefault_loop s m pml4 pages
            end
      end
  end.

Definition user_buf_prefault s (m : option mm) (pml4 addr len : Z) : option (machine A) :=
  match m with
  | None => Some s
  | Some m =>
      if len =? 0 then Some s
      else
        let start := Z.ldiff addr 0xFFF in
        let end_ := Z.ldiff (u64 (addr + len + 0xFFF)) 0xFFF in
        prefault_loop s m pml4 ((fun i => start + i * 4096) <$> seqZ 0 ((end_ - start) / 4096))
  end.

(** ** Device memory *)

(** [for (i = 0; i < pages; i++) vmm_page_map(...)], the results ignored. *)
Definition map_run s (pml4 base phys flags pages : Z) : option (machine A) :=
  for_all (seqZ 0 pages)
    (fun s i => '(s, _) ← vmm_page_map s pml4 (u64 (base + i * 4096)) (u64 (phys + i * 4096)) flags; Some s) s.

(** [next] is [s_mmio_next]; its new value and the address. *)
Definition vmm_map_mmio s (kernel_pml4 next phys bytes : Z) : option (machine A * Z * Z) :=
  let pages := u64 (bytes + 4096 - 1) / 4096 in
  s ← map_run s kernel_pml4 next phys (Z.lor (Z.lor (Z.lor PAGE_PRESENT PAGE_WRITABLE) PAGE_PCD) PAGE_PWT) pages;
  Some (s, u64 (next + pages * 4096), next).

(** [vs] holds the areas; [mem] is the memory for the new one. *)
Definition vmm_map_physical_user s (vs : vm_state) (mem : bool) (pml4_phys phys bytes : Z) : option (machine A * vm_state * Z) :=
  if bytes =? 0 then Some (s, vs, 0)
  else
    let len := Z.ldiff (u64 (bytes + 4096 - 1)) 0xFFF in
    '(vs, vaddr) ← mm_vma_find_free vs len;
    if vaddr =? 0 then Some (s, vs, 0)
    else
      let '(vs, ok) := mm_vma_add mem vs vaddr (u64 (vaddr + len)) (Z.lor (Z.lor VMA_R VMA_W) VMA_MMIO) in
      if ok =? 0 then Some (s, vs, 0)
      else
        let flags := Z.lor (Z.lor (Z.lor (Z.lor PAGE_PRESENT PAGE_WRITABLE) PAGE_USER) PAGE_PWT) PAGE_NX in
        s ← map_run s pml4_phys vaddr phys flags (len / 4096);
        Some (s, vs, vaddr).
End fault.
