(* ===== verification/FilePage.v ===== *)
(** * Pages of files

    The frame that a fault on a file-backed area gets: from the page cache when
    the page is there, and read into a new frame, offered to the cache, when it
    is not.  Whatever happens, the caller comes out with one reference to the
    frame, no page that was in use changes, and everything else that was taken
    is given back, but for the references that read-ahead takes to pages that
    are already cached. *)

From S2P Require Import Prelude Errno DList Buddy Cred UnixNs Vma Frames PageTable PageTableSpec PageTableOps PageClone Shmem Pcache PcacheSpec PcacheOps PageFault.

(** Room for [k] more references to every frame. *)
Definition bnd (k : Z) (M : gmap Z Z) : Prop := forall f n, M !! f = Some n -> n + k < 2 ^ 32.

Lemma bnd_bounded k M : 1 <= k -> bnd k M -> bounded M.
Proof. intros Hk Hb f n Hn. specialize (Hb f n Hn). lia. Qed.
Lemma bnd_le k j M : j <= k -> bnd k M -> bnd j M.
Proof. intros Hk Hb f n Hn. specialize (Hb f n Hn). lia. Qed.
Lemma bnd_inc k M f n : M !! f = Some n -> bnd (k + 1) M -> bnd k (<[f := n + 1]> M).
Proof. intros Hf Hb g m [[<- <-]|[_ Hg]]%lookup_insert_Some; [specialize (Hb f n Hf)|specialize (Hb g m Hg)]; lia. Qed.
Lemma bnd_new k M f : k < 2 ^ 31 -> bnd k M -> bnd k (<[f := 1]> M).
Proof. intros Hk Hb g m [[<- <-]|[_ Hg]]%lookup_insert_Some; [lia|by apply (Hb g)]. Qed.
Lemma bnd_drop k M f : bnd k M -> bnd k (drop_ref M f).
Proof.
  intros Hb g m. unfold drop_ref. destruct (M !! f) as [n|] eqn:E; [|apply Hb]. destruct (n =? 1).
  - intros [_ Hg]%lookup_delete_Some. by apply (Hb g).
  - intros [[<- <-]|[_ Hg]]%lookup_insert_Some; [specialize (Hb f n E); lia|by apply (Hb g)].
Qed.

Section pages.
Context {A : Type} `{FrameLaws A} (kroot : Z) (kwin : Z -> bool) (free_pages_get : A -> Z).
Context (file_ino : Z -> Z) (pread : Z -> Z -> Z -> Z * page).
Context (T : gmap Z node) (P : gmap (Z * Z) leaf) (D : Z -> Z).
Abbreviation sys := (pc_sys kroot kwin T P D).

Lemma ps_ext s M c l Y Y' : (forall f, Y' f = Y f) -> sys s M c l Y -> sys s M c l Y'.
Proof.
  intros HY [Hv Hp Hr Hb Hh]. constructor; try done.
  - eapply vm_inv_ext; [|exact Hv]. intros f. cbn. by rewrite HY.
  - intros f. by rewrite HY.
Qed.

(** What was in use stays as it is. *)
Definition ram_kept (s : machine A) (M : gmap Z Z) (s' : machine A) : Prop :=
  forall f, is_Some (M !! f) \/ ~ fr_ram f -> ram s' !! f = ram s !! f.

Lemma held_mono s M c l Y s' M' c' l' Y' f :
  sys s M c l Y -> sys s' M' c' l' Y' -> more (pc_entries c) (pc_entries c') -> (forall g, Y g <= Y' g) ->
  is_Some (M !! f) -> is_Some (M' !! f).
Proof.
  intros [Hv _ _ _ _] [Hv' _ _ _ _] Hm HY [n Hn].
  destruct (fr_held _ _ _ _ (vi_rep _ _ _ _ _ _ _ Hv) Hn) as [Hr H1].
  pose proof (vi_acct _ _ _ _ _ _ _ Hv f Hr) as E1. pose proof (vi_acct _ _ _ _ _ _ _ Hv' f Hr) as E2.
  rewrite Hn in E1. cbn in E1. pose proof (crefs_more _ _ f Hm). specialize (HY f).
  destruct (M' !! f) as [m|]; [by exists m|]. cbn in E2. lia.
Qed.

Lemma ram_kept_trans s M c l Y s1 M1 c1 l1 Y1 s2 :
  sys s M c l Y -> sys s1 M1 c1 l1 Y1 -> more (pc_entries c) (pc_entries c1) -> (forall g, Y g <= Y1 g) ->
  ram_kept s M s1 -> ram_kept s1 M1 s2 -> ram_kept s M s2.
Proof.
  intros Hs Hs1 Hm HY K1 K2 f Hf. rewrite K2; [by apply K1|]. destruct Hf as [Hf|Hf]; [left|by right].
  by eapply (held_mono s M c l Y s1 M1).
Qed.

Lemma ps_alloc s M c l Y : sys s M c l Y ->
  exists s' o, alloc s = Some (s', o) /\ ram s' = ram s /\
    match o with
    | None => sys s' M c l Y
    | Some f => fr_ram f /\ M !! f = None /\ T !! f = None /\ sys s' (<[f := 1]> M) c l (bump1 f 1 Y)
    end.
Proof.
  intros [Hv Hp Hr Hb Hh]. destruct (frame_alloc_spec _ _ s M T P _ Hv) as (s' & o & Hrun & Hram & Ho).
  exists s', o. split; [done|]. split; [done|]. destruct o as [f|]; [|by constructor].
  destruct Ho as (Hf & HM & HT & Hrep). split_and!; [done..|]. constructor; try done.
  - eapply vm_inv_ext; [|eapply (alloc_hold _ _ s s' M T P _ f); eauto]. intros g. unfold bump1. destruct (g =? f); lia.
  - intros g. specialize (Hh g). unfold bump1. destruct (g =? f); lia.
Qed.

(** Writing to a frame in the caller's hands. *)
Lemma ps_data s M c l Y f p : sys s M c l (bump1 f 1 Y) -> fr_ram f -> (forall g, D g <= Y g) ->
  sys (with_ram (<[f := p]> (ram s)) s) M c l (bump1 f 1 Y).
Proof.
  intros [Hv Hp Hr Hb Hh] Hf HY. constructor; try done.
  destruct (extra_held _ _ _ _ _ _ _ f Hv Hf) as [HT _].
  { unfold bump1. rewrite Z.eqb_refl. pose proof (crefs_nonneg (pc_entries c) f). pose proof (proj1 Hb f). specialize (HY f). lia. }
  eapply inv_data; [exact Hv|done| |].
  - intros u Hu. cbn. destruct (decide (u = f)) as [->|Hn]; [rewrite lookup_insert_eq; by eexists|by rewrite lookup_insert_ne].
  - intros t Ht. cbn. rewrite lookup_insert_ne; [done|]. intros ->. rewrite HT in Ht. by destruct Ht.
Qed.

Lemma zero_page_spec (s : machine A) f : is_Some (ram s !! f) -> zero_page s f = Some (with_ram (<[f := ∅]> (ram s)) s).
Proof. intros [p Hp]. unfold zero_page. by rewrite Hp. Qed.

(** What a fault reads for the page at [pg_off] of an area. *)
Definition area_bytes (len pg_off : Z) : Z := if len <? u64 (pg_off + 4096) then u64 (len - pg_off) else 4096.
Definition area_read (file off len pg_off : Z) : Z * page := pread file (area_bytes len pg_off) (u64 (off + pg_off)).

Lemma read_page_spec file off len (s : machine A) f pg_off : is_Some (ram s !! f) ->
  read_page pread file off len s f pg_off =
    Some (with_ram (<[f := if 0 <? (area_read file off len pg_off).1 then (area_read file off len pg_off).2 else ∅]> (ram s)) s,
          (area_read file off len pg_off).1).
Proof.
  intros Hs. unfold read_page. rewrite zero_page_spec by done. cbn [mbind option_bind]. unfold area_read, area_bytes.
  destruct (pread _ _ _) as [rc p]. cbn [fst snd]. f_equal. f_equal. destruct (0 <? rc); [|done].
  unfold with_ram. cbn. by rewrite insert_insert_eq.
Qed.

Lemma ps_held_ram s M c l Y f : sys s M c l Y -> fr_ram f -> is_Some (ram s !! f).
Proof. intros [Hv]. by apply (vi_ram _ _ _ _ _ _ _ Hv). Qed.

Lemma bump_cancel f (Y : Z -> Z) g : Y g = bump1 f (-1) (bump1 f 1 Y) g.
Proof. unfold bump1. destruct (g =? f); lia. Qed.

(** Giving back what is in the caller's hands. *)
Lemma ps_give s M c l Y f : sys s M c l (bump1 f 1 Y) -> fr_ram f -> (forall g, D g <= Y g) ->
  exists s', ref_dec s f = Some s' /\ ram s' = ram s /\ sys s' (drop_ref M f) c l Y.
Proof.
  intros Hs Hf HY. destruct (ps_drop _ _ _ _ _ _ _ _ _ _ f Hs Hf) as (s' & Hrun & Hram & Hs').
  { unfold bump1. rewrite Z.eqb_refl. specialize (HY f). lia. }
  exists s'. split_and!; [done..|]. eapply ps_ext; [|exact Hs']. intros g. apply bump_cancel.
Qed.

(** The memory the cache is given for new entries. *)
Definition fresh (mem : Z -> Z) (c : pcache) (idxs : list Z) : Prop :=
  forall i, i ∈ idxs -> mem i <> NULL -> pc_entries c !! mem i = None.
Definition distinct (mem : Z -> Z) (idxs : list Z) : Prop :=
  NoDup idxs /\ forall i j, i ∈ idxs -> j ∈ idxs -> mem i <> NULL -> mem i = mem j -> i = j.

(** The caller's frame, and whose it is after it was offered to the cache. *)
Lemma offer_spec s M c l Y ne ino idx f :
  sys s M c l (bump1 f 1 Y) -> bounded M -> fr_ram f -> (forall g, D g <= Y g) -> (ne <> NULL -> pc_entries c !! ne = None) ->
  Z.of_nat (length l) + 1 < 2 ^ 62 ->
  exists s' c' r M' l', pcache_insert free_pages_get s c ne ino idx f = Some (s', c', r) /\ ram s' = ram s /\
    let g := if negb (r =? PMM_INVALID_ADDR) then r else f in
    sys s' M' c' l' (bump1 g 1 Y) /\ fr_ram g /\ (g = f \/ cached c ino idx g) /\
    more (pc_entries c) (pc_entries c') /\ (length l' <= length l + 1)%nat /\
    (forall x, is_Some (pc_entries c' !! x) -> is_Some (pc_entries c !! x) \/ x = ne) /\
    (forall k, k < 2 ^ 31 -> bnd (k + 1) M -> bnd k M').
Proof.
  intros Hs Hb Hf HY Hne Hlen.
  destruct (insert_spec kroot kwin free_pages_get T P D s M c l _ ne ino idx f Hs Hb Hf) as (s' & c' & r & Hrun & Hram & Hres); [|done|done|].
  { unfold bump1. rewrite Z.eqb_refl. specialize (HY f). lia. }
  destruct Hres as [(-> & -> & ->)|[(Hc & -> & n & Hn & Hs')|(-> & Hc & Hm & Hd & n & Hn & Hs')]].
  - eexists s, c, _, M, l. split; [done|]. split; [done|]. rewrite Z.eqb_refl. cbn [negb]. split_and!; try done; [by left|lia|by left|].
    intros k _. apply bnd_le. lia.
  - assert (Hr : fr_ram r) by (destruct Hc as (x & e & He & _ & _ & <-); by apply (ps_ram _ _ _ _ _ _ _ _ _ _ Hs x)).
    destruct (fr_ram_addr r Hr) as [_ Hinv].
    eexists s', c, r, _, l. split; [done|]. split; [done|]. destruct (Z.eqb_spec r PMM_INVALID_ADDR) as [|_]; [done|]. cbn [negb].
    split_and!; try done; [|by right|lia|by left|].
    + eapply ps_ext; [|exact Hs']. intros g. unfold bump1. destruct (g =? r), (g =? f); lia.
    + intros k Hk Hbk. apply bnd_drop. by apply bnd_inc.
  - destruct (fr_ram_addr f Hf) as [_ Hinv].
    eexists s', c', f, _, _. split; [done|]. split; [done|]. destruct (Z.eqb_spec f PMM_INVALID_ADDR) as [|_]; [done|]. cbn [negb].
    split_and!; try done; [by left|rewrite length_app; cbn; lia|]. intros k Hk Hbk. by apply bnd_inc.
Qed.

(** ** Read-ahead *)

Lemma read_ahead_spec file off len mem ino pg_off pg_idx ras k : ino <> 0 -> 1 <= k -> k + Z.of_nat (length ras) < 2 ^ 31 -> forall s M c l Y,
  sys s M c l Y -> (forall g, D g <= Y g) -> bnd (k + Z.of_nat (length ras)) M ->
  let idxs := (fun ra => u32 (pg_idx + ra)) <$> ras in
  fresh mem c idxs -> distinct mem idxs -> Z.of_nat (length l) + Z.of_nat (length ras) < 2 ^ 62 ->
  exists s' c' M' l' Y', read_ahead free_pages_get pread file off len mem ino pg_off pg_idx ras (s, c) = Some (s', c') /\
    sys s' M' c' l' Y' /\ (forall g, Y g <= Y' g) /\ more (pc_entries c) (pc_entries c') /\ ram_kept s M s' /\ bnd k M'.
Proof.
  intros Hino Hk. induction ras as [|ra ras IH]; intros Hbig s M c l Y Hs HY Hb idxs Hfr Hdi Hlen.
  { exists s, c, M, l, Y. cbn in Hb. rewrite Z.add_0_r in Hb. by split_and!. }
  cbn [read_ahead]. rewrite length_cons in *. set (idx := u32 (pg_idx + ra)) in *.
  assert (Hstop : exists s' c' M' l' Y', Some (s, c) = Some (s', c') /\
    sys s' M' c' l' Y' /\ (forall g, Y g <= Y' g) /\ more (pc_entries c) (pc_entries c') /\ ram_kept s M s' /\ bnd k M').
  { exists s, c, M, l, Y. split_and!; try done. eapply bnd_le; [|exact Hb]. lia. }
  destruct (len <=? u64 (pg_off + ra * 4096)); [done|]. clear Hstop. cbn [fst snd].
  destruct Hdi as [Hnd Hinj]. subst idxs. rewrite fmap_cons in *. fold idx in Hnd, Hinj, Hfr. apply NoDup_cons in Hnd as [Hni Hnd].
  assert (Hdi' : distinct mem ((fun ra => u32 (pg_idx + ra)) <$> ras)).
  { split; [done|]. intros i j Hi Hj. apply Hinj; by right. }
  assert (Hgo : forall s1 M1 c1 l1 Y1, sys s1 M1 c1 l1 Y1 -> (forall g, Y g <= Y1 g) -> more (pc_entries c) (pc_entries c1) -> ram_kept s M s1 ->
    bnd (k + Z.of_nat (length ras)) M1 -> (length l1 <= length l + 1)%nat ->
    (forall x, is_Some (pc_entries c1 !! x) -> is_Some (pc_entries c !! x) \/ x = mem idx) ->
    exists s' c' M' l' Y', read_ahead free_pages_get pread file off len mem ino pg_off pg_idx ras (s1, c1) = Some (s', c') /\
      sys s' M' c' l' Y' /\ (forall g, Y g <= Y' g) /\ more (pc_entries c) (pc_entries c') /\ ram_kept s M s' /\ bnd k M').
  { intros s1 M1 c1 l1 Y1 Hs1 HY1 Hm1 Hk1 Hb1 Hl1 Hd1.
    destruct (IH ltac:(lia) s1 M1 c1 l1 Y1 Hs1) as (s' & c' & M' & l' & Y' & Hrun & Hs' & HY' & Hm' & Hk' & Hb'); [|done| |done|lia|].
    - intros g. specialize (HY g). specialize (HY1 g). lia.
    - intros i Hi Hn0. destruct (pc_entries c1 !! mem i) as [e|] eqn:E; [|done]. destruct (Hd1 (mem i)) as [He|He]; [by eexists| |].
      + rewrite Hfr in He by (done || by right). by destruct He.
      + exfalso. apply Hni. assert (i = idx) as <-; [|done]. apply Hinj; [by right|by left|done|done].
    - exists s', c', M', l', Y'. split; [done|]. split; [done|]. split; [intros g; specialize (HY1 g); specialize (HY' g); lia|].
      split; [by etrans|]. split; [|done]. by eapply (ram_kept_trans s M c l Y s1 M1). }
  destruct (get_spec _ _ T P D s M c l Y ino idx Hs) as (s1 & c1 & r & -> & Hram & Hsf & Hres); [eapply bnd_bounded, Hb; lia|].
  cbn [mbind option_bind]. destruct Hres as [(-> & -> & -> & Hno)|(Hc & n & Hn & Hs1)].
  2: { assert (Hr : fr_ram r) by (destruct Hc as (x & e & He & _ & _ & <-); by apply (ps_ram _ _ _ _ _ _ _ _ _ _ Hs x)).
    destruct (fr_ram_addr r Hr) as [_ Hinv]. destruct (Z.eqb_spec r PMM_INVALID_ADDR) as [|_]; [done|]. cbn [negb].
    eapply Hgo; [exact Hs1| |by apply same_more|intros f _; by rewrite Hram|..|lia|].
    - intros g. unfold bump1. destruct (g =? r); lia.
    - apply bnd_inc; [done|]. eapply bnd_le; [|exact Hb]. lia.
    - intros x Hx. left. by apply (same_frames_some _ _ x Hsf). }
  rewrite Z.eqb_refl. cbn [negb]. destruct (ps_alloc s M c l Y Hs) as (s2 & o & -> & Hram2 & Ho). cbn [mbind option_bind].
  destruct o as [f|].
  2: { exists s2, c, M, l, Y. split_and!; try done; [intros f _; by rewrite Hram2|]. eapply bnd_le; [|exact Hb]. lia. }
  destruct Ho as (Hf & HMf & HTf & Hs2). rewrite read_page_spec by by eapply ps_held_ram. cbn [mbind option_bind].
  set (rc := (area_read file off len (u64 (pg_off + ra * 4096))).1). set (p := if 0 <? rc then _ else ∅).
  pose proof (ps_data _ _ _ _ _ f p Hs2 Hf HY) as Hs3. set (s3 := with_ram (<[f := p]> (ram s2)) s2) in *.
  assert (Hk3 : forall s4, ram s4 = ram s3 -> ram_kept s M s4).
  { intros s4 Hr4 g Hg. rewrite Hr4. unfold s3. cbn. rewrite Hram2, lookup_insert_ne; [done|].
    intros <-. destruct Hg as [[? Hg]|Hg]; [congruence|done]. }
  assert (Hb3 : bnd (k + Z.of_nat (length ras) + 1) (<[f := 1]> M)) by (apply bnd_new; [lia|]; eapply bnd_le; [|exact Hb]; lia).
  destruct (rc <=? 0).
  { destruct (ps_give s3 _ c l Y f Hs3 Hf HY) as (s4 & -> & Hram4 & Hs4). cbn [mbind option_bind].
    eapply Hgo; [exact Hs4|done|done|by apply Hk3|apply bnd_drop; eapply bnd_le; [|exact Hb3]; lia|lia|by left]. }
  destruct (offer_spec s3 _ c l Y (mem idx) ino idx f Hs3) as (s4 & c4 & r & M4 & l4 & -> & Hram4 & Hs4 & Hg & _ & Hm4 & Hl4 & Hd4 & Hb4);
    [eapply bnd_bounded, Hb3; lia|done|done|apply Hfr; by left|lia|]. cbn [mbind option_bind]. set (g := if negb (r =? PMM_INVALID_ADDR) then r else f) in *.
  destruct (ps_give s4 M4 c4 l4 Y g Hs4 Hg HY) as (s5 & -> & Hram5 & Hs5). cbn [mbind option_bind].
  eapply Hgo; [exact Hs5|done|done|apply Hk3; congruence|apply bnd_drop, Hb4; [lia|done]|done|done].
Qed.

(** ** The page *)

Definition area_page (file off len pg_off : Z) : page := if pg_off <? len then (area_read file off len pg_off).2 else ∅.
Definition file_idx (off pg_off : Z) : Z := u32 (Z.shiftr (u64 (off + pg_off)) PAGE_SHIFT).
Definition near (off pg_off : Z) : list Z := (fun ra => u32 (file_idx off pg_off + ra)) <$> seqZ 0 8.

Lemma near_split off pg_off : near off pg_off = file_idx off pg_off :: ((fun ra => u32 (file_idx off pg_off + ra)) <$> seqZ 1 7).
Proof.
  unfold near. change (seqZ 0 8) with (0 :: seqZ 1 7). rewrite fmap_cons, Z.add_0_r. f_equal. unfold file_idx. apply u32_id, u32_range.
Qed.

Lemma near_nodup off pg_off : NoDup (near off pg_off).
Proof.
  unfold near. apply NoDup_fmap_2_strong; [|apply NoDup_seqZ]. intros x y Hx%elem_of_seqZ Hy%elem_of_seqZ He. unfold u32 in He.
  assert (Hr : 0 <= file_idx off pg_off < 2 ^ 32) by apply u32_range. mlia.
Qed.

(** What the cache needs to take in up to eight pages. *)
Record cache_room (mem : Z -> Z) (c : pcache) (l : list Z) (off pg_off : Z) : Prop := {
  cr_fresh : fresh mem c (near off pg_off);
  cr_inj i j : i ∈ near off pg_off -> j ∈ near off pg_off -> mem i <> NULL -> mem i = mem j -> i = j;
  cr_len : Z.of_nat (length l) + 8 < 2 ^ 62;
}.

Lemma sys_in_hand s M c l Y f : sys s M c l (bump1 f 1 Y) -> fr_ram f -> (forall g, D g <= Y g) -> is_Some (M !! f).
Proof.
  intros [Hv _ _ Hb _] Hf HY. destruct (extra_held _ _ _ _ _ _ _ f Hv Hf) as (_ & n & Hn); [|by exists n].
  unfold bump1. rewrite Z.eqb_refl. pose proof (crefs_nonneg (pc_entries c) f). pose proof (proj1 Hb f). specialize (HY f). lia.
Qed.

Definition acquired (s : machine A) (M : gmap Z Z) (c : pcache) (l : list Z) (Y : Z -> Z) (s' : machine A) (c' : pcache)
  (Got_ok : gmap Z Z -> (Z -> Z) -> list Z -> Prop) : Prop :=
  exists M' l' Y', Got_ok M' Y' l' /\ (forall g, Y g <= Y' g) /\ more (pc_entries c) (pc_entries c') /\ ram_kept s M s' /\ bnd 4 M'.

Lemma clean_page_spec file off len mem pg_off s M c l Y :
  let ino := file_ino file in
  sys s M c l Y -> (forall g, D g <= Y g) -> bnd 16 M -> cache_room mem c l off pg_off ->
  exists s' c' g, clean_page free_pages_get file_ino pread file off len mem pg_off (s, c) = Some ((s', c'), g) /\
    acquired s M c l Y s' c' (fun M' Y' l' =>
      match g with
      | Got f => fr_ram f /\ sys s' M' c' l' (bump1 f 1 Y') /\
          ((ino <> 0 /\ cached c ino (file_idx off pg_off) f) \/ (M !! f = None /\ ram s' !! f = Some (area_page file off len pg_off)))
      | ReadError => sys s' M' c' l' Y' /\ pg_off < len /\ (area_read file off len pg_off).1 <= 0
      | NoMemory => sys s' M' c' l' Y'
      end).
Proof.
  intros ino Hs HY Hb [Hfr Hinj Hlen]. unfold clean_page. fold ino. fold (file_idx off pg_off). set (idx := file_idx off pg_off) in *. cbn [fst snd].
  assert (Hget : exists s1 c1 r, (if negb (ino =? 0) then pcache_get s c ino idx else Some (s, c, PMM_INVALID_ADDR)) = Some (s1, c1, r) /\
    ram s1 = ram s /\ same_frames (pc_entries c) (pc_entries c1) /\
    ((r = PMM_INVALID_ADDR /\ s1 = s /\ c1 = c) \/ (ino <> 0 /\ cached c ino idx r /\ exists n, M !! r = Some n /\ sys s1 (<[r := n + 1]> M) c1 l (bump1 r 1 Y)))).
  { destruct (Z.eqb_spec ino 0) as [Hz|Hz]; cbn [negb]; [eexists s, c, _; split_and!; try done; by left|].
    destruct (get_spec _ _ T P D s M c l Y ino idx Hs) as (s1 & c1 & r & -> & Hram & Hsf & Hres); [eapply bnd_bounded, Hb; lia|].
    exists s1, c1, r. split_and!; try done. destruct Hres as [(-> & -> & -> & _)|(Hc & n & Hn & Hs1)]; [by left|right]. split_and!; try done. by exists n. }
  destruct Hget as (s1 & c1 & r & -> & Hram & Hsf & Hres). cbn [mbind option_bind].
  destruct Hres as [(-> & -> & ->)|(Hino & Hc & n & Hn & Hs1)].
  2: { assert (Hr : fr_ram r) by (destruct Hc as (x & e & He & _ & _ & <-); by apply (ps_ram _ _ _ _ _ _ _ _ _ _ Hs x)).
    destruct (fr_ram_addr r Hr) as [_ Hinv]. destruct (Z.eqb_spec r PMM_INVALID_ADDR) as [|_]; [done|]. cbn [negb].
    eexists s1, c1, _. split; [done|]. exists (<[r := n + 1]> M), l, Y. split; [split_and!; [done|done|by left]|].
    split_and!; [done|by apply same_more|intros f _; by rewrite Hram|]. apply bnd_inc; [done|]. eapply bnd_le; [|exact Hb]. lia. }
  rewrite Z.eqb_refl. cbn [negb]. destruct (ps_alloc s M c l Y Hs) as (s2 & o & -> & Hram2 & Ho). cbn [mbind option_bind].
  destruct o as [f|].
  2: { eexists s2, c, _. split; [done|]. exists M, l, Y. split_and!; try done; [intros f _; by rewrite Hram2|]. eapply bnd_le; [|exact Hb]. lia. }
  destruct Ho as (Hf & HMf & HTf & Hs2).
  assert (Hread : exists p rc, (if pg_off <? len then read_page pread file off len s2 f pg_off else s ← zero_page s2 f; Some (s, 1)) =
    Some (with_ram (<[f := p]> (ram s2)) s2, rc) /\ (rc <= 0 -> pg_off < len /\ (area_read file off len pg_off).1 <= 0) /\ (0 < rc -> p = area_page file off len pg_off)).
  { unfold area_page. destruct (Z.ltb_spec pg_off len) as [Hl|Hl].
    - rewrite read_page_spec by by eapply ps_held_ram. eexists _, _. split; [done|]. split; [done|]. intros Hrc.
      destruct (Z.ltb_spec 0 (area_read file off len pg_off).1); [done|lia].
    - rewrite zero_page_spec by by eapply ps_held_ram. cbn [mbind option_bind]. eexists _, 1. split; [done|]. split; [lia|done]. }
  destruct Hread as (p & rc & -> & Hbad & Hgood). cbn [mbind option_bind].
  pose proof (ps_data _ _ _ _ _ f p Hs2 Hf HY) as Hs3. set (s3 := with_ram (<[f := p]> (ram s2)) s2) in *.
  assert (Hk3 : forall s4, ram s4 = ram s3 -> ram_kept s M s4).
  { intros s4 Hr4 g Hg. rewrite Hr4. unfold s3. cbn. rewrite Hram2, lookup_insert_ne; [done|].
    intros <-. destruct Hg as [[? Hg]|Hg]; [congruence|done]. }
  assert (Hf3 : forall s4 : machine A, ram s4 = ram s3 -> ram s4 !! f = Some p) by (intros s4 ->; unfold s3; cbn; apply lookup_insert_eq).
  assert (Hb3 : bnd 16 (<[f := 1]> M)) by (apply bnd_new; [lia|done]).
  destruct (Z.leb_spec rc 0) as [Hrc|Hrc].
  { destruct (ps_give s3 _ c l Y f Hs3 Hf HY) as (s4 & -> & Hram4 & Hs4). cbn [mbind option_bind].
    eexists s4, c, _. split; [done|]. eexists _, l, Y. split; [split; [exact Hs4|by apply Hbad]|]. split_and!; try done; [by apply Hk3|].
    apply bnd_drop. eapply bnd_le; [|exact Hb3]. lia. }
  specialize (Hgood Hrc). subst p. destruct (Z.eqb_spec ino 0) as [Hz|Hz].
  { eexists s3, c, _. split; [done|]. eexists _, l, Y. split; [split_and!; [done|exact Hs3|right; split; [done|by apply Hf3]]|].
    split_and!; try done; [by apply Hk3|]. eapply bnd_le; [|exact Hb3]. lia. }
  pose proof (near_split off pg_off) as Hnear. pose proof (near_nodup off pg_off) as Hnd. rewrite Hnear in Hfr, Hinj, Hnd. fold idx in Hfr, Hinj, Hnd.
  apply NoDup_cons in Hnd as [Hni Hnd].
  destruct (offer_spec s3 _ c l Y (mem idx) ino idx f Hs3) as (s4 & c4 & r & M4 & l4 & -> & Hram4 & Hs4 & Hg & Hgc & Hm4 & Hl4 & Hd4 & Hb4);
    [eapply bnd_bounded, Hb3; lia|done|done|apply Hfr; by left|lia|]. cbn [mbind option_bind].
  set (g := if negb (r =? PMM_INVALID_ADDR) then r else f) in *.
  assert (HYg : forall h, D h <= bump1 g 1 Y h) by (intros h; specialize (HY h); unfold bump1; destruct (h =? g); lia).
  destruct (read_ahead_spec file off len mem ino pg_off idx (seqZ 1 7) 4 Hz ltac:(lia) ltac:(done) s4 M4 c4 l4 (bump1 g 1 Y) Hs4 HYg)
    as (s5 & c5 & M5 & l5 & Y5 & -> & Hs5 & HY5 & Hm5 & Hk5 & Hb5).
  { apply Hb4; [done|]. eapply bnd_le; [|exact Hb3]. done. }
  { intros i Hi Hi0. destruct (pc_entries c4 !! mem i) as [e|] eqn:E; [|done]. destruct (Hd4 (mem i)) as [He|He]; [by eexists| |].
    - rewrite Hfr in He by (done || by right). by destruct He.
    - exfalso. apply Hni. assert (i = idx) as <-; [|done]. apply Hinj; [by right|by left|done|done]. }
  { split; [done|]. intros i j Hi Hj. apply Hinj; by right. }
  { cbn [length seqZ]. change (Z.of_nat (length (seqZ 1 7))) with 7. lia. }
  cbn [mbind option_bind]. exists s5, c5, (Got g). split; [done|].
  exists M5, l5, (fun h => Y5 h - (bump1 g 1 Y h - Y h)). split; [split_and!|split_and!].
  - done.
  - eapply ps_ext; [|exact Hs5]. intros h. unfold bump1. destruct (h =? g); lia.
  - destruct Hgc as [Hgc|Hgc]; [right|by left]. rewrite Hgc. split; [done|]. rewrite Hk5; [by apply Hf3|]. left. rewrite <- Hgc.
    by eapply (sys_in_hand s4).
  - intros h. specialize (HY5 h). unfold bump1 in *. destruct (h =? g); lia.
  - by etrans.
  - eapply (ram_kept_trans s M c l Y s4 M4 c4 l4 (bump1 g 1 Y)); try done; [|by apply Hk3]. intros h. unfold bump1. destruct (h =? g); lia.
  - done.
Qed.

(** The page's content: the cached page, or what the area reads. *)
Definition file_content (s : machine A) (c : pcache) (file off len pg_off : Z) (p : page) : Prop :=
  (file_ino file <> 0 /\ exists g, cached c (file_ino file) (file_idx off pg_off) g /\ ram s !! g = Some p) \/
  p = area_page file off len pg_off.

Lemma copy_page_spec (s : machine A) dst src p : ram s !! src = Some p -> is_Some (ram s !! dst) ->
  copy_page s dst src = Some (with_ram (<[dst := p]> (ram s)) s).
Proof. intros Hp [q Hq]. unfold copy_page. by rewrite Hp, Hq. Qed.

Lemma file_page_spec file off len mem vma_flags pg_off s M c l Y :
  sys s M c l Y -> (forall g, D g <= Y g) -> bnd 16 M -> cache_room mem c l off pg_off ->
  exists s' c' g, file_page free_pages_get file_ino pread file off len mem vma_flags pg_off (s, c) = Some ((s', c'), g) /\
    acquired s M c l Y s' c' (fun M' Y' l' =>
      match g with
      | Got f => fr_ram f /\ sys s' M' c' l' (bump1 f 1 Y') /\
          (exists p, ram s' !! f = Some p /\ file_content s c file off len pg_off p) /\
          (bits vma_flags VMA_W = true -> M !! f = None /\ M' !! f = Some 1)
      | ReadError => sys s' M' c' l' Y' /\ pg_off < len /\ (area_read file off len pg_off).1 <= 0
      | NoMemory => sys s' M' c' l' Y'
      end).
Proof.
  intros Hs HY Hb Hroom. unfold file_page.
  destruct (clean_page_spec file off len mem pg_off s M c l Y Hs HY Hb Hroom) as (s1 & c1 & g & -> & M1 & l1 & Y1 & Hg & HY1 & Hm1 & Hk1 & Hb1).
  cbn [mbind option_bind]. destruct g as [f| |]; [|by eexists s1, c1, _; split; [done|]; exists M1, l1, Y1..].
  destruct Hg as (Hf & Hs1 & Hcon). assert (HD1 : forall h, D h <= Y1 h) by (intros h; specialize (HY h); specialize (HY1 h); lia).
  assert (Hp : exists p, ram s1 !! f = Some p /\ file_content s c file off len pg_off p).
  { destruct (ps_held_ram _ _ _ _ _ f Hs1 Hf) as [p Hp]. exists p. split; [done|]. destruct Hcon as [[Hi Hc]|[_ Hr]]; [left|right; congruence].
    split; [done|]. exists f. split; [done|]. rewrite <- Hp. symmetry. apply Hk1. left. destruct Hc as (x & e & He & _ & _ & <-).
    destruct (cached_ref _ _ _ _ _ _ _ _ _ _ x e Hs He) as (n & Hn & _). by exists n. }
  destruct Hp as (p & Hp & Hfc). cbn [fst snd].
  destruct (bits vma_flags VMA_W); [|eexists s1, c1, _; split; [done|]; exists M1, l1, Y1; split_and!; try done; by exists p].
  destruct (ps_alloc s1 M1 c1 l1 _ Hs1) as (s2 & o & -> & Hram2 & Ho). cbn [mbind option_bind]. destruct o as [nf|].
  - destruct Ho as (Hn & HM & HT & Hs2).
    assert (Hs2' : sys s2 (<[nf := 1]> M1) c1 l1 (bump1 f 1 (bump1 nf 1 Y1))).
    { eapply ps_ext; [|exact Hs2]. intros h. unfold bump1. destruct (h =? nf), (h =? f); lia. }
    assert (HDn : forall h, D h <= bump1 nf 1 Y1 h) by (intros h; specialize (HD1 h); unfold bump1; destruct (h =? nf); lia).
    assert (HDf : forall h, D h <= bump1 f 1 Y1 h) by (intros h; specialize (HD1 h); unfold bump1; destruct (h =? f); lia).
    assert (Hnf : nf <> f) by (intros ->; destruct (sys_in_hand _ _ _ _ _ _ Hs1 Hf HD1) as [? ?]; congruence).
    rewrite (copy_page_spec s2 nf f p) by (rewrite ?Hram2; done || by eapply ps_held_ram). cbn [mbind option_bind].
    pose proof (ps_data _ _ _ _ _ nf p Hs2 Hn HDf) as Hs3. set (s3 := with_ram _ s2) in *.
    assert (Hs3' : sys s3 (<[nf := 1]> M1) c1 l1 (bump1 f 1 (bump1 nf 1 Y1))).
    { eapply ps_ext; [|exact Hs3]. intros h. unfold bump1. destruct (h =? nf), (h =? f); lia. }
    destruct (ps_give s3 _ c1 l1 _ f Hs3' Hf HDn) as (s4 & -> & Hram4 & Hs4). cbn [mbind option_bind].
    assert (HMn : M !! nf = None).
    { destruct (M !! nf) as [n|] eqn:E; [|done]. exfalso. destruct (held_mono _ _ _ _ _ _ _ _ _ _ nf Hs Hs1 Hm1) as [? ?]; [|by eexists|congruence].
      intros h. specialize (HY1 h). unfold bump1. destruct (h =? f); lia. }
    eexists s4, c1, _. split; [done|]. eexists _, l1, Y1. split; [split_and!; [done|exact Hs4| |]|split_and!; try done].
    + exists p. split; [|done]. rewrite Hram4. unfold s3. cbn. apply lookup_insert_eq.
    + intros _. split; [done|]. unfold drop_ref. rewrite lookup_insert_ne by done. destruct (M1 !! f) as [n|]; [|by rewrite lookup_insert_eq].
      destruct (n =? 1); [rewrite lookup_delete_ne by done|rewrite lookup_insert_ne by done]; by rewrite lookup_insert_eq.
    + intros h Hh. rewrite Hram4. unfold s3. cbn. rewrite Hram2, lookup_insert_ne; [by apply Hk1|].
      intros <-. destruct Hh as [[? ?]|?]; [congruence|done].
    + apply bnd_drop, bnd_new; [lia|done].
  - destruct (ps_give s2 _ c1 l1 _ f Ho Hf HD1) as (s3 & -> & Hram3 & Hs3). cbn [mbind option_bind].
    eexists s3, c1, _. split; [done|]. eexists _, l1, Y1. split; [exact Hs3|]. split_and!; try done; [|by apply bnd_drop].
    intros h Hh. rewrite Hram3, Hram2. by apply Hk1.
Qed.

Lemma anon_page_spec s M c l Y : sys s M c l Y -> (forall g, D g <= Y g) -> bnd 4 M ->
  exists s' g, anon_page s = Some (s', g) /\ ram_kept s M s' /\
    match g with
    | Got f => fr_ram f /\ M !! f = None /\ ram s' !! f = Some ∅ /\ sys s' (<[f := 1]> M) c l (bump1 f 1 Y)
    | NoMemory => sys s' M c l Y
    | ReadError => False
    end.
Proof.
  intros Hs HY Hb. unfold anon_page. destruct (ps_alloc s M c l Y Hs) as (s1 & o & -> & Hram & Ho). cbn [mbind option_bind].
  destruct o as [f|]; [|eexists s1, _; split; [done|]; split; [intros f _; by rewrite Hram|done]].
  destruct Ho as (Hf & HM & HT & Hs1). rewrite zero_page_spec by by eapply ps_held_ram. cbn [mbind option_bind].
  eexists _, _. split; [done|]. split; [|split_and!; [done|done|apply lookup_insert_eq|by apply ps_data]].
  intros g Hg. cbn. rewrite Hram, lookup_insert_ne; [done|]. intros <-. destruct Hg as [[? ?]|?]; [congruence|done].
Qed.
End pages.
