(* ===== verification/ShmemSpec.v ===== *)
(** * Shared memory objects: pages and references

    An object holds one reference to each of its pages, whoever is given a page
    holds one more, and a page that leaves the object stays allocated while
    somebody refers to it. *)

From S2P Require Import Prelude Errno DList Buddy Cred UnixNs Vma Frames PageTable PageTableSpec PageTableOps PageClone Shmem Pcache PcacheSpec PcacheOps PageFault FilePage.

(** ** Counting *)

(** How often a frame is in a list of page slots. *)
Definition occ (l : list Z) (f : Z) : Z := Z.of_nat (length (filter (fun p => p = f /\ p <> 0) l)).

Lemma occ_nonneg l f : 0 <= occ l f.
Proof. unfold occ. lia. Qed.
Lemma occ_app l1 l2 f : occ (l1 ++ l2) f = occ l1 f + occ l2 f.
Proof. unfold occ. rewrite filter_app, length_app. lia. Qed.
Lemma occ_cons p l f : occ (p :: l) f = Z.b2z ((p =? f) && negb (p =? 0)) + occ l f.
Proof.
  unfold occ. destruct (Z.eqb_spec p f) as [->|Hn]; cbn [andb].
  - destruct (Z.eqb_spec f 0) as [->|Hz]; [rewrite filter_cons_False by (by intros [_ ?]); cbn [negb Z.b2z]; lia|].
    rewrite filter_cons_True by done. cbn [length negb Z.b2z]. lia.
  - rewrite filter_cons_False by (by intros [? _]). cbn [Z.b2z]. lia.
Qed.
Lemma occ_zeros n f : occ (replicate n 0) f = 0.
Proof. induction n as [|n IH]; [done|]. cbn [replicate]. rewrite occ_cons, IH. cbn. by rewrite andb_false_r. Qed.
Lemma occ_pos l f : f ∈ l -> f <> 0 -> 1 <= occ l f.
Proof.
  intros Hf Hn. apply list_elem_of_split in Hf as (l1 & l2 & ->). rewrite occ_app, occ_cons, Z.eqb_refl.
  pose proof (occ_nonneg l1 f). pose proof (occ_nonneg l2 f). destruct (Z.eqb_spec f 0); [done|]. cbn. lia.
Qed.
Lemma occ_set l i f g : l !! i = Some 0 -> f <> 0 -> occ (<[i := f]> l) g = occ l g + Z.b2z (f =? g).
Proof.
  intros Hi Hf. rewrite <- (take_drop_middle l i 0 Hi) at 2. rewrite insert_take_drop by by eapply lookup_lt_Some.
  rewrite !occ_app, !occ_cons. destruct (Z.eqb_spec f 0); [done|]. cbn [negb]. rewrite andb_true_r.
  cbn [Z.eqb negb]. rewrite andb_false_r. cbn [Z.b2z]. lia.
Qed.

Definition live_pages (o : shm) : list Z := take (Z.to_nat (so_npages o)) (so_pages o).

Definition orefs (objs : gmap Z shm) (f : Z) : Z := occ (xo ← map_to_list objs; live_pages xo.2) f.

Lemma orefs_nonneg objs f : 0 <= orefs objs f.
Proof. apply occ_nonneg. Qed.

Lemma occ_perm l1 l2 f : l1 ≡ₚ l2 -> occ l1 f = occ l2 f.
Proof. intros Hp. unfold occ. by rewrite Hp. Qed.

Lemma orefs_fresh objs x o f : objs !! x = None -> orefs (<[x := o]> objs) f = orefs objs f + occ (live_pages o) f.
Proof.
  intros Hx. unfold orefs. rewrite (occ_perm _ (((x, o) :: map_to_list objs) ≫= (fun xo => live_pages xo.2))).
  - rewrite bind_cons, occ_app. cbn. lia.
  - by rewrite map_to_list_insert.
Qed.
Lemma orefs_delete objs x o f : objs !! x = Some o -> orefs objs f = orefs (delete x objs) f + occ (live_pages o) f.
Proof. intros Hx. rewrite <- (insert_id objs x o Hx) at 1. rewrite <- insert_delete_eq. by rewrite orefs_fresh by apply lookup_delete_eq. Qed.
Lemma orefs_update objs x o o' f : objs !! x = Some o ->
  orefs (<[x := o']> objs) f = orefs objs f - occ (live_pages o) f + occ (live_pages o') f.
Proof.
  intros Hx. rewrite <- insert_delete_eq, orefs_fresh by apply lookup_delete_eq. rewrite (orefs_delete objs x o f Hx). lia.
Qed.
Lemma orefs_same objs x o o' f : objs !! x = Some o -> live_pages o' = live_pages o -> orefs (<[x := o']> objs) f = orefs objs f.
Proof. intros Hx He. rewrite (orefs_update objs x o o' f Hx), He. lia. Qed.

Lemma orefs_pos objs x o f : objs !! x = Some o -> f ∈ live_pages o -> f <> 0 -> 1 <= orefs objs f.
Proof. intros Hx Hf Hn. rewrite (orefs_delete objs x o f Hx). pose proof (occ_pos _ _ Hf Hn). pose proof (orefs_nonneg (delete x objs) f). lia. Qed.

(** ** The invariant *)

Section shm.
Context {A : Type} `{FrameLaws A} (kroot : Z) (kwin : Z -> bool).
Context (T : gmap Z node) (P : gmap (Z * Z) leaf) (D : Z -> Z).

Record obj_ok (x : Z) (o : shm) : Prop := {
  ok_addr : x <> NULL;
  ok_size : 0 <= so_npages o <= so_max_pages o;
  ok_max : 1 <= so_max_pages o <= SHMEM_MAX_PAGES;
  ok_ram p : p ∈ live_pages o -> p <> 0 -> fr_ram p;
  ok_refs : 0 <= so_refcount o < 2 ^ 32;
}.

(** [Y]: the references that are neither leaf entries nor an object's. *)
Record so_sys (s : machine A) (M : gmap Z Z) (objs : gmap Z shm) (Y : Z -> Z) : Prop := {
  ss_vm : vm_inv kroot kwin s M T P (fun f => orefs objs f + Y f);
  ss_objs x o : objs !! x = Some o -> obj_ok x o;
  ss_backed : backed P D;
  ss_hold f : D f <= Y f;
}.

Lemma ss_ext s M objs Y Y' : (forall f, Y' f = Y f) -> so_sys s M objs Y -> so_sys s M objs Y'.
Proof.
  intros HY [Hv Ho Hb Hh]. constructor; try done; [|intros f; by rewrite HY].
  eapply vm_inv_ext; [|exact Hv]. intros f. cbn. by rewrite HY.
Qed.

(** A change of an object that leaves its pages alone. *)
Lemma ss_same s M objs Y x o o' : so_sys s M objs Y -> objs !! x = Some o -> live_pages o' = live_pages o -> obj_ok x o' ->
  so_sys s M (<[x := o']> objs) Y.
Proof.
  intros [Hv Ho Hb Hh] Hx He Hok. constructor; try done.
  - eapply vm_inv_ext; [|exact Hv]. intros f. cbn. by rewrite (orefs_same objs x o o' f Hx He).
  - intros y q [[<- <-]|[_ Hq]]%lookup_insert_Some; [done|by apply Ho].
Qed.

Lemma ss_take s M objs Y f : so_sys s M objs Y -> bounded M -> fr_ram f -> 0 < orefs objs f + Y f ->
  exists n s', M !! f = Some n /\ ref_inc s f = Some s' /\ ram s' = ram s /\ so_sys s' (<[f := n + 1]> M) objs (bump1 f 1 Y).
Proof.
  intros [Hv Ho Hb Hh] Hbd Hf HX. destruct (take_hold _ _ _ _ _ _ _ _ Hv Hbd Hf HX) as (n & s' & Hn & Hrun & Hram & Hi).
  exists n, s'. split_and!; [done..|]. constructor; try done.
  - eapply vm_inv_ext; [|exact Hi]. intros g. unfold bump1. destruct (g =? f); lia.
  - intros g. specialize (Hh g). unfold bump1. destruct (g =? f); lia.
Qed.

Lemma live_get o i p : so_pages o !! Z.to_nat i = Some p -> 0 <= i < so_npages o -> p ∈ live_pages o.
Proof. intros Hp Hi. apply (list_elem_of_lookup_2 _ (Z.to_nat i)). unfold live_pages. rewrite lookup_take_lt by lia. done. Qed.

(** ** A page of an object *)

Lemma get_page_spec (w : shmw A) M Y x o idx :
  so_sys (sw_m w) M (sw_objs w) Y -> sw_objs w !! x = Some o -> 0 <= idx -> bnd 4 M ->
  exists w' f, shmem_get_page w x idx = Some (w', f) /\ sw_ns w' = sw_ns w /\ sw_rcu w' = sw_rcu w /\
    (forall g, is_Some (M !! g) \/ ~ fr_ram g -> ram (sw_m w') !! g = ram (sw_m w) !! g) /\
    ((f = PMM_INVALID_ADDR /\ sw_objs w' = sw_objs w /\ so_sys (sw_m w') M (sw_objs w') Y) \/
     (idx < so_npages o /\ fr_ram f /\
      exists M', bnd 2 M' /\ so_sys (sw_m w') M' (sw_objs w') (bump1 f 1 Y) /\ (forall g, is_Some (M !! g) -> is_Some (M' !! g)) /\
        ((so_pages o !! Z.to_nat idx = Some f /\ sw_objs w' = sw_objs w) \/
         (so_pages o !! Z.to_nat idx = Some 0 /\ M !! f = None /\ ram (sw_m w') !! f = Some ∅ /\
          sw_objs w' = <[x := with_pages (<[Z.to_nat idx := f]> (so_pages o)) (so_npages o) o]> (sw_objs w))))).
Proof.
  intros Hs Hx Hidx Hb. pose proof (ss_objs _ _ _ _ Hs x o Hx) as [K1 K2 K3 K4 K5]. unfold shmem_get_page.
  destruct (Z.eqb_spec x NULL) as [|_]; [done|]. rewrite Hx. cbn [mbind option_bind].
  destruct (Z.leb_spec (so_npages o) idx) as [Hle|Hlt]; [eexists w, _; split_and!; try done; by left|].
  destruct (lookup_lt_is_Some_2 (so_pages o) (Z.to_nat idx)) as [p Hp]; [unfold so_max_pages in K2; lia|]. rewrite Hp. cbn [mbind option_bind].
  destruct (Z.eqb_spec p 0) as [->|Hp0]; cbn [negb].
  - destruct (frame_alloc_spec _ _ _ _ _ _ _ (ss_vm _ _ _ _ Hs)) as (s1 & r & -> & Hram & Hr). cbn [mbind option_bind].
    destruct r as [f|]; [|eexists _, _; split; [done|]; cbn; split_and!; try done; [intros g _; by rewrite Hram|left; split_and!; try done; by destruct Hs; constructor]].
    destruct Hr as (Hf & HM & HT & Hrep). pose proof (alloc_hold _ _ _ _ _ _ _ _ _ (ss_vm _ _ _ _ Hs) Hram Hf HM Hrep) as Hv1.
    rewrite zero_page_spec by (rewrite Hram; by apply (vi_ram _ _ _ _ _ _ _ (ss_vm _ _ _ _ Hs))). cbn [mbind option_bind].
    set (s2 := with_ram (<[f := ∅]> (ram s1)) s1). unfold upd_obj. cbn [with_vm sw_objs]. rewrite Hx. cbn [mbind option_bind].
    set (o' := with_pages (<[Z.to_nat idx := f]> (so_pages o)) (so_npages o) o). pose proof (fr_ram_pos f Hf) as Hf0.
    assert (Hocc : forall g, occ (live_pages o') g = occ (live_pages o) g + Z.b2z (f =? g)).
    { intros g. unfold live_pages, o'. cbn. rewrite take_insert_lt by lia. apply occ_set; [|done]. by rewrite lookup_take_lt by lia. }
    assert (Hs2 : so_sys s2 (<[f := 1]> M) (<[x := o']> (sw_objs w)) Y).
    { destruct Hs as [Hv Ho Hbk Hh]. constructor; try done.
      - eapply vm_inv_ext; [|eapply (inv_data _ _ s1 s2); [exact Hv1|done| |]].
        + intros g. rewrite (orefs_update _ x o o' g Hx), Hocc. unfold bump1. rewrite (Z.eqb_sym g f). destruct (f =? g); cbn; lia.
        + intros u Hu. cbn. destruct (decide (u = f)) as [->|Hn]; [rewrite lookup_insert_eq; by eexists|by rewrite lookup_insert_ne].
        + intros t Ht. cbn. rewrite lookup_insert_ne; [done|]. intros ->. rewrite HT in Ht. by destruct Ht.
      - intros y q [[<- <-]|[_ Hq]]%lookup_insert_Some; [|by apply Ho]. constructor; try done; unfold so_max_pages; cbn; rewrite ?length_insert; try done.
        intros p Hpl Hpn. unfold live_pages, o' in Hpl. cbn in Hpl. rewrite take_insert_lt in Hpl by lia.
        apply list_elem_of_lookup_1 in Hpl as [j Hj]. apply list_lookup_insert_Some in Hj as [(<- & <- & _)|[_ Hj]]; [done|].
        apply K4; [by eapply list_elem_of_lookup_2|done]. }
    destruct (ss_take s2 _ _ Y f Hs2) as (n & s3 & Hn & -> & Hram3 & Hs3); [eapply (bnd_bounded 4); [lia|]; by apply bnd_new|done| |].
    { assert (1 <= orefs (<[x := o']> (sw_objs w)) f); [|pose proof (ss_hold _ _ _ _ Hs f); pose proof (proj1 (ss_backed _ _ _ _ Hs) f); lia].
      rewrite (orefs_update _ x o o' f Hx), Hocc, Z.eqb_refl. pose proof (orefs_nonneg (sw_objs w) f). cbn [Z.b2z]. lia. }
    cbn [mbind option_bind]. eexists _, f. split; [done|]. cbn [with_vm sw_ns sw_rcu sw_m sw_objs with_objs]. split_and!; try done.
    { intros g Hg. rewrite Hram3. cbn. rewrite Hram, lookup_insert_ne; [done|]. intros <-. destruct Hg as [[? ?]|?]; [congruence|done]. }
    right. split; [done|]. split; [done|]. eexists. split; [|split; [exact Hs3|]].
    { apply bnd_inc; [done|]. apply bnd_new; [lia|]. eapply bnd_le; [|exact Hb]. lia. }
    split; [|right; split_and!; try done; rewrite Hram3; cbn; apply lookup_insert_eq].
    intros g Hg. destruct (decide (g = f)) as [->|Hn']; [rewrite lookup_insert_eq; by eexists|by rewrite !lookup_insert_ne].
  - assert (Hin : p ∈ live_pages o) by (eapply live_get; [exact Hp|lia]). pose proof (K4 p Hin Hp0) as Hr.
    destruct (ss_take _ _ _ Y p Hs) as (n & s1 & Hn & -> & Hram & Hs1); [eapply (bnd_bounded 4); [lia|done]|done| |].
    { pose proof (orefs_pos _ x o p Hx Hin Hp0). pose proof (ss_hold _ _ _ _ Hs p). pose proof (proj1 (ss_backed _ _ _ _ Hs) p). lia. }
    cbn [mbind option_bind]. eexists _, p. split; [done|]. cbn [with_vm sw_ns sw_rcu sw_m sw_objs]. split_and!; try done; [intros g _; by rewrite Hram|].
    right. split; [done|]. split; [done|]. eexists. split; [|split; [exact Hs1|split; [|by left]]].
    + apply bnd_inc; [done|]. eapply bnd_le; [|exact Hb]. lia.
    + intros g Hg. destruct (decide (g = p)) as [->|Hn']; [rewrite lookup_insert_eq; by eexists|by rewrite lookup_insert_ne].
Qed.

(** ** Giving pages back *)

Lemma drop_pages_spec l : forall s M Y,
  vm_inv kroot kwin s M T P (fun f => occ l f + Y f) -> (forall p, p ∈ l -> p <> 0 -> fr_ram p) -> backed P D -> (forall f, D f <= Y f) ->
  exists s' M', drop_pages s l = Some s' /\ ram s' = ram s /\ vm_inv kroot kwin s' M' T P Y.
Proof.
  induction l as [|p l IH]; intros s M Y Hv Hr Hb HY; cbn [drop_pages].
  { by exists s, M. }
  destruct (Z.eqb_spec p 0) as [->|Hp]; cbn [mbind option_bind].
  - apply (IH s M Y); [|intros q Hq; apply Hr; by right|done|done]. eapply vm_inv_ext; [|exact Hv]. intros f. cbn beta. rewrite occ_cons. cbn [Z.eqb negb]. by rewrite andb_false_r.
  - assert (Hpr : fr_ram p) by (apply Hr; [by left|done]).
    assert (Ho : forall f, occ (p :: l) f = Z.b2z (p =? f) + occ l f).
    { intros f. rewrite occ_cons. destruct (Z.eqb_spec p 0); [done|]. by rewrite andb_true_r. }
    destruct (drop_hold _ _ _ _ _ _ _ D p Hv Hb Hpr) as (s1 & -> & Hram & Hv1).
    { rewrite Ho, Z.eqb_refl. pose proof (occ_nonneg l p). specialize (HY p). cbn. lia. }
    cbn [mbind option_bind]. destruct (IH s1 (drop_ref M p) Y) as (s' & M' & Hrun & Hram' & Hv'); [|intros q Hq; apply Hr; by right|done|done|].
    { eapply vm_inv_ext; [|exact Hv1]. intros f. unfold bump1. rewrite Ho, (Z.eqb_sym p f). destruct (f =? p); cbn; lia. }
    exists s', M'. split_and!; [done|congruence|done].
Qed.

(** The object goes, and with it its references. *)
Lemma free_rcu_spec (w : shmw A) M Y x o : so_sys (sw_m w) M (sw_objs w) Y -> sw_objs w !! x = Some o ->
  exists w' M', shmem_free_rcu w x = Some w' /\ sw_objs w' = delete x (sw_objs w) /\ sw_ns w' = sw_ns w /\ sw_rcu w' = sw_rcu w /\
    ram (sw_m w') = ram (sw_m w) /\ so_sys (sw_m w') M' (sw_objs w') Y.
Proof.
  intros [Hv Ho Hb Hh] Hx. pose proof (Ho x o Hx) as [K1 K2 K3 K4 K5]. unfold shmem_free_rcu. rewrite Hx. cbn [mbind option_bind].
  destruct (Z.ltb_spec (so_max_pages o) (so_npages o)); [lia|].
  destruct (drop_pages_spec (live_pages o) (sw_m w) M (fun f => orefs (delete x (sw_objs w)) f + Y f)) as (s' & M' & Hrun & Hram & Hv'); [|done|done| |].
  { eapply vm_inv_ext; [|exact Hv]. intros f. cbn. rewrite (orefs_delete _ x o f Hx). lia. }
  { intros f. pose proof (orefs_nonneg (delete x (sw_objs w)) f). specialize (Hh f). lia. }
  unfold live_pages in Hrun. rewrite Hrun. cbn [mbind option_bind]. eexists _, M'. split; [done|]. cbn. split_and!; try done. constructor; try done.
  intros y q [_ Hq]%lookup_delete_Some. by apply Ho.
Qed.

(** ** Size *)

Lemma grow_cap_spec fuel : forall cap n, 1 <= cap -> n <= SHMEM_MAX_PAGES -> n <= cap * 2 ^ Z.of_nat fuel ->
  exists c, grow_cap fuel cap n = Some c /\ n <= c /\ cap <= c.
Proof.
  induction fuel as [|fuel IH]; intros cap n Hc Hn Hf; cbn [grow_cap]; destruct (Z.leb_spec n cap); try (exists cap; split_and!; (done || lia)).
  destruct (Z.eqb_spec cap 0); [lia|]. rewrite u32_id by lia.
  destruct (IH (cap * 2) n) as (c & -> & Hc1 & Hc2); [lia|done| |exists c; split_and!; (done || lia)].
  rewrite Nat2Z.inj_succ, Z.pow_succ_r in Hf by lia. lia.
Qed.

Lemma clear_slots_spec l from to : 0 <= from -> from <= to -> to <= Z.of_nat (length l) ->
  exists l', clear_slots l from to = Some l' /\ length l' = length l /\
    l' = take (Z.to_nat from) l ++ replicate (Z.to_nat (to - from)) 0 ++ drop (Z.to_nat to) l.
Proof.
  intros H1 H2 H3. unfold clear_slots. destruct (Z.leb_spec to from).
  - exists l. assert (to = from) as -> by lia. rewrite Z.sub_diag. change (Z.to_nat 0) with 0%nat. cbn [replicate app]. by rewrite take_drop.
  - destruct (Z.ltb_spec (Z.of_nat (length l)) to); [lia|]. eexists. split; [done|]. split; [|done].
    rewrite !length_app, length_take, length_replicate, length_drop. lia.
Qed.

(** The pages of a resized object. *)
Definition resized (o : shm) (n : Z) : list Z := take (Z.to_nat n) (live_pages o) ++ replicate (Z.to_nat (n - so_npages o)) 0.

Lemma live_length x o : obj_ok x o -> Z.of_nat (length (live_pages o)) = so_npages o.
Proof. intros [K1 K2 K3 K4 K5]. unfold live_pages, so_max_pages in *. rewrite length_take. lia. Qed.

Lemma occ_resized o n f : occ (resized o n) f = occ (take (Z.to_nat n) (live_pages o)) f.
Proof. unfold resized. rewrite occ_app, occ_zeros. lia. Qed.

Lemma occ_split l n f : occ l f = occ (take n l) f + occ (drop n l) f.
Proof. rewrite <- occ_app. by rewrite take_drop. Qed.

Lemma resized_ok x o n l : obj_ok x o -> 0 <= n <= Z.of_nat (length l) -> 1 <= Z.of_nat (length l) <= SHMEM_MAX_PAGES ->
  take (Z.to_nat n) l = resized o n -> obj_ok x (with_pages l n o).
Proof.
  intros [K1 K2 K3 K4 K5] Hn Hl He. constructor; try done. unfold live_pages. cbn. rewrite He. unfold resized.
  intros p [Hp|Hp]%elem_of_app Hp0; [|apply elem_of_replicate in Hp as [? _]; done]. apply K4; [|done]. rewrite <- (take_drop (Z.to_nat n)). apply elem_of_app. by left.
Qed.

Lemma resize_spec (w : shmw A) M Y x o n mem :
  so_sys (sw_m w) M (sw_objs w) Y -> sw_objs w !! x = Some o -> 0 <= n ->
  exists w' rc M', shmem_resize w mem x n = Some (w', rc) /\ sw_ns w' = sw_ns w /\ sw_rcu w' = sw_rcu w /\ ram (sw_m w') = ram (sw_m w) /\
    ((w' = w /\ M' = M /\ (rc = - EINVAL /\ SHMEM_MAX_PAGES < n \/ rc = - ENOMEM /\ mem = false /\ so_max_pages o < n)) \/
     (rc = 0 /\ exists l, live_pages (with_pages l n o) = resized o n /\ sw_objs w' = <[x := with_pages l n o]> (sw_objs w))) /\
    so_sys (sw_m w') M' (sw_objs w') Y.
Proof.
  intros Hs Hx Hn. pose proof (ss_objs _ _ _ _ Hs x o Hx) as Hok. pose proof Hok as [K1 K2 K3 K4 K5]. pose proof (live_length x o Hok) as Hlen.
  unfold shmem_resize. destruct (Z.eqb_spec x NULL) as [|_]; [done|]. destruct (Z.ltb_spec SHMEM_MAX_PAGES n) as [Hbig|Hsm].
  { eexists w, _, M. do 4 (split; [done|]). split; [left; split_and!; [done..|by left]|done]. }
  rewrite Hx. cbn [mbind option_bind]. destruct (Z.eqb_spec n (so_npages o)) as [->|Hne].
  { exists w, 0, M. do 4 (split; [done|]). split; [right; split; [done|]; exists (so_pages o)|done]. unfold resized.
    rewrite Z.sub_diag. change (Z.to_nat 0) with 0%nat. cbn [replicate]. rewrite app_nil_r, (take_ge (live_pages o)) by lia.
    replace (with_pages (so_pages o) (so_npages o) o) with o by by destruct o. by rewrite insert_id. }
  unfold so_max_pages in K2, K3. destruct (Z.ltb_spec n (so_npages o)) as [Hlt|Hge].
  - unfold so_max_pages. destruct (Z.ltb_spec (Z.of_nat (length (so_pages o))) (so_npages o)); [lia|].
    destruct (clear_slots_spec (so_pages o) n (so_npages o)) as (l & Hl & Hll & Hle); [lia..|].
    assert (Htake : take (Z.to_nat n) l = resized o n).
    { rewrite Hle. unfold resized, live_pages. rewrite take_app_le by (rewrite length_take; lia). rewrite !take_take.
      replace (Z.to_nat (n - so_npages o)) with 0%nat by lia. cbn. rewrite app_nil_r. f_equal. lia. }
    set (o' := with_pages l n o). assert (Ho' : obj_ok x o') by (apply resized_ok; [done|lia|lia|done]).
    destruct (drop_pages_spec (drop (Z.to_nat n) (live_pages o)) (sw_m w) M (fun f => orefs (<[x := o']> (sw_objs w)) f + Y f)) as (s' & M' & Hrun & Hram & Hv').
    { eapply vm_inv_ext; [|apply (ss_vm _ _ _ _ Hs)]. intros f. cbn. rewrite (orefs_update _ x o o' f Hx). change (live_pages o') with (take (Z.to_nat n) l).
      rewrite Htake, occ_resized, (occ_split (live_pages o) (Z.to_nat n) f). lia. }
    { intros p Hp. apply K4. rewrite <- (take_drop (Z.to_nat n)). apply elem_of_app. by right. }
    { apply Hs. }
    { intros f. pose proof (orefs_nonneg (<[x := o']> (sw_objs w)) f). pose proof (ss_hold _ _ _ _ Hs f). lia. }
    unfold live_pages in Hrun. rewrite Hrun. cbn [mbind option_bind]. rewrite Hl. cbn [mbind option_bind]. unfold upd_obj. cbn [sw_objs with_vm]. rewrite Hx.
    cbn [mbind option_bind]. eexists _, 0, M'. split; [done|]. cbn. do 3 (split; [done|]). split; [right; split; [done|]; by exists l|].
    constructor; [done|..|apply Hs|apply Hs]. intros y q [[<- <-]|[_ Hq]]%lookup_insert_Some; [done|by apply (ss_objs _ _ _ _ Hs)].
  - assert (Hgrow : forall l, take (Z.to_nat n) l = resized o n -> n <= Z.of_nat (length l) <= SHMEM_MAX_PAGES ->
      so_sys (sw_m w) M (<[x := with_pages l n o]> (sw_objs w)) Y).
    { intros l Hl Hll. destruct Hs as [Hv Ho Hb Hh]. constructor; try done.
      - eapply vm_inv_ext; [|exact Hv]. intros f. cbn. rewrite (orefs_update _ x o _ f Hx). change (live_pages (with_pages l n o)) with (take (Z.to_nat n) l).
        rewrite Hl, occ_resized, take_ge by lia. lia.
      - intros y q [[<- <-]|[_ Hq]]%lookup_insert_Some; [|by apply Ho]. apply resized_ok; [done|lia|lia|done]. }
    assert (Hres : resized o n = live_pages o ++ replicate (Z.to_nat (n - so_npages o)) 0) by (unfold resized; by rewrite take_ge by lia).
    unfold so_max_pages. destruct (Z.ltb_spec (Z.of_nat (length (so_pages o))) n) as [Hcap|Hcap].
    + destruct (grow_cap_spec 20 (Z.of_nat (length (so_pages o))) n) as (c & -> & Hc1 & Hc2); [lia|done|change (2 ^ Z.of_nat 20) with 1048576; lia|].
      cbn [mbind option_bind]. set (c' := if SHMEM_MAX_PAGES <? c then SHMEM_MAX_PAGES else c).
      assert (Hc' : n <= c' <= SHMEM_MAX_PAGES) by (unfold c'; destruct (Z.ltb_spec SHMEM_MAX_PAGES c); lia).
      destruct (Z.ltb_spec c' n); [lia|]. destruct mem; cbn [negb].
      2: { eexists w, _, M. do 4 (split; [done|]). split; [left; split_and!; [done..|by right]|done]. }
      destruct (Z.ltb_spec (Z.of_nat (length (so_pages o))) (so_npages o)); [lia|]. cbn [mbind option_bind]. unfold upd_obj. rewrite Hx. cbn [mbind option_bind].
      set (l := take (Z.to_nat (so_npages o)) (so_pages o) ++ replicate (Z.to_nat (c' - so_npages o)) 0).
      assert (Hl : take (Z.to_nat n) l = resized o n).
      { rewrite Hres. unfold l. rewrite take_app. fold (live_pages o). rewrite take_ge by lia. f_equal. rewrite take_replicate. f_equal. lia. }
      eexists _, 0, M. split; [done|]. cbn. do 3 (split; [done|]). split; [right; split; [done|]; by exists l|]. apply Hgrow; [done|].
      unfold l. rewrite length_app, length_take, length_replicate. lia.
    + destruct (clear_slots_spec (so_pages o) (so_npages o) n) as (l & -> & Hll & Hle); [lia..|]. cbn [mbind option_bind]. unfold upd_obj. rewrite Hx.
      cbn [mbind option_bind]. assert (Hl : take (Z.to_nat n) l = resized o n).
      { rewrite Hres, Hle. fold (live_pages o). rewrite app_assoc, take_app_le by (rewrite length_app, length_replicate; lia).
        apply take_ge. rewrite length_app, length_replicate. lia. }
      eexists _, 0, M. split; [done|]. cbn. do 3 (split; [done|]). split; [right; split; [done|]; by exists l|]. apply Hgrow; [done|]. lia.
Qed.
End shm.
