(* ===== verification/PageFaultSpec.v ===== *)
(** * Page faults: frames, entries and references

    The steps of the page-fault handler on the page tables: breaking a
    copy-on-write sharing, and installing the frame of a missing page. *)

From S2P Require Import Prelude Errno DList Buddy Cred UnixNs Vma Frames PageTable PageTableSpec PageTableOps PageClone Shmem Pcache PcacheSpec PcacheOps PageFault FilePage ShmemSpec.

Lemma page_base_page va : page_of (page_base va) = page_of va.
Proof.
  unfold page_of, page_base. f_equal. rewrite Z.shiftr_ldiff. change (Z.shiftr 4095 12) with 0. apply Z.ldiff_0_r.
Qed.

Lemma bits_lor e f m : bits (Z.lor e f) m = bits e m || bits f m.
Proof.
  unfold bits. rewrite Z.land_lor_distr_l. destruct (Z.eqb_spec (Z.land e m) 0) as [->|Hn]; cbn [negb orb]; [by rewrite Z.lor_0_l|].
  destruct (Z.eqb_spec (Z.lor (Z.land e m) (Z.land f m)) 0) as [Hz|]; [|done]. apply Z.lor_eq_0_iff in Hz as [? _]. done.
Qed.

(** The flags of an area in its entries. *)
Lemma pte_flags_ok vf : Z.land (mm_vma_pte_flags vf) PAGE_ADDR_MASK = 0 /\ bits (mm_vma_pte_flags vf) PAGE_PRESENT = true /\
  bits (mm_vma_pte_flags vf) PAGE_USER = true /\ bits (mm_vma_pte_flags vf) PAGE_WRITABLE = bits vf VMA_W /\
  bits (mm_vma_pte_flags vf) PAGE_NX = negb (bits vf VMA_X).
Proof.
  unfold mm_vma_pte_flags, bits. destruct (Z.land vf VMA_W =? 0), (Z.land vf VMA_X =? 0); cbn [negb]; by split_and!.
Qed.

Lemma frame_flag f m : frame_addr f -> Z.land PAGE_ADDR_MASK m = 0 -> bits f m = false.
Proof.
  intros Hf Hm. unfold bits. rewrite <- Hf, <- Z.land_assoc, Hm, Z.land_0_r. done.
Qed.

Section fault.
Context {A : Type} `{FrameLaws A} (kroot : Z) (kwin : Z -> bool).
Abbreviation inv := (vm_inv kroot kwin).

(** Pages in use that are not tables keep their contents. *)
Definition data_kept (s : machine A) (M : gmap Z Z) (T : gmap Z node) (s' : machine A) : Prop :=
  forall f, is_Some (M !! f) \/ ~ fr_ram f -> T !! f = None -> ram s' !! f = ram s !! f.

Lemma ram_data_kept s M T s' : ram_kept s M s' -> data_kept s M T s'.
Proof. intros Hk f Hf _. by apply Hk. Qed.

Lemma backed_set P D k x : backed P D -> l_ref x = true -> backed (<[k := x]> P) D.
Proof.
  intros [HD Hb] Hx. split; [done|]. intros j y [[_ <-]|[_ Hj]]%lookup_insert_Some Hy; [congruence|by apply (Hb j)].
Qed.

(** Entries that are backed, with more references than that. *)
Lemma leaves_backed s M T P X X' D k x :
  inv s M T P X -> backed P D -> (forall f, D f <= X' f) -> l_ref x = true -> fr_ram (addr x) -> leaves_ok T (<[k := x]> P) X'.
Proof.
  intros Hi [HD Hb] HX Hx Hr j y [[_ <-]|[_ Hj]]%lookup_insert_Some; [by rewrite Hx|].
  pose proof (vm_leaves _ _ _ _ _ _ _ Hi j y Hj) as Hy. destruct (l_ref y) eqn:E; [done|]. destruct Hy as [Hy _]. split; [done|].
  intros Hry. specialize (Hb j y Hj E Hry). specialize (HX (addr y)). lia.
Qed.

(** ** Copy on write *)

(** The entry after a broken sharing: writable, with the page's contents. *)
Definition cow_broken (s : machine A) (M : gmap Z Z) (x : leaf) (vf : Z) (s' : machine A) (M' : gmap Z Z) (x' : leaf) : Prop :=
  l_ref x' = true /\ M' !! addr x' = Some 1 /\ ram s' !! addr x' = ram s !! addr x /\
  ((addr x' = addr x /\ l_pte x' = Z.lor (l_pte x) PAGE_WRITABLE) \/
   (M !! addr x' = None /\ l_pte x' = Z.lor (addr x') (mm_vma_pte_flags vf))).

Lemma addr_lor_flag e m : Z.land m PAGE_ADDR_MASK = 0 -> Z.land (Z.lor e m) PAGE_ADDR_MASK = Z.land e PAGE_ADDR_MASK.
Proof. intros Hm. by rewrite Z.land_lor_distr_l, Hm, Z.lor_0_r. Qed.

Lemma addr_new f flags b : frame_addr f -> Z.land flags PAGE_ADDR_MASK = 0 -> addr (Leaf (Z.lor f flags) b) = f.
Proof. intros Hf Hm. unfold addr. cbn. by apply frame_addr_lor. Qed.

(** Replacing the frame behind an entry: the writer gives up a reference to the
    new frame and gets the one to the old. *)
Lemma swap_frame s M T P X D t r q i x x' nf :
  let k := (r, q * 512 + i) in
  inv s M T P (bump1 nf 1 X) -> backed P D -> (forall f, D f <= X f) -> T !! t = Some (Node r 0 q) -> 0 <= i < 512 ->
  P !! k = Some x -> l_ref x = true -> l_ref x' = true -> addr x' = nf -> fr_ram nf -> bits (l_pte x') PAGE_PRESENT = true ->
  exists s', write_word s t i (l_pte x') = Some s' /\ inv s' M T (<[k := x']> P) (bump1 (addr x) 1 X) /\ (forall u, u <> t -> ram s' !! u = ram s !! u).
Proof.
  intros k Hi Hb HX Ht Hr Hx Hl Hl' Ha Hn Hp.
  assert (Hw : forall f, bump1 (addr x) 1 X f = bump1 nf 1 X f + weight f (Some x) - weight f (Some x')).
  { intros f. unfold weight, from_option, counts, bump1. rewrite Hl, Hl', Ha. cbn [andb]. rewrite (Z.eqb_sym (addr x) f), (Z.eqb_sym nf f).
    destruct (f =? addr x), (f =? nf); cbn; lia. }
  assert (HX1 : forall f, D f <= bump1 (addr x) 1 X f) by (intros f; specialize (HX f); unfold bump1; destruct (f =? addr x); lia).
  apply (set_leaf _ _ s M T P (bump1 nf 1 X) t r q i (l_pte x') (<[k := x']> P)); [done|done|done| | | | |].
  - intros j Hj. by rewrite lookup_insert_ne.
  - right. exists true. fold k. rewrite lookup_insert_eq. split; [|done]. f_equal. destruct x'. cbn in *. by subst.
  - intros f. fold k. rewrite Hx, lookup_insert_eq. apply Hw.
  - intros f. specialize (HX1 f). pose proof (proj1 Hb f). lia.
  - eapply leaves_backed; [exact Hi|done|done|done|]. by rewrite Ha.
Qed.

(** The same frame, with other flags. *)
Lemma set_flags s M T P X t r q i x e :
  let k := (r, q * 512 + i) in
  inv s M T P X -> T !! t = Some (Node r 0 q) -> 0 <= i < 512 -> P !! k = Some x ->
  Z.land e PAGE_ADDR_MASK = addr x -> bits e PAGE_PRESENT = true ->
  exists s', write_word s t i e = Some s' /\ inv s' M T (<[k := Leaf e (l_ref x)]> P) X /\ (forall u, u <> t -> ram s' !! u = ram s !! u).
Proof.
  intros k Hi Ht Hr Hx Ha Hp. pose proof (vm_leaves _ _ _ _ _ _ _ Hi) as Hok.
  apply (set_leaf _ _ s M T P X t r q i e (<[k := Leaf e (l_ref x)]> P)); [done|done|done| | | | |].
  - intros j Hj. by rewrite lookup_insert_ne.
  - right. exists (l_ref x). fold k. by rewrite lookup_insert_eq.
  - intros f. fold k. rewrite Hx, lookup_insert_eq. unfold weight, from_option, counts, addr at 2. cbn [l_ref l_pte]. rewrite Ha. lia.
  - apply Hi.
  - intros j y [[_ <-]|[_ Hj]]%lookup_insert_Some; [|by apply (Hok j)]. specialize (Hok k x Hx). unfold addr. cbn [l_ref l_pte]. by rewrite Ha.
Qed.

Record cow_result (s : machine A) (M : gmap Z Z) (T : gmap Z node) (P : gmap (Z * Z) leaf) (X D : Z -> Z) (k : Z * Z) (vf : Z)
  (s' : machine A) (ok : bool) (M' : gmap Z Z) (P' : gmap (Z * Z) leaf) : Prop := {
  cr_inv : inv s' M' T P' X;
  cr_backed : backed P' D;
  cr_data : data_kept s M T s';
  cr_others j : j <> k -> P' !! j = P !! j;
  cr_entry : if ok then exists x x', P !! k = Some x /\ P' !! k = Some x' /\ bits (l_pte x') PAGE_WRITABLE = true /\
      (bits (l_pte x) PAGE_WRITABLE = true /\ x' = x /\ M' = M /\ ram s' = ram s \/
       bits (l_pte x) PAGE_WRITABLE = false /\ cow_broken s M x vf s' M' x')
    else M' = M /\ P' = P /\ ram s' = ram s;
}.

Lemma cow_break_spec s M T P X D r va vf :
  inv s M T P X -> backed P D -> (forall f, D f <= X f) -> in_space kroot kwin T r va ->
  (forall x, P !! (r, page_of va) = Some x -> l_ref x = true) -> bits vf VMA_W = true ->
  exists s' ok M' P', cow_break s r va vf = Some (s', ok) /\ cow_result s M T P X D (r, page_of va) vf s' ok M' P'.
Proof.
  intros Hi Hb HX Hin Hcnt Hvf. unfold cow_break. pose proof (vi_shape _ _ _ _ _ _ _ Hi) as Hs.
  destruct (pte_find _ _ s T P r va Hs Hin) as (o & -> & Ho). cbn [mbind option_bind].
  assert (Hstay : forall s', inv s' M T P X -> ram s' = ram s ->
    exists s1 ok M' P', Some (s', false) = Some (s1, ok) /\ cow_result s M T P X D (r, page_of va) vf s1 ok M' P').
  { intros s' Hi' Hr'. exists s', false, M, P. split; [done|]. constructor; try done. intros f _ _. by rewrite Hr'. }
  destruct o as [[t i]|]; [|by apply Hstay]. destruct Ho as (Ht & -> & Hm & He). rewrite read_entry, He by done. cbn [mbind option_bind].
  assert (Hv : page_of va = page_of va / 512 * 512 + page_of va mod 512) by (clear; mlia). destruct (P !! (r, page_of va)) as [x|] eqn:Ex; cbn [from_option]; [|rewrite bits_0; by apply Hstay].
  rewrite (leaf_present _ _ _ _ _ _ _ Hs Ex). cbn [negb]. destruct (bits (l_pte x) PAGE_WRITABLE) eqn:Ew.
  { exists s, true, M, P. split; [done|]. constructor; try done. exists x, x. split_and!; try done. by left. }
  pose proof (Hcnt x eq_refl) as Hl. fold (addr x). destruct (counted_held _ _ _ _ _ _ _ _ _ Hi Ex Hl) as [n Hn].
  pose proof (vi_counted _ _ _ _ _ _ _ Hi _ _ Ex Hl) as Hrx. pose proof (vi_rep _ _ _ _ _ _ _ Hi) as Hrep.
  rewrite (fr_get_ok _ _ _ _ Hrep Hn). cbn [mbind option_bind]. destruct (fr_held _ _ _ _ Hrep Hn) as [_ Hn1].
  assert (Hir : 0 <= page_of va mod 512 < 512) by mlia. pose proof (mapped_not_table _ _ _ _ _ _ _ _ _ Hi Ex) as HTx.
  destruct (Z.ltb_spec 1 n) as [Hgt|Hle].
  - destruct (frame_alloc_spec _ _ s M T P X Hi) as (s1 & o & -> & Hram & Ho). cbn [mbind option_bind].
    destruct o as [nf|]; [|by apply Hstay]. destruct Ho as (Hnf & HM & HT & Hrep1). destruct (fr_ram_addr nf Hnf) as [Hfa _].
    pose proof (alloc_hold _ _ s s1 M T P X nf Hi Hram Hnf HM Hrep1) as Hi1.
    destruct (vi_ram _ _ _ _ _ _ _ Hi (addr x) Hrx) as [p Hp]. assert (Hne : nf <> addr x) by congruence.
    rewrite (copy_page_spec s1 nf (addr x) p) by (rewrite Hram; done || by apply (vi_ram _ _ _ _ _ _ _ Hi)). cbn [mbind option_bind].
    set (s2 := with_ram _ s1). assert (Hi2 : inv s2 (<[nf := 1]> M) T P (bump1 nf 1 X)).
    { eapply inv_data; [exact Hi1|done| |].
      - intros u Hu. cbn. destruct (decide (u = nf)) as [->|]; [rewrite lookup_insert_eq; by eexists|by rewrite lookup_insert_ne].
      - intros u Hu. cbn. rewrite lookup_insert_ne; [done|]. intros ->. rewrite HT in Hu. by destruct Hu. }
    destruct (pte_flags_ok vf) as (F1 & F2 & F3 & F4 & F5). set (x' := Leaf (Z.lor nf (mm_vma_pte_flags vf)) true).
    assert (Ha' : addr x' = nf) by by apply addr_new.
    destruct (swap_frame s2 _ T P X D t r (page_of va / 512) (page_of va mod 512) x x' nf Hi2 Hb HX Ht Hir) as (s3 & Hw & Hi3 & Hk3); rewrite <- ?Hv; try done.
    { cbn [x' l_pte]. by rewrite bits_lor, F2, orb_true_r. }
    cbn [l_pte x'] in Hw. rewrite Hw. cbn [mbind option_bind]. rewrite <- Hv in Hi3.
    assert (HX3 : forall f, D f <= bump1 (addr x) 1 X f) by (intros f; specialize (HX f); unfold bump1; destruct (f =? addr x); lia).
    pose proof (backed_set P D (r, page_of va) x' Hb eq_refl) as Hb'.
    destruct (drop_hold _ _ s3 _ T _ _ D (addr x) Hi3 Hb' Hrx) as (s4 & -> & Hram4 & Hi4).
    { unfold bump1. rewrite Z.eqb_refl. specialize (HX (addr x)). lia. }
    cbn [mbind option_bind]. exists s4, true, (drop_ref (<[nf := 1]> M) (addr x)), (<[(r, page_of va) := x']> P).
    split; [done|].
    assert (Hdata : forall f, f <> nf -> f <> t -> ram s4 !! f = ram s !! f).
    { intros f Hf Hft. rewrite Hram4, Hk3 by done. cbn. by rewrite lookup_insert_ne, Hram. }
    assert (Hnt : nf <> t) by congruence.
    constructor; [eapply vm_inv_ext; [|exact Hi4]; intros f; apply bump_cancel|by apply backed_set| |intros k Hk; by rewrite lookup_insert_ne|].
    { intros f Hf HTf. apply Hdata; [|congruence]. intros ->. destruct Hf as [[? ?]|?]; [congruence|done]. }
    exists x, x'. rewrite lookup_insert_eq. split_and!; try done; [cbn [x' l_pte]; by rewrite bits_lor, F4, Hvf, orb_true_r|].
    right. split; [done|]. unfold cow_broken. rewrite Ha'. split_and!; try done.
    + unfold drop_ref. rewrite lookup_insert_ne, Hn by done. destruct (n =? 1); [rewrite lookup_delete_ne by done|rewrite lookup_insert_ne by done]; by rewrite lookup_insert_eq.
    + rewrite Hram4, Hk3 by done. cbn. by rewrite lookup_insert_eq, Hp.
    + right. split; [done|]. done.
  - assert (n = 1) as -> by lia. rewrite Z.eqb_refl.
    destruct (set_flags s M T P X t r (page_of va / 512) (page_of va mod 512) x (Z.lor (l_pte x) PAGE_WRITABLE) Hi Ht Hir) as (s1 & -> & Hi1 & Hk1); rewrite <- ?Hv; try done.
    { by apply addr_lor_flag. }
    { rewrite bits_lor. by rewrite (leaf_present _ _ _ _ _ _ _ Hs Ex). }
    cbn [mbind option_bind]. rewrite <- Hv, Hl in Hi1. eexists s1, true, M, _. split; [done|].
    constructor; [exact Hi1|by apply backed_set| |intros k Hk; by rewrite lookup_insert_ne|].
    { intros f Hf HTf. apply Hk1. congruence. }
    eexists x, _. rewrite lookup_insert_eq. split_and!; try done; [cbn [l_pte]; rewrite bits_lor; by rewrite orb_true_r|]. right. split; [done|].
    assert (Ha : addr (Leaf (Z.lor (l_pte x) PAGE_WRITABLE) true) = addr x) by by apply addr_lor_flag.
    unfold cow_broken. rewrite Ha. split_and!; try done; [|by left]. apply Hk1. congruence.
Qed.

(** ** A frame for a missing page *)

Lemma install_spec s M T P X D r va f flags :
  let x := Leaf (Z.lor f flags) true in
  inv s M T P (bump1 f 1 X) -> backed P D -> (forall g, D g <= X g) -> in_space kroot kwin T r va -> fr_ram f ->
  Z.land flags PAGE_ADDR_MASK = 0 -> bits flags PAGE_PRESENT = true ->
  exists s' res M' T', install s r va f flags = Some (s', res) /\ grown (fun n => n_root n = r) s M T s' M' T' /\
    match res with
    | Installed => P !! (r, page_of va) = None /\ inv s' M' T' (<[(r, page_of va) := x]> P) X /\ backed (<[(r, page_of va) := x]> P) D
    | LostRace => is_Some (P !! (r, page_of va)) /\ s' = s /\ M' = M /\ T' = T
    | MapFail => P !! (r, page_of va) = None /\ inv s' M' T' P (bump1 f 1 X)
    end.
Proof.
  intros x Hi Hb HX Hin Hf Hfl Hpr. pose proof (vi_shape _ _ _ _ _ _ _ Hi) as Hs. unfold install.
  rewrite (page_phys_spec _ _ s T P r va Hs Hin). cbn [mbind option_bind]. destruct (fr_ram_addr f Hf) as [Hfa _].
  destruct (P !! (r, page_of va)) as [y|] eqn:E; cbn [from_option].
  { destruct (Z.eqb_spec (addr y) PMM_INVALID_ADDR) as [Hbad|_].
    - exfalso. unfold addr in Hbad. assert (Hk : Z.testbit PMM_INVALID_ADDR 0 = true) by done. rewrite <- Hbad, Z.land_spec in Hk.
      change (Z.testbit PAGE_ADDR_MASK 0) with false in Hk. by rewrite andb_false_r in Hk.
    - cbn [negb]. exists s, LostRace, M, T. split; [done|]. split; [by apply grown_refl|]. split; [by exists y|done]. }
  rewrite Z.eqb_refl. cbn [negb].
  assert (HX' : forall g, bump1 f 1 X g + weight g None - Z.b2z (counts g x) = X g).
  { intros g. assert (Ha : addr x = f) by by apply addr_new. unfold counts. rewrite Ha. cbn [l_ref x andb weight from_option]. unfold bump1.
    rewrite (Z.eqb_sym f g). destruct (g =? f); cbn; lia. }
  destruct (page_map_spec _ _ s M T P (bump1 f 1 X) r va f flags true Hi Hin Hfa Hfl Hpr) as (s' & ok & M' & T' & -> & Hg & Hres).
  { intros g. rewrite E. fold x. rewrite HX'. pose proof (HX g). pose proof (proj1 Hb g). lia. }
  { fold x. rewrite E. eapply leaves_backed; [exact Hi|done| |done|unfold x; by rewrite addr_new]. intros g. by rewrite HX'. }
  cbn [mbind option_bind]. rewrite E in Hres. fold x in Hres. destruct ok; [exists s', Installed, M', T'|by exists s', MapFail, M', T'].
  split; [done|]. split; [done|]. split; [done|]. split; [|by apply backed_set]. eapply vm_inv_ext; [|exact Hres]. intros g. symmetry. apply HX'.
Qed.
End fault.
