(* ===== verification/FaultHandler.v ===== *)
(** * The page-fault handler

    The whole handler on the state of machine, shared memory objects and page
    cache: it never fails, it keeps every reference accounted for, it changes
    no page in use and no other mapping, and a fault it resolves leaves the
    right page behind, mapped with the rights of its area. *)

From S2P Require Import Prelude Errno DList Buddy Cred UnixNs Vma Frames PageTable PageTableSpec PageTableOps PageClone Shmem Pcache PcacheSpec PcacheOps PageFault FilePage ShmemSpec PageFaultSpec.

Section handler.
Context {A : Type} `{FrameLaws A} (kroot : Z) (kwin : Z -> bool) (free_pages_get : A -> Z).
Context (file_ino : Z -> Z) (file_live : Z -> bool) (pread : Z -> Z -> Z -> Z * page).
Context (D : Z -> Z).
Implicit Types (w : kworld A) (M : gmap Z Z) (T : gmap Z node) (P : gmap (Z * Z) leaf) (Y : Z -> Z).

Abbreviation objs w := (sw_objs (k_shm w)).

(** [Y]: the references of drivers and running functions. *)
Record kinv w M T P (l : list Z) Y : Prop := {
  ki_vm : vm_inv kroot kwin (k_vm w) M T P (fun f => crefs (pc_entries (k_pc w)) f + orefs (objs w) f + Y f);
  ki_pc : pc_inv (k_pc w) l;
  ki_ram x e : pc_entries (k_pc w) !! x = Some e -> fr_ram (pe_frame e);
  ki_objs x o : objs w !! x = Some o -> obj_ok x o;
  ki_backed : backed P D;
  ki_hold f : D f <= Y f;
}.

Lemma kinv_pc w M T P l Y : kinv w M T P l Y -> pc_sys kroot kwin T P D (k_vm w) M (k_pc w) l (fun f => orefs (objs w) f + Y f).
Proof.
  intros [Hv Hp Hr Ho Hb Hh]. constructor; try done.
  - eapply vm_inv_ext; [|exact Hv]. intros f. cbn. lia.
  - intros f. pose proof (orefs_nonneg (objs w) f). specialize (Hh f). lia.
Qed.

Lemma kinv_of_pc w M T P l Y Z s c M' l' :
  kinv w M T P l Y -> pc_sys kroot kwin T P D s M' c l' Z -> (forall f, D f + orefs (objs w) f <= Z f) ->
  kinv (set_pc c (set_vm s w)) M' T P l' (fun f => Z f - orefs (objs w) f).
Proof.
  intros [Hv Hp Hr Ho Hb Hh] [Hv' Hp' Hr' Hb' Hh'] HZ. constructor; try done.
  - eapply vm_inv_ext; [|exact Hv']. intros f. cbn. lia.
  - intros f. specialize (HZ f). lia.
Qed.

Lemma kinv_shm w M T P l Y : kinv w M T P l Y -> so_sys kroot kwin T P D (k_vm w) M (objs w) (fun f => crefs (pc_entries (k_pc w)) f + Y f).
Proof.
  intros [Hv Hp Hr Ho Hb Hh]. constructor; try done.
  - eapply vm_inv_ext; [|exact Hv]. intros f. cbn. lia.
  - intros f. pose proof (crefs_nonneg (pc_entries (k_pc w)) f). specialize (Hh f). lia.
Qed.

Lemma kinv_of_shm w M T P l Y Y' (x : shmw A) M' :
  kinv w M T P l Y -> so_sys kroot kwin T P D (sw_m x) M' (sw_objs x) (fun f => crefs (pc_entries (k_pc w)) f + Y' f) -> (forall f, D f <= Y' f) ->
  kinv (set_shm x w) M' T P l Y'.
Proof.
  intros [Hv Hp Hr Ho Hb Hh] [Hv' Ho' Hb' Hh'] HY. constructor; try done.
  eapply vm_inv_ext; [|exact Hv']. intros f. cbn. lia.
Qed.

Lemma kinv_ext w M T P l Y Y' : (forall f, Y' f = Y f) -> kinv w M T P l Y -> kinv w M T P l Y'.
Proof.
  intros HY [Hv Hp Hr Ho Hb Hh]. constructor; try done; [|intros f; by rewrite HY].
  eapply vm_inv_ext; [|exact Hv]. intros f. cbn. by rewrite HY.
Qed.

(** Page tables and entries change, nothing else does. *)
Lemma kinv_tables w M T P l Y s M' T' P' Y' :
  kinv w M T P l Y -> vm_inv kroot kwin s M' T' P' (fun f => crefs (pc_entries (k_pc w)) f + orefs (objs w) f + Y' f) -> backed P' D ->
  (forall f, D f <= Y' f) -> kinv (set_vm s w) M' T' P' l Y'.
Proof. intros [Hv Hp Hr Ho Hb Hh] Hv' Hb' HY. by constructor. Qed.

(** ** References to objects *)

Lemma ref_ok x o n : obj_ok x o -> 0 <= n < 2 ^ 32 -> obj_ok x (with_ref n o).
Proof. intros [] Hn. by constructor. Qed.

Lemma kinv_ref w M T P l Y x o n : kinv w M T P l Y -> objs w !! x = Some o -> 0 <= n < 2 ^ 32 ->
  kinv (set_shm (with_objs (<[x := with_ref n o]> (objs w)) (k_shm w)) w) M T P l Y.
Proof.
  intros Hk Hx Hn. eapply kinv_of_shm; [exact Hk| |apply Hk]. cbn.
  apply (ss_same _ _ T P D _ _ _ _ x o); [by eapply kinv_shm|done|done|]. apply ref_ok; [by apply (ki_objs _ _ _ _ _ _ Hk)|done].
Qed.

Lemma tryget_live w M T P l Y x o : kinv w M T P l Y -> objs w !! x = Some o -> 1 <= so_refcount o < 2 ^ 32 - 1 ->
  shmem_tryget (k_shm w) x = Some (with_objs (<[x := with_ref (so_refcount o + 1) o]> (objs w)) (k_shm w), true).
Proof.
  intros Hk Hx Hr. unfold shmem_tryget, upd_obj. pose proof (ok_addr _ _ (ki_objs _ _ _ _ _ _ Hk x o Hx)).
  destruct (Z.eqb_spec x NULL); [done|]. rewrite Hx. cbn [mbind option_bind]. destruct (Z.eqb_spec (so_refcount o) 0); [lia|].
  cbn [mbind option_bind]. by rewrite u32_id by lia.
Qed.

Lemma release_live w M T P l Y mt x o : kinv w M T P l Y -> objs w !! x = Some o -> 2 <= so_refcount o ->
  release_shm w mt x = Some (set_shm (with_objs (<[x := with_ref (so_refcount o - 1) o]> (objs w)) (k_shm w)) w).
Proof.
  intros Hk Hx Hr. pose proof (ki_objs _ _ _ _ _ _ Hk x o Hx) as [K1 K2 K3 K4 K5]. unfold release_shm, shmem_unref, upd_obj.
  destruct (Z.eqb_spec x NULL); [done|]. rewrite Hx. cbn [mbind option_bind]. destruct (Z.eqb_spec (so_refcount o) 1); [lia|]. cbn [negb].
  by rewrite u32_id by lia.
Qed.

Lemma release_none w mt : release_shm w mt NULL = Some w.
Proof. unfold release_shm, shmem_unref. cbn. by destruct w. Qed.

(** ** The backing page *)

(** Where the frame of a missing page comes from. *)
Definition backing_content (v : vma) (file shm page : Z) w M (f : Z) w' M' : Prop :=
  if negb (file =? 0) then
    (exists p, ram (k_vm w') !! f = Some p /\ file_content file_ino pread (k_vm w) (k_pc w) file (v_off v) (v_len v) (u64 (page - v_start v)) p) /\
    (bits (v_flags v) VMA_W = true -> M !! f = None /\ M' !! f = Some 1)
  else if negb (shm =? NULL) then
    exists o, objs w !! shm = Some o /\
      let idx := u32 (u32 (u64 (page - v_start v) / 4096) + v_pgoff v) in
      idx < so_npages o /\
      (so_pages o !! Z.to_nat idx = Some f \/ so_pages o !! Z.to_nat idx = Some 0 /\ M !! f = None /\ ram (k_vm w') !! f = Some ∅)
  else M !! f = None /\ M' !! f = Some 1 /\ ram (k_vm w') !! f = Some ∅.

(** Objects keep everything but may have got a page. *)
Definition objs_more (m m' : gmap Z shm) : Prop := forall x,
  match m !! x with
  | None => m' !! x = None
  | Some o => exists l, m' !! x = Some (with_pages l (so_npages o) o) /\ forall i p, so_pages o !! i = Some p -> p <> 0 -> l !! i = Some p
  end.

Lemma with_pages_id o : with_pages (so_pages o) (so_npages o) o = o.
Proof. by destruct o. Qed.

Lemma objs_more_refl m : objs_more m m.
Proof. intros x. destruct (m !! x) as [o|]; [|done]. exists (so_pages o). by rewrite with_pages_id. Qed.

Lemma objs_more_page m x o i f : m !! x = Some o -> so_pages o !! i = Some 0 ->
  objs_more m (<[x := with_pages (<[i := f]> (so_pages o)) (so_npages o) o]> m).
Proof.
  intros Hx Hi y. destruct (decide (y = x)) as [->|Hy].
  - rewrite Hx, lookup_insert_eq. eexists. split; [done|]. intros j p Hj Hp. rewrite list_lookup_insert_ne; [done|]. congruence.
  - rewrite lookup_insert_ne by done. apply objs_more_refl.
Qed.

Record got_page w M T P (l : list Z) Y (v : vma) (file shm page : Z) w' (g : got) M' (l' : list Z) Y' : Prop := {
  gp_inv : kinv w' M' T P l' (match g with Got f => bump1 f 1 Y' | _ => Y' end);
  gp_hold f : Y f <= Y' f;
  gp_exact : file = 0 -> forall f, Y' f = Y f;
  gp_data : ram_kept (k_vm w) M (k_vm w');
  gp_bnd : bnd 2 M';
  gp_objs : objs_more (objs w) (objs w');
  gp_held f : is_Some (M !! f) -> is_Some (M' !! f);
  gp_read : g = ReadError -> file <> 0;
  gp_got f : g = Got f -> fr_ram f /\ backing_content v file shm page w M f w' M';
}.

Lemma backing_page_spec w mem v file shm page M T P l Y :
  kinv w M T P l Y -> bnd 16 M -> (file <> 0 -> cache_room mem (k_pc w) l (v_off v) (u64 (page - v_start v))) ->
  (shm <> NULL -> is_Some (objs w !! shm)) ->
  exists w' g M' l' Y', backing_page free_pages_get file_ino pread w mem v file shm page = Some (w', g) /\
    got_page w M T P l Y v file shm page w' g M' l' Y' /\ sw_ns (k_shm w') = sw_ns (k_shm w) /\ sw_rcu (k_shm w') = sw_rcu (k_shm w).
Proof.
  intros Hk Hb Hroom Hshm. unfold backing_page. pose proof (kinv_pc _ _ _ _ _ _ Hk) as Hpc.
  assert (HDY : forall g, D g <= orefs (objs w) g + Y g) by apply Hpc.
  destruct (Z.eqb_spec file 0) as [->|Hfile]; cbn [negb].
  - destruct (Z.eqb_spec shm NULL) as [->|Hs]; cbn [negb].
    + destruct (anon_page_spec kroot kwin T P D _ _ _ _ _ Hpc HDY) as (s' & g & -> & Hram & Hg); [eapply bnd_le; [|exact Hb]; lia|].
      cbn [mbind option_bind]. set (w' := set_vm s' w).
      assert (Hex : forall M' Z, pc_sys kroot kwin T P D s' M' (k_pc w) l Z -> (forall f, D f + orefs (objs w) f <= Z f) ->
        kinv w' M' T P l (fun f => Z f - orefs (objs w) f)).
      { intros M' Z Hz HZ. exact (kinv_of_pc w M T P l Y Z s' (k_pc w) M' l Hk Hz HZ). }
      destruct g as [f| |]; [| |done].
      * destruct Hg as (Hf & HM & Hr & Hsys). exists w', (Got f), (<[f := 1]> M), l, Y. split; [done|]. split; [|done]. constructor; try done.
        -- eapply kinv_ext; [|apply (Hex _ _ Hsys)].
           ++ intros g. unfold bump1. destruct (g =? f); lia.
           ++ intros g. pose proof (ki_hold _ _ _ _ _ _ Hk g). unfold bump1. destruct (g =? f); lia.
        -- apply bnd_new; [lia|]. eapply bnd_le; [|exact Hb]. lia.
        -- apply objs_more_refl.
        -- intros g Hg. destruct (decide (g = f)) as [->|]; [rewrite lookup_insert_eq; by eexists|by rewrite lookup_insert_ne].
        -- intros g [= <-]. split; [done|]. unfold backing_content. cbn. split_and!; [done|apply lookup_insert_eq|done].
      * exists w', NoMemory, M, l, Y. split; [done|]. split; [|done]. constructor; try done.
        -- eapply kinv_ext; [|apply (Hex _ _ Hg)]; [intros g; cbn; lia|]. intros g. cbn. pose proof (ki_hold _ _ _ _ _ _ Hk g). lia.
        -- eapply bnd_le; [|exact Hb]. lia.
        -- apply objs_more_refl.
    + destruct (Hshm Hs) as [o Ho]. set (idx := u32 (u32 (u64 (page - v_start v) / 4096) + v_pgoff v)).
      destruct (get_page_spec kroot kwin T P D (k_shm w) M _ shm o idx (kinv_shm _ _ _ _ _ _ Hk) Ho) as (x & f & -> & Hns & Hrcu & Hram & Hres);
        [apply u32_range|eapply bnd_le; [|exact Hb]; lia|].
      cbn [mbind option_bind]. destruct Hres as [(-> & Hobj & Hsys)|(Hidx & Hf & M' & HbM & Hsys & Hheld & Hcase)].
      * rewrite Z.eqb_refl. eexists (set_shm x w), NoMemory, M, l, Y. split; [done|]. split; [|done]. constructor; try done.
        -- eapply kinv_of_shm; [exact Hk|exact Hsys|apply Hk].
        -- eapply bnd_le; [|exact Hb]. lia.
        -- cbn. rewrite Hobj. apply objs_more_refl.
      * destruct (fr_ram_addr f Hf) as [_ Hinv]. destruct (Z.eqb_spec f PMM_INVALID_ADDR) as [|_]; [done|].
        eexists (set_shm x w), (Got f), M', l, Y. split; [done|]. split; [|done]. constructor; try done.
        -- eapply kinv_of_shm; [exact Hk| |].
           ++ eapply ss_ext; [|exact Hsys]. intros g. unfold bump1. destruct (g =? f); lia.
           ++ intros g. pose proof (ki_hold _ _ _ _ _ _ Hk g). unfold bump1. destruct (g =? f); lia.
        -- destruct Hcase as [[_ Hobj]|(Hz & _ & _ & Hobj)]; cbn; rewrite Hobj; [apply objs_more_refl|by apply objs_more_page].
        -- intros g [= <-]. split; [done|]. unfold backing_content. cbn. destruct (Z.eqb_spec shm NULL); [done|]. cbn [negb].
           exists o. split; [done|]. split; [done|]. destruct Hcase as [[? _]|(? & ? & ? & _)]; [by left|by right].
  - destruct (file_page_spec kroot kwin free_pages_get file_ino pread T P D file (v_off v) (v_len v) mem (v_flags v) (u64 (page - v_start v)) _ _ _ _ _ Hpc HDY Hb (Hroom Hfile))
      as (s' & c' & g & -> & M' & l' & Z & Hg & HZ & Hm & Hram & HbM).
    cbn [mbind option_bind fst snd]. set (w' := set_pc c' (set_vm s' w)).
    assert (HDZ : forall f, D f + orefs (objs w) f <= Z f) by (intros f; specialize (HZ f); pose proof (ki_hold _ _ _ _ _ _ Hk f); lia).
    assert (Hex : forall Z', pc_sys kroot kwin T P D s' M' c' l' Z' -> (forall f, Z f <= Z' f) -> kinv w' M' T P l' (fun f => Z' f - orefs (objs w) f)).
    { intros Z' Hz HZ'. apply (kinv_of_pc w M T P l Y Z' s' c' M' l' Hk Hz). intros f. specialize (HDZ f). specialize (HZ' f). lia. }
    assert (Hgp : forall W, kinv w' M' T P l' W -> forall f, is_Some (M !! f) -> (forall f, Y f <= W f) -> is_Some (M' !! f)).
    { intros W Hw f Hf HW. apply (held_mono kroot kwin T P D _ _ _ _ _ _ _ _ _ _ f Hpc (kinv_pc _ _ _ _ _ _ Hw) Hm); [|done].
      intros h. specialize (HW h). cbn. lia. }
    assert (HYZ : forall f, Y f <= Z f - orefs (objs w) f) by (intros f; specialize (HZ f); lia).
    assert (Hkg : kinv w' M' T P l' (match g with Got f => bump1 f 1 (fun f => Z f - orefs (objs w) f) | _ => fun f => Z f - orefs (objs w) f end)).
    { destruct g as [f| |].
      - destruct Hg as (Hf & Hsys & _). eapply kinv_ext; [|apply (Hex _ Hsys)]; intros g; unfold bump1; destruct (g =? f); lia.
      - by apply (Hex _ Hg).
      - destruct Hg as [Hsys _]. by apply (Hex _ Hsys). }
    eexists w', g, M', l', (fun f => Z f - orefs (objs w) f). split; [done|]. split; [|done]. constructor; try done.
    + eapply bnd_le; [|exact HbM]. lia.
    + apply objs_more_refl.
    + intros f Hf. eapply Hgp; [exact Hkg|done|]. intros h. specialize (HYZ h). destruct g; [|lia|lia]. unfold bump1. destruct (h =? frame); lia.
    + intros f ->. destruct Hg as (Hf & Hsys & Hcon & Hw). split; [done|]. unfold backing_content. destruct (Z.eqb_spec file 0); [done|]. done.
Qed.

(** ** Putting the page in place *)

Lemma install_page w M T P l Y cur page f flags :
  let k := (cur, page_of page) in let x := Leaf (Z.lor f flags) true in
  kinv w M T P l (bump1 f 1 Y) -> (forall g, D g <= Y g) -> in_space kroot kwin T cur page -> fr_ram f ->
  Z.land flags PAGE_ADDR_MASK = 0 -> bits flags PAGE_PRESENT = true ->
  exists s r M' T', install (k_vm w) cur page f flags = Some (s, r) /\ grown (fun n => n_root n = cur) (k_vm w) M T s M' T' /\
    match r with
    | Installed => P !! k = None /\ kinv (set_vm s w) M' T' (<[k := x]> P) l Y
    | _ => (r = LostRace <-> is_Some (P !! k)) /\
        exists s', ref_dec s f = Some s' /\ ram s' = ram s /\ kinv (set_vm s' w) (drop_ref M' f) T' P l Y
    end.
Proof.
  intros k x Hk HD Hin Hf Hfl Hpr. set (X := fun g => crefs (pc_entries (k_pc w)) g + orefs (objs w) g + Y g).
  assert (HX : forall g, D g <= X g).
  { intros g. pose proof (crefs_nonneg (pc_entries (k_pc w)) g). pose proof (orefs_nonneg (objs w) g). specialize (HD g). unfold X. lia. }
  assert (Hi : vm_inv kroot kwin (k_vm w) M T P (bump1 f 1 X)).
  { eapply vm_inv_ext; [|apply Hk]. intros g. unfold bump1, X. destruct (g =? f); lia. }
  destruct (install_spec kroot kwin _ _ _ _ X D cur page f flags Hi (ki_backed _ _ _ _ _ _ Hk) HX Hin Hf Hfl Hpr) as (s & r & M' & T' & -> & Hg & Hr).
  exists s, r, M', T'. split; [done|]. split; [done|].
  assert (Hback : forall M' T' s, vm_inv kroot kwin s M' T' P (bump1 f 1 X) ->
    exists s', ref_dec s f = Some s' /\ ram s' = ram s /\ kinv (set_vm s' w) (drop_ref M' f) T' P l Y).
  { intros M1 T1 s1 Hi1. destruct (drop_hold _ _ s1 M1 T1 P _ D f Hi1 (ki_backed _ _ _ _ _ _ Hk) Hf) as (s' & Hrun & Hram & Hi').
    - unfold bump1. rewrite Z.eqb_refl. specialize (HX f). lia.
    - exists s'. split_and!; [done..|]. eapply kinv_tables; [exact Hk| |apply Hk|done]. eapply vm_inv_ext; [|exact Hi'].
      intros g. unfold bump1, X. destruct (g =? f); lia. }
  destruct r.
  - destruct Hr as (HP & Hi' & Hb'). split; [done|]. by eapply kinv_tables.
  - destruct Hr as (HP & -> & -> & ->). split; [done|]. by apply Hback.
  - destruct Hr as (HP & Hi'). split; [|by apply Hback]. fold k in HP. rewrite HP. split; [done|by intros []].
Qed.

(** ** A reference to the object of an area, for the time of the fault *)

Definition same_pages (m m' : gmap Z shm) : Prop :=
  forall x, (fun o => (so_pages o, so_npages o)) <$> m' !! x = (fun o => (so_pages o, so_npages o)) <$> m !! x.

Lemma objs_more_unref m x o m' : m !! x = Some o -> objs_more (<[x := with_ref (so_refcount o + 1) o]> m) m' ->
  exists o', m' !! x = Some o' /\ so_refcount o' = so_refcount o + 1 /\ objs_more m (<[x := with_ref (so_refcount o' - 1) o']> m').
Proof.
  intros Hx Hm. pose proof (Hm x) as Ho. rewrite lookup_insert_eq in Ho. destruct Ho as (l & Ho & Hl).
  exists (with_pages l (so_npages o) (with_ref (so_refcount o + 1) o)). split; [done|]. split; [done|]. intros y. destruct (decide (y = x)) as [->|Hy].
  - rewrite Hx, lookup_insert_eq. exists l. split; [|done]. f_equal. destruct o. unfold with_ref, with_pages. cbn. f_equal. lia.
  - rewrite lookup_insert_ne by done. specialize (Hm y). by rewrite lookup_insert_ne in Hm.
Qed.

(** The reference can be given back after any step. *)
Definition releases w (mt : bool) (shm : Z) w1 : Prop :=
  forall w2 M T P l Y, kinv w2 M T P l Y -> objs_more (objs w1) (objs w2) ->
    exists w3, release_shm w2 mt shm = Some w3 /\ kinv w3 M T P l Y /\ k_vm w3 = k_vm w2 /\ objs_more (objs w) (objs w3).

Lemma object_held w mt x M T P l Y :
  kinv w M T P l Y -> (x <> NULL -> exists o, objs w !! x = Some o /\ 1 <= so_refcount o < 2 ^ 32 - 1) ->
  exists y ok, shmem_tryget (k_shm w) x = Some (y, ok) /\
    let w1 := set_shm y w in let shm := if ok : bool then x else NULL in
    shm = x /\ kinv w1 M T P l Y /\ k_vm w1 = k_vm w /\ same_pages (objs w) (objs w1) /\ releases w mt shm w1.
Proof.
  intros Hk Hx. destruct (decide (x = NULL)) as [->|Hne].
  - exists (k_shm w), false. split; [done|]. split_and!; try done.
    + by destruct w.
    + intros w2 M2 T2 P2 l2 Y2 Hk2 Hm. exists w2. split_and!; [by apply release_none|done..].
  - destruct (Hx Hne) as (o & Ho & Hr). eexists _, true. split; [by eapply tryget_live|]. split_and!; try done.
    + eapply kinv_ref; [done..|lia].
    + intros y. cbn. destruct (decide (y = x)) as [->|]; [rewrite lookup_insert_eq, Ho; done|by rewrite lookup_insert_ne].
    + intros w2 M2 T2 P2 l2 Y2 Hk2 Hm. destruct (objs_more_unref _ x o _ Ho Hm) as (o' & Ho' & Hr' & Hm').
      eexists. split; [eapply release_live; [exact Hk2|exact Ho'|lia]|]. split_and!; [|done|done].
      eapply kinv_ref; [exact Hk2|done|lia].
Qed.

(** ** Demand paging *)

(** What a step of the handler leaves alone: all references accounted for, the
    pages in use, the objects but for new pages, and all tables of other spaces. *)
Record kept w M T (Y : Z -> Z) (cur : Z) w' M' T' P' (l' : list Z) Y' : Prop := {
  kp_inv : kinv w' M' T' P' l' Y';
  kp_hold f : Y f <= Y' f;
  kp_data : data_kept (k_vm w) M T (k_vm w');
  kp_objs : objs_more (objs w) (objs w');
  kp_tabs : T ⊆ T';
  kp_new t n : T' !! t = Some n -> T !! t = None -> n_root n = cur /\ M !! t = None;
}.

Definition permitted (v : vma) (is_write is_ifetch : bool) : Prop :=
  (is_write = true -> bits (v_flags v) VMA_W = true) /\ (is_ifetch = true -> bits (v_flags v) VMA_X = true).

(** The file an area is taken from. *)
Definition area_file (v : vma) : Z :=
  if bits (v_flags v) VMA_FILE && negb (v_file v =? 0) && file_live (v_file v) then v_file v else 0.

(** The area's object can be referred to, its file has room in the cache, and
    it has not both. *)
Record area_ready w mem (l : list Z) (v : vma) (page : Z) : Prop := {
  ar_shm : v_shmem v <> NULL -> exists o, objs w !! v_shmem v = Some o /\ 1 <= so_refcount o < 2 ^ 32 - 1;
  ar_one : area_file v <> 0 -> v_shmem v = NULL;
  ar_room : area_file v <> 0 -> cache_room mem (k_pc w) l (v_off v) (u64 (page - v_start v));
}.

Definition demand_result w M P (is_write is_ifetch : bool) (cur : Z) (m : mm) (va : Z) w' out M' P' : Prop :=
  let k := (cur, page_of va) in
  match out with
  | Resolved => exists v, mm_vma_find m va = Some v /\ permitted v is_write is_ifetch /\
      (is_Some (P !! k) /\ P' = P \/
       P !! k = None /\ exists f, fr_ram f /\ P' = <[k := Leaf (Z.lor f (mm_vma_pte_flags (v_flags v))) true]> P /\
         backing_content v (area_file v) (v_shmem v) (page_base va) w M f w' M')
  | _ => P' = P
  end.

Lemma content_moved v file shm page w0 w M f w1 M1 w2 M2 :
  backing_content v file shm page w M f w1 M1 -> k_vm w = k_vm w0 -> k_pc w = k_pc w0 -> same_pages (objs w0) (objs w) ->
  ram (k_vm w2) !! f = ram (k_vm w1) !! f -> M2 !! f = M1 !! f -> backing_content v file shm page w0 M f w2 M2.
Proof.
  unfold backing_content. intros Hc Hv Hp Ho -> ->. rewrite <- Hv, <- Hp. destruct (negb (file =? 0)); [done|]. destruct (negb (shm =? NULL)); [|done].
  destruct Hc as (o & Hx & Hc). specialize (Ho shm). rewrite Hx in Ho. destruct (objs w0 !! shm) as [o0|]; [|done].
  injection Ho as Hpg Hn. exists o0. split; [done|]. by rewrite <- Hpg, <- Hn.
Qed.

(** Without a frame there is nothing to undo but the reference. *)
Lemma demand_back w w1 mt shm M T P l Y cur w2 M2 l2 Y2 v file page g :
  let w' := if negb (file =? 0) then Some w2 else release_shm w2 mt shm in
  got_page w1 M T P l Y v file shm page w2 g M2 l2 Y2 -> k_vm w1 = k_vm w -> releases w mt shm w1 -> (file <> 0 -> shm = NULL) -> (forall f, g <> Got f) ->
  exists w3, w' = Some w3 /\ kept w M T Y cur w3 M2 T P l2 Y2.
Proof.
  intros w' Hg Hvm Hrel Hone Hno. assert (Hki : kinv w2 M2 T P l2 Y2).
  { pose proof (gp_inv _ _ _ _ _ _ _ _ _ _ _ _ _ _ _ Hg) as Hki. destruct g as [f| |]; [by destruct (Hno f)|done|done]. }
  destruct (Hrel w2 M2 T P l2 Y2 Hki (gp_objs _ _ _ _ _ _ _ _ _ _ _ _ _ _ _ Hg)) as (w3 & Hrun & Hk3 & Hvm3 & Ho3).
  assert (Hw : w' = Some w3).
  { unfold w'. destruct (Z.eqb_spec file 0); [done|]. rewrite Hone, release_none in Hrun by done. done. }
  exists w3. split; [done|]. constructor; try done; [apply Hg| |congruence].
  intros f Hf _. rewrite Hvm3, <- Hvm. by apply (gp_data _ _ _ _ _ _ _ _ _ _ _ _ _ _ _ Hg).
Qed.

Lemma got_data w M T P l Y v file shm page w2 g M2 l2 Y2 cur s M' T' w3 :
  got_page w M T P l Y v file shm page w2 g M2 l2 Y2 -> grown (fun n => n_root n = cur) (k_vm w2) M2 T s M' T' -> ram (k_vm w3) = ram s ->
  data_kept (k_vm w) M T (k_vm w3) /\ T ⊆ T' /\ forall t n, T' !! t = Some n -> T !! t = None -> n_root n = cur /\ M !! t = None.
Proof.
  intros Hg Hgr Hram.
  assert (Hnew : forall t n, T' !! t = Some n -> T !! t = None -> n_root n = cur /\ M !! t = None).
  { intros t n Ht Ho. destruct (gr_new _ _ _ _ _ _ _ Hgr t n Ht Ho) as (HM & _ & Hn). split; [done|].
    destruct (M !! t) eqn:E; [|done]. destruct (gp_held _ _ _ _ _ _ _ _ _ _ _ _ _ _ _ Hg t); [by eexists|]. congruence. }
  split_and!; [|apply Hgr|exact Hnew]. intros f Hf HT. rewrite Hram. destruct (T' !! f) as [n|] eqn:E.
  - destruct (gr_new _ _ _ _ _ _ _ Hgr f n E HT) as (HM & Hr & _). destruct (Hnew f n E HT) as [_ HM0].
    destruct Hf as [Hf|Hf]; [rewrite HM0 in Hf; by destruct Hf|done].
  - rewrite (gr_data _ _ _ _ _ _ _ Hgr f E). by apply (gp_data _ _ _ _ _ _ _ _ _ _ _ _ _ _ _ Hg).
Qed.

(** With a frame, the entry is made, or the frame given back. *)
Lemma demand_install w w1 mt shm M T P l Y cur va w2 f M2 l2 Y2 v file :
  let page := page_base va in let k := (cur, page_of va) in
  got_page w1 M T P l Y v file shm page w2 (Got f) M2 l2 Y2 -> kinv w M T P l Y -> k_vm w1 = k_vm w -> k_pc w1 = k_pc w -> same_pages (objs w) (objs w1) ->
  releases w mt shm w1 -> in_space kroot kwin T cur va ->
  exists s r M' T' P' s' w3, install (k_vm w2) cur page f (mm_vma_pte_flags (v_flags v)) = Some (s, r) /\
    match r with Installed => Some s | _ => ref_dec s f end = Some s' /\ release_shm (set_vm s' w2) mt shm = Some w3 /\
    kept w M T Y cur w3 M' T' P' l2 Y2 /\
    match r with
    | Installed => P !! k = None /\ fr_ram f /\ P' = <[k := Leaf (Z.lor f (mm_vma_pte_flags (v_flags v))) true]> P /\ backing_content v file shm page w M f w3 M'
    | _ => P' = P /\ (r = LostRace <-> is_Some (P !! k))
    end.
Proof.
  intros page k Hg Hk Hvm1 Hpc1 Hsp Hrel Hin. assert (Hpp : page_of page = page_of va) by apply page_base_page.
  destruct (gp_got _ _ _ _ _ _ _ _ _ _ _ _ _ _ _ Hg f eq_refl) as [Hf Hcon]. destruct (pte_flags_ok (v_flags v)) as (F1 & F2 & _).
  assert (HDY : forall g, D g <= Y2 g).
  { intros h. pose proof (ki_hold _ _ _ _ _ _ Hk h). pose proof (gp_hold _ _ _ _ _ _ _ _ _ _ _ _ _ _ _ Hg h). lia. }
  assert (Hin' : in_space kroot kwin T cur page) by (unfold in_space; by rewrite Hpp).
  destruct (install_page w2 M2 T P l2 Y2 cur page f _ (gp_inv _ _ _ _ _ _ _ _ _ _ _ _ _ _ _ Hg) HDY Hin' Hf F1 F2) as (s & r & M' & T' & Hrun & Hgr & Hr).
  rewrite Hpp in Hr. fold k in Hr.
  assert (Hlast : forall s' M3 P', ram s' = ram s -> kinv (set_vm s' w2) M3 T' P' l2 Y2 ->
    exists w3, release_shm (set_vm s' w2) mt shm = Some w3 /\ kept w M T Y cur w3 M3 T' P' l2 Y2 /\ ram (k_vm w3) = ram s).
  { intros s' M3 P' Hram Hki. destruct (Hrel _ M3 T' P' l2 Y2 Hki (gp_objs _ _ _ _ _ _ _ _ _ _ _ _ _ _ _ Hg)) as (w3 & Hrel3 & Hk3 & Hvm3 & Ho3).
    exists w3. split; [done|]. split; [|by rewrite Hvm3].
    destruct (got_data _ _ _ _ _ _ _ _ _ _ _ _ _ _ _ cur s M' T' w3 Hg Hgr) as (K1 & K2 & K3); [by rewrite Hvm3|].
    constructor; try done; [apply Hg|by rewrite <- Hvm1]. }
  destruct r.
  - destruct Hr as [HP Hki]. destruct (Hlast s _ _ eq_refl Hki) as (w3 & Hrel3 & Hkept & Hram).
    eexists s, Installed, M', T', _, s, w3. do 3 (split; [done|]). split; [exact Hkept|]. split_and!; [done..|].
    assert (HT : T' !! f = None).
    { rewrite <- (addr_new f (mm_vma_pte_flags (v_flags v)) true); [|by apply (fr_ram_addr f)|done].
      eapply mapped_not_table; [apply (ki_vm _ _ _ _ _ _ (kp_inv _ _ _ _ _ _ _ _ _ _ _ Hkept))|apply lookup_insert_eq]. }
    eapply content_moved; [exact Hcon|exact Hvm1|done|done| |].
    + rewrite Hram. by apply (gr_data _ _ _ _ _ _ _ Hgr).
    + apply (gr_counts _ _ _ _ _ _ _ Hgr). by left.
  - destruct Hr as (Hlost & s' & Hd & Hram & Hki). destruct (Hlast s' _ _ Hram Hki) as (w3 & Hrel3 & Hkept & _).
    by exists s, LostRace, (drop_ref M' f), T', P, s', w3.
  - destruct Hr as (Hlost & s' & Hd & Hram & Hki). destruct (Hlast s' _ _ Hram Hki) as (w3 & Hrel3 & Hkept & _).
    by exists s, MapFail, (drop_ref M' f), T', P, s', w3.
Qed.

Lemma demand_page_spec w mem mt is_user is_write is_ifetch cur m va M T P l Y :
  kinv w M T P l Y -> bnd 16 M -> (forall v, mm_vma_find m va = Some v -> in_space kroot kwin T cur va) ->
  (forall v, mm_vma_find m va = Some v -> area_ready w mem l v (page_base va)) ->
  exists w' out M' T' P' l' Y', demand_page free_pages_get file_ino file_live pread w mem mt is_user is_write is_ifetch cur m va = Some (w', out) /\
    kept w M T Y cur w' M' T' P' l' Y' /\ demand_result w M P is_write is_ifetch cur m va w' out M' P' /\
    (out = Panic -> is_user = false) /\ ((forall v, mm_vma_find m va = Some v -> area_file v = 0) -> forall f, Y' f = Y f).
Proof.
  intros Hk Hb Hin Har. unfold demand_page, demand_result. destruct (mm_vma_find m va) as [v|] eqn:Ev.
  2: { exists w, (refuse is_user), M, T, P, l, Y. split; [done|]. split_and!; [|by destruct is_user..|done].
       constructor; try done; [apply objs_more_refl|congruence]. }
  destruct (Har v eq_refl) as [Ashm Aone Aroom]. destruct (object_held w mt (v_shmem v) M T P l Y Hk Ashm) as (y & ok & -> & Hshm & Hk1 & Hvm1 & Hsp & Hrel).
  cbn [mbind option_bind]. fold (area_file v). set (w1 := set_shm y w) in *. rewrite Hshm in *.
  destruct ((is_write && negb (bits (v_flags v) VMA_W)) || (is_ifetch && negb (bits (v_flags v) VMA_X))) eqn:Eperm.
  { destruct (Hrel w1 M T P l Y Hk1 (objs_more_refl _)) as (w3 & -> & Hk3 & Hvm3 & Ho3). cbn [mbind option_bind].
    exists w3, (refuse is_user), M, T, P, l, Y. split; [done|]. split_and!; [|by destruct is_user..|done].
    constructor; try done; [|congruence]. intros f _ _. by rewrite Hvm3, Hvm1. }
  assert (Hperm : permitted v is_write is_ifetch).
  { unfold permitted. destruct is_write, is_ifetch, (bits (v_flags v) VMA_W), (bits (v_flags v) VMA_X); done. }
  assert (Hex : v_shmem v <> NULL -> is_Some (objs w1 !! v_shmem v)).
  { intros Hne. destruct (Ashm Hne) as (o & Ho & _). specialize (Hsp (v_shmem v)). rewrite Ho in Hsp.
    destruct (objs w1 !! v_shmem v); [by eexists|done]. }
  destruct (backing_page_spec w1 mem v (area_file v) (v_shmem v) (page_base va) M T P l Y Hk1 Hb Aroom Hex) as (w2 & g & M2 & l2 & Y2 & -> & Hg & _).
  cbn [mbind option_bind]. assert (Hexact : (forall v', Some v = Some v' -> area_file v' = 0) -> forall f, Y2 f = Y f) by (intros Hz; apply Hg; by apply Hz).
  destruct g as [f| |].
  - destruct (demand_install w w1 mt _ M T P l Y cur va w2 f M2 l2 Y2 v _ Hg Hk Hvm1 eq_refl Hsp Hrel (Hin v eq_refl)) as (s & r & M' & T' & P' & s' & w3 & -> & Hd & Hr3 & Hkept & Hr).
    cbn [mbind option_bind]. destruct r; [injection Hd as ->|rewrite Hd; cbn [mbind option_bind]..]; rewrite Hr3; cbn [mbind option_bind].
    + exists w3, Resolved, M', T', P', l2, Y2. split_and!; [done..| |done|done]. destruct Hr as (? & ? & ? & ?). exists v. split_and!; [done..|].
      right. split; [done|]. by exists f.
    + exists w3, Resolved, M', T', P', l2, Y2. split_and!; [done..| |done|done]. exists v. split_and!; [done..|]. left. split; [by apply Hr|by apply Hr].
    + exists w3, (refuse is_user), M', T', P', l2, Y2. destruct Hr as [-> _]. split_and!; [done..|by destruct is_user|by destruct is_user|done].
  - destruct (demand_back w w1 mt _ M T P l Y cur _ _ _ _ _ _ _ _ Hg Hvm1 Hrel Aone ltac:(done)) as (w3 & -> & Hkept). cbn [mbind option_bind].
    exists w3, (refuse is_user), M2, T, P, l2, Y2. split_and!; [done..|by destruct is_user|by destruct is_user|done].
  - destruct (demand_back w w1 mt _ M T P l Y cur _ _ _ _ _ _ _ _ Hg Hvm1 Hrel Aone ltac:(done)) as (w3 & Hrun & Hkept).
    destruct (Z.eqb_spec (area_file v) 0) as [Hz|]; [by destruct (gp_read _ _ _ _ _ _ _ _ _ _ _ _ _ _ _ Hg eq_refl)|]. injection Hrun as ->.
    by exists w3, Kill, M2, T, P, l2, Y2.
Qed.

(** ** The handler *)

Definition cow_area (v : vma) : bool := bits (v_flags v) VMA_W && (v_shmem v =? 0) && negb (bits (v_flags v) VMA_MMIO).

(** A write to a present page: only in a private writable area, and then the
    entry is writable, with a frame of its own. *)
Definition cow_fault_result w M P (is_write : bool) (cur : Z) (m : mm) (va : Z) w' out M' P' : Prop :=
  let k := (cur, page_of va) in
  (forall j, j <> k -> P' !! j = P !! j) /\
  match out with
  | Resolved => is_write = true /\ exists v x x', mm_vma_find m va = Some v /\ cow_area v = true /\ P !! k = Some x /\ P' !! k = Some x' /\
      bits (l_pte x') PAGE_WRITABLE = true /\
      (bits (l_pte x) PAGE_WRITABLE = true /\ x' = x /\ M' = M \/
       bits (l_pte x) PAGE_WRITABLE = false /\ cow_broken (k_vm w) M x (v_flags v) (k_vm w') M' x')
  | _ => P' = P /\ M' = M /\ ram (k_vm w') = ram (k_vm w)
  end.

Definition user_result w M P (is_present is_write is_ifetch : bool) (cur : Z) (m : mm) (va : Z) w' out M' P' : Prop :=
  if is_present then cow_fault_result w M P is_write cur m va w' out M' P'
  else demand_result w M P is_write is_ifetch cur m va w' out M' P'.

(** The address space of the fault: private areas have counted pages. *)
Record fault_ready w mem M T P (l : list Z) Y (cur : Z) (m : mm) (va : Z) : Prop := {
  fa_inv : kinv w M T P l Y;
  fa_bnd : bnd 16 M;
  fa_space v : mm_vma_find m va = Some v -> in_space kroot kwin T cur va;
  fa_area v : mm_vma_find m va = Some v -> area_ready w mem l v (page_base va);
  fa_counted v x : mm_vma_find m va = Some v -> cow_area v = true -> P !! (cur, page_of va) = Some x -> l_ref x = true;
}.

Lemma kept_self w M T P l Y cur : kinv w M T P l Y -> kept w M T Y cur w M T P l Y.
Proof. intros Hk. constructor; try done; [apply objs_more_refl|congruence]. Qed.

Lemma cow_fault_spec w M T P l Y cur va v :
  kinv w M T P l Y -> in_space kroot kwin T cur va -> (forall x, P !! (cur, page_of va) = Some x -> l_ref x = true) -> cow_area v = true ->
  exists s ok M' P', cow_break (k_vm w) cur (page_base va) (v_flags v) = Some (s, ok) /\ kept w M T Y cur (set_vm s w) M' T P' l Y /\
    cow_result kroot kwin (k_vm w) M T P (fun f => crefs (pc_entries (k_pc w)) f + orefs (objs w) f + Y f) D (cur, page_of va) (v_flags v) s ok M' P'.
Proof.
  intros Hk Hin Hcnt Hv. apply andb_prop in Hv as [[Hw _]%andb_prop _]. pose proof (page_base_page va) as Hpp.
  destruct (cow_break_spec kroot kwin (k_vm w) M T P _ D cur (page_base va) (v_flags v) (ki_vm _ _ _ _ _ _ Hk) (ki_backed _ _ _ _ _ _ Hk)) as (s & ok & M' & P' & Hrun & Hres);
    [|by unfold in_space; rewrite Hpp|by rewrite Hpp|done|].
  - intros f. pose proof (crefs_nonneg (pc_entries (k_pc w)) f). pose proof (orefs_nonneg (objs w) f). pose proof (ki_hold _ _ _ _ _ _ Hk f). lia.
  - rewrite Hpp in Hres. exists s, ok, M', P'. split; [done|]. split; [|done]. constructor; try done; [|apply Hres|apply objs_more_refl|congruence].
    eapply kinv_tables; [exact Hk|apply Hres|apply Hres|apply Hk].
Qed.

Lemma user_fault_spec w mem mt is_present is_user is_write is_ifetch cur m va M T P l Y :
  fault_ready w mem M T P l Y cur m va ->
  exists w' out M' T' P' l' Y',
    user_fault free_pages_get file_ino file_live pread w mem mt is_present is_user is_write is_ifetch cur m va = Some (w', out) /\
    kept w M T Y cur w' M' T' P' l' Y' /\ user_result w M P is_present is_write is_ifetch cur m va w' out M' P' /\
    (out = Panic -> is_user = false) /\ ((forall v, mm_vma_find m va = Some v -> area_file v = 0) -> forall f, Y' f = Y f).
Proof.
  intros [Hk Hb Hin Har Hcnt]. unfold user_fault, user_result. destruct is_present; cbn [andb].
  2: { cbn [mbind option_bind]. by apply (demand_page_spec w mem mt is_user is_write is_ifetch cur m va M T P l Y). }
  assert (Hstay : exists w' out M' T' P' l' Y', Some (w, refuse is_user) = Some (w', out) /\ kept w M T Y cur w' M' T' P' l' Y' /\
    cow_fault_result w M P is_write cur m va w' out M' P' /\ (out = Panic -> is_user = false) /\
    ((forall v, mm_vma_find m va = Some v -> area_file v = 0) -> forall f, Y' f = Y f)).
  { exists w, (refuse is_user), M, T, P, l, Y. split; [done|]. split_and!; [by apply kept_self|by destruct is_user..|done]. }
  destruct is_write; cbn [mbind option_bind]; [|exact Hstay].
  destruct (mm_vma_find m va) as [v|] eqn:Ev; cbn [mbind option_bind]; [|exact Hstay]. fold (cow_area v).
  destruct (cow_area v) eqn:Ec; cbn [mbind option_bind]; [|exact Hstay].
  destruct (cow_fault_spec w M T P l Y cur va v Hk (Hin v eq_refl) (fun x => Hcnt v x eq_refl Ec) Ec) as (s & ok & M' & P' & -> & Hkept & Hres). cbn [mbind option_bind].
  pose proof (cr_entry _ _ _ _ _ _ _ _ _ _ _ _ _ _ Hres) as He. destruct ok.
  - exists (set_vm s w), Resolved, M', T, P', l, Y. split; [done|]. split_and!; [done| |done|done]. split; [apply Hres|]. split; [done|].
    destruct He as (x & x' & Hx & Hx' & Hwr & He). exists v, x, x'. split_and!; [done..|].
    destruct He as [(? & ? & ? & ?)|[? ?]]; [by left|by right].
  - exists (set_vm s w), (refuse is_user), M', T, P', l, Y. split; [done|]. split_and!; [done| |by destruct is_user|done].
    split; [apply Hres|]. destruct He as (-> & -> & Hr). by destruct is_user.
Qed.

(** A fault of the kernel on an address of its own. *)
Definition kernel_result w M P Y (is_present : bool) (kroot va : Z) w' out M' P' Y' : Prop :=
  match out with
  | Resolved => is_present = false /\ exists f, fr_ram f /\ M !! f = None /\
      ((forall g, Y' g = Y g) /\ P' = <[(kroot, page_of va) := Leaf (Z.lor f VMM_KDATA) true]> P /\ ram (k_vm w') !! f = Some ∅ \/
       (forall g, Y' g = bump1 f 1 Y g) /\ P' = P)
  | Panic => P' = P /\ M' = M /\ (forall g, Y' g = Y g) /\ ram (k_vm w') = ram (k_vm w)
  | Kill => False
  end.

Lemma kernel_page_spec w kr va M T P l Y :
  kinv w M T P l Y -> bnd 16 M -> in_space kroot kwin T kr va -> P !! (kr, page_of va) = None ->
  exists w' out M' T' P' Y', kernel_page w kr va = Some (w', out) /\ kept w M T Y kr w' M' T' P' l Y' /\ kernel_result w M P Y false kr va w' out M' P' Y'.
Proof.
  intros Hk Hb Hin HP. unfold kernel_page. pose proof (page_base_page va) as Hpp. set (X := fun f => crefs (pc_entries (k_pc w)) f + orefs (objs w) f + Y f).
  assert (HX : forall g, D g <= X g).
  { intros g. pose proof (crefs_nonneg (pc_entries (k_pc w)) g). pose proof (orefs_nonneg (objs w) g). pose proof (ki_hold _ _ _ _ _ _ Hk g). unfold X. lia. }
  destruct (frame_alloc_spec kroot kwin (k_vm w) M T P X (ki_vm _ _ _ _ _ _ Hk)) as (s1 & o & -> & Hram1 & Ho). cbn [mbind option_bind]. destruct o as [f|].
  2: { exists (set_vm s1 w), Panic, M, T, P, Y. split; [done|]. split; [|done].
       constructor; try done; [|intros f _ _; cbn; by rewrite Hram1|apply objs_more_refl|congruence]. eapply kinv_tables; [exact Hk|done|apply Hk..]. }
  destruct Ho as (Hf & HM & HT & Hrep). pose proof (alloc_hold kroot kwin (k_vm w) s1 M T P X f (ki_vm _ _ _ _ _ _ Hk) Hram1 Hf HM Hrep) as Hi1.
  rewrite zero_page_spec by apply (vi_ram _ _ _ _ _ _ _ Hi1 f Hf). cbn [mbind option_bind]. set (s2 := with_ram _ s1).
  assert (Hi2 : vm_inv kroot kwin s2 (<[f := 1]> M) T P (bump1 f 1 X)).
  { eapply inv_data; [exact Hi1|done| |].
    - intros u Hu. cbn. destruct (decide (u = f)) as [->|]; [rewrite lookup_insert_eq; by eexists|by rewrite lookup_insert_ne].
    - intros u Hu. cbn. rewrite lookup_insert_ne; [done|]. intros ->. rewrite HT in Hu. by destruct Hu. }
  assert (Hin' : in_space kroot kwin T kr (page_base va)) by (unfold in_space; by rewrite Hpp).
  destruct (install_spec kroot kwin s2 _ T P X D kr (page_base va) f VMM_KDATA Hi2 (ki_backed _ _ _ _ _ _ Hk) HX Hin' Hf ltac:(done) ltac:(done)) as (s3 & r & M' & T' & Hrun & Hgr & Hr).
  rewrite Hpp in Hr. unfold install in Hrun. rewrite (page_phys_spec _ _ s2 T P kr _ (vi_shape _ _ _ _ _ _ _ Hi2) Hin') in Hrun. cbn [mbind option_bind] in Hrun.
  rewrite Hpp, HP in Hrun. cbn [from_option] in Hrun. rewrite Z.eqb_refl in Hrun. cbn [negb] in Hrun.
  destruct (vmm_page_map s2 kr (page_base va) f VMM_KDATA) as [[s4 ok]|]; [|done]. cbn [mbind option_bind] in *. injection Hrun as -> Hok.
  assert (Hdata : data_kept (k_vm w) M T s3 /\ forall t n, T' !! t = Some n -> T !! t = None -> n_root n = kr /\ M !! t = None).
  { assert (Hnew : forall t n, T' !! t = Some n -> T !! t = None -> n_root n = kr /\ M !! t = None /\ fr_ram t).
    { intros t n Ht H0'. destruct (gr_new _ _ _ _ _ _ _ Hgr t n Ht H0') as (Hm & Hrt & Hn). split; [done|]. split; [|done].
      destruct (decide (t = f)) as [->|]; [by rewrite lookup_insert_eq in Hm|by rewrite lookup_insert_ne in Hm]. }
    split; [|intros t n Ht H0'; destruct (Hnew t n Ht H0') as (? & ? & _); done]. intros g Hg Hg0. destruct (T' !! g) as [n|] eqn:E.
    - destruct (Hnew g n E Hg0) as (_ & Hm & Hrg). destruct Hg as [Hg|Hg]; [rewrite Hm in Hg; by destruct Hg|done].
    - rewrite (gr_data _ _ _ _ _ _ _ Hgr g E). cbn. rewrite lookup_insert_ne; [by rewrite Hram1|]. intros ->. destruct Hg as [Hg|Hg]; [rewrite HM in Hg; by destruct Hg|done]. }
  destruct Hdata as [Hdata Hnew]. destruct ok; subst r.
  - destruct Hr as (_ & Hi3 & Hb3). exists (set_vm s3 w), Resolved, M', T', (<[(kr, page_of va) := Leaf (Z.lor f VMM_KDATA) true]> P), Y. split; [done|]. split.
    + constructor; try done; [|apply objs_more_refl|apply Hgr]. eapply kinv_tables; [exact Hk|done|done|apply Hk].
    + split; [done|]. exists f. split_and!; [done..|]. left. split_and!; [done..|]. assert (HTf : T' !! f = None).
      { rewrite <- (addr_new f VMM_KDATA true); [|by apply (fr_ram_addr f)|done]. eapply mapped_not_table; [exact Hi3|apply lookup_insert_eq]. }
      cbn. rewrite (gr_data _ _ _ _ _ _ _ Hgr f HTf). cbn. apply lookup_insert_eq.
  - destruct Hr as (_ & Hi3). exists (set_vm s3 w), Resolved, M', T', P, (bump1 f 1 Y). split; [done|].
    assert (HYf : forall g, Y g <= bump1 f 1 Y g) by (intros g; unfold bump1; destruct (g =? f); lia). split.
    + constructor; try done; [|apply objs_more_refl|apply Hgr]. eapply kinv_tables; [exact Hk| |apply Hk|].
      * eapply vm_inv_ext; [|exact Hi3]. intros g. unfold bump1, X. destruct (g =? f); lia.
      * intros g. specialize (HYf g). pose proof (ki_hold _ _ _ _ _ _ Hk g). lia.
    + split; [done|]. exists f. split_and!; [done..|]. by right.
Qed.

(** ** All of it *)

Definition user_branch (task : option (option mm)) (va ec : Z) : bool :=
  Z.testbit ec 2 || (match task with Some _ => true | None => false end && (va <? 0x8000000000000000)).

Definition fault_result w M P Y (kernel_pml4 cur : Z) (task : option (option mm)) (va ec : Z) w' out M' P' Y' : Prop :=
  if Z.testbit ec 3 then out = Panic /\ w' = w
  else if user_branch task va ec then
    match task with
    | Some (Some m) => user_result w M P (Z.testbit ec 0) (Z.testbit ec 1) (Z.testbit ec 4) cur m va w' out M' P' /\ (out = Panic -> Z.testbit ec 2 = false)
    | _ => out = Panic /\ w' = w
    end
  else if Z.testbit ec 0 then out = Panic /\ w' = w
  else kernel_result w M P Y false kernel_pml4 va w' out M' P' Y'.

Lemma page_fault_spec w mem mt kernel_pml4 cur task va ec M T P l Y :
  kinv w M T P l Y -> bnd 16 M ->
  (forall m, task = Some (Some m) -> fault_ready w mem M T P l Y cur m va) ->
  (user_branch task va ec = false -> in_space kroot kwin T kernel_pml4 va /\ (Z.testbit ec 0 = false -> P !! (kernel_pml4, page_of va) = None)) ->
  exists w' out M' T' P' l' Y',
    isr14_page_fault free_pages_get file_ino file_live pread w mem mt kernel_pml4 cur task va ec = Some (w', out) /\
    kept w M T Y (if user_branch task va ec then cur else kernel_pml4) w' M' T' P' l' Y' /\
    fault_result w M P Y kernel_pml4 cur task va ec w' out M' P' Y'.
Proof.
  intros Hk Hb Hu Hkern. unfold isr14_page_fault, fault_result. fold (user_branch task va ec).
  assert (Hstop : forall r, exists w' out M' T' P' l' Y', Some (w, Panic) = Some (w', out) /\ kept w M T Y r w' M' T' P' l' Y' /\ out = Panic /\ w' = w).
  { intros r. exists w, Panic, M, T, P, l, Y. split; [done|]. split; [by apply kept_self|done]. }
  destruct (Z.testbit ec 3); [apply Hstop|]. destruct (user_branch task va ec) eqn:Eu.
  - destruct task as [[m|]|]; [|apply Hstop..]. destruct (user_fault_spec w mem mt (Z.testbit ec 0) (Z.testbit ec 2) (Z.testbit ec 1) (Z.testbit ec 4) cur m va M T P l Y (Hu m eq_refl))
      as (w' & out & M' & T' & P' & l' & Y' & Hrun & Hkept & Hres & Hp & _). by exists w', out, M', T', P', l', Y'.
  - destruct (Hkern eq_refl) as [Hin HP]. destruct (Z.testbit ec 0); [apply Hstop|]. cbn [negb].
    destruct (kernel_page_spec w kernel_pml4 va M T P l Y Hk Hb Hin (HP eq_refl)) as (w' & out & M' & T' & P' & Y' & Hrun & Hkept & Hres).
    by exists w', out, M', T', P', l, Y'.
Qed.
End handler.
