(* ===== verification/AddressSpace.v ===== *)
(** * Address spaces of tasks

    Models the shared address space of kernel/proc/process.c ([task_mm_t]) and
    the places that create, share and drop it: [task_fork], [sys_thread] of
    kernel/syscall/syscall.c and [task_mm_release].  The areas are those of
    [Vma], the page tables those of [PageTable]; the TLB shootdown after a fork
    is not modelled.

    [exec] runs one operation of a system of address spaces; loads and stores
    are those of the processor, through the entry of the page. *)

From S2P Require Import Prelude Errno DList Buddy Cred UnixNs Vma Frames PageTable Shmem Pcache PageFault.

Abbreviation THREAD_SHARE_MM := 1%Z (only parsing).

Record task_mm := TaskMm { tm_pml4 : Z; tm_mm : option mm; tm_refs : Z; tm_cpu_mask : Z }.

Definition with_refs (n : Z) (m : task_mm) : task_mm := TaskMm (tm_pml4 m) (tm_mm m) n (tm_cpu_mask m).
Definition with_areas (a : mm) (m : task_mm) : task_mm := TaskMm (tm_pml4 m) (Some a) (tm_refs m) (tm_cpu_mask m).

(** [mem]: the allocation succeeds. *)
Definition task_mm_alloc (mem : bool) (pml4 : Z) (m : option mm) : option task_mm :=
  if mem then Some (TaskMm pml4 m 1 0) else None.

Section spaces.
Context {A : Type} `{FrameOps A}.
Implicit Types (s : machine A) (w : kworld A).

(** What is left of the descriptor: nothing after the last release. *)
Definition task_mm_release s (m : task_mm) : option (machine A * option task_mm) :=
  let refs := u32 (tm_refs m - 1) in
  if 0 <? refs then Some (s, Some (with_refs refs m))
  else
    s ← vmm_free_user_ex s (tm_pml4 m) (tm_mm m);
    s ← free s (tm_pml4 m);
    Some (s, None).

(** The failure paths of a fork: the copy is torn down again. *)
Definition undo_fork s (new_pml4 : Z) : option (machine A) := s ← vmm_free_user s new_pml4; free s new_pml4.

(** The address space of a forked task; [v] holds the parent's areas. *)
Definition fork_mm s (kernel_pml4 parent_pml4 : Z) (v : vm_state) (mem : nat -> bool) (tmm : bool)
  : option (machine A * vm_state * option task_mm) :=
  '(s, new_pml4) ← vmm_alloc_pml4 s kernel_pml4;
  if new_pml4 =? PMM_INVALID_ADDR then Some (s, v, None)
  else
    '(s, ok) ← vmm_clone_user_ex s new_pml4 parent_pml4 (Some (vm_mm v));
    if negb ok then s ← undo_fork s new_pml4; Some (s, v, None)
    else
      let '(v, new_mm) := mm_clone mem v in
      match new_mm with
      | None => s ← undo_fork s new_pml4; Some (s, v, None)
      | Some new_mm =>
          match task_mm_alloc tmm new_pml4 (Some new_mm) with
          | None =>
              let v := with_mm (vm_mm v) (mm_destroy (with_mm new_mm v)) in
              s ← undo_fork s new_pml4; Some (s, v, None)
          | Some t => Some (s, v, Some t)
          end
      end.

(** The address space of a new thread: the parent's with one more reference,
    or a copy, with or without areas. *)
Definition thread_mm s (kernel_pml4 flags : Z) (m : task_mm) (v : vm_state) (mem : nat -> bool) (tmm : bool)
  : option (machine A * vm_state * task_mm * option task_mm) :=
  if bits flags THREAD_SHARE_MM then
    let m := with_refs (u32 (tm_refs m + 1)) m in
    Some (s, v, m, Some m)
  else
    '(s, new_pml4) ← vmm_alloc_pml4 s kernel_pml4;
    if new_pml4 =? PMM_INVALID_ADDR then Some (s, v, m, None)
    else
      '(s, ok) ← vmm_clone_user_ex s new_pml4 (tm_pml4 m) (tm_mm m);
      if negb ok then s ← undo_fork s new_pml4; Some (s, v, m, None)
      else
        let '(v, new_mm) := match tm_mm m with Some _ => mm_clone mem v | None => (v, None) end in
        match task_mm_alloc tmm new_pml4 new_mm with
        | None =>
            let v := match new_mm with Some n => with_mm (vm_mm v) (mm_destroy (with_mm n v)) | None => v end in
            s ← undo_fork s new_pml4; Some (s, v, m, None)
        | Some t => Some (s, v, m, Some t)
        end.

(** ** A system of address spaces *)

(** The entry of a page as the processor finds it, when it allows the access. *)
Definition mmu_entry s (r va : Z) (is_write : bool) : option (option Z) :=
  '(s, pte) ← vmm_pte_get s r va false 0;
  match pte with
  | None => Some None
  | Some (t, i) =>
      e ← read_word s t i;
      Some (if bits e PAGE_PRESENT && (negb is_write || bits e PAGE_WRITABLE) then Some (Z.land e PAGE_ADDR_MASK) else None)
  end.

(** [i]: the word in the page. *)
Definition mmu_load s (r va i : Z) : option (option Z) :=
  f ← mmu_entry s r va false;
  match f with Some f => x ← read_word s f i; Some (Some x) | None => Some None end.

Definition mmu_store s (r va i x : Z) : option (machine A * bool) :=
  f ← mmu_entry s r va true;
  match f with Some f => s ← write_word s f i x; Some (s, true) | None => Some (s, false) end.

Record vworld := VWorld { vw_k : kworld A; vw_spaces : gmap Z task_mm }.

Inductive op :=
  | ONew (m : mm)
  | OFork (r : Z) (mem : nat -> bool) (tmm : bool)
  | OShare (r : Z)
  | ORelease (r : Z)
  | OAreas (r : Z) (m : mm)
  | OFault (r va ec : Z)
  | OLoad (r va i : Z)
  | OStore (r va i x : Z)
  | OUnmap (r va : Z).

Inductive result := RSpace (r : option Z) | RDone (ok : bool) | RWord (x : option Z) | RFault (o : outcome).

Context (free_pages_get : A -> Z).
Context (file_ino : Z -> Z) (file_live : Z -> bool) (pread : Z -> Z -> Z -> Z * page).
Context (kernel_pml4 : Z).

Definition areas_of (m : mm) : vm_state := VmState m [] ∅ ∅ ∅ [].
Definition of_mm (m : task_mm) : mm := match tm_mm m with Some a => a | None => Mm [] 0 0 0 end.
Definition added (t : option task_mm) (sp : gmap Z task_mm) : gmap Z task_mm :=
  match t with Some t => <[tm_pml4 t := t]> sp | None => sp end.

(** An operation on a space that does not exist is refused. *)
Definition exec (st : vworld) (o : op) : option (vworld * result) :=
  let w := vw_k st in
  let sp := vw_spaces st in
  match o with
  | ONew m =>
      '(s, r) ← vmm_alloc_pml4 (k_vm w) kernel_pml4;
      if r =? PMM_INVALID_ADDR then Some (VWorld (set_vm s w) sp, RSpace None)
      else Some (VWorld (set_vm s w) (<[r := TaskMm r (Some m) 1 0]> sp), RSpace (Some r))
  | OFork r mem tmm =>
      m ← sp !! r;
      '(s, _, t) ← fork_mm (k_vm w) kernel_pml4 r (areas_of (of_mm m)) mem tmm;
      Some (VWorld (set_vm s w) (added t sp), RSpace (tm_pml4 <$> t))
  | OShare r =>
      m ← sp !! r;
      '(s, _, m, _) ← thread_mm (k_vm w) kernel_pml4 THREAD_SHARE_MM m (areas_of (of_mm m)) (fun _ => true) true;
      Some (VWorld (set_vm s w) (<[r := m]> sp), RDone true)
  | ORelease r =>
      m ← sp !! r;
      '(s, m) ← task_mm_release (k_vm w) m;
      Some (VWorld (set_vm s w) (match m with Some m => <[r := m]> sp | None => delete r sp end), RDone (bool_decide (m = None)))
  | OAreas r a => m ← sp !! r; Some (VWorld w (<[r := with_areas a m]> sp), RDone true)
  | OFault r va ec =>
      m ← sp !! r;
      '(w, out) ← isr14_page_fault free_pages_get file_ino file_live pread w (fun _ => 0) true kernel_pml4 r (Some (tm_mm m)) va ec;
      Some (VWorld w sp, RFault out)
  | OLoad r va i => _ ← sp !! r; x ← mmu_load (k_vm w) r va i; Some (st, RWord x)
  | OStore r va i x => _ ← sp !! r; '(s, ok) ← mmu_store (k_vm w) r va i x; Some (VWorld (set_vm s w) sp, RDone ok)
  | OUnmap r va => _ ← sp !! r; s ← vmm_page_free (k_vm w) r va; Some (VWorld (set_vm s w) sp, RDone true)
  end.
End spaces.
