(* ===== verification/SpaceSpec.v ===== *)
(** * Address spaces come and go

    A fresh root table is an empty address space; dropping an address space
    gives back all its tables and all its references. *)

From S2P Require Import Prelude Errno DList Buddy Cred UnixNs Vma Frames PageTable PageTableSpec PageTableOps PageClone PageFree Shmem Pcache PageFault AddressSpace.

Section spaces.
Context {A : Type} `{FrameLaws A} (kroot : Z) (kwin : Z -> bool).
Implicit Types (s : machine A) (M : gmap Z Z) (T : gmap Z node) (P : gmap (Z * Z) leaf) (X D : Z -> Z).
Abbreviation inv := (vm_inv kroot kwin).

(** Nothing belongs to a root that is not there. *)
Lemma no_root R T P r : shape kroot kwin R T P -> T !! r = None ->
  (forall t n, T !! t = Some n -> n_root n <> r) /\ (forall v, P !! (r, v) = None).
Proof.
  intros Hs Hr. assert (Hn : forall t n, T !! t = Some n -> n_root n <> r).
  { intros t [r' l q] Ht Hroot. cbn in Hroot. subst r'. revert t q Ht. remember (3 - l)%nat as d eqn:Ed. revert l Ed.
    induction d as [|d IH]; intros l Ed t q Ht; destruct (sh_level _ _ _ _ _ Hs _ _ Ht) as [Hl H3]; cbn [n_level n_root n_number] in *.
    - assert (l = 3%nat) as -> by lia. destruct (H3 eq_refl) as [<- _]. congruence.
    - destruct (sh_up _ _ _ _ _ Hs _ _ _ _ Ht) as (u & Hu & _); [lia|]. by apply (IH (S l) ltac:(lia) u (q / 512)). }
  split; [done|]. intros v. destruct (P !! (r, v)) as [x|] eqn:E; [|done]. destruct (sh_dom _ _ _ _ _ Hs _ _ _ E) as (_ & t & Ht). by apply Hn in Ht.
Qed.

Lemma upper_half_low p i : i < 256 -> word (upper_half p) i = 0.
Proof.
  intros Hi. unfold word, upper_half. assert (filter (fun x : Z * Z => 256 <= x.1) p !! i = None) as ->; [|done].
  apply map_lookup_filter_None. right. cbn. lia.
Qed.

(** A held page with an empty lower half becomes a root. *)
Lemma root_added s M T P X r p :
  inv s M T P (bump1 r 1 X) -> r <> kroot -> fr_ram r -> M !! r = Some 1 -> T !! r = None -> X r = 0 -> ram s !! r = Some p ->
  (forall i, 0 <= i < 256 -> word p i = 0) -> (forall k x, P !! k = Some x -> addr x <> r) ->
  inv s M (<[r := Node r 3 0]> T) P X /\ empty_space (<[r := Node r 3 0]> T) P r.
Proof.
  intros Hi Hk Hr HM HT HX Hp Hlow Hfree. pose proof (vi_shape _ _ _ _ _ _ _ Hi) as Hs. destruct (no_root _ _ _ _ Hs HT) as [Hno HnoP].
  set (T' := <[r := Node r 3 0]> T). assert (Hsub : T ⊆ T') by by apply insert_subseteq.
  assert (Hold : forall t n, T' !! t = Some n -> t = r /\ n = Node r 3 0 \/ T !! t = Some n).
  { intros t n [[<- <-]|[_ Ht]]%lookup_insert_Some; [by left|by right]. }
  split.
  - destruct Hi as [_ Hrep Hram Hac Hex Htab Hco Hpl Hus]. constructor; try done.
    + destruct Hs as [S1 S2 S3 S4 S5 S6]. constructor.
      * intros t n Ht. destruct (Hold t n Ht) as [[-> ->]|Ht']; [done|by apply S1].
      * intros t n Ht. destruct (Hold t n Ht) as [[-> ->]|Ht']; [|by eapply S2]. split; [by apply (fr_ram_addr r)|by eexists].
      * intros t r' l q i Ht Hsl. destruct (Hold _ _ Ht) as [[-> [= -> -> ->]]|Ht'].
        -- left. unfold entry. rewrite Hp. cbn. apply Hlow. destruct Hsl as [Hi Ho]. specialize (Ho eq_refl). cbn in Ho.
           unfold owns in Ho. destruct (Z.eqb_spec r kroot); [done|]. apply Z.ltb_lt in Ho. lia.
        -- destruct (S3 t r' l q i Ht' Hsl) as [?|[? Hd]]; [by left|right]. split; [done|]. by eapply lookup_weaken.
      * intros t r' l q Ht Hl. destruct (Hold _ _ Ht) as [[-> [= -> -> ->]]|Ht']; [lia|].
        destruct (S4 t r' l q Ht' Hl) as (u & Hu & Hrest). exists u. split; [by eapply lookup_weaken|done].
      * intros t r' q i Ht Hi. destruct (Hold _ _ Ht) as [[-> [=]]|Ht']. by apply S5.
      * intros r' v x Hx. destruct (S6 r' v x Hx) as (Hb & t & Ht). split; [done|]. exists t. by eapply lookup_weaken.
    + intros f Hf. specialize (Hac f Hf). unfold bump1, tab in *. destruct (Z.eqb_spec f r) as [E|Hn]; [subst f|]; unfold T'.
      * rewrite lookup_insert_eq. rewrite HT in Hac. lia.
      * by rewrite lookup_insert_ne.
    + intros f. specialize (Hex f). unfold bump1 in Hex. destruct (Z.eqb_spec f r) as [E|]; [subst f; lia|done].
    + intros t n Ht Hrt. destruct (Hold t n Ht) as [[-> ->]|Ht']; [done|by eapply Htab].
    + intros k x Hx Hl. destruct (Hpl k x Hx Hl) as [HT' HX']. pose proof (Hfree k x Hx) as Hne. unfold bump1 in HX'. unfold T'. rewrite lookup_insert_ne by done.
      split; [done|]. destruct (Z.eqb_spec (addr x) r); done.
    + intros t n Ht Hroot. destruct (Hold t n Ht) as [[-> ->]|Ht']; [done|by eapply Hus].
  - split_and!; [apply lookup_insert_eq| |done]. intros t n Ht Hroot. destruct (Hold t n Ht) as [[-> _]|Ht']; [done|]. by apply Hno in Ht'.
Qed.

Lemma alloc_pml4_spec s M T P X n : inv s M T P X -> T !! kroot = Some n ->
  exists s' r, vmm_alloc_pml4 s kroot = Some (s', r) /\
    (r = PMM_INVALID_ADDR /\ ram s' = ram s /\ inv s' M T P X \/
     r <> PMM_INVALID_ADDR /\ r <> kroot /\ M !! r = None /\ T !! r = None /\ fr_ram r /\ inv s' (<[r := 1]> M) (<[r := Node r 3 0]> T) P X /\
     empty_space (<[r := Node r 3 0]> T) P r /\ (forall u, u <> r -> ram s' !! u = ram s !! u)).
Proof.
  intros Hi Hk. unfold vmm_alloc_pml4. destruct (frame_alloc_spec kroot kwin s M T P X Hi) as (s1 & o & -> & Hram & Ho). cbn [mbind option_bind].
  destruct o as [r|]; [|exists s1, PMM_INVALID_ADDR; split; [done|by left]]. destruct Ho as (Hr & HM & HT & Hrep).
  pose proof (alloc_hold kroot kwin s s1 M T P X r Hi Hram Hr HM Hrep) as Hi1. destruct (vi_ram _ _ _ _ _ _ _ Hi1 r Hr) as [p Hp].
  destruct (sh_mem _ _ _ _ _ (vi_shape _ _ _ _ _ _ _ Hi1) _ _ Hk) as [_ [q Hq]]. rewrite Hp, Hq. cbn [mbind option_bind].
  set (s2 := with_ram _ s1). exists s2, r. split; [done|]. right. destruct (fr_ram_addr r Hr) as [_ Hinv]. assert (Hkr : r <> kroot) by congruence.
  destruct (free_frame_unused _ _ _ _ _ _ _ _ Hi Hr HM) as (_ & HX & HP).
  assert (Hoth : forall u, u <> r -> ram s2 !! u = ram s !! u) by (intros u Hu; cbn; by rewrite lookup_insert_ne, Hram).
  assert (Hi2 : inv s2 (<[r := 1]> M) T P (bump1 r 1 X)).
  { eapply inv_data; [exact Hi1|done| |]; intros u Hu; cbn.
    - destruct (decide (u = r)) as [->|]; [rewrite lookup_insert_eq; by eexists|by rewrite lookup_insert_ne].
    - rewrite lookup_insert_ne; [done|]. intros <-. rewrite HT in Hu. by destruct Hu. }
  destruct (root_added s2 (<[r := 1]> M) T P X r (upper_half q) Hi2) as [K1 K2]; try done.
  - apply lookup_insert_eq.
  - apply lookup_insert_eq.
  - intros i Hlt. apply upper_half_low. lia.
  - intros k x Hx Ha. pose proof (vm_leaves _ _ _ _ _ _ _ Hi k x Hx) as Hl. destruct (l_ref x) eqn:El.
    + assert (1 <= refs P r); [|lia]. eapply refs_pos; [exact Hx|]. unfold counts. by rewrite El, Ha, Z.eqb_refl.
    + rewrite Ha in Hl. destruct Hl as [_ Hl]. specialize (Hl Hr). lia.
Qed.

(** The last holder frees the frame. *)
Lemma free_hold s M T P X D f : inv s M T P (bump1 f 1 X) -> backed P D -> (forall g, D g <= X g) -> fr_ram f -> M !! f = Some 1 ->
  exists s', free s f = Some s' /\ ram s' = ram s /\ inv s' (delete f M) T P X.
Proof.
  intros Hi [HD Hb] HX Hr HM. unfold free. destruct (fr_free_ok _ _ _ (vi_rep _ _ _ _ _ _ _ Hi) HM) as (a & -> & Hrep). cbn [mbind option_bind].
  eexists. split; [done|]. split; [done|]. pose proof (vi_acct _ _ _ _ _ _ _ Hi f Hr) as Hf. rewrite HM in Hf. unfold bump1 in Hf. rewrite Z.eqb_refl in Hf.
  cbn in Hf. pose proof (map_refs_nonneg P f). assert (0 <= X f) by (specialize (HX f); specialize (HD f); lia).
  assert (HT : T !! f = None) by (unfold tab in Hf; destruct (T !! f); [lia|done]).
  destruct Hi as [Hs _ Hram Hac Hex Htab Hco Hpl Hus]. constructor; try done.
  - intros g Hg. specialize (Hac g Hg). unfold bump1 in Hac. destruct (Z.eqb_spec g f) as [E|]; [subst g; rewrite lookup_delete_eq; cbn; lia|by rewrite lookup_delete_ne].
  - intros g. specialize (HX g). specialize (HD g). lia.
  - intros t n Ht Hrt. rewrite lookup_delete_ne by congruence. by eapply Htab.
  - intros k x Hx Hl. destruct (Hpl k x Hx Hl) as [? _]. split; [done|]. intros Hrx. specialize (Hb k x Hx Hl Hrx). specialize (HX (addr x)). lia.
Qed.

Lemma backed_sub P P' D : P' ⊆ P -> backed P D -> backed P' D.
Proof. intros Hsub [HD Hb]. split; [done|]. intros k x Hx. apply (Hb k x). by eapply lookup_weaken. Qed.

(** A space is dropped with its root. *)
Lemma drop_space s M T P X D r m :
  inv s M T P X -> backed P D -> (forall g, D g <= X g) -> r <> kroot -> T !! r = Some (Node r 3 0) ->
  (forall v x, P !! (r, v) = Some x -> l_ref x = negb (mmio_at m (v * 4096))) ->
  exists s1 s' M', vmm_free_user_ex s r m = Some s1 /\ free s1 r = Some s' /\ ram s' = ram s /\
    inv s' M' (filter (fun tn => n_root tn.2 <> r) T) (filter (fun kx => kx.1.1 <> r) P) X.
Proof.
  intros Hi Hb HX Hk Hr Htag. destruct (free_user_spec kroot kwin s M T P X r m Hi Hk Hr Htag) as (s1 & M1 & Hrun & Hram & HM & Hi1).
  destruct (free_hold s1 M1 _ _ X D r Hi1) as (s' & Hf & Hram' & Hi'); [|done| |done|].
  - eapply backed_sub; [apply map_filter_subseteq|done].
  - apply (vi_user _ _ _ _ _ _ _ Hi r _ Hr). done.
  - exists s1, s', (delete r M1). split_and!; [done..|congruence|done].
Qed.

(** ** Fork and exit *)

(** The same frames with the same references, whatever the rights. *)
Definition same_frames_as P P' : Prop := forall k, (fun x => (addr x, l_ref x)) <$> P' !! k = (fun x => (addr x, l_ref x)) <$> P !! k.

Lemma refs_similar P P' f : same_frames_as P P' -> refs P' f = refs P f.
Proof.
  intros Hs. assert (Hv : forall Q : gmap (Z * Z) leaf, refs Q f =
    Z.of_nat (size (filter (fun kx : Z * Z * (Z * bool) => kx.2.2 && (kx.2.1 =? f) = true) ((fun x => (addr x, l_ref x)) <$> Q)))).
  { intros Q. unfold refs, counts. rewrite map_filter_fmap, map_size_fmap. done. }
  rewrite !Hv. assert ((fun x => (addr x, l_ref x)) <$> P' = (fun x => (addr x, l_ref x)) <$> P) as ->; [|done].
  apply map_eq. intros k. rewrite !lookup_fmap. apply Hs.
Qed.

Lemma inv_backed s M T P X : inv s M T P X -> backed P (fun f => Z.min 1 (X f)) /\ forall f, Z.min 1 (X f) <= X f.
Proof.
  intros Hi. split; [|lia]. split.
  - intros f. pose proof (vi_extra _ _ _ _ _ _ _ Hi f). lia.
  - intros k x Hx Hl Hr. destruct (vi_plain _ _ _ _ _ _ _ Hi k x Hx Hl) as [_ HX]. specialize (HX Hr). lia.
Qed.

(** No area is both a shared memory object and device memory. *)
Definition areas_distinct (m : mm) : Prop := forall v a, area m v = Some a -> v_shmem a <> 0 -> bits (v_flags a) VMA_MMIO = false.

Lemma shared_mmio m v : areas_distinct m -> is_shared m v && negb (is_shmem m v) = mmio_at (Some m) (v * 4096).
Proof.
  intros Hd. specialize (Hd v). unfold is_shared, is_shmem, mmio_at, area in *. cbn [mbind option_bind].
  destruct (mm_vma_find m (v * 4096)) as [a|]; [|done]. specialize (Hd a eq_refl). destruct (Z.eqb_spec (v_shmem a) 0) as [|Hn]; cbn; [by rewrite andb_true_r|].
  by rewrite Hd.
Qed.

(** The entries of a copy hold references where the areas say so. *)
Lemma cloned_tags src dst m s M T P s' M' T' P' ok v x : areas_distinct m -> tagged src m P -> empty_space T P dst ->
  cloned src dst m user_page (fun _ => True) s M T P s' M' T' P' ok -> P' !! (dst, v) = Some x -> l_ref x = negb (mmio_at (Some m) (v * 4096)).
Proof.
  intros Hd Htag (_ & _ & Hemp) Hcl Hx. rewrite <- shared_mmio by done. destruct (decide (user_page v)) as [Hu|Hu].
  - destruct (cl_pages _ _ _ _ _ _ _ _ _ _ _ _ _ _ Hcl v Hu) as [Hp|(_ & _ & Hn)]; [|congruence]. unfold page_copied in Hp.
    destruct (P !! (src, v)) as [y|] eqn:Ey; [|destruct Hp; congruence]. destruct Hp as (xs & xd & _ & Hxd & Hcp). assert (xd = x) as -> by congruence.
    specialize (Htag v y Ey). unfold copied in Hcp. destruct (is_shared m v) eqn:Es; [destruct Hcp as [_ ->]; done|].
    destruct Hcp as [(_ & Hl & _)|[_ ->]]; [done|]. exact Htag.
  - rewrite (cl_other _ _ _ _ _ _ _ _ _ _ _ _ _ _ Hcl dst v), Hemp in Hx by by right. done.
Qed.

(** And those of the source the frames they had. *)
Lemma cloned_source src dst m s M T P s' M' T' P' ok r v : r <> dst ->
  cloned src dst m user_page (fun _ => True) s M T P s' M' T' P' ok ->
  (fun x => (addr x, l_ref x)) <$> P' !! (r, v) = (fun x => (addr x, l_ref x)) <$> P !! (r, v).
Proof.
  intros Hr Hcl. destruct (decide (r = src /\ user_page v)) as [[-> Hu]|Hno].
  - destruct (cl_pages _ _ _ _ _ _ _ _ _ _ _ _ _ _ Hcl v Hu) as [Hp|(_ & -> & _)]; [|done].
    unfold page_copied in Hp. destruct (P !! (src, v)) as [x|]; [|by destruct Hp as [-> _]]. destruct Hp as (xs & xd & -> & _ & Hcp).
    unfold copied in Hcp. destruct (is_shared m v); [by destruct Hcp as [-> _]|]. destruct Hcp as [(-> & _)|[-> _]]; [done|]. cbn. by rewrite addr_cow.
  - rewrite (cl_other _ _ _ _ _ _ _ _ _ _ _ _ _ _ Hcl r v); [done|]. destruct (decide (r = src)) as [->|]; [right; intros Hu; by apply Hno|by left].
Qed.

Definition fork_room M P (src : Z) : Prop :=
  1 + Z.of_nat (size (spages P src)) <= 2 ^ 32 - 1 /\ forall f n, M !! f = Some n -> n + Z.of_nat (size (spages P src)) <= 2 ^ 32 - 1.

(** Without device memory the areas make no difference to the release. *)
Lemma for_all_ext l (f g : machine A -> Z -> option (machine A)) s : (forall s i, f s i = g s i) -> for_all l f s = for_all l g s.
Proof. intros Hfg. induction l as [|i l IH] in s |- *; [done|]. cbn [for_all]. rewrite Hfg. destruct (g s i) as [s'|]; cbn [mbind option_bind]; [apply IH|done]. Qed.

Lemma free_entry_ext f g shift va tbl s k : (forall va t s i, f va t s i = g va t s i) -> free_entry f shift va tbl s k = free_entry g shift va tbl s k.
Proof.
  intros Hfg. unfold free_entry. destruct (read_word s tbl k) as [e|]; cbn [mbind option_bind]; [|done].
  destruct (negb _); [done|]. by rewrite (for_all_ext _ _ _ s (Hfg _ _)).
Qed.

Lemma free_user_plain s r m : (forall va, mmio_at (Some m) va = false) -> vmm_free_user s r = vmm_free_user_ex s r (Some m).
Proof.
  intros Hm. unfold vmm_free_user, vmm_free_user_ex. apply for_all_ext. intros. do 3 (apply free_entry_ext; intros).
  unfold free_leaf. by rewrite Hm.
Qed.

(** The space of a task that forked and a child that is gone. *)
Lemma fork_exit_spec s M T P X src m n :
  inv s M T P X -> T !! kroot = Some n -> src <> kroot -> T !! src = Some (Node src 3 0) -> tagged src m P -> areas_distinct m -> fork_room M P src ->
  exists s1 r, vmm_alloc_pml4 s kroot = Some (s1, r) /\
    (r <> PMM_INVALID_ADDR -> exists s2 ok s3 s4 M4 P4, vmm_clone_user_ex s1 r src (Some m) = Some (s2, ok) /\
       vmm_free_user_ex s2 r (Some m) = Some s3 /\ free s3 r = Some s4 /\ inv s4 M4 T P4 X /\ same_frames_as P P4 /\
       (forall f, fr_ram f -> default 0 (M4 !! f) = default 0 (M !! f)) /\
       (forall f, is_Some (M !! f) \/ ~ fr_ram f -> T !! f = None -> ram s4 !! f = ram s !! f) /\
       ((forall va, mmio_at (Some m) va = false) -> undo_fork s2 r = Some s4)).
Proof.
  intros Hi Hk Hsk Hs Htag Hd [Hr1 Hr2]. destruct (alloc_pml4_spec s M T P X n Hi Hk) as (s1 & r & Hrun & Hcase). exists s1, r. split; [done|].
  intros Hinv. destruct Hcase as [[-> _]|(_ & Hrk & HM & HT & Hram & Hi1 & Hemp & Hoth)]; [done|]. assert (Hne : src <> r) by congruence.
  set (T1 := <[r := Node r 3 0]> T) in *. assert (Hc : cinv kroot kwin X src r m (fun _ => False) s1 (<[r := 1]> M) T1 P).
  { constructor; [done| |done|by intros k x []]. assert (Hd0 : spages P r = ∅).
    { apply set_eq. intros v. rewrite elem_spages. destruct Hemp as (_ & _ & ->). split; [by intros [? ?]|by intros ?%elem_of_empty]. }
    constructor; rewrite Hd0, ?size_empty; [set_solver|lia|]. intros f k [[<- <-]|[_ Hf]]%lookup_insert_Some; [lia|]. specialize (Hr2 f k Hf). lia. }
  destruct (clone_user_spec kroot kwin X src r m Hne (fun _ => False) ltac:(by intros v [[]|[]]) _ _ _ _ Hc Hsk Hrk) as (s2 & ok & M2 & T2 & P2 & Hcl & [Hi2 _ _ _] & Hcln);
    [by unfold T1; rewrite lookup_insert_ne|done|].
  destruct (inv_backed _ _ _ _ _ Hi2) as [Hb2 HX2]. assert (HTr : T2 !! r = Some (Node r 3 0)).
  { eapply lookup_weaken; [apply lookup_insert_eq|apply Hcln]. }
  destruct (drop_space s2 M2 T2 P2 X _ r (Some m) Hi2 Hb2 HX2 Hrk HTr) as (s3 & s4 & M4 & Hf & Hfr & Hram4 & Hi4).
  { intros v x Hx. by eapply cloned_tags. }
  destruct (no_root _ _ _ _ (vi_shape _ _ _ _ _ _ _ Hi) HT) as [Hno HnoP].
  assert (HT4 : filter (fun tn => n_root tn.2 <> r) T2 = T).
  { apply map_eq. intros t. apply option_eq. intros nd. rewrite map_lookup_filter_Some. cbn [snd]. split.
    - intros [Ht Hn]. destruct (T1 !! t) as [nd1|] eqn:E1.
      + assert (nd1 = nd) as -> by (pose proof (lookup_weaken _ _ _ _ E1 (cl_tabs _ _ _ _ _ _ _ _ _ _ _ _ _ _ Hcln)); congruence).
        apply lookup_insert_Some in E1 as [[_ <-]|[_ E1]]; [done|done].
      + destruct (cl_new _ _ _ _ _ _ _ _ _ _ _ _ _ _ Hcln _ _ Ht E1) as (_ & _ & Hroot & _). done.
    - intros Ht. split; [|by eapply Hno]. eapply lookup_weaken; [|apply Hcln]. unfold T1. rewrite lookup_insert_ne; congruence. }
  rewrite HT4 in Hi4. set (P4 := filter (fun kx => kx.1.1 <> r) P2) in *. assert (Hsame : same_frames_as P P4).
  { intros [r' v]. destruct (decide (r' = r)) as [->|Hr'].
    - assert (P4 !! (r, v) = None) as -> by (apply map_lookup_filter_None; right; intros x _; cbn; tauto). by rewrite HnoP.
    - rewrite <- (cloned_source src r m _ _ _ _ _ _ _ _ ok r' v Hr' Hcln). f_equal. destruct (P2 !! (r', v)) as [x|] eqn:E; [by apply map_lookup_filter_Some|].
      apply map_lookup_filter_None. by left. }
  exists s2, ok, s3, s4, M4, P4. split_and!; [done..| | |].
  - intros f Hf'. rewrite (vi_acct _ _ _ _ _ _ _ Hi4 f Hf'), (vi_acct _ _ _ _ _ _ _ Hi f Hf'). by rewrite (refs_similar P P4 f Hsame).
  - intros f Hf' HTf. assert (Hfn : f <> r) by (intros ->; destruct Hf' as [[? ?]|?]; [congruence|done]). rewrite Hram4.
    rewrite (cl_data _ _ _ _ _ _ _ _ _ _ _ _ _ _ Hcln); [by apply Hoth| |].
    + rewrite lookup_insert_ne by done. done.
    + unfold T1. by rewrite lookup_insert_ne.
  - intros Hm. unfold undo_fork. rewrite (free_user_plain _ _ m Hm), Hf. exact Hfr.
Qed.
End spaces.
