(* ===== verification/VmTrace.v ===== *)
(** * Private memory

    The address spaces of a system, with copy-on-write sharing, pages allocated
    on first touch and reference counts, implement memories that have nothing to
    do with each other: every space has a page for every page number, all zero
    at first, a fork copies the memory of its parent, and a store changes one
    word of one space.  The theorem is a simulation: the code keeps [sinv], which
    relates the machine to a function from space and page number to contents,
    and every operation has the [effect] it should have on that function.

    The areas are private and anonymous; areas of files and of shared memory
    are treated in [FaultHandler]. *)

From S2P Require Import Prelude Errno DList Buddy Cred UnixNs Vma VmaSpec Frames PageTable PageTableSpec PageTableOps PageClone PageFree Shmem Pcache PcacheSpec PcacheOps PageFault FilePage ShmemSpec PageFaultSpec FaultHandler AddressSpace SpaceSpec.

(** ** The specification *)

Definition mems := Z -> Z -> page.

Definition set_mem (r : Z) (f : Z -> page) (μ : mems) : mems := fun r' => if r' =? r then f else μ r'.
Definition set_page (v : Z) (p : page) (f : Z -> page) : Z -> page := fun v' => if v' =? v then p else f v'.

Lemma set_mem_here r v p μ : set_mem r (set_page v p (μ r)) μ r v = p.
Proof. unfold set_mem, set_page. by rewrite !Z.eqb_refl. Qed.

Lemma set_mem_else r v p μ r' v' : (r', v') <> (r, v) -> set_mem r (set_page v p (μ r)) μ r' v' = μ r' v'.
Proof.
  intros Hne. unfold set_mem, set_page. destruct (Z.eqb_spec r' r) as [->|]; [|done]. destruct (Z.eqb_spec v' v) as [->|]; [done|done].
Qed.

(** What an operation with this result does. *)
Definition effect (o : op) (res : result) (μ : mems) : mems :=
  match o, res with
  | ONew _, RSpace (Some r) => set_mem r (fun _ => ∅) μ
  | OFork src _ _, RSpace (Some r) => set_mem r (μ src) μ
  | OStore r va i x, RDone true => set_mem r (set_page (page_of va) (<[i := x]> (μ r (page_of va))) (μ r)) μ
  | OUnmap r va, _ => set_mem r (set_page (page_of va) ∅ (μ r)) μ
  | _, _ => μ
  end.

(** ** The areas *)

Definition private_area (v : vma) : Prop :=
  v_shmem v = 0 /\ bits (v_flags v) VMA_FILE = false /\ bits (v_flags v) VMA_MMIO = false /\ 0 <= v_start v /\ v_end v <= 2 ^ 47.
Definition private_mm (m : mm) : Prop := areas_ok (vmas m) /\ Forall private_area (vmas m).

Lemma found_area m va v : private_mm m -> mm_vma_find m va = Some v -> private_area v /\ v_start v <= va < v_end v.
Proof.
  intros [_ Hp] Hf. unfold mm_vma_find in Hf. induction (vmas m) as [|u l IH]; [done|]. apply Forall_cons in Hp as [Hu Hl]. cbn in Hf.
  destruct (covers va u) eqn:E; [|by apply IH]. injection Hf as <-. split; [done|]. unfold covers in E.
  apply andb_prop in E as [E1%Z.leb_le E2%Z.ltb_lt]. lia.
Qed.

Lemma private_mmio m va : private_mm m -> mmio_at (Some m) va = false.
Proof.
  intros Hm. unfold mmio_at. cbn [mbind option_bind]. destruct (mm_vma_find m va) as [v|] eqn:E; [|done].
  by destruct (found_area m va v Hm E) as [(_ & _ & Hb & _) _].
Qed.

Lemma private_shared m v : private_mm m -> is_shared m v = false.
Proof.
  intros Hm. unfold is_shared, is_shmem, area. destruct (mm_vma_find m (v * 4096)) as [a|] eqn:E; [|done].
  destruct (found_area m _ a Hm E) as [(Hs & _ & Hb & _) _]. by rewrite Hs, Hb.
Qed.

Lemma clone_areas mem m v' dst : private_mm m -> mm_clone mem (areas_of m) = (v', Some dst) -> private_mm dst.
Proof.
  intros [Hok Hp] Hc. unfold mm_clone in Hc. cbn [vm_mm areas_of] in Hc. destruct (negb (mem 0%nat)); [done|].
  destruct (vmas m) as [|v0 l0] eqn:Ev; [injection Hc as <- <-; split; [split; constructor|constructor]|]. rewrite <- Ev in *.
  destruct (negb (mem 1%nat)); [done|]. set (s0 := with_mm _ _) in Hc.
  pose proof (clone_all_ok mem (vmas m) 2 [] s0 1 ltac:(done) Hok eq_refl) as Ha. destruct (clone_all mem 2 (vmas m) s0) as [s1 ok].
  destruct Ha as (_ & _ & _ & Ha & _). destruct ok; [|done]. injection Hc as _ <-. rewrite (Ha eq_refl). split; [by apply norm_ok|]. cbn.
  apply Forall_fmap. eapply Forall_impl; [exact Hp|]. intros v (H1 & H2 & H3 & H4 & H5). unfold private_area, norm, set_backing. cbn. rewrite H1. done.
Qed.

(** ** User addresses *)

Lemma page_of_small va : 0 <= va < 2 ^ 47 -> page_of va = va / 4096.
Proof.
  intros Hva. unfold page_of. change (2 ^ 36 - 1) with (Z.ones 36). rewrite Z.land_ones, Z.shiftr_div_pow2 by lia. apply Z.mod_small. mlia.
Qed.

Lemma user_owned kroot kwin r va : r <> kroot -> 0 <= va < 2 ^ 47 -> owned kroot kwin r (page_of va).
Proof.
  intros Hr Hva. unfold owned, owns. destruct (Z.eqb_spec r kroot); [done|]. apply Z.ltb_lt. rewrite page_of_small by done. unfold ix, span.
  change (512 ^ Z.of_nat 3) with (2 ^ 27). mlia.
Qed.

Lemma user_page_of va : 0 <= va < 2 ^ 47 -> user_page (page_of va).
Proof. intros Hva. rewrite page_of_small by done. unfold user_page. mlia. Qed.

(** ** The system *)

Section trace.
Context {A : Type} `{FrameLaws A} (kroot : Z) (kwin : Z -> bool) (free_pages_get : A -> Z).
Context (file_ino : Z -> Z) (file_live : Z -> bool) (pread : Z -> Z -> Z -> Z * page).
Context (D Y : Z -> Z).
Implicit Types (st : @vworld A) (w : kworld A) (sp : gmap Z task_mm) (M : gmap Z Z) (T : gmap Z node) (P : gmap (Z * Z) leaf) (μ : mems).

Definition others w (f : Z) : Z := crefs (pc_entries (k_pc w)) f + orefs (sw_objs (k_shm w)) f + Y f.
Definition in_spaces sp (k : Z * Z) : Prop := is_Some (sp !! k.1).

(** The space of a task. *)
Definition space_ok T (r : Z) (m : task_mm) : Prop :=
  r <> kroot /\ T !! r = Some (Node r 3 0) /\ tm_pml4 m = r /\ 1 <= tm_refs m < 2 ^ 32 /\ exists a, tm_mm m = Some a /\ private_mm a.

(** What a space holds at a page. *)
Definition holds w P (r v : Z) (p : page) : Prop :=
  match P !! (r, v) with None => p = ∅ | Some x => ram (k_vm w) !! addr x = Some p end.

Record sinv_at st μ M T P (l : list Z) : Prop := {
  si_k : kinv kroot kwin D (vw_k st) M T P l Y;
  si_kroot : T !! kroot = Some (Node kroot 3 0);
  si_space r m : vw_spaces st !! r = Some m -> space_ok T r m;
  si_counted k x : in_spaces (vw_spaces st) k -> P !! k = Some x -> l_ref x = true;
  si_excl : excl (others (vw_k st)) (in_spaces (vw_spaces st)) P;
  si_view r v : is_Some (vw_spaces st !! r) -> user_page v -> holds (vw_k st) P r v (μ r v);
}.

Definition sinv st μ : Prop := exists M T P l, sinv_at st μ M T P l.

(** ** Preconditions *)

(** Reference counts are far from their end. *)
Definition light st : Prop := forall f n, fr_ref_get (fa (k_vm (vw_k st))) f = Some n -> n < 2 ^ 31.

(** At most [2 ^ 30] pages are in memory. *)
Definition resident st (r : Z) : Prop := exists L : list Z, Z.of_nat (length L) <= 2 ^ 30 /\
  forall v, user_page v -> vmm_page_phys (k_vm (vw_k st)) r (v * 4096) <> Some PMM_INVALID_ADDR -> v ∈ L.

Definition op_ok st (o : op) : Prop :=
  light st /\
  match o with
  | ONew m => private_mm m
  | OFork r _ _ => is_Some (vw_spaces st !! r) /\ resident st r
  | OShare r => exists m, vw_spaces st !! r = Some m /\ tm_refs m < 2 ^ 32 - 1
  | ORelease r => is_Some (vw_spaces st !! r)
  | OAreas r m => is_Some (vw_spaces st !! r) /\ private_mm m
  | OFault r va ec => is_Some (vw_spaces st !! r) /\ Z.testbit ec 3 = false /\ (Z.testbit ec 2 = true \/ va < 2 ^ 63)
  | OLoad r va i => is_Some (vw_spaces st !! r) /\ 0 <= va < 2 ^ 47
  | OStore r va _ _ | OUnmap r va => is_Some (vw_spaces st !! r) /\ 0 <= va < 2 ^ 47
  end.

Lemma light_bnd st μ M T P l : sinv_at st μ M T P l -> light st -> forall f n, M !! f = Some n -> n < 2 ^ 31.
Proof.
  intros Hs Hl f n Hf. apply (Hl f). eapply fr_get_ok; [|exact Hf]. apply (vi_rep _ _ _ _ _ _ _ (ki_vm _ _ _ _ _ _ _ _ _ (si_k _ _ _ _ _ _ Hs))).
Qed.

Lemma others_nonneg w M T P l : kinv kroot kwin D w M T P l Y -> forall f, D f <= others w f.
Proof.
  intros Hk f. unfold others. pose proof (crefs_nonneg (pc_entries (k_pc w)) f). pose proof (orefs_nonneg (sw_objs (k_shm w)) f).
  pose proof (ki_hold _ _ _ _ _ _ _ _ _ Hk f). lia.
Qed.

Lemma space_at st μ M T P l r va : sinv_at st μ M T P l -> is_Some (vw_spaces st !! r) -> 0 <= va < 2 ^ 47 -> in_space kroot kwin T r va.
Proof.
  intros Hs [m Hm] Hva. destruct (si_space _ _ _ _ _ _ Hs r m Hm) as (Hr & HT & _). split; [done|by apply user_owned].
Qed.

(** A page that may be written is nobody else's. *)
Lemma lone_frame st μ M T P l k x j y : sinv_at st μ M T P l -> in_spaces (vw_spaces st) k -> P !! k = Some x ->
  bits (l_pte x) PAGE_WRITABLE = true -> in_spaces (vw_spaces st) j -> P !! j = Some y -> j <> k -> addr y <> addr x.
Proof.
  intros Hs Hk Hx Hw Hj Hy Hne Ha. pose proof (excl_other _ _ _ _ _ _ _ (si_excl _ _ _ _ _ _ Hs) Hk Hx Hw (not_eq_sym Hne) Hy) as Hc.
  unfold counts in Hc. by rewrite (si_counted _ _ _ _ _ _ Hs j y Hj Hy), Ha, Z.eqb_refl in Hc.
Qed.

(** ** Fewer spaces *)

Lemma sinv_less w sp sp' μ μ' M T P l :
  sinv_at (VWorld w sp') μ' M T P l -> (forall r m, sp !! r = Some m -> sp' !! r = Some m) -> (forall r, is_Some (sp !! r) -> μ r = μ' r) ->
  sinv_at (VWorld w sp) μ M T P l.
Proof.
  intros [Hk Hkr Hsp Hc He Hv] Hsub Hm. cbn in *. assert (Hin : forall k, in_spaces sp k -> in_spaces sp' k).
  { intros k [m Hk']. exists m. by apply Hsub. }
  constructor; cbn; eauto.
  - intros k x Hlk. apply He. auto.
  - intros r v Hr Hu. rewrite Hm by done. apply Hv; [|done]. by apply (Hin (r, v)).
Qed.

(** ** Loads and stores *)

Lemma mmu_entry_spec st μ M T P l r va wr : sinv_at st μ M T P l -> is_Some (vw_spaces st !! r) -> 0 <= va < 2 ^ 47 ->
  mmu_entry (k_vm (vw_k st)) r va wr =
    Some (P !! (r, page_of va) ≫= fun x => if negb wr || bits (l_pte x) PAGE_WRITABLE then Some (addr x) else None).
Proof.
  intros Hs Hr Hva. pose proof (vi_shape _ _ _ _ _ _ _ (ki_vm _ _ _ _ _ _ _ _ _ (si_k _ _ _ _ _ _ Hs))) as Hsh. unfold mmu_entry.
  destruct (pte_find kroot kwin _ T P r va Hsh (space_at _ _ _ _ _ _ _ _ Hs Hr Hva)) as (o & -> & Ho). cbn [mbind option_bind].
  destruct o as [[t i]|]; [|by rewrite Ho]. destruct Ho as (_ & _ & Hm & He). rewrite read_entry, He by done. cbn [mbind option_bind].
  destruct (P !! (r, page_of va)) as [x|] eqn:E; cbn [from_option]; [|by rewrite bits_0]. by rewrite (leaf_present _ _ _ _ _ _ _ Hsh E).
Qed.

Lemma load_ok st μ M T P l r va i : sinv_at st μ M T P l -> is_Some (vw_spaces st !! r) -> 0 <= va < 2 ^ 47 ->
  exists x, mmu_load (k_vm (vw_k st)) r va i = Some x /\ match x with Some x => x = word (μ r (page_of va)) i | None => True end.
Proof.
  intros Hs Hr Hva. unfold mmu_load. rewrite (mmu_entry_spec _ _ _ _ _ _ _ _ _ Hs Hr Hva). cbn [mbind option_bind].
  pose proof (si_view _ _ _ _ _ _ Hs r (page_of va) Hr (user_page_of va Hva)) as Hv. unfold holds in Hv.
  destruct (P !! (r, page_of va)) as [x|]; cbn [mbind option_bind negb orb]; [|by exists None]. unfold read_word. rewrite Hv. cbn [mbind option_bind]. by eexists.
Qed.

Lemma store_ok w sp μ M T P l r va i x : sinv_at (VWorld w sp) μ M T P l -> is_Some (sp !! r) -> 0 <= va < 2 ^ 47 ->
  exists s ok, mmu_store (k_vm w) r va i x = Some (s, ok) /\ sinv_at (VWorld (set_vm s w) sp) (effect (OStore r va i x) (RDone ok) μ) M T P l.
Proof.
  intros Hs Hr Hva. unfold mmu_store. rewrite (mmu_entry_spec _ _ _ _ _ _ _ _ _ Hs Hr Hva). cbn [mbind option_bind vw_k negb orb].
  pose proof (si_view _ _ _ _ _ _ Hs r (page_of va) Hr (user_page_of va Hva)) as Hv. unfold holds in Hv. cbn [vw_k] in Hv.
  assert (Hstay : exists s ok, Some (k_vm w, false) = Some (s, ok) /\ sinv_at (VWorld (set_vm s w) sp) (effect (OStore r va i x) (RDone ok) μ) M T P l).
  { exists (k_vm w), false. split; [done|]. cbn. destruct w as [[] ?]. exact Hs. }
  destruct (P !! (r, page_of va)) as [y|] eqn:Ey; cbn [mbind option_bind]; [|exact Hstay].
  destruct (bits (l_pte y) PAGE_WRITABLE) eqn:Ew; [|exact Hstay]. unfold write_word. rewrite Hv. cbn [mbind option_bind].
  set (s' := with_ram _ _). exists s', true. split; [done|]. set (k := (r, page_of va)) in *. set (p := μ r (page_of va)) in *.
  assert (Hk : in_spaces sp k) by done. pose proof Hs as [Hki Hkr Hsp Hc He Hvw]. cbn [vw_k vw_spaces] in *. pose proof (ki_vm _ _ _ _ _ _ _ _ _ Hki) as Hi.
  pose proof (mapped_not_table _ _ _ _ _ _ _ _ _ Hi Ey) as HT. constructor; try done; cbn [vw_k vw_spaces].
  - eapply kinv_tables; [exact Hki| |apply Hki..]. eapply inv_data; [exact Hi|done| |]; intros u Hu; cbn.
    + destruct (decide (u = addr y)) as [->|]; [rewrite lookup_insert_eq; by eexists|by rewrite lookup_insert_ne].
    + rewrite lookup_insert_ne; [done|]. intros <-. rewrite HT in Hu. by destruct Hu.
  - intros r' v Hr' Hu. specialize (Hvw r' v Hr' Hu). unfold holds in *. cbn [effect].
    destruct (decide ((r', v) = k)) as [Heq|Hne].
    + rewrite Heq, Ey. injection Heq as -> ->. rewrite set_mem_here. apply lookup_insert_eq.
    + rewrite set_mem_else by done. destruct (P !! (r', v)) as [z|] eqn:Ez; [|done]. cbn. rewrite lookup_insert_ne; [done|].
      intros Ha. by eapply (lone_frame (VWorld w sp) μ M T P l k y (r', v) z).
Qed.

(** ** Pages given up *)

Lemma refs_sub P P' f : P' ⊆ P -> refs P' f <= refs P f.
Proof. intros Hsub. unfold refs. apply Nat2Z.inj_le, map_subseteq_size. by apply map_filter_subseteq_mono. Qed.

Lemma excl_sub X lone P P' : P' ⊆ P -> excl X lone P -> excl X lone P'.
Proof.
  intros Hsub He j x Hj Hx Hw. destruct (He j x Hj (lookup_weaken _ _ _ _ Hx Hsub) Hw) as (H1 & H2 & H3). split_and!; [done| |done].
  pose proof (refs_sub P P' (addr x) Hsub). assert (1 <= refs P' (addr x)); [|lia]. eapply refs_pos; [exact Hx|]. unfold counts. by rewrite H1, Z.eqb_refl.
Qed.

Lemma unmap_ok w sp μ M T P l r va : sinv_at (VWorld w sp) μ M T P l -> is_Some (sp !! r) -> 0 <= va < 2 ^ 47 ->
  exists s M', vmm_page_free (k_vm w) r va = Some s /\
    sinv_at (VWorld (set_vm s w) sp) (effect (OUnmap r va) (RDone true) μ) M' T (delete (r, page_of va) P) l.
Proof.
  intros Hs Hr Hva. pose proof (space_at _ _ _ _ _ _ r va Hs Hr Hva) as Hin. destruct Hs as [Hki Hkr Hsp Hc He Hvw]. cbn [vw_k vw_spaces] in *.
  pose proof (ki_vm _ _ _ _ _ _ _ _ _ Hki) as Hi. unfold vmm_page_free. set (k := (r, page_of va)).
  destruct (page_unmap_spec kroot kwin _ _ _ _ _ r va Hi Hin) as (s1 & -> & Hi1 & Hram1). cbn [mbind option_bind]. fold k in Hi1 |- *.
  assert (Hfin : forall s' M', ram s' = ram s1 -> vm_inv kroot kwin s' M' T (delete k P) (others w) ->
    sinv_at (VWorld (set_vm s' w) sp) (effect (OUnmap r va) (RDone true) μ) M' T (delete k P) l).
  { intros s' M' Hram Hi'. constructor; try done; cbn [vw_k vw_spaces].
    - eapply kinv_tables; [exact Hki|exact Hi'| |apply Hki]. eapply backed_sub; [apply delete_subseteq|apply Hki].
    - intros j x Hj [_ Hx]%lookup_delete_Some. by apply (Hc j x).
    - eapply excl_sub; [apply delete_subseteq|done].
    - intros r' v Hr' Hu. specialize (Hvw r' v Hr' Hu). unfold holds in *. cbn [effect].
      destruct (decide ((r', v) = k)) as [Heq|Hne].
      + rewrite Heq, lookup_delete_eq. injection Heq as -> ->. by rewrite set_mem_here.
      + rewrite lookup_delete_ne, set_mem_else by done. destruct (P !! (r', v)) as [z|] eqn:Ez; [|done]. cbn. rewrite Hram, Hram1; [done|].
        apply (mapped_not_table _ _ _ _ _ _ _ _ _ Hi Ez). }
  destruct (P !! k) as [x|] eqn:Ex; cbn [fmap option_fmap option_map].
  - pose proof (Hc k x Hr Ex) as Hl. pose proof (vi_counted _ _ _ _ _ _ _ Hi k x Ex Hl) as Hra.
    assert (Hw : forall f, weight f (Some x) = if f =? addr x then 1 else 0).
    { intros f. unfold weight, from_option, counts. rewrite Hl, (Z.eqb_sym f). by destruct (addr x =? f). }
    destruct (drop_hold kroot kwin s1 M T _ _ D (addr x) Hi1) as (s' & Hd & Hram & Hi'); [|done| |].
    + eapply backed_sub; [apply delete_subseteq|apply Hki].
    + cbv beta. rewrite Hw, Z.eqb_refl. pose proof (others_nonneg _ _ _ _ _ Hki (addr x)). unfold others in *. lia.
    + exists s', (drop_ref M (addr x)). split; [done|]. apply Hfin; [done|]. eapply vm_inv_ext; [|exact Hi']. intros f. unfold bump1, others. rewrite Hw.
      destruct (f =? addr x); lia.
  - exists s1, M. split; [done|]. apply Hfin; [done|]. eapply vm_inv_ext; [|exact Hi1]. intros f. unfold others. cbn. lia.
Qed.

(** ** Spaces that come and go *)

Lemma held_frame_at st μ M T P l k x : sinv_at st μ M T P l -> in_spaces (vw_spaces st) k -> P !! k = Some x -> exists n, M !! addr x = Some n.
Proof.
  intros Hs Hk Hx. eapply counted_held; [apply (ki_vm _ _ _ _ _ _ _ _ _ (si_k _ _ _ _ _ _ Hs))|exact Hx|by eapply si_counted].
Qed.

Lemma new_ok w sp μ M T P l m : sinv_at (VWorld w sp) μ M T P l -> private_mm m ->
  exists s r, vmm_alloc_pml4 (k_vm w) kroot = Some (s, r) /\
    (r = PMM_INVALID_ADDR /\ sinv_at (VWorld (set_vm s w) sp) μ M T P l \/
     r <> PMM_INVALID_ADDR /\ sp !! r = None /\ empty_space (<[r := Node r 3 0]> T) P r /\
     sinv_at (VWorld (set_vm s w) (<[r := TaskMm r (Some m) 1 0]> sp)) (set_mem r (fun _ => ∅) μ) (<[r := 1]> M) (<[r := Node r 3 0]> T) P l).
Proof.
  intros Hs Hm. pose proof Hs as [Hki Hkr Hsp Hc He Hvw]. cbn [vw_k vw_spaces] in *.
  destruct (alloc_pml4_spec kroot kwin _ _ _ _ _ _ (ki_vm _ _ _ _ _ _ _ _ _ Hki) Hkr) as (s & r & Hrun & Hcase). exists s, r. split; [done|].
  destruct Hcase as [(-> & Hram & Hi)|(Hinv & Hrk & HM & HT & Hram & Hi & Hemp & Hoth)].
  - left. split; [done|]. constructor; try done; cbn [vw_k vw_spaces].
    + eapply kinv_tables; [exact Hki|exact Hi|apply Hki..].
    + intros r v Hr Hu. specialize (Hvw r v Hr Hu). unfold holds in *. cbn. by rewrite Hram.
  - right. assert (Hnew : sp !! r = None).
    { destruct (sp !! r) as [m'|] eqn:E; [|done]. destruct (Hsp r m' E) as (_ & HT' & _). congruence. }
    split_and!; [done..|]. set (sp' := <[r := _]> sp). pose proof Hemp as (Hroot & _ & HnoP).
    assert (Hin : forall k x, in_spaces sp' k -> P !! k = Some x -> in_spaces sp k).
    { intros [r' v] x Hk Hx. unfold in_spaces, sp' in *. cbn in *. rewrite lookup_insert_ne in Hk; [done|]. intros <-. by rewrite HnoP in Hx. }
    constructor; cbn [vw_k vw_spaces].
    + eapply kinv_tables; [exact Hki|exact Hi|apply Hki..].
    + by rewrite lookup_insert_ne.
    + intros r' m' [[<- <-]|[Hne Hr']]%lookup_insert_Some.
      * split_and!; [done..|]. by exists m.
      * destruct (Hsp r' m' Hr') as (K1 & K2 & K3). split; [done|]. by rewrite lookup_insert_ne.
    + intros k x Hk Hx. apply (Hc k x); [by eapply Hin|done].
    + intros k x Hk Hx. apply (He k x); [by eapply Hin|done].
    + intros r' v Hr' Hu. unfold holds, set_mem. destruct (Z.eqb_spec r' r) as [->|Hne]; [by rewrite HnoP|].
      unfold sp' in Hr'. rewrite lookup_insert_ne in Hr' by done. specialize (Hvw r' v Hr' Hu). unfold holds in Hvw.
      destruct (P !! (r', v)) as [x|] eqn:Ex; [|done]. cbn. rewrite Hoth; [done|].
      destruct (held_frame_at (VWorld w sp) _ _ _ _ _ (r', v) x Hs Hr' Ex) as [n Hn]. congruence.
Qed.

Lemma drop_ok w sp μ M T P l r m m' : sinv_at (VWorld w sp) μ M T P l -> sp !! r = Some m -> m' = None \/ m' = tm_mm m ->
  exists s1 s' M' T' P', vmm_free_user_ex (k_vm w) r m' = Some s1 /\ free s1 r = Some s' /\
    sinv_at (VWorld (set_vm s' w) (delete r sp)) μ M' T' P' l.
Proof.
  intros Hs Hr Hm'. pose proof Hs as [Hki Hkr Hsp Hc He Hvw]. cbn [vw_k vw_spaces] in *. destruct (Hsp r m Hr) as (Hrk & HT & _ & _ & a & Ha & Hpa).
  assert (Hmmio : forall va, mmio_at m' va = false).
  { intros va. destruct Hm' as [->| ->]; [done|]. rewrite Ha. by apply private_mmio. }
  destruct (drop_space kroot kwin _ _ _ _ _ D r m' (ki_vm _ _ _ _ _ _ _ _ _ Hki) (ki_backed _ _ _ _ _ _ _ _ _ Hki)) as (s1 & s' & M' & Hf & Hfr & Hram & Hi); [|done|done| |].
  { apply (others_nonneg _ _ _ _ _ Hki). }
  { intros v x Hx. rewrite Hmmio. apply (Hc (r, v) x); [by exists m|done]. }
  set (T' := filter _ T) in Hi. set (P' := filter _ P) in Hi. assert (HP' : P' ⊆ P) by apply map_filter_subseteq.
  assert (Hin : forall k, in_spaces (delete r sp) k -> in_spaces sp k /\ k.1 <> r).
  { intros k [x Hk]. apply lookup_delete_Some in Hk as [Hne Hk]. split; [by exists x|done]. }
  exists s1, s', M', T', P'. split_and!; [done..|]. constructor; cbn [vw_k vw_spaces].
  - eapply kinv_tables; [exact Hki|exact Hi| |apply Hki]. eapply backed_sub; [exact HP'|apply Hki].
  - apply map_lookup_filter_Some. by split.
  - intros r' x [Hne Hx]%lookup_delete_Some. destruct (Hsp r' x Hx) as (K1 & K2 & K3). split; [done|]. split; [|done]. apply map_lookup_filter_Some. by split.
  - intros k x Hk Hx. apply (Hc k x); [by apply Hin|by eapply lookup_weaken].
  - eapply excl_sub; [exact HP'|]. intros k x Hk. apply He. by apply Hin.
  - intros r' v Hr' Hu. destruct (Hin (r', v) Hr') as [Hr'' Hne]. specialize (Hvw r' v Hr'' Hu). unfold holds in *.
    assert (P' !! (r', v) = P !! (r', v)) as ->; [|by destruct (P !! (r', v)); [cbn; rewrite Hram|]].
    destruct (P !! (r', v)) as [x|] eqn:Ex; [by apply map_lookup_filter_Some|]. apply map_lookup_filter_None. by left.
Qed.

(** ** Fork *)

Lemma resident_size st μ M T P l r : sinv_at st μ M T P l -> is_Some (vw_spaces st !! r) -> resident st r -> Z.of_nat (size (spages P r)) <= 2 ^ 30.
Proof.
  intros Hs Hr (L & HL & Hin). assert (Hsub : elements (spages P r) ⊆+ L).
  { apply NoDup_submseteq; [apply NoDup_elements|]. intros v [x Hx]%elem_of_elements%elem_spages.
    pose proof (vi_shape _ _ _ _ _ _ _ (ki_vm _ _ _ _ _ _ _ _ _ (si_k _ _ _ _ _ _ Hs))) as Hsh. pose proof Hr as [m Hm].
    destruct (si_space _ _ _ _ _ _ Hs r m Hm) as (Hrk & _). pose proof (leaves_user _ _ _ _ _ r Hsh v x Hrk Hx) as Hu. apply Hin; [done|].
    assert (Hva : 0 <= v * 4096 < 2 ^ 47) by (unfold user_page in Hu; lia). pose proof (page_of_small _ Hva) as Hpg. rewrite Z.div_mul in Hpg by done.
    rewrite (page_phys_spec kroot kwin _ T P r _ Hsh (space_at _ _ _ _ _ _ _ _ Hs Hr Hva)), Hpg, Hx. cbn.
    intros [= Hbad]. assert (Hk : Z.testbit PMM_INVALID_ADDR 0 = true) by done. unfold addr in Hbad. rewrite <- Hbad, Z.land_spec in Hk.
    change (Z.testbit PAGE_ADDR_MASK 0) with false in Hk. by rewrite andb_false_r in Hk. }
  apply submseteq_length in Hsub. unfold size, set_size. cbn. lia.
Qed.

(** What a clone leaves of the entries of the other spaces. *)
Lemma cloned_entry src dst m s M T P s' M' T' P' ok r v :
  private_mm m -> cloned src dst m user_page (fun _ => True) s M T P s' M' T' P' ok -> r <> dst ->
  match P !! (r, v) with
  | None => P' !! (r, v) = None
  | Some x => exists x', P' !! (r, v) = Some x' /\ addr x' = addr x /\ l_ref x' = l_ref x
  end.
Proof.
  intros Hm Hcl Hr. destruct (decide (r = src /\ user_page v)) as [[-> Hu]|Hno].
  - destruct (cl_pages _ _ _ _ _ _ _ _ _ _ _ _ _ _ Hcl v Hu) as [Hp|(_ & -> & _)]; [|destruct (P !! (src, v)) as [x|]; [by exists x|done]].
    unfold page_copied in Hp. destruct (P !! (src, v)) as [x|]; [|apply Hp]. destruct Hp as (xs & xd & Hs & Hd & Hcp). exists xs. split; [done|].
    unfold copied in Hcp. rewrite private_shared in Hcp by done. destruct Hcp as [(-> & _)|[-> _]]; [done|]. split; [apply addr_cow|done].
  - rewrite (cl_other _ _ _ _ _ _ _ _ _ _ _ _ _ _ Hcl r v); [destruct (P !! (r, v)) as [x|]; [by exists x|done]|].
    destruct (decide (r = src)) as [->|]; [right; intros Hu; by apply Hno|by left].
Qed.

(** And of the copy's. *)
Lemma cloned_new src dst m s M T P s' M' T' P' ok v :
  private_mm m -> cloned src dst m user_page (fun _ => True) s M T P s' M' T' P' ok -> empty_space T P dst ->
  (forall x, P !! (src, v) = Some x -> l_ref x = true) ->
  match P' !! (dst, v) with
  | Some xd => l_ref xd = true /\ exists x, P !! (src, v) = Some x /\ (ram s' !! addr xd = ram s !! addr x \/ addr xd = addr x)
  | None => ok = true -> user_page v -> P !! (src, v) = None
  end.
Proof.
  intros Hm Hcl (_ & _ & Hemp) Hcnt. destruct (decide (user_page v)) as [Hu|Hu].
  - destruct (cl_pages _ _ _ _ _ _ _ _ _ _ _ _ _ _ Hcl v Hu) as [Hp|(-> & _ & ->)]; [|done]. unfold page_copied in Hp.
    destruct (P !! (src, v)) as [x|]; [|destruct Hp as [_ ->]; done]. destruct Hp as (xs & xd & Hs & -> & Hcp).
    unfold copied in Hcp. rewrite private_shared in Hcp by done. destruct Hcp as [(_ & Hl & _ & _ & _ & Hr)|[_ ->]].
    + split; [done|]. exists x. split; [done|by left].
    + split; [exact (Hcnt x eq_refl)|]. exists x. split; [done|]. right. apply addr_cow.
  - rewrite (cl_other _ _ _ _ _ _ _ _ _ _ _ _ _ _ Hcl dst v) by by right. rewrite Hemp. done.
Qed.

Lemma clone_ok w sp μ M T P l src dst ms a md :
  sinv_at (VWorld w sp) μ M T P l -> sp !! src = Some ms -> tm_mm ms = Some a -> sp !! dst = Some md -> src <> dst -> empty_space T P dst ->
  (forall f n, M !! f = Some n -> n < 2 ^ 31) -> Z.of_nat (size (spages P src)) <= 2 ^ 30 ->
  exists s ok M' T' P' c, vmm_clone_user_ex (k_vm w) dst src (Some a) = Some (s, ok) /\
    sinv_at (VWorld (set_vm s w) sp) (set_mem dst (if ok : bool then μ src else c) μ) M' T' P' l.
Proof.
  intros Hs Hsrc Ha Hdst Hne Hemp HM Hsz. pose proof Hs as [Hki Hkr Hsp Hc He Hvw]. cbn [vw_k vw_spaces] in *.
  destruct (Hsp src ms Hsrc) as (Hsk & HTs & _ & _ & a' & Ha' & Hpa). assert (a' = a) as -> by congruence.
  destruct (Hsp dst md Hdst) as (Hdk & HTd & _). assert (Hc0 : cinv kroot kwin (others w) src dst a (in_spaces sp) (k_vm w) M T P).
  { constructor; [apply Hki| | |exact He].
    - assert (Hd0 : spages P dst = ∅).
      { apply set_eq. intros v. rewrite elem_spages. destruct Hemp as (_ & _ & ->). split; [by intros [? ?]|by intros ?%elem_of_empty]. }
      constructor; rewrite Hd0, ?size_empty; [set_solver|lia|]. intros f n Hf. specialize (HM f n Hf). lia.
    - intros v x Hx. rewrite private_shared by done. cbn. apply (Hc (src, v) x); [by exists ms|done]. }
  destruct (clone_user_spec kroot kwin (others w) src dst a Hne (in_spaces sp) ltac:(intros; by apply private_shared) _ _ _ _ Hc0 Hsk Hdk HTs Hemp)
    as (s & ok & M' & T' & P' & Hrun & [Hi' _ _ He'] & Hcl).
  set (c := fun v => match P' !! (dst, v) with Some x => match ram s !! addr x with Some p => p | None => ∅ end | None => ∅ end).
  exists s, ok, M', T', P', c. split; [done|].
  assert (Hcnt : forall v x, P !! (src, v) = Some x -> l_ref x = true) by (intros v x; apply (Hc (src, v) x); by exists ms).
  assert (Hl' : forall k x, in_spaces sp k -> P' !! k = Some x -> l_ref x = true).
  { intros [r v] x Hk Hx. destruct (decide (r = dst)) as [->|Hr].
    - pose proof (cloned_new _ _ _ _ _ _ _ _ _ _ _ _ v Hpa Hcl Hemp (Hcnt v)) as Hn. rewrite Hx in Hn. apply Hn.
    - pose proof (cloned_entry _ _ _ _ _ _ _ _ _ _ _ _ r v Hpa Hcl Hr) as Hn. destruct (P !! (r, v)) as [y|] eqn:Ey; [|congruence].
      destruct Hn as (x' & Hx' & _ & Hl). assert (x' = x) as -> by congruence. rewrite Hl. by apply (Hc (r, v) y). }
  assert (Hkeep : forall k y, in_spaces sp k -> P !! k = Some y -> ram s !! addr y = ram (k_vm w) !! addr y).
  { intros k y Hk Hy. apply (cl_data _ _ _ _ _ _ _ _ _ _ _ _ _ _ Hcl); [left|].
    - destruct (held_frame_at (VWorld w sp) _ _ _ _ _ k y Hs Hk Hy) as [n Hn]. by exists n.
    - apply (mapped_not_table _ _ _ _ _ _ _ _ _ (ki_vm _ _ _ _ _ _ _ _ _ Hki) Hy). }
  constructor; cbn [vw_k vw_spaces].
  - eapply kinv_tables; [exact Hki|exact Hi'| |apply Hki]. split; [apply Hki|]. intros [r v] x Hx Hl Hr. destruct (decide (r = dst)) as [->|Hrd].
    + rewrite (Hl' (dst, v) x) in Hl; [done|by exists md|done].
    + pose proof (cloned_entry _ _ _ _ _ _ _ _ _ _ _ _ r v Hpa Hcl Hrd) as Hn. destruct (P !! (r, v)) as [y|] eqn:Ey; [|congruence].
      destruct Hn as (x' & Hx' & Hax & Hlx). assert (x' = x) as -> by congruence. rewrite Hax in *. apply (proj2 (ki_backed _ _ _ _ _ _ _ _ _ Hki) _ y Ey); congruence.
  - eapply lookup_weaken; [exact Hkr|apply Hcl].
  - intros r m Hr. destruct (Hsp r m Hr) as (K1 & K2 & K3). split; [done|]. split; [|done]. eapply lookup_weaken; [exact K2|apply Hcl].
  - exact Hl'.
  - exact He'.
  - intros r v Hr Hu. unfold holds, set_mem. cbn. destruct (Z.eqb_spec r dst) as [->|Hrd].
    + pose proof (cloned_new _ _ _ _ _ _ _ _ _ _ _ _ v Hpa Hcl Hemp (Hcnt v)) as Hn. pose proof (Hvw src v ltac:(by exists ms) Hu) as Hv. unfold holds in Hv.
      destruct (P' !! (dst, v)) as [xd|] eqn:Ed.
      * destruct Hn as (Hld & x & Hx & Hcase). rewrite Hx in Hv. pose proof (Hkeep (src, v) x ltac:(by exists ms) Hx) as Hkx.
        assert (Hd : ram s !! addr xd = Some (μ src v)).
        { destruct Hcase as [-> | ->]; [done|by rewrite Hkx]. }
        destruct ok; [done|]. unfold c. by rewrite Ed, Hd.
      * destruct ok; [by rewrite Hn in Hv|]. unfold c. by rewrite Ed.
    + pose proof (cloned_entry _ _ _ _ _ _ _ _ _ _ _ _ r v Hpa Hcl Hrd) as Hn. pose proof (Hvw r v Hr Hu) as Hv. unfold holds in Hv.
      destruct (P !! (r, v)) as [y|] eqn:Ey; [|by rewrite Hn]. destruct Hn as (x' & -> & -> & _). by rewrite (Hkeep (r, v) y Hr Ey).
Qed.

(** Another descriptor for the same space. *)
Lemma sinv_mm w sp μ M T P l r m m' : sinv_at (VWorld w sp) μ M T P l -> sp !! r = Some m -> tm_pml4 m' = r -> 1 <= tm_refs m' < 2 ^ 32 ->
  (exists a, tm_mm m' = Some a /\ private_mm a) -> sinv_at (VWorld w (<[r := m']> sp)) μ M T P l.
Proof.
  intros [Hki Hkr Hsp Hc He Hvw] Hr Hp Hn Ha. cbn [vw_k vw_spaces] in *.
  assert (Hin : forall r', is_Some (<[r := m']> sp !! r') -> is_Some (sp !! r')).
  { intros r'. destruct (decide (r' = r)) as [->|]; [intros _; by exists m|by rewrite lookup_insert_ne]. }
  constructor; cbn [vw_k vw_spaces]; [done|done| | | |].
  - intros r' x [[<- <-]|[_ Hx]]%lookup_insert_Some; [|by apply Hsp]. destruct (Hsp r m Hr) as (K1 & K2 & _). done.
  - intros k x Hk. apply Hc. by apply Hin.
  - intros k x Hk. apply He. by apply Hin.
  - intros r' v Hr' Hu. apply Hvw; [by apply Hin|done].
Qed.

Lemma undo_ok w sp μ μ' M T P l dst t : sinv_at (VWorld w (<[dst := t]> sp)) μ' M T P l -> sp !! dst = None -> (forall r, r <> dst -> μ r = μ' r) ->
  exists s, undo_fork (k_vm w) dst = Some s /\ sinv (VWorld (set_vm s w) sp) μ.
Proof.
  intros Hs Hnew Hm. destruct (drop_ok w _ μ' M T P l dst t None Hs (lookup_insert_eq _ _ _) (or_introl eq_refl)) as (s1 & s' & M' & T' & P' & Hf & Hfr & Hs').
  exists s'. unfold undo_fork, vmm_free_user. rewrite Hf. cbn [mbind option_bind]. split; [done|]. rewrite delete_insert_id in Hs' by done.
  exists M', T', P', l. eapply sinv_less; [exact Hs'|done|]. intros r [m Hr]. apply Hm. congruence.
Qed.

Lemma fork_ok st μ M T P l r m mem tmm :
  sinv_at st μ M T P l -> vw_spaces st !! r = Some m -> light st -> resident st r ->
  exists s v t, fork_mm (k_vm (vw_k st)) kroot r (areas_of (of_mm m)) mem tmm = Some (s, v, t) /\
    sinv (VWorld (set_vm s (vw_k st)) (added t (vw_spaces st))) (effect (OFork r mem tmm) (RSpace (tm_pml4 <$> t)) μ).
Proof.
  intros Hs Hr Hl Hres. pose proof (light_bnd _ _ _ _ _ _ Hs Hl) as HM. pose proof (resident_size _ _ _ _ _ _ r Hs ltac:(by exists m) Hres) as Hsz.
  destruct st as [w sp]. cbn [vw_k vw_spaces] in *. destruct (si_space _ _ _ _ _ _ Hs r m Hr) as (_ & _ & _ & _ & a & Ha & Hpa). cbn [vw_spaces] in *.
  unfold fork_mm, of_mm. rewrite Ha. cbn [vm_mm areas_of].
  destruct (new_ok w sp μ M T P l a Hs Hpa) as (s1 & dst & -> & Hcase). cbn [mbind option_bind].
  destruct Hcase as [(-> & Hs1)|(Hinv & Hnew & Hemp & Hs1)].
  { rewrite Z.eqb_refl. exists s1, (areas_of a), None. split; [done|]. by exists M, T, P, l. }
  destruct (Z.eqb_spec dst PMM_INVALID_ADDR) as [|_]; [done|]. set (td := TaskMm dst (Some a) 1 0) in *. assert (Hne : r <> dst) by congruence.
  destruct (clone_ok (set_vm s1 w) _ _ _ _ _ l r dst m a td Hs1) as (s2 & ok & M2 & T2 & P2 & c & Hrun & Hs2); try done.
  { by rewrite lookup_insert_ne. }
  { apply lookup_insert_eq. }
  { intros f n [[<- <-]|[_ Hf]]%lookup_insert_Some; [lia|by apply (HM f)]. }
  change (k_vm (set_vm s1 w)) with s1 in Hrun. rewrite Hrun. cbn [mbind option_bind]. clear Hrun. change (set_vm s2 (set_vm s1 w)) with (set_vm s2 w) in Hs2.
  assert (Hoff : forall c' r', r' <> dst -> μ r' = set_mem dst c' (set_mem dst (fun _ => ∅) μ) r').
  { intros c' r' Hr'. unfold set_mem. by destruct (Z.eqb_spec r' dst). }
  assert (Hundo : exists s, undo_fork s2 dst = Some s /\ sinv (VWorld (set_vm s w) sp) μ).
  { destruct (undo_ok (set_vm s2 w) sp μ _ _ _ _ _ _ _ Hs2 Hnew (Hoff _)) as (s3 & Hu & Hs3). by exists s3. }
  destruct Hundo as (s3 & Hu & Hs3). destruct ok; cbn [negb].
  2: { rewrite Hu. cbn [mbind option_bind]. by exists s3, (areas_of a), None. }
  destruct (mm_clone mem (areas_of a)) as [v' [dmm|]] eqn:Ecl.
  2: { rewrite Hu. cbn [mbind option_bind]. by exists s3, v', None. }
  unfold task_mm_alloc. destruct tmm.
  2: { rewrite Hu. cbn [mbind option_bind]. by eexists s3, _, None. }
  exists s2, v', (Some (TaskMm dst (Some dmm) 1 0)). split; [done|]. cbn [added tm_pml4 fmap option_fmap option_map effect].
  exists M2, T2, P2, l. assert (Hsp : <[dst := TaskMm dst (Some dmm) 1 0]> sp = <[dst := TaskMm dst (Some dmm) 1 0]> (<[dst := td]> sp)) by by rewrite insert_insert_eq.
  rewrite Hsp. apply (sinv_mm _ _ _ _ _ _ _ dst td); [|apply lookup_insert_eq|done|done|].
  - eapply sinv_less; [exact Hs2|done|]. intros r' _. unfold set_mem. destruct (r' =? dst); [|done]. by destruct (Z.eqb_spec r dst).
  - exists dmm. split; [done|]. by eapply clone_areas.
Qed.

(** The root of a fork was not a space before. *)
Lemma fork_fresh w sp μ M T P l r v mem tmm s v' t : sinv_at (VWorld w sp) μ M T P l ->
  fork_mm (k_vm w) kroot r v mem tmm = Some (s, v', Some t) -> sp !! tm_pml4 t = None.
Proof.
  intros Hs Hrun. unfold fork_mm in Hrun. destruct (new_ok w sp μ M T P l (Mm [] 0 0 0) Hs) as (s1 & dst & Halloc & Hcase); [split; [split; constructor|constructor]|].
  rewrite Halloc in Hrun. cbn [mbind option_bind] in Hrun. destruct Hcase as [[-> _]|(Hinv & Hnew & _)]; [by rewrite Z.eqb_refl in Hrun|].
  destruct (dst =? PMM_INVALID_ADDR); [done|]. destruct (vmm_clone_user_ex _ _ _ _) as [[s2 ok]|]; [|done]. cbn [mbind option_bind] in Hrun.
  destruct ok; cbn [negb] in Hrun; [|destruct (undo_fork _ _); done]. destruct (mm_clone mem v) as [v2 [d|]]; [|destruct (undo_fork _ _); done].
  unfold task_mm_alloc in Hrun. destruct tmm; [by injection Hrun as _ _ <-|]. destruct (undo_fork _ _); done.
Qed.

(** ** Faults *)

Definition aside w w' : Prop := k_pc w' = k_pc w /\ sw_objs (k_shm w') = sw_objs (k_shm w).

Lemma demand_aside w mem mt iu iw ii cur m va w' out : private_mm m ->
  demand_page free_pages_get file_ino file_live pread w mem mt iu iw ii cur m va = Some (w', out) -> aside w w'.
Proof.
  intros Hm Hrun. unfold demand_page in Hrun. destruct (mm_vma_find m va) as [v|] eqn:Ev; [|by injection Hrun as <- _].
  destruct (found_area m va v Hm Ev) as [(Hs & Hf & _) _]. rewrite Hs, Hf in Hrun. cbn [andb negb] in Hrun.
  unfold shmem_tryget in Hrun. change (0 =? NULL) with true in Hrun. cbn [mbind option_bind] in Hrun. cbv beta zeta iota in Hrun.
  assert (Hrel : forall w2, release_shm w2 mt NULL = Some w2) by (intros w2; apply release_none).
  destruct (iw && _ || ii && _); [rewrite Hrel in Hrun; cbn [mbind option_bind] in Hrun; by injection Hrun as <- _|].
  unfold backing_page in Hrun. rewrite Z.eqb_refl in Hrun. cbn [negb mbind option_bind] in Hrun. rewrite Z.eqb_refl in Hrun. cbn [negb] in Hrun.
  destruct (anon_page _) as [[s1 g]|]; [|done]. cbn [mbind option_bind] in Hrun. destruct g as [f| |].
  - destruct (install _ _ _ _ _) as [[s2 r]|]; [|done]. cbn [mbind option_bind] in Hrun.
    destruct r; [rewrite Hrel in Hrun; cbn [mbind option_bind] in Hrun; by injection Hrun as <- _|..];
      destruct (ref_dec s2 f) as [s3|]; try done; cbn [mbind option_bind] in Hrun; rewrite Hrel in Hrun; cbn [mbind option_bind] in Hrun; by injection Hrun as <- _.
  - rewrite Hrel in Hrun. cbn [mbind option_bind] in Hrun. by injection Hrun as <- _.
  - by injection Hrun as <- _.
Qed.

Lemma fault_aside w mem mt ip iu iw ii cur m va w' out : private_mm m ->
  user_fault free_pages_get file_ino file_live pread w mem mt ip iu iw ii cur m va = Some (w', out) -> aside w w'.
Proof.
  intros Hm Hrun. unfold user_fault in Hrun.
  assert (Hin : forall o : option (kworld A * bool), (o ≫= fun '(w, resolved) => if (resolved : bool) then Some (w, Resolved) else if ip then Some (w, refuse iu)
    else demand_page free_pages_get file_ino file_live pread w mem mt iu iw ii cur m va) = Some (w', out) -> (forall w1 b, o = Some (w1, b) -> aside w w1) -> aside w w').
  { intros [[w1 b]|] Ho Hw; [|done]. cbn [mbind option_bind] in Ho. destruct (Hw w1 b eq_refl) as [K1 K2]. destruct b; [by injection Ho as <- _|].
    destruct ip; [by injection Ho as <- _|]. destruct (demand_aside _ _ _ _ _ _ _ _ _ _ _ Hm Ho) as [K3 K4]. split; congruence. }
  apply (Hin _ Hrun). clear Hrun Hin. intros w1 b. destruct (ip && iw); [|intros [= <- _]; done].
  destruct (mm_vma_find m va) as [v|]; [|intros [= <- _]; done]. destruct (bits (v_flags v) VMA_W && _ && _); [|intros [= <- _]; done].
  destruct (cow_break _ _ _ _) as [[s1 r]|]; [|done]. cbn [mbind option_bind]. intros [= <- _]. done.
Qed.

(** One entry changes: it gets a frame of its own with the page's contents, or
    keeps its frame. *)
Lemma entry_changed w w' sp μ M T P l M' T' P' l' r v x' :
  let k := (r, v) in
  sinv_at (VWorld w sp) μ M T P l -> is_Some (sp !! r) -> aside w w' -> kinv kroot kwin D w' M' T' P' l' Y ->
  T ⊆ T' -> data_kept (k_vm w) M T (k_vm w') -> (forall j, j <> k -> P' !! j = P !! j) ->
  P' !! k = Some x' -> l_ref x' = true -> M' !! addr x' = Some 1 -> ram (k_vm w') !! addr x' = Some (μ r v) ->
  (M !! addr x' = None \/ exists x, P !! k = Some x /\ addr x = addr x') ->
  sinv_at (VWorld w' sp) μ M' T' P' l'.
Proof.
  intros k Hs Hr [Hpc Hob] Hk' HT Hdata Hoth Hx' Hl' H1 Hcon Hcase. pose proof Hs as [Hki Hkr Hsp Hc He Hvw]. cbn [vw_k vw_spaces] in *.
  assert (Hot : forall f, others w' f = others w f) by (intros f; unfold others; by rewrite Hpc, Hob).
  pose proof (ki_vm _ _ _ _ _ _ _ _ _ Hk') as Hi'. pose proof (ki_vm _ _ _ _ _ _ _ _ _ Hki) as Hi.
  assert (Hone : refs P' (addr x') = 1 /\ others w' (addr x') = 0).
  { pose proof (vi_acct _ _ _ _ _ _ _ Hi' _ (vi_counted _ _ _ _ _ _ _ Hi' _ _ Hx' Hl')) as Hac. rewrite H1 in Hac. cbn in Hac.
    pose proof (refs_pos P' k x' (addr x') Hx' ltac:(unfold counts; by rewrite Hl', Z.eqb_refl)). pose proof (vi_extra _ _ _ _ _ _ _ Hi' (addr x')).
    unfold others. unfold tab in Hac. destruct (T' !! addr x'); lia. }
  constructor; cbn [vw_k vw_spaces].
  - done.
  - by eapply lookup_weaken.
  - intros r' m Hm. destruct (Hsp r' m Hm) as (K1 & K2 & K3). split; [done|]. split; [by eapply lookup_weaken|done].
  - intros j y Hj Hy. destruct (decide (j = k)) as [->|Hne]; [congruence|]. apply (Hc j y Hj). by rewrite <- Hoth.
  - intros j y Hj Hy Hw. destruct (decide (j = k)) as [->|Hne]; [assert (y = x') as -> by congruence; done|]. rewrite Hoth in Hy by done.
    destruct (He j y Hj Hy Hw) as (K1 & K2 & K3). split_and!; [done| |by rewrite Hot]. rewrite (refs_change P P' k) by done.
    assert (Hno : forall z, P !! k = Some z -> counts (addr y) z = false) by (intros z Hz; by apply (excl_other _ _ _ j k y z He)).
    assert (Hw0 : weight (addr y) (P !! k) = 0) by (destruct (P !! k) as [z|]; [unfold weight, from_option; by rewrite Hno|done]).
    rewrite Hw0, Hx', K2. unfold weight, from_option, counts. destruct (Z.eqb_spec (addr x') (addr y)) as [Ha|]; [|by rewrite andb_false_r]. exfalso.
    destruct Hcase as [Hf|(x & Hx & Ha')].
    + destruct (held_frame_at _ _ _ _ _ _ j y Hs Hj Hy) as [n Hn]. congruence.
    + specialize (Hno x Hx). unfold counts in Hno. by rewrite (Hc k x Hr Hx), Ha', Ha, Z.eqb_refl in Hno.
  - intros r' v' Hr' Hu. destruct (decide ((r', v') = k)) as [Heq|Hne].
    + unfold holds. rewrite Heq, Hx'. by injection Heq as -> ->.
    + specialize (Hvw r' v' Hr' Hu). unfold holds in *. rewrite Hoth by done. destruct (P !! (r', v')) as [y|] eqn:Ey; [|done].
      rewrite Hdata; [done| |apply (mapped_not_table _ _ _ _ _ _ _ _ _ Hi Ey)]. left.
      destruct (held_frame_at _ _ _ _ _ _ (r', v') y Hs Hr' Ey) as [n Hn]. by exists n.
Qed.

(** No entry changes. *)
Lemma entries_same w w' sp μ M T P l M' T' l' :
  sinv_at (VWorld w sp) μ M T P l -> aside w w' -> kinv kroot kwin D w' M' T' P l' Y -> T ⊆ T' -> data_kept (k_vm w) M T (k_vm w') ->
  sinv_at (VWorld w' sp) μ M' T' P l'.
Proof.
  intros Hs [Hpc Hob] Hk' HT Hdata. pose proof Hs as [Hki Hkr Hsp Hc He Hvw]. cbn [vw_k vw_spaces] in *.
  constructor; cbn [vw_k vw_spaces]; try done.
  - by eapply lookup_weaken.
  - intros r' m Hm. destruct (Hsp r' m Hm) as (K1 & K2 & K3). split; [done|]. split; [by eapply lookup_weaken|done].
  - intros j y Hj Hy Hw. destruct (He j y Hj Hy Hw) as (K1 & K2 & K3). split_and!; [done..|]. unfold others in *. by rewrite Hpc, Hob.
  - intros r v Hr Hu. specialize (Hvw r v Hr Hu). unfold holds in *. destruct (P !! (r, v)) as [y|] eqn:Ey; [|done].
    rewrite Hdata; [done| |apply (mapped_not_table _ _ _ _ _ _ _ _ _ (ki_vm _ _ _ _ _ _ _ _ _ Hki) Ey)]. left.
    destruct (held_frame_at _ _ _ _ _ _ (r, v) y Hs Hr Ey) as [n Hn]. by exists n.
Qed.

(** A fault changes no memory; when it is resolved, the access goes through. *)
Lemma fault_ready_of w sp μ M T P l r m va : sinv_at (VWorld w sp) μ M T P l -> light (VWorld w sp) -> is_Some (sp !! r) -> private_mm m ->
  fault_ready kroot kwin file_live D w (fun _ => 0) M T P l Y r m va.
Proof.
  intros Hs Hl Hr Hm. pose proof (light_bnd _ _ _ _ _ _ Hs Hl) as HM. constructor.
  - apply Hs.
  - intros f n Hf. specialize (HM f n Hf). lia.
  - intros v Hv. destruct (found_area m va v Hm Hv) as [(_ & _ & _ & K1 & K2) K3]. apply (space_at _ _ _ _ _ _ r va Hs Hr). lia.
  - intros v Hv. destruct (found_area m va v Hm Hv) as [(K1 & K2 & _) _]. assert (Hf : area_file file_live v = 0) by (unfold area_file; by rewrite K2).
    constructor; intros Hne; by destruct Hne.
  - intros v x _ _ Hx. by apply (si_counted _ _ _ _ _ _ Hs (r, page_of va) x).
Qed.

Lemma fault_ok w sp μ M T P l r m va ec :
  sinv_at (VWorld w sp) μ M T P l -> light (VWorld w sp) -> sp !! r = Some m -> Z.testbit ec 3 = false -> Z.testbit ec 2 = true \/ va < 2 ^ 63 ->
  exists w' out M' T' P' l', isr14_page_fault free_pages_get file_ino file_live pread w (fun _ => 0) true kroot r (Some (tm_mm m)) va ec = Some (w', out) /\
    sinv_at (VWorld w' sp) μ M' T' P' l' /\ (out = Panic -> Z.testbit ec 2 = false) /\
    (out = Resolved -> 0 <= va < 2 ^ 47 /\ exists x, P' !! (r, page_of va) = Some x /\
       (Z.testbit ec 0 = true \/ P !! (r, page_of va) = None -> Z.testbit ec 1 = true -> bits (l_pte x) PAGE_WRITABLE = true)).
Proof.
  intros Hs Hl Hr Hres Hbr. destruct (si_space _ _ _ _ _ _ Hs r m Hr) as (_ & _ & _ & _ & a & Ha & Hpa). rewrite Ha.
  assert (Hrs : is_Some (sp !! r)) by by exists m. pose proof (fault_ready_of _ _ _ _ _ _ _ r a va Hs Hl Hrs Hpa) as Hrd.
  destruct (user_fault_spec kroot kwin free_pages_get file_ino file_live pread D w (fun _ => 0) true (Z.testbit ec 0) (Z.testbit ec 2) (Z.testbit ec 1) (Z.testbit ec 4) r a va M T P l Y Hrd)
    as (w' & out & M' & T' & P' & l' & Y' & Hrun & Hkept & Hresult & Hpanic & Hexact).
  unfold isr14_page_fault. rewrite Hres. assert ((Z.testbit ec 2 || true && (va <? 9223372036854775808)) = true) as ->.
  { destruct Hbr as [->|Hlt]; [done|]. apply orb_true_intro. right. by apply Z.ltb_lt. }
  rewrite Hrun. pose proof (fault_aside _ _ _ _ _ _ _ _ _ _ _ _ Hpa Hrun) as Has. destruct Hkept as [Kinv Khold Kdata Kobjs Ktabs Knew].
  assert (Hk' : kinv kroot kwin D w' M' T' P' l' Y).
  { eapply kinv_ext; [|exact Kinv]. intros f. symmetry. apply Hexact. intros v Hv. destruct (found_area a va v Hpa Hv) as [(_ & K2 & _) _].
    unfold area_file. by rewrite K2. }
  assert (Hrange : forall v, mm_vma_find a va = Some v -> 0 <= va < 2 ^ 47).
  { intros v Hv. destruct (found_area a va v Hpa Hv) as [(_ & _ & _ & K1 & K2) K3]. lia. }
  assert (Hsame : P' = P -> sinv_at (VWorld w' sp) μ M' T' P' l') by (intros ->; by eapply entries_same).
  exists w', out, M', T', P', l'. split; [done|]. split; [|split; [exact Hpanic|]]; unfold user_result, cow_fault_result, demand_result in Hresult.
  - destruct (Z.testbit ec 0).
    + destruct Hresult as [Hoth Hr2]. destruct out; [|apply Hsame, Hr2..]. destruct Hr2 as (_ & v & x & x' & Hv & _ & Hx & Hx' & _ & Hcase).
      destruct Hcase as [(_ & -> & ->)|(_ & Hl' & H1 & Hram & Hcase)].
      * apply Hsame. apply map_eq. intros j. destruct (decide (j = (r, page_of va))) as [->|Hne]; [congruence|by apply Hoth].
      * eapply (entry_changed w w' sp μ M T P l M' T' P' l' r (page_of va) x'); try done.
        -- pose proof (si_view _ _ _ _ _ _ Hs r (page_of va) Hrs (user_page_of va (Hrange v Hv))) as Hvw. unfold holds in Hvw. cbn in Hvw.
           rewrite Hx in Hvw. by rewrite Hram.
        -- destruct Hcase as [[Ha' _]|[Hf _]]; [right; by exists x|by left].
    + destruct out; [|by apply Hsame..]. destruct Hresult as (v & Hv & _ & [[_ HP]|(HP & f & Hf & HP' & Hcon)]); [by apply Hsame|].
      destruct (found_area a va v Hpa Hv) as [(K1 & K2 & _) _]. destruct (pte_flags_ok (v_flags v)) as (F1 & _).
      assert (Hcon' : M !! f = None /\ M' !! f = Some 1 /\ ram (k_vm w') !! f = Some ∅).
      { unfold backing_content, area_file in Hcon. rewrite K2, K1 in Hcon. exact Hcon. }
      destruct Hcon' as (HM & HM' & Hram). set (x' := Leaf (Z.lor f (mm_vma_pte_flags (v_flags v))) true) in *.
      assert (Ha' : addr x' = f) by (apply addr_new; [by apply (fr_ram_addr f)|done]).
      apply (entry_changed w w' sp μ M T P l M' T' P' l' r (page_of va) x'); rewrite ?Ha'; try done; rewrite ?HP'.
      * intros j Hj. by rewrite lookup_insert_ne.
      * apply lookup_insert_eq.
      * pose proof (si_view _ _ _ _ _ _ Hs r (page_of va) Hrs (user_page_of va (Hrange v Hv))) as Hvw. unfold holds in Hvw. rewrite HP in Hvw. by rewrite Hvw.
      * by left.
  - intros ->. destruct (Z.testbit ec 0).
    + destruct Hresult as (_ & _ & v & x & x' & Hv & _ & _ & Hx' & Hw & _). split; [by eapply Hrange|]. by exists x'.
    + destruct Hresult as (v & Hv & Hperm & [[[x Hx] ->]|(HP & f & Hf & -> & _)]); (split; [by eapply Hrange|]).
      * exists x. split; [done|]. intros [|]; [done|congruence].
      * eexists. split; [apply lookup_insert_eq|]. intros _ Hwr. destruct (pte_flags_ok (v_flags v)) as (_ & _ & _ & F4 & _).
        apply bits_lor_r. rewrite F4. by apply Hperm.
Qed.

(** ** The simulation *)

(** What an operation returns: a load the word that was stored last, a store
    whether the page could be written, a fault whether the access may be tried
    again, which it then may, and a new space is new. *)
Definition answer st (o : op) (res : result) st' μ : Prop :=
  let s := k_vm (vw_k st) in let s' := k_vm (vw_k st') in
  match o, res with
  | OLoad r va i, RWord x => match x with Some x => x = word (μ r (page_of va)) i | None => mmu_entry s r va false = Some None end
  | OStore r va _ _, RDone ok => exists f, mmu_entry s r va true = Some f /\ (ok = true <-> is_Some f)
  | OFault r va ec, RFault out =>
      (out = Panic -> Z.testbit ec 2 = false) /\
      (out = Resolved -> Z.testbit ec 0 = true \/ mmu_entry s r va false = Some None -> exists f, mmu_entry s' r va (Z.testbit ec 1) = Some (Some f))
  | ONew _, RSpace (Some r) | OFork _ _ _, RSpace (Some r) => vw_spaces st !! r = None /\ is_Some (vw_spaces st' !! r)
  | ONew _, RSpace None | OFork _ _ _, RSpace None => vw_spaces st' = vw_spaces st
  | ORelease r, RDone gone => gone = true <-> vw_spaces st' !! r = None
  | OShare r, RDone _ | OAreas r _, RDone _ => is_Some (vw_spaces st' !! r)
  | OUnmap r va, RDone _ => mmu_entry s' r va false = Some None
  | _, _ => False
  end.

Lemma set_vm_same w : set_vm (k_vm w) w = w.
Proof. by destruct w as [[] ?]. Qed.

Lemma release_ok w sp μ M T P l r m : sinv_at (VWorld w sp) μ M T P l -> sp !! r = Some m ->
  exists s m', task_mm_release (k_vm w) m = Some (s, m') /\
    sinv (VWorld (set_vm s w) (match m' with Some m' => <[r := m']> sp | None => delete r sp end)) μ.
Proof.
  intros Hs Hr. destruct (si_space _ _ _ _ _ _ Hs r m Hr) as (_ & _ & Hp & Hn & a & Ha & Hpa). unfold task_mm_release. rewrite u32_id by lia.
  destruct (Z.ltb_spec 0 (tm_refs m - 1)) as [Hlt|Hge].
  - exists (k_vm w), (Some (with_refs (tm_refs m - 1) m)). split; [done|]. exists M, T, P, l. rewrite set_vm_same.
    apply (sinv_mm w sp μ M T P l r m); [done|done|done|cbn; lia|by exists a].
  - rewrite Hp. destruct (drop_ok w sp μ M T P l r m (tm_mm m) Hs Hr (or_intror eq_refl)) as (s1 & s' & M' & T' & P' & -> & Hf & Hs').
    cbn [mbind option_bind]. rewrite Hf. cbn [mbind option_bind]. exists s', None. split; [done|]. by exists M', T', P', l.
Qed.

Lemma exec_ok st μ o : sinv st μ -> op_ok st o ->
  exists st' res, exec free_pages_get file_ino file_live pread kroot st o = Some (st', res) /\ sinv st' (effect o res μ) /\ answer st o res st' μ.
Proof.
  intros (M & T & P & l & Hs) [Hl Hop]. destruct st as [w sp]. destruct o as [a|r mem tmm|r|r|r a|r va ec|r va i|r va i x|r va]; cbn [exec vw_k vw_spaces] in *.
  - destruct (new_ok w sp μ M T P l a Hs Hop) as (s & r & -> & [[-> Hs']|(Hinv & Hnew & _ & Hs')]); cbn [mbind option_bind].
    + rewrite Z.eqb_refl. eexists _, _. split; [done|]. split; [by exists M, T, P, l|done].
    + destruct (Z.eqb_spec r PMM_INVALID_ADDR) as [|_]; [done|]. eexists _, _. split; [done|]. split; [by eexists _, _, _, _|]. cbn.
      split; [done|]. rewrite lookup_insert_eq. by eexists.
  - destruct Hop as [[m Hm] Hres]. rewrite Hm. cbn [mbind option_bind]. destruct (fork_ok _ μ M T P l r m mem tmm Hs Hm Hl Hres) as (s & v & t & Hrun & Hs').
    cbn [vw_k vw_spaces] in Hrun. rewrite Hrun. cbn [mbind option_bind]. eexists _, _. split; [done|]. split; [done|]. destruct t as [t|]; cbn; [|done].
    split; [|rewrite lookup_insert_eq; by eexists]. by eapply fork_fresh.
  - destruct Hop as (m & Hm & Hn). rewrite Hm. cbn [mbind option_bind]. destruct (si_space _ _ _ _ _ _ Hs r m Hm) as (_ & _ & Hp & Hn1 & a & Ha & Hpa).
    unfold thread_mm. change (bits THREAD_SHARE_MM THREAD_SHARE_MM) with true. cbn [mbind option_bind]. eexists _, _. split; [done|]. rewrite u32_id by lia. cbn.
    split; [|rewrite lookup_insert_eq; by eexists]. exists M, T, P, l. rewrite set_vm_same. apply (sinv_mm w sp μ M T P l r m); [done|done|done|cbn; lia|by exists a].
  - destruct Hop as [m Hm]. rewrite Hm. cbn [mbind option_bind]. destruct (release_ok w sp μ M T P l r m Hs Hm) as (s & m' & -> & Hs'). cbn [mbind option_bind].
    eexists _, _. split; [done|]. split; [done|]. destruct m' as [m'|]; cbn [answer vw_spaces].
    + rewrite lookup_insert_eq. by rewrite bool_decide_eq_true.
    + by rewrite lookup_delete_eq, bool_decide_eq_true.
  - destruct Hop as [[m Hm] Hpa]. rewrite Hm. cbn [mbind option_bind]. eexists _, _. split; [done|]. split; [|cbn; rewrite lookup_insert_eq; by eexists].
    destruct (si_space _ _ _ _ _ _ Hs r m Hm) as (_ & _ & Hp & Hn1 & _). exists M, T, P, l. apply (sinv_mm w sp μ M T P l r m); [done|done|done|done|by exists a].
  - destruct Hop as ([m Hm] & Hres & Hbr). rewrite Hm. cbn [mbind option_bind].
    destruct (fault_ok w sp μ M T P l r m va ec Hs Hl Hm Hres Hbr) as (w' & out & M' & T' & P' & l' & -> & Hs' & Hpanic & Hdone). cbn [mbind option_bind].
    eexists _, _. split; [done|]. split; [by exists M', T', P', l'|]. split; [done|]. intros Hout Hbefore. destruct (Hdone Hout) as (Hva & x & Hx & Hwr).
    assert (Hrs : is_Some (sp !! r)) by by exists m. exists (addr x). cbn [vw_k].
    rewrite (mmu_entry_spec (VWorld w' sp) _ _ _ _ _ r va _ Hs' Hrs Hva), Hx. cbn [mbind option_bind]. destruct (Z.testbit ec 1) eqn:Ew; [|done].
    rewrite Hwr; [done| |done]. destruct Hbefore as [?|Hb]; [by left|right]. cbn [vw_k] in Hb. rewrite (mmu_entry_spec (VWorld w sp) _ _ _ _ _ r va _ Hs Hrs Hva) in Hb.
    by destruct (P !! (r, page_of va)).
  - destruct Hop as [[m Hm] Hva]. rewrite Hm. cbn [mbind option_bind]. assert (Hrs : is_Some (sp !! r)) by by exists m.
    destruct (load_ok (VWorld w sp) μ M T P l r va i Hs Hrs Hva) as (x & Hrun & Hx). cbn [vw_k] in Hrun. rewrite Hrun. cbn [mbind option_bind].
    eexists _, _. split; [done|]. split; [by exists M, T, P, l|]. cbn [answer vw_k]. destruct x as [x|]; [done|]. unfold mmu_load in Hrun.
    destruct (mmu_entry (k_vm w) r va false) as [[f|]|]; cbn [mbind option_bind] in Hrun; [by destruct (read_word _ _ _)|done|done].
  - destruct Hop as [[m Hm] Hva]. rewrite Hm. cbn [mbind option_bind]. assert (Hrs : is_Some (sp !! r)) by by exists m.
    destruct (store_ok w sp μ M T P l r va i x Hs Hrs Hva) as (s & ok & Hrun & Hs'). rewrite Hrun. cbn [mbind option_bind].
    eexists _, _. split; [done|]. split; [by exists M, T, P, l|]. cbn [answer vw_k]. unfold mmu_store in Hrun. destruct (mmu_entry (k_vm w) r va true) as [f|]; cbn [mbind option_bind] in Hrun; [|done].
    exists f. split; [done|]. cbn [mbind option_bind] in Hrun. destruct f as [f|]; [destruct (write_word _ _ _ _); [|done]; cbn in Hrun|]; injection Hrun as <- <-; [split; [by eexists|done]|split; [done|by intros []]].
  - destruct Hop as [[m Hm] Hva]. rewrite Hm. cbn [mbind option_bind]. assert (Hrs : is_Some (sp !! r)) by by exists m.
    destruct (unmap_ok w sp μ M T P l r va Hs Hrs Hva) as (s & M' & -> & Hs'). cbn [mbind option_bind]. eexists _, _. split; [done|]. split; [by eexists _, _, _, _|].
    cbn [answer vw_k]. pose proof (mmu_entry_spec (VWorld (set_vm s w) sp) _ _ _ _ _ r va false Hs' Hrs Hva) as He. by rewrite lookup_delete_eq in He.
Qed.

(** ** Sequences of operations *)

Abbreviation step := (exec free_pages_get file_ino file_live pread kroot).

Fixpoint run st (os : list op) : option (@vworld A * list result) :=
  match os with
  | [] => Some (st, [])
  | o :: os => '(st, res) ← step st o; '(st, rs) ← run st os; Some (st, res :: rs)
  end.

(** The preconditions hold along the way. *)
Fixpoint run_ok st (os : list op) : Prop :=
  match os with
  | [] => True
  | o :: os => op_ok st o /\ match step st o with Some (st, _) => run_ok st os | None => True end
  end.

Fixpoint effects (os : list op) (rs : list result) μ : mems :=
  match os, rs with
  | o :: os, res :: rs => effects os rs (effect o res μ)
  | _, _ => μ
  end.

(** The operations that may change the memory of a space. *)
Definition touches (r : Z) (o : op) : Prop :=
  match o with OStore r' _ _ _ | OUnmap r' _ | ORelease r' => r' = r | _ => False end.

Lemma effect_other st o st' res μ r : step st o = Some (st', res) -> answer st o res st' μ -> ~ touches r o -> is_Some (vw_spaces st !! r) ->
  effect o res μ r = μ r /\ is_Some (vw_spaces st' !! r).
Proof.
  intros Hrun Hans Hno [m Hm]. destruct st as [w sp]. cbn [vw_spaces] in *.
  assert (Hins : forall r' (m' : task_mm), is_Some (<[r' := m']> sp !! r)).
  { intros r' m'. destruct (decide (r = r')) as [->|]; [rewrite lookup_insert_eq|rewrite lookup_insert_ne by done]; by eexists. }
  assert (Hset : forall r' c, sp !! r' = None -> set_mem r' c μ r = μ r) by (intros r' c Hr'; unfold set_mem; destruct (Z.eqb_spec r r'); [congruence|done]).
  destruct o as [a|r' mem tmm|r'|r'|r' a|r' va ec|r' va i|r' va i x|r' va]; cbn [exec vw_k vw_spaces touches effect] in *.
  - destruct (vmm_alloc_pml4 _ _) as [[s d]|]; [|done]. cbn [mbind option_bind] in Hrun. destruct (d =? PMM_INVALID_ADDR); injection Hrun as <- <-; [by split; [|eexists]|].
    split; [|apply Hins]. apply Hset. apply Hans.
  - destruct (sp !! r') as [m'|]; [|done]. cbn [mbind option_bind] in Hrun. destruct (fork_mm _ _ _ _ _ _) as [[[s v] t]|]; [|done]. cbn [mbind option_bind] in Hrun.
    injection Hrun as <- <-. destruct t as [t|]; cbn in *; [|by split; [|eexists]]. split; [|apply Hins]. apply Hset. apply Hans.
  - destruct (sp !! r') as [m'|]; [|done]. cbn [mbind option_bind] in Hrun. destruct (thread_mm _ _ _ _ _ _ _) as [[[[s v] t] u]|]; [|done]. cbn [mbind option_bind] in Hrun.
    injection Hrun as <- <-. split; [done|apply Hins].
  - destruct (sp !! r') as [m'|]; [|done]. cbn [mbind option_bind] in Hrun. destruct (task_mm_release _ _) as [[s t]|]; [|done]. cbn [mbind option_bind] in Hrun.
    injection Hrun as <- <-. split; [done|]. destruct t; cbn; [apply Hins|]. rewrite lookup_delete_ne by congruence. by eexists.
  - destruct (sp !! r') as [m'|]; [|done]. cbn [mbind option_bind] in Hrun. injection Hrun as <- <-. split; [done|apply Hins].
  - destruct (sp !! r') as [m'|]; [|done]. cbn [mbind option_bind] in Hrun. destruct (isr14_page_fault _ _ _ _ _ _ _ _ _ _ _ _) as [[w' out]|]; [|done]. cbn [mbind option_bind] in Hrun.
    injection Hrun as <- <-. split; [done|]. by eexists.
  - destruct (sp !! r') as [m'|]; [|done]. cbn [mbind option_bind] in Hrun. destruct (mmu_load _ _ _ _) as [y|]; [|done]. cbn [mbind option_bind] in Hrun. injection Hrun as <- <-. split; [done|]. by eexists.
  - destruct (sp !! r') as [m'|]; [|done]. cbn [mbind option_bind] in Hrun. destruct (mmu_store _ _ _ _ _) as [[s ok]|]; [|done]. cbn [mbind option_bind] in Hrun. injection Hrun as <- <-.
    split; [|by eexists]. destruct ok; [|done]. unfold set_mem. destruct (Z.eqb_spec r r'); [congruence|done].
  - destruct (sp !! r') as [m'|]; [|done]. cbn [mbind option_bind] in Hrun. destruct (vmm_page_free _ _ _) as [s|]; [|done]. cbn [mbind option_bind] in Hrun. injection Hrun as <- <-.
    split; [|by eexists]. unfold set_mem. destruct (Z.eqb_spec r r'); [congruence|done].
Qed.

Lemma run_spec os : forall st μ, sinv st μ -> run_ok st os ->
  exists st' rs, run st os = Some (st', rs) /\ length rs = length os /\ sinv st' (effects os rs μ) /\
    (forall r, is_Some (vw_spaces st !! r) -> Forall (fun o => ~ touches r o) os -> is_Some (vw_spaces st' !! r) /\ effects os rs μ r = μ r).
Proof.
  induction os as [|o os IH]; intros st μ Hs Hok; [by exists st, []|]. cbn [run run_ok] in *. destruct Hok as [Hop Hok].
  destruct (exec_ok st μ o Hs Hop) as (st1 & res & Hrun & Hs1 & Hans). rewrite Hrun in *. cbn [mbind option_bind].
  destruct (IH st1 _ Hs1 Hok) as (st' & rs & -> & Hlen & Hs' & Hother). cbn [mbind option_bind]. exists st', (res :: rs). split; [done|].
  split; [cbn; by rewrite Hlen|]. split; [done|]. intros r Hr [Hno Hrest]%Forall_cons. cbn [effects].
  destruct (effect_other st o st1 res μ r Hrun Hans Hno Hr) as [He Hr1]. rewrite <- He. by apply Hother.
Qed.
End trace.
