(* ===== verification/FrameModel.v ===== *)
(** * The simplest supplier of frames

    A supplier that is nothing but the books of [FrameLaws]: the frames held
    and their counts, over a fixed list of frames.  The witnesses of the
    page-table theorems run on it, and [boot] is the state of a machine with an
    empty kernel root table and no address space. *)

From S2P Require Import Prelude Errno DList Buddy Cred UnixNs Vma Frames PageTable PageTableSpec PageTableOps PageClone Shmem Pcache PcacheSpec PcacheOps PageFault ShmemSpec PageFaultSpec FaultHandler AddressSpace VmTrace.

(** Frames 1 to 15. *)
Definition pool : list Z := (fun i => i * 4096) <$> seqZ 1 15.

Definition free_one (M : gmap Z Z) : option Z := List.find (fun f => bool_decide (M !! f = None)) pool.

#[export] Instance books_ops : FrameOps (gmap Z Z) := {|
  fr_alloc M := Some (match free_one M with Some f => (<[f := 1]> M, f) | None => (M, PMM_INVALID_ADDR) end);
  fr_free M f := match M !! f with Some n => if n =? 1 then Some (delete f M) else None | None => None end;
  fr_ref_inc M f := match M !! f with Some n => Some (<[f := u32 (n + 1)]> M) | None => None end;
  fr_ref_dec M f := match M !! f with Some _ => Some (drop_ref M f) | None => None end;
  fr_ref_get M f := M !! f;
  fr_pin M _ := Some M;
  fr_pin_get _ _ := Some 0;
|}.

Definition books_rep (a M : gmap Z Z) : Prop := a = M /\ forall f n, M !! f = Some n -> f ∈ pool /\ 1 <= n.

Lemma pool_frame f : f ∈ pool -> frame_addr f /\ f <> PMM_INVALID_ADDR /\ f <> 0.
Proof.
  assert (Hall : Forall (fun f => frame_addr f /\ f <> PMM_INVALID_ADDR /\ f <> 0) pool) by (apply (bool_decide_unpack _); vm_compute; exact I).
  intros Hf. by apply (proj1 (Forall_forall _ _) Hall).
Qed.

#[export] Instance books_laws : FrameLaws (gmap Z Z).
Proof.
  refine {| fr_rep := books_rep; fr_ram f := f ∈ pool |}.
  - intros a M f n [_ Hb]. apply Hb.
  - intros f Hf. destruct (pool_frame f Hf) as (? & ? & _). done.
  - intros f Hf. apply (pool_frame f Hf).
  - intros a M [-> Hb]. cbn. unfold free_one. destruct (List.find _ pool) as [f|] eqn:E.
    + apply List.find_some in E as [Hin Hfree]. apply bool_decide_eq_true in Hfree. apply list_elem_of_In in Hin.
      exists (<[f := 1]> M), f. split; [done|]. right. split_and!; [done..|]. split; [done|].
      intros g n [[<- <-]|[_ Hg]]%lookup_insert_Some; [split; [done|lia]|by apply Hb].
    + exists M, PMM_INVALID_ADDR. split; [done|]. left. done.
  - intros a M f [-> Hb] Hf. cbn. rewrite Hf. cbn. eexists. split; [done|]. split; [done|]. intros g n [_ Hg]%lookup_delete_Some. by apply Hb.
  - intros a M f n [-> Hb] Hf Hn. cbn. rewrite Hf. destruct (Hb f n Hf) as [Hp H1]. rewrite u32_id by lia. eexists. split; [done|]. split; [done|].
    intros g k [[<- <-]|[_ Hg]]%lookup_insert_Some; [split; [done|lia]|by apply Hb].
  - intros a M f n [-> Hb] Hf. cbn. rewrite Hf. eexists. split; [done|]. split; [done|]. unfold drop_ref. rewrite Hf. destruct (Hb f n Hf) as [Hp H1].
    intros g k. destruct (Z.eqb_spec n 1); [intros [_ Hg]%lookup_delete_Some; by apply Hb|].
    intros [[<- <-]|[_ Hg]]%lookup_insert_Some; [split; [done|lia]|by apply Hb].
  - intros a M f n [-> Hb] Hf. done.
  - intros a M f [-> Hb] _. by exists M.
  - intros a M f [-> Hb] _. by exists 0.
Defined.

Lemma in_pool f : bool_decide (f ∈ pool) = true -> fr_ram f.
Proof. apply bool_decide_eq_true. Qed.

(** ** A machine that has just started *)

Abbreviation KROOT := 4096%Z (only parsing).
Definition high (i : Z) : bool := 256 <=? i.
Definition no_refs (f : Z) : Z := 0.

Definition boot_machine : machine (gmap Z Z) := Machine {[KROOT := 1]} (list_to_map ((fun f => (f, ∅)) <$> pool)).
Definition boot_world : kworld (gmap Z Z) := KWorld (Shmw boot_machine ∅ None []) (Pcache ∅ ∅ 0 0 true false).
Definition boot : @vworld (gmap Z Z) := VWorld boot_world ∅.
Definition boot_tables : gmap Z node := {[KROOT := Node KROOT 3 0]}.

Lemma boot_ram f : f ∈ pool -> ram boot_machine !! f = Some ∅.
Proof.
  assert (Hall : Forall (fun f => ram boot_machine !! f = Some ∅) pool) by (apply (bool_decide_unpack _); vm_compute; exact I).
  intros Hf. by apply (proj1 (Forall_forall _ _) Hall).
Qed.

Lemma boot_entry t i : entry (ram boot_machine) t i = 0.
Proof.
  unfold entry. destruct (ram boot_machine !! t) as [p|] eqn:E; [|done]. apply elem_of_list_to_map_2, list_elem_of_fmap in E as (f & [= -> ->] & _). done.
Qed.

Lemma boot_vm : vm_inv KROOT high boot_machine {[KROOT := 1]} boot_tables ∅ no_refs.
Proof.
  assert (Hk : KROOT ∈ pool) by (apply (bool_decide_unpack _); vm_compute; exact I).
  assert (HT : forall t n, boot_tables !! t = Some n -> t = KROOT /\ n = Node KROOT 3 0) by (intros t n Ht; unfold boot_tables in Ht; apply lookup_singleton_Some in Ht as [<- <-]; done).
  constructor; try done.
  - constructor.
    + intros t n [-> ->]%HT. done.
    + intros t n [-> ->]%HT. split; [done|]. exists ∅. by apply boot_ram.
    + intros t r l q i [-> [= -> -> ->]]%HT _. left. apply boot_entry.
    + intros t r l q [-> [= -> -> ->]]%HT Hl. lia.
    + intros t r q i [_ [=]]%HT.
    + intros r v x Hx. by rewrite lookup_empty in Hx.
  - split; [done|]. intros f n [<- <-]%lookup_singleton_Some. split; [done|lia].
  - intros f Hf. exists ∅. by apply boot_ram.
  - intros f _. unfold tab, boot_tables, no_refs. destruct (decide (f = KROOT)) as [->|Hn]; [done|]. by rewrite !lookup_singleton_ne.
  - intros t n [-> ->]%HT _. done.
  - intros t n [-> ->]%HT Hn. done.
Qed.

Lemma boot_kinv : kinv KROOT high no_refs boot_world {[KROOT := 1]} boot_tables ∅ [] no_refs.
Proof.
  constructor; try done.
  - eapply vm_inv_ext; [|exact boot_vm]. done.
  - constructor; try done.
    + constructor.
    + by intros ?%not_elem_of_nil.
    + intros x. split; [by intros [? ?]|by intros ?%not_elem_of_nil].
    + intros h x. split; [by intros ?%not_elem_of_nil|by intros (? & ? & _)].
    + intros h. constructor.
Qed.

Lemma boot_sinv : sinv KROOT high no_refs no_refs boot (fun _ _ => ∅).
Proof.
  exists {[KROOT := 1]}, boot_tables, ∅, []. by constructor; cbn; [apply boot_kinv|..].
Qed.
