(* ===== verification/MemoryTheorems.v ===== *)
(** * Virtual memory: the properties

    Page tables, fork and exit, the page-fault handler, and the memories of
    tasks they add up to, over any supplier of frames that keeps [FrameLaws];
    the physical allocator is one. *)

From S2P Require Import Prelude Errno DList Buddy BuddySpec PmmInit PmmInitSpec BuddyTrace BuddyTheorems PmmRef Pcp Slab SlabSpec SlabCalls Pmm PmmSpec PmmBoot.
From S2P Require Import Cred UnixNs Vma VmaSpec Frames PmmFrames PageTable PageTableSpec PageTableOps PageClone PageFree Shmem Pcache PcacheSpec PcacheOps.
From S2P Require Import PageFault FilePage ShmemSpec PageFaultSpec FaultHandler AddressSpace SpaceSpec VmTrace FrameModel.

(** ** Page tables *)






(** ** Fork and exit *)

(** C3: [vmm_clone_user_ex], into a fresh address space, comes to an end
    without a fault.  On success every page of the source is in the copy: pages
    of shared memory and of devices with the same entry, the others either with
    a fresh frame of the same contents or with the same frame and no right to
    write in either space.  On failure the copy has some of the pages.  Other
    spaces, and all pages in use, are untouched, and every reference is
    accounted for. *)
Theorem fork_copies_space {A} `{FrameLaws A} kroot kwin (s : machine A) M T P X src dst m :
  vm_inv kroot kwin s M T P X -> src <> dst -> src <> kroot -> dst <> kroot -> T !! src = Some (Node src 3 0) -> empty_space T P dst ->
  tagged src m P -> fork_room M P src ->
  exists s' ok M' T' P', vmm_clone_user_ex s dst src (Some m) = Some (s', ok) /\ vm_inv kroot kwin s' M' T' P' X /\
    cloned src dst m user_page (fun _ => True) s M T P s' M' T' P' ok.
Proof.
  intros Hi Hne Hs Hd HTs Hemp Htag [Hr1 Hr2].
  assert (Hc : cinv kroot kwin X src dst m (fun _ => False) s M T P).
  { constructor; [done| |done|by intros k x []]. assert (Hd0 : spages P dst = ∅).
    { apply set_eq. intros v. rewrite elem_spages. destruct Hemp as (_ & _ & ->). split; [by intros [? ?]|by intros ?%elem_of_empty]. }
    constructor; rewrite Hd0, ?size_empty; [set_solver|lia|]. intros f k Hf. specialize (Hr2 f k Hf). lia. }
  destruct (clone_user_spec kroot kwin X src dst m Hne (fun _ => False) ltac:(by intros v [[]|[]]) _ _ _ _ Hc Hs Hd HTs Hemp)
    as (s' & ok & M' & T' & P' & Hrun & [Hi' _ _ _] & Hcl). by exists s', ok, M', T', P'.
Qed.

(** The booted machine with one and with two empty address spaces. *)
Definition new_space (s : machine (gmap Z Z)) : machine (gmap Z Z) := match vmm_alloc_pml4 s KROOT with Some (s, _) => s | None => s end.
Definition demo_one : machine (gmap Z Z) := new_space boot_machine.
Definition demo_two : machine (gmap Z Z) := new_space demo_one.
Definition counts_one : gmap Z Z := <[8192 := 1]> {[KROOT := 1]}.
Definition tables_one : gmap Z node := <[8192 := Node 8192 3 0]> boot_tables.
Definition tables_two : gmap Z node := <[12288 := Node 12288 3 0]> tables_one.

Lemma counts_one_1 f n : counts_one !! f = Some n -> n = 1.
Proof. unfold counts_one. intros [[_ <-]|[_ [_ <-]%lookup_singleton_Some]]%lookup_insert_Some; reflexivity. Qed.

Lemma demo_one_inv : vm_inv KROOT high demo_one counts_one tables_one ∅ no_refs /\ empty_space tables_one ∅ 8192.
Proof.
  destruct (alloc_pml4_spec KROOT high boot_machine _ _ _ _ _ boot_vm eq_refl) as (s & r & Hrun & Hcase).
  assert (Hc : vmm_alloc_pml4 boot_machine KROOT = Some (demo_one, 8192)) by (vm_compute; reflexivity).
  rewrite Hc in Hrun. injection Hrun as <- <-. destruct Hcase as [[Hbad _]|(_ & _ & _ & _ & _ & Hi & He & _)]; [discriminate Hbad|exact (conj Hi He)].
Qed.

Lemma demo_two_inv : vm_inv KROOT high demo_two (<[12288 := 1]> counts_one) tables_two ∅ no_refs /\ empty_space tables_two ∅ 12288.
Proof.
  destruct (alloc_pml4_spec KROOT high demo_one _ _ _ _ _ (proj1 demo_one_inv) eq_refl) as (s & r & Hrun & Hcase).
  assert (Hc : vmm_alloc_pml4 demo_one KROOT = Some (demo_two, 12288)) by (vm_compute; reflexivity).
  rewrite Hc in Hrun. injection Hrun as <- <-. destruct Hcase as [[Hbad _]|(_ & _ & _ & _ & _ & Hi & He & _)]; [discriminate Hbad|exact (conj Hi He)].
Qed.

Definition no_areas : mm := Mm [] 0 0 0.

Lemma demo_room M : (forall f n, M !! f = Some n -> n = 1) -> fork_room M ∅ 8192.
Proof.
  intros HM. assert (Hz : spages ∅ 8192 = ∅) by (vm_compute; reflexivity). unfold fork_room. rewrite Hz, size_empty. split; [lia|].
  intros f n Hf. rewrite (HM f n Hf). lia.
Qed.

Lemma fork_copies_space_witness : exists s' ok M' T' P', vmm_clone_user_ex demo_two 12288 8192 (Some no_areas) = Some (s', ok) /\
  vm_inv KROOT high s' M' T' P' no_refs.
Proof.
  destruct (fork_copies_space KROOT high demo_two _ tables_two ∅ no_refs 8192 12288 no_areas (proj1 demo_two_inv)) as (s' & ok & M' & T' & P' & Hrun & Hi & _);
    [discriminate|discriminate|discriminate|reflexivity|exact (proj2 demo_two_inv)|intros v x Hx; by rewrite lookup_empty in Hx| |exists s', ok, M', T', P'; exact (conj Hrun Hi)].
  apply demo_room. intros f n [[_ <-]|[_ Hf]]%lookup_insert_Some; [reflexivity|by eapply counts_one_1].
Defined.



(** ** Page faults *)


Definition demo_area : vma := Vma 0x1000000 0x1002000 11 0 0 0 0 0.
Definition demo_mm : mm := Mm [demo_area] 0 0 0.
Definition no_file (f : Z) : bool := false.
Definition no_read (f n off : Z) : Z * page := (0, ∅).




(** ** Private memory *)


Abbreviation demo_step := (exec (fun _ : gmap Z Z => 0) (fun f => f) no_file no_read KROOT).









(** The same with pages that are shared at first: the child sees what the
    parent wrote before the fork, and neither sees what the other wrote after. *)
Example fork_shares_then_splits :
  (snd <$> run KROOT (fun _ : gmap Z Z => 0) (fun f => f) no_file no_read boot
    [ONew demo_mm; OFault 8192 0x1000008 6; OStore 8192 0x1000008 1 5; OFork 8192 (fun _ => true) true; OLoad 28672 0x1000008 1;
     OStore 28672 0x1000008 1 7; OFault 28672 0x1000008 7; OStore 28672 0x1000008 1 7; OFault 8192 0x1000008 7; OStore 8192 0x1000008 1 6;
     OLoad 28672 0x1000008 1; OLoad 8192 0x1000008 1; ORelease 28672; OLoad 8192 0x1000008 1]) =
  Some [RSpace (Some 8192); RFault Resolved; RDone true; RSpace (Some 28672); RWord (Some 5); RDone false; RFault Resolved; RDone true; RFault Resolved;
        RDone true; RWord (Some 7); RWord (Some 6); RDone true; RWord (Some 6)].
Proof. vm_compute. reflexivity. Qed.

(** ** The physical allocator under the page tables *)

(** C11: The physical allocator keeps the promise the page tables are proved
    against: on any of its CPUs, with any other clients and slab caches, an
    allocation of one page returns a frame that was not held or none at all, a
    reference count is what was taken and not dropped, dropping the last
    reference takes the frame out of the books and nothing else does, and no
    call changes the count of another frame. *)
Theorem pmm_supplies_frames cpu T U G regs rest :
  T <= 2 ^ 40 -> ~ U 0 ->
  (forall p A L, pmm_inv T U G regs p rest A L -> (forall i, 0 <= i < T -> is_Some (pincount (pm_buddy p) !! i)) -> is_Some (pm_cpus p !! cpu) ->
     rep cpu T U G regs rest p ∅) /\
  (forall p M, rep cpu T U G regs rest p M ->
     (exists p' r, pmm_buddy_alloc p cpu 0 = Some (p', r) /\
        ((r = PMM_INVALID_ADDR /\ rep cpu T U G regs rest p' M) \/ (is_ram T r /\ M !! r = None /\ rep cpu T U G regs rest p' (<[r := 1]> M)))) /\
     (forall f n, M !! f = Some n ->
        is_ram T f /\ pmm_ref_get (pm_buddy p) f = Some n /\
        (n = 1 -> exists p', pmm_buddy_free p cpu f 0 = Some p' /\ rep cpu T U G regs rest p' (delete f M)) /\
        (n < 2 ^ 32 - 1 -> exists b r, pmm_ref_inc (pm_buddy p) f = Some (b, r) /\ rep cpu T U G regs rest (with_pm_buddy p b) (<[f := n + 1]> M)) /\
        (exists b r, pmm_ref_dec (pm_buddy p) f = Some (b, r) /\ rep cpu T U G regs rest (with_pm_buddy p b) (drop_ref M f)))).
Proof.
  intros HT HU. split; [intros p A L; apply rep_empty|]. intros p M Hr. split; [by apply rep_alloc|]. intros f n Hf. split_and!.
  - by eapply rep_ram.
  - by eapply rep_get.
  - intros ->. by apply rep_free.
  - intros Hn. by eapply rep_inc.
  - by eapply rep_dec.
Qed.

(** Eight frames of which the upper four are free. *)
Definition demo_half : buddy := default demo_boot (pmm_buddy_free_locked_for_pcp demo_boot (4 * PAGE_SIZE) 2).

Lemma demo_half_ok : exists F, buddy_inv demo_half F /\ counted demo_half F /\ total_frames demo_half = 8 /\ forall x, free_frame F x <-> 4 <= x < 8.
Proof.
  assert (Hi : buddy_inv demo_boot (fun _ => [])).
  { apply boot_inv; [by rewrite MAX_FRAMES_val|by rewrite PAGE_SIZE_val|]. intros f Hf. by apply demo_ram_mapped. }
  destruct (free_for_pcp_spec demo_boot (fun _ => []) 2 4) as (s' & F' & Hrun & Hi' & Hc' & Hff & _ & Ht); [done|done|done|intros; apply boot_no_free|].
  exists F'. unfold demo_half. rewrite Hrun. cbn [default from_option]. do 3 (split; [done|]). intros x. rewrite Hff. pose proof (boot_no_free x). simpl. tauto.
Qed.

Lemma demo_half_pins i : 0 <= i < 8 -> is_Some (pincount demo_half !! i).
Proof.
  assert (Hall : Forall (fun i => is_Some (pincount demo_half !! i)) (seqZ 0 8)) by (apply (bool_decide_unpack _); vm_compute; exact I).
  intros Hi. apply (proj1 (Forall_forall _ _) Hall). by apply elem_of_seqZ.
Qed.

Lemma pmm_supplies_frames_witness : exists F p' r, pmm_buddy_alloc (fresh_pmm demo_half 2) 0 0 = Some (p', r) /\
  ((r = PMM_INVALID_ADDR /\ rep 0 8 (free_frame F) ∅ [] [] p' ∅) \/ (is_ram 8 r /\ rep 0 8 (free_frame F) ∅ [] [] p' {[r := 1]})).
Proof.
  destruct demo_half_ok as (F & Hi & Hc & Ht & Hff). exists F. pose proof (fresh_inv demo_half F 2 Hi Hc) as Hp. rewrite Ht in Hp.
  destruct (pmm_supplies_frames 0 8 (free_frame F) ∅ [] []) as [Hstart Hcalls]; [lia|rewrite Hff; lia|].
  destruct (Hcalls (fresh_pmm demo_half 2) ∅) as [(p' & r & Hrun & Hres) _].
  - apply (Hstart _ ∅ (fun _ _ => [])); [exact Hp|exact demo_half_pins|by eexists].
  - exists p', r. split; [exact Hrun|]. destruct Hres as [Hr|(Hr & _ & Hr')]; [left; exact Hr|right; exact (conj Hr Hr')].
Defined.
