(* ===== verification/CacheTheorems.v ===== *)
(** * Page cache and shared memory: the properties

    The page cache as a map from files and page numbers to frames that holds
    one reference to each, shared memory objects as growing and shrinking arrays
    of pages, and where the code around them goes wrong. *)

From S2P Require Import Prelude Errno DList Buddy Cred UnixNs Vma Frames PageTable PageTableSpec PageTableOps PageClone Shmem Pcache PcacheSpec PcacheOps.
From S2P Require Import PageFault FilePage ShmemSpec PageFaultSpec FaultHandler AddressSpace VmTrace FrameModel.




(** C10: A shared memory object is an array of pages that are zero until they
    are touched.  [shmem_get_page] returns the frame of a page inside the
    object, the same each time, with a reference for the caller, and touches no
    page in use; [shmem_resize] keeps the pages below the new size, gives back
    exactly the references to those above, and adds missing pages, within the
    limit of the object table; [shmem_free_rcu] gives back all of them.  All
    references to all frames stay accounted for. *)
Theorem shm_objects_correct {A} `{FrameLaws A} kroot kwin T P D (w : shmw A) M Y x o :
  so_sys kroot kwin T P D (sw_m w) M (sw_objs w) Y -> sw_objs w !! x = Some o -> bnd 4 M ->
  (forall idx, 0 <= idx -> exists w' f, shmem_get_page w x idx = Some (w', f) /\
     (forall g, is_Some (M !! g) \/ ~ fr_ram g -> ram (sw_m w') !! g = ram (sw_m w) !! g) /\
     ((f = PMM_INVALID_ADDR /\ sw_objs w' = sw_objs w /\ so_sys kroot kwin T P D (sw_m w') M (sw_objs w') Y) \/
      (idx < so_npages o /\ fr_ram f /\ exists M', so_sys kroot kwin T P D (sw_m w') M' (sw_objs w') (bump1 f 1 Y) /\
         ((so_pages o !! Z.to_nat idx = Some f /\ sw_objs w' = sw_objs w) \/
          (so_pages o !! Z.to_nat idx = Some 0 /\ M !! f = None /\ ram (sw_m w') !! f = Some ∅ /\
           sw_objs w' = <[x := with_pages (<[Z.to_nat idx := f]> (so_pages o)) (so_npages o) o]> (sw_objs w)))))) /\
  (forall n mem, 0 <= n -> exists w' rc M', shmem_resize w mem x n = Some (w', rc) /\ ram (sw_m w') = ram (sw_m w) /\
     ((w' = w /\ M' = M /\ (rc = - EINVAL /\ SHMEM_MAX_PAGES < n \/ rc = - ENOMEM /\ mem = false /\ so_max_pages o < n)) \/
      (rc = 0 /\ exists l, live_pages (with_pages l n o) = resized o n /\ sw_objs w' = <[x := with_pages l n o]> (sw_objs w))) /\
     so_sys kroot kwin T P D (sw_m w') M' (sw_objs w') Y) /\
  (exists w' M', shmem_free_rcu w x = Some w' /\ sw_objs w' = delete x (sw_objs w) /\ ram (sw_m w') = ram (sw_m w) /\
     so_sys kroot kwin T P D (sw_m w') M' (sw_objs w') Y).
Proof.
  intros Hs Hx Hb. split_and!.
  - intros idx Hi. destruct (get_page_spec kroot kwin T P D w M Y x o idx Hs Hx Hi Hb) as (w' & f & Hrun & _ & _ & Hram & Hcase). exists w', f.
    split_and!; [done..|]. destruct Hcase as [Hc|(H1 & H2 & M' & _ & H3 & _ & H4)]; [by left|right]. split_and!; [done..|]. by exists M'.
  - intros n mem Hn. destruct (resize_spec kroot kwin T P D w M Y x o n mem Hs Hx Hn) as (w' & rc & M' & Hrun & _ & _ & Hram & Hcase & Hs'). by exists w', rc, M'.
  - destruct (free_rcu_spec kroot kwin T P D w M Y x o Hs Hx) as (w' & M' & Hrun & Ho & _ & _ & Hram & Hs'). by exists w', M'.
Qed.

(** An object of four pages that nobody has touched. *)
Definition demo_object : shm := Shm (replicate 64 0) 4 1 0 0 0 [].
Definition demo_objects : shmw (gmap Z Z) := Shmw boot_machine {[1 := demo_object]} None [].

Lemma demo_objects_sys : so_sys KROOT high boot_tables ∅ no_refs boot_machine {[KROOT := 1]} {[1 := demo_object]} no_refs.
Proof.
  constructor; try done.
  - eapply vm_inv_ext; [|exact boot_vm]. intros f. unfold orefs, no_refs. rewrite map_to_list_singleton.
    change (occ (replicate 4 0 ++ []) f + 0 = 0). by rewrite app_nil_r, occ_zeros.
  - intros x o [<- <-]%lookup_singleton_Some. constructor; try done. intros p Hp Hn. exfalso. apply Hn.
    change (p ∈ replicate 4 0) in Hp. by apply elem_of_replicate in Hp as [-> _].
Qed.

Lemma shm_objects_correct_witness : exists w', shmem_free_rcu demo_objects 1 = Some w' /\ sw_objs w' = delete 1 {[1 := demo_object]}.
Proof.
  destruct (shm_objects_correct KROOT high boot_tables ∅ no_refs demo_objects {[KROOT := 1]} no_refs 1 demo_object demo_objects_sys)
    as (_ & _ & w' & _ & Hrun & Ho & _).
  - reflexivity.
  - intros f n [_ <-]%lookup_singleton_Some. reflexivity.
  - exists w'. exact (conj Hrun Ho).
Defined.

(** ** Where it goes wrong *)




